(* ===== verification/_CoqProject ===== *)
-Q . S2P
Prelude.v
JsNum.v
JsString.v
JsRegex.v
JsFloat.v
JsSplit.v
Uci.v
UciFacts.v
Backend.v
UciScript.v
Sections.v
Ip4.v
Validate.v
Ip4Facts.v
ValidateFacts.v
Ip6.v
Overlap.v
OverlapFacts.v
Table.v
TableFacts.v
TableEdit.v
Ports.v
Text.v
Dom.v
Forms.v
FormFacts.v
Modal.v
PortFacts.v
TextFacts.v
AddrTable.v
AddrFacts.v
TimeRanges.v
TimeFacts.v
Quotas.v
QuotaPage.v
QuotaFacts.v
QuotaUse.v
Ddns.v
DdnsFacts.v
DdnsUse.v
DdnsSave.v
Routing.v
RoutingFacts.v
RoutingSave.v
RoutingUse.v
PortForward.v
PortForwardFacts.v
PortForwardSave.v
Dhcp.v
DhcpFacts.v
DhcpSave.v
Vpn.v
OpenVpn.v
WireGuard.v
VpnFacts.v
VpnText.v
VpnTextFacts.v
OvpnPage.v
OvpnFacts.v
Restrictions.v
RestrictionUse.v
RestrictionFacts.v
WifiEvents.v
WifiSchedule.v
WifiFacts.v
WifiLoad.v
WifiUse.v
Plugins.v
PluginFacts.v
Qos.v
QosText.v
QosFacts.v
