(* ===== verification/Prelude.v ===== *)
(** * The web interface of Gargoyle: a model of its JavaScript core

    Gargoyle is a firmware for routers.  Its web interface is a set of pages,
    each a script under [src/package/gargoyle/files/www/js/] on top of a shared
    library.  A page loads the router's configuration (UCI) into a container
    [uciOriginal], shows it in form fields and tables, lets the user edit them,
    validates the fields, writes the result in a copy [uci], and sends the
    router a shell script of [uci] commands that turns the old configuration
    into the new one.  This development models that core: [common.js] (the
    library), [table.js] (tables), and on top of them the pages with logic of
    their own ([quotas.js], [routing.js], [dhcp.js], [port_forwarding.js],
    [restrictions.js], [plugins.js], and of the plugins [openvpn.js],
    [wireguard.js], [wifi_schedule.js], [qos.js] and [ddns.js]), function by function and
    under the source's names, and proves what makes each part correct.

    ** Layout

    - [Prelude]: exceptions as values ([exn], with [let!] notation), folds that
      can throw, automation, list lemmas.
    - [JsNum], [JsString], [JsRegex]: the part of JavaScript the code uses.
      Numbers are exact decimals, NaN and the infinities, with 32-bit wrap-around
      for the bit operators ([Num.signed32]); strings are lists of UTF-16 code
      units; regular expressions are parsed from their source text by [rx] and
      run by the backtracking matcher of the standard in continuation style,
      structurally recursive on the expression; [rmatch_sound] and
      [rmatch_complete] relate it to a declarative semantics.  [JsFloat]: quotients
      as IEEE doubles and their texts.  [JsSplit]: [split] at runs of characters.
    - [Uci]: the container [UCIContainer] ([common.js], lines 305-688): a record
      of the ordered keys, the values and the list marks, one definition per
      method, [getScriptCommands] included.  [UciFacts]: reachability by the
      relation [uci_step] and its invariant [wf] and [shaped]; [get] after [set],
      removal, cloning, queries, line texts.
    - [Backend]: what the router promises: type classes [PosixShell] (the quoting
      rules of the shell) and [UciBackend] (the effect of [uci set], [add_list],
      [del] and [commit] on a store), each with an instance that shows that the
      laws can hold.  [UciScript]: the script is read back as the intended
      commands, and run on a store with the old settings it leaves the new ones.
    - [Sections]: how the pages read and write the sections of a type.
    - [Ip4], [Validate], [Ip6], [Overlap]: addresses, masks and ranges, validators
      and the overlap test; [Ip4Facts], [ValidateFacts], [OverlapFacts]: round
      trips, the exact languages accepted, subnets and intersection.
    - [Table] and [TableFacts]: tables as records of rows with identities; every
      sequence of button presses keeps a table well formed and acts on its data
      as the buttons say; filters.  [TableEdit]: cells rewritten by the pages, and
      comparing a form with the rows of a table, one of them excluded.
    - [Dom], [Forms], [FormFacts]: a document is a map from identifiers to
      elements and a log of alerts; drop-down lists, enabling, visibility,
      proofreading, and the setters and loaders that bind options to fields.
      [Modal]: windows filled from a list of elements, descriptions.
    - [Ports] and [PortFacts]: the ports in use and the conflict test.
    - [Text] and [TextFacts]: bytes, times, time zones, request parameters.
    - [AddrTable] and [AddrFacts]: adding addresses to a table, whose rows stay
      pairwise disjoint.
    - [TimeRanges] and [TimeFacts]: weekly time ranges in seconds, their cutting at
      the end of the period, inversion and overlap.
    - [Quotas], [QuotaPage], [QuotaFacts], [QuotaUse]: the quota page: identifiers,
      the form read into the container and back, validation, editing, removing,
      saving; its table and windows, which follow the settings under use.
    - [Ddns], [DdnsFacts], [DdnsUse], [DdnsSave]: the page of dynamic DNS: the file of
      the providers, the fields that are made for a provider, the services under
      use, saving.
    - [Routing], [RoutingFacts], [RoutingUse], [RoutingSave]: the routing page:
      destinations and masks, the tables under use, saving and loading.
    - [PortForward], [PortForwardFacts], [PortForwardSave]: the port forwarding
      page: rules that stay apart while they are added, merged and edited, saving
      and loading.
    - [Dhcp], [DhcpFacts], [DhcpSave]: the DHCP page: static leases and the range.
    - [Vpn], [OpenVpn], [WireGuard], [VpnFacts]: allowed clients of the two VPN
      servers: identifiers, free addresses, subnets and their conflicts.  [Vpn]
      holds what the two scripts share, with the name of the package as an
      argument.  [VpnText], [VpnTextFacts]: the configuration text of an OpenVPN
      client and the controls that show its directives.  [OvpnPage], [OvpnFacts]: the
      OpenVPN page: modes, allowed clients, firewall, loading and saving; the pool of
      addresses of a shared certificate and the firewall of each mode.
    - [Restrictions], [RestrictionUse], [RestrictionFacts]: the page of access
      restrictions: rules and exceptions, their windows and tables; the tables
      follow the settings under use; the list of URLs comes back.
    - [WifiEvents]: a schedule as events of a week and what a radio does under
      them.  [WifiSchedule]: the plugin that turns tables of hours into lines of
      the crontab and back.  [WifiFacts] (the class [Cron] of what the daemon
      promises), [WifiLoad], [WifiUse]: the lines keep the schedule, they are read
      back, and the tables stay well formed under use.
    - [Plugins], [PluginFacts]: the page of the plugins: versions of packages, lists
      of packages and sources, the root of the plugins.
    - [Qos], [QosText], [QosFacts]: the pages of the quality of service: classes and
      rules, the text of the criteria of a rule and its parser, loads, saving.
      [QosText] is on expressions made of a label and a value and on lists with
      commas; the class [Labels] of [QosFacts] says what a language pack has to
      give, with instances for the English and the German one.

    ** How the source is rendered

    A function that can throw returns [exn].  A function that reads or writes the
    document, a table or a container takes it and returns the new one; globals
    that a function assigns and another reads are fields of the state
    ([Forms.page], [Quotas.quota_page]).  An element that is missing throws a
    [TypeError] at its first use.  The strings of the language packs ([UI],
    [quotasStr]) are parameters of the definitions that show them.  Loops are
    structural folds; where the source loops on a condition the definition has
    fuel, and enough of it: [Ip4.subnet_start] as much as the octet it climbs to,
    [Ip4.strip_zeros] the length of the text, [TimeRanges.split_wrapped] twice the
    ranges, [Quotas.find_id] one more turn than there are quotas; the searches of
    [Vpn] take their fuel as an argument, and one turn for each address or name in
    use is enough; [Restrictions.free_rule] has one turn for each key and one more,
    [Restrictions.url_pieces] the length of the text, [Qos.pad4] the four blanks
    that can be missing, [Quotas.free_number] and [Ddns.free_number] one turn
    for each key and one more, [Ddns.parse_providers] and [Ddns.provider_lines] the
    number of the lines, [VpnText.cipher_boxes] the number of the elements and one
    more.  The theorems [subnet_range_block], [split_ranges_cover],
    [new_quota_id_fresh], [unused_ip_fresh] and [providers_by_blocks] and the lemmas
    [free_rule_total], [free_section_spec], [free_section_ddns] and [all_boxes_end] prove the result for it.

    ** What the theorems show

    - Refinement and reading back of the script ([UciScript]); invariant,
      functional and round-trip theorems of the container ([UciFacts]).
    - The address and mask functions compute the subnets they should, on strings
      and at 32 bits; the validators accept exactly the described languages; the
      overlap test is intersection of sets of addresses ([Ip4Facts],
      [ValidateFacts], [OverlapFacts]).
    - Forms: an untouched form changes nothing when saved; proofreading reports an
      error exactly when a visible field is wrong; lists of options ([FormFacts]).
    - Tables: well-formedness under use, the effect of the buttons, round trip of
      the data, filters ([TableFacts]).
    - Ports, texts, times and quotas: conflict exactly on a common port; nearest
      numbers; unambiguous parameters; cover, complement and overlap of ranges;
      fresh identifiers; times read back ([PortFacts], [TextFacts], [TimeFacts],
      [QuotaFacts]).
    - Pages: what is added, edited and removed on a page keeps the invariant that
      its checks are there for ([forwards_stay_separate], [static_leases_apart],
      [static_routes_stay_normal]); what is saved is what is loaded
      ([forwards_roundtrip], [routes_roundtrip], [leases_roundtrip]); destinations
      and subnets are the networks meant ([parseDest_network],
      [adjust_is_network], [wg_overlap_iff]); the search for a free address ends
      with one ([unused_ip_fresh]); the tables of restrictions are those of the
      settings ([rule_tables_follow_settings], [url_table_roundtrip]), and so is the
      table of quotas ([quota_table_follows_settings]).
    - Plugins: the lines of the crontab turn the radio on and off as the tables say
      and are read back ([cron_keeps_schedule], [schedule_roundtrip],
      [reachable_well_formed]); the version that is shown is the installed one or
      one that no other is newer than ([current_or_latest]); rules of the quality
      of service come back with their criteria in the same order
      ([rules_roundtrip]); no two services of dynamic DNS have the same domain
      ([services_stay_apart]), their commands bring the router to the settings of
      the page ([ddns_save_refines]) and the providers are those of the file
      ([providers_by_blocks]); the controls of an OpenVPN client and its text agree
      ([client_text_roundtrip]); the pool of a server lies inside its subnet beside the
      address of the server ([server_pool_inside]), and the sections of the firewall
      are those of the mode that is saved ([saved_firewall]).
    - The last theorems of several files show where the code does not do what it
      means to: [combined_uses_stale_value], [filter_lost_by_row_classes],
      [forwarded_port_not_used], [overlap_misses_after_empty_range],
      [ip6_subnet_misses], [zero_mask_overlaps_nothing], [range_across_sign], [uci_query_crosses_packages],
      [edit6_window_not_filled], [lease_checks_miss], [reversed_range_accepted],
      [suffix_not_anchored], [lease_times_shown], [leading_zero_accepted],
      [open_range_merge_wrong_table], [new_rule_without_protocol],
      [disabled_rule_is_merged], [nested_subnets_accepted],
      [edit_subnet_conflicts_with_itself], [client_id_may_be_empty],
      [off_after_on_missing], [change_of_mode_throws], [list_of_days_unknown],
      [versions_not_ordered], [second_quote_stays], [root_path_undefined],
      [spanish_port_is_source], [russian_bytes_lost], [easydns_window_throws],
      [rport_not_read], [unnamed_key_loses_direction], [unknown_provider_edit_clash].

    ** Not modelled

    Requests, cookies, timers, navigation and the keys of modal windows (browser
    input and output); the focus and the layout of elements; drawing; language
    packs; third-party libraries (sortable tables, QR codes); the C and shell
    programs of the router, of which only the laws in [Backend] are used.

    The pages of access, hosts, bandwidth, basic settings, e-mail, USB storage and
    the short pages beside them, which bind fields to options with the components
    modelled here; of the VPN plugins, the submission of files to the router by the
    OpenVPN page, and loading and saving of the WireGuard page.

    Numbers are not rounded to binary floating point: the values the code handles
    are integers below 2^53 and short decimals; the shares of bandwidth of [Qos],
    which are quotients, are computed in IEEE doubles.  A comment of a [Qos] rule has
    no markup, so that writing it as HTML and reading it back changes nothing.  An
    array that is stored by [Uci.set] is a value.  The script that runs the commands
    strips carriage returns; [Backend] is on commands without them.  [WifiSchedule.eval]
    knows numbers, differences and lists; the theorems that use it are on crontabs
    whose fields have no other form. *)

From Stdlib Require Export ZArith Lia Bool.
From stdpp Require Export base list strings gmap sets.

#[export] Set Default Goal Selector "!".
Open Scope Z_scope.

(** ** Thrown exceptions

    A JavaScript function that can throw returns [exn A]: [Ret a] for a normal
    completion and [Raise e] for an abrupt one. *)
Inductive jserror :=
| TypeError
| ReferenceError
| SyntaxError
| RangeError
| URIError.

Inductive exn (A : Type) :=
| Ret (a : A)
| Raise (e : jserror).
Arguments Ret {A} a.
Arguments Raise {A} e.

Definition exn_bind {A B} (m : exn A) (f : A → exn B) : exn B :=
  match m with Ret a => f a | Raise e => Raise e end.

Definition exn_of_option {A} (e : jserror) (o : option A) : exn A :=
  match o with Some a => Ret a | None => Raise e end.

Declare Scope js_scope.
Delimit Scope js_scope with js.
Notation "'let!' x ':=' m 'in' k" := (exn_bind m (fun x => k))
  (at level 10, x name, m at level 100, k at level 200) : js_scope.
Open Scope js_scope.

Fixpoint exn_fold {A B} (f : A → B → exn A) (l : list B) (a : A) : exn A :=
  match l with
  | [] => Ret a
  | x :: l' => exn_bind (f a x) (exn_fold f l')
  end.

Lemma exn_fold_ret {A B} (f : A → B → A) (g : A → B → exn A) (l : list B) a :
  (∀ a x, x ∈ l → g a x = Ret (f a x)) → exn_fold g l a = Ret (fold_left f l a).
Proof.
  revert a; induction l as [|x l IH]; intros a H; simpl; [done|].
  rewrite H by set_solver. simpl. apply IH. set_solver.
Qed.

Lemma exn_fold_ext {A B} (f g : A → B → exn A) (l : list B) a :
  (∀ a x, x ∈ l → f a x = g a x) → exn_fold f l a = exn_fold g l a.
Proof.
  revert a; induction l as [|x l IH]; intros a H; simpl; [done|].
  rewrite H by set_solver. destruct (g a x); simpl; [apply IH; set_solver|done].
Qed.

(** What a normal completion says of the steps before it. *)
Lemma exn_bind_Ret {A B} (m : exn A) (f : A → exn B) b : exn_bind m f = Ret b ↔ ∃ a, m = Ret a ∧ f a = Ret b.
Proof. destruct m; simpl; [|naive_solver]. split; [eauto|]. by intros (? & [= <-] & ?). Qed.

Lemma exn_fold_inv {A B} (P : A → Prop) (f : A → B → exn A) (l : list B) a a' :
  (∀ a x a', x ∈ l → P a → f a x = Ret a' → P a') → P a → exn_fold f l a = Ret a' → P a'.
Proof.
  revert a. induction l as [|x l IH]; intros a H Ha; simpl; [by intros [= <-]|].
  intros (a1 & E & E')%exn_bind_Ret. apply (IH a1); [|by eapply H; [left| |]|done].
  intros b y b' Hy. apply H. by right.
Qed.

Ltac binds H :=
  repeat match type of H with
  | exn_bind _ _ = Ret _ =>
      apply exn_bind_Ret in H; let a := fresh "a" in let E := fresh "E" in destruct H as (a & E & H); cbv beta iota zeta in H
  end.

(** ** Boolean reflection *)
Ltac bsimpl :=
  repeat match goal with
  | H : _ && _ = true |- _ => apply andb_true_iff in H; destruct H
  | H : _ || _ = false |- _ => apply orb_false_iff in H; destruct H
  | H : negb _ = true |- _ => apply negb_true_iff in H
  | H : negb _ = false |- _ => apply negb_false_iff in H
  | H : bool_decide _ = true |- _ => apply bool_decide_eq_true in H
  | H : bool_decide _ = false |- _ => apply bool_decide_eq_false in H
  end.

(** Case on the condition of every [if] of the goal, keeping the equation. *)
Ltac ifcase :=
  match goal with
  | |- context [if ?b then _ else _] => let E := fresh "E" in destruct b eqn:E
  end.

(** Decide the integer tests of the goal that the context refutes. *)
Ltac neqb :=
  repeat match goal with
  | |- context [?c =? ?k] => rewrite (proj2 (Z.eqb_neq c k)) by lia
  end.

(** Linear arithmetic with divisions by constants. *)
Ltac divlia := Z.to_euclidean_division_equations; lia.

(** Discharge the failing cases of a computation that is known to succeed. *)
Ltac simp_exn :=
  repeat match goal with
  | H : Ret _ = Ret _ |- _ => injection H as H; subst
  | H : Raise _ = Ret _ |- _ => discriminate H
  | H : Ret _ = Raise _ |- _ => discriminate H
  end.

(** ** Lists *)
Section lists.
Context {A : Type}.
Implicit Types (l k : list A).

Lemma forallb_Forall (f : A → bool) l : forallb f l = true ↔ Forall (λ x, f x = true) l.
Proof. rewrite forallb_forall, Forall_forall. split; intros H x; [rewrite list_elem_of_In|rewrite <- list_elem_of_In]; auto. Qed.

Lemma existsb_Exists (f : A → bool) l : existsb f l = true ↔ Exists (λ x, f x = true) l.
Proof.
  rewrite existsb_exists, Exists_exists. split; intros (x & Hx & ?); exists x;
    split; try done; by apply list_elem_of_In.
Qed.

Lemma filter_all (f : A → bool) l : Forall (λ x, f x = true) l → List.filter f l = l.
Proof. induction 1 as [|x l Hx _ IH]; [done|]. cbn. by rewrite Hx, IH. Qed.

Lemma filter_none (f : A → bool) l : Forall (λ x, f x = false) l → List.filter f l = [].
Proof. induction 1 as [|x l Hx _ IH]; [done|]. cbn. by rewrite Hx, IH. Qed.

Lemma delete_elem (l : list A) i x y : NoDup l → l !! i = Some x → y ∈ delete i l ↔ y ≠ x ∧ y ∈ l.
Proof.
  intros Hnd Hx. rewrite (delete_Permutation _ _ _ Hx) in Hnd. apply NoDup_cons in Hnd as [Hn _].
  rewrite (delete_Permutation l i x Hx) at 2. rewrite elem_of_cons. naive_solver.
Qed.

Lemma insert_elem (l : list A) i x y z : NoDup l → l !! i = Some x → z ∈ <[i := y]> l ↔ z = y ∨ z ≠ x ∧ z ∈ l.
Proof.
  intros Hnd Hx. apply list_elem_of_split_length in Hx as (a & b & -> & Hlen).
  rewrite insert_app_r_alt by lia. rewrite Hlen, Nat.sub_diag. cbn [insert list_insert]. apply NoDup_app in Hnd as (_ & H1 & H2).
  apply NoDup_cons in H2 as [H2 _]. specialize (fun c Hc => H1 c Hc). rewrite !elem_of_app, !elem_of_cons. split.
  - intros [Hz|[Hz|Hz]]; [right|by left|right]; (split; [|by auto]).
    + intros ->. apply (H1 x Hz). by left.
    + by intros ->.
  - naive_solver.
Qed.

Lemma app_inv_mid (P : A → Prop) l1 l2 k1 k2 c :
  Forall P l1 → Forall P k1 → ¬ P c →
  l1 ++ c :: l2 = k1 ++ c :: k2 → l1 = k1 ∧ l2 = k2.
Proof.
  intros H1 H2 Hc. revert k1 H2.
  induction H1 as [|x l1 Hx H1 IH]; intros k1 H2 Heq; inversion H2; simplify_list_eq.
  - done.
  - done.
  - done.
  - destruct (IH l) as [-> ->]; naive_solver.
Qed.

Lemma fold_left_ext {B} (f g : B → A → B) l b :
  (∀ b x, x ∈ l → f b x = g b x) → fold_left f l b = fold_left g l b.
Proof.
  revert b; induction l as [|x l IH]; intros b H; simpl; [done|].
  rewrite H by set_solver. apply IH. set_solver.
Qed.

(** Every two elements at different places are related. *)
Definition pairwise (R : A → A → Prop) l : Prop :=
  ∀ i j x y, l !! i = Some x → l !! j = Some y → i ≠ j → R x y.

Section pairwise.
Context (R : A → A → Prop) `{!Symmetric R}.

Lemma pairwise_snoc l x : pairwise R l → (∀ y, y ∈ l → R y x) → pairwise R (l ++ [x]).
Proof.
  intros Ha Hn i j a b Hx Hy Hij. apply lookup_app_Some in Hx as [Hx|[Hi Hx]], Hy as [Hy|[Hj Hy]].
  - by eapply Ha.
  - apply list_lookup_singleton_Some in Hy as [_ <-]. apply Hn. by eapply list_elem_of_lookup_2.
  - apply list_lookup_singleton_Some in Hx as [_ <-]. symmetry. apply Hn. by eapply list_elem_of_lookup_2.
  - apply list_lookup_singleton_Some in Hx as [? _], Hy as [? _]. lia.
Qed.

Lemma pairwise_insert l i x : pairwise R l → (∀ j y, l !! j = Some y → j ≠ i → R y x) → pairwise R (<[i := x]> l).
Proof.
  intros Ha Hn a b y z Hx Hy Hab. apply list_lookup_insert_Some in Hx as [(<- & <- & _)|[Hai Hx]], Hy as [(<- & <- & _)|[Hbi Hy]].
  - done.
  - symmetry. by eapply Hn.
  - by eapply Hn.
  - by eapply Ha.
Qed.

Lemma pairwise_delete l i : pairwise R l → pairwise R (delete i l).
Proof.
  intros Ha a b x y Hx Hy Hab. assert (Hl : ∀ c z, delete i l !! c = Some z → ∃ c', l !! c' = Some z ∧ c' = if decide (c < i)%nat then c else S c).
  { intros c z Hz. case_decide.
    - rewrite list_lookup_delete_lt in Hz by done. eauto.
    - rewrite list_lookup_delete_ge in Hz by lia. eauto. }
  apply Hl in Hx as (a' & Hx & Ea), Hy as (b' & Hy & Eb). eapply Ha; [done..|]. repeat case_decide; lia.
Qed.
End pairwise.

End lists.

(** Hint databases of the development. *)
Create HintDb uci discriminated.
Create HintDb jsdb discriminated.
