(* ===== verification/JsNum.v ===== *)
(** * JavaScript numbers

    The part of ECMAScript's Number type that the sources use.  A number is
    NaN, an infinity, or the exact decimal [m * 10^e]; the literals of the
    sources and every integer below [2^53] are represented exactly.  Rounding
    to double precision and the sign of zero are not represented. *)
From S2P Require Import Prelude.
Open Scope Z_scope.

Inductive num :=
| NaN
| Inf (neg : bool)
| Dec (m e : Z).

(** Integers are the decimals of exponent 0. *)
Abbreviation Int z := (Dec z 0).

#[export] Instance num_eq_dec : EqDecision num.
Proof. solve_decision. Defined.

Module Num.

Definition isNaN (x : num) : bool := match x with NaN => true | _ => false end.

(** The two mantissas brought to the smaller of the two exponents. *)
Definition align (m1 e1 m2 e2 : Z) : Z * Z :=
  let e := Z.min e1 e2 in (m1 * 10 ^ (e1 - e), m2 * 10 ^ (e2 - e)).

Definition add (x y : num) : num :=
  match x, y with
  | NaN, _ | _, NaN => NaN
  | Inf a, Inf b => if Bool.eqb a b then Inf a else NaN
  | Inf a, _ | _, Inf a => Inf a
  | Dec m1 e1, Dec m2 e2 =>
      let '(a, b) := align m1 e1 m2 e2 in Dec (a + b) (Z.min e1 e2)
  end.

Definition opp (x : num) : num :=
  match x with NaN => NaN | Inf a => Inf (negb a) | Dec m e => Dec (- m) e end.

Definition sub (x y : num) : num := add x (opp y).

Definition mul (x y : num) : num :=
  match x, y with
  | NaN, _ | _, NaN => NaN
  | Inf a, Inf b => Inf (xorb a b)
  | Inf a, Dec m _ | Dec m _, Inf a =>
      if m =? 0 then NaN else Inf (xorb a (m <? 0))
  | Dec m1 e1, Dec m2 e2 => Dec (m1 * m2) (e1 + e2)
  end.

(** Relational operators: every comparison with NaN is false. *)
Definition ltb (x y : num) : bool :=
  match x, y with
  | NaN, _ | _, NaN => false
  | Inf a, Inf b => a && negb b
  | Inf a, Dec _ _ => a
  | Dec _ _, Inf b => negb b
  | Dec m1 e1, Dec m2 e2 => let '(a, b) := align m1 e1 m2 e2 in a <? b
  end.

Definition leb (x y : num) : bool :=
  match x, y with
  | NaN, _ | _, NaN => false
  | _, _ => negb (ltb y x)
  end.

Definition eqb (x y : num) : bool :=
  match x, y with
  | NaN, _ | _, NaN => false
  | _, _ => negb (ltb x y) && negb (ltb y x)
  end.

Definition gtb (x y : num) : bool := ltb y x.
Definition geb (x y : num) : bool := leb y x.

(** Truncation toward zero, as ToIntegerOrInfinity does before the bit operators. *)
Definition trunc (m e : Z) : Z :=
  if 0 <=? e then m * 10 ^ e else Z.quot m (10 ^ (- e)).

(** *** 32-bit integers *)
Definition wrap32 (z : Z) : Z := z mod 2 ^ 32.

Definition signed32 (z : Z) : Z :=
  let u := wrap32 z in if u <? 2 ^ 31 then u else u - 2 ^ 32.

Definition toInt32 (x : num) : Z :=
  match x with Dec m e => signed32 (trunc m e) | _ => 0 end.

Definition toUint32 (x : num) : Z :=
  match x with Dec m e => wrap32 (trunc m e) | _ => 0 end.

(** The operators [<<], [>>], [>>>], [&], [|] and [~]. *)
Definition shl (x y : num) : Z := signed32 (Z.shiftl (toInt32 x) (toUint32 y mod 32)).
Definition sar (x y : num) : Z := signed32 (Z.shiftr (toInt32 x) (toUint32 y mod 32)).
Definition shr (x y : num) : Z := Z.shiftr (toUint32 x) (toUint32 y mod 32).
Definition band (x y : Z) : Z := signed32 (Z.land x y).
Definition bor (x y : Z) : Z := signed32 (Z.lor x y).
Definition bnot (x : Z) : Z := signed32 (Z.lnot x).

End Num.

(** ** Integers compute as integers *)
Section integers.

Lemma align_int a b : Num.align a 0 b 0 = (a, b).
Proof. unfold Num.align. simpl. by rewrite !Z.mul_1_r. Qed.

Lemma add_int a b : Num.add (Int a) (Int b) = Int (a + b).
Proof. unfold Num.add. by rewrite align_int. Qed.

Lemma sub_int a b : Num.sub (Int a) (Int b) = Int (a - b).
Proof. unfold Num.sub, Num.opp. by rewrite add_int, Z.add_opp_r. Qed.

Lemma mul_int a b : Num.mul (Int a) (Int b) = Int (a * b).
Proof. done. Qed.

Lemma ltb_int a b : Num.ltb (Int a) (Int b) = (a <? b).
Proof. unfold Num.ltb. by rewrite align_int. Qed.

Lemma leb_int a b : Num.leb (Int a) (Int b) = (a <=? b).
Proof. unfold Num.leb. rewrite ltb_int. lia. Qed.

Lemma gtb_int a b : Num.gtb (Int a) (Int b) = (b <? a).
Proof. apply ltb_int. Qed.

Lemma geb_int a b : Num.geb (Int a) (Int b) = (b <=? a).
Proof. apply leb_int. Qed.

Lemma eqb_int a b : Num.eqb (Int a) (Int b) = (a =? b).
Proof. unfold Num.eqb. rewrite !ltb_int. lia. Qed.

Lemma trunc_int z : Num.trunc z 0 = z.
Proof. unfold Num.trunc. simpl. lia. Qed.

Lemma signed32_range z : - 2 ^ 31 <= Num.signed32 z < 2 ^ 31.
Proof.
  unfold Num.signed32, Num.wrap32. pose proof (Z.mod_pos_bound z (2 ^ 32)) as H.
  destruct (Z.ltb_spec (z mod 2 ^ 32) (2 ^ 31)); lia.
Qed.

Lemma signed32_small z : - 2 ^ 31 <= z < 2 ^ 31 → Num.signed32 z = z.
Proof.
  intros H. unfold Num.signed32, Num.wrap32. destruct (decide (0 <= z)).
  - rewrite Z.mod_small by lia. destruct (Z.ltb_spec z (2 ^ 31)); lia.
  - replace (z mod 2 ^ 32) with (z + 2 ^ 32).
    + destruct (Z.ltb_spec (z + 2 ^ 32) (2 ^ 31)); lia.
    + symmetry. rewrite <- (Z.mod_add _ 1) by lia. apply Z.mod_small. lia.
Qed.

Lemma wrap32_signed32 z : Num.wrap32 (Num.signed32 z) = Num.wrap32 z.
Proof.
  unfold Num.signed32, Num.wrap32. destruct (Z.ltb_spec (z mod 2 ^ 32) (2 ^ 31)).
  - by rewrite Z.mod_mod by lia.
  - replace (z mod 2 ^ 32 - 2 ^ 32) with (z mod 2 ^ 32 + (-1) * 2 ^ 32) by lia.
    by rewrite Z.mod_add, Z.mod_mod by lia.
Qed.

Lemma signed32_congr z : ∃ k, Num.signed32 z = z + k * 2 ^ 32.
Proof.
  unfold Num.signed32, Num.wrap32. pose proof (Z.div_mod z (2 ^ 32)).
  destruct (Z.ltb_spec (z mod 2 ^ 32) (2 ^ 31)).
  - exists (- (z / 2 ^ 32)). lia.
  - exists (- (z / 2 ^ 32) - 1). lia.
Qed.

Lemma toInt32_int z : Num.toInt32 (Int z) = Num.signed32 z.
Proof. unfold Num.toInt32. by rewrite trunc_int. Qed.

Lemma toUint32_int z : Num.toUint32 (Int z) = Num.wrap32 z.
Proof. unfold Num.toUint32. by rewrite trunc_int. Qed.

End integers.

Create Rewrite HintDb jsnum.
#[export] Hint Rewrite add_int sub_int mul_int ltb_int leb_int gtb_int geb_int eqb_int
  trunc_int toInt32_int toUint32_int : jsnum.
Ltac numsimpl := autorewrite with jsnum in *.
