(* ===== verification/JsString.v ===== *)
(** * JavaScript strings

    A string is the list of its UTF-16 code units, each a [Z].  The file holds
    the String.prototype methods, number conversions and comparisons the
    sources use, with their lemmas.  [js] turns a literal into a string. *)
From S2P Require Import Prelude JsNum.
Open Scope Z_scope.

Abbreviation jstr := (list Z).

Definition js (s : string) : jstr :=
  map (fun a => Z.of_N (Ascii.N_of_ascii a)) (String.list_ascii_of_string s).

(** [s =s t] is the [==] of two strings. *)
Definition str_eqb (s t : jstr) : bool := bool_decide (s = t).
Infix "=s" := str_eqb (at level 70, no associativity) : js_scope.

(** ** Characters *)
Definition is_digit (c : Z) : bool := (48 <=? c) && (c <=? 57).
Definition is_upper (c : Z) : bool := (65 <=? c) && (c <=? 90).
Definition is_lower (c : Z) : bool := (97 <=? c) && (c <=? 122).
(** White space: tab, line feed, vertical tab, form feed, carriage return,
    space, no-break space and the byte order mark. *)
Definition is_space (c : Z) : bool :=
  ((9 <=? c) && (c <=? 13)) || (c =? 32) || (c =? 160) || (c =? 65279).

Definition upper_char (c : Z) : Z := if is_lower c then c - 32 else c.
Definition lower_char (c : Z) : Z := if is_upper c then c + 32 else c.

Definition hex_val (c : Z) : option Z :=
  if is_digit c then Some (c - 48)
  else if (97 <=? c) && (c <=? 102) then Some (c - 87)
  else if (65 <=? c) && (c <=? 70) then Some (c - 55)
  else None.

(** ** String.prototype *)
Definition toUpperCase (s : jstr) : jstr := map upper_char s.
Definition toLowerCase (s : jstr) : jstr := map lower_char s.

(** [split] on a separator of one code unit: never empty. *)
Fixpoint split_char (c : Z) (s : jstr) : list jstr :=
  match s with
  | [] => [[]]
  | x :: s' =>
      if x =? c then [] :: split_char c s'
      else match split_char c s' with
           | p :: ps => (x :: p) :: ps
           | [] => [[x]]
           end
  end.

(** [Array.prototype.join] of strings. *)
Fixpoint join (sep : jstr) (l : list jstr) : jstr :=
  match l with
  | [] => []
  | [s] => s
  | s :: l' => s ++ sep ++ join sep l'
  end.

Fixpoint is_prefix (p s : jstr) : bool :=
  match p, s with
  | [], _ => true
  | x :: p', y :: s' => (x =? y) && is_prefix p' s'
  | _ :: _, [] => false
  end.

(** [indexOf]: the first position, -1 when absent. *)
Fixpoint indexOf_from (i : Z) (s p : jstr) : Z :=
  if is_prefix p s then i
  else match s with [] => -1 | _ :: s' => indexOf_from (i + 1) s' p end.
Definition indexOf (s p : jstr) : Z := indexOf_from 0 s p.

Definition contains (s p : jstr) : bool := 0 <=? indexOf s p.

(** [lastIndexOf] of one code unit. *)
Fixpoint lastIndexOf_from (i last : Z) (s : jstr) (c : Z) : Z :=
  match s with
  | [] => last
  | x :: s' => lastIndexOf_from (i + 1) (if x =? c then i else last) s' c
  end.
Definition lastIndexOf (s : jstr) (c : Z) : Z := lastIndexOf_from 0 (-1) s c.

Definition zlen {A} (s : list A) : Z := Z.of_nat (length s).

(** [substr start len], with a negative start counted from the end. *)
Definition substr (s : jstr) (start len : Z) : jstr :=
  let b := if start <? 0 then Z.max 0 (zlen s + start) else start in
  take (Z.to_nat len) (drop (Z.to_nat b) s).
Definition substr_from (s : jstr) (start : Z) : jstr := substr s start (zlen s).

(** [substring start]. *)
Definition substring_from (s : jstr) (start : Z) : jstr := drop (Z.to_nat start) s.

Definition str_repeat (s : jstr) (n : Z) : jstr := concat (replicate (Z.to_nat n) s).
Definition padStart (s : jstr) (n : Z) (c : Z) : jstr :=
  replicate (Z.to_nat (n - zlen s)) c ++ s.

(** [s <= t]: lexicographic order of code units. *)
Fixpoint str_leb (s t : jstr) : bool :=
  match s, t with
  | [], _ => true
  | _ :: _, [] => false
  | x :: s', y :: t' => (x <? y) || ((x =? y) && str_leb s' t')
  end.

(** ** Conversions between strings and numbers *)

(** Value of a list of digits, most significant first. *)
Definition digits_val (base : Z) (l : list Z) : Z := fold_left (fun a d => a * base + d) l 0.
Definition dec_val (s : jstr) : Z := digits_val 10 (map (fun c => c - 48) s).

(** Digits of a non-negative number in a base, most significant first; the
    fuel is the number of binary digits, enough for every base of at least 2. *)
Fixpoint digits_fuel (fuel : nat) (base n : Z) (acc : list Z) : list Z :=
  match fuel with
  | O => acc
  | S f => if n <? base then n :: acc else digits_fuel f base (n / base) (n mod base :: acc)
  end.
Definition digits (base n : Z) : list Z := digits_fuel (S (Z.to_nat (Z.log2 n))) base n [].

Definition digit_char (d : Z) : Z := if d <? 10 then d + 48 else d + 87.

(** [Number.prototype.toString] of an integer in a radix. *)
Definition toStringRadix (base n : Z) : jstr :=
  if n <? 0 then 45 :: map digit_char (digits base (- n)) else map digit_char (digits base n).
Definition str_of_Z (n : Z) : jstr := toStringRadix 10 n.

Fixpoint trimStart (s : jstr) : jstr :=
  match s with c :: s' => if is_space c then trimStart s' else s | [] => [] end.
Definition trim (s : jstr) : jstr := rev (trimStart (rev (trimStart s))).

(** The longest prefix of characters in a class, and the rest. *)
Fixpoint span {A} (f : A → bool) (s : list A) : list A * list A :=
  match s with
  | x :: s' => if f x then let '(a, b) := span f s' in (x :: a, b) else ([], s)
  | [] => ([], [])
  end.

Definition is_hex (c : Z) : bool := match hex_val c with Some _ => true | None => false end.
Definition hex_digits (s : jstr) : list Z := map (fun c => default 0 (hex_val c)) s.

(** An optional sign: (is it a minus, the rest). *)
Definition sign (s : jstr) : bool * jstr :=
  match s with
  | c :: s' => if c =? 45 then (true, s') else if c =? 43 then (false, s') else (false, s)
  | [] => (false, [])
  end.
Definition apply_sign (neg : bool) (z : Z) : Z := if neg then - z else z.

Definition hex_prefix (s : jstr) : option jstr :=
  match s with
  | c0 :: x :: s' => if (c0 =? 48) && ((x =? 120) || (x =? 88)) then Some s' else None
  | _ => None
  end.

(** [parseInt] without a radix. *)
Definition parseInt (s : jstr) : num :=
  let '(neg, s1) := sign (trimStart s) in
  match hex_prefix s1 with
  | Some s2 =>
      match fst (span is_hex s2) with
      | [] => NaN
      | ds => Int (apply_sign neg (digits_val 16 (hex_digits ds)))
      end
  | None =>
      match fst (span is_digit s1) with
      | [] => NaN
      | ds => Int (apply_sign neg (dec_val ds))
      end
  end.

(** [parseInt(s, 16)]: an optional 0x prefix is skipped. *)
Definition parseInt16 (s : jstr) : num :=
  let '(neg, s1) := sign (trimStart s) in
  let s2 := default s1 (hex_prefix s1) in
  match fst (span is_hex s2) with
  | [] => NaN
  | ds => Int (apply_sign neg (digits_val 16 (hex_digits ds)))
  end.

(** [parseInt(s, 2)]. *)
Definition is_bit (c : Z) : bool := (c =? 48) || (c =? 49).
Definition parseInt2 (s : jstr) : num :=
  let '(neg, s1) := sign (trimStart s) in
  match fst (span is_bit s1) with
  | [] => NaN
  | ds => Int (apply_sign neg (digits_val 2 (map (fun c => c - 48) ds)))
  end.

(** ToNumber of a string: white space around a decimal or hexadecimal literal,
    the empty string as 0, anything else as NaN. *)
Definition parse_exponent (s : jstr) : option Z :=
  match s with
  | [] => Some 0
  | c :: s1 =>
      if (c =? 101) || (c =? 69) then
        let '(neg, s2) := sign s1 in
        if bool_decide (s2 ≠ []) && forallb is_digit s2 then Some (apply_sign neg (dec_val s2)) else None
      else None
  end.

Definition parse_decimal (neg : bool) (s : jstr) : num :=
  let '(ip, r1) := span is_digit s in
  let '(fp, r2) :=
    match r1 with
    | c :: r => if c =? 46 then span is_digit r else ([], r1)
    | [] => ([], [])
    end in
  match ip ++ fp with
  | [] => if s =s js "Infinity" then Inf neg else NaN
  | ds => match parse_exponent r2 with
          | Some e => Dec (apply_sign neg (dec_val ds)) (e - zlen fp)
          | None => NaN
          end
  end.

Definition toNumber (s : jstr) : num :=
  match trim s with
  | [] => Int 0
  | t =>
      match hex_prefix t with
      | Some h =>
          if bool_decide (h ≠ []) && forallb is_hex h then Int (digits_val 16 (hex_digits h)) else NaN
      | None => let '(neg, r) := sign t in parse_decimal neg r
      end
  end.

(** ** Lemmas *)
Section string_lemmas.

Lemma str_eqb_eq s t : (s =s t) = true ↔ s = t.
Proof. unfold str_eqb. by rewrite bool_decide_eq_true. Qed.

Lemma str_eqb_neq s t : (s =s t) = false ↔ s ≠ t.
Proof. unfold str_eqb. by rewrite bool_decide_eq_false. Qed.

Lemma str_eqb_refl s : (s =s s) = true.
Proof. by apply str_eqb_eq. Qed.

Lemma split_char_nonempty c s : split_char c s ≠ [].
Proof. destruct s as [|x s]; simpl; [done|]. by repeat case_match. Qed.

Lemma split_char_app c p s :
  c ∉ p → split_char c (p ++ c :: s) = p :: split_char c s.
Proof.
  induction p as [|x p IH]; intros Hp; simpl.
  - by rewrite Z.eqb_refl.
  - destruct (Z.eqb_spec x c) as [->|]; [set_solver|]. rewrite IH by set_solver. done.
Qed.

Lemma split_char_none c p : c ∉ p → split_char c p = [p].
Proof.
  induction p as [|x p IH]; intros Hp; simpl; [done|].
  destruct (Z.eqb_spec x c) as [->|]; [set_solver|]. by rewrite IH by set_solver.
Qed.

Lemma join_app sep a b : a ≠ [] → b ≠ [] → join sep (a ++ b) = join sep a ++ sep ++ join sep b.
Proof.
  intros Ha Hb. induction a as [|x a IH]; [done|]. destruct a as [|y a]; cbn [app join].
  - by destruct b.
  - cbn [app join] in IH. rewrite IH by done. by rewrite <- !app_assoc.
Qed.

(** [join] and [split] on one character are inverse to each other. *)
Lemma join_split_char c s : join [c] (split_char c s) = s.
Proof.
  induction s as [|x s IH]; simpl; [done|].
  destruct (Z.eqb_spec x c) as [->|].
  - destruct (split_char c s) eqn:E; [by apply split_char_nonempty in E|].
    rewrite <- IH. done.
  - destruct (split_char c s) as [|p ps] eqn:E; [by apply split_char_nonempty in E|].
    rewrite <- IH. destruct ps; done.
Qed.

Lemma split_char_join c l :
  l ≠ [] → Forall (λ p, c ∉ p) l → split_char c (join [c] l) = l.
Proof.
  induction l as [|p l IH]; intros Hl Hf; [done|]. inversion Hf as [|? ? Hp Hf']; subst.
  destruct l as [|q l]; simpl; [by apply split_char_none|].
  rewrite split_char_app by done. f_equal. by apply IH.
Qed.

Lemma split_char_pieces c s : Forall (λ p, c ∉ p) (split_char c s).
Proof.
  induction s as [|x s IH]; simpl.
  - repeat constructor. set_solver.
  - destruct (Z.eqb_spec x c) as [->|].
    + constructor; [set_solver|done].
    + destruct (split_char c s) as [|p ps]; [repeat constructor; set_solver|].
      inversion IH; subst. constructor; [set_solver|done].
Qed.

Lemma is_prefix_iff p s : is_prefix p s = true ↔ ∃ t, s = p ++ t.
Proof.
  revert s; induction p as [|x p IH]; intros s; simpl; [naive_solver|].
  destruct s as [|y s]; [split; [done|by intros [? ?]]|].
  rewrite andb_true_iff, IH, Z.eqb_eq. naive_solver.
Qed.

Lemma span_app {A} (f : A → bool) s : let '(a, b) := span f s in s = a ++ b.
Proof. induction s as [|x s IH]; simpl; [done|]. destruct (f x); [|done]. destruct (span f s). by subst. Qed.

Lemma span_all {A} (f : A → bool) s t :
  Forall (λ x, f x = true) s → (∀ x, head t = Some x → f x = false) → span f (s ++ t) = (s, t).
Proof.
  induction 1 as [|x s Hx Hs IH]; intros Ht; simpl.
  - destruct t as [|y t]; [done|]. simpl. by rewrite (Ht y eq_refl).
  - by rewrite Hx, IH.
Qed.

Lemma span_full {A} (f : A → bool) s : Forall (λ x, f x = true) s → span f s = (s, []).
Proof. intros H. rewrite <- (app_nil_r s) at 1. by apply span_all. Qed.

Lemma is_digit_space c : is_digit c = true → is_space c = false.
Proof. unfold is_digit, is_space. lia. Qed.

Lemma trimStart_digit s : Forall (λ c, is_digit c = true) s → trimStart s = s.
Proof. destruct 1 as [|c s Hc]; simpl; [done|]. by rewrite is_digit_space. Qed.

Lemma trim_digits s : Forall (λ c, is_digit c = true) s → trim s = s.
Proof.
  intros H. unfold trim. rewrite (trimStart_digit s) by done.
  rewrite trimStart_digit by (by apply List.Forall_rev). by rewrite rev_involutive.
Qed.

Lemma sign_digits s : Forall (λ c, is_digit c = true) s → sign s = (false, s).
Proof.
  destruct 1 as [|c s Hc]; simpl; [done|]. unfold is_digit in Hc.
  destruct (Z.eqb_spec c 45); [lia|]. destruct (Z.eqb_spec c 43); [lia|done].
Qed.

Lemma hex_prefix_digits s : Forall (λ c, is_digit c = true) s → hex_prefix s = None.
Proof.
  destruct 1 as [|c s Hc Hs]; [done|]. destruct Hs as [|d s Hd Hs]; [done|]. simpl.
  unfold is_digit in *. destruct (Z.eqb_spec d 120); [lia|]. destruct (Z.eqb_spec d 88); [lia|].
  by rewrite andb_false_r.
Qed.

(** ToNumber and parseInt agree on a string of decimal digits. *)
Lemma toNumber_digits s :
  s ≠ [] → Forall (λ c, is_digit c = true) s → toNumber s = Int (dec_val s).
Proof.
  intros Hne H. unfold toNumber. rewrite trim_digits by done.
  destruct s as [|c s]; [done|]. rewrite hex_prefix_digits, sign_digits by done.
  unfold parse_decimal. rewrite span_full by done.
  by rewrite app_nil_r.
Qed.

Lemma parseInt_digits s :
  s ≠ [] → Forall (λ c, is_digit c = true) s → parseInt s = Int (dec_val s).
Proof.
  intros Hne H. unfold parseInt. rewrite trimStart_digit, sign_digits, hex_prefix_digits by done.
  rewrite span_full by done. simpl. by destruct s.
Qed.

Lemma digits_val_snoc b l d : digits_val b (l ++ [d]) = digits_val b l * b + d.
Proof. unfold digits_val. by rewrite fold_left_app. Qed.

Lemma digits_val_app b l k :
  digits_val b (l ++ k) = digits_val b l * b ^ zlen k + digits_val b k.
Proof.
  induction k as [|d k IH] using rev_ind.
  - rewrite app_nil_r. unfold zlen, digits_val. simpl. lia.
  - rewrite app_assoc, !digits_val_snoc, IH. unfold zlen. rewrite length_app. simpl.
    rewrite Nat2Z.inj_add, Z.pow_add_r by lia. simpl. lia.
Qed.

Lemma digits_val_cons b d l : digits_val b (d :: l) = d * b ^ zlen l + digits_val b l.
Proof. apply (digits_val_app b [d] l). Qed.

Lemma digits_val_range b l :
  0 < b → Forall (λ d, 0 <= d < b) l → 0 <= digits_val b l < b ^ zlen l.
Proof.
  intros Hb. induction l as [|d l IH] using rev_ind; intros H.
  - unfold digits_val, zlen. simpl. lia.
  - apply Forall_app in H as [H1 H2]. inversion H2; subst. specialize (IH H1).
    rewrite digits_val_snoc. unfold zlen in *. rewrite length_app. simpl length.
    rewrite Nat2Z.inj_add, Z.pow_add_r by lia. simpl Z.of_nat. nia.
Qed.

Lemma dec_val_nonneg s : Forall (λ c, is_digit c = true) s → 0 <= dec_val s < 10 ^ zlen s.
Proof.
  intros H. unfold dec_val.
  replace (zlen s) with (zlen (map (λ c, c - 48) s)) by (unfold zlen; by rewrite length_map).
  apply digits_val_range; [lia|].
  apply Forall_map. eapply Forall_impl; [exact H|]. unfold is_digit. simpl. lia.
Qed.

Lemma digits_fuel_spec fuel b n acc :
  2 <= b → 0 <= n → n < 2 ^ Z.of_nat fuel → (0 < fuel)%nat →
  digits_val b (digits_fuel fuel b n acc) = n * b ^ zlen acc + digits_val b acc ∧
  (Forall (λ d, 0 <= d < b) acc → Forall (λ d, 0 <= d < b) (digits_fuel fuel b n acc)).
Proof.
  revert n acc; induction fuel as [|f IH]; intros n acc Hb Hn Hlt Hf; [lia|]. simpl.
  destruct (Z.ltb_spec n b).
  - split; [apply digits_val_cons|]. intros; constructor; [lia|done].
  - assert (Hq : n / b < 2 ^ Z.of_nat f).
    { apply Z.div_lt_upper_bound; [lia|].
      rewrite Nat2Z.inj_succ, Z.pow_succ_r in Hlt by lia. nia. }
    assert (0 < n / b) by (apply Z.div_str_pos; lia).
    assert ((0 < f)%nat).
    { destruct f; [|lia]. simpl in Hq. lia. }
    destruct (IH (n / b) (n mod b :: acc)) as [IH1 IH2]; [lia|lia|done|done|].
    pose proof (Z.mod_pos_bound n b ltac:(lia)).
    split.
    + rewrite IH1, digits_val_cons. unfold zlen. simpl length.
      rewrite Nat2Z.inj_succ, Z.pow_succ_r by lia.
      pose proof (Z.div_mod n b ltac:(lia)) as E. rewrite E at 3. ring.
    + intros Ha. apply IH2. constructor; [lia|done].
Qed.

Lemma log2_fuel n : 0 <= n → n < 2 ^ Z.of_nat (S (Z.to_nat (Z.log2 n))).
Proof.
  intros Hn. rewrite Nat2Z.inj_succ, Z2Nat.id by apply Z.log2_nonneg.
  destruct (decide (n = 0)) as [->|]; [done|]. apply Z.log2_spec. lia.
Qed.

Lemma digits_val_digits b n : 2 <= b → 0 <= n → digits_val b (digits b n) = n.
Proof.
  intros Hb Hn. unfold digits.
  destruct (digits_fuel_spec (S (Z.to_nat (Z.log2 n))) b n []) as [H _];
    [done|done|by apply log2_fuel|lia|].
  rewrite H. unfold zlen, digits_val. simpl. lia.
Qed.

Lemma digits_range b n : 2 <= b → 0 <= n → Forall (λ d, 0 <= d < b) (digits b n).
Proof.
  intros Hb Hn. unfold digits.
  destruct (digits_fuel_spec (S (Z.to_nat (Z.log2 n))) b n []) as [_ H];
    [done|done|by apply log2_fuel|lia|]. apply H. constructor.
Qed.

Lemma digits_nonempty b n : digits b n ≠ [].
Proof.
  unfold digits. assert (H : ∀ f n acc, (0 < f)%nat ∨ acc ≠ [] → digits_fuel f b n acc ≠ []).
  { induction f as [|f IH]; intros k acc [Hf|Ha]; simpl; [lia|done| |];
      destruct (k <? b); try done; apply IH; by right. }
  apply H. left. lia.
Qed.

Lemma digit_char_dec d : 0 <= d < 10 → is_digit (digit_char d) = true ∧ digit_char d - 48 = d.
Proof. unfold digit_char, is_digit. intros H. destruct (Z.ltb_spec d 10); lia. Qed.

Lemma str_of_Z_digits n :
  0 <= n → Forall (λ c, is_digit c = true) (str_of_Z n) ∧ str_of_Z n ≠ [] ∧ dec_val (str_of_Z n) = n.
Proof.
  intros Hn. unfold str_of_Z, toStringRadix. destruct (Z.ltb_spec n 0); [lia|].
  pose proof (digits_range 10 n ltac:(lia) Hn) as Hr. split_and!.
  - apply Forall_map. eapply Forall_impl; [exact Hr|]. intros d Hd. by apply digit_char_dec.
  - intros E. apply map_eq_nil in E. by apply digits_nonempty in E.
  - unfold dec_val. rewrite map_map. transitivity (digits_val 10 (digits 10 n)).
    + f_equal. transitivity (map id (digits 10 n)); [|apply map_id]. apply map_ext_in.
      intros d Hd. apply list_elem_of_In in Hd. rewrite Forall_forall in Hr.
      by apply digit_char_dec, Hr.
    + by apply digits_val_digits.
Qed.

(** Printing a natural number and converting it back is the identity. *)
Lemma toNumber_str_of_Z n : 0 <= n → toNumber (str_of_Z n) = Int n.
Proof.
  intros Hn. destruct (str_of_Z_digits n Hn) as (H1 & H2 & H3).
  rewrite toNumber_digits by done. by rewrite H3.
Qed.

Lemma parseInt_str_of_Z n : 0 <= n → parseInt (str_of_Z n) = Int n.
Proof.
  intros Hn. destruct (str_of_Z_digits n Hn) as (H1 & H2 & H3).
  rewrite parseInt_digits by done. by rewrite H3.
Qed.

Lemma str_of_Z_inj a b : 0 <= a → 0 <= b → str_of_Z a = str_of_Z b → a = b.
Proof.
  intros Ha Hb E. destruct (str_of_Z_digits a Ha) as (_ & _ & <-).
  destruct (str_of_Z_digits b Hb) as (_ & _ & <-). by rewrite E.
Qed.

Lemma str_leb_refl s : str_leb s s = true.
Proof. induction s as [|x s IH]; simpl; [done|]. rewrite IH. lia. Qed.

End string_lemmas.
