(* ===== verification/JsRegex.v ===== *)
(** * JavaScript regular expressions

    The regular expressions of the sources are written here as their source
    text: [rx] parses a pattern into a term of [re] and [rmatch] is the
    backtracking matcher of ECMA-262 (leftmost, greedy, with captures and
    anchors, without the multiline flag).  [mt] says declaratively which
    substrings an expression matches; [rmatch_sound] and [rmatch_complete]
    relate the two.  String.prototype's [match], [replace] and [split] are
    built on the matcher. *)
From S2P Require Import Prelude JsNum JsString.
Open Scope Z_scope.

(** ** Syntax *)
Inductive re :=
| RSet (neg : bool) (rs : list (Z * Z))       (** a class of code units, as ranges *)
| REps
| RSeq (r1 r2 : re)
| RAlt (r1 r2 : re)
| RRep (lo : nat) (hi : option nat) (r : re)  (** greedy [r{lo,hi}] *)
| RGrp (n : nat) (r : re)                     (** capturing group [n] *)
| RBol
| REol
| RNot (r : re).                              (** negative lookahead *)

Definition RChr (c : Z) : re := RSet false [(c, c)].

Definition in_ranges (rs : list (Z * Z)) (c : Z) : bool :=
  existsb (fun p => (fst p <=? c) && (c <=? snd p)) rs.
Definition in_set (neg : bool) (rs : list (Z * Z)) (c : Z) : bool :=
  xorb neg (in_ranges rs c).

(** ** Matcher *)

(** Captures, the most recent first. *)
Abbreviation caps := (list (nat * jstr)).

(** A match: the text before it (reversed), the text after it, the captures. *)
Abbreviation mres := (jstr * jstr * caps)%type.
Abbreviation cont := (jstr → jstr → caps → option mres).

Definition orelse {A} (a b : option A) : option A := match a with Some _ => a | None => b end.

(** At most [n] further iterations of [step], each of which must consume input. *)
Fixpoint rep_opt (step : jstr → jstr → caps → cont → option mres) (n : nat)
    (pre suf : jstr) (c : caps) (k : cont) : option mres :=
  match n with
  | O => k pre suf c
  | S n' =>
      orelse
        (step pre suf c (fun pre' suf' c' =>
           if bool_decide (length suf' < length suf)%nat
           then rep_opt step n' pre' suf' c' k else None))
        (k pre suf c)
  end.

(** [n] mandatory iterations, then [after]. *)
Fixpoint rep_min (step : jstr → jstr → caps → cont → option mres) (n : nat)
    (pre suf : jstr) (c : caps) (after : cont) : option mres :=
  match n with
  | O => after pre suf c
  | S n' => step pre suf c (fun pre' suf' c' => rep_min step n' pre' suf' c' after)
  end.

Fixpoint rmatch (r : re) (pre suf : jstr) (c : caps) (k : cont) : option mres :=
  match r with
  | RSet neg rs =>
      match suf with
      | x :: suf' => if in_set neg rs x then k (x :: pre) suf' c else None
      | [] => None
      end
  | REps => k pre suf c
  | RSeq r1 r2 => rmatch r1 pre suf c (fun pre' suf' c' => rmatch r2 pre' suf' c' k)
  | RAlt r1 r2 => orelse (rmatch r1 pre suf c k) (rmatch r2 pre suf c k)
  | RRep lo hi r' =>
      rep_min (rmatch r') lo pre suf c (fun pre' suf' c' =>
        rep_opt (rmatch r') (match hi with Some h => h - lo | None => length suf' end)%nat
          pre' suf' c' k)
  | RGrp n r' =>
      rmatch r' pre suf c (fun pre' suf' c' =>
        k pre' suf' ((n, take (length suf - length suf')%nat suf) :: c'))
  | RBol => match pre with [] => k pre suf c | _ => None end
  | REol => match suf with [] => k pre suf c | _ => None end
  | RNot r' =>
      match rmatch r' pre suf c (fun p s c' => Some (p, s, c')) with
      | Some _ => None
      | None => k pre suf c
      end
  end.

Definition exec_at (r : re) (pre suf : jstr) : option mres :=
  rmatch r pre suf [] (fun p s c => Some (p, s, c)).

(** The leftmost match from a position on: (text before, reversed; match; text
    after; captures). *)
Record rmatch_result := { m_pre : jstr; m_str : jstr; m_post : jstr; m_caps : caps }.

Fixpoint search (r : re) (pre suf : jstr) : option rmatch_result :=
  match exec_at r pre suf with
  | Some (_, suf', c) =>
      Some {| m_pre := pre; m_str := take (length suf - length suf')%nat suf;
              m_post := suf'; m_caps := c |}
  | None => match suf with [] => None | x :: suf' => search r (x :: pre) suf' end
  end.

(** [s.match(r)] without the [g] flag. *)
Definition exec (r : re) (s : jstr) : option rmatch_result := search r [] s.
Definition test (r : re) (s : jstr) : bool := match exec r s with Some _ => true | None => false end.

(** Capture [n] of a match; [None] is JavaScript's [undefined]. *)
Fixpoint find_cap (n : nat) (c : caps) : option jstr :=
  match c with
  | [] => None
  | (i, w) :: c' => if (i =? n)%nat then Some w else find_cap n c'
  end.
Definition cap (n : nat) (m : rmatch_result) : option jstr := find_cap n (m_caps m).
(** A capture that the expression always sets. *)
Definition group (n : nat) (m : rmatch_result) : jstr := default [] (cap n m).

(** ** [replace], [match] with [g], [split] *)
Definition replace_with (r : re) (f : rmatch_result → jstr) (s : jstr) : jstr :=
  match exec r s with
  | Some m => rev (m_pre m) ++ f m ++ m_post m
  | None => s
  end.
Definition replace (r : re) (t : jstr) (s : jstr) : jstr := replace_with r (fun _ => t) s.

(** Successive matches: (text between the previous match and this one, match). *)
Fixpoint matches_from (fuel : nat) (r : re) (pre suf : jstr) : list (jstr * rmatch_result) * jstr :=
  match fuel with
  | O => ([], suf)
  | S f =>
      match search r pre suf with
      | None => ([], suf)
      | Some m =>
          let gap := take (length suf - length (m_post m) - length (m_str m))%nat suf in
          match m_str m, m_post m with
          | [], [] => ([(gap, m)], [])
          | [], x :: post' =>
              (* an empty match: the next search starts one code unit later *)
              let '(l, tl) := matches_from f r (x :: m_pre m) post' in
              match l with
              | (g, m') :: l' => ((gap, m) :: (x :: g, m') :: l', tl)
              | [] => ([(gap, m)], x :: tl)
              end
          | _, _ =>
              let '(l, tl) := matches_from f r (rev (m_str m) ++ m_pre m) (m_post m) in
              ((gap, m) :: l, tl)
          end
      end
  end.

Definition matches (r : re) (s : jstr) : list (jstr * rmatch_result) * jstr :=
  matches_from (S (length s)) r [] s.

(** [s.match(/r/g)]: the matched substrings. *)
Definition match_all (r : re) (s : jstr) : list jstr := map (fun p => m_str (snd p)) (fst (matches r s)).

(** [s.replace(/r/g, t)]. *)
Definition replace_all (r : re) (t : jstr) (s : jstr) : jstr :=
  let '(l, tl) := matches r s in concat (map (fun p => fst p ++ t) l) ++ tl.

(** [s.split(/r/)] for an expression without captures.  [acc] is the piece
    being read, reversed. *)
Fixpoint split_from (fuel : nat) (r : re) (pre acc suf : jstr) : list jstr :=
  match fuel with
  | O => [rev acc ++ suf]
  | S f =>
      match suf with
      | [] => [rev acc]
      | x :: suf' =>
          match exec_at r pre suf with
          | Some (pre', post, _) =>
              if bool_decide (acc = [] ∧ length post = length suf)
              then split_from f r (x :: pre) (x :: acc) suf'
              else rev acc :: split_from f r pre' [] post
          | None => split_from f r (x :: pre) (x :: acc) suf'
          end
      end
  end.

Definition split_re (r : re) (s : jstr) : list jstr :=
  match s with
  | [] => match exec_at r [] [] with Some _ => [] | None => [[]] end
  | _ => split_from (2 * length s + 2) r [] [] s
  end.

(** ** Pattern syntax *)
Definition digit_range : Z * Z := (48, 57).

(** The class of an escape: [\d], [\t], [\n], [\r], [\xHH] or a quoted symbol. *)
Definition parse_escape (s : jstr) : option (list (Z * Z) * jstr) :=
  match s with
  | [] => None
  | c :: s' =>
      if c =? 100 then Some ([digit_range], s')
      else if c =? 116 then Some ([(9, 9)], s')
      else if c =? 110 then Some ([(10, 10)], s')
      else if c =? 114 then Some ([(13, 13)], s')
      else if c =? 120 then
        match s' with
        | a :: b :: s'' =>
            match hex_val a, hex_val b with
            | Some x, Some y => Some ([(16 * x + y, 16 * x + y)], s'')
            | _, _ => None
            end
        | _ => None
        end
      else if is_digit c || is_upper c || is_lower c then None
      else Some ([(c, c)], s')
  end.

(** The members of a class, up to the closing bracket. *)
Fixpoint parse_class (fuel : nat) (acc : list (Z * Z)) (s : jstr) : option (list (Z * Z) * jstr) :=
  match fuel with
  | O => None
  | S f =>
      match s with
      | [] => None
      | c :: s' =>
          if c =? 93 then Some (rev acc, s')
          else if c =? 92 then
            match parse_escape s' with
            | Some (rs, s'') => parse_class f (rev rs ++ acc) s''
            | None => None
            end
          else match s' with
               | d :: e :: s'' =>
                   if (d =? 45) && negb (e =? 93) then parse_class f ((c, e) :: acc) s''
                   else parse_class f ((c, c) :: acc) s'
               | _ => parse_class f ((c, c) :: acc) s'
               end
      end
  end.

(** A quantifier after the atom [r]. *)
Definition parse_quantifier (r : re) (s : jstr) : option (re * jstr) :=
  match s with
  | [] => Some (r, [])
  | c :: s' =>
      if c =? 42 then Some (RRep 0 None r, s')
      else if c =? 43 then Some (RRep 1 None r, s')
      else if c =? 63 then Some (RRep 0 (Some 1%nat) r, s')
      else if c =? 123 then
        let '(lo, s1) := span is_digit s' in
        let l := Z.to_nat (dec_val lo) in
        match lo, s1 with
        | [], _ => None
        | _, d :: s2 =>
            if d =? 125 then Some (RRep l (Some l) r, s2)
            else if d =? 44 then
              let '(hi, s3) := span is_digit s2 in
              match s3 with
              | e :: s4 =>
                  if e =? 125 then
                    Some (RRep l (match hi with [] => None | _ => Some (Z.to_nat (dec_val hi)) end) r, s4)
                  else None
              | [] => None
              end
            else None
        | _, [] => None
        end
      else Some (r, s)
  end.

Fixpoint seq_of (l : list re) : re :=
  match l with
  | [] => REps
  | [r] => r
  | r :: l' => RSeq r (seq_of l')
  end.

(** Disjunction, from group number [n] on: (expression, next group number,
    rest); the terms read so far are in [acc], reversed. *)
Fixpoint parse_disj (fuel : nat) (n : nat) (acc : list re) (s : jstr) : option (re * nat * jstr) :=
  match fuel with
  | O => None
  | S f =>
      let term (r : re) (n' : nat) (s' : jstr) :=
        match parse_quantifier r s' with
        | Some (q, s'') => parse_disj f n' (q :: acc) s''
        | None => None
        end in
      match s with
      | [] => Some (seq_of (rev acc), n, [])
      | c :: s' =>
          if c =? 41 then Some (seq_of (rev acc), n, s)
          else if c =? 124 then
            match parse_disj f n [] s' with
            | Some (r2, n2, s2) => Some (RAlt (seq_of (rev acc)) r2, n2, s2)
            | None => None
            end
          else if c =? 94 then parse_disj f n (RBol :: acc) s'
          else if c =? 36 then parse_disj f n (REol :: acc) s'
          else if c =? 40 then
            match s' with
            | q :: e :: s'' =>
                if (q =? 63) && (e =? 33) then
                  match parse_disj f n [] s'' with
                  | Some (r, n', d :: s3) => if d =? 41 then parse_disj f n' (RNot r :: acc) s3 else None
                  | _ => None
                  end
                else if q =? 63 then None
                else match parse_disj f (S n) [] s' with
                     | Some (r, n', d :: s3) => if d =? 41 then term (RGrp n r) n' s3 else None
                     | _ => None
                     end
            | _ => None
            end
          else if c =? 91 then
            match s' with
            | h :: s'' =>
                if h =? 94 then
                  match parse_class f [] s'' with
                  | Some (rs, s3) => term (RSet true rs) n s3
                  | None => None
                  end
                else match parse_class f [] s' with
                     | Some (rs, s3) => term (RSet false rs) n s3
                     | None => None
                     end
            | [] => None
            end
          else if c =? 92 then
            match parse_escape s' with
            | Some (rs, s'') => term (RSet false rs) n s''
            | None => None
            end
          else if c =? 46 then term (RSet true [(10, 10); (13, 13); (8232, 8233)]) n s'
          else if (c =? 42) || (c =? 43) || (c =? 63) || (c =? 123) then None
          else term (RChr c) n s'
      end
  end.

(** [new RegExp(s)]: [None] is a SyntaxError (or syntax the sources do not use). *)
Definition parse_re (s : jstr) : option re :=
  match parse_disj (S (length s)) 1 [] s with
  | Some (r, _, []) => Some r
  | _ => None
  end.

(** The expression of a regular expression literal of the sources. *)
Definition rx (s : string) : re := default (RNot REps) (parse_re (js s)).

(** The [i] flag: a class matches a letter in either case. *)
Fixpoint ignore_case (r : re) : re :=
  match r with
  | RSet neg rs =>
      RSet neg (rs ++ flat_map (fun p =>
        [(Z.max (fst p) 97 - 32, Z.min (snd p) 122 - 32);
         (Z.max (fst p) 65 + 32, Z.min (snd p) 90 + 32)]) rs)
  | RSeq a b => RSeq (ignore_case a) (ignore_case b)
  | RAlt a b => RAlt (ignore_case a) (ignore_case b)
  | RRep lo hi a => RRep lo hi (ignore_case a)
  | RGrp n a => RGrp n (ignore_case a)
  | RNot a => RNot (ignore_case a)
  | REps | RBol | REol => r
  end.

(** ** Declarative semantics

    [mt r pre w suf c c']: in the text [rev pre ++ w ++ suf], with captures
    [c], the expression [r] can match exactly [w] and leave the captures [c']. *)
Inductive mt : re → jstr → jstr → jstr → caps → caps → Prop :=
| mt_set neg rs pre x suf c :
    in_set neg rs x = true → mt (RSet neg rs) pre [x] suf c c
| mt_eps pre suf c : mt REps pre [] suf c c
| mt_seq r1 r2 pre w1 w2 suf c c1 c2 :
    mt r1 pre w1 (w2 ++ suf) c c1 → mt r2 (rev w1 ++ pre) w2 suf c1 c2 →
    mt (RSeq r1 r2) pre (w1 ++ w2) suf c c2
| mt_alt_l r1 r2 pre w suf c c' : mt r1 pre w suf c c' → mt (RAlt r1 r2) pre w suf c c'
| mt_alt_r r1 r2 pre w suf c c' : mt r2 pre w suf c c' → mt (RAlt r1 r2) pre w suf c c'
| mt_rep_done hi r pre suf c : mt (RRep 0 hi r) pre [] suf c c
| mt_rep_opt hi r pre w1 w2 suf c c1 c2 :
    hi ≠ Some 0%nat → w1 ≠ [] →
    mt r pre w1 (w2 ++ suf) c c1 →
    mt (RRep 0 (pred <$> hi) r) (rev w1 ++ pre) w2 suf c1 c2 →
    mt (RRep 0 hi r) pre (w1 ++ w2) suf c c2
| mt_rep_min lo hi r pre w1 w2 suf c c1 c2 :
    mt r pre w1 (w2 ++ suf) c c1 →
    mt (RRep lo (pred <$> hi) r) (rev w1 ++ pre) w2 suf c1 c2 →
    mt (RRep (S lo) hi r) pre (w1 ++ w2) suf c c2
| mt_grp n r pre w suf c c' : mt r pre w suf c c' → mt (RGrp n r) pre w suf c ((n, w) :: c')
| mt_bol suf c : mt RBol [] [] suf c c
| mt_eol pre c : mt REol pre [] [] c c
| mt_not r pre suf c :
    rmatch r pre suf c (fun p s c' => Some (p, s, c')) = None → mt (RNot r) pre [] suf c c.

Section matcher_correctness.

Definition step_sound (r : re) (step : jstr → jstr → caps → cont → option mres) : Prop :=
  ∀ pre s c k res, step pre s c k = Some res →
    ∃ w suf c', s = w ++ suf ∧ mt r pre w suf c c' ∧ k (rev w ++ pre) suf c' = Some res.

Definition step_complete (r : re) (step : jstr → jstr → caps → cont → option mres) : Prop :=
  ∀ pre w suf c c' k, mt r pre w suf c c' →
    k (rev w ++ pre) suf c' ≠ None → step pre (w ++ suf) c k ≠ None.

Lemma orelse_None {A} (a b : option A) : orelse a b = None ↔ a = None ∧ b = None.
Proof. destruct a; naive_solver. Qed.

Lemma rep_opt_sound r step n hi :
  step_sound r step → (∀ h, hi = Some h → (n ≤ h)%nat) → step_sound (RRep 0 hi r) (rep_opt step n).
Proof.
  intros Hs. revert hi. induction n as [|n IH]; intros hi Hn pre s c k res E; simpl in E.
  - exists [], s, c. split_and!; [done| constructor |done].
  - destruct (step pre s c _) as [res'|] eqn:E1.
    + simpl in E. injection E as ->.
      apply Hs in E1 as (w1 & suf1 & c1 & -> & Hm1 & E2).
      case_bool_decide as Hlt; [|done].
      apply (IH (pred <$> hi)) in E2 as (w2 & suf & c2 & -> & Hm2 & E3).
      * exists (w1 ++ w2), suf, c2. rewrite <- app_assoc, rev_app_distr, <- app_assoc.
        split_and!; [done| |done]. eapply mt_rep_opt; eauto.
        -- intros ->. specialize (Hn 0%nat eq_refl). lia.
        -- intros ->. simpl in Hlt. lia.
      * intros h Hh. destruct hi as [h'|]; simplify_eq/=. specialize (Hn h' eq_refl). lia.
    + exists [], s, c. split_and!; [done| constructor |done].
Qed.

Lemma rep_min_sound r step lo hi :
  step_sound r step →
  step_sound (RRep lo hi r) (fun pre s c k => rep_min step lo pre s c (fun pre' suf' c' =>
    rep_opt step (match hi with Some h => h - lo | None => length suf' end)%nat pre' suf' c' k)).
Proof.
  intros Hs. revert hi. induction lo as [|lo IH]; intros hi pre s c k res E; simpl in E.
  - refine (rep_opt_sound r step _ hi Hs _ pre s c k res E). intros h ->. lia.
  - apply Hs in E as (w1 & suf1 & c1 & -> & Hm1 & E2).
    destruct (IH (pred <$> hi) (rev w1 ++ pre) suf1 c1 k res) as (w2 & suf & c2 & -> & Hm2 & E3).
    { destruct hi as [h|]; simpl; [|done]. by replace (Nat.pred h - lo)%nat with (h - S lo)%nat by lia. }
    exists (w1 ++ w2), suf, c2. rewrite <- app_assoc, rev_app_distr, <- app_assoc.
    split_and!; [done| |done]. by eapply mt_rep_min.
Qed.

Lemma take_app_diff {A} (w suf : list A) : take (length (w ++ suf) - length suf)%nat (w ++ suf) = w.
Proof. rewrite length_app, Nat.add_sub. apply take_app_length. Qed.

(** Whatever the matcher finds, the expression describes. *)
Lemma rmatch_sound r : step_sound r (rmatch r).
Proof.
  induction r as [neg rs| |r1 IH1 r2 IH2|r1 IH1 r2 IH2|lo hi r IH|n r IH| | |r IH];
    intros pre s c k res E; simpl in E.
  - destruct s as [|x s]; [done|]. destruct (in_set neg rs x) eqn:Hx; [|done].
    exists [x], s, c. split_and!; [done| by constructor |done].
  - exists [], s, c. split_and!; [done| constructor |done].
  - apply IH1 in E as (w1 & suf1 & c1 & -> & Hm1 & E2).
    apply IH2 in E2 as (w2 & suf & c2 & -> & Hm2 & E3).
    exists (w1 ++ w2), suf, c2. rewrite <- app_assoc, rev_app_distr, <- app_assoc.
    split_and!; [done| by eapply mt_seq |done].
  - destruct (rmatch r1 pre s c k) eqn:E1; simpl in E.
    + injection E as ->. apply IH1 in E1 as (w & suf & c' & -> & ? & ?).
      exists w, suf, c'. split_and!; [done| by apply mt_alt_l |done].
    + apply IH2 in E as (w & suf & c' & -> & ? & ?).
      exists w, suf, c'. split_and!; [done| by apply mt_alt_r |done].
  - by apply (rep_min_sound r (rmatch r) lo hi IH) in E.
  - apply IH in E as (w & suf & c' & -> & Hm & E).
    exists w, suf, ((n, w) :: c'). rewrite take_app_diff in E.
    split_and!; [done| by constructor |done].
  - destruct pre; [|done]. exists [], s, c. split_and!; [done| constructor |done].
  - destruct s; [|done]. exists [], [], c. split_and!; [done| constructor |done].
  - destruct (rmatch r pre s c _) eqn:E1; [done|].
    exists [], s, c. split_and!; [done| by constructor |done].
Qed.

Lemma rep_opt_complete r step n hi :
  step_complete r step →
  ∀ pre w suf c c' k, mt (RRep 0 hi r) pre w suf c c' →
    (match hi with Some h => h ≤ n | None => length w ≤ n end)%nat →
    k (rev w ++ pre) suf c' ≠ None → rep_opt step n pre (w ++ suf) c k ≠ None.
Proof.
  intros Hs. revert hi. induction n as [|n IH]; intros hi pre w suf c c' k Hm Hn Hk; simpl.
  - inversion Hm; subst; simpl in *; [done|].
    exfalso. destruct hi as [[|h]|]; simpl in *; [naive_solver|lia|].
    rewrite length_app in Hn. destruct w1; [done|simpl in *; lia].
  - rewrite orelse_None. intros [E1 E2].
    inversion Hm as [| | | | |hi' r' pre' suf' c1|hi' r' pre' w1 w2 suf' c1 c2 c3 Hhi Hw1 Hm1 Hm2| | | | |];
      subst; [done|].
    rewrite <- app_assoc in E1. revert E1.
    apply (Hs _ _ _ _ _ _ Hm1).
    rewrite bool_decide_eq_true_2.
    2:{ rewrite !length_app. destruct w1; [done|simpl; lia]. }
    eapply IH; [exact Hm2| |by rewrite rev_app_distr, <- app_assoc in Hk].
    destruct hi as [h|]; simpl in *; [lia|]. rewrite length_app in Hn.
    destruct w1; [done|simpl in *; lia].
Qed.

Lemma rep_min_complete r step lo hi :
  step_complete r step →
  step_complete (RRep lo hi r) (fun pre s c k => rep_min step lo pre s c (fun pre' suf' c' =>
    rep_opt step (match hi with Some h => h - lo | None => length suf' end)%nat pre' suf' c' k)).
Proof.
  intros Hs. revert hi. induction lo as [|lo IH]; intros hi pre w suf c c' k Hm Hk; simpl.
  - eapply rep_opt_complete; [done|exact Hm| |done].
    destruct hi; [lia|]. rewrite length_app. lia.
  - inversion Hm as [| | | | | | |lo' hi' r' pre' w1 w2 suf' c1 c2 c3 Hm1 Hm2| | | |]; subst.
    rewrite <- app_assoc. apply (Hs _ _ _ _ _ _ Hm1).
    pose proof (IH (pred <$> hi) _ _ _ _ _ k Hm2) as Hr. simpl in Hr.
    rewrite rev_app_distr, <- app_assoc in Hk. specialize (Hr Hk).
    destruct hi as [h|]; simpl in *; [|done].
    by replace (h - S lo)%nat with (Nat.pred h - lo)%nat by lia.
Qed.

(** Whatever the expression describes, backtracking finds some match. *)
Lemma rmatch_complete r : step_complete r (rmatch r).
Proof.
  induction r as [neg rs| |r1 IH1 r2 IH2|r1 IH1 r2 IH2|lo hi r IH|n r IH| | |r IH];
    intros pre w suf c c' k Hm Hk; simpl.
  - inversion Hm as [? ? ? ? ? ? Hin| | | | | | | | | | |]; subst. simpl. by rewrite Hin.
  - by inversion Hm; subst.
  - inversion Hm as [| |? ? ? w1 w2 ? ? c1 ? Hm1 Hm2| | | | | | | | |]; subst.
    rewrite <- app_assoc. apply (IH1 _ _ _ _ _ _ Hm1). apply (IH2 _ _ _ _ _ _ Hm2).
    by rewrite rev_app_distr, <- app_assoc in Hk.
  - rewrite orelse_None. intros [E1 E2].
    inversion Hm as [| | |? ? ? ? ? ? ? Hm1|? ? ? ? ? ? ? Hm1| | | | | | |]; subst.
    + by apply (IH1 _ _ _ _ _ k Hm1).
    + by apply (IH2 _ _ _ _ _ k Hm1).
  - by apply (rep_min_complete r (rmatch r) lo hi IH pre w suf c c' k).
  - inversion Hm as [| | | | | | | |? ? ? ? ? ? c1 Hm1| | |]; subst.
    apply (IH _ _ _ _ _ _ Hm1). by rewrite take_app_diff.
  - by inversion Hm; subst.
  - by inversion Hm; subst.
  - inversion Hm as [| | | | | | | | | | |? ? ? ? HN]; subst. simpl. by rewrite HN.
Qed.

End matcher_correctness.

(** ** Consequences for the entry points *)
Section entry_points.

Lemma exec_at_sound r pre s p suf c :
  exec_at r pre s = Some (p, suf, c) → ∃ w, s = w ++ suf ∧ p = rev w ++ pre ∧ mt r pre w suf [] c.
Proof. intros E. apply rmatch_sound in E as (w & suf' & c' & -> & Hm & E). exists w. naive_solver. Qed.

Lemma exec_at_complete r pre w suf c : mt r pre w suf [] c → exec_at r pre (w ++ suf) ≠ None.
Proof. intros Hm. by apply (rmatch_complete r _ _ _ _ _ _ Hm). Qed.

Lemma exec_at_None r pre s :
  exec_at r pre s = None ↔ ∀ w suf c, s = w ++ suf → ¬ mt r pre w suf [] c.
Proof.
  split.
  - intros E w suf c -> Hm. by apply exec_at_complete in Hm.
  - intros H. destruct (exec_at r pre s) as [[[p suf] c]|] eqn:E; [|done].
    apply exec_at_sound in E as (w & -> & _ & Hm). by destruct (H w suf c).
Qed.

Lemma mt_bol_inv r pre w suf c c' :
  mt (RSeq RBol r) pre w suf c c' ↔ pre = [] ∧ mt r [] w suf c c'.
Proof.
  split.
  - intros H. inversion H as [| |? ? ? ? ? ? ? ? ? H1 H2| | | | | | | | |]; subst. inversion H1; subst. done.
  - intros [-> H]. change w with ([] ++ w). econstructor; [constructor|done].
Qed.

(** An expression that starts with [^] matches at the start or nowhere. *)
Lemma search_bol r pre s : pre ≠ [] → search (RSeq RBol r) pre s = None.
Proof.
  revert pre; induction s as [|x s IH]; intros pre Hp; simpl.
  - replace (exec_at (RSeq RBol r) pre []) with (@None mres); [done|].
    symmetry. apply exec_at_None. intros w suf c _ [? _]%mt_bol_inv. done.
  - replace (exec_at (RSeq RBol r) pre (x :: s)) with (@None mres); [by apply IH|].
    symmetry. apply exec_at_None. intros w suf c _ [? _]%mt_bol_inv. done.
Qed.

Lemma exec_bol r s :
  exec (RSeq RBol r) s =
  match exec_at r [] s with
  | Some (_, suf, c) =>
      Some {| m_pre := []; m_str := take (length s - length suf)%nat s; m_post := suf; m_caps := c |}
  | None => None
  end.
Proof.
  unfold exec. destruct s as [|x s].
  - done.
  - change (search (RSeq RBol r) [] (x :: s)) with
      (match exec_at r [] (x :: s) with
       | Some (_, suf', c) => Some {| m_pre := []; m_str := take (length (x :: s) - length suf')%nat (x :: s);
              m_post := suf'; m_caps := c |}
       | None => search (RSeq RBol r) [x] s end).
    destruct (exec_at r [] (x :: s)) as [[[p suf] c]|]; [done|]. by apply search_bol.
Qed.

(** A match of an expression that starts with [^]. *)
Lemma exec_bol_Some r s m :
  exec (RSeq RBol r) s = Some m →
  s = m_str m ++ m_post m ∧ m_pre m = [] ∧ mt r [] (m_str m) (m_post m) [] (m_caps m).
Proof.
  rewrite exec_bol. destruct (exec_at r [] s) as [[[p suf] c]|] eqn:E; [|done].
  intros [= <-]. simpl. apply exec_at_sound in E as (w & -> & -> & Hm).
  by rewrite take_app_diff.
Qed.

Lemma exec_bol_None r s :
  exec (RSeq RBol r) s = None ↔ ∀ w suf c, s = w ++ suf → ¬ mt r [] w suf [] c.
Proof.
  rewrite exec_bol, <- exec_at_None. by destruct (exec_at r [] s) as [[[? ?] ?]|].
Qed.

Lemma test_bol r s : test (RSeq RBol r) s = true ↔ ∃ w suf c, s = w ++ suf ∧ mt r [] w suf [] c.
Proof.
  unfold test. destruct (exec (RSeq RBol r) s) eqn:E.
  - split; [|done]. intros _. apply exec_bol_Some in E as (? & _ & ?). eauto.
  - split; [done|]. intros (w & suf & c & Hs & Hm). by edestruct (proj1 (exec_bol_None r s) E).
Qed.

(** Unanchored search. *)
Lemma search_Some r pre s m :
  search r pre s = Some m →
  ∃ gap, s = gap ++ m_str m ++ m_post m ∧ m_pre m = rev gap ++ pre ∧
         mt r (m_pre m) (m_str m) (m_post m) [] (m_caps m).
Proof.
  revert pre; induction s as [|x s IH]; intros pre; simpl.
  - destruct (exec_at r pre []) as [[[p suf] c]|] eqn:E; [|done]. intros [= <-]. simpl.
    apply exec_at_sound in E as (w & Hw & -> & Hm). symmetry in Hw; apply app_eq_nil in Hw as [-> ->].
    by exists [].
  - destruct (exec_at r pre (x :: s)) as [[[p suf] c]|] eqn:E.
    + intros [= <-]. apply exec_at_sound in E as (w & Hw & -> & Hm). exists []. cbn [m_str m_post m_pre m_caps].
      change (S (length s)) with (length (x :: s)). rewrite Hw, take_app_diff. done.
    + intros H. apply IH in H as (gap & -> & Hp & Hm). exists (x :: gap). split_and!; [done| |done].
      simpl. by rewrite <- app_assoc.
Qed.

Lemma search_None r pre s :
  search r pre s = None ↔ ∀ gap w suf c, s = gap ++ w ++ suf → ¬ mt r (rev gap ++ pre) w suf [] c.
Proof.
  revert pre; induction s as [|x s IH]; intros pre; simpl.
  - destruct (exec_at r pre []) as [[[p suf] c]|] eqn:E.
    + split; [done|]. intros H. apply exec_at_sound in E as (w & Hw & -> & Hm).
      by destruct (H [] w suf c).
    + split; [|done]. intros _ gap w suf c Hs Hm. symmetry in Hs.
      apply app_eq_nil in Hs as [-> Hs]. simpl in *.
      by eapply (proj1 (exec_at_None r pre [])); [exact E| |exact Hm].
  - destruct (exec_at r pre (x :: s)) as [[[p suf] c]|] eqn:E.
    + split; [done|]. intros H. apply exec_at_sound in E as (w & Hw & -> & Hm).
      by destruct (H [] w suf c).
    + rewrite IH. split.
      * intros H gap w suf c Hs Hm. destruct gap as [|y gap].
        -- by eapply (proj1 (exec_at_None r pre (x :: s))); [exact E| |exact Hm].
        -- simplify_list_eq. eapply H; [done|]. revert Hm. simpl. by rewrite <- ?app_assoc.
      * intros H gap w suf c -> Hm. apply (H (x :: gap) w suf c); [done|].
        simpl. by rewrite <- app_assoc.
Qed.

Lemma test_search r s :
  test r s = true ↔ ∃ gap w suf c, s = gap ++ w ++ suf ∧ mt r (rev gap) w suf [] c.
Proof.
  unfold test, exec. destruct (search r [] s) as [m|] eqn:E.
  - split; [|done]. intros _. apply search_Some in E as (gap & -> & Hp & Hm).
    rewrite app_nil_r in Hp. rewrite Hp in Hm. by exists gap, (m_str m), (m_post m), (m_caps m).
  - split; [done|]. intros (gap & w & suf & c & Hs & Hm).
    edestruct (proj1 (search_None r [] s) E); [exact Hs|]. by rewrite app_nil_r.
Qed.

End entry_points.

(** ** Inversion of the common shapes *)
Section shapes.

Lemma mt_set_iff neg rs pre w suf c c' :
  mt (RSet neg rs) pre w suf c c' ↔ ∃ x, w = [x] ∧ in_set neg rs x = true ∧ c' = c.
Proof.
  split; [intros H; inversion H; subst; eauto|]. intros (x & -> & Hx & ->). by constructor.
Qed.

Lemma mt_seq_iff r1 r2 pre w suf c c' :
  mt (RSeq r1 r2) pre w suf c c' ↔
  ∃ w1 w2 c1, w = w1 ++ w2 ∧ mt r1 pre w1 (w2 ++ suf) c c1 ∧ mt r2 (rev w1 ++ pre) w2 suf c1 c'.
Proof.
  split; [intros H; inversion H; subst; eauto 10|]. intros (w1 & w2 & c1 & -> & ? & ?).
  by eapply mt_seq.
Qed.

Lemma mt_alt_iff r1 r2 pre w suf c c' :
  mt (RAlt r1 r2) pre w suf c c' ↔ mt r1 pre w suf c c' ∨ mt r2 pre w suf c c'.
Proof.
  split; [intros H; inversion H; subst; eauto|].
  intros [?|?]; [by apply mt_alt_l|by apply mt_alt_r].
Qed.

Lemma mt_grp_iff n r pre w suf c c' :
  mt (RGrp n r) pre w suf c c' ↔ ∃ c1, c' = (n, w) :: c1 ∧ mt r pre w suf c c1.
Proof. split; [intros H; inversion H; subst; eauto|]. intros (c1 & -> & ?). by constructor. Qed.

Lemma mt_eol_iff pre w suf c c' : mt REol pre w suf c c' ↔ w = [] ∧ suf = [] ∧ c' = c.
Proof. split; [intros H; by inversion H|]. intros (-> & -> & ->). constructor. Qed.

Lemma mt_eps_iff pre w suf c c' : mt REps pre w suf c c' ↔ w = [] ∧ c' = c.
Proof. split; [intros H; by inversion H|]. intros (-> & ->). constructor. Qed.

(** A repeated class matches the words over the class of the right length. *)
Lemma mt_rep_set_iff lo hi neg rs pre w suf c c' :
  (match hi with Some h => lo ≤ h | None => True end)%nat →
  mt (RRep lo hi (RSet neg rs)) pre w suf c c' ↔
  (Forall (λ x, in_set neg rs x = true) w ∧ lo ≤ length w ∧
   (match hi with Some h => length w ≤ h | None => True end) ∧ c' = c)%nat.
Proof.
  intros Hlh. split.
  - intros H. remember (RRep lo hi (RSet neg rs)) as r eqn:Er. revert lo hi Hlh Er.
    induction H as [| | | | |hi' r' pre suf c|hi' r' pre w1 w2 suf c c1 c2 Hhi Hw1 H1 IH1 H2 IH2
                   |lo' hi' r' pre w1 w2 suf c c1 c2 H1 IH1 H2 IH2| | | | ];
      intros lo hi Hlh Er; simplify_eq.
    + split_and!; [done|simpl; lia| destruct hi; simpl; [lia|done] |done].
    + apply mt_set_iff in H1 as (x & -> & Hx & ->).
      destruct (IH2 0%nat (pred <$> hi)) as (Hf & Hl & Hh & ->); [destruct hi; simpl; [lia|done]|done|].
      split_and!; [by constructor|simpl; lia| |done].
      destruct hi as [[|h]|]; simpl in *; [done|lia|done].
    + apply mt_set_iff in H1 as (x & -> & Hx & ->).
      destruct (IH2 lo' (pred <$> hi)) as (Hf & Hl & Hh & ->); [destruct hi; simpl in *; [lia|done]|done|].
      split_and!; [by constructor|simpl; lia| |done].
      destruct hi as [[|h]|]; simpl in *; [lia|lia|done].
  - intros (Hf & Hlo & Hhi & ->). revert lo hi Hlh Hlo Hhi pre. induction Hf as [|x w Hx Hf IH]; intros lo hi Hlh Hlo Hhi pre.
    + simpl in Hlo. replace lo with 0%nat by lia. constructor.
    + change (x :: w) with ([x] ++ w). destruct lo as [|lo].
      * eapply mt_rep_opt; [| done | by constructor |].
        -- intros ->. simpl in Hhi. lia.
        -- apply IH; [destruct hi; simpl; [lia|done]|lia|destruct hi; simpl in *; [lia|done]].
      * eapply mt_rep_min; [by constructor|].
        simpl in *. apply IH; [destruct hi; simpl in *; [lia|done]|lia|destruct hi; simpl in *; [lia|done]].
Qed.

Lemma in_set_chr c x : in_set false [(c, c)] x = true ↔ x = c.
Proof. unfold in_set, in_ranges. simpl. lia. Qed.

Lemma in_set_chr_eqb c x : in_set false [(c, c)] x = (x =? c).
Proof.
  destruct (Z.eqb_spec x c) as [E|E].
  - by apply in_set_chr.
  - apply not_true_iff_false. by rewrite in_set_chr.
Qed.

Lemma in_set_not_chr c x : in_set true [(c, c)] x = true ↔ x ≠ c.
Proof.
  unfold in_set, in_ranges. simpl.
  destruct (Z.leb_spec c x), (Z.leb_spec x c); simpl; split; (done || lia).
Qed.

Lemma in_set_digit x : in_set false [(48, 57)] x = is_digit x.
Proof. unfold in_set, in_ranges, is_digit. simpl. lia. Qed.

Lemma mt_chr_iff c pre w suf k k' :
  mt (RSet false [(c, c)]) pre w suf k k' ↔ w = [c] ∧ k' = k.
Proof.
  rewrite mt_set_iff. split.
  - intros (x & -> & ->%in_set_chr & ->). done.
  - intros [-> ->]. exists c. split_and!; [done| by apply in_set_chr |done].
Qed.

(** Searching for one code unit. *)
Lemma test_chr c s : test (RSet false [(c, c)]) s = true ↔ c ∈ s.
Proof.
  rewrite test_search. split.
  - intros (gap & w & suf & k & -> & [-> ->]%mt_chr_iff). set_solver.
  - intros (l1 & l2 & ->)%list_elem_of_split. exists l1, [c], l2, [].
    split; [done|]. by apply mt_chr_iff.
Qed.

Lemma test_chr_false c s : test (RSet false [(c, c)]) s = false ↔ c ∉ s.
Proof. rewrite <- not_true_iff_false. by rewrite test_chr. Qed.

End shapes.

(** Turn [mt] of a concrete expression into facts about the words; the
    repetitions are left to [mt_words]. *)
Ltac mt_inv :=
  repeat match goal with
  | H : mt (RSeq RBol _) _ _ _ _ _ |- _ => apply mt_bol_inv in H as [? H]
  | H : mt (RSeq _ _) _ _ _ _ _ |- _ =>
      let w1 := fresh "w" in let w2 := fresh "w" in let c1 := fresh "c" in let H1 := fresh "H" in
      apply mt_seq_iff in H as (w1 & w2 & c1 & ? & H1 & H); subst
  | H : mt (RGrp _ _) _ _ _ _ _ |- _ =>
      let c1 := fresh "c" in apply mt_grp_iff in H as (c1 & ? & H); subst
  | H : mt (RSet false [(?c, ?c)]) _ _ _ _ _ |- _ => apply mt_chr_iff in H as [? ?]; subst
  | H : mt (RChr _) _ _ _ _ _ |- _ => apply mt_chr_iff in H as [? ?]; subst
  | H : mt REol _ _ _ _ _ |- _ => apply mt_eol_iff in H as (? & ? & ?); subst
  | H : mt REps _ _ _ _ _ |- _ => apply mt_eps_iff in H as (? & ?); subst
  end.

Ltac mt_words :=
  repeat match goal with
  | H : mt (RRep _ _ (RSet _ _)) _ _ _ _ _ |- _ =>
      let Hl := fresh "Hl" in let Hh := fresh "Hh" in
      apply mt_rep_set_iff in H as (H & Hl & Hh & ?); [subst|simpl; lia]
  end.

(** ** [replace(/c/g, t)] for one code unit *)
Section replace_char.

Lemma exec_at_chr c pre s :
  exec_at (RSet false [(c, c)]) pre s =
  match s with x :: s' => if x =? c then Some (x :: pre, s', []) else None | [] => None end.
Proof. destruct s as [|x s]; [done|]. unfold exec_at. cbn -[in_set]. by rewrite in_set_chr_eqb. Qed.

Lemma search_chr c pre s :
  search (RSet false [(c, c)]) pre s =
  match s with
  | [] => None
  | x :: s' => if x =? c then Some {| m_pre := pre; m_str := [x]; m_post := s'; m_caps := [] |}
               else search (RSet false [(c, c)]) (x :: pre) s'
  end.
Proof.
  destruct s as [|x s]; [done|]. cbn [search]. rewrite exec_at_chr.
  destruct (x =? c); [|done]. f_equal. f_equal.
  change (x :: s) with ([x] ++ s). apply take_app_diff.
Qed.

Lemma search_chr_gap c pre gap post :
  c ∉ gap →
  search (RSet false [(c, c)]) pre (gap ++ c :: post) =
  Some {| m_pre := rev gap ++ pre; m_str := [c]; m_post := post; m_caps := [] |}.
Proof.
  revert pre; induction gap as [|x gap IH]; intros pre Hg; rewrite search_chr; simpl.
  - by rewrite Z.eqb_refl.
  - destruct (Z.eqb_spec x c) as [->|]; [set_solver|]. rewrite IH by set_solver. by rewrite <- app_assoc.
Qed.

Lemma search_chr_none c pre s : c ∉ s → search (RSet false [(c, c)]) pre s = None.
Proof.
  revert pre; induction s as [|x s IH]; intros pre Hs; rewrite search_chr; [done|].
  destruct (Z.eqb_spec x c) as [->|]; [set_solver|]. apply IH. set_solver.
Qed.

Lemma flat_map_id c (t s : jstr) : c ∉ s → flat_map (λ x, if x =? c then t else [x]) s = s.
Proof.
  induction s as [|x s IH]; intros Hs; simpl; [done|].
  destruct (Z.eqb_spec x c) as [->|]; [set_solver|]. simpl. f_equal. apply IH. set_solver.
Qed.

Lemma first_occurrence {A} `{EqDecision A} (c : A) s : c ∈ s → ∃ a b, s = a ++ c :: b ∧ c ∉ a.
Proof.
  induction s as [|x s IH]; [by intros ?%not_elem_of_nil|]. intros Hc.
  destruct (decide (x = c)) as [->|]; [exists [], s; set_solver|].
  destruct IH as (a & b & -> & Ha); [set_solver|]. exists (x :: a), b. set_solver.
Qed.

Lemma matches_chr fuel c t pre s :
  (length s < fuel)%nat →
  let '(l, tl) := matches_from fuel (RSet false [(c, c)]) pre s in
  concat (map (fun p => fst p ++ t) l) ++ tl = flat_map (λ x, if x =? c then t else [x]) s.
Proof.
  revert pre s; induction fuel as [|f IH]; intros pre s Hf; [lia|]. cbn [matches_from].
  destruct (decide (c ∈ s)) as [Hc|Hc].
  - apply first_occurrence in Hc as (a & b & -> & Ha). rewrite search_chr_gap by done.
    cbn [m_str m_post m_pre]. specialize (IH (rev [c] ++ rev a ++ pre) b).
    destruct (matches_from f _ _ b) as [l tl]. rewrite flat_map_app, flat_map_id by done.
    rewrite length_app in *. simpl in *. rewrite Z.eqb_refl.
    replace (length a + S (length b) - length b - 1)%nat with (length a) by lia.
    rewrite take_app_length, <- !app_assoc. do 2 f_equal. apply IH. lia.
  - rewrite search_chr_none by done. simpl. by rewrite flat_map_id.
Qed.

(** A global replacement of one code unit is a homomorphism of strings. *)
Lemma replace_all_chr c t s :
  replace_all (RSet false [(c, c)]) t s = flat_map (λ x, if x =? c then t else [x]) s.
Proof.
  unfold replace_all, matches. pose proof (matches_chr (S (length s)) c t [] s) as H.
  destruct (matches_from _ _ _ _) as [l tl]. apply H. lia.
Qed.

End replace_char.

(** ** [split] at one code unit, and at one with blanks around it *)

(** The class [[\t ]] and the expression [[\t ]*x[\t ]*]. *)
Definition blank_set : re := RSet false [(9, 9); (32, 32)].
Definition sep_re (x : Z) : re :=
  RSeq (RRep 0 None blank_set) (RSeq (RChr x) (RRep 0 None blank_set)).
Definition is_blank (c : Z) : bool := in_set false [(9, 9); (32, 32)] c.

Section splitting.

Lemma split_from_chr f c pre acc s :
  (length s < f)%nat →
  split_from f (RSet false [(c, c)]) pre acc s =
  match split_char c s with p :: ps => (rev acc ++ p) :: ps | [] => [] end.
Proof.
  revert pre acc s. induction f as [|f IH]; intros pre acc s Hf; [lia|].
  destruct s as [|x s]; cbn [split_from split_char]; [by rewrite app_nil_r|].
  rewrite exec_at_chr. simpl in Hf. destruct (Z.eqb_spec x c) as [->|].
  - rewrite bool_decide_eq_false_2 by (simpl; naive_solver lia).
    rewrite IH by lia. rewrite app_nil_r. by destruct (split_char c s).
  - rewrite IH by lia. destruct (split_char c s) as [|p ps] eqn:E; [by apply split_char_nonempty in E|].
    simpl. by rewrite <- app_assoc.
Qed.

(** [split(/c/)] is [split("c")]. *)
Lemma split_re_chr c s : split_re (RSet false [(c, c)]) s = split_char c s.
Proof.
  destruct s as [|x s]; [done|]. unfold split_re. rewrite split_from_chr by (simpl; lia).
  destruct (split_char c (x :: s)) eqn:E; [by apply split_char_nonempty in E|done].
Qed.

Lemma exec_sep_other x pre y s :
  is_blank y = false → y ≠ x → exec_at (sep_re x) pre (y :: s) = None.
Proof.
  intros Hb Hy. unfold exec_at, sep_re, blank_set, RChr. cbn -[in_set]. unfold is_blank in Hb.
  rewrite Hb. cbn -[in_set]. rewrite in_set_chr_eqb. by neqb.
Qed.

Lemma exec_sep_here x pre s :
  is_blank x = false → (∀ y, head s = Some y → is_blank y = false) →
  exec_at (sep_re x) pre (x :: s) = Some (x :: pre, s, []).
Proof.
  intros Hb Hs. unfold exec_at, sep_re, blank_set, RChr. cbn -[in_set]. unfold is_blank in *.
  rewrite Hb. cbn -[in_set]. rewrite in_set_chr_eqb, Z.eqb_refl.
  destruct s as [|y s]; [done|]. cbn -[in_set]. by rewrite (Hs y eq_refl).
Qed.

End splitting.

(** [split] undoes [join] on pieces, for a separator [x] that the expression
    matches alone when the next code unit satisfies [after], and that no code
    unit of a piece starts. *)
Section split_join.
Variables (r : re) (x : Z) (inside after : Z → Prop) (piece_of : jstr → Prop).
Hypothesis other : ∀ pre y s, inside y → exec_at r pre (y :: s) = None.
Hypothesis here : ∀ pre s, (∀ y, head s = Some y → after y) → exec_at r pre (x :: s) = Some (x :: pre, s, []).
Hypothesis piece_inside : ∀ p, piece_of p → Forall inside p.
Hypothesis join_after : ∀ p l y, Forall piece_of (p :: l) → head (join [x] (p :: l)) = Some y → after y.

Lemma split_from_inside f pre acc p :
  Forall inside p → (length p < f)%nat → split_from f r pre acc p = [rev acc ++ p].
Proof.
  intros Hp. revert f pre acc. induction Hp as [|c p Hc Hp IH]; intros f pre acc Hf;
    (destruct f as [|f]; [simpl in Hf; lia|]).
  - simpl. by rewrite app_nil_r.
  - cbn [split_from]. rewrite other by done. rewrite IH by (simpl in Hf; lia).
    simpl. by rewrite <- app_assoc.
Qed.

Lemma split_from_inside_sep f pre acc p s :
  Forall inside p → (∀ y, head s = Some y → after y) → (length p < f)%nat →
  ∃ pre', split_from f r pre acc (p ++ x :: s) =
    (rev acc ++ p) :: split_from (f - S (length p)) r pre' [] s.
Proof.
  intros Hp Hs. revert f pre acc. induction Hp as [|c p Hc Hp IH]; intros f pre acc Hf;
    (destruct f as [|f]; [simpl in Hf; lia|]).
  - exists (x :: pre). cbn [split_from app]. rewrite here by done.
    rewrite bool_decide_eq_false_2 by (simpl; naive_solver lia). rewrite app_nil_r.
    simpl. by rewrite Nat.sub_0_r.
  - cbn [split_from app]. rewrite other by done.
    destruct (IH f (c :: pre) (c :: acc)) as [pre' ->]; [simpl in Hf; lia|]. exists pre'.
    simpl. by rewrite <- app_assoc.
Qed.

Lemma split_from_join f pre l :
  l ≠ [] → Forall piece_of l → (length (join [x] l) < f)%nat →
  split_from f r pre [] (join [x] l) = l.
Proof.
  intros Hne Hl. revert f pre. induction Hl as [|p l Hp Hl IH]; intros f pre Hf; [done|].
  destruct l as [|q l].
  - simpl in *. rewrite split_from_inside; auto.
  - change (join [x] (p :: q :: l)) with (p ++ x :: join [x] (q :: l)) in *.
    pose proof (λ y, join_after q l y Hl) as Hh. revert IH Hf Hh. generalize (join [x] (q :: l)). intros J IH Hf Hh.
    rewrite length_app in Hf. simpl length in Hf.
    destruct (split_from_inside_sep f pre [] p J) as [pre' ->]; [auto|done|lia|].
    simpl. f_equal. apply IH; [done|lia].
Qed.

Lemma split_re_join_gen l :
  l ≠ [] → l ≠ [[]] → Forall piece_of l → split_re r (join [x] l) = l.
Proof.
  intros Hne Hne' Hl. unfold split_re. destruct (join [x] l) as [|y s] eqn:E.
  - destruct l as [|p [|q l]]; [done| |].
    + simpl in E. by subst.
    + simpl in E. by apply app_eq_nil in E as [_ ?].
  - rewrite <- E at 2. apply split_from_join; [done..|]. rewrite E. simpl. lia.
Qed.

End split_join.

(** A piece: no blank and no separator. *)
Definition piece (x : Z) (p : jstr) : Prop := Forall (λ c, is_blank c = false ∧ c ≠ x) p.

Section split_blanks.

Lemma join_head x p l :
  is_blank x = false → Forall (piece x) (p :: l) →
  ∀ y, head (join [x] (p :: l)) = Some y → is_blank y = false.
Proof.
  intros Hx Hl y. inversion Hl as [|? ? Hp Hl']; subst.
  destruct p as [|c p].
  - destruct l; simpl; [done|by intros [= <-]].
  - inversion Hp as [|? ? [Hc _] _]; subst. destruct l; simpl; by intros [= <-].
Qed.

(** [split] with blanks around the separator undoes [join] on pieces. *)
Lemma split_re_join x l :
  l ≠ [] → is_blank x = false → Forall (piece x) l → split_re (sep_re x) (join [x] l) = l.
Proof.
  intros Hne Hx Hl. destruct (decide (l = [[]])) as [->|Hne'].
  { simpl. unfold split_re, exec_at, sep_re, blank_set, RChr. done. }
  apply (split_re_join_gen (sep_re x) x (λ c, is_blank c = false ∧ c ≠ x) (λ c, is_blank c = false) (piece x)).
  - intros pre y s [Hb Hy]. by apply exec_sep_other.
  - intros pre s Hs. by apply exec_sep_here.
  - done.
  - intros p l' y H. by apply join_head.
  - done.
  - done.
  - done.
Qed.

(** [split] at runs of characters of a class, on non-empty pieces outside it. *)
Lemma split_re_class rs x l :
  in_set false rs x = true → l ≠ [] →
  Forall (λ p, p ≠ [] ∧ Forall (λ c, in_set false rs c = false) p) l →
  split_re (RRep 1 None (RSet false rs)) (join [x] l) = l.
Proof.
  intros Hx Hne Hl.
  apply (split_re_join_gen _ x (λ c, in_set false rs c = false) (λ c, in_set false rs c = false)
    (λ p, p ≠ [] ∧ Forall (λ c, in_set false rs c = false) p)).
  - intros pre y s Hy. unfold exec_at. cbn -[in_set]. by rewrite Hy.
  - intros pre s Hs. unfold exec_at. cbn -[in_set]. rewrite Hx.
    destruct s as [|y s]; [done|]. cbn -[in_set]. by rewrite (Hs y eq_refl).
  - by intros p [_ ?].
  - intros p l' y H. inversion H as [|? ? [Hp Hp'] _]; subst. destruct p as [|c p]; [done|].
    inversion Hp'; subst. destruct l'; simpl; by intros [= <-].
  - done.
  - intros ->. inversion Hl as [|? ? [? _] _]; subst. done.
  - done.
Qed.

End split_blanks.
