(* ===== verification/JsFloat.v ===== *)
(** * Quotients of JavaScript numbers

    The other files keep numbers exact.  A quotient that is not an integer is the
    nearest IEEE double, and its text has the least number of digits that
    identify the double among its neighbours. *)
From Stdlib Require Import Floats.SpecFloat.
From S2P Require Import Prelude JsNum JsString.
Open Scope Z_scope.

Module JsFloat.

Definition float (z : Z) : spec_float := binary_normalize 53 1024 z 0 false.

(** The rational [a / b] compared with [c / d]; the denominators are positive. *)
Definition ratio_ltb (a b c d : Z) : bool := a * d <? c * b.

(** [10 ^ n] as a ratio. *)
Definition pow10 (n : Z) : Z * Z := if 0 <=? n then (10 ^ n, 1) else (1, 10 ^ (- n)).

(** The number of digits before the point of [a / b]: the first [n], from a lower
    bound, with [a / b < 10 ^ n]. *)
Fixpoint magnitude (fuel : nat) (a b n : Z) : Z :=
  match fuel with
  | O => n
  | S f => let '(p, q) := pow10 n in if ratio_ltb a b p q then n else magnitude f a b (n + 1)
  end.

(** [a / b] times [10 ^ k], rounded to the nearest integer. *)
Definition scaled (a b k : Z) : Z := let '(p, q) := pow10 k in (2 * a * p + b * q) / (2 * b * q).

(** Is [s * 10 ^ k] nearer to [m * 2 ^ e] than half of the distance to the next double? *)
Definition identifies (m e s k : Z) : bool :=
  let '(p, q) := pow10 k in
  let '(a, b) := if 0 <=? e then (m * 2 ^ e, 1) else (m, 2 ^ (- e)) in
  let '(u, w) := if 0 <=? e then (2 ^ e, 1) else (1, 2 ^ (- e)) in
  2 * Z.abs (s * p * b - a * q) * w <? u * (q * b).

(** The digits that are enough, with the power of ten of the last one. *)
Fixpoint shortest (fuel : nat) (m e n digits : Z) : Z * Z :=
  let '(a, b) := if 0 <=? e then (m * 2 ^ e, 1) else (m, 2 ^ (- e)) in
  let s := scaled a b (digits - n) in
  match fuel with
  | O => (s, n - digits)
  | S f => if identifies m e s (n - digits) then (s, n - digits) else shortest f m e n (digits + 1)
  end.

(** The text of a positive number [s * 10 ^ k]: with an exponent from [10 ^ 21] on
    and below [10 ^ -6]. *)
Definition decimal_text (s k : Z) : jstr :=
  let l := str_of_Z s in
  let n := zlen l + k in
  if (21 <? n) || (n <=? -6) then
    take 1 l ++ (if zlen l =? 1 then [] else js "." ++ drop 1 l) ++ js "e" ++ (if 0 <=? n - 1 then js "+" else []) ++ str_of_Z (n - 1)
  else if 0 <=? k then l ++ str_repeat (js "0") k
  else if zlen l + k <=? 0 then js "0." ++ str_repeat (js "0") (- (zlen l + k)) ++ l
  else take (Z.to_nat (zlen l + k)) l ++ js "." ++ drop (Z.to_nat (zlen l + k)) l.

Definition float_text (x : spec_float) : jstr :=
  match x with
  | S754_finite neg m e =>
      let m := Z.pos m in
      let '(a, b) := if 0 <=? e then (m * 2 ^ e, 1) else (m, 2 ^ (- e)) in
      let n := magnitude 6 a b ((Z.log2 m + e) * 30103 / 100000 - 1) in
      let '(s, k) := shortest 16 m e n 1 in
      (if neg then js "-" else []) ++ decimal_text s k
  | S754_zero _ => js "0"
  | S754_infinity neg => (if neg then js "-" else []) ++ js "Infinity"
  | S754_nan => js "NaN"
  end.

(** The text of [a / b], for integers that are doubles. *)
Definition quotient_text (a b : Z) : jstr :=
  if a mod b =? 0 then str_of_Z (a / b) else float_text (SFdiv 53 1024 (float a) (float b)).

(** The same for a decimal numerator, divided in one step. *)
Definition num_quotient_text (x : num) (b : Z) : jstr :=
  match x with
  | Dec m e => if 0 <=? e then quotient_text (m * 10 ^ e) b else quotient_text m (b * 10 ^ (- e))
  | NaN => js "NaN"
  | Inf neg => (if neg then js "-" else []) ++ js "Infinity"
  end.

End JsFloat.

Example quotient_thirds : JsFloat.quotient_text 1 3 = js "0.3333333333333333".
Proof. vm_compute. reflexivity. Qed.
Example quotient_minutes : JsFloat.quotient_text 100 60 = js "1.6666666666666667".
Proof. vm_compute. reflexivity. Qed.
Example quotient_quarter : JsFloat.quotient_text 15 60 = js "0.25".
Proof. vm_compute. reflexivity. Qed.
Example quotient_hours : JsFloat.quotient_text 7200 60 = js "120".
Proof. vm_compute. reflexivity. Qed.
Example quotient_small : JsFloat.quotient_text 100 86400 = js "0.0011574074074074073".
Proof. vm_compute. reflexivity. Qed.
Example quotient_tiny : JsFloat.quotient_text 1 3600000000 = js "2.7777777777777777e-10".
Proof. vm_compute. reflexivity. Qed.
Example quotient_large : JsFloat.quotient_text (10 ^ 25 + 1) 7 = js "1.4285714285714288e+24".
Proof. vm_compute. reflexivity. Qed.
