(* ===== verification/JsSplit.v ===== *)
(** * Splitting at runs of characters

    [split(/[xy]+/)] on any text.  [cut] is the reference: the text is cut at every
    maximal run of characters of a class.  The pieces of a text that was joined from
    pieces are, apart from empty ones, these pieces. *)
From S2P Require Import Prelude JsNum JsString JsRegex.
Open Scope Z_scope.

Section runs.
Context (rs : list (Z * Z)).

Local Abbreviation cls := (in_set false rs).
Local Abbreviation plus := (RRep 1 None (RSet false rs)).

(** The text after the run it begins with. *)
Fixpoint after_run (s : jstr) : jstr := match s with c :: s' => if cls c then after_run s' else s | [] => [] end.

Fixpoint cut (s : jstr) : list jstr :=
  match s with
  | [] => [[]]
  | c :: s' =>
      if cls c then match s' with
                    | y :: _ => if cls y then cut s' else [] :: cut s'
                    | [] => [[]; []]
                    end
      else match cut s' with p :: ps => (c :: p) :: ps | [] => [[c]] end
  end.

Lemma cut_two c y s : cls c = true → cut (c :: y :: s) = if cls y then cut (y :: s) else [] :: cut (y :: s).
Proof. intros Hc. cbn [cut]. by rewrite Hc. Qed.

Lemma cut_run c s : cls c = true → cut (c :: s) = [] :: cut (after_run s).
Proof.
  revert c. induction s as [|y s IH]; intros c Hc; [cbn [cut]; by rewrite Hc|].
  rewrite cut_two by done. cbn [after_run]. destruct (cls y) eqn:Ey; [by apply IH|done].
Qed.

Lemma after_run_len s : (length (after_run s) ≤ length s)%nat.
Proof. induction s as [|c s IH]; [done|]. cbn [after_run length]. destruct (cls c); cbn [length]; lia. Qed.

Lemma set_step pre c s cs k : rmatch (RSet false rs) pre (c :: s) cs k = if cls c then k (c :: pre) s cs else None.
Proof. done. Qed.

Lemma rep_opt_run n pre s : (length s ≤ n)%nat →
  ∃ pre', rep_opt (rmatch (RSet false rs)) n pre s [] (λ p s c, Some (p, s, c)) = Some (pre', after_run s, []).
Proof.
  revert pre s. induction n as [|n IH]; intros pre s Hn.
  - destruct s; simpl in Hn; [|lia]. by eexists.
  - destruct s as [|c s]; cbn [rep_opt]; [by eexists|]. rewrite set_step. cbn [after_run]. destruct (cls c) eqn:E; [|by eexists].
    rewrite bool_decide_eq_true_2 by (simpl; lia). destruct (IH (c :: pre) s) as [pre' ->]; [simpl in Hn; lia|]. by eexists.
Qed.

Lemma exec_run pre c s : cls c = true → ∃ pre', exec_at plus pre (c :: s) = Some (pre', after_run s, []).
Proof.
  intros Hc. unfold exec_at. change (rmatch plus) with (λ pre suf c k, rep_min (rmatch (RSet false rs)) 1 pre suf c (λ pre' suf' c',
    rep_opt (rmatch (RSet false rs)) (length suf') pre' suf' c' k)).
  cbn [rep_min]. rewrite set_step, Hc. by apply rep_opt_run.
Qed.

Lemma exec_no_run pre c s : cls c = false → exec_at plus pre (c :: s) = None.
Proof. intros Hc. unfold exec_at. cbn -[in_set]. by rewrite Hc. Qed.

Lemma cut_ne s : cut s ≠ [].
Proof.
  induction s as [|c s IH]; [done|]. destruct (cls c) eqn:E; [by rewrite cut_run|]. cbn [cut]. rewrite E. by destruct (cut s).
Qed.

Lemma split_from_cut f pre acc s : (length s < f)%nat →
  split_from f plus pre acc s = match cut s with p :: ps => (rev acc ++ p) :: ps | [] => [] end.
Proof.
  revert pre acc s. induction f as [|f IH]; intros pre acc s Hf; [lia|]. destruct s as [|c s].
  - simpl. by rewrite app_nil_r.
  - cbn [split_from]. simpl in Hf. destruct (cls c) eqn:E.
    + destruct (exec_run pre c s E) as [pre' ->]. pose proof (after_run_len s) as Hl.
      rewrite bool_decide_eq_false_2 by (intros [_ H]; simpl in H; lia). rewrite cut_run by done. rewrite IH by lia.
      rewrite app_nil_r. pose proof (cut_ne (after_run s)). by destruct (cut (after_run s)).
    + rewrite exec_no_run by done. rewrite IH by lia. cbn [cut]. rewrite E. pose proof (cut_ne s).
      destruct (cut s); [done|]. simpl. by rewrite <- app_assoc.
Qed.

Lemma split_re_cut s : split_re plus s = cut s.
Proof.
  destruct s as [|c s]; [done|]. unfold split_re. rewrite split_from_cut by (simpl; lia).
  pose proof (cut_ne (c :: s)). by destruct (cut (c :: s)).
Qed.

(** The pieces have no character of the class. *)
Lemma cut_outside s : Forall (Forall (λ c, cls c = false)) (cut s).
Proof.
  induction s as [|c s IH]; [by repeat constructor|]. destruct (cls c) eqn:E.
  - cbn [cut]. rewrite E. destruct s as [|y s]; [by repeat constructor|]. destruct (cls y); [done|]. by constructor.
  - cbn [cut]. rewrite E. destruct IH as [|p ps Hp Hps]; repeat constructor; done.
Qed.

Definition filled (l : list jstr) : list jstr := List.filter (λ p, negb (p =s [])) l.

Lemma filled_cons p l : filled (p :: l) = filled [p] ++ filled l.
Proof. unfold filled. cbn [List.filter]. by destruct (negb (p =s [])). Qed.

Lemma cut_inside p : Forall (λ c, cls c = false) p → cut p = [p].
Proof. induction 1 as [|c p Hc _ IH]; [done|]. cbn [cut]. by rewrite Hc, IH. Qed.

(** A piece before a separator. *)
Lemma cut_piece p x s : Forall (λ c, cls c = false) p → cls x = true → filled (cut (p ++ x :: s)) = filled (p :: cut s).
Proof.
  intros Hp Hx. assert (E : cut (p ++ x :: s) = p :: cut (after_run s)).
  { induction Hp as [|c p Hc _ IH]; cbn [app]; [by apply cut_run|]. cbn [cut]. by rewrite Hc, IH. }
  rewrite E, (filled_cons p (cut s)), filled_cons. f_equal. destruct s as [|c s]; [done|]. cbn [after_run]. destruct (cls c) eqn:Ec; [|done]. by rewrite cut_run.
Qed.

(** The pieces of joined pieces. *)
Lemma cut_join x l : cls x = true → Forall (Forall (λ c, cls c = false)) l → filled (cut (join [x] l)) = filled l.
Proof.
  intros Hx. induction 1 as [|p l Hp Hl IH]; [done|]. destruct l as [|q l].
  - simpl. by rewrite cut_inside.
  - change (join [x] (p :: q :: l)) with (p ++ x :: join [x] (q :: l)). rewrite cut_piece by done.
    by rewrite filled_cons, IH, <- filled_cons.
Qed.

End runs.
