(* ===== verification/Uci.v ===== *)
(** * UCIContainer (common.js)

    The ordered store of UCI options that every page edits: the constructor
    function [UCIContainer] of common.js with each of its methods.  [keys] is
    the order of insertion, [values] the JavaScript object from keys to values
    ([null] and [undefined] are absence), [listOptions] the set of keys that
    hold lists.  Values are strings or arrays of strings, and arrays are
    values: the container never shares one array between two keys. *)
From S2P Require Import Prelude JsNum JsString JsRegex.
Open Scope Z_scope.

(** A value of an option: a string, or an Array of strings. *)
Inductive uval :=
| UStr (s : jstr)
| UArr (l : list jstr).

#[export] Instance uval_eq_dec : EqDecision uval.
Proof. solve_decision. Defined.

(** String(v): an array prints its elements separated by commas. *)
Definition uval_str (v : uval) : jstr :=
  match v with UStr s => s | UArr l => join (js ",") l end.

Definition is_array (v : option uval) : bool :=
  match v with Some (UArr _) => true | _ => false end.

Record UCIContainer := mkUci {
  keys : list jstr;
  values : gmap jstr uval;
  listOptions : gset jstr
}.

Module Uci.

(** The string with the one character line feed. *)
Definition newline : jstr := [10].

(** [new UCIContainer()]. *)
Definition new : UCIContainer := mkUci [] ∅ ∅.

(** [pkg + "\." + section] and [pkg + "\." + section + "\." + option]. *)
Definition section_key (pkg section : jstr) : jstr := pkg ++ js "." ++ section.
Definition option_key (pkg section option : jstr) : jstr :=
  pkg ++ js "." ++ section ++ js "." ++ option.
Definition next_key (pkg section option : jstr) : jstr :=
  if option =s [] then section_key pkg section else option_key pkg section option.

(** [destroy] is the caller's argument, [None] when it is omitted: the source
    tests it with [== null ? true : false]. *)
Definition createListOption (u : UCIContainer) (pkg section option : jstr)
    (destroy : Datatypes.option bool) : UCIContainer :=
  let destroy_existing_nonlist := match destroy with None => true | Some _ => false end in
  let list_key := option_key pkg section option in
  if bool_decide (list_key ∈ listOptions u) then u
  else match values u !! list_key with
       | Some old =>
           mkUci (keys u)
             (<[list_key := UArr (if negb destroy_existing_nonlist then [uval_str old] else [])]> (values u))
             ({[list_key]} ∪ listOptions u)
       | None =>
           mkUci (keys u ++ [list_key]) (<[list_key := UArr []]> (values u))
             ({[list_key]} ∪ listOptions u)
       end.

(** The elements pushed by [set]: those of an array, or the one value. *)
Definition elements (v : uval) : list jstr := match v with UStr s => [s] | UArr l => l end.

(** A list option whose value is not an array does not occur (see [wf_list]):
    the source would throw there; here the value is replaced. *)
Definition set (u : UCIContainer) (pkg section option : jstr) (value : uval)
    (preserveExistingListValues : bool) : UCIContainer :=
  let k := next_key pkg section option in
  match values u !! k with
  | Some old =>
      let v :=
        if bool_decide (k ∈ listOptions u)
        then UArr ((match old with UArr l => if preserveExistingListValues then l else [] | UStr _ => [] end)
                   ++ elements value)
        else value in
      mkUci (keys u) (<[k := v]> (values u)) (listOptions u)
  | None =>
      let v := if bool_decide (k ∈ listOptions u) then UArr (elements value) else value in
      mkUci (keys u ++ [k]) (<[k := v]> (values u)) (listOptions u)
  end.

Definition get (u : UCIContainer) (pkg section option : jstr) : uval :=
  default (UStr []) (values u !! next_key pkg section option).

Definition re_newline : re := Eval vm_compute in rx "\r\n|\r|\n".

Definition setLines (u : UCIContainer) (pkg section option value : jstr) : UCIContainer :=
  let u1 := createListOption u pkg section option (Some true) in
  let lines := split_re re_newline value in
  let u2 := set u1 pkg section option (UArr (take 1 lines)) false in
  fold_left (fun u l => set u pkg section option (UStr l) true) (drop 1 lines) u2.

Definition getLines (u : UCIContainer) (pkg section option : jstr) : jstr :=
  match get u pkg section option with
  | UArr l => join newline l
  | UStr _ => []
  end.

(** [key.match(test)] with a string: the string is compiled as a pattern. *)
Definition match_string (key test : jstr) : exn bool :=
  let! r := exn_of_option SyntaxError (parse_re test) in Ret (JsRegex.test r key).

Definition re_opt_prefix : re := Eval vm_compute in rx "^[^\.]+\.[^\.]+\.[^\.]+".
Definition re_opt : re := Eval vm_compute in rx "^[^\.]+\.[^\.]+\.([^\.]+)$".
Definition re_sec : re := Eval vm_compute in rx "^[^\.]+\.[^\.]+$".
Definition re_sec_name : re := Eval vm_compute in rx "^[^\.]+\.([^\.]+)$".

(** [key.match(r)[1]]: indexing the [null] of a failed match throws. *)
Definition match_group1 (r : re) (key : jstr) : exn jstr :=
  let! m := exn_of_option TypeError (exec r key) in Ret (group 1 m).

Definition getAllOptionsInSection (u : UCIContainer) (pkg section : jstr) (includeLists : bool)
    : exn (list jstr) :=
  exn_fold (fun matches key =>
    let! hit := match_string key (section_key pkg section) in
    if hit && JsRegex.test re_opt_prefix key
       && (includeLists || negb (bool_decide (key ∈ listOptions u)))
    then (let! option := match_group1 re_opt key in Ret (matches ++ [option]))
    else Ret matches) (keys u) [].

(** [this.values[key] == type]. *)
Definition value_is (u : UCIContainer) (key type : jstr) : bool :=
  match values u !! key with Some v => uval_str v =s type | None => false end.

Definition getAllSectionsOfType (u : UCIContainer) (pkg type : jstr) : exn (list jstr) :=
  exn_fold (fun matches key =>
    let! hit := match_string key pkg in
    if hit && JsRegex.test re_sec key then
      if value_is u key type
      then (let! section := match_group1 re_sec_name key in Ret (matches ++ [section]))
      else Ret matches
    else Ret matches) (keys u) [].

Definition getAllSections (u : UCIContainer) (pkg : jstr) : exn (list jstr) :=
  exn_fold (fun matches key =>
    let! hit := match_string key pkg in
    if hit && JsRegex.test re_sec key
    then (let! section := match_group1 re_sec_name key in Ret (matches ++ [section]))
    else Ret matches) (keys u) [].

(** [remove]: the container after it and the value that was there. *)
Definition remove (u : UCIContainer) (pkg section option : jstr) : UCIContainer * uval :=
  let removeKey := next_key pkg section option in
  let lists := listOptions u ∖ {[removeKey]} in
  match values u !! removeKey with
  | Some value =>
      (mkUci (List.filter (fun k => negb (k =s removeKey)) (keys u)) (delete removeKey (values u)) lists, value)
  | None => (mkUci (keys u) (values u) lists, UStr [])
  end.

(** [key.split("\.")[2]]. *)
Definition third_part (key : jstr) : jstr := default [] (split_char 46 key !! 2%nat).

Definition removeSection (u : UCIContainer) (pkg section : jstr) : exn UCIContainer :=
  let! removeKeys := exn_fold (fun acc key =>
    let! hit := match_string key (pkg ++ js "\." ++ section ++ js "\.") in
    Ret (if hit then acc ++ [third_part key] else acc)) (keys u) [] in
  let sectionDefined := existsb (fun key => key =s section_key pkg section) (keys u) in
  let u1 := fold_left (fun u o => fst (remove u pkg section o)) removeKeys u in
  Ret (if sectionDefined then fst (remove u1 pkg section []) else u1).

Definition removeAllSectionsOfType (u : UCIContainer) (pkg type : jstr) : exn UCIContainer :=
  let! removeSections := getAllSectionsOfType u pkg type in
  exn_fold (fun u s => removeSection u pkg s) removeSections u.

Definition re_split3 : re := Eval vm_compute in rx "^([^\.]+)\.([^\.]+)\.([^\.]+)$".
Definition re_split2 : re := Eval vm_compute in rx "^([^\.]+)\.([^\.]+)$".

(** The loop of [clone], for one key of the original. *)
Definition clone_key (u copy : UCIContainer) (key : jstr) : exn UCIContainer :=
  let val := default (UStr []) (values u !! key) in
  let copy := if bool_decide (key ∈ listOptions u)
              then mkUci (keys copy) (values copy) ({[key]} ∪ listOptions copy) else copy in
  match exec re_split3 key with
  | Some m => Ret (set copy (group 1 m) (group 2 m) (group 3 m) val true)
  | None =>
      match exec re_split2 key with
      | Some m => Ret (set copy (group 1 m) (group 2 m) [] val true)
      | None => Raise TypeError
      end
  end.

Definition clone (u : UCIContainer) : exn UCIContainer := exn_fold (clone_key u) (keys u) new.

(** [print]. *)
Definition print (u : UCIContainer) : jstr :=
  concat (map (fun key =>
    newline ++ key ++ js " = " ++ [34] ++ uval_str (default (UStr []) (values u !! key)) ++ [34]) (keys u)).

(** *** getScriptCommands *)
Definition cmd_del (key : jstr) : jstr := js "uci del " ++ key.

Definition re_quote : re := Eval vm_compute in rx "'".
(** [v.replace(/'/g, "'\\''")]. *)
Definition escape (v : jstr) : jstr := replace_all re_quote (js "'\''") v.

Definition cmd_set (key v : jstr) : jstr := js "uci set " ++ key ++ js "='" ++ escape v ++ js "'".
Definition cmd_add_list (key v : jstr) : jstr := js "uci add_list " ++ key ++ js "='" ++ escape v ++ js "'".
Definition cmd_commit : jstr := js "uci commit".

(** [v == null || v == '']: an array compares as its string. *)
Definition blank (v : option uval) : bool :=
  match v with None => true | Some v => uval_str v =s [] end.

(** Element-wise comparison of two lists of the same length. *)
Fixpoint same_elements (l1 l2 : list jstr) : bool :=
  match l1, l2 with
  | [], [] => true
  | x :: l1', y :: l2' => (x =s y) && same_elements l1' l2'
  | _, _ => false
  end.

(** First loop, for one key of the old settings: the commands and the lists
    without updates so far. *)
Definition script_del (u old : UCIContainer) (st : list jstr * gset jstr) (key : jstr)
    : list jstr * gset jstr :=
  let '(commandArray, listsWithoutUpdates) := st in
  let oldValue := values old !! key in
  let newValue := values u !! key in
  match oldValue, newValue with
  | Some (UArr lo), Some (UArr ln) =>
      if same_elements lo ln then (commandArray, {[key]} ∪ listsWithoutUpdates)
      else (commandArray ++ [cmd_del key], listsWithoutUpdates)
  | _, _ =>
      if is_array oldValue || is_array newValue then (commandArray ++ [cmd_del key], listsWithoutUpdates)
      else if blank newValue && negb (blank oldValue) then (commandArray ++ [cmd_del key], listsWithoutUpdates)
      else st
  end.

(** Second loop, for one key of the new settings. *)
Definition script_set (u old : UCIContainer) (listsWithoutUpdates : gset jstr) (key : jstr) : list jstr :=
  let oldValue := values old !! key in
  let newValue := values u !! key in
  if is_array oldValue || is_array newValue then
    match newValue with
    | Some (UArr ln) =>
        if bool_decide (key ∈ listsWithoutUpdates) then [] else map (cmd_add_list key) ln
    | Some (UStr s) => [cmd_set key s]
    | None => [cmd_set key (js "undefined")]
    end
  else if negb (bool_decide (oldValue = newValue)) && negb (blank newValue)
  then match newValue with Some v => [cmd_set key (uval_str v)] | None => [] end
  else [].

Definition script_lines (u old : UCIContainer) : list jstr :=
  let '(dels, lwu) := fold_left (script_del u old) (keys old) ([], ∅) in
  dels ++ concat (map (script_set u old lwu) (keys u)) ++ [cmd_commit].

Definition getScriptCommands (u old : UCIContainer) : jstr := join newline (script_lines u old).

End Uci.
