(* ===== verification/UciFacts.v ===== *)
(** * Properties of UCIContainer

    Well-formedness of a container and its preservation, the functional
    behaviour of each method, the exactness of [removeSection] and [clone],
    and the line round trip. *)
From S2P Require Import Prelude JsNum JsString JsRegex Uci.
Import Uci.
Open Scope Z_scope.

(** ** Names and keys *)

(** A part of a key: not empty and without a dot. *)
Definition name (s : jstr) : Prop := s ≠ [] ∧ 46 ∉ s.

(** UCI identifiers: letters, digits, underscore and hyphen. *)
Definition word_char (c : Z) : bool :=
  is_digit c || is_upper c || is_lower c || (c =? 95) || (c =? 45).
Definition word (s : jstr) : Prop := s ≠ [] ∧ Forall (λ c, word_char c = true) s.

Lemma word_name s : word s → name s.
Proof.
  intros [Hn Hf]. split; [done|]. intros Hin. rewrite Forall_forall in Hf.
  by specialize (Hf _ Hin).
Qed.
#[export] Hint Resolve word_name : uci.

(** A word followed by a number. *)
Lemma word_numbered s n : word s → 0 <= n → word (s ++ str_of_Z n).
Proof.
  intros [Hs Hf] Hn. split; [by destruct s|]. apply Forall_app. split; [done|].
  destruct (str_of_Z_digits n Hn) as [Hd _]. eapply Forall_impl; [exact Hd|]. intros c Hc. unfold word_char. by rewrite Hc.
Qed.

#[export] Instance name_dec s : Decision (name s).
Proof. unfold name. apply _. Defined.
#[export] Instance word_dec s : Decision (word s).
Proof. unfold word. apply _. Defined.

(** Decide a closed proposition by evaluation. *)
Ltac by_eval := apply (bool_decide_unpack _); vm_compute; exact I.

(** The shapes of the keys that [set] builds. *)
Inductive key_shape : jstr → Prop :=
| shape_section p s : name p → name s → key_shape (section_key p s)
| shape_option p s o : name p → name s → name o → key_shape (option_key p s o).

Section keys.

Lemma dot_app (x : jstr) : js "." ++ x = 46 :: x.
Proof. done. Qed.

Lemma split_section_key p s : name p → name s → split_char 46 (section_key p s) = [p; s].
Proof.
  intros [_ Hp] [_ Hs]. unfold section_key. rewrite dot_app.
  by rewrite split_char_app, split_char_none.
Qed.

Lemma split_option_key p s o :
  name p → name s → name o → split_char 46 (option_key p s o) = [p; s; o].
Proof.
  intros [_ Hp] [_ Hs] [_ Ho]. unfold option_key. rewrite !dot_app.
  by rewrite split_char_app, split_char_app, split_char_none.
Qed.

Lemma section_key_inj p s p' s' :
  name p → name s → name p' → name s' → section_key p s = section_key p' s' → p = p' ∧ s = s'.
Proof. intros ? ? ? ? E. apply (f_equal (split_char 46)) in E. rewrite !split_section_key in E by done. naive_solver. Qed.

Lemma option_key_inj p s o p' s' o' :
  name p → name s → name o → name p' → name s' → name o' →
  option_key p s o = option_key p' s' o' → p = p' ∧ s = s' ∧ o = o'.
Proof. intros ? ? ? ? ? ? E. apply (f_equal (split_char 46)) in E. rewrite !split_option_key in E by done. naive_solver. Qed.

Lemma section_option_key p s p' s' o' :
  name p → name s → name p' → name s' → name o' → section_key p s ≠ option_key p' s' o'.
Proof.
  intros ? ? ? ? ? E. apply (f_equal (split_char 46)) in E.
  by rewrite split_section_key, split_option_key in E.
Qed.

Lemma next_key_section p s : next_key p s [] = section_key p s.
Proof. done. Qed.

Lemma next_key_option p s o : o ≠ [] → next_key p s o = option_key p s o.
Proof. intros Ho. unfold next_key. by rewrite (proj2 (str_eqb_neq o [])). Qed.

Lemma third_part_option p s o : name p → name s → name o → third_part (option_key p s o) = o.
Proof. intros. unfold third_part. by rewrite split_option_key. Qed.

End keys.

(** ** Patterns built from names *)
Section patterns.

Definition literal (w : jstr) : re := seq_of (map RChr w).

Lemma literal_cons x y w : literal (x :: y :: w) = RSeq (RChr x) (literal (y :: w)).
Proof. done. Qed.

Lemma mt_literal w pre w' suf c c' : mt (literal w) pre w' suf c c' ↔ w' = w ∧ c' = c.
Proof.
  revert pre w' c. induction w as [|x w IH]; intros pre w' c; [apply mt_eps_iff|].
  destruct w as [|y w]; [apply mt_chr_iff|]. rewrite literal_cons, mt_seq_iff. split.
  - intros (w1 & w2 & c1 & -> & [-> ->]%mt_chr_iff & [-> ->]%IH). done.
  - intros [-> ->]. exists [x], (y :: w), c. split_and!; [done| by apply mt_chr_iff | by apply IH].
Qed.

Lemma test_literal w s : test (literal w) s = true ↔ ∃ a b, s = a ++ w ++ b.
Proof.
  rewrite test_search. split.
  - intros (a & w' & b & c & -> & [-> _]%mt_literal). eauto.
  - intros (a & b & ->). exists a, w, b, []. split; [done|]. by apply mt_literal.
Qed.

(** A character after which the parser reads no quantifier. *)
Definition plain_head (s : jstr) : Prop :=
  ∀ c, head s = Some c → c ≠ 42 ∧ c ≠ 43 ∧ c ≠ 63 ∧ c ≠ 123.

Lemma parse_quantifier_plain r s : plain_head s → parse_quantifier r s = Some (r, s).
Proof.
  intros H. destruct s as [|c s]; [done|]. destruct (H c eq_refl) as (? & ? & ? & ?). simpl.
  by neqb.
Qed.

Lemma word_char_cases c : word_char c = true → 45 <= c <= 122 ∧ c ≠ 46 ∧ c ≠ 63 ∧ c ≠ 91 ∧ c ≠ 92 ∧ c ≠ 93 ∧ c ≠ 94.
Proof. unfold word_char, is_digit, is_upper, is_lower. lia. Qed.

Lemma plain_word w t : Forall (λ c, word_char c = true) w → plain_head t → plain_head (w ++ t).
Proof.
  intros [|c w' Hc] Ht; [done|]. intros d [= <-]. apply word_char_cases in Hc. lia.
Qed.

Lemma parse_word f n acc w t :
  Forall (λ c, word_char c = true) w → plain_head t →
  parse_disj (length w + f) n acc (w ++ t) = parse_disj f n (rev (map RChr w) ++ acc) t.
Proof.
  intros Hw Ht. revert acc. induction Hw as [|c w Hc Hw IH]; intros acc; [done|].
  simpl. apply word_char_cases in Hc.
  neqb. simpl.
  rewrite parse_quantifier_plain by (by apply plain_word). rewrite IH.
  by rewrite <- app_assoc.
Qed.

Lemma parse_dot f n acc t :
  plain_head t → parse_disj (S f) n acc (js "\." ++ t) = parse_disj f n (RChr 46 :: acc) t.
Proof. intros Ht. simpl. by rewrite parse_quantifier_plain. Qed.

(** A name is compiled to the pattern of its characters. *)
Lemma parse_re_word w : word w → parse_re w = Some (literal w).
Proof.
  intros [_ Hw]. unfold parse_re.
  replace (S (length w)) with (length w + 1)%nat by lia.
  rewrite <- (app_nil_r w) at 2. rewrite parse_word; [|done|by intros ?].
  simpl. by rewrite app_nil_r, rev_involutive.
Qed.

(** [new RegExp(pkg + "\\." + section + "\\.")] searches for the text ["pkg.section."]. *)
Lemma parse_re_section p s :
  word p → word s →
  parse_re (p ++ js "\." ++ s ++ js "\.") = Some (literal (section_key p s ++ js ".")).
Proof.
  intros [_ Hp] [_ Hs]. unfold parse_re.
  replace (S (length _)) with (length p + S (length s + S 3))%nat
    by (rewrite !length_app; simpl; lia).
  assert (plain_head []) by done.
  assert (∀ t, plain_head (js "\." ++ t)) by (intros t c [= <-]; lia).
  rewrite parse_word by done.
  rewrite parse_dot by (apply plain_word; [done|apply (H0 [])]).
  rewrite parse_word by (done || apply (H0 [])).
  rewrite (parse_dot 3 1 _ []) by done. simpl.
  unfold literal, section_key. change (js ".") with [46]. rewrite app_nil_r, !map_app.
  rewrite !rev_app_distr. simpl. rewrite <- !app_assoc. by rewrite !rev_involutive.
Qed.

Lemma mt_name pre w suf c c' :
  mt (RRep 1 None (RSet true [(46, 46)])) pre w suf c c' ↔ name w ∧ c' = c.
Proof.
  rewrite mt_rep_set_iff by done. unfold name. split.
  - intros (Hf & Hl & _ & ->). split_and!; [intros ->; simpl in Hl; lia| |done].
    intros Hin. rewrite Forall_forall in Hf. by apply Hf, in_set_not_chr in Hin.
  - intros [[Hn Hd] ->]. split_and!; [|destruct w; [done|simpl; lia]|done|done].
    apply Forall_forall. intros x Hx. apply in_set_not_chr. by intros ->.
Qed.

Lemma name_forall w : name w → Forall (λ x, x ≠ 46) w.
Proof. intros [_ Hd]. apply Forall_forall. by intros x Hx ->. Qed.

Lemma dotted_inj2 a b a' b' : name a → name a' → a ++ 46 :: b = a' ++ 46 :: b' → a = a' ∧ b = b'.
Proof. intros Ha Ha'. apply (app_inv_mid (λ x, x ≠ 46)); [by apply name_forall..|]. intros H. by apply H. Qed.

End patterns.

(** Take a match of one of the key expressions apart into names. *)
Ltac key_inv :=
  mt_inv;
  repeat match goal with
  | H : mt (RRep 1 None (RSet true [(46, 46)])) _ _ _ _ _ |- _ => apply mt_name in H as [? ?]; subst
  end.

Section key_patterns.

(** Captures of the two expressions of [clone]. *)
Lemma mt_split3 p s o :
  name p → name s → name o →
  mt (seq_of [RGrp 1 (RRep 1 None (RSet true [(46, 46)])); RChr 46;
              RGrp 2 (RRep 1 None (RSet true [(46, 46)])); RChr 46;
              RGrp 3 (RRep 1 None (RSet true [(46, 46)])); REol])
     [] (p ++ [46] ++ s ++ [46] ++ o ++ []) [] [] [(3%nat, o); (2%nat, s); (1%nat, p)].
Proof.
  intros Hp Hs Ho. simpl seq_of.
  repeat (eapply mt_seq; [first [apply mt_grp, mt_name; done | by apply mt_chr_iff]|]).
  constructor.
Qed.

Lemma exec_split3 p s o : name p → name s → name o →
  ∃ m, exec re_split3 (option_key p s o) = Some m ∧ group 1 m = p ∧ group 2 m = s ∧ group 3 m = o.
Proof.
  intros Hp Hs Ho. destruct (exec re_split3 (option_key p s o)) as [m|] eqn:E.
  - exists m. split; [done|]. apply exec_bol_Some in E as (Es & _ & Hm).
    revert Es. unfold group, cap. destruct m as [mp ms mo mc]; simpl in *. key_inv.
    intros Es. rewrite <- !app_assoc in Es. unfold option_key in Es. rewrite !dot_app in Es.
    apply dotted_inj2 in Es as [-> Es]; [|done|done]. apply dotted_inj2 in Es as [-> Es]; [|done|done].
    simpl in Es. rewrite !app_nil_r in Es. by subst.
  - exfalso. eapply (proj1 (exec_bol_None _ _) E); [|by apply (mt_split3 p s o)].
    unfold option_key. by rewrite !app_nil_r.
Qed.

Lemma exec_split3_section p s : name p → name s → exec re_split3 (section_key p s) = None.
Proof.
  intros Hp Hs. apply exec_bol_None. intros w suf c Es Hm. key_inv.
  unfold section_key in Es. rewrite dot_app, <- !app_assoc in Es.
  apply dotted_inj2 in Es as [-> Es]; [|done|done]. destruct Hs as [_ Hs]. apply Hs.
  rewrite Es. set_solver.
Qed.

Lemma exec_split2 p s : name p → name s →
  ∃ m, exec re_split2 (section_key p s) = Some m ∧ group 1 m = p ∧ group 2 m = s.
Proof.
  intros Hp Hs. destruct (exec re_split2 (section_key p s)) as [m|] eqn:E.
  - exists m. split; [done|]. apply exec_bol_Some in E as (Es & _ & Hm).
    revert Es. unfold group, cap. destruct m as [mp ms mo mc]; simpl in *. key_inv.
    intros Es. rewrite <- !app_assoc in Es. unfold section_key in Es. rewrite !dot_app in Es.
    apply dotted_inj2 in Es as [-> Es]; [|done|done].
    simpl in Es. rewrite !app_nil_r in Es. by subst.
  - exfalso. eapply (proj1 (exec_bol_None _ _) E (p ++ [46] ++ s ++ []) [] [(2%nat, s); (1%nat, p)]).
    + unfold section_key. by rewrite !app_nil_r.
    + repeat (eapply mt_seq; [first [apply mt_grp, mt_name; done | by apply mt_chr_iff]|]). constructor.
Qed.

End key_patterns.

(** ** Well-formed containers *)

(** The keys are listed once each, are the keys that have a value, and a list
    option holds an array. *)
Record wf (u : UCIContainer) : Prop := {
  wf_nodup : NoDup (keys u);
  wf_dom : ∀ k, k ∈ keys u ↔ is_Some (values u !! k);
  wf_list : ∀ k, k ∈ listOptions u → is_array (values u !! k) = true
}.

(** Every key has the shape that names give it. *)
Definition shaped (u : UCIContainer) : Prop := Forall key_shape (keys u).

Section wf_preservation.

Lemma new_wf : wf new.
Proof.
  split; simpl.
  - constructor.
  - intros k. rewrite lookup_empty. split; [intros H; by inversion H|by intros [? ?]].
  - set_solver.
Qed.

Lemma wf_lookup_None u k : wf u → values u !! k = None → k ∉ keys u.
Proof. intros Hu E Hin. apply (wf_dom _ Hu) in Hin as [? ?]. congruence. Qed.

(** Replacing the value of a key that is there. *)
Lemma wf_update u k v lists :
  wf u → is_Some (values u !! k) →
  (∀ k', k' ∈ lists → k' = k ∧ is_array (Some v) = true ∨ k' ≠ k ∧ k' ∈ listOptions u) →
  wf (mkUci (keys u) (<[k := v]> (values u)) lists).
Proof.
  intros Hu Hk Hl. split; simpl.
  - apply Hu.
  - intros k'. rewrite (wf_dom _ Hu). destruct (decide (k = k')) as [->|].
    + rewrite lookup_insert_eq. naive_solver.
    + by rewrite lookup_insert_ne.
  - intros k' [[-> ?]|[? ?]]%Hl; [by rewrite lookup_insert_eq|].
    rewrite lookup_insert_ne by done. by apply Hu.
Qed.

(** Adding a key that is not there. *)
Lemma wf_extend u k v lists :
  wf u → values u !! k = None →
  (∀ k', k' ∈ lists → k' = k ∧ is_array (Some v) = true ∨ k' ≠ k ∧ k' ∈ listOptions u) →
  wf (mkUci (keys u ++ [k]) (<[k := v]> (values u)) lists).
Proof.
  intros Hu Hk Hl. split; simpl.
  - apply NoDup_app. split_and!; [apply Hu| |apply NoDup_singleton].
    intros k' Hin ->%list_elem_of_singleton. by apply (wf_lookup_None u k).
  - intros k'. rewrite elem_of_app, list_elem_of_singleton, (wf_dom _ Hu).
    destruct (decide (k = k')) as [->|].
    + rewrite lookup_insert_eq. naive_solver.
    + rewrite lookup_insert_ne by done. naive_solver.
  - intros k' [[-> ?]|[? ?]]%Hl; [by rewrite lookup_insert_eq|].
    rewrite lookup_insert_ne by done. by apply Hu.
Qed.

Lemma set_wf u p s o v b : wf u → wf (set u p s o v b).
Proof.
  intros Hu. unfold set. destruct (values u !! next_key p s o) as [old|] eqn:E.
  - apply wf_update; [done|eauto|]. intros k' Hk'. destruct (decide (k' = next_key p s o)) as [->|]; [|by right].
    left. rewrite bool_decide_eq_true_2 by done. done.
  - apply wf_extend; [done|done|]. intros k' Hk'. destruct (decide (k' = next_key p s o)) as [->|]; [|by right].
    left. rewrite bool_decide_eq_true_2 by done. done.
Qed.

Lemma createListOption_wf u p s o d : wf u → wf (createListOption u p s o d).
Proof.
  intros Hu. unfold createListOption. case_bool_decide as Hin; [done|].
  destruct (values u !! option_key p s o) as [old|] eqn:E.
  - apply wf_update; [done|eauto|]. intros k'. destruct (decide (k' = option_key p s o)) as [->|]; set_solver.
  - apply wf_extend; [done|done|]. intros k'. destruct (decide (k' = option_key p s o)) as [->|]; set_solver.
Qed.

Lemma setLines_wf u p s o v : wf u → wf (setLines u p s o v).
Proof.
  intros Hu. unfold setLines.
  assert (H : ∀ l u', wf u' → wf (fold_left (λ u l, set u p s o (UStr l) true) l u')).
  { induction l as [|x l IH]; intros u' Hu'; simpl; [done|]. by apply IH, set_wf. }
  by apply H, set_wf, createListOption_wf.
Qed.

(** What [remove] does to a well-formed container. *)
Definition remove_key (u : UCIContainer) (k : jstr) : UCIContainer :=
  mkUci (List.filter (fun k' => negb (k' =s k)) (keys u)) (delete k (values u)) (listOptions u ∖ {[k]}).

Lemma filter_key_in (k : jstr) (l : list jstr) k' :
  k' ∈ List.filter (fun x => negb (x =s k)) l ↔ k' ∈ l ∧ k' ≠ k.
Proof.
  rewrite list_elem_of_In, filter_In, <- list_elem_of_In, negb_true_iff, str_eqb_neq. done.
Qed.

Lemma filter_key_none (k : jstr) (l : list jstr) :
  k ∉ l → List.filter (fun x => negb (x =s k)) l = l.
Proof.
  induction l as [|x l IH]; simpl; [done|]. intros Hn.
  rewrite (proj2 (str_eqb_neq x k)) by set_solver. simpl. f_equal. apply IH. set_solver.
Qed.

Lemma remove_spec u p s o :
  wf u → remove u p s o = (remove_key u (next_key p s o), get u p s o).
Proof.
  intros Hu. unfold remove, remove_key, get. destruct (values u !! next_key p s o) as [v|] eqn:E; [done|].
  rewrite filter_key_none by (by apply wf_lookup_None). by rewrite delete_id.
Qed.

Lemma remove_key_wf u k : wf u → wf (remove_key u k).
Proof.
  intros Hu. split; simpl.
  - apply NoDup_ListNoDup, List.NoDup_filter, NoDup_ListNoDup, Hu.
  - intros k'. rewrite filter_key_in, (wf_dom _ Hu). destruct (decide (k' = k)) as [->|].
    + rewrite lookup_delete_eq. split; [naive_solver|by intros [? ?]].
    + rewrite lookup_delete_ne by done. naive_solver.
  - intros k' [Hk' Hne]%elem_of_difference. rewrite lookup_delete_ne by set_solver. by apply Hu.
Qed.

Lemma remove_wf u p s o : wf u → wf (fst (remove u p s o)).
Proof. intros Hu. rewrite remove_spec by done. by apply remove_key_wf. Qed.

Lemma set_shaped u p s o v b :
  name p → name s → o = [] ∨ name o → shaped u → shaped (set u p s o v b).
Proof.
  intros Hp Hs Ho Hu. unfold set, shaped in *. destruct (values u !! _); simpl; [done|].
  apply Forall_app. split; [done|]. constructor; [|done].
  destruct Ho as [->|Ho]; [by apply shape_section|].
  rewrite next_key_option by apply Ho. by apply shape_option.
Qed.

Lemma createListOption_shaped u p s o d :
  name p → name s → name o → shaped u → shaped (createListOption u p s o d).
Proof.
  intros Hp Hs Ho Hu. unfold createListOption, shaped in *. case_bool_decide; [done|].
  destruct (values u !! _); simpl; [done|]. apply Forall_app. split; [done|]. constructor; [by apply shape_option|done].
Qed.

Lemma setLines_shaped u p s o v :
  name p → name s → name o → shaped u → shaped (setLines u p s o v).
Proof.
  intros Hp Hs Ho Hu. unfold setLines.
  assert (H : ∀ l u', shaped u' → shaped (fold_left (λ u l, set u p s o (UStr l) true) l u')).
  { induction l as [|x l IH]; intros u' Hu'; simpl; [done|]. apply IH, set_shaped; auto. }
  apply H, set_shaped; auto. by apply createListOption_shaped.
Qed.

Lemma remove_key_shaped u k : shaped u → shaped (remove_key u k).
Proof.
  unfold shaped. rewrite !Forall_forall. intros H x [Hx _]%filter_key_in. by apply H.
Qed.

End wf_preservation.

#[export] Hint Resolve new_wf set_wf createListOption_wf setLines_wf remove_wf remove_key_wf
  set_shaped createListOption_shaped setLines_shaped remove_key_shaped : uci.

(** ** Reading back what was written *)
Section get_set.

Lemma get_set_key u p s o v b p' s' o' :
  get (set u p s o v b) p' s' o' =
  if bool_decide (next_key p s o = next_key p' s' o') then
    if bool_decide (next_key p s o ∈ listOptions u)
    then UArr ((match values u !! next_key p s o with
                | Some (UArr l) => if b then l else [] | _ => [] end) ++ elements v)
    else v
  else get u p' s' o'.
Proof.
  unfold get, set. destruct (decide (next_key p s o = next_key p' s' o')) as [Heq|Hne].
  - rewrite (bool_decide_eq_true_2 (_ = _)) by done. rewrite <- Heq. destruct (values u !! next_key p s o) as [[|]|] eqn:E; simpl;
      rewrite lookup_insert_eq; by case_bool_decide.
  - rewrite (bool_decide_eq_false_2 (_ = _)) by done.
    destruct (values u !! next_key p s o); simpl; by rewrite lookup_insert_ne.
Qed.

Lemma set_listOptions u p s o v b : listOptions (set u p s o v b) = listOptions u.
Proof. unfold set. by destruct (values u !! _). Qed.

Lemma next_key_inj p s o p' s' o' :
  name p → name s → o = [] ∨ name o → name p' → name s' → o' = [] ∨ name o' →
  next_key p s o = next_key p' s' o' → p = p' ∧ s = s' ∧ o = o'.
Proof.
  intros Hp Hs Ho Hp' Hs' Ho' E.
  destruct Ho as [->|Ho], Ho' as [->|Ho'].
  - apply section_key_inj in E; naive_solver.
  - rewrite (next_key_option p' s' o') in E by apply Ho'. by apply section_option_key in E.
  - rewrite (next_key_option p s o) in E by apply Ho. symmetry in E. by apply section_option_key in E.
  - rewrite (next_key_option p s o) in E by apply Ho. rewrite (next_key_option p' s' o') in E by apply Ho'.
    by apply option_key_inj.
Qed.

End get_set.

(** ** Sections *)

(** The keys of a section: the section itself and its options. *)
Definition in_section (p s k : jstr) : bool :=
  (k =s section_key p s) || is_prefix (section_key p s ++ js ".") k.

(** A container without one section. *)
Definition without_section (u : UCIContainer) (p s : jstr) : UCIContainer :=
  mkUci (List.filter (fun k => negb (in_section p s k)) (keys u))
    (filter (λ kv, in_section p s kv.1 = false) (values u))
    (filter (λ k, in_section p s k = false) (listOptions u)).

Section sections.

Lemma option_key_alt p s o : option_key p s o = (section_key p s ++ js ".") ++ o.
Proof. unfold option_key, section_key. by rewrite <- !app_assoc. Qed.

Lemma in_section_option p s p' s' o' :
  name p → name s → name p' → name s' → name o' →
  in_section p s (option_key p' s' o') = true ↔ p = p' ∧ s = s'.
Proof.
  intros Hp Hs Hp' Hs' Ho'. unfold in_section. rewrite orb_true_iff, str_eqb_eq, is_prefix_iff. split.
  - intros [E|[t E]]; [symmetry in E; by apply section_option_key in E|].
    unfold option_key, section_key in E. rewrite !dot_app, <- !app_assoc in E.
    apply dotted_inj2 in E as [-> E]; [|done..]. apply dotted_inj2 in E as [-> E]; [|done..]. done.
  - intros [-> ->]. right. exists o'. apply option_key_alt.
Qed.

Lemma in_section_section p s p' s' :
  name p → name s → name p' → name s' →
  in_section p s (section_key p' s') = true ↔ p = p' ∧ s = s'.
Proof.
  intros Hp Hs Hp' Hs'. unfold in_section. rewrite orb_true_iff, str_eqb_eq, is_prefix_iff. split.
  - intros [E|[t E]]; [by apply section_key_inj in E as [-> ->]|].
    unfold section_key in E. rewrite !dot_app, <- !app_assoc in E.
    apply dotted_inj2 in E as [-> E]; [|done..]. destruct Hs' as [_ Hs']. rewrite E in Hs'. set_solver.
  - intros [-> ->]. by left.
Qed.

(** Number of dots of a key. *)
Definition dots (s : jstr) : nat := length (List.filter (fun c => c =? 46) s).

Lemma dots_app s t : dots (s ++ t) = (dots s + dots t)%nat.
Proof. unfold dots. by rewrite List.filter_app, length_app. Qed.

Lemma dots_zero s : dots s = 0%nat ↔ 46 ∉ s.
Proof.
  unfold dots. induction s as [|x s IH]; simpl; [set_solver|].
  destruct (Z.eqb_spec x 46) as [->|]; simpl; [split; [done|set_solver]|].
  rewrite IH. set_solver.
Qed.

Lemma dots_name s : name s → dots s = 0%nat.
Proof. intros [_ ?]. by apply dots_zero. Qed.

Lemma dots_literal p s : name p → name s → dots (section_key p s ++ js ".") = 2%nat.
Proof. intros Hp Hs. unfold section_key. rewrite !dots_app, (dots_name p), (dots_name s) by done. done. Qed.

(** The pattern of [removeSection] finds, among the keys, exactly the options of
    the section, up to packages whose name ends with [p]. *)
Lemma section_pattern_section p s p' s' :
  name p → name s → name p' → name s' →
  test (literal (section_key p s ++ js ".")) (section_key p' s') = false.
Proof.
  intros Hp Hs Hp' Hs'. apply not_true_iff_false. rewrite test_literal. intros (a & b & E).
  apply (f_equal dots) in E. rewrite (dots_app a), (dots_app (section_key p s ++ js ".")), dots_literal in E by done.
  unfold section_key in E. rewrite !dots_app, (dots_name p'), (dots_name s') in E by done. simpl in E. lia.
Qed.

Lemma section_pattern_option p s o :
  test (literal (section_key p s ++ js ".")) (option_key p s o) = true.
Proof. apply test_literal. exists [], o. by rewrite option_key_alt. Qed.

Lemma fold_remove_key ks u :
  let u' := fold_left remove_key ks u in
  keys u' = List.filter (fun k => negb (bool_decide (k ∈ ks))) (keys u) ∧
  (∀ k, values u' !! k = if bool_decide (k ∈ ks) then None else values u !! k) ∧
  (∀ k, k ∈ listOptions u' ↔ k ∈ listOptions u ∧ k ∉ ks).
Proof.
  revert u; induction ks as [|k0 ks IH]; intros u; simpl.
  - split_and!.
    + induction (keys u) as [|x l IHl]; simpl; [done|]. f_equal. exact IHl.
    + done.
    + set_solver.
  - destruct (IH (remove_key u k0)) as (H1 & H2 & H3). split_and!.
    + rewrite H1. simpl. induction (keys u) as [|x l IHl]; simpl; [done|].
      destruct (str_eqb x k0) eqn:E.
      * apply str_eqb_eq in E as ->. simpl. rewrite (bool_decide_eq_true_2 (k0 ∈ k0 :: ks)) by set_solver. done.
      * apply str_eqb_neq in E. simpl.
        rewrite (bool_decide_ext (x ∈ k0 :: ks) (x ∈ ks)) by set_solver.
        destruct (bool_decide (x ∈ ks)); simpl; [done|f_equal; done].
    + intros k. rewrite H2. simpl. case_bool_decide as Hin.
      * by rewrite bool_decide_eq_true_2 by set_solver.
      * destruct (decide (k = k0)) as [->|].
        -- rewrite lookup_delete_eq. by rewrite bool_decide_eq_true_2 by set_solver.
        -- rewrite lookup_delete_ne by done. by rewrite bool_decide_eq_false_2 by set_solver.
    + intros k. rewrite H3. simpl. set_solver.
Qed.

Lemma fold_remove_wf ks u : wf u → wf (fold_left remove_key ks u).
Proof. revert u; induction ks as [|k ks IH]; intros u Hu; simpl; [done|]. by apply IH, remove_key_wf. Qed.

Lemma fold_remove u p s os :
  wf u → Forall (λ o, o ≠ []) os →
  fold_left (λ u o, fst (remove u p s o)) os u = fold_left remove_key (map (option_key p s) os) u.
Proof.
  intros Hu Ho. revert u Hu. induction Ho as [|o os Ho Hos IH]; intros u Hu; simpl; [done|].
  rewrite remove_spec by done. simpl. rewrite next_key_option by done. by apply IH, remove_key_wf.
Qed.

(** The keys that the first loop of [removeSection] collects. *)
Definition hit_options (p s : jstr) (l : list jstr) : list jstr :=
  map third_part (List.filter (test (literal (section_key p s ++ js "."))) l).

Lemma hit_options_spec p s l :
  name p → name s → Forall key_shape l →
  (∀ o, o ∈ hit_options p s l → name o) ∧
  (∀ o, name o → option_key p s o ∈ l → o ∈ hit_options p s l).
Proof.
  intros Hp Hs Hl. rewrite Forall_forall in Hl. unfold hit_options. split.
  - intros o Ho. apply list_elem_of_In, in_map_iff in Ho as (k & <- & Hk).
    apply filter_In in Hk as [Hk Ht]. apply list_elem_of_In, Hl in Hk. revert Ht.
    destruct Hk as [p' s' ? ?|p' s' o' ? ? ?]; intros Ht.
    + by rewrite section_pattern_section in Ht.
    + by rewrite third_part_option.
  - intros o Ho Hk. apply list_elem_of_In, in_map_iff. exists (option_key p s o).
    split; [by apply third_part_option|]. apply filter_In. split; [by apply list_elem_of_In|].
    apply section_pattern_option.
Qed.

Lemma uci_eq u u' : keys u = keys u' → values u = values u' → listOptions u = listOptions u' → u = u'.
Proof. destruct u, u'; simpl. by intros -> -> ->. Qed.

Lemma removeSection_unfold u p s :
  word p → word s →
  removeSection u p s =
  Ret (let u1 := fold_left (fun u o => fst (remove u p s o)) (hit_options p s (keys u)) u in
       if existsb (fun key => key =s section_key p s) (keys u) then fst (remove u1 p s []) else u1).
Proof.
  intros Hp Hs. unfold removeSection.
  rewrite (exn_fold_ret (fun acc key => if test (literal (section_key p s ++ js ".")) key
                                        then acc ++ [third_part key] else acc)).
  2:{ intros a x _. unfold match_string. by rewrite parse_re_section. }
  simpl. do 2 f_equal.
  assert (H : ∀ l acc, fold_left (fun acc key => if test (literal (section_key p s ++ js ".")) key
                                        then acc ++ [third_part key] else acc) l acc = acc ++ hit_options p s l).
  { induction l as [|x l IH]; intros acc; simpl; [by rewrite app_nil_r|]. rewrite IH. unfold hit_options.
    simpl. destruct (test _ x); simpl; [|done]. by rewrite <- app_assoc. }
  by rewrite H.
Qed.

(** The keys removed are the keys of the section. *)
Lemma removed_keys p s l k :
  name p → name s → Forall key_shape l → k ∈ l →
  (k ∈ map (option_key p s) (hit_options p s l) ∨ k = section_key p s) ↔ in_section p s k = true.
Proof.
  intros Hp Hs Hl Hk. destruct (hit_options_spec p s l Hp Hs Hl) as [H1 H2]. split.
  - intros [Hin| ->]; [|by apply in_section_section].
    apply list_elem_of_In, in_map_iff in Hin as (o & <- & Ho). apply list_elem_of_In in Ho.
    apply in_section_option; auto.
  - intros Hin. rewrite Forall_forall in Hl. pose proof (Hl k Hk) as Hshape. revert Hin Hk.
    destruct Hshape as [p' s' ? ?|p' s' o' ? ? ?]; intros Hin Hk.
    + apply in_section_section in Hin as [-> ->]; auto.
    + apply in_section_option in Hin as [-> ->]; auto. left.
      apply list_elem_of_In, in_map_iff. exists o'. split; [done|]. apply list_elem_of_In. auto.
Qed.

Lemma filter_ext_mem {A} (f g : A → bool) l :
  (∀ x, x ∈ l → f x = g x) → List.filter f l = List.filter g l.
Proof. intros H. apply filter_ext_in. intros x Hx. apply H. by apply list_elem_of_In. Qed.

Lemma remove_list_without u p s ks :
  wf u → (∀ k, k ∈ keys u → k ∈ ks ↔ in_section p s k = true) →
  fold_left remove_key ks u = without_section u p s.
Proof.
  intros Hu Hks. destruct (fold_remove_key ks u) as (H1 & H2 & H3). apply uci_eq; simpl.
  - rewrite H1. apply filter_ext_mem. intros k Hk. f_equal. apply Hks in Hk.
    case_bool_decide; destruct (in_section p s k); naive_solver.
  - apply map_eq. intros k. rewrite H2.
    destruct (values u !! k) as [v|] eqn:E.
    + assert (Hin : k ∈ keys u) by (apply (wf_dom _ Hu); eauto). apply Hks in Hin.
      case_bool_decide as Hk.
      * symmetry. apply map_lookup_filter_None. right. intros x _. simpl. naive_solver congruence.
      * symmetry. apply map_lookup_filter_Some. split; [done|]. simpl.
        destruct (in_section p s k); naive_solver.
    + symmetry. destruct (bool_decide (k ∈ ks)); apply map_lookup_filter_None; by left.
  - apply set_eq. intros k. rewrite H3, elem_of_filter. split.
    + intros [Hl Hk]. split; [|done]. assert (Hin : k ∈ keys u).
      { apply (wf_dom _ Hu). apply (wf_list _ Hu) in Hl. destruct (values u !! k); [eauto|done]. }
      apply Hks in Hin. destruct (in_section p s k); naive_solver.
    + intros [Hs Hl]. split; [done|]. intros Hk. assert (Hin : k ∈ keys u).
      { apply (wf_dom _ Hu). apply (wf_list _ Hu) in Hl. destruct (values u !! k); [eauto|done]. }
      apply Hks in Hin. naive_solver congruence.
Qed.

Lemma removeSection_without u p s :
  word p → word s → wf u → shaped u → removeSection u p s = Ret (without_section u p s).
Proof.
  intros Hp Hs Hu Hsh. rewrite removeSection_unfold by done. f_equal. cbv zeta.
  pose proof (hit_options_spec p s (keys u) (word_name _ Hp) (word_name _ Hs) Hsh) as [Hn _].
  rewrite fold_remove; [|done|].
  2:{ apply Forall_forall. intros o Ho. apply Hn in Ho. apply Ho. }
  pose proof (λ k, removed_keys p s (keys u) k (word_name _ Hp) (word_name _ Hs) Hsh) as Hrm.
  destruct (existsb _ _) eqn:E.
  - rewrite remove_spec by (by apply fold_remove_wf). simpl.
    rewrite next_key_section.
    rewrite <- (remove_list_without u p s (map (option_key p s) (hit_options p s (keys u)) ++ [section_key p s])).
    + by rewrite fold_left_app.
    + done.
    + intros k Hk. rewrite <- Hrm by done. set_solver.
  - apply remove_list_without; [done|]. intros k Hk. rewrite <- Hrm by done. split; [by left|].
    intros [?| ->]; [done|]. apply not_true_iff_false in E. destruct E. apply existsb_exists.
    exists (section_key p s). split; [by apply list_elem_of_In|]. apply str_eqb_refl.
Qed.

Lemma without_section_wf u p s : wf u → wf (without_section u p s).
Proof.
  intros Hu. split; simpl.
  - apply NoDup_ListNoDup, List.NoDup_filter, NoDup_ListNoDup, Hu.
  - intros k. rewrite list_elem_of_In, filter_In, <- list_elem_of_In, negb_true_iff, (wf_dom _ Hu). split.
    + intros [[v Hv] Hk]. exists v. by apply map_lookup_filter_Some.
    + intros [v [Hv Hk]%map_lookup_filter_Some]. eauto.
  - intros k [Hs Hl]%elem_of_filter. apply (wf_list _ Hu) in Hl.
    destruct (values u !! k) as [v|] eqn:E; [|done].
    rewrite (proj2 (map_lookup_filter_Some _ _ k v)); [done|]. done.
Qed.

Lemma without_section_shaped u p s : shaped u → shaped (without_section u p s).
Proof.
  unfold shaped. rewrite !Forall_forall. intros H x Hx. apply H.
  simpl in Hx. rewrite list_elem_of_In, filter_In in Hx. apply list_elem_of_In, Hx.
Qed.

End sections.
#[export] Hint Resolve without_section_wf without_section_shaped : uci.

(** ** Queries *)
Section queries.

Definition sec_name (k : jstr) : jstr := match exec re_sec_name k with Some m => group 1 m | None => [] end.

Lemma exec_sec_name p s : name p → name s →
  ∃ m, exec re_sec_name (section_key p s) = Some m ∧ group 1 m = s.
Proof.
  intros Hp Hs. destruct (exec re_sec_name (section_key p s)) as [m|] eqn:E.
  - exists m. split; [done|]. apply exec_bol_Some in E as (Es & _ & Hm).
    revert Es. unfold group, cap. destruct m as [mp ms mo mc]; simpl in *. key_inv.
    intros Es. rewrite <- !app_assoc in Es. unfold section_key in Es. rewrite !dot_app in Es.
    apply dotted_inj2 in Es as [-> Es]; [|done..].
    simpl in Es. rewrite !app_nil_r in Es. by subst.
  - exfalso. eapply (proj1 (exec_bol_None _ _) E (p ++ [46] ++ s ++ []) [] [(1%nat, s)]).
    + unfold section_key. by rewrite !app_nil_r.
    + eapply mt_seq; [by apply mt_name|]. eapply mt_seq; [by apply mt_chr_iff|].
      eapply mt_seq; [apply mt_grp; by apply mt_name|]. constructor.
Qed.

Lemma test_sec p s : name p → name s → test re_sec (section_key p s) = true.
Proof.
  intros Hp Hs. apply test_bol. exists (p ++ [46] ++ s ++ []), [], [].
  split; [unfold section_key; by rewrite !app_nil_r|].
  eapply mt_seq; [by apply mt_name|]. eapply mt_seq; [by apply mt_chr_iff|].
  eapply mt_seq; [by apply mt_name|]. constructor.
Qed.

Lemma test_sec_option p s o : name p → name s → name o → test re_sec (option_key p s o) = false.
Proof.
  intros Hp Hs Ho. apply not_true_iff_false. intros (w & suf & c & E & Hm)%test_bol. key_inv.
  unfold option_key in E. rewrite !dot_app, <- !app_assoc, !app_nil_r in E.
  apply (dotted_inj2 p _ w0 w1) in E as [-> E]; [|done..].
  match goal with H : name w1 |- _ => destruct H as [_ H]; apply H; rewrite <- E end. set_solver.
Qed.

Lemma sec_name_key p s : name p → name s → sec_name (section_key p s) = s.
Proof. intros Hp Hs. unfold sec_name. by destruct (exec_sec_name p s Hp Hs) as (m & -> & ?). Qed.

(** The keys that a query on package [pkg] considers: the section keys in
    which the name of the package occurs. *)
Definition query_hits (u : UCIContainer) (pkg : jstr) : list jstr :=
  List.filter (fun k => test (literal pkg) k && test re_sec k) (keys u).

Lemma fold_filter_map {A B} (f : A → bool) (g : A → B) l acc :
  fold_left (fun a x => if f x then a ++ [g x] else a) l acc = acc ++ map g (List.filter f l).
Proof.
  revert acc; induction l as [|x l IH]; intros acc; simpl; [by rewrite app_nil_r|].
  rewrite IH. destruct (f x); simpl; [|done]. by rewrite <- app_assoc.
Qed.

Lemma filter_filter_and {A} (f g : A → bool) l :
  List.filter (fun x => f x && g x) l = List.filter g (List.filter f l).
Proof.
  induction l as [|x l IH]; simpl; [done|]. destruct (f x); simpl; [|done].
  destruct (g x); simpl; by rewrite IH.
Qed.

Lemma filterb_sublist {A} (f : A → bool) l : List.filter f l `sublist_of` l.
Proof. induction l as [|x l IH]; simpl; [done|]. destruct (f x); by constructor. Qed.

Lemma exec_sec_name_shaped k :
  key_shape k → test re_sec k = true → match_group1 re_sec_name k = Ret (sec_name k).
Proof.
  intros [p s ? ?|p s o ? ? ?]; [|by rewrite test_sec_option]. intros _.
  unfold match_group1, sec_name. by destruct (exec_sec_name p s) as (m & -> & ?).
Qed.

Lemma getAllSections_hits u pkg :
  word pkg → shaped u → getAllSections u pkg = Ret (map sec_name (query_hits u pkg)).
Proof.
  intros Hp Hu. unfold getAllSections. unfold shaped in Hu. rewrite Forall_forall in Hu.
  rewrite (exn_fold_ret (fun a k => if test (literal pkg) k && test re_sec k then a ++ [sec_name k] else a)).
  - f_equal. by rewrite fold_filter_map.
  - intros a k Hk. unfold match_string. rewrite parse_re_word by done. simpl.
    destruct (test (literal pkg) k); [|done]. destruct (test re_sec k) eqn:E; [|done]. simpl.
    by rewrite exec_sec_name_shaped by auto.
Qed.

Lemma getAllSectionsOfType_hits u pkg type :
  word pkg → shaped u →
  getAllSectionsOfType u pkg type =
  Ret (map sec_name (List.filter (fun k => value_is u k type) (query_hits u pkg))).
Proof.
  intros Hp Hu. unfold getAllSectionsOfType. unfold shaped in Hu. rewrite Forall_forall in Hu.
  rewrite (exn_fold_ret (fun a k => if (test (literal pkg) k && test re_sec k) && value_is u k type
                                    then a ++ [sec_name k] else a)).
  - f_equal. rewrite fold_filter_map. simpl. f_equal. apply filter_filter_and.
  - intros a k Hk. unfold match_string. rewrite parse_re_word by done. simpl.
    destruct (test (literal pkg) k); [|done]. destruct (test re_sec k) eqn:E; [|done]. simpl.
    destruct (value_is u k type); [|done]. by rewrite exec_sec_name_shaped by auto.
Qed.

(** [pkg] occurs in a section key only as its package. *)
Definition pkg_unambiguous (u : UCIContainer) (pkg : jstr) : Prop :=
  ∀ p s, section_key p s ∈ keys u → name p → name s → test (literal pkg) (section_key p s) = true → p = pkg.

Lemma query_hits_exact u pkg s :
  word pkg → shaped u → pkg_unambiguous u pkg → name s →
  section_key pkg s ∈ query_hits u pkg ↔ section_key pkg s ∈ keys u.
Proof.
  intros Hp Hu Hamb Hs. unfold query_hits. rewrite list_elem_of_In, filter_In, <- list_elem_of_In.
  rewrite andb_true_iff, test_sec by eauto with uci. split; [naive_solver|]. intros Hin. split_and!; [done| |done].
  apply test_literal. exists [], (js "." ++ s). done.
Qed.

Lemma query_hits_shape u pkg k :
  word pkg → shaped u → pkg_unambiguous u pkg → k ∈ query_hits u pkg →
  ∃ s, name s ∧ k = section_key pkg s ∧ k ∈ keys u.
Proof.
  intros Hp Hu Hamb. unfold query_hits. rewrite list_elem_of_In, filter_In, <- list_elem_of_In.
  intros [Hk Ht]. apply andb_true_iff in Ht as [Ht1 Ht2].
  unfold shaped in Hu. rewrite Forall_forall in Hu. pose proof (Hu k Hk) as Hsh. revert Ht1 Ht2 Hk.
  destruct Hsh as [p s ? ?|p s o ? ? ?]; intros Ht1 Ht2 Hk; [|by rewrite test_sec_option in Ht2].
  exists s. assert (p = pkg) as -> by (by apply (Hamb p s)). done.
Qed.

End queries.

(** ** Copying *)
Section copying.

(** The part of a container on the keys [ks]. *)
Definition restrict (u : UCIContainer) (ks : list jstr) : UCIContainer :=
  mkUci ks (filter (λ kv, kv.1 ∈ ks) (values u)) (filter (λ k, k ∈ ks) (listOptions u)).

Lemma restrict_all u : wf u → restrict u (keys u) = u.
Proof.
  intros Hu. apply uci_eq; simpl; [done| |].
  - apply map_eq. intros k. destruct (values u !! k) as [v|] eqn:E.
    + apply map_lookup_filter_Some. split; [done|]. apply (wf_dom _ Hu). eauto.
    + apply map_lookup_filter_None. by left.
  - apply set_eq. intros k. rewrite elem_of_filter. split; [naive_solver|]. intros Hk. split; [|done].
    apply (wf_dom _ Hu). apply (wf_list _ Hu) in Hk. destruct (values u !! k); [eauto|done].
Qed.

(** One step of [clone] copies one key. *)
Lemma clone_set u ks k p s o v :
  wf u → k ∉ ks → next_key p s o = k → values u !! k = Some v →
  let copy := if bool_decide (k ∈ listOptions u)
              then mkUci (keys (restrict u ks)) (values (restrict u ks)) ({[k]} ∪ listOptions (restrict u ks))
              else restrict u ks in
  set copy p s o v true = restrict u (ks ++ [k]).
Proof.
  intros Hu Hk Hnk Hv copy. unfold set. rewrite Hnk.
  assert (Hvals : values copy = values (restrict u ks)) by (unfold copy; by case_bool_decide).
  assert (Hkeys : keys copy = ks) by (unfold copy; by case_bool_decide).
  assert (Hlst : ∀ k', k' ∈ listOptions copy ↔ k' ∈ listOptions u ∧ k' ∈ ks ++ [k]).
  { intros k'. unfold copy. case_bool_decide; simpl; rewrite ?elem_of_union, elem_of_filter; set_solver. }
  assert (Hnone : values copy !! k = None).
  { rewrite Hvals. apply map_lookup_filter_None. right. by intros ? ?. }
  rewrite Hnone. apply uci_eq; simpl.
  - by rewrite Hkeys.
  - replace (if bool_decide (k ∈ listOptions copy) then UArr (elements v) else v) with v.
    2:{ case_bool_decide as Hl; [|done]. apply Hlst in Hl as [Hl _]. apply (wf_list _ Hu) in Hl.
        rewrite Hv in Hl. by destruct v. }
    rewrite Hvals. simpl. apply map_eq. intros k'. destruct (decide (k = k')) as [<-|Hne].
    + rewrite lookup_insert_eq. symmetry. apply map_lookup_filter_Some. set_solver.
    + rewrite lookup_insert_ne by done. apply option_eq. intros x.
      rewrite !map_lookup_filter_Some. set_solver.
  - apply set_eq. intros k'. rewrite Hlst, elem_of_filter. naive_solver.
Qed.

Lemma clone_step u ks k :
  wf u → k ∉ ks → k ∈ keys u → key_shape k → clone_key u (restrict u ks) k = Ret (restrict u (ks ++ [k])).
Proof.
  intros Hu Hk Hin Hshape. unfold clone_key.
  destruct (proj1 (wf_dom _ Hu k) Hin) as [v Hv].
  revert Hk Hin Hv. destruct Hshape as [p s Hp Hs|p s o Hp Hs Ho]; intros Hk Hin Hv; rewrite Hv.
  - rewrite exec_split3_section by done. destruct (exec_split2 p s Hp Hs) as (m & -> & -> & ->).
    f_equal. by apply clone_set.
  - destruct (exec_split3 p s o Hp Hs Ho) as (m & -> & -> & -> & ->).
    f_equal. apply clone_set; [done..|apply next_key_option, Ho|done].
Qed.

Lemma clone_prefix u ks1 ks2 :
  wf u → shaped u → keys u = ks1 ++ ks2 → exn_fold (clone_key u) ks2 (restrict u ks1) = Ret (restrict u (keys u)).
Proof.
  intros Hu Hsh. revert ks1. induction ks2 as [|k ks2 IH]; intros ks1 Hks; simpl.
  - by rewrite Hks, app_nil_r.
  - pose proof (wf_nodup _ Hu) as Hnd. rewrite Hks in Hnd. apply NoDup_app in Hnd as (_ & Hnd & _).
    unfold shaped in Hsh. rewrite Forall_forall in Hsh.
    assert (k ∈ keys u) by (rewrite Hks; set_solver).
    rewrite clone_step; [|done|intros ?; apply (Hnd k); set_solver|done|by apply Hsh].
    simpl. apply IH. by rewrite Hks, <- app_assoc.
Qed.

Lemma clone_is_copy u : wf u → shaped u → clone u = Ret u.
Proof.
  intros Hu Hsh. unfold clone. transitivity (exn_fold (clone_key u) (keys u) (restrict u [])).
  - f_equal. apply uci_eq; simpl; [done| |].
    + symmetry. apply map_empty. intros k. apply map_lookup_filter_None. right. by intros ? _ ?%not_elem_of_nil.
    + symmetry. apply set_eq. intros k. rewrite elem_of_filter. set_solver.
  - rewrite (clone_prefix u [] (keys u)) by done. by rewrite restrict_all.
Qed.

End copying.

(** ** Lines *)

(** Reference for [value.split(/\r\n|\r|\n/)]. *)
Fixpoint split_lines (s : jstr) : list jstr :=
  match s with
  | [] => [[]]
  | x :: s' =>
      if x =? 13 then
        [] :: match s' with
              | y :: s'' => if y =? 10 then split_lines s'' else split_lines s'
              | [] => [[]]
              end
      else if x =? 10 then [] :: split_lines s'
      else match split_lines s' with p :: ps => (x :: p) :: ps | [] => [[x]] end
  end.

Section lines.

Lemma split_lines_nonempty s : split_lines s ≠ [].
Proof. destruct s; simpl; [done|]. repeat case_match; done. Qed.

Lemma exec_newline_other pre x s : x ≠ 13 → x ≠ 10 → exec_at re_newline pre (x :: s) = None.
Proof. intros. unfold exec_at, re_newline. cbn -[in_set]. rewrite !in_set_chr_eqb. by neqb. Qed.

Lemma exec_newline_lf pre s : exec_at re_newline pre (10 :: s) = Some (10 :: pre, s, []).
Proof. unfold exec_at, re_newline. cbn -[in_set]. by rewrite !in_set_chr_eqb. Qed.

Lemma exec_newline_crlf pre s : exec_at re_newline pre (13 :: 10 :: s) = Some (10 :: 13 :: pre, s, []).
Proof. unfold exec_at, re_newline. cbn -[in_set]. by rewrite !in_set_chr_eqb. Qed.

Lemma exec_newline_cr pre s :
  (∀ y, head s = Some y → y ≠ 10) → exec_at re_newline pre (13 :: s) = Some (13 :: pre, s, []).
Proof.
  intros H. unfold exec_at, re_newline. destruct s as [|y s]; cbn -[in_set]; rewrite !in_set_chr_eqb; [done|].
  specialize (H y eq_refl). by neqb.
Qed.

Lemma split_from_lines f pre acc s :
  (length s < f)%nat →
  split_from f re_newline pre acc s =
  match split_lines s with p :: ps => (rev acc ++ p) :: ps | [] => [] end.
Proof.
  revert pre acc s. induction f as [|f IH]; intros pre acc s Hf; [lia|].
  destruct s as [|x s]; cbn [split_from split_lines]; [by rewrite app_nil_r|].
  assert (Hstep : ∀ p s', (length s' < f)%nat → split_from f re_newline p [] s' = split_lines s').
  { intros p s' Hs'. rewrite IH by done. destruct (split_lines s') eqn:E; [done|]. done. }
  simpl in Hf. destruct (Z.eqb_spec x 13) as [->|].
  - rewrite app_nil_r. destruct s as [|y s].
    + rewrite exec_newline_cr by done. rewrite bool_decide_eq_false_2 by (simpl; naive_solver lia).
      by rewrite Hstep by (simpl in *; lia).
    + destruct (Z.eqb_spec y 10) as [->|].
      * rewrite exec_newline_crlf. rewrite bool_decide_eq_false_2 by (simpl; naive_solver lia).
        by rewrite Hstep by (simpl in *; lia).
      * rewrite exec_newline_cr by naive_solver. rewrite bool_decide_eq_false_2 by (simpl; naive_solver lia).
        by rewrite Hstep by (simpl in *; lia).
  - destruct (Z.eqb_spec x 10) as [->|].
    + rewrite exec_newline_lf. rewrite bool_decide_eq_false_2 by (simpl; naive_solver lia).
      rewrite Hstep by (simpl in *; lia). by rewrite app_nil_r.
    + rewrite exec_newline_other by done. rewrite IH by lia.
      destruct (split_lines s) as [|p ps] eqn:E; [by apply split_lines_nonempty in E|].
      simpl. by rewrite <- app_assoc.
Qed.

(** The [split] of [setLines] cuts the text at its line ends. *)
Lemma split_re_lines s : split_re re_newline s = split_lines s.
Proof.
  destruct s as [|x s]; [done|]. unfold split_re. rewrite split_from_lines by (simpl; lia).
  destruct (split_lines (x :: s)) eqn:E; [by apply split_lines_nonempty in E|done].
Qed.

Lemma split_lines_no_cr s : 13 ∉ s → split_lines s = split_char 10 s.
Proof.
  induction s as [|x s IH]; intros H; simpl; [done|].
  destruct (Z.eqb_spec x 13) as [->|]; [set_solver|]. rewrite IH by set_solver. done.
Qed.

Lemma createListOption_list u p s o d : option_key p s o ∈ listOptions (createListOption u p s o d).
Proof. unfold createListOption. case_bool_decide; [done|]. destruct (values u !! _); simpl; set_solver. Qed.

Lemma set_list_get u p s o v b :
  next_key p s o ∈ listOptions u →
  get (set u p s o v b) p s o =
  UArr ((match values u !! next_key p s o with
         | Some (UArr l) => if b then l else [] | _ => [] end) ++ elements v).
Proof. intros Hl. rewrite get_set_key, !bool_decide_eq_true_2 by done. done. Qed.

Lemma set_list_append u p s o l0 l :
  next_key p s o ∈ listOptions u → get u p s o = UArr l0 →
  let u' := fold_left (λ u x, set u p s o (UStr x) true) l u in
  get u' p s o = UArr (l0 ++ l).
Proof.
  intros Hl Hg. revert u l0 Hl Hg. induction l as [|x l IH]; intros u l0 Hl Hg; simpl; [by rewrite app_nil_r|].
  rewrite (IH _ (l0 ++ [x])); [by rewrite <- app_assoc| by rewrite set_listOptions |].
  rewrite set_list_get by done. unfold get in Hg.
  destruct (values u !! next_key p s o) as [[|]|]; simplify_eq/=; done.
Qed.

Lemma setLines_get u p s o v :
  o ≠ [] → get (setLines u p s o v) p s o = UArr (split_lines v).
Proof.
  intros Ho. unfold setLines. rewrite split_re_lines.
  pose proof (createListOption_list u p s o (Some true)) as Hl.
  rewrite <- next_key_option in Hl by done.
  rewrite (set_list_append _ p s o (take 1 (split_lines v))).
  - by rewrite take_drop.
  - by rewrite set_listOptions.
  - rewrite set_list_get by done. f_equal. by destruct (values _ !! _) as [[|]|].
Qed.

End lines.

(** ** Reachable containers *)

(** One call of a method on a container, with names as arguments. *)
Inductive uci_step : UCIContainer → UCIContainer → Prop :=
| step_set u p s o v b :
    name p → name s → o = [] ∨ name o → uci_step u (set u p s o v b)
| step_createList u p s o d :
    name p → name s → name o → uci_step u (createListOption u p s o d)
| step_setLines u p s o v :
    name p → name s → name o → uci_step u (setLines u p s o v)
| step_remove u p s o : uci_step u (fst (remove u p s o))
| step_removeSection u p s u' : removeSection u p s = Ret u' → uci_step u u'
| step_removeAll u p t u' : removeAllSectionsOfType u p t = Ret u' → uci_step u u'
| step_clone u u' : clone u = Ret u' → uci_step u u'.

Section reachability.

Lemma fold_remove_inv u p s os :
  wf u ∧ shaped u → wf (fold_left (λ u o, fst (remove u p s o)) os u) ∧
                    shaped (fold_left (λ u o, fst (remove u p s o)) os u).
Proof.
  revert u; induction os as [|o os IH]; intros u [Hu Hs]; simpl; [done|]. apply IH.
  split; [by apply remove_wf|]. rewrite remove_spec by done. by apply remove_key_shaped.
Qed.

Lemma removeSection_inv u p s u' : wf u ∧ shaped u → removeSection u p s = Ret u' → wf u' ∧ shaped u'.
Proof.
  intros Hu. unfold removeSection. destruct (exn_fold _ _ _) as [os|]; simpl; [|done].
  intros [= <-]. destruct (fold_remove_inv u p s os Hu) as [H1 H2].
  destruct (existsb _ _); [|done]. split; [by apply remove_wf|].
  rewrite remove_spec by done. by apply remove_key_shaped.
Qed.

Lemma removeAll_inv u p t u' :
  wf u ∧ shaped u → removeAllSectionsOfType u p t = Ret u' → wf u' ∧ shaped u'.
Proof.
  intros Hu. unfold removeAllSectionsOfType. destruct (getAllSectionsOfType u p t) as [l|]; simpl; [|done].
  revert u Hu. induction l as [|s l IH]; intros u Hu; simpl; [by intros [= <-]|].
  destruct (removeSection u p s) as [u1|] eqn:E; simpl; [|done]. apply IH. by eapply removeSection_inv.
Qed.

Lemma step_inv u u' : uci_step u u' → wf u ∧ shaped u → wf u' ∧ shaped u'.
Proof.
  intros [u0 p s o v b ? ? ?|u0 p s o d ? ? ?|u0 p s o v ? ? ?|u0 p s o|u0 p s u1 E|u0 p t u1 E|u0 u1 E] [Hu Hs].
  - split; auto with uci.
  - split; auto with uci.
  - split; auto with uci.
  - split; [auto with uci|]. rewrite remove_spec by done. simpl. auto with uci.
  - by eapply removeSection_inv.
  - by eapply removeAll_inv.
  - rewrite clone_is_copy in E by done. by simplify_eq.
Qed.

Lemma new_shaped : shaped new.
Proof. constructor. Qed.

End reachability.

(** ** Theorems *)

(** C3: Every container that the methods of UCIContainer can build from [new
    UCIContainer()] lists each key once, lists exactly the keys that have a
    value, holds an array under every list option, and all its keys have the
    form package.section or package.section.option. *)
Theorem uci_reachable_wf (u : UCIContainer) : rtc uci_step new u → wf u ∧ shaped u.
Proof.
  intros H. assert (Hinv : ∀ a b, rtc uci_step a b → wf a ∧ shaped a → wf b ∧ shaped b).
  { induction 1 as [|a b c Hab Hbc IH]; [done|]. intros Ha. by apply IH, (step_inv a b). }
  apply (Hinv new u H). split; [apply new_wf|apply new_shaped].
Qed.

Lemma uci_reachable_wf_witness :
  wf (set new (js "network") (js "lan") [] (UStr (js "interface")) false).
Proof.
  apply (uci_reachable_wf (set new (js "network") (js "lan") [] (UStr (js "interface")) false)).
  apply rtc_once, step_set; [by_eval|by_eval|by left].
Defined.

(** C5: [get] after [set] with the same names returns the value written, or for
    a list option the old elements (when they are preserved) followed by the new
    ones; [get] of any other option is not affected. *)
Theorem uci_get_set (u : UCIContainer) (p s o p' s' o' : jstr) (v : uval) (b : bool) :
  name p → name s → o = [] ∨ name o → name p' → name s' → o' = [] ∨ name o' →
  get (set u p s o v b) p' s' o' =
  if bool_decide ((p, s, o) = (p', s', o')) then
    if bool_decide (next_key p s o ∈ listOptions u)
    then UArr ((match values u !! next_key p s o with
                | Some (UArr l) => if b then l else [] | _ => [] end) ++ elements v)
    else v
  else get u p' s' o'.
Proof.
  intros Hp Hs Ho Hp' Hs' Ho'. rewrite get_set_key.
  rewrite (bool_decide_ext (next_key p s o = next_key p' s' o') ((p, s, o) = (p', s', o'))); [done|].
  split; [|by intros [= <- <- <-]]. intros E. by apply next_key_inj in E as (-> & -> & ->).
Qed.

(** A small configuration used by the witnesses. *)
Definition sample : UCIContainer :=
  set (set (set new (js "network") (js "lan") [] (UStr (js "interface")) false)
           (js "network") (js "lan") (js "proto") (UStr (js "static")) false)
      (js "network") (js "wan") [] (UStr (js "interface")) false.

Lemma sample_wf : wf sample.
Proof. unfold sample. auto with uci. Qed.

Lemma sample_shaped : shaped sample.
Proof.
  unfold sample. repeat (apply set_shaped; [by_eval|by_eval|first [by left|right; by_eval]|]). constructor.
Qed.

Lemma uci_get_set_witness :
  get (set sample (js "network") (js "wan") (js "proto") (UStr (js "dhcp")) false)
      (js "network") (js "lan") (js "proto") = UStr (js "static").
Proof.
  rewrite (uci_get_set sample (js "network") (js "wan") (js "proto") (js "network") (js "lan") (js "proto"));
    [reflexivity|by_eval|by_eval|right; by_eval|by_eval|by_eval|right; by_eval].
Defined.

(** C4: On a well-formed container, [removeSection] removes the section and all
    its options, from the keys, the values and the list marks, keeps the order of
    the other keys and changes nothing else, although its pattern is not anchored. *)
Theorem uci_removeSection_exact (u : UCIContainer) (p s : jstr) :
  word p → word s → wf u → shaped u → removeSection u p s = Ret (without_section u p s).
Proof. apply removeSection_without. Qed.

Lemma uci_removeSection_exact_witness :
  removeSection sample (js "network") (js "lan") = Ret (without_section sample (js "network") (js "lan")) ∧
  keys (without_section sample (js "network") (js "lan")) = [js "network.wan"].
Proof.
  split; [|reflexivity].
  apply (uci_removeSection_exact sample); [by_eval|by_eval|apply sample_wf|apply sample_shaped].
Defined.

(** [clone] of a well-formed container succeeds and returns an equal
    container: the same keys in the same order, values and list marks. *)
Theorem uci_clone_copy (u : UCIContainer) : wf u → shaped u → clone u = Ret u.
Proof. apply clone_is_copy. Qed.

Lemma uci_clone_copy_witness : clone sample = Ret sample ∧ length (keys sample) = 3%nat.
Proof. split; [|reflexivity]. apply (uci_clone_copy sample); [apply sample_wf|apply sample_shaped]. Defined.

(** [getLines] after [setLines] returns the text with every line end
    (carriage return, line feed or both) turned into a line feed; a text without
    carriage returns comes back unchanged, whatever the option held before. *)
Theorem uci_lines_roundtrip (u : UCIContainer) (p s o v : jstr) :
  o ≠ [] →
  getLines (setLines u p s o v) p s o = join newline (split_lines v) ∧
  (13 ∉ v → getLines (setLines u p s o v) p s o = v).
Proof.
  intros Ho. unfold getLines. rewrite setLines_get by done. split; [done|].
  intros Hv. rewrite split_lines_no_cr by done. apply join_split_char.
Qed.

Lemma uci_lines_roundtrip_witness :
  getLines (setLines new (js "p") (js "s") (js "o") [97; 10; 98]) (js "p") (js "s") (js "o") = [97; 10; 98].
Proof.
  apply (uci_lines_roundtrip new (js "p") (js "s") (js "o") [97; 10; 98]); [done|by_eval].
Defined.

(** When the name of a package occurs in no section key of another package,
    [getAllSectionsOfType] returns exactly the sections of that package and type,
    in the order in which they were added. *)
Theorem uci_sections_of_type (u : UCIContainer) (pkg type : jstr) :
  word pkg → shaped u → pkg_unambiguous u pkg →
  ∃ hits, getAllSectionsOfType u pkg type = Ret (map sec_name hits) ∧
    hits `sublist_of` keys u ∧
    (∀ k, k ∈ hits ↔ k ∈ keys u ∧ value_is u k type = true ∧ ∃ s, name s ∧ k = section_key pkg s).
Proof.
  intros Hp Hu Hamb. exists (List.filter (fun k => value_is u k type) (query_hits u pkg)).
  split; [by apply getAllSectionsOfType_hits|]. split.
  - unfold query_hits. etransitivity; apply filterb_sublist.
  - intros k. rewrite list_elem_of_In, filter_In, <- list_elem_of_In. split.
    + intros [Hk Hv]. apply query_hits_shape in Hk as (s & ? & -> & ?); eauto 10.
    + intros (Hk & Hv & s & Hs & ->). split; [|done]. by apply query_hits_exact.
Qed.

Lemma sample_unambiguous : pkg_unambiguous sample (js "network").
Proof.
  intros p s Hin Hp Hs _.
  replace (keys sample) with
    [section_key (js "network") (js "lan"); option_key (js "network") (js "lan") (js "proto");
     section_key (js "network") (js "wan")] in Hin by (vm_compute; reflexivity).
  assert (name (js "network") ∧ name (js "lan") ∧ name (js "wan") ∧ name (js "proto"))
    as (? & ? & ? & ?) by (split_and!; by_eval).
  rewrite !list_elem_of_In in Hin; simpl In in Hin. destruct Hin as [E|[E|[E|[]]]]; symmetry in E.
  - apply (section_key_inj p s (js "network") (js "lan")) in E as [? _]; done.
  - by apply (section_option_key p s (js "network") (js "lan") (js "proto")) in E.
  - apply (section_key_inj p s (js "network") (js "wan")) in E as [? _]; done.
Qed.

Lemma uci_sections_of_type_witness :
  ∃ hits, getAllSectionsOfType sample (js "network") (js "interface") = Ret (map sec_name hits) ∧
    section_key (js "network") (js "wan") ∈ hits.
Proof.
  destruct (uci_sections_of_type sample (js "network") (js "interface")) as (hits & H1 & _ & H2);
    [by_eval|apply sample_shaped|apply sample_unambiguous|].
  exists hits. split; [exact H1|]. apply H2. split_and!; [by_eval|reflexivity|].
  exists (js "wan"). split; [by_eval|reflexivity].
Defined.

(** A query on a package also returns the sections of other packages in whose
    keys the package's name occurs: the section [wireless] of package [gargoyle]
    is reported as a section of package [wireless]. *)
Theorem uci_query_crosses_packages :
  getAllSections (set new (js "gargoyle") (js "wireless") [] (UStr (js "page")) false) (js "wireless")
  = Ret [js "wireless"].
Proof. vm_compute. reflexivity. Qed.
