(* ===== verification/Backend.v ===== *)
(** * The router's side of a script: interfaces

    The pages send the text of [getScriptCommands] to utility/run_commands.sh,
    where the system shell runs it line by line and the [uci] program executes
    each line.  Neither program is part of the sources, so both are interfaces:
    [PosixShell] states the quoting rules the escaping relies on, [UciBackend]
    what the documented [uci] commands do to the stored configuration.  The script
    is taken to arrive as it was sent: run_commands.sh drops carriage returns,
    which the values are taken not to have.  A concrete shell reader and a concrete store show that the interfaces can be
    implemented. *)
From S2P Require Import Prelude JsNum JsString JsRegex Uci UciFacts.
Import Uci.
Open Scope Z_scope.

(** ** Shell words *)

(** A character without a meaning of its own in a word. *)
Definition plain_char (c : Z) : bool := word_char c || (c =? 46) || (c =? 61).

(** [quotes t w]: the text [t] is a way to write the word [w] with plain
    characters, backslash escapes and single quotes (POSIX shell, 2.2). *)
Inductive quotes : jstr → jstr → Prop :=
| q_nil : quotes [] []
| q_plain c t w : plain_char c = true → quotes t w → quotes (c :: t) (c :: w)
| q_escape c t w : c ≠ 10 → quotes t w → quotes (92 :: c :: t) (c :: w)
| q_single s t w : 39 ∉ s → quotes t w → quotes (39 :: s ++ 39 :: t) (s ++ w).

(** A simple command: words separated by blanks. *)
Inductive renders : jstr → list jstr → Prop :=
| r_one t w : t ≠ [] → quotes t w → renders t [w]
| r_cons t w line argv : t ≠ [] → quotes t w → renders line argv → renders (t ++ 32 :: line) (w :: argv).

(** The shell reads a script, one simple command on each line. *)
Class PosixShell := {
  sh_script : jstr → list (list jstr);
  sh_spec : ∀ lines argvs,
    lines ≠ [] → Forall2 renders lines argvs → sh_script (join newline lines) = argvs
}.

(** ** The configuration store *)
Class UciBackend := {
  bstate : Type;
  (** value of a key; [UStr []] for a key that is not set *)
  view : bstate → jstr → uval;
  (** execution of a command, given by its words *)
  run : list jstr → bstate → bstate;
  run_commit st k : view (run [js "uci"; js "commit"] st) k = view st k;
  run_set_section st p s t k :
    word p → word s → t ≠ [] →
    view (run [js "uci"; js "set"; section_key p s ++ js "=" ++ t] st) k =
    if bool_decide (k = section_key p s) then UStr t else view st k;
  run_set_option st p s o v k :
    word p → word s → word o → view st (section_key p s) ≠ UStr [] →
    view (run [js "uci"; js "set"; option_key p s o ++ js "=" ++ v] st) k =
    if bool_decide (k = option_key p s o) then UStr v else view st k;
  run_add_list st p s o v l k :
    word p → word s → word o → view st (section_key p s) ≠ UStr [] →
    view st (option_key p s o) = UArr l ∨ view st (option_key p s o) = UStr [] ∧ l = [] →
    view (run [js "uci"; js "add_list"; option_key p s o ++ js "=" ++ v] st) k =
    if bool_decide (k = option_key p s o) then UArr (l ++ [v]) else view st k;
  run_del_option st p s o k :
    word p → word s → word o →
    view (run [js "uci"; js "del"; option_key p s o] st) k =
    if bool_decide (k = option_key p s o) then UStr [] else view st k;
  run_del_section st p s k :
    word p → word s →
    view (run [js "uci"; js "del"; section_key p s] st) k =
    if in_section p s k then UStr [] else view st k
}.

(** Running a script on a store. *)
Definition run_script `{PosixShell, UciBackend} (script : jstr) (st : bstate) : bstate :=
  fold_left (fun st argv => run argv st) (sh_script script) st.

(** ** A shell reader *)
Module SimpleShell.

(** [q]: inside single quotes; [w]: the word being read, reversed; [args]: the
    words of the command, reversed. *)
Fixpoint sh_go (q : bool) (s : jstr) (w : option jstr) (args : list jstr) : list (list jstr) :=
  let push c := Some (c :: default [] w) in
  let args' := match w with Some x => rev x :: args | None => args end in
  match s with
  | [] => [rev args']
  | c :: s' =>
      if q then
        if c =? 39 then sh_go false s' (Some (default [] w)) args else sh_go true s' (push c) args
      else if c =? 39 then sh_go true s' (Some (default [] w)) args
      else if c =? 92 then
        match s' with d :: s'' => sh_go false s'' (Some (d :: default [] w)) args | [] => [rev args'] end
      else if c =? 32 then sh_go false s' None args'
      else if c =? 10 then rev args' :: sh_go false s' None []
      else sh_go false s' (push c) args
  end.

Definition read (s : jstr) : list (list jstr) := sh_go false s None [].

Lemma go_single s rest w args :
  39 ∉ s → sh_go true (s ++ 39 :: rest) (Some w) args = sh_go false rest (Some (rev s ++ w)) args.
Proof.
  revert w; induction s as [|c s IH]; intros w Hs; simpl; [done|].
  destruct (Z.eqb_spec c 39) as [->|]; [set_solver|]. rewrite IH by set_solver.
  by rewrite <- app_assoc.
Qed.

Lemma go_quotes_some t w rest acc args :
  quotes t w → sh_go false (t ++ rest) (Some acc) args = sh_go false rest (Some (rev w ++ acc)) args.
Proof.
  intros H. revert acc. induction H as [|c t w Hc H IH|c t w Hc H IH|s t w Hs H IH]; intros acc.
  - done.
  - unfold plain_char in Hc. apply orb_true_iff in Hc.
    assert (c ≠ 39 ∧ c ≠ 92 ∧ c ≠ 32 ∧ c ≠ 10) as (? & ? & ? & ?).
    { destruct Hc as [[Hc|Hc]%orb_true_iff|Hc]; [apply word_char_cases in Hc|..]; lia. }
    simpl. neqb. simpl. rewrite IH. by rewrite <- app_assoc.
  - simpl. rewrite IH. by rewrite <- app_assoc.
  - simpl. rewrite <- app_assoc. simpl. rewrite go_single by done. rewrite IH.
    by rewrite rev_app_distr, app_assoc.
Qed.

(** A started word and a word not started yet read the same text. *)
Lemma go_none_some t w rest args :
  t ≠ [] → quotes t w → sh_go false (t ++ rest) None args = sh_go false (t ++ rest) (Some []) args.
Proof.
  intros Ht H. destruct H as [|c t w Hc H|c t w Hc H|s t w Hs H]; [done|..|done|done].
  unfold plain_char in Hc. apply orb_true_iff in Hc.
  assert (c ≠ 39 ∧ c ≠ 92 ∧ c ≠ 32 ∧ c ≠ 10) as (? & ? & ? & ?).
  { destruct Hc as [[Hc|Hc]%orb_true_iff|Hc]; [apply word_char_cases in Hc|..]; lia. }
  simpl. by neqb.
Qed.

Lemma go_line line argv rest args :
  renders line argv →
  sh_go false (line ++ rest) None args =
  sh_go false rest (Some (rev (List.last argv []))) (rev (removelast argv) ++ args).
Proof.
  intros H. revert args. induction H as [t w Ht Hq|t w line argv Ht Hq H IH]; intros args.
  - rewrite go_none_some with (w := w) by done. rewrite go_quotes_some with (w := w) by done.
    simpl. by rewrite app_nil_r.
  - rewrite <- app_assoc. rewrite go_none_some with (w := w) by done.
    rewrite go_quotes_some with (w := w) by done. rewrite app_nil_r. simpl. rewrite IH.
    rewrite rev_involutive. destruct argv as [|a argv]; [by inversion H|]. simpl. by rewrite <- app_assoc.
Qed.

Lemma renders_nonempty line argv : renders line argv → argv ≠ [].
Proof. by destruct 1. Qed.

Lemma read_script lines argvs :
  lines ≠ [] → Forall2 renders lines argvs → read (join newline lines) = argvs.
Proof.
  intros Hne H. unfold read. induction H as [|l a lines argvs Hl H IH]; [done|].
  assert (Hlast : ∀ a : list jstr, a ≠ [] → rev (rev (rev (List.last a [])) :: rev (removelast a) ++ []) = a).
  { intros a' Ha. rewrite rev_involutive, app_nil_r. simpl. rewrite rev_involutive.
    symmetry. by apply app_removelast_last. }
  apply renders_nonempty in Hl as Ha. destruct lines as [|l2 lines].
  - inversion H; subst. simpl join. rewrite <- (app_nil_r l). rewrite go_line with (argv := a) by done.
    simpl. f_equal. by apply Hlast.
  - simpl join. rewrite go_line with (argv := a) by done. simpl. f_equal; [by apply Hlast|].
    by apply IH.
Qed.

#[export] Instance shell : PosixShell := {| sh_script := read; sh_spec := read_script |}.

End SimpleShell.

(** ** A configuration store *)
Module SimpleStore.

Definition view (st : gmap jstr uval) (k : jstr) : uval := default (UStr []) (st !! k).

(** The key and the value of a word [key=value]. *)
Definition key_of (w : jstr) : jstr := fst (span (fun c => negb (c =? 61)) w).
Definition value_of (w : jstr) : jstr := drop 1 (snd (span (fun c => negb (c =? 61)) w)).

(** Is the section of an option key there? *)
Definition section_exists (st : gmap jstr uval) (k : jstr) : bool :=
  match split_char 46 k with
  | [p; s; _] => negb (bool_decide (view st (section_key p s) = UStr []))
  | _ => true
  end.

Definition run (argv : list jstr) (st : gmap jstr uval) : gmap jstr uval :=
  match argv with
  | [_; cmd; w] =>
      if cmd =s js "set" then
        if section_exists st (key_of w) then <[key_of w := UStr (value_of w)]> st else st
      else if cmd =s js "add_list" then
        if section_exists st (key_of w) then
          <[key_of w := UArr ((match view st (key_of w) with
                               | UArr l => l | UStr [] => [] | UStr s => [s] end) ++ [value_of w])]> st
        else st
      else if cmd =s js "del" then
        match split_char 46 w with
        | [p; s] => filter (λ kv, in_section p s kv.1 = false) st
        | _ => delete w st
        end
      else st
  | _ => st
  end.

Lemma word_no_eq s : word s → Forall (λ c, negb (c =? 61) = true) s.
Proof.
  intros [_ H]. eapply Forall_impl; [exact H|]. intros c Hc. unfold word_char, is_digit, is_upper, is_lower in Hc. lia.
Qed.

Lemma split_eq k v : Forall (λ c, negb (c =? 61) = true) k → key_of (k ++ js "=" ++ v) = k ∧ value_of (k ++ js "=" ++ v) = v.
Proof.
  intros H. unfold key_of, value_of. rewrite span_all; [done|done|]. by intros x [= <-].
Qed.

Lemma section_no_eq p s : word p → word s → Forall (λ c, negb (c =? 61) = true) (section_key p s).
Proof. intros. unfold section_key. repeat apply Forall_app_2; [by apply word_no_eq|by repeat constructor|by apply word_no_eq]. Qed.

Lemma option_no_eq p s o : word p → word s → word o → Forall (λ c, negb (c =? 61) = true) (option_key p s o).
Proof.
  intros. unfold option_key. repeat apply Forall_app_2; [|by repeat constructor| |by repeat constructor|]; by apply word_no_eq.
Qed.

Lemma section_exists_section st p s : word p → word s → section_exists st (section_key p s) = true.
Proof. intros. unfold section_exists. by rewrite split_section_key by eauto with uci. Qed.

Lemma section_exists_option st p s o :
  word p → word s → word o → view st (section_key p s) ≠ UStr [] → section_exists st (option_key p s o) = true.
Proof.
  intros. unfold section_exists. rewrite split_option_key by eauto with uci. by rewrite bool_decide_eq_false_2.
Qed.

Lemma view_insert st k v k' : view (<[k := v]> st) k' = if bool_decide (k' = k) then v else view st k'.
Proof.
  unfold view. case_bool_decide as E; [subst; by rewrite lookup_insert_eq|by rewrite lookup_insert_ne].
Qed.

#[export, program] Instance store : UciBackend :=
  {| Backend.bstate := gmap jstr uval; Backend.view := view; Backend.run := run |}.
Next Obligation. done. Qed.
Next Obligation.
  intros st p s t k Hp Hs Ht. unfold run. rewrite (str_eqb_refl (js "set")).
  destruct (split_eq (section_key p s) t) as [-> ->]; [by apply section_no_eq|].
  rewrite section_exists_section by done. apply view_insert.
Qed.
Next Obligation.
  intros st p s o v k Hp Hs Ho Hex. unfold run. rewrite (str_eqb_refl (js "set")).
  destruct (split_eq (option_key p s o) v) as [-> ->]; [by apply option_no_eq|].
  rewrite section_exists_option by done. apply view_insert.
Qed.
Next Obligation.
  intros st p s o v l k Hp Hs Ho Hex Hl. unfold run.
  change (js "add_list" =s js "set") with false. rewrite (str_eqb_refl (js "add_list")).
  destruct (split_eq (option_key p s o) v) as [-> ->]; [by apply option_no_eq|].
  rewrite section_exists_option by done. rewrite view_insert.
  by destruct Hl as [-> |[-> ->]].
Qed.
Next Obligation.
  intros st p s o k Hp Hs Ho. unfold run.
  change (js "del" =s js "set") with false. change (js "del" =s js "add_list") with false.
  rewrite (str_eqb_refl (js "del")). rewrite split_option_key by eauto with uci. unfold view.
  case_bool_decide as E; [subst; by rewrite lookup_delete_eq|by rewrite lookup_delete_ne].
Qed.
Next Obligation.
  intros st p s k Hp Hs. unfold run.
  change (js "del" =s js "set") with false. change (js "del" =s js "add_list") with false.
  rewrite (str_eqb_refl (js "del")). rewrite split_section_key by eauto with uci. unfold view.
  destruct (st !! k) as [v|] eqn:E.
  - destruct (in_section p s k) eqn:Hin.
    + rewrite (proj2 (map_lookup_filter_None _ _ k)); [done|]. right. intros x _. simpl. by rewrite Hin.
    + by rewrite (proj2 (map_lookup_filter_Some _ _ k v)).
  - rewrite (proj2 (map_lookup_filter_None _ _ k)); [|by left]. by destruct (in_section p s k).
Qed.

End SimpleStore.
