(* ===== verification/UciScript.v ===== *)
(** * Scripts: the configuration after [getScriptCommands]

    The script that turns the old settings into the new ones is run by the
    router.  This file shows that its lines survive the shell's quoting and
    that running them on a store that holds the old settings leaves a store
    that holds the new settings: the contract of [getScriptCommands]. *)
From S2P Require Import Prelude JsNum JsString JsRegex Uci UciFacts Backend.
Import Uci.
Open Scope Z_scope.

(** ** Commands *)

(** A key made of UCI identifiers. *)
Inductive key_word : jstr → Prop :=
| kw_section p s : word p → word s → key_word (section_key p s)
| kw_option p s o : word p → word s → word o → key_word (option_key p s o).

Section quoting.

Lemma escape_flat v : escape v = flat_map (λ x, if x =? 39 then js "'\''" else [x]) v.
Proof. apply replace_all_chr. Qed.

Lemma flat_map_quote v w t : quotes t w →
  quotes (39 :: flat_map (λ x, if x =? 39 then js "'\''" else [x]) v ++ 39 :: t) (v ++ w).
Proof.
  intros Hq. remember (length v) as n eqn:Hn. revert v Hn.
  induction n as [n IH] using lt_wf_ind. intros v ->.
  destruct (decide (39 ∈ v)) as [Hv|Hv].
  - apply first_occurrence in Hv as (a & b & -> & Ha).
    rewrite flat_map_app, flat_map_id by done. simpl.
    rewrite <- !app_assoc. simpl. apply (q_single a); [done|].
    apply (q_escape 39); [done|]. apply (IH (length b)); [rewrite length_app; simpl; lia|done].
  - rewrite flat_map_id by done. by apply q_single.
Qed.

(** The escaped value between single quotes denotes the value. *)
Lemma quotes_escape v t w : quotes t w → quotes (39 :: escape v ++ 39 :: t) (v ++ w).
Proof. rewrite escape_flat. apply flat_map_quote. Qed.

Lemma quotes_plain s t w : Forall (λ c, plain_char c = true) s → quotes t w → quotes (s ++ t) (s ++ w).
Proof. induction 1; intros; simpl; [done|]. constructor; auto. Qed.

Lemma quotes_self s : Forall (λ c, plain_char c = true) s → quotes s s.
Proof. intros H. rewrite <- (app_nil_r s). apply quotes_plain; [done|constructor]. Qed.

Lemma word_plain s : word s → Forall (λ c, plain_char c = true) s.
Proof. intros [_ H]. eapply Forall_impl; [exact H|]. intros c Hc. unfold plain_char. by rewrite Hc. Qed.

Lemma key_plain k : key_word k → Forall (λ c, plain_char c = true) k ∧ k ≠ [].
Proof.
  intros [p s Hp Hs|p s o Hp Hs Ho].
  - split; [|destruct p; [by destruct Hp|done]]. unfold section_key.
    repeat apply Forall_app_2; try (by apply word_plain); by repeat constructor.
  - split; [|destruct p; [by destruct Hp|done]]. unfold option_key.
    repeat apply Forall_app_2; try (by apply word_plain); by repeat constructor.
Qed.

Definition argv_set (k v : jstr) : list jstr := [js "uci"; js "set"; k ++ js "=" ++ v].
Definition argv_add_list (k v : jstr) : list jstr := [js "uci"; js "add_list"; k ++ js "=" ++ v].
Definition argv_del (k : jstr) : list jstr := [js "uci"; js "del"; k].
Definition argv_commit : list jstr := [js "uci"; js "commit"].

Lemma plain_literal (s : jstr) : forallb plain_char s = true → Forall (λ c, plain_char c = true) s.
Proof. apply forallb_Forall. Qed.

Lemma quotes_assign k v : key_word k → quotes (k ++ js "='" ++ escape v ++ js "'") (k ++ js "=" ++ v).
Proof.
  intros [Hk _]%key_plain. apply quotes_plain; [done|].
  change (js "='" ++ escape v ++ js "'") with (61 :: 39 :: escape v ++ [39]).
  apply (q_plain 61); [done|]. rewrite <- (app_nil_r v) at 2. apply quotes_escape. constructor.
Qed.

Lemma renders_set k v : key_word k → renders (cmd_set k v) (argv_set k v).
Proof.
  intros Hk. unfold cmd_set, argv_set.
  apply (r_cons (js "uci")); [done|by apply quotes_self, plain_literal|].
  apply (r_cons (js "set")); [done|by apply quotes_self, plain_literal|].
  apply r_one; [|by apply quotes_assign]. apply key_plain in Hk as [_ Hk]. by destruct k.
Qed.

Lemma renders_add_list k v : key_word k → renders (cmd_add_list k v) (argv_add_list k v).
Proof.
  intros Hk. unfold cmd_add_list, argv_add_list.
  apply (r_cons (js "uci")); [done|by apply quotes_self, plain_literal|].
  apply (r_cons (js "add_list")); [done|by apply quotes_self, plain_literal|].
  apply r_one; [|by apply quotes_assign]. apply key_plain in Hk as [_ Hk]. by destruct k.
Qed.

Lemma renders_del k : key_word k → renders (cmd_del k) (argv_del k).
Proof.
  intros [Hk Hn]%key_plain. unfold cmd_del, argv_del.
  apply (r_cons (js "uci")); [done|by apply quotes_self, plain_literal|].
  apply (r_cons (js "del")); [done|by apply quotes_self, plain_literal|].
  apply r_one; [done|by apply quotes_self].
Qed.

Lemma renders_commit : renders cmd_commit argv_commit.
Proof.
  apply (r_cons (js "uci")); [done|by apply quotes_self, plain_literal|].
  apply r_one; [done|by apply quotes_self, plain_literal].
Qed.

End quoting.

(** ** The commands of a script *)
Section commands.
Context (u old : UCIContainer).

(** Does the first loop delete a key, and does it leave a list alone? *)
Definition deletes (k : jstr) : bool :=
  match values old !! k, values u !! k with
  | Some (UArr lo), Some (UArr ln) => negb (same_elements lo ln)
  | ov, nv => is_array ov || is_array nv || (blank nv && negb (blank ov))
  end.
Definition unchanged_list (k : jstr) : bool :=
  match values old !! k, values u !! k with
  | Some (UArr lo), Some (UArr ln) => same_elements lo ln
  | _, _ => false
  end.

Lemma script_del_step cmds lwu k :
  script_del u old (cmds, lwu) k =
  (cmds ++ (if deletes k then [cmd_del k] else []), if unchanged_list k then {[k]} ∪ lwu else lwu).
Proof.
  unfold script_del, deletes, unchanged_list.
  destruct (values old !! k) as [[so|lo]|], (values u !! k) as [[sn|ln]|]; simpl;
    repeat match goal with |- context [if ?b then _ else _] => destruct b; simpl end;
    rewrite ?app_nil_r; done.
Qed.

Lemma script_del_fold ks cmds lwu :
  let '(dels, l) := fold_left (script_del u old) ks (cmds, lwu) in
  dels = cmds ++ map cmd_del (List.filter deletes ks) ∧
  ∀ k, k ∈ l ↔ k ∈ lwu ∨ k ∈ ks ∧ unchanged_list k = true.
Proof.
  revert cmds lwu; induction ks as [|k ks IH]; intros cmds lwu.
  - simpl. split; [by rewrite app_nil_r|set_solver].
  - cbn [fold_left]. rewrite script_del_step.
    specialize (IH (cmds ++ (if deletes k then [cmd_del k] else [])) (if unchanged_list k then {[k]} ∪ lwu else lwu)).
    destruct (fold_left _ _ _) as [dels l]. destruct IH as [-> IH]. split.
    + simpl. destruct (deletes k); simpl; by rewrite <- ?app_assoc, ?app_nil_r.
    + intros k'. rewrite IH. destruct (unchanged_list k) eqn:E; [set_solver|].
      split; [set_solver|]. intros [?|[[->|?]%elem_of_cons ?]]; [set_solver|congruence|set_solver].
Qed.

(** The words of the commands of the second loop. *)
Definition set_argvs (k : jstr) : list (list jstr) :=
  if is_array (values old !! k) || is_array (values u !! k) then
    match values u !! k with
    | Some (UArr ln) => if bool_decide (k ∈ keys old) && unchanged_list k then [] else map (argv_add_list k) ln
    | Some (UStr s) => [argv_set k s]
    | None => [argv_set k (js "undefined")]
    end
  else if negb (bool_decide (values old !! k = values u !! k)) && negb (blank (values u !! k))
  then match values u !! k with Some v => [argv_set k (uval_str v)] | None => [] end
  else [].

Definition script_argvs : list (list jstr) :=
  map argv_del (List.filter deletes (keys old)) ++ concat (map set_argvs (keys u)) ++ [argv_commit].

Lemma script_set_renders lwu k :
  key_word k → (∀ k, k ∈ lwu ↔ k ∈ keys old ∧ unchanged_list k = true) →
  Forall2 renders (script_set u old lwu k) (set_argvs k).
Proof.
  intros Hk Hl. unfold script_set, set_argvs.
  destruct (is_array _ || is_array _).
  - destruct (values u !! k) as [[s|ln]|].
    + constructor; [by apply renders_set|constructor].
    + replace (bool_decide (k ∈ lwu)) with (bool_decide (k ∈ keys old) && unchanged_list k).
      2:{ destruct (decide (k ∈ lwu)) as [Hin|Hin].
          - rewrite (bool_decide_eq_true_2 (k ∈ lwu)) by done. apply Hl in Hin as [? ->].
            by rewrite bool_decide_eq_true_2.
          - rewrite (bool_decide_eq_false_2 (k ∈ lwu)) by done. rewrite Hl in Hin.
            case_bool_decide; simpl; [|done]. destruct (unchanged_list k); naive_solver. }
      destruct (bool_decide (k ∈ keys old) && unchanged_list k); [constructor|].
      induction ln as [|v ln IH]; simpl; [constructor|]. constructor; [by apply renders_add_list|done].
    + constructor; [by apply renders_set|constructor].
  - destruct (negb _ && negb _); [|constructor]. destruct (values u !! k); [|constructor].
    constructor; [by apply renders_set|constructor].
Qed.

Lemma script_renders :
  Forall key_word (keys u) → Forall key_word (keys old) → Forall2 renders (script_lines u old) script_argvs.
Proof.
  intros Hu Hold. unfold script_lines, script_argvs.
  pose proof (script_del_fold (keys old) [] ∅) as H.
  destruct (fold_left _ _ _) as [dels lwu]. destruct H as [-> Hl]. simpl.
  apply Forall2_app; [|apply Forall2_app].
  - assert (Hf : Forall key_word (List.filter deletes (keys old))).
    { rewrite Forall_forall in *. intros x. rewrite list_elem_of_In, filter_In, <- list_elem_of_In. naive_solver. }
    induction Hf; simpl; constructor; [by apply renders_del|done].
  - induction Hu as [|k ks Hk Hks IH]; simpl; [constructor|]. apply Forall2_app; [|done].
    apply script_set_renders; [done|]. intros k'. rewrite Hl. set_solver.
  - constructor; [apply renders_commit|constructor].
Qed.

Lemma run_script_argvs `{PosixShell, UciBackend} st :
  Forall key_word (keys u) → Forall key_word (keys old) →
  run_script (getScriptCommands u old) st = fold_left (fun st argv => run argv st) script_argvs st.
Proof.
  intros Hu Hold. unfold run_script, getScriptCommands.
  rewrite (sh_spec (script_lines u old) script_argvs); [done| |by apply script_renders].
  unfold script_lines. destruct (fold_left _ _ _) as [dels lwu]. by destruct dels, (concat _).
Qed.

End commands.

(** ** Configurations *)

(** What a store shows of a value: an empty list is no value. *)
Definition obs (v : uval) : uval := match v with UArr [] => UStr [] | _ => v end.

(** The configuration that a container describes. *)
Definition config (u : UCIContainer) (k : jstr) : uval := obs (default (UStr []) (values u !! k)).

(** A complete configuration: the names are UCI identifiers, a section has a
    type, and the section of an option was added before the option. *)
Record sectioned (u : UCIContainer) : Prop := {
  sec_words : Forall key_word (keys u);
  sec_type : ∀ p s v, word p → word s → values u !! section_key p s = Some v → ∃ t, v = UStr t ∧ t ≠ [];
  sec_before : ∀ a p s o b, word p → word s → word o →
    keys u = a ++ option_key p s o :: b → section_key p s ∈ a
}.

Section refinement.
Context `{PosixShell, UciBackend}.
Context (u old : UCIContainer).
Hypothesis (Hwu : wf u) (Hsu : sectioned u) (Hwo : wf old) (Hso : sectioned old).

Abbreviation runs := (fold_left (fun st argv => run argv st)).

(** *** Deletions *)

(** Does the deletion of key [d] clear key [k]? *)
Definition clears (d k : jstr) : bool :=
  match split_char 46 d with [p; s] => in_section p s k | _ => k =s d end.

Lemma clears_section p s k : word p → word s → clears (section_key p s) k = in_section p s k.
Proof. intros. unfold clears. by rewrite split_section_key by eauto with uci. Qed.

Lemma clears_option p s o k : word p → word s → word o → clears (option_key p s o) k = (k =s option_key p s o).
Proof. intros. unfold clears. by rewrite split_option_key by eauto with uci. Qed.

Lemma clears_self k : key_word k → clears k k = true.
Proof.
  intros [p s ? ?|p s o ? ? ?].
  - rewrite clears_section by done. apply in_section_section; eauto with uci.
  - rewrite clears_option by done. apply str_eqb_refl.
Qed.

Lemma run_del st d k :
  key_word d → view (run (argv_del d) st) k = if clears d k then UStr [] else view st k.
Proof.
  intros [p s ? ?|p s o ? ? ?]; unfold argv_del.
  - rewrite clears_section by done. by apply run_del_section.
  - rewrite clears_option, run_del_option by done. done.
Qed.

Lemma run_dels st ds k :
  Forall key_word ds →
  view (runs (map argv_del ds) st) k = if existsb (fun d => clears d k) ds then UStr [] else view st k.
Proof.
  intros Hd. revert st. induction Hd as [|d ds Hd Hds IH]; intros st; simpl; [done|].
  rewrite IH, run_del by done. destruct (clears d k), (existsb _ ds); done.
Qed.

Definition cleared (k : jstr) : bool := existsb (fun d => clears d k) (List.filter (deletes u old) (keys old)).

Lemma deletes_section p s :
  word p → word s → section_key p s ∈ keys old → deletes u old (section_key p s) = true →
  values u !! section_key p s = None.
Proof.
  intros Hp Hs Hin. apply (wf_dom _ Hwo) in Hin as [v Hv]. unfold deletes. rewrite Hv.
  destruct (sec_type _ Hso p s v) as (t & -> & Ht); [done..|].
  destruct (values u !! section_key p s) as [v'|] eqn:E; [|done].
  destruct (sec_type _ Hsu p s v') as (t' & -> & Ht'); [done..|]. simpl.
  rewrite (proj2 (str_eqb_neq t' [])) by done. simpl. by intros ?.
Qed.

Lemma option_section p s o :
  word p → word s → word o → option_key p s o ∈ keys u → section_key p s ∈ keys u.
Proof.
  intros Hp Hs Ho (a & b & E)%list_elem_of_split.
  pose proof (sec_before _ Hsu a p s o b Hp Hs Ho E). rewrite E. set_solver.
Qed.

(** The deletions clear a key of the new settings only by its own command. *)
Lemma cleared_kept k :
  k ∈ keys u → cleared k = bool_decide (k ∈ keys old) && deletes u old k.
Proof.
  intros Hk. assert (Hkw : key_word k).
  { pose proof (sec_words _ Hsu) as Hf. rewrite Forall_forall in Hf. by apply Hf. }
  unfold cleared. apply eq_true_iff_eq. rewrite existsb_exists, andb_true_iff, bool_decide_eq_true. split.
  - intros (d & Hd & Hc). apply filter_In in Hd as [Hd Hdel]. apply list_elem_of_In in Hd.
    pose proof (sec_words _ Hso) as Hfo. rewrite Forall_forall in Hfo. pose proof (Hfo d Hd) as Hdw.
    revert Hd Hdel Hc. destruct Hdw as [p s Hp Hs|p s o Hp Hs Ho]; intros Hd Hdel Hc.
    2:{ rewrite clears_option in Hc by done. apply str_eqb_eq in Hc as ->. done. }
    rewrite clears_section in Hc by done. pose proof (deletes_section p s Hp Hs Hd Hdel) as Hnone.
    exfalso. assert (Hsec : section_key p s ∈ keys u).
    { revert Hk Hc. destruct Hkw as [p' s' ? ?|p' s' o' ? ? ?]; intros Hk Hc.
      - apply in_section_section in Hc as [-> ->]; eauto with uci.
      - apply in_section_option in Hc as [-> ->]; [by apply (option_section p' s' o')|eauto with uci..]. }
    apply (wf_dom _ Hwu) in Hsec as [? ?]. congruence.
  - intros [Hin Hdel]. exists k. split; [|by apply clears_self].
    apply filter_In. split; [by apply list_elem_of_In|done].
Qed.

Lemma is_array_obs_old k : values old !! k = None → config old k = UStr [].
Proof. unfold config. by intros ->. Qed.

(** A key without a value in the new settings shows nothing after the deletions. *)
Lemma cleared_gone k : values u !! k = None → (if cleared k then UStr [] else config old k) = UStr [].
Proof.
  intros Hn. destruct (cleared k) eqn:E; [done|].
  destruct (values old !! k) as [v|] eqn:Ev; [|by apply is_array_obs_old].
  assert (Hin : k ∈ keys old) by (apply (wf_dom _ Hwo); eauto).
  assert (Hd : deletes u old k = false).
  { apply not_true_iff_false. intros Hd. apply not_true_iff_false in E. apply E.
    apply existsb_exists. exists k. split; [apply filter_In; by rewrite <- list_elem_of_In|].
    pose proof (sec_words _ Hso) as Hf. rewrite Forall_forall in Hf. by apply clears_self, Hf. }
  unfold deletes in Hd. rewrite Ev, Hn in Hd. unfold config. rewrite Ev.
  destruct v as [s|l]; simpl in *; [|done]. destruct (str_eqb s []) eqn:Es; [|done].
  apply str_eqb_eq in Es as ->. done.
Qed.

(** *** Additions *)

(** The section of an option that is about to be written. *)
Definition section_ready (st : bstate) (k : jstr) : Prop :=
  ∀ p s o, word p → word s → word o → k = option_key p s o → view st (section_key p s) ≠ UStr [].

Lemma run_set st k v k' :
  key_word k → section_ready st k → (∀ p s, word p → word s → k = section_key p s → v ≠ []) →
  view (run (argv_set k v) st) k' = if bool_decide (k' = k) then UStr v else view st k'.
Proof.
  intros [p s ? ?|p s o ? ? ?] Hr Hv; unfold argv_set.
  - apply run_set_section; [done..|by apply (Hv p s)].
  - apply run_set_option; [done..|by apply (Hr p s o)].
Qed.

Lemma run_add_lists st k ln l k' :
  (∃ p s o, word p ∧ word s ∧ word o ∧ k = option_key p s o) → section_ready st k → view st k = obs (UArr l) →
  view (runs (map (argv_add_list k) ln) st) k' =
  if bool_decide (k' = k) then obs (UArr (l ++ ln)) else view st k'.
Proof.
  intros (p & s & o & Hp & Hs & Ho & ->). revert st l. induction ln as [|v ln IH]; intros st l Hr Hl; simpl.
  - rewrite app_nil_r. case_bool_decide; by subst.
  - assert (Hstep : ∀ k'', view (run (argv_add_list (option_key p s o) v) st) k'' =
        if bool_decide (k'' = option_key p s o) then UArr (l ++ [v]) else view st k'').
    { intros k''. apply run_add_list; [done..|by apply (Hr p s o)|]. rewrite Hl.
      destruct l; [by right|by left]. }
    rewrite (IH _ (l ++ [v])).
    + rewrite <- app_assoc. simpl. rewrite Hstep. by case_bool_decide.
    + intros p' s' o' ? ? ? E. rewrite Hstep. rewrite bool_decide_eq_false_2; [by apply (Hr p' s' o')|].
      apply section_option_key; eauto with uci.
    + rewrite Hstep, bool_decide_eq_true_2 by done. by destruct l.
Qed.

Lemma same_elements_eq l1 l2 : same_elements l1 l2 = true → l1 = l2.
Proof.
  revert l2; induction l1 as [|x l1 IH]; intros [|y l2]; simpl; try done.
  rewrite andb_true_iff, str_eqb_eq. intros [-> ?]. f_equal. by apply IH.
Qed.

Definition after_dels (st : bstate) (k : jstr) : Prop :=
  view st k = if cleared k then UStr [] else config old k.

(** The commands of one key of the new settings give it its new value. *)
Lemma run_set_argvs st k k' :
  k ∈ keys u → section_ready st k → after_dels st k →
  view (runs (set_argvs u old k) st) k' = if bool_decide (k' = k) then config u k else view st k'.
Proof.
  intros Hk Hr Hdel. unfold after_dels in Hdel. rewrite cleared_kept in Hdel by done.
  assert (Hkw : key_word k).
  { pose proof (sec_words _ Hsu) as Hf. rewrite Forall_forall in Hf. by apply Hf. }
  destruct (proj1 (wf_dom _ Hwu k) Hk) as [nv Hnv].
  assert (Hsec : ∀ p s, word p → word s → k = section_key p s → ∃ t, nv = UStr t ∧ t ≠ []).
  { intros p s ? ? ->. by apply (sec_type _ Hsu p s). }
  assert (Hold : k ∈ keys old ↔ is_Some (values old !! k)) by apply (wf_dom _ Hwo).
  unfold set_argvs, config, unchanged_list, deletes in *. rewrite Hnv in *. simpl default.
  assert (Hdone : view st k = obs nv → view st k' = if bool_decide (k' = k) then obs nv else view st k').
  { intros E. destruct (decide (k' = k)) as [->|]; [by rewrite bool_decide_eq_true_2|by rewrite bool_decide_eq_false_2]. }
  destruct nv as [sn|ln].
  - rewrite orb_false_r. assert (Hset : ∀ v, v = sn → view (run (argv_set k v) st) k' =
        if bool_decide (k' = k) then UStr sn else view st k').
    { intros v ->. apply run_set; [done..|]. intros p s ? ? E. destruct (Hsec p s) as (t & [= ->] & ?); done. }
    destruct (values old !! k) as [[so|lo]|] eqn:Eo; simpl in *.
    + rewrite (bool_decide_eq_true_2 (k ∈ keys old)) in Hdel by (apply Hold; eauto). simpl in Hdel.
      destruct (decide (so = sn)) as [->|Hne].
      * rewrite bool_decide_eq_true_2 by done. simpl. apply Hdone.
        revert Hdel. by destruct (str_eqb sn []).
      * rewrite bool_decide_eq_false_2 by naive_solver. simpl.
        destruct (str_eqb sn []) eqn:Es; simpl in *; [|by apply Hset].
        apply str_eqb_eq in Es as ->. apply Hdone. rewrite (proj2 (str_eqb_neq so [])) in Hdel by done. done.
    + by apply Hset.
    + simpl. destruct (str_eqb sn []) eqn:Es; simpl in *; [|by apply Hset].
      apply str_eqb_eq in Es as ->. apply Hdone. by destruct (bool_decide _).
  - rewrite orb_true_r.
    assert (Hopt : ∃ p s o, word p ∧ word s ∧ word o ∧ k = option_key p s o).
    { destruct Hkw as [p s ? ?|p s o ? ? ?]; [|eauto 10]. by destruct (Hsec p s) as (t & ? & _). }
    assert (Hadd : view st k = UStr [] → view (runs (map (argv_add_list k) ln) st) k' =
        if bool_decide (k' = k) then obs (UArr ln) else view st k').
    { intros E. by apply (run_add_lists st k ln []). }
    destruct (values old !! k) as [[so|lo]|] eqn:Eo; simpl in *.
    + rewrite andb_false_r. apply Hadd. rewrite (bool_decide_eq_true_2 (k ∈ keys old)) in Hdel by (apply Hold; eauto).
      done.
    + rewrite (bool_decide_eq_true_2 (k ∈ keys old)) in * by (apply Hold; eauto). simpl in *.
      destruct (same_elements lo ln) eqn:E; simpl in *; [|by apply Hadd].
      apply same_elements_eq in E as ->. by apply Hdone.
    + rewrite andb_false_r. apply Hadd. by destruct (bool_decide _ && _).
Qed.

(** The second loop, key by key. *)
Lemma run_sets st a b :
  keys u = a ++ b →
  (∀ k, view st k = if bool_decide (k ∈ a) then config u k else if cleared k then UStr [] else config old k) →
  ∀ k, view (runs (concat (map (set_argvs u old) b)) st) k =
       if bool_decide (k ∈ keys u) then config u k else if cleared k then UStr [] else config old k.
Proof.
  revert st a. induction b as [|k b IH]; intros st a Hks Hst k'; simpl.
  - rewrite Hst. by rewrite Hks, app_nil_r.
  - pose proof (wf_nodup _ Hwu) as Hnd. rewrite Hks in Hnd. apply NoDup_app in Hnd as (_ & Hnd & _).
    assert (Hka : k ∉ a) by (intros ?; apply (Hnd k); set_solver).
    rewrite fold_left_app. apply (IH _ (a ++ [k])); [by rewrite Hks, <- app_assoc|].
    intros k''. rewrite run_set_argvs; [| | |].
    + rewrite Hst. destruct (decide (k'' = k)) as [->|].
      * by rewrite !bool_decide_eq_true_2 by set_solver.
      * rewrite (bool_decide_eq_false_2 (k'' = k)) by done.
        by rewrite (bool_decide_ext (k'' ∈ a ++ [k]) (k'' ∈ a)) by set_solver.
    + rewrite Hks. set_solver.
    + intros p s o Hp Hs Ho ->. pose proof (sec_before _ Hsu a p s o b Hp Hs Ho Hks) as Hin.
      rewrite Hst, bool_decide_eq_true_2 by done.
      assert (Hin' : section_key p s ∈ keys u) by (rewrite Hks; set_solver).
      apply (wf_dom _ Hwu) in Hin' as [v Hv]. destruct (sec_type _ Hsu p s v) as (t & -> & Ht); [done..|].
      unfold config. rewrite Hv. simpl. by intros [= ->].
    + unfold after_dels. by rewrite Hst, bool_decide_eq_false_2.
Qed.

Lemma script_result st :
  (∀ k, view st k = config old k) → ∀ k, view (run_script (getScriptCommands u old) st) k = config u k.
Proof.
  intros Hst k. rewrite run_script_argvs by (apply sec_words; done). unfold script_argvs.
  rewrite !fold_left_app. simpl. rewrite run_commit.
  assert (Hd : ∀ k, view (runs (map argv_del (List.filter (deletes u old) (keys old))) st) k =
                    if cleared k then UStr [] else config old k).
  { intros k'. rewrite run_dels; [by rewrite Hst|].
    pose proof (sec_words _ Hso) as Hf. rewrite Forall_forall in *. intros x.
    rewrite list_elem_of_In, filter_In, <- list_elem_of_In. naive_solver. }
  rewrite (run_sets _ [] (keys u)); [|done|done].
  case_bool_decide as Hin; [done|].
  assert (Hn : values u !! k = None).
  { destruct (values u !! k) eqn:E; [|done]. destruct Hin. apply (wf_dom _ Hwu). eauto. }
  rewrite cleared_gone by done. unfold config. by rewrite Hn.
Qed.

End refinement.

(** ** A decision procedure for [sectioned] *)
Section checker.

Definition check_key (u : UCIContainer) (seen : list jstr) (k : jstr) : bool :=
  match split_char 46 k with
  | [p; s] => bool_decide (word p) && bool_decide (word s) &&
      match values u !! k with Some (UStr t) => negb (t =s []) | _ => false end
  | [p; s; o] => bool_decide (word p) && bool_decide (word s) && bool_decide (word o) &&
      bool_decide (section_key p s ∈ seen)
  | _ => false
  end.

Fixpoint check_keys (u : UCIContainer) (seen ks : list jstr) : bool :=
  match ks with
  | [] => true
  | k :: ks' => check_key u seen k && check_keys u (seen ++ [k]) ks'
  end.

Lemma check_keys_at u seen ks : check_keys u seen ks = true →
  ∀ a k b, ks = a ++ k :: b → check_key u (seen ++ a) k = true.
Proof.
  revert seen; induction ks as [|x ks IH]; intros seen Hc a k b E; [by destruct a|].
  simpl in Hc. apply andb_true_iff in Hc as [Hx Hks]. destruct a as [|y a]; injection E as -> ->.
  - by rewrite app_nil_r.
  - rewrite cons_middle, app_assoc. by eapply IH.
Qed.

Lemma check_key_word u seen k : check_key u seen k = true → key_word k.
Proof.
  unfold check_key. pose proof (join_split_char 46 k) as Hj.
  destruct (split_char 46 k) as [|p [|s [|o [|]]]]; try done; intros Hc; bsimpl; simpl in Hj; subst.
  - by apply kw_section.
  - by apply kw_option.
Qed.

Lemma check_sectioned u : wf u → check_keys u [] (keys u) = true → sectioned u.
Proof.
  intros Hu Hc. pose proof (check_keys_at u [] (keys u) Hc) as Hat. split.
  - apply Forall_forall. intros k (a & b & E)%list_elem_of_split. by eapply check_key_word, Hat.
  - intros p s v Hp Hs Hv. assert (Hin : section_key p s ∈ keys u) by (apply (wf_dom _ Hu); eauto).
    apply list_elem_of_split in Hin as (a & b & E). apply Hat in E. unfold check_key in E.
    rewrite split_section_key, Hv in E by eauto with uci. bsimpl.
    destruct v as [t|]; [|done]. exists t. split; [done|]. bsimpl.
    by match goal with H : str_eqb t [] = false |- _ => apply str_eqb_neq in H end.
  - intros a p s o b Hp Hs Ho E. apply Hat in E. unfold check_key in E.
    rewrite split_option_key in E by eauto with uci. by bsimpl.
Qed.

End checker.

Lemma script_lines_ne u old : script_lines u old ≠ [].
Proof. unfold script_lines. destruct (fold_left _ _ _) as [dels lwu]. destruct dels; [|done]. by destruct (concat _). Qed.

(** ** Theorems *)

(** C2: Whatever text the values hold, quotes and line ends included, a shell
    that follows the POSIX quoting rules reads the script of [getScriptCommands]
    as exactly the intended [uci] commands, each with its value as one word. *)
Theorem script_is_read_back `{PosixShell} (u old : UCIContainer) :
  Forall key_word (keys u) → Forall key_word (keys old) →
  sh_script (getScriptCommands u old) = script_argvs u old.
Proof.
  intros Hu Hold. apply sh_spec; [|by apply script_renders].
  unfold script_lines. destruct (fold_left _ _ _) as [dels lwu]. by destruct dels, (concat _).
Qed.


(** The sample with an option changed to a value with a quote, a list added, and
    another section removed. *)
Definition sample_new : UCIContainer :=
  set (createListOption
         (set (without_section sample (js "network") (js "wan"))
            (js "network") (js "lan") (js "proto") (UStr (js "it's")) false)
         (js "network") (js "lan") (js "dns") None)
      (js "network") (js "lan") (js "dns") (UArr [js "1.1.1.1"; js "2.2.2.2"]) false.

Lemma sample_new_wf : wf sample_new.
Proof. unfold sample_new. auto using sample_wf with uci. Qed.

Lemma script_is_read_back_witness :
  @sh_script SimpleShell.shell (getScriptCommands sample_new sample) = script_argvs sample_new sample.
Proof.
  apply (@script_is_read_back SimpleShell.shell sample_new sample).
  - apply (sec_words _ (check_sectioned _ sample_new_wf eq_refl)).
  - apply (sec_words _ (check_sectioned _ sample_wf eq_refl)).
Defined.

