(* ===== verification/Sections.v ===== *)
(** * Rewriting the sections of a type

    Most pages save a table the same way: the sections of one type are removed
    from the old settings, with a [uci del] command for each, and written anew
    from the rows of the table.  This file holds the loop that removes them and
    the lemmas on both halves that the pages share. *)
From S2P Require Import Prelude JsNum JsString JsRegex Uci UciFacts Backend UciScript.
Import Uci.
Open Scope Z_scope.

Module Sections.

(** [while(sections.length > 0) { s = sections.pop(); uciOriginal.removeSection(pkg, s);
    commands.push("uci del " + pkg + "." + s); }] *)
Definition pop_list (pkg : jstr) (sections : list jstr) (st : UCIContainer * list jstr) : exn (UCIContainer * list jstr) :=
  exn_fold (fun '(u, commands) section =>
    let! u := removeSection u pkg section in
    Ret (u, commands ++ [js "uci del " ++ pkg ++ js "." ++ section])) sections st.

Definition pop_sections (pkg type : jstr) (uciOriginal : UCIContainer) : exn (UCIContainer * list jstr) :=
  let! sections := getAllSectionsOfType uciOriginal pkg type in pop_list pkg (rev sections) (uciOriginal, []).

(** A section with its type and its options. *)
Definition write_section (pkg : jstr) (u : UCIContainer) (section type : jstr) (opts : list (jstr * jstr)) : UCIContainer :=
  fold_left (fun u ov => set u pkg section (fst ov) (UStr (snd ov)) false) opts
    (set u pkg section [] (UStr type) false).

(** Several sections: name, type and options of each. *)
Definition section_rec : Type := jstr * jstr * list (jstr * jstr).
Definition write_sections (pkg : jstr) (u : UCIContainer) (l : list section_rec) : UCIContainer :=
  fold_left (fun u '(section, type, opts) => write_section pkg u section type opts) l u.

End Sections.
Import Sections.

(** No key of the container belongs to the section. *)
Definition fresh_section (u : UCIContainer) (pkg section : jstr) : Prop :=
  ∀ k, k ∈ keys u → in_section pkg section k = false.

(** ** Writing *)
Section writing.

Lemma set_new u p s o v : wf u → next_key p s o ∉ keys u →
  set u p s o v false = mkUci (keys u ++ [next_key p s o]) (<[next_key p s o := v]> (values u)) (listOptions u).
Proof.
  intros Hu Hk. unfold set. destruct (values u !! next_key p s o) eqn:E.
  { destruct Hk. apply (wf_dom _ Hu). eauto. }
  rewrite bool_decide_eq_false_2; [done|]. intros Hl%(wf_list _ Hu). by rewrite E in Hl.
Qed.

Lemma set_opts_spec p s opts u :
  name p → name s → Forall name (map fst opts) → NoDup (map fst opts) → wf u →
  (∀ o, o ∈ map fst opts → option_key p s o ∉ keys u) →
  let u' := fold_left (fun u ov => set u p s (fst ov) (UStr (snd ov)) false) opts u in
  wf u' ∧ keys u' = keys u ++ map (option_key p s) (map fst opts) ∧
  (∀ o v, (o, v) ∈ opts → values u' !! option_key p s o = Some (UStr v)) ∧
  (∀ k, k ∉ map (option_key p s) (map fst opts) → values u' !! k = values u !! k).
Proof.
  intros Hp Hs Ho Hnd Hu Hfr. revert u Hu Hfr. induction opts as [|[o v] opts IH]; intros u Hu Hfr; cbv zeta.
  { simpl. rewrite app_nil_r. split_and!; [done|done|set_solver|done]. }
  cbn [fold_left fst snd map] in *. inversion Ho as [|? ? Hno Ho']; subst. inversion Hnd as [|? ? Hnin Hnd']; subst.
  assert (Ek : next_key p s o = option_key p s o) by (apply next_key_option, Hno).
  pose proof (set_wf u p s o (UStr v) false Hu) as Hw. rewrite set_new in * by (done || rewrite Ek; apply Hfr; by left).
  rewrite Ek in *. destruct (IH Ho' Hnd' _ Hw) as (W & K & V & N).
  { intros o' Ho'' Hin. simpl in Hin. apply elem_of_app in Hin as [Hin|Hin%list_elem_of_singleton].
    - by eapply Hfr; [right|].
    - apply option_key_inj in Hin as (_ & _ & ->); [done|done|done| |done|done|done].
      rewrite Forall_forall in Ho'. by apply Ho'. }
  assert (Hself : option_key p s o ∉ map (option_key p s) (map fst opts)).
  { rewrite list_elem_of_fmap. intros (o' & E & Ho''). rewrite Forall_forall in Ho'.
    apply option_key_inj in E as (_ & _ & ->); [done|done|done|done|done|done|by apply Ho']. }
  split_and!; [done| | |].
  - rewrite K. simpl. by rewrite <- app_assoc.
  - intros o' v' [[= -> ->]|Hin]%elem_of_cons; [|by apply V]. rewrite N by done. simpl. apply lookup_insert_eq.
  - intros k Hk. rewrite N by set_solver. simpl. rewrite lookup_insert_ne; [done|]. intros <-. set_solver.
Qed.

Lemma options_no_hits q p s os : name p → name s → Forall name os →
  List.filter (fun k => test (literal q) k && test re_sec k) (map (option_key p s) os) = [].
Proof.
  intros Hp Hs. induction 1 as [|o os Ho _ IH]; [done|]. simpl. by rewrite test_sec_option, andb_false_r.
Qed.

Section one.
Context (p s t : jstr) (opts : list (jstr * jstr)) (u : UCIContainer).
Hypothesis (Hp : name p) (Hs : name s) (Ho : Forall name (map fst opts)) (Hnd : NoDup (map fst opts)).
Hypothesis (Hu : wf u) (Hfr : fresh_section u p s).

Let u' := write_section p u s t opts.

Lemma write_section_spec :
  wf u' ∧ keys u' = keys u ++ section_key p s :: map (option_key p s) (map fst opts) ∧
  values u' !! section_key p s = Some (UStr t) ∧
  (∀ o v, (o, v) ∈ opts → values u' !! option_key p s o = Some (UStr v)) ∧
  (∀ k, in_section p s k = false → values u' !! k = values u !! k) ∧
  (∀ k, in_section p s k = true → k ∉ section_key p s :: map (option_key p s) (map fst opts) → values u' !! k = None).
Proof.
  assert (Hsk : section_key p s ∉ keys u).
  { intros Hin%Hfr. by rewrite (proj2 (in_section_section p s p s Hp Hs Hp Hs)) in Hin. }
  assert (Hok : ∀ o, o ∈ map fst opts → option_key p s o ∉ keys u).
  { intros o Hin Hk%Hfr. rewrite Forall_forall in Ho.
    by rewrite (proj2 (in_section_option p s p s o Hp Hs Hp Hs (Ho _ Hin))) in Hk. }
  assert (Hno : section_key p s ∉ map (option_key p s) (map fst opts)).
  { rewrite list_elem_of_fmap. intros (o & E & Hin). rewrite Forall_forall in Ho. by apply section_option_key in E; auto. }
  unfold u', write_section. pose proof (set_wf u p s [] (UStr t) false Hu) as Hw.
  rewrite set_new in * by done. rewrite next_key_section in *.
  destruct (set_opts_spec p s opts _ Hp Hs Ho Hnd Hw) as (W & K & V & N).
  { intros o Hin. simpl. rewrite elem_of_app, list_elem_of_singleton. intros [Hk|E]; [by eapply Hok|].
    destruct Hno. rewrite <- E. by apply list_elem_of_fmap_2. }
  split_and!; [done| | |done| |].
  - rewrite K. simpl. by rewrite <- app_assoc.
  - rewrite N by done. simpl. apply lookup_insert_eq.
  - intros k Hk. assert (Hnk : k ∉ section_key p s :: map (option_key p s) (map fst opts)).
    { rewrite elem_of_cons, list_elem_of_fmap. rewrite Forall_forall in Ho. intros [->|(o & -> & Hin)].
      - by rewrite (proj2 (in_section_section p s p s Hp Hs Hp Hs)) in Hk.
      - by rewrite (proj2 (in_section_option p s p s o Hp Hs Hp Hs (Ho _ Hin))) in Hk. }
    rewrite N by set_solver. simpl. rewrite lookup_insert_ne; [done|set_solver].
  - intros k Hk Hn. rewrite N by set_solver. simpl. rewrite lookup_insert_ne by set_solver.
    destruct (values u !! k) eqn:E; [|done]. assert (Hin : k ∈ keys u) by (apply (wf_dom _ Hu); eauto).
    apply Hfr in Hin. congruence.
Qed.

(** Reading the options of the new section, and of the others. *)
Lemma write_section_get o v : (o, v) ∈ opts → get u' p s o = UStr v.
Proof.
  intros Hin. unfold get. rewrite next_key_option.
  2:{ rewrite Forall_forall in Ho. apply (Ho o). by apply (list_elem_of_fmap_2' fst _ (o, v) o). }
  destruct write_section_spec as (_ & _ & _ & V & _). by rewrite (V o v).
Qed.

Lemma write_section_get_none o : name o → o ∉ map fst opts → get u' p s o = UStr [].
Proof.
  intros Hno Hin. unfold get. rewrite next_key_option by apply Hno.
  destruct write_section_spec as (_ & _ & _ & _ & _ & N). rewrite (N (option_key p s o)); [done|by apply in_section_option|].
  rewrite elem_of_cons, list_elem_of_fmap. rewrite Forall_forall in Ho. intros [E|(o' & E & Ho')].
  - symmetry in E. by apply section_option_key in E.
  - apply option_key_inj in E as (_ & _ & ->); auto.
Qed.

Lemma write_section_get_other p' s' o : name p' → name s' → o = [] ∨ name o → (p', s') ≠ (p, s) → get u' p' s' o = get u p' s' o.
Proof.
  intros Hp' Hs' Hno Hne. unfold get. destruct write_section_spec as (_ & _ & _ & _ & N & _). rewrite N; [done|].
  apply not_true_iff_false. destruct Hno as [->|Hno].
  - rewrite next_key_section, in_section_section by done. naive_solver.
  - rewrite next_key_option, in_section_option by (done || apply Hno). naive_solver.
Qed.

Lemma write_section_shaped : shaped u → shaped u'.
Proof.
  intros Hsh. unfold shaped. destruct write_section_spec as (_ & -> & _). apply Forall_app. split; [done|].
  constructor; [by constructor|]. rewrite Forall_forall in *. intros k Hk%list_elem_of_fmap.
  destruct Hk as (o & -> & Hin). apply shape_option; auto.
Qed.

(** A query finds the new section last. *)
Lemma write_section_query type ss : word p → shaped u →
  getAllSectionsOfType u p type = Ret ss →
  getAllSectionsOfType u' p type = Ret (ss ++ if bool_decide (t = type) then [s] else []).
Proof.
  intros Hwp Hsh. pose proof (write_section_shaped Hsh) as Hsh'. rewrite !getAllSectionsOfType_hits by done.
  intros [= <-]. f_equal. destruct write_section_spec as (_ & K & T & _ & N & _).
  unfold query_hits. rewrite K, List.filter_app. simpl.
  replace (test (literal p) (section_key p s)) with true by (symmetry; apply test_literal; by exists [], (js "." ++ s)).
  rewrite test_sec by done. simpl.
  replace (List.filter _ (map (option_key p s) (map fst opts))) with (@nil jstr).
  2:{ symmetry. by apply options_no_hits. }
  rewrite List.filter_app, map_app. f_equal.
  - f_equal. apply filter_ext_mem. intros k Hk. unfold value_is. rewrite N; [done|]. apply Hfr.
    rewrite list_elem_of_In, filter_In in Hk. apply list_elem_of_In, Hk.
  - simpl. unfold value_is. rewrite T. simpl. unfold str_eqb. case_bool_decide; [|done]. simpl. by rewrite sec_name_key.
Qed.

End one.
End writing.

(** ** Removing *)
Section removing.
Context (pkg : jstr).
Hypothesis (Hpkg : word pkg).

(** A container without a list of sections. *)
Definition without_sections (u : UCIContainer) (ss : list jstr) : UCIContainer :=
  fold_left (λ u s, without_section u pkg s) ss u.

Definition in_sections (ss : list jstr) (k : jstr) : bool := existsb (λ s, in_section pkg s k) ss.

Lemma without_sections_wf u ss : wf u → wf (without_sections u ss).
Proof. unfold without_sections. revert u. induction ss as [|s ss IH]; intros u Hu; simpl; [done|]. apply IH. auto with uci. Qed.

Lemma without_sections_shaped u ss : shaped u → shaped (without_sections u ss).
Proof. unfold without_sections. revert u. induction ss as [|s ss IH]; intros u Hu; simpl; [done|]. apply IH. auto with uci. Qed.

Lemma without_sections_keys u ss :
  keys (without_sections u ss) = List.filter (λ k, negb (in_sections ss k)) (keys u).
Proof.
  unfold without_sections. revert u. induction ss as [|s ss IH]; intros u; simpl.
  - induction (keys u) as [|k l IHl]; simpl; [done|]. by rewrite <- IHl.
  - rewrite IH. cbn [without_section keys]. rewrite <- filter_filter_and. apply filter_ext_mem. intros k _.
    by destruct (in_section pkg s k).
Qed.

Lemma without_sections_lookup u ss k :
  values (without_sections u ss) !! k = if in_sections ss k then None else values u !! k.
Proof.
  unfold without_sections. revert u. induction ss as [|s ss IH]; intros u; simpl; [done|].
  rewrite IH. destruct (in_sections ss k); [by rewrite orb_true_r|]. rewrite orb_false_r. cbn [without_section values].
  destruct (in_section pkg s k) eqn:E.
  - apply map_lookup_filter_None. right. intros v _. simpl. congruence.
  - destruct (values u !! k) as [v|] eqn:Ev; [by apply map_lookup_filter_Some|]. apply map_lookup_filter_None. by left.
Qed.

Lemma pop_list_spec u l acc : wf u → shaped u → Forall word l →
  pop_list pkg l (u, acc) = Ret (without_sections u l, acc ++ map (λ s, cmd_del (section_key pkg s)) l).
Proof.
  intros Hu Hsh Hl. unfold pop_list, without_sections. match goal with |- exn_fold ?f _ _ = _ => set (step := f) end.
  revert u acc Hu Hsh. induction Hl as [|s l Hs _ IH]; intros u acc Hu Hsh; cbn [exn_fold map fold_left]; [by rewrite app_nil_r|].
  unfold step at 1. rewrite removeSection_without by done. cbn [exn_bind]. rewrite IH by auto with uci. by rewrite <- app_assoc.
Qed.

Lemma pop_sections_spec type u ss :
  wf u → shaped u → getAllSectionsOfType u pkg type = Ret ss → Forall word ss →
  pop_sections pkg type u = Ret (without_sections u (rev ss), map (λ s, cmd_del (section_key pkg s)) (rev ss)).
Proof.
  intros Hu Hsh Hq Hw. unfold pop_sections. rewrite Hq. cbn [exn_bind]. by rewrite pop_list_spec by (done || by apply Forall_rev).
Qed.

Lemma unambiguous_sublist u u' : keys u' ⊆ keys u → pkg_unambiguous u pkg → pkg_unambiguous u' pkg.
Proof. intros Hk Hu p s Hin. apply Hu. by apply Hk. Qed.

(** The names of the sections a query returns. *)
Lemma query_names type u ss : shaped u → Forall key_word (keys u) → getAllSectionsOfType u pkg type = Ret ss →
  pkg_unambiguous u pkg → Forall word ss.
Proof.
  intros Hsh Hkw Hq Ha. rewrite getAllSectionsOfType_hits in Hq by done. injection Hq as <-.
  apply Forall_map, Forall_forall. intros k Hk. rewrite list_elem_of_In, filter_In, <- list_elem_of_In in Hk.
  destruct Hk as [Hk _]. apply query_hits_shape in Hk as (s & Hs & -> & Hk); [|done..]. rewrite sec_name_key by eauto with uci.
  rewrite Forall_forall in Hkw. apply Hkw in Hk. inversion Hk as [p' s' Hp' Hs' E|p' s' o' Hp' Hs' Ho' E].
  - apply section_key_inj in E as [_ <-]; eauto with uci.
  - symmetry in E. apply section_option_key in E; eauto with uci. done.
Qed.

(** After the removal a query finds no section of the type, and the others as before. *)
Lemma removed_query type type' u ss ss' : wf u → shaped u → pkg_unambiguous u pkg → Forall word ss →
  getAllSectionsOfType u pkg type = Ret ss → getAllSectionsOfType u pkg type' = Ret ss' →
  getAllSectionsOfType (without_sections u (rev ss)) pkg type' = Ret (if bool_decide (type = type') then [] else ss').
Proof.
  intros Hu Hsh Ha Hw. rewrite !getAllSectionsOfType_hits by (done || by apply without_sections_shaped).
  intros [= Ess] [= Ess']. f_equal. unfold query_hits. rewrite without_sections_keys.
  set (hit := λ k, test (literal pkg) k && test re_sec k).
  assert (Ef : ∀ k, k ∈ keys u → hit k = true → in_sections (rev ss) k = value_is u k type).
  { intros k Hk Hh. assert (Hq : k ∈ query_hits u pkg).
    { unfold query_hits. by rewrite list_elem_of_In, filter_In, <- list_elem_of_In. }
    destruct (query_hits_shape u pkg k Hpkg Hsh Ha Hq) as (s & Hs & -> & _).
    unfold in_sections. apply eq_true_iff_eq. rewrite existsb_exists. split.
    - intros (s' & Hs' & Hin). apply in_rev in Hs'. apply list_elem_of_In in Hs'.
      assert (name s') by (rewrite Forall_forall in Hw; eauto with uci).
      apply in_section_section in Hin as [_ ->]; [|eauto with uci..]. rewrite <- Ess in Hs'.
      apply list_elem_of_fmap in Hs' as (k & Ek & Hk'). rewrite list_elem_of_In, filter_In, <- list_elem_of_In in Hk'.
      destruct Hk' as [Hk' Hv]. apply query_hits_shape in Hk' as (s'' & Hs'' & -> & _); [|done..].
      rewrite sec_name_key in Ek by eauto with uci. by subst.
    - intros Hv. exists s. split; [|apply in_section_section; eauto with uci].
      apply in_rev. rewrite rev_involutive. apply list_elem_of_In. rewrite <- Ess. apply list_elem_of_fmap.
      exists (section_key pkg s). rewrite sec_name_key by eauto with uci. split; [done|].
      by rewrite list_elem_of_In, filter_In, <- list_elem_of_In. }
  rewrite <- Ess'. clear Ess'. unfold query_hits. fold hit. rewrite <- !filter_filter_and.
  assert (Eg : List.filter (λ k, negb (in_sections (rev ss) k) && (hit k && value_is (without_sections u (rev ss)) k type')) (keys u) =
    List.filter (λ k, hit k && (value_is u k type' && negb (value_is u k type))) (keys u)).
  { apply filter_ext_mem. intros k Hk. destruct (hit k) eqn:Eh; [|by rewrite andb_false_r].
    rewrite Ef by done. cbn [andb]. unfold value_is at 2. rewrite without_sections_lookup, Ef by done.
    unfold value_is. destruct (values u !! k) as [v|]; [|done]. destruct (uval_str v =s type); simpl; [by rewrite andb_false_r|].
    by rewrite andb_true_r. }
  rewrite Eg. case_bool_decide as Ht.
  - subst. replace (List.filter _ (keys u)) with (@nil jstr); [done|]. symmetry.
    rewrite (filter_ext_mem _ (λ _, false)); [clear; by induction (keys u)|]. intros k _.
    rewrite andb_negb_r. apply andb_false_r.
  - f_equal. apply filter_ext_mem. intros k _. destruct (hit k); [|done]. simpl. unfold value_is.
    destruct (values u !! k) as [v|]; [|done]. destruct (uval_str v =s type') eqn:E1; [|done].
    apply str_eqb_eq in E1. rewrite E1. by rewrite (proj2 (str_eqb_neq type' type)).
Qed.

End removing.

(** ** Complete configurations *)
Section complete.

Lemma filter_split {A} (f : A → bool) l a x b : List.filter f l = a ++ x :: b →
  ∃ a' b', l = a' ++ x :: b' ∧ List.filter f a' = a ∧ f x = true.
Proof.
  revert a. induction l as [|y l IH]; intros a; simpl; [by destruct a|]. destruct (f y) eqn:E.
  - destruct a as [|z a]; intros [= -> El].
    + exists [], l. done.
    + apply IH in El as (a' & b' & -> & <- & Hx). exists (z :: a'), b'. simpl. by rewrite E.
  - intros (a' & b' & -> & <- & Hx)%IH. exists (y :: a'), b'. simpl. by rewrite E.
Qed.

Lemma nodup_split_inj {A} (a b c d : list A) x : NoDup (a ++ x :: b) → a ++ x :: b = c ++ x :: d → a = c.
Proof.
  intros Hnd E. assert (Hnd' := Hnd). rewrite E in Hnd'. apply NoDup_app in Hnd as (_ & H1 & _), Hnd' as (_ & H2 & _).
  apply (app_inv_mid (λ y, y ≠ x)) in E as [-> _]; [done| | |].
  - apply Forall_forall. intros y Hy ->. apply (H1 x Hy). by left.
  - apply Forall_forall. intros y Hy ->. apply (H2 x Hy). by left.
  - auto.
Qed.

Lemma in_sections_option pkg ss p s o : word pkg → Forall word ss → name p → name s → name o →
  in_sections pkg ss (option_key p s o) = in_sections pkg ss (section_key p s).
Proof.
  intros Hk Hs Hp Hn Ho. unfold in_sections. induction Hs as [|x ss Hx _ IH]; simpl; [done|]. rewrite IH. f_equal.
  apply eq_true_iff_eq. rewrite in_section_option, in_section_section by eauto with uci. done.
Qed.

Lemma without_sections_sectioned pkg u ss : word pkg → Forall word ss → sectioned u → sectioned (without_sections pkg u ss).
Proof.
  intros Hk Hs [W T B]. split.
  - rewrite without_sections_keys. rewrite Forall_forall in *. intros k.
    rewrite list_elem_of_In, filter_In, <- list_elem_of_In. intros [H _]. by apply W.
  - intros p s v Hp Hsn. rewrite without_sections_lookup. destruct (in_sections _ _ _); [done|]. by apply T.
  - intros a p s o b Hp Hsn Ho. rewrite without_sections_keys. intros (a' & b' & E & <- & Hx)%filter_split.
    rewrite list_elem_of_In, filter_In, <- list_elem_of_In. split; [by eapply B|].
    by rewrite in_sections_option in Hx by eauto with uci.
Qed.

Lemma write_section_sectioned p s t opts u :
  word p → word s → t ≠ [] → Forall word (map fst opts) → NoDup (map fst opts) → wf u → sectioned u →
  fresh_section u p s → sectioned (write_section p u s t opts).
Proof.
  intros Hp Hs Ht Ho Hnd Hu [W T B] Hfr.
  assert (Hon : Forall name (map fst opts)) by (eapply Forall_impl; [done|]; intros; by apply word_name).
  destruct (write_section_spec p s t opts u) as (Hw & K & ST & V & N & _); [eauto with uci..|].
  split.
  - rewrite K. apply Forall_app. split; [done|]. constructor; [by constructor|].
    rewrite Forall_forall in *. intros k (o & -> & Hin)%list_elem_of_fmap. apply kw_option; auto.
  - intros p' s' v Hp' Hs'. destruct (decide ((p', s') = (p, s))) as [[= -> ->]|Hne]; [rewrite ST; intros [= <-]; eauto|].
    rewrite N; [by apply T|]. apply not_true_iff_false. rewrite in_section_section by eauto with uci. naive_solver.
  - intros a p' s' o' b Hp' Hs' Ho' E. pose proof (wf_nodup _ Hw) as Hn. rewrite E in Hn.
    assert (Hin : option_key p' s' o' ∈ keys (write_section p u s t opts)) by (rewrite E; set_solver).
    rewrite K in Hin. apply elem_of_app in Hin as [(a0 & b0 & E0)%list_elem_of_split|Hin].
    + assert (a = a0) as ->; [|by eapply B].
      eapply nodup_split_inj; [exact Hn|]. rewrite <- E, K, E0, <- app_assoc. done.
    + apply elem_of_cons in Hin as [E1|Hin]; [symmetry in E1; apply section_option_key in E1; eauto with uci; done|].
      assert (p' = p ∧ s' = s) as [-> ->].
      { apply list_elem_of_fmap in Hin as (o & E1 & Hoin). rewrite Forall_forall in Hon.
        apply option_key_inj in E1 as (-> & -> & _); eauto with uci. }
      apply list_elem_of_split in Hin as (a0 & b0 & E0).
      assert (a = keys u ++ section_key p s :: a0) as ->; [|set_solver].
      eapply nodup_split_inj; [exact Hn|]. rewrite <- E, K, E0, <- app_assoc. done.
Qed.

Lemma sectioned_shaped u : sectioned u → shaped u.
Proof.
  intros Hs. eapply Forall_impl; [apply (sec_words _ Hs)|].
  intros k [p s Hp Hw|p s o Hp Hw Ho]; [apply shape_section|apply shape_option]; eauto with uci.
Qed.

(** Every option has its section, so a section without its own key is fresh. *)
Lemma sectioned_fresh u p s : sectioned u → word p → word s → section_key p s ∉ keys u → fresh_section u p s.
Proof.
  intros Hs Hp Hw Hn k Hk. apply not_true_iff_false. intros Hin.
  pose proof (sec_words _ Hs) as Hkw. rewrite Forall_forall in Hkw. destruct (Hkw k Hk) as [p' s' Hp' Hs'|p' s' o' Hp' Hs' Ho'].
  - apply in_section_section in Hin as [-> ->]; eauto with uci.
  - apply in_section_option in Hin as [-> ->]; eauto with uci. apply list_elem_of_split in Hk as (a & b & E).
    apply Hn. rewrite E. apply elem_of_app. left. by eapply (sec_before _ Hs).
Qed.

(** *** Several sections *)
Definition rec_name (r : section_rec) : jstr := r.1.1.
Definition rec_type (r : section_rec) : jstr := r.1.2.
Definition rec_opts (r : section_rec) : list (jstr * jstr) := r.2.

Definition rec_ok (r : section_rec) : Prop :=
  word (rec_name r) ∧ rec_type r ≠ [] ∧ Forall word (map fst (rec_opts r)) ∧ NoDup (map fst (rec_opts r)).

(** What is written of a section. *)
Definition holds_rec (p : jstr) (u : UCIContainer) (r : section_rec) : Prop :=
  (∀ o v, (o, v) ∈ rec_opts r → get u p (rec_name r) o = UStr v) ∧
  (∀ o, name o → o ∉ map fst (rec_opts r) → get u p (rec_name r) o = UStr []).

Definition names_of_type (type : jstr) (l : list section_rec) : list jstr :=
  map rec_name (List.filter (λ r, rec_type r =s type) l).

Section several.
Context (p : jstr).
Hypothesis (Hp : word p).

Lemma write_fresh u s t opts s' : word s → word s' → s' ≠ s → Forall word (map fst opts) → NoDup (map fst opts) → wf u →
  fresh_section u p s → fresh_section u p s' → fresh_section (write_section p u s t opts) p s'.
Proof.
  intros Hs Hs' Hne Ho Hnd Hu Hf Hf' k.
  assert (Hon : Forall name (map fst opts)) by (eapply Forall_impl; [done|]; intros; by apply word_name).
  destruct (write_section_spec p s t opts u) as (_ & -> & _); [eauto with uci..|].
  rewrite elem_of_app, elem_of_cons. intros [Hk|[->|Hk]]; [by apply Hf'|..]; apply not_true_iff_false.
  - rewrite in_section_section by eauto with uci. naive_solver.
  - apply list_elem_of_fmap in Hk as (o & -> & Hin). rewrite Forall_forall in Hon.
    rewrite in_section_option by eauto with uci. naive_solver.
Qed.

Lemma write_sections_spec l u : Forall rec_ok l → NoDup (map rec_name l) → wf u → sectioned u →
  Forall (λ r, section_key p (rec_name r) ∉ keys u) l →
  let u' := write_sections p u l in
  wf u' ∧ sectioned u' ∧
  (∀ type ss, getAllSectionsOfType u p type = Ret ss → getAllSectionsOfType u' p type = Ret (ss ++ names_of_type type l)) ∧
  Forall (holds_rec p u') l ∧
  (∀ p' s o, name p' → name s → o = [] ∨ name o → (p' = p → s ∉ map rec_name l) → get u' p' s o = get u p' s o).
Proof.
  intros Hok Hnd Hu Hsu Hfr.
  assert (Hf : Forall (λ r, fresh_section u p (rec_name r)) l).
  { eapply Forall_impl; [apply Forall_and; split; [exact Hok|exact Hfr]|]. intros r [Hr Hn].
    apply sectioned_fresh; [done|done|apply Hr|done]. }
  clear Hfr. unfold write_sections. revert u Hu Hsu Hf.
  induction Hok as [|[[s t] opts] l (Hs & Ht & Ho & Hno) Hok IH]; intros u Hu Hsu Hf; cbv zeta.
  { simpl. split_and!; [done|done| |done|done]. intros type ss ->. by rewrite app_nil_r. }
  cbn [map rec_name rec_type rec_opts fst snd] in *. apply NoDup_cons in Hnd as [Hnin Hnd].
  apply Forall_cons in Hf as [Hf1 Hf]. cbn [rec_name fst] in Hf1.
  set (u1 := write_section p u s t opts).
  assert (Hon : Forall name (map fst opts)) by (eapply Forall_impl; [done|]; intros; by apply word_name).
  assert (Hu1 : wf u1) by (apply write_section_spec; eauto with uci).
  assert (Hs1 : sectioned u1) by (apply write_section_sectioned; done).
  assert (Hf' : Forall (λ r, fresh_section u1 p (rec_name r)) l).
  { rewrite Forall_forall in *. intros r Hr. apply write_fresh; [done|by apply Hok| |done|done|done|done|by apply Hf].
    intros E. apply Hnin. rewrite <- E. by apply list_elem_of_fmap_2. }
  destruct (IH Hnd u1 Hu1 Hs1 Hf') as (W & S & Q & H & N). cbn [fold_left]. fold u1. split_and!; [done|done| | |].
  - intros type ss Hq. rewrite (Q type (ss ++ if bool_decide (t = type) then [s] else [])).
    + f_equal. rewrite <- app_assoc. f_equal. unfold names_of_type. cbn [List.filter].
      change (rec_type (s, t, opts)) with t. unfold str_eqb at 2. case_bool_decide; done.
    + apply write_section_query; eauto using sectioned_shaped with uci.
  - constructor; [|done]. assert (Hg : ∀ o, name o → get (fold_left (λ u '(s, t, opts), write_section p u s t opts) l u1) p s o = get u1 p s o).
    { intros o Hno'. apply N; eauto with uci. }
    split; cbn [rec_opts rec_name fst snd].
    + intros o v Hin. rewrite Hg.
      * by apply write_section_get; eauto with uci.
      * rewrite Forall_forall in Hon. apply Hon. by apply (list_elem_of_fmap_2' fst _ (o, v) o).
    + intros o Hno' Hin. rewrite Hg by done. apply write_section_get_none; eauto with uci.
  - intros p' s' o Hp' Hs' Ho' Hne. rewrite N by set_solver. apply write_section_get_other; eauto with uci.
    intros [= -> ->]. apply Hne; [done|]. by left.
Qed.

(** A loop that writes a section for each row. *)
Lemma write_rows {A B} (save : UCIContainer → nat * B → exn UCIContainer) (rec : nat → A → section_rec) (shows : A → B → Prop) rs D u :
  (∀ u i r d, shows r d → save u (i, d) = Ret (write_section p u (rec_name (rec i r)) (rec_type (rec i r)) (rec_opts (rec i r)))) →
  Forall2 shows rs D →
  exn_fold save (imap (λ i x, (i, x)) D) u = Ret (write_sections p u (imap rec rs)).
Proof.
  intros Hsave HD. unfold write_sections.
  cut (∀ k, exn_fold save (imap (λ i x, (k + i, x)%nat) D) u =
    Ret (fold_left (λ u '(s, t, o), write_section p u s t o) (imap (λ i, rec (k + i)%nat) rs) u)).
  { intros H. exact (H 0%nat). }
  revert u. induction HD as [|r d rs D Hd _ IH]; intros u k; [done|]. cbn [imap exn_fold fold_left]. rewrite Nat.add_0_r.
  rewrite (Hsave _ _ r) by done. cbn [exn_bind]. destruct (rec k r) as [[s t] o] eqn:E. cbn [rec_name rec_type rec_opts fst snd].
  specialize (IH (write_section p u s t o) (S k)).
  erewrite (imap_ext _ (λ i x, (S k + i, x)%nat) D), (imap_ext _ (λ i, rec (S k + i)%nat) rs); [exact IH|..];
    intros i x _; simpl; by rewrite Nat.add_succ_r.
Qed.

End several.

(** Options of which the empty ones are not written. *)
Definition given (entries : list (jstr * jstr)) : list (jstr * jstr) := List.filter (λ ov, negb (ov.2 =s [])) entries.

Lemma given_sub entries : map fst (given entries) `sublist_of` map fst entries.
Proof.
  induction entries as [|[o v] l IH]; [constructor|]. unfold given. cbn [List.filter snd map fst]. destruct (negb _); by constructor.
Qed.

Lemma given_ok entries : Forall word (map fst entries) → NoDup (map fst entries) →
  Forall word (map fst (given entries)) ∧ NoDup (map fst (given entries)).
Proof.
  intros Hw Hn. split; [|by eapply sublist_NoDup; [|apply given_sub]]. rewrite Forall_forall in *. intros o Ho. apply Hw.
  by eapply elem_of_sublist; [|apply given_sub].
Qed.

Lemma given_fold p s entries u :
  fold_left (λ u ov, if ov.2 =s [] then u else set u p s ov.1 (UStr ov.2) false) entries u =
  fold_left (λ u ov, set u p s ov.1 (UStr ov.2) false) (given entries) u.
Proof.
  revert u. induction entries as [|[o v] l IH]; intros u; [done|]. unfold given. cbn [fold_left List.filter fst snd].
  destruct (v =s []); cbn [negb]; apply IH.
Qed.

(** All of them are read back. *)
Lemma given_read p u s t entries : holds_rec p u (s, t, given entries) → Forall word (map fst entries) → NoDup (map fst entries) →
  ∀ o v, (o, v) ∈ entries → get u p s o = UStr v.
Proof.
  intros [Hv Hn] Hw Hnd o v Hin. cbn [rec_opts rec_name fst snd] in Hv, Hn. destruct (v =s []) eqn:E.
  - apply str_eqb_eq in E as ->. apply Hn.
    + rewrite Forall_forall in Hw. apply word_name, Hw. by apply (list_elem_of_fmap_2' fst _ (o, []) o).
    + intros Ho. apply list_elem_of_fmap in Ho as ([o' v] & -> & Hg). cbn [fst] in Hin.
      apply list_elem_of_In, filter_In in Hg as [Hg%list_elem_of_In Hne]. assert (v = []) as ->; [|done].
      clear -Hnd Hin Hg. induction entries as [|[o v'] l IH]; [set_solver|]. cbn [map fst] in Hnd. apply NoDup_cons in Hnd as [Hni Hnd].
      apply elem_of_cons in Hin. apply elem_of_cons in Hg.
      assert (Hfst : ∀ w, (o', w) ∈ l → o' ∈ map fst l) by (intros w ?; by apply (list_elem_of_fmap_2' fst _ (o', w) o')).
      destruct Hin as [Hin|Hin], Hg as [Hg|Hg]; simplify_eq; [done|by destruct Hni; eapply Hfst..|by apply IH].
  - apply Hv. apply list_elem_of_In, filter_In. split; [by apply list_elem_of_In|]. cbn [snd]. by rewrite E.
Qed.

(** *** Queries *)
Lemma query_elem pkg u type ss s : word pkg → shaped u → pkg_unambiguous u pkg → name s →
  getAllSectionsOfType u pkg type = Ret ss → s ∈ ss ↔ section_key pkg s ∈ keys u ∧ value_is u (section_key pkg s) type = true.
Proof.
  intros Hp Hsh Ha Hs. rewrite getAllSectionsOfType_hits by done. intros [= <-]. rewrite list_elem_of_fmap. split.
  - intros (k & -> & Hk). rewrite list_elem_of_In, filter_In, <- list_elem_of_In in Hk. destruct Hk as [Hk Hv].
    apply query_hits_shape in Hk as (s' & Hs' & -> & Hk); [|done..]. by rewrite sec_name_key by eauto with uci.
  - intros [Hk Hv]. exists (section_key pkg s). rewrite sec_name_key by eauto with uci. split; [done|].
    rewrite list_elem_of_In, filter_In, <- list_elem_of_In. split; [|done]. by apply query_hits_exact.
Qed.

Lemma query_nodup pkg u type ss : word pkg → wf u → shaped u → pkg_unambiguous u pkg →
  getAllSectionsOfType u pkg type = Ret ss → NoDup ss.
Proof.
  intros Hp Hwf Hsh Ha. rewrite getAllSectionsOfType_hits by done. intros [= <-]. apply NoDup_fmap_2_strong.
  - intros k k'. rewrite !list_elem_of_In, !filter_In, <- !list_elem_of_In. intros [Hk _] [Hk' _].
    apply query_hits_shape in Hk as (s & Hs & -> & _); [|done..]. apply query_hits_shape in Hk' as (s' & Hs' & -> & _); [|done..].
    by rewrite !sec_name_key by eauto with uci; intros ->.
  - apply NoDup_ListNoDup, List.NoDup_filter. unfold query_hits. apply List.NoDup_filter, NoDup_ListNoDup, Hwf.
Qed.

(** All sections of a package. *)
Lemma all_sections pkg u : word pkg → wf u → shaped u → pkg_unambiguous u pkg →
  ∃ ss, getAllSections u pkg = Ret ss ∧ NoDup ss ∧ Forall name ss ∧ ∀ s, name s → s ∈ ss ↔ get u pkg s [] ≠ UStr [] ∨ section_key pkg s ∈ keys u.
Proof.
  intros Hp Hwf Hsh Ha. rewrite getAllSections_hits by done. eexists. split; [done|].
  assert (Hin : ∀ k, k ∈ query_hits u pkg → ∃ s, name s ∧ k = section_key pkg s ∧ k ∈ keys u) by (intros k Hk; by apply query_hits_shape in Hk).
  split_and!.
  - apply NoDup_fmap_2_strong; [|unfold query_hits; apply NoDup_ListNoDup, List.NoDup_filter, NoDup_ListNoDup, Hwf].
    intros k k' Hk Hk'. apply Hin in Hk as (s & Hs & -> & _), Hk' as (s' & Hs' & -> & _). rewrite !sec_name_key by eauto with uci. congruence.
  - apply Forall_forall. intros s (k & -> & Hk)%list_elem_of_fmap. apply Hin in Hk as (s & Hs & -> & _). by rewrite sec_name_key by eauto with uci.
  - intros s Hs. rewrite list_elem_of_fmap. split.
    + intros (k & -> & Hk). apply Hin in Hk as (s' & Hs' & -> & Hk). rewrite sec_name_key by eauto with uci. by right.
    + intros Hk. exists (section_key pkg s). rewrite sec_name_key by eauto with uci. split; [done|]. apply query_hits_exact; [done..|].
      destruct Hk as [Hk|Hk]; [|done]. apply (wf_dom _ Hwf). unfold get in Hk. rewrite next_key_section in Hk. by destruct (values u !! _).
Qed.

(** The sections of two types removed, one type after the other. *)
Lemma pop_two pkg t1 t2 u ss1 ss2 : word pkg → wf u → sectioned u → pkg_unambiguous u pkg → t1 ≠ t2 →
  getAllSectionsOfType u pkg t1 = Ret ss1 → getAllSectionsOfType u pkg t2 = Ret ss2 →
  let u1 := without_sections pkg u (rev ss1) in
  let u2 := without_sections pkg u (rev ss1 ++ rev ss2) in
  Forall word (rev ss1 ++ rev ss2) ∧
  pop_sections pkg t1 u = Ret (u1, map (λ s, cmd_del (section_key pkg s)) (rev ss1)) ∧
  pop_sections pkg t2 u1 = Ret (u2, map (λ s, cmd_del (section_key pkg s)) (rev ss2)) ∧
  getAllSectionsOfType u2 pkg t1 = Ret [] ∧ getAllSectionsOfType u2 pkg t2 = Ret [].
Proof.
  intros Hp Hu Hs Ha Hne Q1 Q2 u1 u2. pose proof (sectioned_shaped u Hs) as Hsh.
  assert (W1 : Forall word ss1) by (eapply query_names; eauto using sec_words).
  assert (W2 : Forall word ss2) by (eapply query_names; eauto using sec_words).
  assert (Hsh1 : shaped u1) by (by apply without_sections_shaped). assert (Hu1 : wf u1) by (by apply without_sections_wf).
  assert (Ha1 : pkg_unambiguous u1 pkg).
  { eapply unambiguous_sublist; [|done]. unfold u1. rewrite without_sections_keys.
    intros k. rewrite list_elem_of_In, filter_In, <- list_elem_of_In. naive_solver. }
  assert (E2 : u2 = without_sections pkg u1 (rev ss2)) by (unfold u1, u2, without_sections; by rewrite fold_left_app).
  assert (R11 : getAllSectionsOfType u1 pkg t1 = Ret []).
  { unfold u1. rewrite (removed_query pkg Hp t1 t1 u ss1 ss1) by done. by rewrite bool_decide_eq_true_2. }
  assert (R12 : getAllSectionsOfType u1 pkg t2 = Ret ss2).
  { unfold u1. rewrite (removed_query pkg Hp t1 t2 u ss1 ss2) by done. by rewrite bool_decide_eq_false_2. }
  split_and!.
  - apply Forall_app. split; by apply Forall_rev.
  - by apply pop_sections_spec.
  - rewrite E2. by apply pop_sections_spec.
  - rewrite E2, (removed_query pkg Hp t2 t1 u1 ss2 []) by done. by case_bool_decide.
  - rewrite E2, (removed_query pkg Hp t2 t2 u1 ss2 ss2) by done. by rewrite bool_decide_eq_true_2.
Qed.

End complete.

(** ** On the router *)
Section router.
Context `{PosixShell, UciBackend}.

(** The commands that remove sections, a commit, and the script to the new
    settings leave the new settings on the router. *)
Lemma removal_and_script pkg ss u u' st :
  word pkg → Forall word ss → wf u → sectioned u → wf u' → sectioned u' → (∀ k, view st k = config u k) →
  ∀ k, view (run_script (join newline (map (λ s, cmd_del (section_key pkg s)) ss ++ [cmd_commit]
              ++ script_lines u' (without_sections pkg u ss))) st) k = config u' k.
Proof.
  intros Hk Hs Hu Hsu Hu' Hsu' Hst k. set (u1 := without_sections pkg u ss).
  assert (Hw1 : wf u1) by (by apply without_sections_wf). assert (Hs1 : sectioned u1) by (by apply without_sections_sectioned).
  unfold run_script.
  rewrite (sh_spec _ (map argv_del (map (section_key pkg) ss) ++ [argv_commit] ++ script_argvs u' u1)).
  - rewrite !fold_left_app. simpl.
    set (st1 := run argv_commit _).
    rewrite <- (run_script_argvs u' u1 st1) by (by apply sec_words). apply script_result; [done..|].
    intros k'. unfold st1. rewrite run_commit, run_dels.
    2:{ apply Forall_map. eapply Forall_impl; [done|]. intros s Hw. by apply kw_section. }
    rewrite Hst. unfold config, u1. rewrite without_sections_lookup. unfold in_sections.
    replace (existsb (λ d, clears d k') (map (section_key pkg) ss)) with (existsb (λ s, in_section pkg s k') ss).
    + by destruct (existsb _ ss).
    + clear -Hs Hk. induction Hs as [|s ss Hw _ IH]; simpl; [done|]. by rewrite IH, clears_section.
  - by destruct ss.
  - apply Forall2_app; [|apply Forall2_app].
    + clear -Hs Hk. induction Hs as [|s ss Hw _ IH]; simpl; [constructor|]. constructor; [|done].
      apply renders_del. by apply kw_section.
    + constructor; [apply renders_commit|constructor].
    + apply script_renders; by apply sec_words.
Qed.

End router.

(** ** Concrete configurations *)
Section concrete.

Lemma one_package_unambiguous pkg u : name pkg → Forall (λ k, is_prefix (pkg ++ [46]) k = true) (keys u) → pkg_unambiguous u pkg.
Proof.
  intros Hpkg H p s Hk Hp Hs _. rewrite Forall_forall in H. apply H, is_prefix_iff in Hk as [t Et].
  unfold section_key in Et. change (js "." ++ s) with (46 :: s) in Et. rewrite <- app_assoc in Et.
  apply (app_inv_mid (λ c, c ≠ 46) p s pkg t 46) in Et as [-> _]; [done| | |auto];
    apply Forall_forall; intros c Hc ->; [by apply Hp|by apply Hpkg].
Qed.

Lemma write_sections_wf p l u : wf u → wf (write_sections p u l).
Proof.
  unfold write_sections. revert u. induction l as [|[[s t] o] l IH]; intros u Hu; simpl; [done|]. apply IH.
  unfold write_section. assert (Hw : wf (set u p s [] (UStr t) false)) by (by apply set_wf).
  revert Hw. generalize (set u p s [] (UStr t) false). clear. induction o as [|x o IH]; intros u Hu; simpl; [done|].
  by apply IH, set_wf.
Qed.

Lemma simple_store_config u : map_Forall (λ _ v, obs v = v) (values u) → ∀ k, @view SimpleStore.store (values u) k = config u k.
Proof.
  intros Hs k. unfold config. simpl. unfold SimpleStore.view. destruct (values u !! k) as [v|] eqn:E; [|done].
  simpl. symmetry. by apply (Hs k v).
Qed.

End concrete.

(** ** One option, one section *)
Section one_package.
Context (p : jstr).
Hypothesis (Hp : name p).

Lemma set_get_other u s o v s' o' : name s → o = [] ∨ name o → name s' → o' = [] ∨ name o' → (s, o) ≠ (s', o') →
  get (set u p s o v false) p s' o' = get u p s' o'.
Proof.
  intros Hs Ho Hs' Ho' Hne. rewrite get_set_key, bool_decide_eq_false_2; [done|].
  intros E. apply next_key_inj in E as (_ & -> & ->); auto.
Qed.

Lemma set_get_same u s o v : next_key p s o ∉ listOptions u → get (set u p s o (UStr v) false) p s o = UStr v.
Proof. intros H. rewrite get_set_key, bool_decide_eq_true_2, bool_decide_eq_false_2; done. Qed.

Lemma remove_get_other u s o s' o' : wf u → name s → o = [] ∨ name o → name s' → o' = [] ∨ name o' → (s, o) ≠ (s', o') →
  get (fst (remove u p s o)) p s' o' = get u p s' o'.
Proof.
  intros Hu Hs Ho Hs' Ho' Hne. rewrite remove_spec by done. unfold get. simpl. rewrite lookup_delete_ne; [done|].
  intros E. apply next_key_inj in E as (_ & -> & ->); auto.
Qed.

Lemma without_get u s x o : name s → name x → o = [] ∨ name o →
  get (without_section u p s) p x o = if decide (x = s) then UStr [] else get u p x o.
Proof.
  intros Hs Hx Ho. unfold get. simpl. assert (Hk : in_section p s (next_key p x o) = true ↔ x = s).
  { destruct Ho as [->|Ho].
    - rewrite next_key_section, in_section_section by done. naive_solver.
    - rewrite next_key_option by apply Ho. rewrite in_section_option by done. naive_solver. }
  destruct (decide (x = s)) as [Hxs|Hxs].
  - replace (filter _ (values u) !! next_key p x o) with (@None uval); [done|]. symmetry. apply map_lookup_filter_None. right.
    intros v _ Hf. simpl in Hf. rewrite (proj2 Hk Hxs) in Hf. done.
  - f_equal. assert (Hf : in_section p s (next_key p x o) = false) by (apply not_true_iff_false; by rewrite Hk).
    destruct (values u !! next_key p x o) as [v|] eqn:Ev; [by apply map_lookup_filter_Some|apply map_lookup_filter_None; auto].
Qed.

End one_package.

(** Of as many numbered names as there are keys and one more, one is free. *)
Lemma names_run_out p u pre n : wf u → 0 <= n →
  ∃ k, (k <= length (keys u))%nat ∧ get u p (pre ++ str_of_Z (n + Z.of_nat k)) [] = UStr [].
Proof.
  intros Hu Hn. set (l := map (λ k, section_key p (pre ++ str_of_Z (n + Z.of_nat k))) (seq 0 (S (length (keys u))))).
  assert (Hnd : NoDup l).
  { apply NoDup_fmap_2_strong; [|apply NoDup_seq]. intros a b _ _ E'. unfold section_key in E'.
    apply app_inv_head, app_inv_head, app_inv_head, str_of_Z_inj in E'; lia. }
  destruct (decide (Exists (λ k, get u p (pre ++ str_of_Z (n + Z.of_nat k)) [] = UStr []) (seq 0 (S (length (keys u)))))) as [He|Hne].
  { apply Exists_exists in He as (k & Hk%elem_of_seq & E). exists k. split; [lia|done]. }
  exfalso. assert (Hin : l ⊆ keys u).
  { intros k Hk. apply list_elem_of_fmap in Hk as (j & -> & Hj). apply (wf_dom _ Hu).
    destruct (values u !! section_key p _) as [v|] eqn:E; [by eexists|]. destruct Hne. apply Exists_exists. exists j. split; [done|].
    unfold get. rewrite next_key_section. by rewrite E. }
  pose proof (submseteq_length _ _ (NoDup_submseteq _ _ Hnd Hin)) as Hl. unfold l in Hl. rewrite length_map, length_seq in Hl. lia.
Qed.

(** ** Options of one section changed *)
Section changing.
Context (p : jstr).
Hypothesis (Hp : name p).

(** New keys of the package are harmless. *)
Lemma pkg_unambiguous_keys u u' : (∀ k, k ∈ keys u' → k ∈ keys u ∨ ∃ s o, name s ∧ (o = [] ∨ name o) ∧ k = next_key p s o) →
  pkg_unambiguous u p → pkg_unambiguous u' p.
Proof using Hp.
  intros Hk Ha p' s Hin Hp' Hs Ht. apply Hk in Hin as [Hin|(s' & o & Hs' & Ho & E)]; [by apply (Ha p' s)|].
  rewrite <-next_key_section in E. apply next_key_inj in E as (-> & _); auto.
Qed.

Lemma set_keys_in u s o v k : k ∈ keys (set u p s o v false) → k ∈ keys u ∨ k = next_key p s o.
Proof using Type. unfold set. destruct (values u !! _); simpl; [auto|]. rewrite elem_of_app, list_elem_of_singleton. auto. Qed.

(** The settings after the options [os] of the section were set or removed. *)
Record changes (sec : jstr) (os : list jstr) (u u' : UCIContainer) : Prop := {
  ch_wf : wf u';
  ch_shaped : shaped u';
  ch_own : pkg_unambiguous u' p;
  ch_lists : listOptions u' ⊆ listOptions u;
  ch_frame : ∀ s o, name s → o = [] ∨ name o → s ≠ sec ∨ o ∉ os → get u' p s o = get u p s o
}.

Context (sec : jstr) (os : list jstr) (u : UCIContainer).

Lemma changes_refl : wf u → shaped u → pkg_unambiguous u p → changes sec os u u.
Proof using Type. by split. Qed.

Lemma changes_set o v u' : name sec → o = [] ∨ name o → o ∈ os → changes sec os u u' → changes sec os u (set u' p sec o v false).
Proof using Hp.
  intros Hsec Ho Hin [H1 H2 H3 H4 H5]. split.
  - by apply set_wf.
  - by apply set_shaped; auto.
  - eapply pkg_unambiguous_keys; [|exact H3]. intros k [Hk| ->]%set_keys_in; [auto|right]. by exists sec, o.
  - by rewrite set_listOptions.
  - intros s' o' Hs' Ho' Hne. rewrite set_get_other; auto. intros [= -> ->]. naive_solver.
Qed.

Lemma changes_remove o u' : name sec → name o → o ∈ os → changes sec os u u' → changes sec os u (fst (remove u' p sec o)).
Proof using Hp.
  intros Hsec Ho Hin [H1 H2 H3 H4 H5]. split.
  - by apply remove_wf.
  - rewrite remove_spec by done. by apply remove_key_shaped.
  - rewrite remove_spec by done. eapply pkg_unambiguous_keys; [|exact H3]. intros k [Hk _]%filter_key_in. auto.
  - rewrite remove_spec by done. simpl. set_solver.
  - intros s' o' Hs' Ho' Hne. rewrite remove_get_other; auto. intros [= -> ->]. naive_solver.
Qed.

Lemma changes_trans u1 u2 : changes sec os u u1 → changes sec os u1 u2 → changes sec os u u2.
Proof using Type.
  clear Hp. intros [A1 A2 A3 A4 A5] [B1 B2 B3 B4 B5]. split; [done|done|done|set_solver|]. intros s o Hs Ho Hne. by rewrite B5, A5.
Qed.

Lemma changes_weaken os' u' : os ⊆ os' → changes sec os u u' → changes sec os' u u'.
Proof using Type. clear Hp. intros Hs [A1 A2 A3 A4 A5]. split; [done..|]. intros s o Hs' Ho Hne. apply A5; set_solver. Qed.

Lemma without_unambiguous s : pkg_unambiguous u p → pkg_unambiguous (without_section u p s) p.
Proof using Hp.
  apply pkg_unambiguous_keys. intros k Hk. left. cbn [without_section keys] in Hk.
  rewrite list_elem_of_In, filter_In, <-list_elem_of_In in Hk. apply Hk.
Qed.

End changing.
