(* ===== verification/Ip4.v ===== *)
(** * IPv4 arithmetic (common.js)

    Conversions between dotted addresses and integers, subnet ranges, address
    classes and masks.  A missing array element is [undefined]: its string
    conversions are those of the empty capture, its ToNumber is NaN. *)
From S2P Require Import Prelude JsNum JsString JsRegex.
Open Scope Z_scope.

Module Ip4.

(** ** getSubnetRange, rangeInSubnet *)

(** [masks] and [bits]. *)
Definition mask_bits : list (jstr * Z) :=
  [(js "255", 0); (js "254", 1); (js "252", 2); (js "248", 3); (js "240", 4);
   (js "224", 5); (js "192", 6); (js "128", 7); (js "0", 8)].

(** [nextBits] of one part of the mask; [None] is the -1 of the source. *)
Fixpoint find_bits (tbl : list (jstr * Z)) (part : jstr) : option Z :=
  match tbl with
  | [] => None
  | (m, b) :: tbl' => if m =s part then Some b else find_bits tbl' part
  end.

Fixpoint subnet_bits (parts : list jstr) (acc : Z) : option Z :=
  match parts with
  | [] => Some acc
  | p :: ps => match find_bits mask_bits p with
               | Some b => subnet_bits ps (acc + b)
               | None => None
               end
  end.

(** The loop that moves the subnet up to the address; the length is at least 1,
    so [testIpEnd] iterations are enough. *)
Fixpoint subnet_start (fuel : nat) (len testIpEnd start : Z) : Z :=
  match fuel with
  | O => start
  | S f => if start + len <? testIpEnd then subnet_start f len testIpEnd (start + len) else start
  end.

(** [None] is the empty array. *)
Definition getSubnetRange (mask ip : jstr) : option (Z * Z) :=
  let splitMask := split_char 46 mask in
  if negb (length splitMask =? 4)%nat then None
  else match subnet_bits splitMask 0 with
       | None => None
       | Some subnetBits =>
           let subnetLength := 2 ^ subnetBits in
           let testIpEnd := match split_char 46 ip !! 3%nat with Some p => parseInt p | None => NaN end in
           let subnetStart :=
             match testIpEnd with
             | Dec e _ => subnet_start (Z.to_nat e) subnetLength e 0
             | _ => 0
             end in
           Some (subnetStart, subnetStart + subnetLength - 1)
       end.

Definition rangeInSubnet (mask ip : jstr) (start end_ : Z) : bool :=
  match getSubnetRange mask ip with
  | Some (subnetStart, subnetEnd) => (subnetStart <=? start) && (end_ <=? subnetEnd)
  | None => false
  end.

(** ** parseIp, ipToStr, parseCidr *)

(** [+ip[i]]. *)
Definition part_num (l : list jstr) (i : nat) : num :=
  match l !! i with Some p => toNumber p | None => NaN end.

Definition parseIp (s : jstr) : num :=
  let ip := split_char 46 s in
  let d256 x y := Num.add (Num.mul x (Int 256)) y in
  d256 (d256 (d256 (part_num ip 0) (part_num ip 1)) (part_num ip 2)) (part_num ip 3).

Definition ipToStr (ip : num) : jstr :=
  str_of_Z (Num.shr ip (Int 24)) ++ js "."
  ++ str_of_Z (Num.band (Num.sar ip (Int 16)) 255) ++ js "."
  ++ str_of_Z (Num.band (Num.sar ip (Int 8)) 255) ++ js "."
  ++ str_of_Z (Num.band (Num.toInt32 ip) 255).

Definition re_digits : re := Eval vm_compute in rx "(\d+)".
Definition re_one : re := Eval vm_compute in rx "1".

Definition parseCidr (ip : jstr) : Z :=
  fold_left (fun cidr p =>
    cidr + zlen (match_all re_one (toStringRadix 2 (Num.shr (toNumber p) (Int 0)))))
    (match_all re_digits ip) 0.

(** ** Address classes *)
Definition ipInRange (ip start end_ : jstr) : bool :=
  Num.leb (parseIp start) (parseIp ip) && Num.leb (parseIp ip) (parseIp end_).

Definition ipInClassA (ip : jstr) := ipInRange ip (js "0.0.0.0") (js "127.255.255.255").
Definition ipInClassB (ip : jstr) := ipInRange ip (js "128.0.0.0") (js "191.255.255.255").
Definition ipInClassC (ip : jstr) := ipInRange ip (js "192.0.0.0") (js "223.255.255.255").
Definition ipInClassD (ip : jstr) := ipInRange ip (js "224.0.0.0") (js "239.255.255.255").
Definition ipInClassE (ip : jstr) := ipInRange ip (js "240.0.0.0") (js "255.255.255.255").
Definition ipInPrivateClassA (ip : jstr) := ipInRange ip (js "10.0.0.0") (js "10.255.255.255").
Definition ipInPrivateClassB (ip : jstr) := ipInRange ip (js "172.16.0.0") (js "172.31.255.255").
Definition ipInPrivateClassC (ip : jstr) := ipInRange ip (js "192.168.0.0") (js "192.168.255.255").
Definition ipInPrivate (ip : jstr) := ipInPrivateClassA ip || ipInPrivateClassB ip || ipInPrivateClassC ip.
Definition ipInLinkLocal (ip : jstr) := ipInRange ip (js "169.254.0.0") (js "169.254.255.255").
Definition ipInLocalhost (ip : jstr) := ipInRange ip (js "127.0.0.0") (js "127.255.255.255").

(** ** parsePaddedInt, getIpInteger, getMaskInteger, getIpRangeIntegers *)
Definition re_blanks : re := Eval vm_compute in rx "[\t ]+".
Definition re_zero : re := Eval vm_compute in rx "^0".
Definition re_minus_zero : re := Eval vm_compute in rx "^\-0".

(** Each turn removes a leading zero, so the length is enough fuel. *)
Fixpoint strip_zeros (fuel : nat) (s : jstr) : jstr :=
  match fuel with
  | O => s
  | S f =>
      if ((1 <? zlen s) && test re_zero s) || ((2 <? zlen s) && test re_minus_zero s)
      then strip_zeros f (replace re_minus_zero (js "-") (replace re_zero [] s))
      else s
  end.

Definition parsePaddedInt (intStr : jstr) : num :=
  let s := replace re_blanks [] intStr in
  parseInt (strip_zeros (length s) s).

Definition re_quad : re := Eval vm_compute in rx "^(\d+)\.(\d+)\.(\d+)\.(\d+)$".

Definition getIpInteger (ipStr : jstr) : num :=
  match exec re_quad ipStr with
  | Some ip =>
      Num.add (Num.add (Num.add
        (Int (Num.shl (parsePaddedInt (group 1 ip)) (Int 24)))
        (Int (Num.shl (parsePaddedInt (group 2 ip)) (Int 16))))
        (Int (Num.shl (parsePaddedInt (group 3 ip)) (Int 8))))
        (parsePaddedInt (group 4 ip))
  | None => NaN
  end.

Definition getMaskInteger (maskSize : jstr) : num :=
  Int (Num.shl (Int (-1)) (Num.sub (Int 32) (parsePaddedInt maskSize))).

Definition re_slash : re := Eval vm_compute in rx "\/".
Definition re_slash_split : re := Eval vm_compute in rx "[\t ]*\/[\t ]*".
Definition re_dot : re := Eval vm_compute in rx "\.".
Definition re_dash : re := Eval vm_compute in rx "-".
Definition re_dash_split : re := Eval vm_compute in rx "[\t ]*\-[\t ]*".

(** An element of a split string that is there when the separator is. *)
Definition nth_str (l : list jstr) (i : nat) : jstr := default [] (l !! i).

Definition getIpRangeIntegers (ipStr : jstr) : num * num :=
  if test re_slash ipStr then
    let split := split_re re_slash_split ipStr in
    let ipInt := getIpInteger (nth_str split 0) in
    let ipMaskInt := if test re_dot (nth_str split 1) then getIpInteger (nth_str split 1)
                     else getMaskInteger (nth_str split 1) in
    let startInt := Num.band (Num.toInt32 ipInt) (Num.toInt32 ipMaskInt) in
    (Int startInt, Int (Num.bor startInt (Num.bnot (Num.toInt32 ipMaskInt))))
  else if test re_dash ipStr then
    let split := split_re re_dash_split ipStr in
    (getIpInteger (nth_str split 0), getIpInteger (nth_str split 1))
  else (getIpInteger ipStr, getIpInteger ipStr).

End Ip4.
