(* ===== verification/Validate.v ===== *)
(** * Validators (common.js)

    The functions that check the text of a field and return 0 for a valid one
    and an error code otherwise, and the [proofread] functions that colour the
    field.  The order of the tests and the codes are those of the sources. *)
From S2P Require Import Prelude JsNum JsString JsRegex Ip4.
Import Ip4.
Open Scope Z_scope.

(** The part of an input element that the [proofread] functions use. *)
Record input_element := mkInput {
  in_value : jstr;
  in_disabled : bool;
  in_color : jstr
}.

Module Validate.

Definition re_ip : re := Eval vm_compute in rx "^(\d{1,3})\.(\d{1,3})\.(\d{1,3})\.(\d{1,3})$".

(** One turn of the loop of [validateIP] over the fields of the match. *)
Definition validateIP_field (ipFields : rmatch_result) (errorCode : Z) (field : nat) : Z :=
  let v := toNumber (group field ipFields) in
  let errorCode := if Num.gtb v (Int 255) then 4 else errorCode in
  if Num.eqb v (Int 255) && (field =? 4)%nat then 3 else errorCode.

Definition validateIP (address : jstr) : Z :=
  if address =s js "0.0.0.0" then 1
  else if address =s js "255.255.255.255" then 2
  else match exec re_ip address with
       | None => 5
       | Some ipFields => fold_left (validateIP_field ipFields) [1; 2; 3; 4]%nat 0
       end.

Definition re_colon : re := Eval vm_compute in rx ":".
Definition re_mac_field : re := Eval vm_compute in rx "^[0123456789ABCDEFabcdef]{2}$".

Fixpoint validateMac_loop (fields : list jstr) : Z :=
  match fields with
  | [] => 0
  | f :: fs => if negb (test re_mac_field f) then 1 else validateMac_loop fs
  end.

Definition validateMac (mac : jstr) : Z :=
  let macFields := split_re re_colon mac in
  if negb (length macFields =? 6)%nat then 2 else validateMac_loop macFields.

Definition re_all_digits : re := Eval vm_compute in rx "^[\d]+$".
Definition re_decimal1 : re := Eval vm_compute in rx "^[\d]*\.?[\d]+$".
Definition re_decimal2 : re := Eval vm_compute in rx "^[\d]+\.?[\d]*$".

Definition validateDecimal (n : jstr) : Z := if test re_decimal1 n || test re_decimal2 n then 0 else 1.
Definition validateNumeric (n : jstr) : Z := if negb (test re_all_digits n) then 1 else 0.

Definition validateNumericRange (n : jstr) (min max : Z) : Z :=
  let errorCode := if negb (test re_all_digits n) then 1 else 0 in
  let errorCode := if errorCode =? 0 then (if Num.ltb (toNumber n) (Int min) then 2 else 0) else errorCode in
  if errorCode =? 0 then (if Num.gtb (toNumber n) (Int max) then 3 else 0) else errorCode.

Definition validatePort (port : jstr) : Z := validateNumericRange port 1 65535.

Definition validatePortOrPortRange (ports : jstr) : Z :=
  if test re_dash ports then
    let splitPorts := split_re re_dash ports in
    if (2 <? length splitPorts)%nat then 5
    else
      let error1 := validateNumericRange (nth_str splitPorts 0) 1 65535 in
      let error2 := validateNumericRange (nth_str splitPorts 1) 1 65535 in
      let errorCode := error1 + 10 * error2 in
      if errorCode =? 0 then
        if Num.geb (Num.sub (toNumber (nth_str splitPorts 1)) (toNumber (nth_str splitPorts 0))) (Int 0)
        then 0 else 4
      else errorCode
  else validateNumericRange ports 1 65535.

(** One turn of the loop of [validateNetMask]: (error code, previous field). *)
Definition mask_values : list Z := [255; 254; 252; 248; 240; 224; 192; 128; 0].
Definition validateNetMask_field (ipFields : rmatch_result) (st : Z * num) (field : nat) : Z * num :=
  let '(errorCode, previousField) := st in
  let v := toNumber (group field ipFields) in
  let errorCode := if Num.gtb v (Int 255) then 3 else errorCode in
  let errorCode :=
    if Num.ltb previousField (Int 255) && negb (Num.eqb v (Int 0)) && (errorCode <? 2) then 2 else errorCode in
  let errorCode :=
    if forallb (fun m => negb (Num.eqb v (Int m))) mask_values && (errorCode <? 1) then 1 else errorCode in
  (errorCode, v).

Definition validateNetMask (mask : jstr) : Z :=
  match exec re_ip mask with
  | None => 4
  | Some ipFields => fst (fold_left (validateNetMask_field ipFields) [1; 2; 3; 4]%nat (0, Int 255))
  end.

Definition validateIpRange (range : jstr) : Z :=
  if 0 <? indexOf range (js "/") then
    match split_char 47 range with
    | [a; m] =>
        let ipValid := validateIP a in
        let maskValid := if (validateNetMask m =? 0) || (validateNumericRange m 1 31 =? 0) then 0 else 1 in
        if (ipValid =? 0) && (maskValid =? 0) then 0 else 1
    | _ => 1
    end
  else validateIP range.

Definition re_lead_blanks : re := Eval vm_compute in rx "^[\t ]+".
Definition re_trail_blanks : re := Eval vm_compute in rx "[\t ]+$".
Definition re_comma_split : re := Eval vm_compute in rx "[\t ]*,[\t ]*".
Definition re_dash_split' : re := Eval vm_compute in rx "[\t ]*-[\t ]*".

Definition strip_blanks (s : jstr) : jstr := replace_all re_trail_blanks [] (replace_all re_lead_blanks [] s).

(** [while(valid == 0 && split.length > 0)]: the elements are taken from the end
    of the array, so the list is the array reversed. *)
Fixpoint validate_popped (check : jstr → Z) (l : list jstr) : Z :=
  match l with
  | [] => 0
  | x :: l' => let valid := check x in if valid =? 0 then validate_popped check l' else valid
  end.

(** A range "a-b" of addresses. *)
Definition validate_dash_range (nextIp : jstr) : Z :=
  match split_re re_dash_split' nextIp with
  | [a; b] =>
      if (validateIP a =? 0) && (validateIP b =? 0)
      then (if Num.leb (getIpInteger a) (getIpInteger b) then 0 else 1)
      else 1
  | _ => 1
  end.

Definition validateMultipleIps_one (nextIp : jstr) : Z :=
  if test re_dash nextIp then validate_dash_range nextIp else validateIpRange nextIp.

Definition validateMultipleIps (ips : jstr) : Z :=
  let splitIps := split_re re_comma_split (strip_blanks ips) in
  match splitIps with
  | [] => 1
  | _ => validate_popped validateMultipleIps_one (rev splitIps)
  end.

Definition validateMultipleIpsOrMacs (addresses : jstr) : Z :=
  let splitAddr := split_re re_comma_split (strip_blanks addresses) in
  match splitAddr with
  | [] => 1
  | _ =>
      validate_popped (fun nextAddr =>
        if test re_dash nextAddr then validate_dash_range nextAddr
        else if test re_colon nextAddr then validateMac nextAddr
        else validateIpRange nextAddr) (rev splitAddr)
  end.

Definition validateLengthRange (text : jstr) (min max : Z) : Z :=
  let errorcode := if zlen text <? min then 1 else 0 in
  if max <? zlen text then 2 else errorcode.

Definition re_hex : re := Eval vm_compute in rx "^[0123456789AaBbCcDdEeFf]*$".
Definition validateHex (text : jstr) : Z := if negb (test re_hex text) then 1 else 0.

Definition validateSsid (ssid : jstr) : Z := validateLengthRange ssid 1 32.

Definition re_comma : re := Eval vm_compute in rx ",".
Definition re_hour : re := Eval vm_compute in rx "^[\t ]*([0-1]?[0-9]|2[0-3])(:[0-5][0-9])?[\t ]*$".

(** The pieces of a comma separated list. *)
Definition comma_pieces (s : jstr) : list jstr := if test re_comma s then split_re re_comma s else [s].

(** A piece "a-b" both ends of which match [r]. *)
Definition valid_interval (r : re) (piece : jstr) : bool :=
  match split_re re_dash piece with
  | [a; b] => test r a && test r b
  | _ => false
  end.

Definition validateHours (hoursStr : jstr) : Z :=
  if forallb (valid_interval re_hour) (comma_pieces hoursStr) then 0 else 1.

(** The names of the days come from the language pack ([UI.Sun] and so on). *)
Definition day_regex (days : list jstr) : option re :=
  parse_re (js "^[\t ]*(" ++ join (js "|") days
            ++ js ")[\t ]*([0-1]?[0-9]|2[0-3])(:[0-5]?[0-9])?(:[0-5]?[0-9])?[\t ]*$").

Definition validateWeeklyRange (days : list jstr) (weeklyStr : jstr) : exn Z :=
  let! valid := exn_fold (fun valid piece =>
    if negb valid then Ret valid
    else match split_re re_dash piece with
         | [a; b] =>
             let! dayReg := exn_of_option SyntaxError (day_regex days) in
             Ret (test dayReg a && test dayReg b)
         | _ => Ret false
         end) (comma_pieces weeklyStr) true in
  Ret (if valid then 0 else 1).

(** ** proofread: colour a field by its validity *)
Definition proofreadText (input : input_element) (proofFunction : jstr → Z) (validReturnCode : Z) : input_element :=
  if negb (in_disabled input)
  then mkInput (in_value input) (in_disabled input)
         (if proofFunction (in_value input) =? validReturnCode then [] else js "red")
  else input.

Definition resetProofreadText (input : input_element) : input_element :=
  mkInput (in_value input) (in_disabled input) [].

Definition proofreadSsid input := proofreadText input validateSsid 0.
Definition proofreadHours input := proofreadText input validateHours 0.
Definition proofreadWeeklyRange (days : list jstr) input : exn input_element :=
  if in_disabled input then Ret input
  else let! code := validateWeeklyRange days (in_value input) in Ret (proofreadText input (fun _ => code) 0).
Definition proofreadLengthRange input min max := proofreadText input (fun t => validateLengthRange t min max) 0.
Definition proofreadIp input := proofreadText input validateIP 0.
Definition proofreadMask input := proofreadText input validateNetMask 0.
Definition proofreadIpRange input := proofreadText input validateIpRange 0.
Definition proofreadMac input := proofreadText input validateMac 0.
Definition proofreadMultipleIps input := proofreadText input validateMultipleIps 0.
Definition proofreadMultipleIpsOrMacs input := proofreadText input validateMultipleIpsOrMacs 0.
Definition proofreadDecimal input := proofreadText input validateDecimal 0.
Definition proofreadNumeric input := proofreadText input validateNumeric 0.
Definition proofreadNumericRange input min max := proofreadText input (fun t => validateNumericRange t min max) 0.
Definition proofreadPort input := proofreadText input validatePort 0.
Definition proofreadPortOrPortRange input := proofreadText input validatePortOrPortRange 0.

End Validate.
