(* ===== verification/Ip4Facts.v ===== *)
(** * Properties of the IPv4 arithmetic *)
From S2P Require Import Prelude JsNum JsString JsRegex Ip4.
Import Ip4.
Open Scope Z_scope.

(** ** Dotted quads *)

(** A run of decimal digits. *)
Definition numeral (s : jstr) : Prop := s ≠ [] ∧ Forall (λ c, is_digit c = true) s.

Definition dotted (a b c d : jstr) : jstr := a ++ 46 :: b ++ 46 :: c ++ 46 :: d.

(** The address [a.b.c.d] as an integer. *)
Definition quad_val (a b c d : Z) : Z := ((a * 256 + b) * 256 + c) * 256 + d.

(** The expression of four captured runs of digits, of bounded length. *)
Definition quad_re (hi : option nat) : re :=
  let n := RRep 1 hi (RSet false [(48, 57)]) in
  RSeq RBol (seq_of [RGrp 1 n; RChr 46; RGrp 2 n; RChr 46; RGrp 3 n; RChr 46; RGrp 4 n; REol]).

Definition within (hi : option nat) (s : jstr) : Prop :=
  match hi with Some h => (length s ≤ h)%nat | None => True end.

Section quads.

Lemma numeral_no_dot s : numeral s → 46 ∉ s.
Proof. intros [_ H] Hin. rewrite Forall_forall in H. by specialize (H _ Hin). Qed.

Lemma numeral_no_dash s : numeral s → 45 ∉ s.
Proof. intros [_ H] Hin. rewrite Forall_forall in H. by specialize (H _ Hin). Qed.

Lemma mt_numeral hi pre w suf c c' :
  hi ≠ Some 0%nat →
  mt (RRep 1 hi (RSet false [(48, 57)])) pre w suf c c' ↔ numeral w ∧ within hi w ∧ c' = c.
Proof.
  intros Hhi. rewrite mt_rep_set_iff by (destruct hi as [[|]|]; [done|lia|done]).
  unfold numeral, within. setoid_rewrite in_set_digit. split.
  - intros (Hf & Hl & Hh & ->). split_and!; [by intros ->; simpl in Hl; lia|done|done|done].
  - intros ([Hn Hf] & Hh & ->). split_and!; [done| |done|done]. destruct w; [done|simpl; lia].
Qed.

Lemma numeral_dot_inj a b a' b' : numeral a → numeral a' → a ++ 46 :: b = a' ++ 46 :: b' → a = a' ∧ b = b'.
Proof.
  intros [_ Ha] [_ Ha']. apply (app_inv_mid (λ c, is_digit c = true)); done.
Qed.

Lemma dotted_inj a b c d a' b' c' d' :
  numeral a → numeral b → numeral c → numeral a' → numeral b' → numeral c' →
  dotted a b c d = dotted a' b' c' d' → a = a' ∧ b = b' ∧ c = c' ∧ d = d'.
Proof.
  unfold dotted. intros ? ? ? ? ? ? E.
  apply numeral_dot_inj in E as [-> E]; [|done..]. apply numeral_dot_inj in E as [-> E]; [|done..].
  by apply numeral_dot_inj in E as [-> ->].
Qed.

Lemma exec_quad_Some hi s m :
  hi ≠ Some 0%nat → exec (quad_re hi) s = Some m →
  ∃ a b c d, s = dotted a b c d ∧ Forall (λ x, numeral x ∧ within hi x) [a; b; c; d] ∧
    group 1 m = a ∧ group 2 m = b ∧ group 3 m = c ∧ group 4 m = d.
Proof.
  intros Hhi E. exists (group 1 m), (group 2 m), (group 3 m), (group 4 m).
  apply exec_bol_Some in E as (-> & _ & Hm). destruct m as [mp ms mo mc]. simpl in Hm.
  unfold group, cap. simpl. mt_inv.
  repeat match goal with H : mt (RRep 1 _ _) _ _ _ _ _ |- _ => apply mt_numeral in H as (? & ? & ?); [|done]; subst end.
  simpl. split_and!; [|by repeat (constructor; [done|])|done..].
  unfold dotted. by rewrite <- !app_assoc, !app_nil_r.
Qed.

Lemma exec_quad hi a b c d :
  hi ≠ Some 0%nat → Forall (λ x, numeral x ∧ within hi x) [a; b; c; d] →
  ∃ m, exec (quad_re hi) (dotted a b c d) = Some m ∧
    group 1 m = a ∧ group 2 m = b ∧ group 3 m = c ∧ group 4 m = d.
Proof.
  intros Hhi Hall. rewrite !Forall_cons in Hall. destruct Hall as ([Ha Ha'] & [Hb Hb'] & [Hc Hc'] & [Hd Hd'] & _).
  destruct (exec (quad_re hi) (dotted a b c d)) as [m|] eqn:E.
  - exists m. split; [done|]. apply exec_quad_Some in E as (a' & b' & c' & d' & E & Hall & -> & -> & -> & ->); [|done].
    rewrite !Forall_cons in Hall. destruct Hall as ([? _] & [? _] & [? _] & _).
    by apply dotted_inj in E as (-> & -> & -> & ->).
  - exfalso. eapply (proj1 (exec_bol_None _ _) E (a ++ [46] ++ b ++ [46] ++ c ++ [46] ++ d ++ []) []
      [(4%nat, d); (3%nat, c); (2%nat, b); (1%nat, a)]); [by rewrite !app_nil_r|].
    repeat (eapply mt_seq; [first [apply mt_grp; apply mt_numeral; done | by apply mt_chr_iff]|]).
    constructor.
Qed.

Lemma split_dotted a b c d :
  numeral a → numeral b → numeral c → numeral d → split_char 46 (dotted a b c d) = [a; b; c; d].
Proof.
  intros. unfold dotted. rewrite !split_char_app by (by apply numeral_no_dot).
  by rewrite split_char_none by (by apply numeral_no_dot).
Qed.

Lemma toNumber_numeral s : numeral s → toNumber s = Int (dec_val s).
Proof. intros [? ?]. by apply toNumber_digits. Qed.

Lemma dec_val_numeral s : numeral s → 0 <= dec_val s < 10 ^ zlen s.
Proof. intros [_ ?]. by apply dec_val_nonneg. Qed.

Lemma parseIp_dotted a b c d :
  numeral a → numeral b → numeral c → numeral d →
  parseIp (dotted a b c d) = Int (quad_val (dec_val a) (dec_val b) (dec_val c) (dec_val d)).
Proof.
  intros. unfold parseIp. rewrite split_dotted by done. unfold part_num. simpl lookup. cbn beta iota.
  rewrite !toNumber_numeral by done. by numsimpl.
Qed.

Lemma str_of_Z_numeral n : 0 <= n → numeral (str_of_Z n).
Proof. intros Hn. destruct (str_of_Z_digits n Hn) as (? & ? & _). done. Qed.

Lemma dec_val_str_of_Z n : 0 <= n → dec_val (str_of_Z n) = n.
Proof. intros Hn. by destruct (str_of_Z_digits n Hn) as (_ & _ & ?). Qed.

End quads.

(** ** parsePaddedInt *)
Section padded.

Lemma replace_none r t s : test r s = false → replace r t s = s.
Proof. unfold test, replace, replace_with. by destruct (exec r s). Qed.

Lemma test_blanks_numeral s : numeral s → test re_blanks s = false.
Proof.
  intros [_ Hs]. apply not_true_iff_false. rewrite test_search. intros (gap & w & suf & c & -> & Hm).
  apply mt_rep_set_iff in Hm as (Hf & Hl & _ & _); [|done].
  destruct w as [|x w]; [simpl in Hl; lia|]. inversion Hf as [|? ? Hx _]; subst.
  rewrite !Forall_app, Forall_cons in Hs. destruct Hs as (_ & (Hd & _) & _).
  unfold in_set, in_ranges, is_digit in *. simpl in Hx. lia.
Qed.

Lemma exec_zero x s : exec re_zero (x :: s) =
  if x =? 48 then Some {| m_pre := []; m_str := [x]; m_post := s; m_caps := [] |} else None.
Proof.
  unfold re_zero. rewrite exec_bol. change (RSet false [(48, 48)]) with (RSet false [(48, 48)]).
  rewrite exec_at_chr. destruct (x =? 48); [|done]. f_equal. f_equal. change (x :: s) with ([x] ++ s). apply take_app_diff.
Qed.

Lemma replace_zero s : replace re_zero [] (48 :: s) = s.
Proof. unfold replace, replace_with. by rewrite exec_zero. Qed.

Lemma test_minus_zero_digit x s : is_digit x = true → test re_minus_zero (x :: s) = false.
Proof.
  intros Hx. apply not_true_iff_false. intros (w & suf & c & E & Hm)%test_bol. by mt_inv; simplify_list_eq.
Qed.

Lemma strip_zeros_numeral fuel s :
  numeral s → numeral (strip_zeros fuel s) ∧ dec_val (strip_zeros fuel s) = dec_val s.
Proof.
  revert s; induction fuel as [|f IH]; intros s [Hn Hs]; [done|]. simpl.
  destruct s as [|x s]; [done|]. inversion Hs as [|? ? Hx Hs']; subst.
  rewrite (test_minus_zero_digit x s) by done. rewrite andb_false_r, orb_false_r.
  destruct ((1 <? zlen (x :: s)) && test re_zero (x :: s)) eqn:E; [|done].
  apply andb_true_iff in E as [E1 E2]. unfold test in E2. rewrite exec_zero in E2.
  destruct (Z.eqb_spec x 48) as [->|]; [|done].
  rewrite replace_zero.
  assert (Hs0 : numeral s). { split; [|done]. intros ->. done. }
  rewrite replace_none.
  2:{ destruct s as [|y s]; [done|]. inversion Hs'; subst. by apply test_minus_zero_digit. }
  destruct (IH s Hs0) as [H1 H2]. split; [done|]. rewrite H2. unfold dec_val. simpl map.
  rewrite digits_val_cons. lia.
Qed.

Lemma parsePaddedInt_numeral s : numeral s → parsePaddedInt s = Int (dec_val s).
Proof.
  intros Hs. unfold parsePaddedInt. rewrite replace_none by (by apply test_blanks_numeral).
  destruct (strip_zeros_numeral (length s) s Hs) as [[H1 H2] H3]. rewrite parseInt_digits by done. by rewrite H3.
Qed.

End padded.

(** ** Integers of addresses *)

(** Four octets. *)
Definition octets (a b c d : Z) : Prop :=
  0 <= a <= 255 ∧ 0 <= b <= 255 ∧ 0 <= c <= 255 ∧ 0 <= d <= 255.

Section integers.

Lemma quad_range a b c d : octets a b c d → 0 <= quad_val a b c d < 2 ^ 32.
Proof. unfold octets, quad_val. lia. Qed.

Lemma shl_int a k : 0 <= k < 32 → Num.shl (Int a) (Int k) = Num.signed32 (a * 2 ^ k).
Proof.
  intros Hk. unfold Num.shl. numsimpl. unfold Num.wrap32.
  rewrite (Z.mod_small k (2 ^ 32)) by lia. rewrite (Z.mod_small k 32) by lia.
  rewrite Z.shiftl_mul_pow2 by lia. destruct (signed32_congr a) as [j ->].
  unfold Num.signed32, Num.wrap32.
  replace ((a + j * 2 ^ 32) * 2 ^ k) with (a * 2 ^ k + (j * 2 ^ k) * 2 ^ 32) by ring.
  by rewrite Z.mod_add by lia.
Qed.

Lemma signed32_high z : 2 ^ 31 <= z < 2 ^ 32 → Num.signed32 z = z - 2 ^ 32.
Proof.
  intros H. unfold Num.signed32, Num.wrap32. rewrite Z.mod_small by lia.
  destruct (Z.ltb_spec z (2 ^ 31)); lia.
Qed.

Lemma signed32_cases z : 0 <= z < 2 ^ 32 → Num.signed32 z = if z <? 2 ^ 31 then z else z - 2 ^ 32.
Proof.
  intros H. destruct (Z.ltb_spec z (2 ^ 31)); [apply signed32_small; lia|apply signed32_high; lia].
Qed.

Lemma signed32_inj x y : 0 <= x < 2 ^ 32 → 0 <= y < 2 ^ 32 → Num.signed32 x = Num.signed32 y → x = y.
Proof.
  intros Hx Hy. rewrite !signed32_cases by done.
  destruct (Z.ltb_spec x (2 ^ 31)), (Z.ltb_spec y (2 ^ 31)); lia.
Qed.

(** [getIpInteger] is the address as a signed 32-bit integer. *)
Lemma getIpInteger_dotted a b c d :
  numeral a → numeral b → numeral c → numeral d →
  octets (dec_val a) (dec_val b) (dec_val c) (dec_val d) →
  getIpInteger (dotted a b c d) =
  Int (Num.signed32 (quad_val (dec_val a) (dec_val b) (dec_val c) (dec_val d))).
Proof.
  intros Ha Hb Hc Hd Hoct. unfold getIpInteger.
  destruct (exec_quad None a b c d) as (m & Hm & E1 & E2 & E3 & E4); [done|by repeat (constructor; [done|])|].
  change re_quad with (quad_re None). rewrite Hm, E1, E2, E3, E4. rewrite !parsePaddedInt_numeral by done.
  rewrite !shl_int by lia. numsimpl. f_equal. unfold octets in Hoct.
  rewrite (signed32_cases (quad_val _ _ _ _)) by (by apply quad_range).
  rewrite (signed32_cases (dec_val a * 2 ^ 24)) by lia.
  rewrite (signed32_small (dec_val b * 2 ^ 16)), (signed32_small (dec_val c * 2 ^ 8)) by lia.
  unfold quad_val. destruct (Z.ltb_spec (dec_val a * 2 ^ 24) (2 ^ 31)), (Z.ltb_spec (((dec_val a * 256 + dec_val b) * 256 + dec_val c) * 256 + dec_val d) (2 ^ 31)); lia.
Qed.

Lemma land_255 x : Z.land x 255 = x mod 256.
Proof. change 255 with (Z.ones 8). by rewrite Z.land_ones by lia. Qed.

Lemma sar_band n k : 0 <= k <= 24 → Num.band (Num.sar (Int n) (Int k)) 255 = (n / 2 ^ k) mod 256.
Proof.
  intros Hk. unfold Num.band, Num.sar. numsimpl. unfold Num.wrap32.
  rewrite (Z.mod_small k (2 ^ 32)) by lia. rewrite (Z.mod_small k 32) by lia.
  pose proof (signed32_range n) as Hr.
  assert (Hp : 0 < 2 ^ k) by (apply Z.pow_pos_nonneg; lia).
  rewrite Z.shiftr_div_pow2 by lia.
  rewrite (signed32_small (Num.signed32 n / 2 ^ k)).
  2:{ split; [apply Z.div_le_lower_bound; nia|apply Z.div_lt_upper_bound; nia]. }
  rewrite land_255.
  rewrite signed32_small by (pose proof (Z.mod_pos_bound (Num.signed32 n / 2 ^ k) 256); lia).
  destruct (signed32_congr n) as [j ->].
  replace (2 ^ 32) with (256 * 2 ^ (24 - k) * 2 ^ k) by (change 256 with (2 ^ 8); rewrite <- !Z.pow_add_r by lia; f_equal; lia).
  rewrite !Z.mul_assoc, Z.div_add by lia.
  replace (j * 256 * 2 ^ (24 - k)) with (j * 2 ^ (24 - k) * 256) by ring. by rewrite Z.mod_add by lia.
Qed.

Lemma shr_24 n : 0 <= n < 2 ^ 32 → Num.shr (Int n) (Int 24) = n / 2 ^ 24.
Proof.
  intros Hn. unfold Num.shr. numsimpl. unfold Num.wrap32. rewrite (Z.mod_small n) by lia.
  by rewrite Z.shiftr_div_pow2.
Qed.

Lemma band_0 n : Num.band (Num.toInt32 (Int n)) 255 = n mod 256.
Proof.
  numsimpl. unfold Num.band. rewrite land_255.
  rewrite signed32_small by (pose proof (Z.mod_pos_bound (Num.signed32 n) 256); lia).
  destruct (signed32_congr n) as [j ->]. change (2 ^ 32) with (2 ^ 24 * 256).
  by rewrite Z.mul_assoc, Z.mod_add by lia.
Qed.

(** The octets of an integer. *)
Lemma quad_digits n : 0 <= n < 2 ^ 32 →
  octets (n / 2 ^ 24) ((n / 2 ^ 16) mod 256) ((n / 2 ^ 8) mod 256) (n mod 256) ∧
  quad_val (n / 2 ^ 24) ((n / 2 ^ 16) mod 256) ((n / 2 ^ 8) mod 256) (n mod 256) = n.
Proof. unfold octets, quad_val. divlia. Qed.

Lemma quad_digits_val a b c d : octets a b c d →
  let n := quad_val a b c d in
  n / 2 ^ 24 = a ∧ (n / 2 ^ 16) mod 256 = b ∧ (n / 2 ^ 8) mod 256 = c ∧ n mod 256 = d.
Proof. unfold octets, quad_val. divlia. Qed.

Lemma ipToStr_dotted n : 0 <= n < 2 ^ 32 →
  ipToStr (Int n) = dotted (str_of_Z (n / 2 ^ 24)) (str_of_Z ((n / 2 ^ 16) mod 256))
                      (str_of_Z ((n / 2 ^ 8) mod 256)) (str_of_Z (n mod 256)).
Proof.
  intros Hn. unfold ipToStr. rewrite shr_24, !sar_band, band_0 by lia. done.
Qed.

End integers.

(** ** Address sets *)
Section ranges.

(** Masking with a prefix of [32 - h] ones, on signed integers. *)
Lemma ldiff_low x h : 0 <= h → Z.land x (- 2 ^ h) = x / 2 ^ h * 2 ^ h.
Proof.
  intros Hh. rewrite <- Z.shiftr_div_pow2, <- Z.shiftl_mul_pow2, <- Z.ldiff_ones_r by lia.
  rewrite Z.ldiff_land. f_equal. rewrite Z.ones_equiv. unfold Z.lnot. lia.
Qed.

Lemma lor_low q h : 0 <= h → Z.lor (q * 2 ^ h) (2 ^ h - 1) = q * 2 ^ h + (2 ^ h - 1).
Proof.
  intros Hh. rewrite Z.add_nocarry_lxor.
  - symmetry. rewrite <- Z.lxor_lor; [done|].
    rewrite <- Z.shiftl_mul_pow2 by lia. change (2 ^ h - 1) with (Z.pred (2 ^ h)). rewrite <- Z.ones_equiv.
    apply Z.bits_inj'. intros i Hi. rewrite Z.land_spec, Z.bits_0, Z.testbit_ones_nonneg by lia.
    destruct (Z.ltb_spec i h); [|by rewrite andb_false_r]. rewrite Z.shiftl_spec_low by lia. done.
  - rewrite <- Z.shiftl_mul_pow2 by lia. change (2 ^ h - 1) with (Z.pred (2 ^ h)). rewrite <- Z.ones_equiv.
    apply Z.bits_inj'. intros i Hi. rewrite Z.land_spec, Z.bits_0, Z.testbit_ones_nonneg by lia.
    destruct (Z.ltb_spec i h); [|by rewrite andb_false_r]. rewrite Z.shiftl_spec_low by lia. done.
Qed.

(** The range of the subnet of [x] with [32 - h] prefix bits, as the bit
    operators compute it. *)
Lemma subnet_bounds x h : 0 <= h < 32 → - 2 ^ 31 <= x < 2 ^ 31 →
  Num.band x (- 2 ^ h) = x / 2 ^ h * 2 ^ h ∧
  Num.bor (x / 2 ^ h * 2 ^ h) (Num.bnot (- 2 ^ h)) = x / 2 ^ h * 2 ^ h + 2 ^ h - 1.
Proof.
  intros Hh Hx. assert (Hp : 0 < 2 ^ h <= 2 ^ 31).
  { split; [apply Z.pow_pos_nonneg; lia|apply Z.pow_le_mono_r; lia]. }
  assert (Hq : - 2 ^ 31 <= x / 2 ^ h * 2 ^ h ∧ x / 2 ^ h * 2 ^ h + 2 ^ h <= 2 ^ 31).
  { assert (E : 2 ^ 31 = 2 ^ (31 - h) * 2 ^ h) by (rewrite <- Z.pow_add_r by lia; f_equal; lia).
    pose proof (Z.div_mod x (2 ^ h) ltac:(lia)). pose proof (Z.mod_pos_bound x (2 ^ h) ltac:(lia)).
    assert (- 2 ^ (31 - h) <= x / 2 ^ h < 2 ^ (31 - h)); [|split; nia].
    split; [apply Z.div_le_lower_bound|apply Z.div_lt_upper_bound]; nia. }
  unfold Num.band, Num.bor, Num.bnot. rewrite ldiff_low by lia.
  replace (Z.lnot (- 2 ^ h)) with (2 ^ h - 1) by (unfold Z.lnot; lia).
  rewrite (signed32_small (2 ^ h - 1)) by lia. rewrite lor_low by lia.
  rewrite !signed32_small by lia. lia.
Qed.

End ranges.

(** A decimal numeral of one octet. *)
Definition octet (s : jstr) : Prop := numeral s ∧ dec_val s <= 255.

(** The text [m] writes the mask of [p] leading ones: the number itself, or a
    dotted quad. *)
Definition mask_text (m : jstr) (p : Z) : Prop :=
  (numeral m ∧ dec_val m = p) ∨
  (∃ a b c d, m = dotted a b c d ∧ octet a ∧ octet b ∧ octet c ∧ octet d ∧
     quad_val (dec_val a) (dec_val b) (dec_val c) (dec_val d) = 2 ^ 32 - 2 ^ (32 - p)).

(** The address [s] is [n]. *)
Definition addr_text (s : jstr) (n : Z) : Prop :=
  ∃ a b c d, s = dotted a b c d ∧ octet a ∧ octet b ∧ octet c ∧ octet d ∧
     n = quad_val (dec_val a) (dec_val b) (dec_val c) (dec_val d).

Section addresses.

Lemma octet_octets a b c d : octet a → octet b → octet c → octet d →
  octets (dec_val a) (dec_val b) (dec_val c) (dec_val d).
Proof.
  intros [Ha ?] [Hb ?] [Hc ?] [Hd ?]. apply dec_val_numeral in Ha, Hb, Hc, Hd. unfold octets. lia.
Qed.

Lemma addr_text_dotted a b c d : octet a → octet b → octet c → octet d →
  addr_text (dotted a b c d) (quad_val (dec_val a) (dec_val b) (dec_val c) (dec_val d)).
Proof. intros. by exists a, b, c, d. Qed.

Lemma addr_text_range s n : addr_text s n → 0 <= n < 2 ^ 32.
Proof. intros (a & b & c & d & _ & Ha & Hb & Hc & Hd & ->). by apply quad_range, octet_octets. Qed.

Lemma addr_text_getIpInteger s n : addr_text s n → getIpInteger s = Int (Num.signed32 n).
Proof.
  intros (a & b & c & d & -> & Ha & Hb & Hc & Hd & ->).
  apply getIpInteger_dotted; [apply Ha|apply Hb|apply Hc|apply Hd|by apply octet_octets].
Qed.

Lemma addr_text_parseIp s n : addr_text s n → parseIp s = Int n.
Proof.
  intros (a & b & c & d & -> & Ha & Hb & Hc & Hd & ->).
  apply parseIp_dotted; [apply Ha|apply Hb|apply Hc|apply Hd].
Qed.

Lemma octet_str_of_Z n : 0 <= n <= 255 → octet (str_of_Z n).
Proof. intros. split; [apply str_of_Z_numeral; lia|rewrite dec_val_str_of_Z; lia]. Qed.

Lemma addr_text_ipToStr n : 0 <= n < 2 ^ 32 → addr_text (ipToStr (Int n)) n.
Proof.
  intros Hn. rewrite ipToStr_dotted by done. destruct (quad_digits n Hn) as [(? & ? & ? & ?) E].
  eexists _, _, _, _. split; [done|]. split_and!; [by apply octet_str_of_Z..|].
  by rewrite !dec_val_str_of_Z by lia.
Qed.

(** The characters of an address text. *)
Lemma addr_text_chars s n : addr_text s n → Forall (λ c, is_digit c = true ∨ c = 46) s.
Proof.
  intros (a & b & c & d & -> & [[_ Ha] _] & [[_ Hb] _] & [[_ Hc] _] & [[_ Hd] _] & _).
  assert (Hw : ∀ l, Forall (λ c, is_digit c = true) l → Forall (λ c, is_digit c = true ∨ c = 46) l).
  { intros l H. eapply Forall_impl; [done|]. auto. }
  unfold dotted. rewrite !Forall_app, !Forall_cons, !Forall_app, !Forall_cons, !Forall_app, !Forall_cons.
  split_and!; auto.
Qed.

Lemma mask_text_chars m p : mask_text m p → Forall (λ c, is_digit c = true ∨ c = 46) m.
Proof.
  intros [[[_ H] _]|(a & b & c & d & -> & Ha & Hb & Hc & Hd & _)].
  - eapply Forall_impl; [done|]. auto.
  - eapply addr_text_chars. by apply addr_text_dotted.
Qed.

Lemma mask_text_integer m p : 1 <= p <= 32 → mask_text m p →
  (if test re_dot m then getIpInteger m else getMaskInteger m) = Int (- 2 ^ (32 - p)).
Proof.
  intros Hp H. assert (Hpow : 0 < 2 ^ (32 - p) <= 2 ^ 31).
  { split; [apply Z.pow_pos_nonneg; lia|apply Z.pow_le_mono_r; lia]. }
  destruct H as [[Hm <-]|(a & b & c & d & -> & Ha & Hb & Hc & Hd & E)].
  - replace (test re_dot m) with false by (symmetry; apply test_chr_false; by apply numeral_no_dot).
    unfold getMaskInteger. rewrite parsePaddedInt_numeral by done. numsimpl.
    destruct (decide (dec_val m = 0)); [lia|]. rewrite shl_int by lia.
    rewrite signed32_small by lia. by f_equal; lia.
  - replace (test re_dot _) with true by (symmetry; apply test_chr; unfold dotted; set_solver).
    erewrite addr_text_getIpInteger by (by apply addr_text_dotted).
    rewrite E, signed32_high by lia. f_equal. lia.
Qed.

(** Text made of digits and dots is one piece of a list separated by [x]. *)
Lemma piece_quad x l : x = 47 ∨ x = 45 ∨ x = 44 → Forall (λ c, is_digit c = true ∨ c = 46) l → piece x l.
Proof.
  intros Hx Hl. eapply Forall_impl; [done|]. intros c Hc. unfold is_digit, is_blank, in_set, in_ranges in *. simpl.
  destruct Hc as [Hc| ->]; [|by destruct Hx as [-> | [-> | ->]]]. 
  split; [|lia]. destruct (Z.leb_spec 9 c), (Z.leb_spec c 9), (Z.leb_spec 32 c), (Z.leb_spec c 32); simpl; lia || done.
Qed.

(** The bounds of the subnet of an address. *)
Lemma cidr_range s n m p : 1 <= p <= 32 → addr_text s n → mask_text m p →
  let h := 32 - p in
  getIpRangeIntegers (s ++ 47 :: m) =
  (Int (Num.signed32 n / 2 ^ h * 2 ^ h), Int (Num.signed32 n / 2 ^ h * 2 ^ h + 2 ^ h - 1)).
Proof.
  intros Hp Hs Hm h. unfold getIpRangeIntegers.
  replace (test re_slash _) with true by (symmetry; apply test_chr; set_solver).
  replace (split_re re_slash_split (s ++ 47 :: m)) with [s; m].
  2:{ symmetry. apply (split_re_join 47 [s; m]); [done|done|].
      rewrite !Forall_cons. split_and!; [| |done]; (apply piece_quad; [by left|]).
      - by eapply addr_text_chars.
      - by eapply mask_text_chars. }
  change (nth_str [s; m] 0) with s. change (nth_str [s; m] 1) with m. rewrite (mask_text_integer m p) by done.
  rewrite (addr_text_getIpInteger s n) by done. numsimpl.
  pose proof (signed32_range n) as Hr. rewrite (signed32_small (Num.signed32 n)) by done.
  assert (Hpow : 0 < 2 ^ h <= 2 ^ 31).
  { split; [apply Z.pow_pos_nonneg; lia|apply Z.pow_le_mono_r; lia]. }
  rewrite (signed32_small (- 2 ^ (32 - p))) by (unfold h in *; lia).
  destruct (subnet_bounds (Num.signed32 n) h) as [E1 E2]; [lia|done|]. fold h. by rewrite E1, E2.
Qed.

(** Membership in a subnet, on signed and on unsigned integers. *)
Lemma subnet_members n y h : 0 <= h < 32 → 0 <= n < 2 ^ 32 → 0 <= y < 2 ^ 32 →
  let lo := Num.signed32 n / 2 ^ h * 2 ^ h in
  lo <= Num.signed32 y <= lo + 2 ^ h - 1 ↔ y / 2 ^ h = n / 2 ^ h.
Proof.
  intros Hh Hn Hy lo. assert (Hpow : 0 < 2 ^ h) by (apply Z.pow_pos_nonneg; lia).
  assert (E : 2 ^ 32 = 2 ^ (32 - h) * 2 ^ h) by (rewrite <- Z.pow_add_r by lia; f_equal; lia).
  assert (E' : 2 ^ 31 = 2 ^ (31 - h) * 2 ^ h) by (rewrite <- Z.pow_add_r by lia; f_equal; lia).
  assert (Hdiv : ∀ x, Num.signed32 x / 2 ^ h = Num.signed32 y / 2 ^ h ↔
    Num.signed32 x / 2 ^ h * 2 ^ h <= Num.signed32 y <= Num.signed32 x / 2 ^ h * 2 ^ h + 2 ^ h - 1).
  { intros x. pose proof (Z.div_mod (Num.signed32 y) (2 ^ h) ltac:(lia)).
    pose proof (Z.mod_pos_bound (Num.signed32 y) (2 ^ h) ltac:(lia)). split; [intros ->; lia|]. intros. nia. }
  unfold lo. rewrite <- Hdiv. rewrite !signed32_cases by done.
  assert (Hsub : ∀ x, (x - 2 ^ 32) / 2 ^ h = x / 2 ^ h - 2 ^ (32 - h)).
  { intros x. rewrite E. replace (x - _) with (x + - 2 ^ (32 - h) * 2 ^ h) by lia. rewrite Z.div_add by lia. lia. }
  assert (E3 : 2 ^ (32 - h) = 2 * 2 ^ (31 - h)) by (rewrite <- Z.pow_succ_r by lia; f_equal; lia).
  assert (Hlt : ∀ x, 0 <= x < 2 ^ 32 → 0 <= x / 2 ^ h ∧ (x < 2 ^ 31 ↔ x / 2 ^ h < 2 ^ (31 - h)) ∧ x / 2 ^ h < 2 ^ (32 - h)).
  { intros x Hx. split_and!.
    - apply Z.div_pos; lia.
    - rewrite E'. rewrite <- (Z.mul_comm (2 ^ h)). split; intros H.
      + by apply Z.div_lt_upper_bound.
      + pose proof (Z.div_mod x (2 ^ h) ltac:(lia)). pose proof (Z.mod_pos_bound x (2 ^ h) ltac:(lia)). nia.
    - rewrite E in Hx. apply Z.div_lt_upper_bound; lia. }
  pose proof (Hlt n Hn) as (? & ? & ?). pose proof (Hlt y Hy) as (? & ? & ?).
  destruct (Z.ltb_spec n (2 ^ 31)), (Z.ltb_spec y (2 ^ 31)); rewrite ?Hsub; lia.
Qed.

End addresses.

(** ** getSubnetRange *)
Section subnet_range.

(** The loop stops at the last block that starts below the address. *)
Lemma subnet_start_spec fuel len e q :
  1 <= len → 0 <= q → q * len < e ∨ q = 0 → (Z.to_nat (e - q * len) ≤ fuel)%nat → 0 <= e →
  subnet_start fuel len e (q * len) = if e =? 0 then 0 else (e - 1) / len * len.
Proof.
  intros Hlen Hq Hlt Hf He. revert q Hq Hlt Hf. induction fuel as [|f IH]; intros q Hq Hlt Hf; simpl.
  - assert (q * len >= e) by lia. destruct Hlt as [|Hlt]; [lia|]. subst. destruct (Z.eqb_spec e 0); lia.
  - destruct (Z.ltb_spec (q * len + len) e).
    + replace (q * len + len) with ((q + 1) * len) by lia. apply IH; [lia|left; lia|].
      assert (Z.to_nat (e - (q + 1) * len) < Z.to_nat (e - q * len))%nat; [apply Z2Nat.inj_lt; lia|lia].
    + destruct (Z.eqb_spec e 0); [destruct Hlt; nia|]. f_equal.
      apply (Z.div_unique _ _ _ (e - 1 - q * len)); [|lia]. left. split; [|lia].
      destruct Hlt as [|Hlt]; [lia|]. subst. lia.
Qed.

Lemma block_contains len e : 1 <= len → 0 <= e →
  let start := if e =? 0 then 0 else (e - 1) / len * len in
  start <= e <= start + len - 1 ↔ ¬ (0 < e ∧ e mod len = 0).
Proof.
  intros Hlen He start. unfold start. destruct (Z.eqb_spec e 0) as [->|Hne]; [lia|].
  pose proof (Z.div_mod (e - 1) len ltac:(lia)). pose proof (Z.mod_pos_bound (e - 1) len ltac:(lia)).
  rewrite Z.mod_eq by lia. set (q := (e - 1) / len) in *.
  assert (e / len = if e =? (q + 1) * len then q + 1 else q) as ->.
  { destruct (Z.eqb_spec e ((q + 1) * len)) as [E|].
    - rewrite E. by rewrite Z.div_mul by lia.
    - symmetry. apply (Z.div_unique _ _ _ (e - q * len)); [left; lia|lia]. }
  destruct (Z.eqb_spec e ((q + 1) * len)); nia.
Qed.

Lemma find_bits_nonneg p b : find_bits mask_bits p = Some b → 0 <= b.
Proof.
  assert (H : Forall (λ x : jstr * Z, 0 <= x.2) mask_bits) by (by repeat (constructor; [simpl; lia|])).
  revert H. generalize mask_bits. induction 1 as [|[m x] tbl Hx _ IH]; simpl in *; [done|].
  destruct (m =s p); [by intros [= <-]|by apply IH].
Qed.

Lemma subnet_bits_nonneg l acc b : 0 <= acc → subnet_bits l acc = Some b → 0 <= b.
Proof.
  revert acc; induction l as [|p l IH]; intros acc Hacc; cbn [subnet_bits]; [by intros [= <-]|].
  destruct (find_bits mask_bits p) eqn:E; [|discriminate]. apply IH. apply find_bits_nonneg in E. lia.
Qed.

End subnet_range.

Lemma ipInRange_int s n a b x y :
  parseIp s = Int n → parseIp a = Int x → parseIp b = Int y →
  ipInRange s a b = (x <=? n) && (n <=? y).
Proof. intros Hs Ha Hb. unfold ipInRange. rewrite Hs, Ha, Hb. by numsimpl. Qed.

(** ** Theorems *)

(** Addresses round trip through their integers: every 32-bit integer is
    printed by [ipToStr] as a dotted quad that [parseIp] reads back as the same
    integer and [getIpInteger] as its signed 32-bit form; and printing what
    [parseIp] reads from a dotted quad gives the quad with its leading zeros
    removed. *)
Theorem ip_roundtrip :
  (∀ n, 0 <= n < 2 ^ 32 →
    parseIp (ipToStr (Int n)) = Int n ∧ getIpInteger (ipToStr (Int n)) = Int (Num.signed32 n)) ∧
  (∀ a b c d, octet a → octet b → octet c → octet d →
    ipToStr (parseIp (dotted a b c d)) =
    dotted (str_of_Z (dec_val a)) (str_of_Z (dec_val b)) (str_of_Z (dec_val c)) (str_of_Z (dec_val d))).
Proof.
  split.
  - intros n Hn. apply addr_text_ipToStr in Hn. split; [by apply addr_text_parseIp|by apply addr_text_getIpInteger].
  - intros a b c d Ha Hb Hc Hd. rewrite (addr_text_parseIp _ _ (addr_text_dotted a b c d Ha Hb Hc Hd)).
    pose proof (octet_octets _ _ _ _ Ha Hb Hc Hd) as Ho. rewrite ipToStr_dotted by (by apply quad_range).
    by destruct (quad_digits_val _ _ _ _ Ho) as (-> & -> & -> & ->).
Qed.

Lemma ip_roundtrip_witness : parseIp (ipToStr (Int 3232235777)) = Int 3232235777.
Proof. apply (proj1 ip_roundtrip 3232235777). lia. Defined.

(** C32: the range [getIpRangeIntegers] computes for an address with a mask of
    1 to 32 bits, written as a number or as a dotted quad, is the subnet: an
    address lies between its (signed) bounds exactly when it has the same
    leading bits. *)
Theorem cidr_range_members s n m p :
  1 <= p <= 32 → addr_text s n → mask_text m p →
  ∃ lo hi, getIpRangeIntegers (s ++ 47 :: m) = (Int lo, Int hi) ∧
    ∀ t y v, addr_text t y → getIpInteger t = Int v →
      (lo <= v <= hi ↔ y / 2 ^ (32 - p) = n / 2 ^ (32 - p)).
Proof.
  intros Hp Hs Hm. eexists _, _. split; [by apply cidr_range|].
  intros t y v Ht Hv. rewrite (addr_text_getIpInteger t y) in Hv by done. injection Hv as <-.
  apply subnet_members; [lia|by eapply addr_text_range|by eapply addr_text_range].
Qed.

(** Every address belongs to exactly one of the classes A to E, and a
    private address, a link-local address or a loopback address to none of the
    two other kinds. *)
Theorem address_classes s n : addr_text s n →
  length (filter (λ f : jstr → bool, f s = true)
    [ipInClassA; ipInClassB; ipInClassC; ipInClassD; ipInClassE]) = 1%nat ∧
  (length (filter (λ f : jstr → bool, f s = true) [ipInPrivate; ipInLinkLocal; ipInLocalhost]) ≤ 1)%nat.
Proof.
  intros Hs. pose proof (addr_text_range _ _ Hs) as Hn. apply addr_text_parseIp in Hs.
  unfold ipInPrivate, ipInPrivateClassA, ipInPrivateClassB, ipInPrivateClassC, ipInLinkLocal, ipInLocalhost,
    ipInClassA, ipInClassB, ipInClassC, ipInClassD, ipInClassE. rewrite !filter_cons, !filter_nil. cbv beta.
  repeat match goal with |- context [ipInRange s ?a ?b] =>
    erewrite (ipInRange_int s n a b) by (exact Hs || vm_compute; reflexivity) end.
  split; repeat case_decide; simpl; lia.
Qed.

(** A concrete address and masks for the witnesses. *)
Lemma octet_eval s : forallb is_digit s && negb (bool_decide (s = [])) && (dec_val s <=? 255) = true → octet s.
Proof.
  intros H. bsimpl. split; [split; [done|]|lia]. by apply forallb_Forall.
Qed.

Lemma addr_sample : addr_text (js "192.168.1.77") 3232235853.
Proof.
  exists (js "192"), (js "168"), (js "1"), (js "77").
  split_and!; [reflexivity|by apply octet_eval..|reflexivity].
Qed.

Lemma mask_sample : mask_text (js "26") 26 ∧ mask_text (js "255.255.255.192") 26.
Proof.
  split.
  - left. split; [|reflexivity]. by apply (octet_eval (js "26")).
  - right. exists (js "255"), (js "255"), (js "255"), (js "192").
    split_and!; [reflexivity|by apply octet_eval..|reflexivity].
Qed.

Lemma cidr_range_members_witness :
  ∃ lo hi, getIpRangeIntegers (js "192.168.1.77/255.255.255.192") = (Int lo, Int hi) ∧
    ∀ t y v, addr_text t y → getIpInteger t = Int v →
      (lo <= v <= hi ↔ y / 2 ^ (32 - 26) = 3232235853 / 2 ^ (32 - 26)).
Proof.
  apply (cidr_range_members (js "192.168.1.77") 3232235853 (js "255.255.255.192") 26);
    [lia|exact addr_sample|exact (proj2 mask_sample)].
Defined.

Lemma address_classes_witness :
  length (filter (λ f : jstr → bool, f (js "192.168.1.77") = true)
    [ipInClassA; ipInClassB; ipInClassC; ipInClassD; ipInClassE]) = 1%nat.
Proof. apply (address_classes (js "192.168.1.77") 3232235853 addr_sample). Defined.

(** C38: [getSubnetRange] on a mask of the table and a dotted address whose last
    octet is [e] returns a block of [2^bits] numbers, and the block is the one
    that contains [e] unless [e] is a positive multiple of the block length: then
    it is the block below.  [rangeInSubnet] tests inclusion in that block. *)
Theorem subnet_range_block mask bits a b c d start end_ :
  length (split_char 46 mask) = 4%nat → subnet_bits (split_char 46 mask) 0 = Some bits →
  numeral a → numeral b → numeral c → numeral d →
  let e := dec_val d in
  let first := if e =? 0 then 0 else (e - 1) / 2 ^ bits * 2 ^ bits in
  getSubnetRange mask (dotted a b c d) = Some (first, first + 2 ^ bits - 1) ∧
  (first <= e <= first + 2 ^ bits - 1 ↔ ¬ (0 < e ∧ e mod 2 ^ bits = 0)) ∧
  (rangeInSubnet mask (dotted a b c d) start end_ = true ↔ first <= start ∧ end_ <= first + 2 ^ bits - 1).
Proof.
  intros Hlen Hbits Ha Hb Hc Hd e first.
  assert (Hb0 : 0 <= bits) by (by eapply subnet_bits_nonneg; [|done]).
  assert (Hpow : 0 < 2 ^ bits) by (apply Z.pow_pos_nonneg; lia).
  assert (He : 0 <= e) by (apply dec_val_numeral in Hd; unfold e; lia).
  assert (E : getSubnetRange mask (dotted a b c d) = Some (first, first + 2 ^ bits - 1)).
  { unfold getSubnetRange. rewrite Hlen, Hbits, split_dotted by done. simpl lookup. cbv iota beta.
    rewrite parseInt_digits by apply Hd. change (dec_val d) with e. simpl negb. cbv iota.
    pose proof (subnet_start_spec (Z.to_nat e) (2 ^ bits) e 0) as H. rewrite Z.mul_0_l in H.
    rewrite H by lia. done. }
  split_and!; [done|apply block_contains; lia|].
  unfold rangeInSubnet. rewrite E. rewrite andb_true_iff, !Z.leb_le. done.
Qed.

Lemma subnet_range_block_witness :
  getSubnetRange (js "255.255.255.192") (js "192.168.1.64") = Some (0, 63).
Proof.
  apply (subnet_range_block (js "255.255.255.192") 6 (js "192") (js "168") (js "1") (js "64") 0 0);
    [reflexivity|reflexivity|apply octet_eval; reflexivity..].
Defined.
