(* ===== verification/ValidateFacts.v ===== *)
(** * Properties of the validators *)
From S2P Require Import Prelude JsNum JsString JsRegex Ip4 Validate Ip4Facts.
Import Ip4 Validate.
Open Scope Z_scope.

(** A decimal numeral of at most three digits. *)
Definition short (s : jstr) : Prop := numeral s ∧ (length s ≤ 3)%nat.

Section fields.

Lemma short_eval s : forallb is_digit s && bool_decide (1 ≤ length s ≤ 3)%nat = true → short s.
Proof.
  intros H. bsimpl. split; [split|lia]; [by destruct s; simpl in *; [lia|]|by apply forallb_Forall].
Qed.

Lemma exec_ip_Some s m : exec re_ip s = Some m →
  ∃ a b c d, s = dotted a b c d ∧ short a ∧ short b ∧ short c ∧ short d ∧
    group 1 m = a ∧ group 2 m = b ∧ group 3 m = c ∧ group 4 m = d.
Proof.
  intros (a & b & c & d & Es & Hall & H)%(exec_quad_Some (Some 3%nat)); [|done].
  rewrite !Forall_cons in Hall. destruct Hall as (? & ? & ? & ? & _). by exists a, b, c, d.
Qed.

Lemma exec_ip a b c d : short a → short b → short c → short d →
  ∃ m, exec re_ip (dotted a b c d) = Some m ∧ group 1 m = a ∧ group 2 m = b ∧ group 3 m = c ∧ group 4 m = d.
Proof.
  intros. apply (exec_quad (Some 3%nat)); [done|]. by repeat (constructor; [done|]).
Qed.

Lemma exec_ip_None s : exec re_ip s = None ↔
  ¬ ∃ a b c d, s = dotted a b c d ∧ short a ∧ short b ∧ short c ∧ short d.
Proof.
  split.
  - intros E (a & b & c & d & -> & Ha & Hb & Hc & Hd).
    destruct (exec_ip a b c d) as (m & Hm & _); [done..|]. by rewrite E in Hm.
  - intros Hn. destruct (exec re_ip s) as [m|] eqn:E; [|done]. exfalso. apply Hn.
    apply exec_ip_Some in E as (a & b & c & d & ? & ? & ? & ? & ? & _). by exists a, b, c, d.
Qed.

(** The digits-only test. *)
Lemma test_all_digits s : test re_all_digits s = true ↔ numeral s.
Proof.
  unfold re_all_digits. rewrite test_bol. split.
  - intros (w & suf & c & -> & Hm). mt_inv.
    match goal with H : mt (RRep _ _ _) _ _ _ _ _ |- _ => apply mt_numeral in H as (? & _ & _); [|done] end.
    by rewrite !app_nil_r.
  - intros Hs. exists (s ++ []), [], []. split; [by rewrite !app_nil_r|].
    eapply mt_seq; [by apply mt_numeral|constructor].
Qed.

Lemma validateNumeric_numeral s : validateNumeric s = 0 → numeral s.
Proof. unfold validateNumeric. destruct (test re_all_digits s) eqn:E; [|done]. intros _. by apply test_all_digits. Qed.

Lemma validateNumericRange_numeral s lo hi : numeral s →
  validateNumericRange s lo hi =
  if dec_val s <? lo then 2 else if hi <? dec_val s then 3 else 0.
Proof.
  intros Hs. unfold validateNumericRange. rewrite (proj2 (test_all_digits s) Hs).
  rewrite toNumber_numeral by done. numsimpl. simpl.
  destruct (dec_val s <? lo); simpl; [done|]. by destruct (hi <? dec_val s).
Qed.

Lemma validateNumericRange_0 s lo hi :
  validateNumericRange s lo hi = 0 ↔ numeral s ∧ lo <= dec_val s <= hi.
Proof.
  destruct (test re_all_digits s) eqn:E.
  - apply test_all_digits in E as Hs. rewrite validateNumericRange_numeral by done.
    destruct (Z.ltb_spec (dec_val s) lo), (Z.ltb_spec hi (dec_val s)); naive_solver lia.
  - unfold validateNumericRange. rewrite E. simpl. split; [done|]. rewrite <- test_all_digits. naive_solver congruence.
Qed.

Lemma validateNumericRange_nonneg s lo hi : 0 <= validateNumericRange s lo hi <= 3.
Proof.
  unfold validateNumericRange.
  destruct (test re_all_digits s), (Num.ltb (toNumber s) (Int lo)), (Num.gtb (toNumber s) (Int hi)); simpl; lia.
Qed.

End fields.

(** The code for four short numbers. *)
Lemma validateIP_short a b c d : short a → short b → short c → short d →
  validateIP (dotted a b c d) =
    if dotted a b c d =s js "0.0.0.0" then 1
    else if dotted a b c d =s js "255.255.255.255" then 2
    else if dec_val d =? 255 then 3
    else if forallb (λ x, dec_val x <=? 255) [a; b; c; d] then 0 else 4.
Proof.
  intros Ha Hb Hc Hd. unfold validateIP.
  ifcase; [done|]. ifcase; [done|].
  destruct (exec_ip a b c d) as (m & -> & E1 & E2 & E3 & E4); [done..|].
  cbn [fold_left]. unfold validateIP_field. rewrite E1, E2, E3, E4.
  rewrite !toNumber_numeral by (apply Ha || apply Hb || apply Hc || apply Hd). numsimpl. simpl Nat.eqb.
  rewrite !andb_false_r, andb_true_r. cbn [forallb].
  destruct (Z.eqb_spec (dec_val d) 255); [done|].
  destruct (Z.ltb_spec 255 (dec_val a)), (Z.ltb_spec 255 (dec_val b)), (Z.ltb_spec 255 (dec_val c)),
    (Z.ltb_spec 255 (dec_val d)), (Z.leb_spec (dec_val a) 255), (Z.leb_spec (dec_val b) 255),
    (Z.leb_spec (dec_val c) 255), (Z.leb_spec (dec_val d) 255); (done || lia).
Qed.

Lemma validateIP_not_short s : (¬ ∃ a b c d, s = dotted a b c d ∧ short a ∧ short b ∧ short c ∧ short d) → validateIP s = 5.
Proof.
  intros Hs. unfold validateIP.
  ifcase. { exfalso. apply Hs. apply str_eqb_eq in E as ->. exists (js "0"), (js "0"), (js "0"), (js "0").
    by split_and!; [|apply short_eval..]. }
  ifcase. { exfalso. apply Hs. apply str_eqb_eq in E0 as ->. exists (js "255"), (js "255"), (js "255"), (js "255").
    by split_and!; [|apply short_eval..]. }
  apply exec_ip_None in Hs. by rewrite Hs.
Qed.

(** An accepted address is one. *)
Lemma validateIP_addr s : validateIP s = 0 → ∃ n, addr_text s n.
Proof.
  intros H. destruct (exec re_ip s) as [m|] eqn:E.
  - apply exec_ip_Some in E as (a & b & c & d & -> & Ha & Hb & Hc & Hd & _). rewrite validateIP_short in H by done.
    destruct (_ =s _); [done|]. destruct (_ =s _); [done|]. destruct (_ =? _); [done|].
    destruct (forallb _ _) eqn:Ef; [|done]. simpl in Ef. bsimpl. eexists. apply addr_text_dotted; (split; [|lia]);
      [apply Ha|apply Hb|apply Hc|apply Hd].
  - apply exec_ip_None in E. by rewrite validateIP_not_short in H.
Qed.

(** The code [validateIP] returns for every string: 5 unless the string is
    four runs of one to three digits, then 1 for 0.0.0.0, 2 for
    255.255.255.255, 3 when the last number is 255, 4 when a number is above
    255, and 0 otherwise. *)
Theorem validateIP_codes :
  (∀ a b c d, short a → short b → short c → short d →
    validateIP (dotted a b c d) =
      if dotted a b c d =s js "0.0.0.0" then 1
      else if dotted a b c d =s js "255.255.255.255" then 2
      else if dec_val d =? 255 then 3
      else if forallb (λ x, dec_val x <=? 255) [a; b; c; d] then 0 else 4) ∧
  (∀ s, (¬ ∃ a b c d, s = dotted a b c d ∧ short a ∧ short b ∧ short c ∧ short d) → validateIP s = 5).
Proof. split; [exact validateIP_short|exact validateIP_not_short]. Qed.

Lemma validateIP_codes_witness : validateIP (js "10.0.0.255") = 3.
Proof.
  apply (proj1 validateIP_codes (js "10") (js "0") (js "0") (js "255")); by apply short_eval.
Defined.

(** ** Masks *)

(** The loop of [validateNetMask] on the values of the fields. *)
Definition mask_step (st : Z * Z) (v : Z) : Z * Z :=
  let '(code, prev) := st in
  let code := if 255 <? v then 3 else code in
  let code := if (prev <? 255) && negb (v =? 0) && (code <? 2) then 2 else code in
  let code := if forallb (λ m, negb (v =? m)) mask_values && (code <? 1) then 1 else code in
  (code, v).

Definition mask_code (a b c d : Z) : Z := fst (fold_left mask_step [a; b; c; d] (0, 255)).

Section masks.

Lemma validateNetMask_values a b c d : short a → short b → short c → short d →
  validateNetMask (dotted a b c d) = mask_code (dec_val a) (dec_val b) (dec_val c) (dec_val d).
Proof.
  intros Ha Hb Hc Hd. unfold validateNetMask, mask_code.
  destruct (exec_ip a b c d) as (m & -> & E1 & E2 & E3 & E4); [done..|].
  assert (Hf : ∀ i s e p, group i m = s → numeral s →
    validateNetMask_field m (e, Int p) i = let '(e', v) := mask_step (e, p) (dec_val s) in (e', Int v)).
  { intros i s e p <- Hs. unfold validateNetMask_field, mask_step. rewrite toNumber_numeral by done.
    unfold forallb, mask_values. numsimpl. done. }
  cbn [fold_left].
  rewrite (Hf 1%nat a) by (done || apply Ha). destruct (mask_step (0, 255) (dec_val a)) as [e1 v1].
  rewrite (Hf 2%nat b) by (done || apply Hb). destruct (mask_step (e1, v1) (dec_val b)) as [e2 v2].
  rewrite (Hf 3%nat c) by (done || apply Hc). destruct (mask_step (e2, v2) (dec_val c)) as [e3 v3].
  rewrite (Hf 4%nat d) by (done || apply Hd). by destruct (mask_step (e3, v3) (dec_val d)).
Qed.

Lemma forallb_neq (v : Z) l : forallb (λ m, negb (v =? m)) l = negb (bool_decide (v ∈ l)).
Proof.
  induction l as [|x l IH]; cbn [forallb]; [done|]. rewrite IH.
  destruct (Z.eqb_spec v x) as [->|]; cbn [negb andb].
  - by rewrite bool_decide_eq_true_2 by set_solver.
  - f_equal. apply bool_decide_ext. set_solver.
Qed.

Lemma mask_step_zero e p v : 0 <= e →
  0 <= (mask_step (e, p) v).1 ∧ (mask_step (e, p) v).2 = v ∧
  ((mask_step (e, p) v).1 = 0 ↔ e = 0 ∧ v ∈ mask_values ∧ (p < 255 → v = 0)).
Proof.
  intros He. unfold mask_step. rewrite forallb_neq. cbn [fst snd].
  assert (Hle : v ∈ mask_values → v <= 255) by (unfold mask_values; set_solver by lia).
  destruct (Z.ltb_spec 255 v), (Z.ltb_spec p 255), (Z.eqb_spec v 0); case_bool_decide; simpl;
    destruct (Z.ltb_spec e 2); simpl; try (destruct (Z.ltb_spec e 1); simpl); split_and!; naive_solver lia.
Qed.

Lemma mask_code_zero a b c d : mask_code a b c d = 0 ↔
  a ∈ mask_values ∧ b ∈ mask_values ∧ c ∈ mask_values ∧ d ∈ mask_values ∧
  (a < 255 → b = 0) ∧ (b < 255 → c = 0) ∧ (c < 255 → d = 0).
Proof.
  unfold mask_code. cbn [fold_left].
  destruct (mask_step_zero 0 255 a) as (Ha & Ea & Za); [lia|]. destruct (mask_step (0, 255) a) as [e1 v1]. cbn [fst snd] in *. subst v1.
  destruct (mask_step_zero e1 a b) as (Hb & Eb & Zb); [lia|]. destruct (mask_step (e1, a) b) as [e2 v2]. cbn [fst snd] in *. subst v2.
  destruct (mask_step_zero e2 b c) as (Hc & Ec & Zc); [lia|]. destruct (mask_step (e2, b) c) as [e3 v3]. cbn [fst snd] in *. subst v3.
  destruct (mask_step_zero e3 c d) as (Hd & Ed & Zd); [lia|].
  rewrite Zd, Zc, Zb, Za. assert (255 < 255 → a = 0) by lia. tauto.
Qed.

(** Contiguous masks, by enumeration of the 33 lengths. *)
Definition ones_mask (h : Z) : Z := 2 ^ 32 - 2 ^ h.

Lemma mask_code_complete h a b c d : 0 <= h <= 32 → octets a b c d → quad_val a b c d = ones_mask h →
  mask_code a b c d = 0.
Proof.
  intros Hh Ho E. pose proof (quad_digits_val a b c d Ho) as Hq. simpl in Hq. rewrite E in Hq.
  destruct Hq as (<- & <- & <- & <-). clear E.
  assert (H : forallb (λ h, let n := ones_mask h in
    mask_code (n / 2 ^ 24) ((n / 2 ^ 16) mod 256) ((n / 2 ^ 8) mod 256) (n mod 256) =? 0) (seqZ 0 33) = true)
    by (vm_compute; reflexivity).
  rewrite forallb_Forall, Forall_forall in H. apply Z.eqb_eq, (H h). apply elem_of_seqZ. lia.
Qed.

Lemma mask_code_sound a b c d : mask_code a b c d = 0 →
  octets a b c d ∧ ∃ h, 0 <= h <= 32 ∧ quad_val a b c d = ones_mask h.
Proof.
  rewrite mask_code_zero. intros (Ha & Hb & Hc & Hd & H1 & H2 & H3).
  assert (Hm : ∀ v, v ∈ mask_values → 0 <= v <= 255 ∧ ∃ k, 0 <= k <= 8 ∧ v = 256 - 2 ^ k).
  { assert (H : forallb (λ v, let k := Z.log2 (256 - v) in (0 <=? v) && (v <=? 255) && (0 <=? k) && (k <=? 8) && (v =? 256 - 2 ^ k)) mask_values = true) by reflexivity.
    rewrite forallb_Forall, Forall_forall in H. intros v Hv. specialize (H v Hv). simpl in H. bsimpl.
    split; [lia|]. exists (Z.log2 (256 - v)). lia. }
  destruct (Hm a Ha) as (? & ka & ? & Ea), (Hm b Hb) as (? & kb & ? & Eb), (Hm c Hc) as (? & kc & ? & Ec),
    (Hm d Hd) as (? & kd & ? & Ed). split; [unfold octets; lia|].
  assert (P : ∀ k n, 0 <= k → 0 <= n → 2 ^ (k + n) = 2 ^ k * 2 ^ n) by (intros; by apply Z.pow_add_r).
  unfold ones_mask, quad_val.
  destruct (decide (a < 255)); [exists (ka + 24); rewrite (P ka 24) by lia; rewrite H1, H2, H3 by lia; lia|].
  destruct (decide (b < 255)); [exists (kb + 16); rewrite (P kb 16) by lia; rewrite H2, H3 by lia; lia|].
  destruct (decide (c < 255)); [exists (kc + 8); rewrite (P kc 8) by lia; rewrite H3 by lia; lia|].
  exists kd. lia.
Qed.

Lemma validateNetMask_sound s : validateNetMask s = 0 →
  ∃ a b c d h, s = dotted a b c d ∧ short a ∧ short b ∧ short c ∧ short d ∧
    octets (dec_val a) (dec_val b) (dec_val c) (dec_val d) ∧
    0 <= h <= 32 ∧ quad_val (dec_val a) (dec_val b) (dec_val c) (dec_val d) = 2 ^ 32 - 2 ^ h.
Proof.
  intros H. destruct (exec re_ip s) as [m|] eqn:E; [|by unfold validateNetMask in H; rewrite E in H].
  apply exec_ip_Some in E as (a & b & c & d & -> & Ha & Hb & Hc & Hd & _).
  rewrite validateNetMask_values in H by done.
  destruct (mask_code_sound _ _ _ _ H) as (Ho & h & Hh & Eq). by exists a, b, c, d, h.
Qed.

Lemma validateNetMask_mask s : validateNetMask s = 0 → ∃ p, 0 <= p <= 32 ∧ mask_text s p.
Proof.
  intros (a & b & c & d & h & -> & Ha & Hb & Hc & Hd & Ho & Hh & E)%validateNetMask_sound. exists (32 - h). split; [lia|].
  right. exists a, b, c, d. unfold octets in Ho. split_and!; [done|split; [|lia]..|].
  - apply Ha.
  - apply Hb.
  - apply Hc.
  - apply Hd.
  - by replace (32 - (32 - h)) with h by lia.
Qed.

(** An accepted range is an address, or an address and a mask. *)
Lemma validateIpRange_sound s : validateIpRange s = 0 →
  (∃ n, addr_text s n) ∨ ∃ a n m p, s = a ++ 47 :: m ∧ addr_text a n ∧ 0 <= p <= 32 ∧ mask_text m p.
Proof.
  unfold validateIpRange. destruct (0 <? _) eqn:Ei; [|intros H%validateIP_addr; by left].
  destruct (split_char 47 s) as [|a [|m [|? ?]]] eqn:Es; try done.
  destruct (validateIP a =? 0) eqn:Ea; [|done]. apply Z.eqb_eq, validateIP_addr in Ea as [n Hn].
  destruct (validateNetMask m =? 0) eqn:Em; [|destruct (validateNumericRange m 1 31 =? 0) eqn:Er; [|done]]; intros _; right.
  - apply Z.eqb_eq, validateNetMask_mask in Em as (p & Hp & Hm). exists a, n, m, p. split_and!; try done; [|lia..].
    rewrite <- (join_split_char 47 s), Es. done.
  - apply Z.eqb_eq, validateNumericRange_0 in Er. exists a, n, m, (dec_val m). split_and!; try done; [| | |].
    + rewrite <- (join_split_char 47 s), Es. done.
    + lia.
    + lia.
    + left. by split; [apply Er|].
Qed.

End masks.

(** [validateNetMask] accepts exactly the dotted quads of one to three
    digits whose 32 bits are a run of ones followed by a run of zeros. *)
Theorem validateNetMask_contiguous s :
  validateNetMask s = 0 ↔
  ∃ a b c d h, s = dotted a b c d ∧ short a ∧ short b ∧ short c ∧ short d ∧
    octets (dec_val a) (dec_val b) (dec_val c) (dec_val d) ∧
    0 <= h <= 32 ∧ quad_val (dec_val a) (dec_val b) (dec_val c) (dec_val d) = 2 ^ 32 - 2 ^ h.
Proof.
  split; [apply validateNetMask_sound|]. intros (a & b & c & d & h & -> & Ha & Hb & Hc & Hd & Ho & Hh & E).
  rewrite validateNetMask_values by done. by apply (mask_code_complete h).
Qed.

(** [validatePortOrPortRange] accepts exactly a port number from 1 to 65535
    and a pair of them joined by a dash, the first not above the second. *)
Theorem validatePortOrPortRange_accepts s :
  validatePortOrPortRange s = 0 ↔
  (numeral s ∧ 1 <= dec_val s <= 65535) ∨
  (∃ a b, s = a ++ 45 :: b ∧ numeral a ∧ numeral b ∧
     1 <= dec_val a <= dec_val b ∧ dec_val b <= 65535).
Proof.
  assert (Hnd : ∀ a, numeral a → 45 ∉ a).
  { intros a [_ Ha] Hin. rewrite Forall_forall in Ha. by specialize (Ha _ Hin). }
  unfold validatePortOrPortRange. change re_dash with (RSet false [(45, 45)]).
  rewrite split_re_chr. destruct (test (RSet false [(45, 45)]) s) eqn:Et.
  - apply test_chr in Et. destruct (first_occurrence 45 s Et) as (a & b & -> & Ha).
    rewrite split_char_app by done. split.
    + destruct (decide (45 ∈ b)) as [Hb|Hb].
      { destruct (first_occurrence 45 b Hb) as (b1 & b2 & -> & Hb1). rewrite split_char_app by done.
        pose proof (split_char_nonempty 45 b2). by destruct (split_char 45 b2). }
      rewrite split_char_none by done. cbn [length]. change (2 <? 2)%nat with false. cbv iota zeta.
      change (nth_str [a; b] 0) with a. change (nth_str [a; b] 1) with b.
      pose proof (validateNumericRange_nonneg a 1 65535). pose proof (validateNumericRange_nonneg b 1 65535).
      destruct (Z.eqb_spec (validateNumericRange a 1 65535 + 10 * validateNumericRange b 1 65535) 0) as [E|]; [|intros; lia].
      destruct (proj1 (validateNumericRange_0 a 1 65535)) as [Na ?]; [lia|].
      destruct (proj1 (validateNumericRange_0 b 1 65535)) as [Nb ?]; [lia|].
      rewrite !toNumber_numeral by done. numsimpl. intros Hge. right. exists a, b. split_and!; try done; try lia.
      destruct (Z.leb_spec 0 (dec_val b - dec_val a)); [lia|done].
    + intros [[[_ Hs] _]|(a' & b' & E & Na & Nb & Hle & Hmax)].
      { rewrite Forall_forall in Hs. by specialize (Hs 45 ltac:(set_solver)). }
      assert (a = a' ∧ b = b') as [-> ->].
      { apply (app_inv_mid (λ c, c ≠ 45) a b a' b' 45); [|by apply Hnd in Na; apply Forall_forall; set_solver|naive_solver|done].
        apply Forall_forall. set_solver. }
      rewrite split_char_none by (by apply Hnd). cbn [length]. change (2 <? 2)%nat with false. cbv iota zeta.
      change (nth_str [a'; b'] 0) with a'. change (nth_str [a'; b'] 1) with b'.
      rewrite (proj2 (validateNumericRange_0 a' 1 65535)), (proj2 (validateNumericRange_0 b' 1 65535)) by (split; [done|lia]).
      simpl Z.eqb. cbv iota. rewrite !toNumber_numeral by done. numsimpl.
      by rewrite (proj2 (Z.leb_le 0 (dec_val b' - dec_val a'))) by lia.
  - apply test_chr_false in Et. rewrite validateNumericRange_0. split; [by left|].
    intros [?|(a & b & -> & _)]; [done|]. exfalso. apply Et. set_solver.
Qed.
