(* ===== verification/Ip6.v ===== *)
(** * IPv6 library (common.js)

    The functions of the "IPv6 library" of common.js and the conversions between
    IPv6 addresses and strings of bits. *)
From S2P Require Import Prelude JsNum JsString JsRegex Ip4 Validate.
Import Ip4 Validate.
Open Scope Z_scope.

(** An address and its mask, as [ip6_splitmask] returns them. *)
Record ip6_parts := mkIp6 { ip6_address : jstr; ip6_bitmask : jstr }.

(** [mask] is a number in the calls of [ip6_scope] and a piece of text in the
    call of [getIp6RangeStrings]. *)
Inductive mask_arg := MaskNum (z : Z) | MaskStr (s : jstr).

Module Ip6.

(** ** Strings and numbers *)

(** [toString] in a radix of what [parseInt] returns: an integer or NaN. *)
Definition int_toString (base : Z) (n : num) : jstr :=
  match n with Dec z _ => toStringRadix base z | _ => js "NaN" end.

(** ToIntegerOrInfinity of a length, with a bound for an infinite one. *)
Definition toLength (bound : Z) (n : num) : Z :=
  match n with NaN => 0 | Inf true => -1 | Inf false => bound | Dec m e => Num.trunc m e end.

(** [s.repeat(n)] *)
Definition repeat_num (s : jstr) (n : num) : exn jstr :=
  match n with
  | Inf _ => Raise RangeError
  | _ => let k := toLength 0 n in if k <? 0 then Raise RangeError else Ret (str_repeat s k)
  end.

(** [s.substr(0, n)] and [s.substr(n)] *)
Definition substr_to (s : jstr) (n : num) : jstr := substr s 0 (toLength (zlen s) n).
Definition substr_from_num (s : jstr) (n : num) : jstr := substr_from s (toLength (zlen s) n).

(** The argument as a number, and [128 + mask], which concatenates when [mask]
    is text. *)
Definition mask_num (m : mask_arg) : num := match m with MaskNum z => Int z | MaskStr s => toNumber s end.
Definition mask_plus_128 (m : mask_arg) : num :=
  match m with MaskNum z => Int (128 + z) | MaskStr s => toNumber (js "128" ++ s) end.

(** ** ip6_splitmask, ip6_full *)
Definition ip6_splitmask (address : jstr) : ip6_parts :=
  match split_char 47 address with
  | [a; m] => mkIp6 a m
  | tmp => mkIp6 (nth_str tmp 0) []
  end.

Definition re_ipv4_tail : re := Eval vm_compute in rx "(.*:)([0-9]+\.[0-9]+\.[0-9]+\.[0-9]+$)".
Definition re_digit_runs : re := Eval vm_compute in rx "[0-9]+".
Definition re_edge_colons : re := Eval vm_compute in rx "^:|:$".

(** [("0" + byte.toString(16)).substr(-2)] *)
Definition hex_byte (s : jstr) : jstr := substr_from (js "0" ++ int_toString 16 (parseInt s)) (-2).

(** The text of an IPv4 tail replaced by two groups. *)
Definition replace_ipv4 (address : jstr) : jstr :=
  match exec re_ipv4_tail address with
  | Some ipv4 =>
      let b := map hex_byte (match_all re_digit_runs (group 2 ipv4)) in
      group 1 ipv4 ++ nth_str b 0 ++ nth_str b 1 ++ js ":" ++ nth_str b 2 ++ nth_str b 3
  | None => address
  end.

(** One group of the loop: four digits, or the zeros that a [::] stands for;
    [n] is the number of groups. *)
Definition full_group (n : Z) (hex : jstr) : jstr :=
  if negb (hex =s []) then substr_from (js "0000" ++ hex) (-4)
  else join (js ":") (replicate (Z.to_nat (9 - n)) (js "0000")).

Definition ip6_full (address : jstr) : jstr :=
  let tmpAddr := ip6_splitmask address in
  let a := replace_all re_edge_colons [] (replace_ipv4 (ip6_address tmpAddr)) in
  let ipv6 := split_char 58 a in
  let a' := join (js ":") (map (full_group (zlen ipv6)) ipv6) in
  if ip6_bitmask tmpAddr =s [] then a' else a' ++ js "/" ++ ip6_bitmask tmpAddr.

(** ** ip6_canonical *)
Definition re_lead_zeros : re := Eval vm_compute in ignore_case (rx "^0+([1-9a-f]{1,3})").
Definition re_zeros : re := Eval vm_compute in rx "^0+".

Definition short_group (c : jstr) : jstr :=
  replace re_zeros (js "0") (replace_with re_lead_zeros (group 1) c).

(** The counting loop: (zeroCounts, inZeroChain, firstZeroInChain).  [None] is
    the false [inZeroChain]. *)
Definition bump (i : nat) (l : list Z) : list Z := alter (Z.add 1) i l.
Definition zero_step (st : list Z * option nat) (ic : nat * jstr) : list Z * option nat :=
  let '(zeroCounts, chain) := st in
  let '(componentIdx, c) := ic in
  if c =s js "0" then
    match chain with
    | Some first =>
        (fold_left (fun l i => bump i l) (rev (seq first (S componentIdx - first))) zeroCounts, chain)
    | None => (bump componentIdx zeroCounts, Some componentIdx)
    end
  else (zeroCounts, None).

Definition zero_counts (components : list jstr) : list Z :=
  fst (fold_left zero_step (imap (fun i c => (i, c)) components)
         (replicate (length components) 0, None)).

Definition max_list (l : list Z) : Z := fold_left Z.max l 0.

(** The first index whose count is the maximum. *)
Fixpoint first_index (m : Z) (l : list Z) : nat :=
  match l with [] => O | x :: l' => if x =? m then O else S (first_index m l') end.

(** [components.splice(i, n - 1); components[i] = ""] *)
Definition shorten (components : list jstr) : list jstr :=
  let zeroCounts := zero_counts components in
  let maxZeroCount := max_list zeroCounts in
  if 1 <? maxZeroCount then
    let i := first_index maxZeroCount zeroCounts in
    <[i := []]> (take i components ++ drop (i + Z.to_nat (maxZeroCount - 1)) components)
  else components.

(** The empty groups that make a [::] at the ends. *)
Definition pad_ends (components : list jstr) : list jstr :=
  match components with
  | [[]] => [[]; []; []]
  | [] :: _ => [] :: components
  | _ => match last components with Some [] => components ++ [[]] | _ => components end
  end.

Definition ip6_canonical (address : jstr) : jstr :=
  let tmpAddr := ip6_splitmask (ip6_full address) in
  let components := map short_group (split_char 58 (ip6_address tmpAddr)) in
  let a := join (js ":") (pad_ends (shorten components)) in
  if ip6_bitmask tmpAddr =s [] then a else a ++ js "/" ++ ip6_bitmask tmpAddr.

(** ** Validators *)
Definition re_colons3 : re := Eval vm_compute in rx ":{3,}".
Definition re_colons2twice : re := Eval vm_compute in rx "::.+::".
Definition re_colon_end : re := Eval vm_compute in rx "[^:]:$".
Definition re_colon_start : re := Eval vm_compute in rx "^:(?!:)".
Definition re_colons2 : re := Eval vm_compute in rx "::".
Definition re_group : re := Eval vm_compute in ignore_case (rx "^[0-9a-f]{0,4}$").

Definition validateIP6 (address : jstr) : Z :=
  let components := split_char 58 address in
  let errorCode :=
    if test re_colons3 address || test re_colons2twice address
       || test re_colon_end address || test re_colon_start address then 1 else 0 in
  let errorCode := if (zlen components <? 2) || (8 <? zlen components) then 1 else errorCode in
  let errorCode := if (zlen components <? 8) && negb (test re_colons2 address) then 1 else errorCode in
  fold_left (fun errorCode c => if negb (test re_group c) then 1 else errorCode) components errorCode.

Definition validateIP6Range (range : jstr) : Z :=
  if 0 <? indexOf range (js "/") then
    match split_char 47 range with
    | [a; m] =>
        let maskValid := if Num.ltb (toNumber m) (Int (-128)) || Num.gtb (toNumber m) (Int 128) then 1 else 0 in
        if (validateIP6 a =? 0) && (maskValid =? 0) then 0 else 1
    | _ => 1
    end
  else validateIP6 range.

Definition validateIP6ForceRange (range : jstr) : Z :=
  if 0 <? indexOf range (js "/") then
    match split_char 47 range with
    | [a; m] =>
        let maskValid := if Num.ltb (toNumber m) (Int 1) || Num.gtb (toNumber m) (Int 128) then 1 else 0 in
        if (validateIP6 a =? 0) && (maskValid =? 0) then 0 else 1
    | _ => 1
    end
  else 1.

(** ** Bits *)
Definition ip6addr2bin (addr : jstr) : jstr :=
  concat (map (fun section => padStart (int_toString 2 (parseInt16 section)) 16 48)
    (split_char 58 (ip6_full addr))).

Definition ip6bin2addr (bin : jstr) : jstr :=
  join (js ":") (map (fun x => padStart (int_toString 16 (parseInt2 (substr bin (x * 16) 16))) 4 48) (seqZ 0 8)).

Definition ip6_mask (address : jstr) (mask : mask_arg) : exn jstr :=
  let binaddr := ip6addr2bin address in
  let! newAddr :=
    (if Num.ltb (mask_num mask) (Int 0)
     then let! zeros := repeat_num (js "0") (mask_plus_128 mask) in
          Ret (zeros ++ substr_from_num binaddr (mask_plus_128 mask))
     else let! zeros := repeat_num (js "0") (Num.sub (Int 128) (mask_num mask)) in
          Ret (substr_to binaddr (mask_num mask) ++ zeros)) in
  Ret (ip6_canonical (ip6bin2addr newAddr)).

(** [retVal] is replaced by the last test that holds. *)
Definition ip6_scope (address : jstr) : exn (option (jstr * jstr)) :=
  exn_fold (fun retVal '(mask, prefix, scope) =>
    let! m := ip6_mask address (MaskNum mask) in
    Ret (if m =s prefix then Some scope else retVal))
    [(3, js "2000::", (js "Global", js "Global Unicast Address"));
     (32, js "2001::", (js "Global", js "Teredo Tunnel"));
     (96, js "64:ff9b::", (js "Global", js "IPv4/IPv6 Translation"));
     (8, js "ff00::", (js "Global", js "Global Multicast Address"));
     (7, js "fc00::", (js "Global", js "Unique Local Address"));
     (10, js "fe80::", (js "Link", js "Link-local Address"))] None.

Definition getIp6RangeStrings (ipStr : jstr) : exn (jstr * jstr) :=
  if test re_slash ipStr then
    let split := split_re re_slash_split ipStr in
    let m := nth_str split 1 in
    let! masked := ip6_mask (nth_str split 0) (MaskStr m) in
    let startStr := ip6_full masked in
    let startBin := ip6addr2bin startStr in
    let! ones := repeat_num (js "1") (Num.sub (Int 128) (toNumber m)) in
    Ret (startStr, ip6bin2addr (substr_to startBin (toNumber m) ++ ones))
  else if test re_dash ipStr then
    let split := split_re re_dash_split ipStr in
    Ret (ip6_full (nth_str split 0), ip6_full (nth_str split 1))
  else Ret (ip6_full ipStr, ip6_full ipStr).

(** ** Families *)
Inductive family := IPv4 | IPv6.

Definition getIPFamily (address : jstr) : option family :=
  if validateIpRange address =? 0 then Some IPv4
  else if validateIP6Range address =? 0 then Some IPv6
  else None.

Definition isIPv4 (address : jstr) : bool := match getIPFamily address with Some IPv4 => true | _ => false end.
Definition isIPv6 (address : jstr) : bool := match getIPFamily address with Some IPv6 => true | _ => false end.

(** ** Lists of addresses *)
Definition validate_dash_range6 (nextIp : jstr) : Z :=
  match split_re re_dash_split' nextIp with
  | [a; b] =>
      if (validateIP6 a =? 0) && (validateIP6 b =? 0)
      then (if str_leb (ip6_full a) (ip6_full b) then 0 else 1)
      else 1
  | _ => 1
  end.

Definition validateMultipleIp6s (ips : jstr) : Z :=
  let splitIps := split_re re_comma_split (strip_blanks ips) in
  match splitIps with
  | [] => 1
  | _ => validate_popped (fun nextIp =>
           if test re_dash nextIp then validate_dash_range6 nextIp else validateIP6Range nextIp) (rev splitIps)
  end.

Definition validateMultipleIp6sOrMacs (ips : jstr) : Z :=
  let splitIps := split_re re_comma_split (strip_blanks ips) in
  match splitIps with
  | [] => 1
  | _ => validate_popped (fun nextIp =>
           if test re_dash nextIp then validate_dash_range6 nextIp
           else match getIPFamily nextIp with
                | None => validateMac nextIp
                | Some _ => validateIP6Range nextIp
                end) (rev splitIps)
  end.

Definition proofreadIp6 input := proofreadText input validateIP6 0.
Definition proofreadIp6Range input := proofreadText input validateIP6Range 0.
Definition proofreadIp6ForceRange input := proofreadText input validateIP6ForceRange 0.
Definition proofreadMultipleIp6s input := proofreadText input validateMultipleIp6s 0.
Definition proofreadMultipleIp6sOrMacs input := proofreadText input validateMultipleIp6sOrMacs 0.

End Ip6.
