(* ===== verification/Overlap.v ===== *)
(** * Overlap of address lists (common.js)

    [testSingleAddrOverlap] and [testAddrOverlap], which quotas, restrictions
    and the QoS pages use to refuse two rules for the same host. *)
From S2P Require Import Prelude JsNum JsString JsRegex Ip4 Validate Ip6.
Import Ip4 Validate Ip6.
Open Scope Z_scope.

Module Overlap.

(** [adj] *)
Definition adj (addrStr : jstr) : jstr :=
  let addrStr := if addrStr =s [] then js "ALL" else toUpperCase addrStr in
  if (addrStr =s js "ALL_OTHERS_COMBINED") || (addrStr =s js "ALL_OTHERS_INDIVIDUAL")
  then js "ALL_OTHERS_COMBINED" else addrStr.

Definition testSingleAddrOverlap (addrStr1 addrStr2 : jstr) (treatipv6 : bool) : exn bool :=
  let addrStr1 := adj addrStr1 in
  let addrStr2 := adj addrStr2 in
  if addrStr1 =s addrStr2 then Ret true
  else if treatipv6 then
    if (0 <? validateMultipleIp6s addrStr1) || (0 <? validateMultipleIp6s addrStr2)
       || test re_comma addrStr1 || test re_comma addrStr2
    then Ret false
    else
      let! parsed1 := getIp6RangeStrings addrStr1 in
      let! parsed2 := getIp6RangeStrings addrStr2 in
      Ret (str_leb (fst parsed1) (snd parsed2) && str_leb (fst parsed2) (snd parsed1))
  else
    if (0 <? validateMultipleIps addrStr1) || (0 <? validateMultipleIps addrStr2)
       || test re_comma addrStr1 || test re_comma addrStr2
    then Ret false
    else
      let parsed1 := getIpRangeIntegers addrStr1 in
      let parsed2 := getIpRangeIntegers addrStr2 in
      Ret (Num.leb (fst parsed1) (snd parsed2) && Num.geb (snd parsed1) (fst parsed2)).

Definition re_list_sep : re := Eval vm_compute in rx "[,\t ]+".

Definition strip_once (s : jstr) : jstr := replace re_trail_blanks [] (replace re_lead_blanks [] s).

(** The two nested loops stop at the first overlap. *)
Definition testAddrOverlap (addrStr1 addrStr2 : jstr) (treatipv6 : bool) : exn bool :=
  let split1 := split_re re_list_sep (strip_once addrStr1) in
  let split2 := split_re re_list_sep (strip_once addrStr2) in
  exn_fold (fun (overlapFound : bool) a1 =>
    if overlapFound then Ret true
    else exn_fold (fun (overlapFound : bool) a2 =>
      if overlapFound then Ret true else testSingleAddrOverlap a1 a2 treatipv6) split2 overlapFound)
    split1 false.

End Overlap.
