(* ===== verification/OverlapFacts.v ===== *)
(** * Overlap of IPv4 items is intersection of the sets of hosts they denote *)
From S2P Require Import Prelude JsNum JsString JsRegex Ip4 Validate Ip6 Overlap Ip4Facts ValidateFacts.
Import Ip4 Validate Overlap.
Open Scope Z_scope.

(** The host address [s], accepted by the validator, is [n]. *)
Definition host_text (s : jstr) (n : Z) : Prop := addr_text s n ∧ validateIP s = 0.

(** A mask the range validator accepts. *)
Definition range_mask (m : jstr) (p : Z) : Prop :=
  mask_text m p ∧ 1 <= p <= 32 ∧ (validateNetMask m = 0 ∨ validateNumericRange m 1 31 = 0).

(** The items of an address list and the addresses each stands for. *)
Inductive denotes : jstr → (Z → Prop) → Prop :=
| denotes_host s n : host_text s n → denotes s (λ y, y = n)
| denotes_subnet s n m p : host_text s n → range_mask m p →
    denotes (s ++ 47 :: m) (λ y, y / 2 ^ (32 - p) = n / 2 ^ (32 - p))
| denotes_range s n s' n' : host_text s n → host_text s' n' → n <= n' →
    (n' < 2 ^ 31 ∨ 2 ^ 31 <= n) → denotes (s ++ 45 :: s') (λ y, n <= y <= n').

Section items.

Definition item_char (c : Z) : bool := is_digit c || (c =? 46) || (c =? 47) || (c =? 45).

Lemma quad_item s : Forall (λ c, is_digit c = true ∨ c = 46) s → Forall (λ c, item_char c = true) s.
Proof. intros H. eapply Forall_impl; [done|]. intros c [E| ->]; [|done]. unfold item_char. by rewrite E. Qed.

Lemma denotes_chars s P : denotes s P → Forall (λ c, item_char c = true) s.
Proof.
  destruct 1 as [s n [H _]|s n m p [H _] [Hm _]|s n s' n' [H _] [H' _] _ _].
  - by eapply quad_item, addr_text_chars.
  - rewrite Forall_app, Forall_cons. split_and!; [by eapply quad_item, addr_text_chars|done|by eapply quad_item, mask_text_chars].
  - rewrite Forall_app, Forall_cons. split_and!; [by eapply quad_item, addr_text_chars|done|by eapply quad_item, addr_text_chars].
Qed.

Lemma denotes_nonempty s P : denotes s P → s ≠ [].
Proof.
  assert (H0 : ∀ t n, addr_text t n → t ≠ []).
  { intros t n (a & b & c & d & -> & _). unfold dotted. by destruct a. }
  destruct 1 as [s n [H _]|s n m p [H _] _|s n s' n' [H _] _ _ _]; apply H0 in H; by destruct s.
Qed.

Lemma item_upper s : Forall (λ c, item_char c = true) s → toUpperCase s = s.
Proof.
  unfold toUpperCase. induction 1 as [|c s Hc _ IH]; simpl; [done|]. rewrite IH. f_equal.
  unfold upper_char, item_char, is_digit, is_lower in *. destruct (Z.leb_spec 97 c), (Z.leb_spec c 122); simpl; try done. lia.
Qed.

Lemma item_adj s : Forall (λ c, item_char c = true) s → s ≠ [] → adj s = s.
Proof.
  intros Hs Hne. unfold adj. rewrite (proj2 (str_eqb_neq s [])) by done. rewrite item_upper by done.
  destruct ((s =s js "ALL_OTHERS_COMBINED") || (s =s js "ALL_OTHERS_INDIVIDUAL")) eqn:E; [|done].
  exfalso. destruct s as [|c s]; [done|]. inversion Hs as [|? ? Hc _]; subst.
  apply orb_true_iff in E as [[= -> _]%str_eqb_eq|[= -> _]%str_eqb_eq]; done.
Qed.

Lemma replace_all_none r t s : test r s = false → replace_all r t s = s.
Proof.
  unfold test, exec, replace_all, matches. intros H. simpl matches_from. destruct (search r [] s); [done|]. done.
Qed.

Lemma blank_not_item c : in_set false [(9, 9); (32, 32)] c = true → item_char c = false.
Proof.
  unfold in_set, in_ranges, item_char, is_digit. simpl. lia.
Qed.

Lemma item_strip s : Forall (λ c, item_char c = true) s → strip_blanks s = s.
Proof.
  intros Hs. unfold strip_blanks.
  assert (Hlead : test re_lead_blanks s = false).
  { apply not_true_iff_false. unfold re_lead_blanks. rewrite test_bol. intros (w & suf & c & -> & Hm).
    apply mt_rep_set_iff in Hm as (Hf & Hl & _); [|done]. destruct w as [|x w]; [simpl in Hl; lia|].
    inversion Hf as [|? ? Hx _]; subst. inversion Hs as [|? ? Hi _]; subst. apply blank_not_item in Hx. congruence. }
  rewrite (replace_all_none re_lead_blanks) by done. apply replace_all_none, not_true_iff_false. rewrite test_search.
  intros (gap & w & suf & c & -> & Hm). apply mt_seq_iff in Hm as (w1 & w2 & c' & -> & Hm & _).
  apply mt_rep_set_iff in Hm as (Hf & Hl & _); [|done]. destruct w1 as [|x w1]; [simpl in Hl; lia|].
  inversion Hf as [|? ? Hx _]; subst. rewrite Forall_app in Hs. destruct Hs as [_ Hs]. inversion Hs as [|? ? Hi _]; subst.
  apply blank_not_item in Hx. congruence.
Qed.

Lemma item_no_comma s : Forall (λ c, item_char c = true) s → 44 ∉ s.
Proof. intros Hs Hin. rewrite Forall_forall in Hs. by specialize (Hs _ Hin). Qed.

Lemma item_piece s : Forall (λ c, item_char c = true) s → piece 44 s.
Proof.
  intros Hs. eapply Forall_impl; [done|]. intros c Hc. unfold is_blank. split.
  - apply not_true_iff_false. intros Hb%blank_not_item. congruence.
  - by intros ->.
Qed.

Lemma item_validateMultipleIps s : Forall (λ c, item_char c = true) s → s ≠ [] →
  validateMultipleIps s = let v := validateMultipleIps_one s in v.
Proof.
  intros Hs Hne. unfold validateMultipleIps. rewrite item_strip by done.
  change re_comma_split with (sep_re 44). pose proof (split_re_join 44 [s]) as E. simpl in E. rewrite E.
  2,3: done. 2:{ constructor; [by apply item_piece|done]. }
  simpl. destruct (Z.eqb_spec (validateMultipleIps_one s) 0) as [->|]; done.
Qed.

End items.

Section intervals.

Lemma quad_no c s : Forall (λ c, is_digit c = true ∨ c = 46) s → c = 45 ∨ c = 47 → c ∉ s.
Proof.
  intros H Hc Hin. rewrite Forall_forall in H. specialize (H c Hin).
  destruct Hc as [-> | ->]; by destruct H as [?|?].
Qed.

Lemma indexOf_from_app i (p s : jstr) c : c ∉ p → indexOf_from i (p ++ c :: s) [c] = i + zlen p.
Proof.
  revert i; induction p as [|x p IH]; intros i Hp; simpl.
  - rewrite Z.eqb_refl. simpl. destruct s; unfold zlen; simpl; lia.
  - destruct (Z.eqb_spec c x); [set_solver|]. simpl. rewrite IH by set_solver. unfold zlen. simpl length. lia.
Qed.

Lemma indexOf_from_none i (s : jstr) c : c ∉ s → indexOf_from i s [c] = -1.
Proof.
  revert i; induction s as [|x s IH]; intros i Hs; simpl; [done|].
  destruct (Z.eqb_spec c x); [set_solver|]. simpl. apply IH. set_solver.
Qed.

Lemma host_chars s n : host_text s n → Forall (λ c, is_digit c = true ∨ c = 46) s.
Proof. intros [H _]. by eapply addr_text_chars. Qed.

Lemma host_range s n : host_text s n → 0 <= n < 2 ^ 32.
Proof. intros [H _]. by eapply addr_text_range. Qed.

Lemma dash_split s s' : Forall (λ c, is_digit c = true ∨ c = 46) s → Forall (λ c, is_digit c = true ∨ c = 46) s' →
  split_re (sep_re 45) (s ++ 45 :: s') = [s; s'].
Proof.
  intros H H'. apply (split_re_join 45 [s; s']); [done|done|].
  rewrite !Forall_cons. split_and!; [| |done]; (apply piece_quad; [by right; left|done]).
Qed.

Lemma range_chars s n s' n' : host_text s n → host_text s' n' → Forall (λ c, item_char c = true) (s ++ 45 :: s').
Proof.
  intros H H'. rewrite Forall_app, Forall_cons. split_and!; [by eapply quad_item, host_chars|done|by eapply quad_item, host_chars].
Qed.

(** The verdict of the list validator on a range, and the bounds it is given. *)
Lemma dash_valid s n s' n' : host_text s n → host_text s' n' →
  validateMultipleIps (s ++ 45 :: s') = if Num.signed32 n <=? Num.signed32 n' then 0 else 1.
Proof.
  intros Hs Hs'. rewrite item_validateMultipleIps by (by eapply range_chars || by destruct s).
  pose proof (host_chars _ _ Hs) as Hc. pose proof (host_chars _ _ Hs') as Hc'. cbv zeta. unfold validateMultipleIps_one.
  replace (test re_dash _) with true by (symmetry; apply test_chr; set_solver).
  unfold validate_dash_range. change re_dash_split' with (sep_re 45). rewrite dash_split by done.
  destruct Hs as [Hs Hv], Hs' as [Hs' Hv']. rewrite Hv, Hv'. simpl.
  rewrite (addr_text_getIpInteger _ _ Hs), (addr_text_getIpInteger _ _ Hs'). by numsimpl.
Qed.

Lemma host_integers s n : host_text s n → getIpRangeIntegers s = (Int (Num.signed32 n), Int (Num.signed32 n)).
Proof.
  intros Hs. pose proof (host_chars _ _ Hs) as Hc. unfold getIpRangeIntegers.
  replace (test re_slash s) with false by (symmetry; apply test_chr_false; apply quad_no; auto).
  replace (test re_dash s) with false by (symmetry; apply test_chr_false; apply quad_no; auto).
  by rewrite (addr_text_getIpInteger _ _ (proj1 Hs)).
Qed.

Lemma dash_integers s n s' n' : host_text s n → host_text s' n' →
  getIpRangeIntegers (s ++ 45 :: s') = (Int (Num.signed32 n), Int (Num.signed32 n')).
Proof.
  intros Hs Hs'. pose proof (host_chars _ _ Hs) as Hc. pose proof (host_chars _ _ Hs') as Hc'. unfold getIpRangeIntegers.
  replace (test re_slash _) with false.
  2:{ symmetry. apply test_chr_false. rewrite elem_of_app, elem_of_cons.
      intros [H|[H|H]]; [by eapply quad_no in H; auto|done|by eapply quad_no in H; auto]. }
  replace (test re_dash _) with true by (symmetry; apply test_chr; set_solver).
  change re_dash_split with (sep_re 45). rewrite dash_split by done.
  change (nth_str [s; s'] 0) with s. change (nth_str [s; s'] 1) with s'.
  by rewrite (addr_text_getIpInteger s n), (addr_text_getIpInteger s' n') by (apply Hs || apply Hs').
Qed.

(** The verdict of the list validator on one item. *)
Lemma denotes_valid s P : denotes s P → validateMultipleIps s = 0.
Proof.
  intros Hd. rewrite item_validateMultipleIps by (by eapply denotes_chars || by eapply denotes_nonempty).
  destruct Hd as [s n Hs|s n m p Hs Hm|s n s' n' Hs Hs' Hle Hside]; cbv zeta; unfold validateMultipleIps_one;
    pose proof (host_chars _ _ Hs) as Hc.
  - replace (test re_dash s) with false by (symmetry; apply test_chr_false; apply quad_no; auto).
    unfold validateIpRange, indexOf. change (js "/") with [47]. rewrite indexOf_from_none by (apply quad_no; auto).
    apply Hs.
  - assert (Hmc : Forall (λ c, is_digit c = true ∨ c = 46) m) by (eapply mask_text_chars, Hm).
    replace (test re_dash _) with false.
    2:{ symmetry. apply test_chr_false. rewrite elem_of_app, elem_of_cons.
        intros [H|[H|H]]; [by eapply quad_no in H; auto|done|by eapply quad_no in H; auto]. }
    unfold validateIpRange, indexOf. change (js "/") with [47].
    rewrite indexOf_from_app by (apply quad_no; auto).
    pose proof (denotes_nonempty _ _ (denotes_host s n Hs)) as Hne.
    assert (0 < zlen s) by (destruct s; [done|unfold zlen; simpl; lia]).
    rewrite (proj2 (Z.ltb_lt _ _)) by lia. rewrite split_char_app by (apply quad_no; auto).
    rewrite split_char_none by (apply quad_no; auto). destruct Hs as [_ ->]. destruct Hm as (_ & _ & [-> | ->]); simpl; [done|].
    by rewrite orb_true_r.
  - pose proof (dash_valid _ _ _ _ Hs Hs') as Hv. rewrite item_validateMultipleIps in Hv by (by eapply range_chars || by destruct s).
    unfold validateMultipleIps_one in Hv. rewrite Hv, !signed32_cases by (by eapply host_range).
    destruct (Z.ltb_spec n (2 ^ 31)), (Z.ltb_spec n' (2 ^ 31)); rewrite (proj2 (Z.leb_le _ _)) by lia; done.
Qed.

(** The bounds the item is given are those of the set it denotes. *)
Lemma denotes_interval s P : denotes s P →
  ∃ lo hi, getIpRangeIntegers s = (Int lo, Int hi) ∧ - 2 ^ 31 <= lo <= hi ∧ hi < 2 ^ 31 ∧
    ∀ y, 0 <= y < 2 ^ 32 → (P y ↔ lo <= Num.signed32 y <= hi).
Proof.
  destruct 1 as [s n Hs|s n m p Hs (Hm & Hp & _)|s n s' n' Hs Hs' Hle Hside];
    pose proof (host_chars _ _ Hs) as Hc; pose proof (host_range _ _ Hs) as Hr; pose proof (signed32_range n) as Hsr.
  - exists (Num.signed32 n), (Num.signed32 n). split_and!; [|lia..|].
    + by apply host_integers.
    + intros y Hy. split; [intros ->; lia|]. intros. apply signed32_inj; [done..|lia].
  - eexists _, _. split; [apply cidr_range; [done|apply Hs|done]|].
    destruct (subnet_bounds (Num.signed32 n) (32 - p)) as [E1 E2]; [lia|done|].
    pose proof (signed32_range (Z.land (Num.signed32 n) (- 2 ^ (32 - p)))) as H1.
    unfold Num.band in E1. rewrite E1 in H1.
    pose proof (signed32_range (Z.lor (Num.signed32 n / 2 ^ (32 - p) * 2 ^ (32 - p)) (Num.bnot (- 2 ^ (32 - p))))) as H2.
    unfold Num.bor in E2. rewrite E2 in H2.
    assert (0 < 2 ^ (32 - p)) by (apply Z.pow_pos_nonneg; lia).
    split_and!; [lia..|]. intros y Hy. rewrite subnet_members by lia. done.
  - pose proof (host_range _ _ Hs') as Hr'. pose proof (signed32_range n') as Hsr'. pose proof (host_chars _ _ Hs') as Hc'.
    exists (Num.signed32 n), (Num.signed32 n').
    assert (Hle' : Num.signed32 n <= Num.signed32 n').
    { rewrite !signed32_cases by done. destruct (Z.ltb_spec n (2 ^ 31)), (Z.ltb_spec n' (2 ^ 31)); lia. }
    split_and!; [|lia..|].
    + by apply dash_integers.
    + intros y Hy. rewrite !signed32_cases by done.
      destruct (Z.ltb_spec n (2 ^ 31)), (Z.ltb_spec n' (2 ^ 31)), (Z.ltb_spec y (2 ^ 31)); lia.
Qed.

End intervals.

(** On two items accepted as a host, a subnet or a range that does not
    cross 128.0.0.0, [testSingleAddrOverlap] answers whether some address is in
    both. *)
Lemma single_overlap s1 P1 s2 P2 :
  denotes s1 P1 → denotes s2 P2 →
  ∃ b, testSingleAddrOverlap s1 s2 false = Ret b ∧
    (b = true ↔ ∃ y, 0 <= y < 2 ^ 32 ∧ P1 y ∧ P2 y).
Proof.
  intros H1 H2. pose proof (denotes_chars _ _ H1) as C1. pose proof (denotes_chars _ _ H2) as C2.
  destruct (denotes_interval _ _ H1) as (lo1 & hi1 & E1 & R1 & R1' & M1).
  destruct (denotes_interval _ _ H2) as (lo2 & hi2 & E2 & R2 & R2' & M2).
  assert (Hex : (∃ y, 0 <= y < 2 ^ 32 ∧ P1 y ∧ P2 y) ↔ lo1 <= hi2 ∧ lo2 <= hi1).
  { split.
    - intros (y & Hy & HP1 & HP2). apply M1 in HP1; [|done]. apply M2 in HP2; [|done]. lia.
    - intros Hov. set (z := Z.max lo1 lo2). exists (z mod 2 ^ 32).
      pose proof (Z.mod_pos_bound z (2 ^ 32)) as Hz. specialize (Hz ltac:(lia)).
      assert (Num.signed32 (z mod 2 ^ 32) = z) as Es.
      { unfold Num.signed32, Num.wrap32. rewrite Z.mod_mod by lia.
        change ((let u := z mod 2 ^ 32 in if u <? 2 ^ 31 then u else u - 2 ^ 32)) with (Num.signed32 z).
        apply signed32_small. lia. }
      rewrite M1, M2, Es by done. lia. }
  unfold testSingleAddrOverlap. rewrite !item_adj by (done || by eapply denotes_nonempty).
  rewrite (denotes_valid s1 P1), (denotes_valid s2 P2) by done.
  destruct (s1 =s s2) eqn:E.
  - apply str_eqb_eq in E as ->. exists true. rewrite Hex. rewrite E1 in E2. injection E2 as -> ->. split; [done|]. split; [lia|done].
  - replace (test re_comma s1) with false by (symmetry; apply test_chr_false; by apply item_no_comma).
    replace (test re_comma s2) with false by (symmetry; apply test_chr_false; by apply item_no_comma).
    simpl. eexists. split; [done|]. rewrite Hex, E1, E2. cbn [fst snd]. numsimpl. lia.
Qed.

(** An address list: items joined by commas, with the set each denotes. *)
Definition denotes_list (s : jstr) (Ps : list (Z → Prop)) : Prop :=
  ∃ l, l ≠ [] ∧ s = join [44] l ∧ Forall2 denotes l Ps.

Section lists.

Lemma strip_once_id s : (∀ c, head s = Some c → is_blank c = false) → (∀ c, last s = Some c → is_blank c = false) →
  strip_once s = s.
Proof.
  intros Hh Hl. unfold strip_once.
  rewrite (replace_none re_lead_blanks).
  2:{ apply not_true_iff_false. unfold re_lead_blanks. rewrite test_bol. intros (w & suf & c & -> & Hm).
      apply mt_rep_set_iff in Hm as (Hf & Hn & _); [|done]. destruct w as [|x w]; [simpl in Hn; lia|].
      inversion Hf as [|? ? Hx _]; subst. specialize (Hh x eq_refl). unfold is_blank in Hh. congruence. }
  apply replace_none, not_true_iff_false. rewrite test_search.
  intros (gap & w & suf & c & -> & Hm). apply mt_seq_iff in Hm as (w1 & w2 & c' & -> & Hm & Hm2).
  apply mt_eol_iff in Hm2 as (-> & -> & _). apply mt_rep_set_iff in Hm as (Hf & Hn & _); [|done].
  destruct w1 as [|x w1 _] using rev_ind; [simpl in Hn; lia|].
  rewrite Forall_app, Forall_singleton in Hf. destruct Hf as [_ Hx].
  rewrite !app_nil_r, app_assoc, last_snoc in Hl. specialize (Hl x eq_refl). unfold is_blank in Hl. congruence.
Qed.

Lemma join_chars l : Forall (λ p, Forall (λ c, item_char c = true) p) l →
  Forall (λ c, is_blank c = false) (join [44] l).
Proof.
  assert (Hp : ∀ p, Forall (λ c, item_char c = true) p → Forall (λ c, is_blank c = false) p).
  { intros p H. eapply Forall_impl; [done|]. intros c Hc. apply not_true_iff_false. intros Hb%blank_not_item. congruence. }
  induction 1 as [|p l H Hl IH]; simpl; [done|]. destruct l as [|q l]; [auto|].
  apply Forall_app. split; [auto|]. by constructor.
Qed.

Lemma denotes_list_split s Ps : denotes_list s Ps →
  ∃ l, split_re re_list_sep (strip_once s) = l ∧ Forall2 denotes l Ps.
Proof.
  intros (l & Hne & -> & Hd). exists l. split; [|done].
  assert (Hc : Forall (λ p, Forall (λ c, item_char c = true) p) l).
  { apply Forall_forall. intros p Hp. apply list_elem_of_lookup in Hp as [i Hi].
    destruct (Forall2_lookup_l _ _ _ _ _ Hd Hi) as (P & _ & HP). by eapply denotes_chars. }
  assert (Hb := join_chars l Hc). rewrite Forall_forall in Hb.
  rewrite strip_once_id.
  2:{ intros c H. apply Hb. destruct (join [44] l); [done|]. injection H as ->. by left. }
  2:{ intros c H. apply Hb. by apply last_Some_elem_of in H. }
  apply (split_re_class [(44, 44); (9, 9); (32, 32)]); [done|done|].
  apply Forall_forall. intros p Hp. rewrite Forall_forall in Hc. split.
  - apply list_elem_of_lookup in Hp as [i Hi]. destruct (Forall2_lookup_l _ _ _ _ _ Hd Hi) as (P & _ & HP).
    by eapply denotes_nonempty.
  - eapply Forall_impl; [by apply Hc|]. intros c H. unfold item_char, is_digit, in_set, in_ranges in *. simpl. lia.
Qed.

(** The nested loops stop with the disjunction of the tests. *)
Lemma or_loop {A} (f : A → exn bool) (l : list A) b0 :
  (∀ a, a ∈ l → ∃ b, f a = Ret b) →
  ∃ b, exn_fold (λ (found : bool) a, if found then Ret true else f a) l b0 = Ret b ∧
    (b = true ↔ b0 = true ∨ ∃ a, a ∈ l ∧ f a = Ret true).
Proof.
  revert b0; induction l as [|a l IH]; intros b0 Hl; simpl.
  - exists b0. split; [done|]. set_solver.
  - destruct b0; simpl.
    + destruct (IH true) as (b & -> & Hb); [set_solver|]. exists b. split; [done|]. rewrite Hb. set_solver.
    + destruct (Hl a) as [ba Ha]; [set_solver|]. rewrite Ha. simpl.
      destruct (IH ba) as (b & -> & Hb); [set_solver|]. exists b. split; [done|]. rewrite Hb.
      setoid_rewrite elem_of_cons. split.
      * intros [-> | (x & Hx & E)]; right; [by exists a; auto|by exists x; auto].
      * intros [?|(x & [-> | Hx] & E)]; [done|left; congruence|right; by exists x].
Qed.

Lemma addr_lists_overlap s1 Ps1 s2 Ps2 :
  denotes_list s1 Ps1 → denotes_list s2 Ps2 →
  ∃ b, testAddrOverlap s1 s2 false = Ret b ∧
    (b = true ↔ ∃ y, 0 <= y < 2 ^ 32 ∧ Exists (λ P, P y) Ps1 ∧ Exists (λ P, P y) Ps2).
Proof.
  intros (l1 & E1 & D1)%denotes_list_split (l2 & E2 & D2)%denotes_list_split.
  unfold testAddrOverlap. rewrite E1, E2. clear E1 E2.
  assert (Hs : ∀ a b, a ∈ l1 → b ∈ l2 → ∃ P Q, P ∈ Ps1 ∧ Q ∈ Ps2 ∧ denotes a P ∧ denotes b Q).
  { intros a b [i Ha]%list_elem_of_lookup [j Hb]%list_elem_of_lookup.
    destruct (Forall2_lookup_l _ _ _ _ _ D1 Ha) as (P & HP & ?), (Forall2_lookup_l _ _ _ _ _ D2 Hb) as (Q & HQ & ?).
    exists P, Q. split_and!; [by eapply list_elem_of_lookup_2..|done|done]. }
  set (inner a1 := exn_fold (λ (found : bool) a2, if found then Ret true else testSingleAddrOverlap a1 a2 false) l2 false).
  assert (Hin : ∀ a1, a1 ∈ l1 → ∃ b, inner a1 = Ret b ∧
    (b = true ↔ ∃ a2, a2 ∈ l2 ∧ testSingleAddrOverlap a1 a2 false = Ret true)).
  { intros a1 H1. destruct (or_loop (λ a2, testSingleAddrOverlap a1 a2 false) l2 false) as (b & E & Hb).
    - intros a2 H2. destruct (Hs a1 a2 H1 H2) as (P & Q & _ & _ & HP & HQ).
      destruct (single_overlap _ _ _ _ HP HQ) as (b & -> & _). by exists b.
    - exists b. split; [done|]. rewrite Hb. naive_solver. }
  destruct (or_loop inner l1 false) as (b & E & Hb).
  { intros a1 H1. destruct (Hin a1 H1) as (b & -> & _). by exists b. }
  exists b. split.
  { rewrite <- E. apply exn_fold_ext. intros found a1 _. by destruct found. }
  rewrite Hb. split.
  - intros [|(a1 & H1 & Ei)]; [done|]. destruct (Hin a1 H1) as (b' & Ei' & Hb'). rewrite Ei in Ei'. injection Ei' as <-.
    destruct (proj1 Hb' eq_refl) as (a2 & H2 & Es). destruct (Hs a1 a2 H1 H2) as (P & Q & HP & HQ & DP & DQ).
    destruct (single_overlap _ _ _ _ DP DQ) as (b2 & Es' & Hiff). rewrite Es in Es'. injection Es' as <-.
    destruct (proj1 Hiff eq_refl) as (y & Hy & ? & ?). exists y. rewrite !Exists_exists. naive_solver.
  - intros (y & Hy & (P & HP & HPy)%Exists_exists & (Q & HQ & HQy)%Exists_exists). right.
    apply list_elem_of_lookup in HP as [i HP], HQ as [j HQ].
    destruct (Forall2_lookup_r _ _ _ _ _ D1 HP) as (a1 & Ha & DP), (Forall2_lookup_r _ _ _ _ _ D2 HQ) as (a2 & Hb2 & DQ).
    apply list_elem_of_lookup_2 in Ha, Hb2. exists a1. split; [done|].
    destruct (Hin a1 Ha) as (b' & Ei & Hb'). rewrite Ei. f_equal. apply Hb'. exists a2. split; [done|].
    destruct (single_overlap _ _ _ _ DP DQ) as (b2 & -> & Hiff). f_equal. apply Hiff. by exists y.
Qed.

End lists.

(** C30: on two comma separated lists of such items, [testAddrOverlap] answers
    whether some address belongs to an item of each. *)
Theorem list_overlap_is_intersection s1 Ps1 s2 Ps2 :
  denotes_list s1 Ps1 → denotes_list s2 Ps2 →
  ∃ b, testAddrOverlap s1 s2 false = Ret b ∧
    (b = true ↔ ∃ y, 0 <= y < 2 ^ 32 ∧ Exists (λ P, P y) Ps1 ∧ Exists (λ P, P y) Ps2).
Proof. exact (addr_lists_overlap s1 Ps1 s2 Ps2). Qed.

Lemma list_overlap_is_intersection_witness :
  ∃ b, testAddrOverlap (js "10.0.0.1,192.168.1.64/26") (js "192.168.1.77") false = Ret b ∧
    (b = true ↔ ∃ y, 0 <= y < 2 ^ 32 ∧
       Exists (λ P, P y) [λ y, y = 167772161; λ y, y / 2 ^ (32 - 26) = 3232235840 / 2 ^ (32 - 26)] ∧
       Exists (λ P, P y) [λ y, y = 3232235853]).
Proof.
  apply (list_overlap_is_intersection (js "10.0.0.1,192.168.1.64/26")
    [λ y, y = 167772161; λ y, y / 2 ^ (32 - 26) = 3232235840 / 2 ^ (32 - 26)]
    (js "192.168.1.77") [λ y, y = 3232235853]).
  - exists [js "10.0.0.1"; js "192.168.1.64" ++ 47 :: js "26"]. split_and!; [done|reflexivity|].
    apply Forall2_cons; split; [|apply Forall2_cons; split; [|done]].
    + apply denotes_host. split; [|reflexivity]. exists (js "10"), (js "0"), (js "0"), (js "1").
      split_and!; [reflexivity|by apply octet_eval..|reflexivity].
    + apply denotes_subnet; [split; [|reflexivity]|split_and!; [apply mask_sample|lia|lia|by right]].
      exists (js "192"), (js "168"), (js "1"), (js "64").
      split_and!; [reflexivity|by apply octet_eval..|reflexivity].
  - exists [js "192.168.1.77"]. split_and!; [done|reflexivity|]. apply Forall2_cons; split; [|done].
    apply denotes_host. split; [exact addr_sample|reflexivity].
Defined.

(** C39: addresses are compared as signed integers, which puts 128.0.0.0 and
    above before 0.0.0.0: of two hosts on the two sides, the range from the lower
    to the higher is refused by the range validator, its reverse is accepted, and
    a host overlaps the reverse exactly when it is not strictly between them. *)
Theorem range_across_sign s n s' n' t k :
  host_text s n → host_text s' n' → host_text t k → n < 2 ^ 31 <= n' →
  validateMultipleIps (s ++ 45 :: s') = 1 ∧ validateMultipleIps (s' ++ 45 :: s) = 0 ∧
  ∃ b, testSingleAddrOverlap (s' ++ 45 :: s) t false = Ret b ∧ (b = true ↔ ¬ n < k < n').
Proof.
  intros Hs Hs' Ht Hn. pose proof (host_range _ _ Hs) as R. pose proof (host_range _ _ Hs') as R'.
  pose proof (host_range _ _ Ht) as Rt. pose proof (quad_item _ (host_chars _ _ Ht)) as Ct.
  pose proof (range_chars _ _ _ _ Hs' Hs) as Cr. pose proof (denotes_nonempty _ _ (denotes_host t k Ht)) as Ne.
  assert (El : Num.signed32 n = n) by (rewrite signed32_cases by done; destruct (Z.ltb_spec n (2 ^ 31)); lia).
  assert (Eh : Num.signed32 n' = n' - 2 ^ 32) by (rewrite signed32_cases by done; destruct (Z.ltb_spec n' (2 ^ 31)); lia).
  assert (V : validateMultipleIps (s' ++ 45 :: s) = 0).
  { rewrite (dash_valid _ _ _ _ Hs' Hs), El, Eh. by rewrite (proj2 (Z.leb_le _ _)) by lia. }
  split_and!; [|done|].
  { rewrite (dash_valid _ _ _ _ Hs Hs'), El, Eh. by rewrite (proj2 (Z.leb_gt _ _)) by lia. }
  unfold testSingleAddrOverlap. rewrite !item_adj by (done || by destruct s').
  rewrite V, (denotes_valid t _ (denotes_host t k Ht)).
  rewrite (proj2 (str_eqb_neq _ _)).
  2:{ intros E. apply (quad_no 45 t (host_chars _ _ Ht)); [by left|]. rewrite <- E. set_solver. }
  replace (test re_comma _) with false by (symmetry; apply test_chr_false; by apply item_no_comma).
  replace (test re_comma t) with false by (symmetry; apply test_chr_false; by apply item_no_comma).
  simpl. eexists. split; [done|]. rewrite (dash_integers _ _ _ _ Hs' Hs), (host_integers _ _ Ht), El, Eh. cbn [fst snd].
  numsimpl. rewrite signed32_cases by done. destruct (Z.ltb_spec k (2 ^ 31)); lia.
Qed.

(** Hosts of the samples. *)
Lemma host_sample a : octet (js a) → validateIP (js a ++ js ".0.0.1") = 0 → host_text (js a ++ js ".0.0.1") (dec_val (js a) * 2 ^ 24 + 1).
Proof.
  intros Ha Hv. split; [|done]. exists (js a), (js "0"), (js "0"), (js "1").
  split_and!; [done|done|by apply octet_eval..|]. unfold quad_val.
  replace (dec_val (js "0")) with 0 by done. replace (dec_val (js "1")) with 1 by done. lia.
Qed.

Lemma range_across_sign_witness :
  validateMultipleIps (js "100.0.0.1-200.0.0.1") = 1 ∧ validateMultipleIps (js "200.0.0.1-100.0.0.1") = 0 ∧
  ∃ b, testSingleAddrOverlap (js "200.0.0.1-100.0.0.1") (js "150.0.0.1") false = Ret b ∧
    (b = true ↔ ¬ 1677721601 < 2516582401 < 3355443201).
Proof.
  apply (range_across_sign (js "100.0.0.1") 1677721601 (js "200.0.0.1") 3355443201 (js "150.0.0.1") 2516582401).
  - by apply (host_sample "100"%string); [apply octet_eval|].
  - by apply (host_sample "200"%string); [apply octet_eval|].
  - by apply (host_sample "150"%string); [apply octet_eval|].
  - lia.
Defined.

(** ** The subnet of all addresses *)
Definition zero_mask : jstr := js "0.0.0.0".

Section zero_mask.

Lemma zero_mask_chars : Forall (λ c, is_digit c = true ∨ c = 46) zero_mask.
Proof. repeat (constructor; [by first [left; reflexivity|right; reflexivity]|]). constructor. Qed.

Lemma zero_mask_item s n : host_text s n → Forall (λ c, item_char c = true) (s ++ 47 :: zero_mask).
Proof.
  intros Hs. rewrite Forall_app, Forall_cons. split_and!; [by eapply quad_item, host_chars|done|apply quad_item, zero_mask_chars].
Qed.

Lemma zero_mask_valid s n : host_text s n → validateMultipleIps (s ++ 47 :: zero_mask) = 0.
Proof.
  intros Hs. rewrite item_validateMultipleIps by (by eapply zero_mask_item || by destruct s). cbv zeta. unfold validateMultipleIps_one.
  pose proof (host_chars _ _ Hs) as Hc. pose proof zero_mask_chars as Hz. replace (test re_dash _) with false.
  2:{ symmetry. apply test_chr_false. rewrite elem_of_app, elem_of_cons.
      intros [H|[H|H]]; [by eapply quad_no in H; auto|done|by eapply quad_no in H; auto]. }
  unfold validateIpRange, indexOf. change (js "/") with [47]. rewrite indexOf_from_app by (apply quad_no; auto).
  pose proof (denotes_nonempty _ _ (denotes_host s n Hs)) as Hne.
  assert (0 < zlen s) by (destruct s; [done|unfold zlen; simpl; lia]).
  rewrite (proj2 (Z.ltb_lt _ _)) by lia. rewrite split_char_app by (apply quad_no; auto).
  rewrite split_char_none by (apply quad_no; auto). by destruct Hs as [_ ->].
Qed.

(** The bounds of the subnet: the first is above the last. *)
Lemma zero_mask_integers s n : host_text s n → getIpRangeIntegers (s ++ 47 :: zero_mask) = (Int 0, Int (-1)).
Proof.
  intros Hs. unfold getIpRangeIntegers.
  replace (test re_slash _) with true by (symmetry; apply test_chr; set_solver).
  replace (split_re re_slash_split (s ++ 47 :: zero_mask)) with [s; zero_mask].
  2:{ symmetry. apply (split_re_join 47 [s; zero_mask]); [done|done|].
      rewrite !Forall_cons. split_and!; [| |done]; (apply piece_quad; [by left|]); [by eapply host_chars|apply zero_mask_chars]. }
  change (nth_str [s; zero_mask] 0) with s. rewrite (addr_text_getIpInteger s n) by apply Hs.
  replace (Num.toInt32 (if test re_dot (nth_str [s; zero_mask] 1) then getIpInteger (nth_str [s; zero_mask] 1) else getMaskInteger (nth_str [s; zero_mask] 1)))
    with 0 by (vm_compute; reflexivity).
  unfold Num.band. by rewrite Z.land_0_r.
Qed.

(** The bounds of every other item are on one side of 128.0.0.0. *)
Lemma denotes_one_side s P lo hi : denotes s P → getIpRangeIntegers s = (Int lo, Int hi) → lo <= hi ∧ (hi < 0 ∨ 0 <= lo).
Proof.
  intros Hd E. destruct (denotes_interval s P Hd) as (lo' & hi' & E' & Hle & _). rewrite E in E'. injection E' as <- <-. split; [lia|].
  destruct Hd as [s n Hs|s n m p Hs (Hm & Hp & _)|s n s' n' Hs Hs' Hn Hside].
  - rewrite (host_integers s n Hs) in E. injection E as <- <-. lia.
  - rewrite (cidr_range s n m p) in E by (done || apply Hs). injection E as <- <-.
    assert (0 < 2 ^ (32 - p)) by (apply Z.pow_pos_nonneg; lia).
    set (q := Num.signed32 n / _). destruct (Z.le_gt_cases 0 q); [right; nia|left; nia].
  - rewrite (dash_integers s n s' n' Hs Hs') in E. injection E as <- <-. pose proof (host_range _ _ Hs). pose proof (host_range _ _ Hs').
    rewrite !signed32_cases by done. destruct (Z.ltb_spec n (2 ^ 31)), (Z.ltb_spec n' (2 ^ 31)); lia.
Qed.

End zero_mask.

(** The subnet of all addresses is accepted and overlaps nothing.  An address with the mask 0.0.0.0
    passes the validator, but the bounds that are computed for it are out of order, and
    [testSingleAddrOverlap] answers false, in both orders, on it and any host, any subnet of 1 to 32 bits
    and any range on one side of 128.0.0.0 - although every address is in the subnet. *)
Theorem zero_mask_overlaps_nothing s n t Q : host_text s n → denotes t Q →
  validateMultipleIps (s ++ 47 :: zero_mask) = 0 ∧
  testSingleAddrOverlap (s ++ 47 :: zero_mask) t false = Ret false ∧
  testSingleAddrOverlap t (s ++ 47 :: zero_mask) false = Ret false.
Proof.
  intros Hs Ht. split; [by eapply zero_mask_valid|]. destruct (denotes_interval t Q Ht) as (lo & hi & E & _).
  destruct (denotes_one_side t Q lo hi Ht E) as [Hle Hside]. pose proof (zero_mask_integers s n Hs) as Ez.
  assert (Hne : s ++ 47 :: zero_mask ≠ t) by (intros <-; rewrite E in Ez; injection Ez; lia).
  pose proof (zero_mask_item s n Hs) as Cz. pose proof (denotes_chars t Q Ht) as Ct.
  pose proof (denotes_nonempty t Q Ht) as Nt. assert (Nz : s ++ 47 :: zero_mask ≠ []) by (by destruct s).
  unfold testSingleAddrOverlap. rewrite !item_adj by done.
  rewrite (proj2 (str_eqb_neq _ _) Hne), (proj2 (str_eqb_neq _ _) (not_eq_sym Hne)), (zero_mask_valid s n Hs), (denotes_valid t Q Ht), E, Ez.
  rewrite !(proj2 (test_chr_false 44 _)) by (by apply item_no_comma). cbn [fst snd orb Z.ltb Z.compare]. numsimpl.
  split; f_equal; lia.
Qed.

Lemma zero_mask_overlaps_nothing_witness :
  validateMultipleIps (js "10.0.0.1/0.0.0.0") = 0 ∧
  testSingleAddrOverlap (js "10.0.0.1/0.0.0.0") (js "10.0.0.1") false = Ret false ∧
  testSingleAddrOverlap (js "10.0.0.1") (js "10.0.0.1/0.0.0.0") false = Ret false.
Proof.
  apply (zero_mask_overlaps_nothing (js "10.0.0.1") 167772161 (js "10.0.0.1") (λ y, y = 167772161)); [|apply denotes_host];
    (apply (host_sample "10"%string); [by apply octet_eval|vm_compute; reflexivity]).
Defined.

(** An IPv6 subnet, whose bounds are printed in lower case, does not overlap a host of it
    whose first letter is compared in upper case. *)
Theorem ip6_subnet_misses :
  Ip6.validateMultipleIp6s (js "fe80::/64") = 0 ∧
  testSingleAddrOverlap (js "fe80::1") (js "fe80::/64") true = Ret false ∧
  testSingleAddrOverlap (js "2001::1") (js "2001::/64") true = Ret true.
Proof. split_and!; vm_compute; reflexivity. Qed.
