(* ===== verification/Table.v ===== *)
(** * Tables (table.js)

    A table is a head of rows and a body of rows; a cell holds a list of nodes.
    A node of a cell is text, a line break or an element the caller supplied. *)
From S2P Require Import Prelude JsNum JsString JsRegex.
Open Scope Z_scope.

(** An element placed in a cell. *)
Record widget := MkWidget {
  w_type : jstr;
  w_html : jstr;          (** [innerHTML] of a button *)
  w_disabled : bool;
  w_class : jstr;
  w_checked : bool;       (** of a check box *)
  w_id : jstr;
  w_lines : list jstr     (** of a span: its texts, with a [br] between them *)
}.

(** An element without identifier or lines. *)
Definition mkWidget (type html : jstr) (disabled : bool) (class : jstr) (checked : bool) : widget :=
  MkWidget type html disabled class checked [] [].

#[export] Instance widget_eq_dec : EqDecision widget.
Proof. solve_decision. Defined.

Inductive node := Text (s : jstr) | Br | Elem (w : widget).

Record cell := mkCell { c_class : jstr; c_nodes : list node }.

(** A row of the body; [r_id] is the identity of the element. *)
Record row := mkRow { r_id : nat; r_class : jstr; r_display : jstr; r_cells : list cell }.

(** A row of the head: the titles, or the filter's inputs (value, disabled). *)
Inductive head_row :=
| HTitles (class : jstr) (cells : list (list node))
| HFilter (class : jstr) (inputs : list (jstr * bool)).

Record table := mkTable {
  t_id : jstr;
  t_display : jstr;
  t_head : list head_row;
  t_body : list row;
  t_next : nat
}.

(** A value of [rowData]: a string or an element. *)
Inductive datum := DStr (s : jstr) | DObj (w : widget).

#[export] Instance datum_eq_dec : EqDecision datum.
Proof. solve_decision. Defined.

Module Table.

(** ** classList *)
Definition class_tokens (s : jstr) : list jstr := filter (λ t, t ≠ []) (split_char 32 s).
Definition class_add (t s : jstr) : jstr :=
  let l := class_tokens s in join (js " ") (if bool_decide (t ∈ l) then l else l ++ [t]).
Definition class_remove (t s : jstr) : jstr := join (js " ") (filter (λ x, x ≠ t) (class_tokens s)).

(** ** Construction *)

(** [table.rows.length] *)
Definition num_rows (t : table) : Z := zlen (t_head t) + zlen (t_body t).

Definition tableSanityCheck (t : table) : table :=
  mkTable (t_id t) (if num_rows t <? 2 then js "none" else []) (t_head t) (t_body t) (t_next t).

Definition re_lf : re := Eval vm_compute in rx "\n".
Definition re_amp : re := Eval vm_compute in rx "\&amp;".

(** Text nodes separated by breaks. *)
Fixpoint line_nodes (lines : list jstr) : list node :=
  match lines with
  | [] => []
  | [s] => [Text s]
  | s :: l => Text s :: Br :: line_nodes l
  end.

Definition column_title (c : datum) : list node :=
  match c with
  | DStr s => line_nodes (split_re re_lf (replace_all re_amp (js "&") s))
  | DObj w => [Elem w]
  end.

Definition datum_nodes (d : datum) : list node :=
  match d with DStr s => line_nodes (split_re re_lf s) | DObj w => [Elem w] end.

Section buttons.
(** The label of the button that removes a row ([UI.Remove]). *)
Variable remove_label : jstr.

Definition button (label class : jstr) : node := Elem (mkWidget (js "button") label false class false).

Definition button_nodes (rowsAreRemovable rowsAreMovable : bool) : list node :=
  (if rowsAreRemovable then [button remove_label (js "btn btn-default btn-remove")] else [])
  ++ (if rowsAreMovable
      then [button [8593] (js "btn btn-default btn-move-up"); button [8595] (js "btn btn-default btn-move-down")]
      else []).

Definition column_class (tableId : jstr) (cellIndex : nat) : jstr :=
  tableId ++ js "_column_" ++ str_of_Z (Z.of_nat cellIndex).

Definition addTableRow (t : table) (rowData : list datum) (rowsAreRemovable rowsAreMovable : bool) : table :=
  let contents := map datum_nodes rowData
    ++ map (fun n => [n]) (button_nodes rowsAreRemovable rowsAreMovable) in
  let cells := imap (fun i ns => mkCell (column_class (t_id t) (S i)) ns) contents in
  let numRows := zlen (t_body t) in
  let r := mkRow (t_next t) (if numRows mod 2 =? 0 then js "even" else js "odd") [] cells in
  tableSanityCheck (mkTable (t_id t) (t_display t) (t_head t) (t_body t ++ [r]) (S (t_next t))).

Definition createTable (columnNames : list datum) (rowData : list (list datum)) (tableId : jstr)
    (rowsAreRemovable rowsAreMovable : bool) : table :=
  let titles := map column_title columnNames
    ++ (if rowsAreRemovable then [[Text []]] else [])
    ++ (if rowsAreMovable then [[Text []]; [Text []]] else []) in
  let newTable := mkTable tableId [] [HTitles (js "header_row") titles] [] O in
  tableSanityCheck
    (fold_left (fun t d => addTableRow t d rowsAreRemovable rowsAreMovable) rowData newTable).
End buttons.

(** ** Row classes *)

(** [setElementEnabled] on a button. *)
Definition enable_button (enabled : bool) (w : widget) : widget :=
  MkWidget (w_type w) (w_html w) (negb enabled)
    (if enabled then class_remove (js "disabled") (w_class w) else class_add (js "disabled") (w_class w))
    (w_checked w) (w_id w) (w_lines w).

(** The first node of a cell is enabled or disabled when it is a button. *)
Definition enable_cell (enabled : bool) (c : cell) : exn cell :=
  match c_nodes c with
  | [] => Raise TypeError
  | Elem w :: ns => Ret (if w_type w =s js "button"
                         then mkCell (c_class c) (Elem (enable_button enabled w) :: ns) else c)
  | _ => Ret c
  end.

Fixpoint exn_map {A B} (f : A → exn B) (l : list A) : exn (list B) :=
  match l with
  | [] => Ret []
  | x :: l' => let! y := f x in let! ys := exn_map f l' in Ret (y :: ys)
  end.

Definition row_class (enabled : bool) (rowIndex : Z) : jstr :=
  let parity := if rowIndex mod 2 =? 0 then js "even" else js "odd" in
  if enabled then parity else js "disabled " ++ parity.

Definition set_head_class (class : jstr) (h : head_row) : head_row :=
  match h with HTitles _ cs => HTitles class cs | HFilter _ ins => HFilter class ins end.

(** [rows[0]] is the first row of the head, the others are numbered from 1. *)
Definition head_classes (enabled : bool) (head : list head_row) : list head_row :=
  imap (fun i h => set_head_class
    (if (i =? 0)%nat then (if enabled then js "header_row" else js "disabled header_row")
     else row_class enabled (Z.of_nat i)) h) head.

Definition setRowClasses (t : table) (enabled : bool) : exn table :=
  let base := zlen (t_head t) in
  let! body := exn_map (fun '(i, r) =>
    let! cells := exn_map (enable_cell enabled) (r_cells r) in
    Ret (mkRow (r_id r) (row_class enabled (base + Z.of_nat i)) (r_display r) cells))
    (imap (fun i r => (i, r)) (t_body t)) in
  Ret (tableSanityCheck (mkTable (t_id t) (t_display t) (head_classes enabled (t_head t)) body (t_next t))).

(** ** Removing and moving a row: the row that holds the button *)
Definition with_body (t : table) (body : list row) : table :=
  mkTable (t_id t) (t_display t) (t_head t) body (t_next t).

Definition removeThisCellsRow (t : table) (id : nat) : exn table :=
  setRowClasses (with_body t (filter (λ r, r_id r ≠ id) (t_body t))) true.

(** [while(rowIndex < allRows.length && allRows[rowIndex] != row)] *)
Fixpoint find_row (body : list row) (id : nat) : nat :=
  match body with
  | [] => O
  | r :: body' => if (r_id r =? id)%nat then O else S (find_row body' id)
  end.

(** [removeChild] of the row at an index, then [insertBefore] at another. *)
Definition move_row (body : list row) (from to : nat) : exn (list row) :=
  match body !! from with
  | None => Raise TypeError
  | Some tmp =>
      let rest := delete from body in Ret (take to rest ++ tmp :: drop to rest)
  end.

Definition moveThisCellsRowUp (t : table) (id : nat) : exn table :=
  let rowIndex := find_row (t_body t) id in
  let! body := (if (0 <? rowIndex)%nat then move_row (t_body t) rowIndex (rowIndex - 1) else Ret (t_body t)) in
  setRowClasses (with_body t body) true.

Definition moveThisCellsRowDown (t : table) (id : nat) : exn table :=
  let rowIndex := find_row (t_body t) id in
  let! body :=
    (if (Z.of_nat rowIndex <? zlen (t_body t) - 1) && (1 <? zlen (t_body t))
     then move_row (t_body t) (S rowIndex) rowIndex else Ret (t_body t)) in
  setRowClasses (with_body t body) true.

(** ** Reading the data back *)
Definition cell_datum (c : cell) : exn datum :=
  match c_nodes c with
  | [] => Raise TypeError
  | Text s :: _ => Ret (DStr s)
  | Br :: _ => Ret (DObj (mkWidget [] [] false [] false)) (* the [br] element itself *)
  | Elem w :: _ => Ret (DObj w)
  end.

(** The rows of the head hold [th] cells and are skipped; a row without cells
    has no [firstChild]. *)
Definition getTableDataArray (t : table) (rowsAreRemovable rowsAreMovable : bool) : exn (list (list datum)) :=
  let numEmptyCells := ((if rowsAreRemovable then 1 else 0) + (if rowsAreMovable then 2 else 0))%nat in
  exn_map (fun r =>
    match r_cells r with
    | [] => Raise TypeError
    | cells => exn_map cell_datum (take (length cells - numEmptyCells) cells)
    end) (t_body t).

(** ** Filters *)

(** [TFilter_Data]: table, enabled columns, stored values, focused columns. *)
Record tfilter := mkTFilter {
  tf_table : jstr; tf_cols : list bool; tf_store : list jstr; tf_focus : list bool
}.

Fixpoint find_tfilter (l : list tfilter) (tableID : jstr) (x : nat) : nat :=
  match l with
  | [] => O
  | f :: l' => if tf_table f =s tableID then x else find_tfilter l' tableID (S x)
  end.
Definition getTFilterIDX (data : list tfilter) (tableID : jstr) : nat := find_tfilter data tableID O.

(** [firstChild.innerHTML], or [data] where it is undefined. *)
Definition cell_text (c : cell) : exn jstr :=
  match c_nodes c with
  | [] => Raise TypeError
  | Text s :: _ => Ret s
  | Br :: _ => Ret []
  | Elem w :: _ => Ret (w_html w)
  end.

(** The loop over the cells of a row: the first cell whose text does not contain
    its filter hides the row.  A column without a filter is compared with the
    text of [undefined]. *)
Fixpoint row_shown (filters : list jstr) (cells : list cell) (y : nat) : exn bool :=
  match cells with
  | [] => Ret true
  | c :: cells' =>
      let f := filters !! y in
      if bool_decide (f = Some []) then row_shown filters cells' (S y)
      else
        let! text := cell_text c in
        if contains (toUpperCase text) (default (js "undefined") f)
        then row_shown filters cells' (S y) else Ret false
  end.

Definition filter_values (t : table) : list jstr :=
  match t_head t with
  | HFilter class inputs :: _ => if class =s js "filter_row" then map (fun i => toUpperCase (fst i)) inputs else []
  | _ => []
  end.

Definition applyTableFilter (t : table) : exn table :=
  let! body := exn_map (fun r =>
    let! shown := row_shown (filter_values t) (r_cells r) O in
    Ret (mkRow (r_id r) (r_class r) (if shown then [] else js "none") (r_cells r))) (t_body t) in
  Ret (with_body t body).

(** The input of column [x] of the filter row: a new input is enabled and
    empty; a missing entry of the arrays reads as [undefined]. *)
Definition filter_input (cols : list bool) (store : list jstr) (x : nat) : jstr * bool :=
  let disabled :=
    match cols with
    | [] => true
    | _ => if (x <=? length cols)%nat then negb (default false (cols !! x)) else false
    end in
  let value :=
    match store with
    | [] => []
    | _ => if (x <=? length store)%nat then default (js "undefined") (store !! x) else []
    end in
  (value, disabled).

(** The new row goes before the titles. *)
Definition createTableFilter (t : table) (cols : list bool) (store : list jstr) : exn table :=
  match t_head t with
  | HTitles class cells :: rest =>
      let inputs := map (filter_input cols store) (seq 0 (length cells)) in
      applyTableFilter (mkTable (t_id t) (t_display t)
        (HFilter (js "filter_row") inputs :: t_head t) (t_body t) (t_next t))
  | HFilter class ins :: rest =>
      let inputs := map (filter_input cols store) (seq 0 (length ins)) in
      applyTableFilter (mkTable (t_id t) (t_display t)
        (HFilter (js "filter_row") inputs :: t_head t) (t_body t) (t_next t))
  | [] => Raise TypeError
  end.

(** [arr[x] = v]: an index past the end extends the array; the loop only
    writes the next index. *)
Definition array_set {A} (d : A) (l : list A) (x : nat) (v : A) : list A :=
  if (x <? length l)%nat then <[x := v]> l else l ++ replicate (x - length l) d ++ [v].

(** [focused] is the index of the input that is [document.activeElement]. *)
Definition storeTableFilter (data : list tfilter) (t : table) (focused : option nat) : list tfilter :=
  match t_head t with
  | HFilter class inputs :: _ =>
      if class =s js "filter_row" then
        let idx := getTFilterIDX data (t_id t) in
        alter (fun f => fold_left (fun f '(x, i) =>
          mkTFilter (tf_table f) (tf_cols f) (array_set [] (tf_store f) x (fst i))
            (array_set false (tf_focus f) x (bool_decide (focused = Some x))))
          (imap (fun x i => (x, i)) inputs) f) idx data
      else data
  | _ => data
  end.

End Table.
