(* ===== verification/TableFacts.v ===== *)
(** * Properties of tables *)
From S2P Require Import Prelude JsNum JsString JsRegex Table.
Import Table.
Open Scope Z_scope.

Section exn_map.
Context {A B : Type}.

Lemma exn_map_Forall2 (f : A → exn B) l k : exn_map f l = Ret k ↔ Forall2 (λ x y, f x = Ret y) l k.
Proof.
  revert k; induction l as [|x l IH]; intros k; simpl.
  - split; [intros [= <-]; constructor|by inversion 1].
  - split.
    + destruct (f x) as [y|] eqn:Ef; [|done]. simpl. destruct (exn_map f l) as [ys|]; [|done]. simpl.
      intros [= <-]. constructor; [done|]. by apply IH.
    + inversion 1 as [|? y ? ys Ef Hl]; subst. apply IH in Hl. rewrite Ef. simpl. by rewrite Hl.
Qed.

Lemma exn_map_ret (f : A → exn B) (g : A → B) l : (∀ x, x ∈ l → f x = Ret (g x)) → exn_map f l = Ret (map g l).
Proof.
  induction l as [|x l IH]; intros H; simpl; [done|].
  rewrite H by set_solver. simpl. rewrite IH by set_solver. done.
Qed.

End exn_map.

Lemma exn_map_imap {A B C} (f : B → exn C) (g : nat → A → B) (h : A → C) l :
  (∀ i a, l !! i = Some a → f (g i a) = Ret (h a)) → exn_map f (imap g l) = Ret (map h l).
Proof.
  intros H. apply exn_map_Forall2, Forall2_lookup. intros i. rewrite list_lookup_imap, list_lookup_fmap.
  destruct (l !! i) eqn:E; constructor. by apply H.
Qed.

(** What a table shows of its rows, without the last [k] cells. *)
Definition row_data (k : nat) (r : row) : option (list datum) :=
  match exn_map cell_datum (take (length (r_cells r) - k) (r_cells r)) with Ret l => Some l | _ => None end.

(** Every cell has a first node, every row a first cell. *)
Definition cells_ok (r : row) : Prop := r_cells r ≠ [] ∧ Forall (λ c, c_nodes c ≠ []) (r_cells r).

(** Well-formed tables: one row of titles, distinct rows, and the table hidden
    exactly when it has no row. *)
Record table_wf (t : table) : Prop := {
  wf_head : ∃ class titles, t_head t = [HTitles class titles];
  wf_ids : NoDup (map r_id (t_body t));
  wf_next : Forall (λ r, r_id r < t_next t)%nat (t_body t);
  wf_cells : Forall cells_ok (t_body t);
  wf_display : t_display t = if decide (t_body t = []) then js "none" else []
}.

(** What [setRowClasses] makes of a datum. *)
Definition set_datum (enabled : bool) (d : datum) : datum :=
  match d with
  | DObj w => DObj (if w_type w =s js "button" then enable_button enabled w else w)
  | DStr s => DStr s
  end.
Definition enabled_datum : datum → datum := set_datum true.

Section operations.
Context (b : bool).

Lemma sanity_display t class titles : t_head t = [HTitles class titles] →
  t_display (tableSanityCheck t) = if decide (t_body t = []) then js "none" else [].
Proof.
  intros H. unfold tableSanityCheck. cbn [t_display]. unfold num_rows. rewrite H.
  destruct (t_body t) as [|r l]; [done|]. rewrite (proj2 (Z.ltb_ge _ _)) by (unfold zlen; simpl length; lia). done.
Qed.

Lemma cell_datum_ok c : c_nodes c ≠ [] → ∃ d, cell_datum c = Ret d.
Proof. unfold cell_datum. destruct (c_nodes c) as [|[]]; [done|eauto..]. Qed.

(** [setRowClasses] on rows that have their cells. *)
Definition set_cell (c : cell) : cell :=
  match c_nodes c with
  | Elem w :: ns => if w_type w =s js "button" then mkCell (c_class c) (Elem (enable_button b w) :: ns) else c
  | _ => c
  end.

Definition set_row_enabled (base : Z) (i : nat) (r : row) : row :=
  mkRow (r_id r) (row_class b (base + Z.of_nat i)) (r_display r) (map set_cell (r_cells r)).

Lemma enable_cell_ret c : c_nodes c ≠ [] → enable_cell b c = Ret (set_cell c).
Proof. unfold enable_cell, set_cell. destruct (c_nodes c) as [|[]]; [done|done|done|]. by destruct (w_type w =s _). Qed.

Lemma set_cell_datum_eq c : cell_datum (set_cell c) =
  match cell_datum c with Ret d => Ret (set_datum b d) | Raise e => Raise e end.
Proof.
  unfold set_cell, cell_datum, set_datum. destruct (c_nodes c) as [|[s| |w] l] eqn:E; rewrite ?E; try done.
  destruct (w_type w =s js "button") eqn:Eb; simpl; [done|by rewrite E].
Qed.

Lemma setRowClasses_ret t : Forall cells_ok (t_body t) →
  setRowClasses t b = Ret (tableSanityCheck (mkTable (t_id t) (t_display t) (head_classes b (t_head t))
    (imap (set_row_enabled (zlen (t_head t))) (t_body t)) (t_next t))).
Proof.
  intros Hok. unfold setRowClasses.
  rewrite (exn_map_ret _ (λ '(i, r), set_row_enabled (zlen (t_head t)) i r)).
  - simpl. do 3 f_equal. apply list_eq. intros i. rewrite list_lookup_imap.
    rewrite list_lookup_fmap, list_lookup_imap. by destruct (t_body t !! i).
  - intros [i r] Hin. apply elem_of_lookup_imap in Hin as (j & r' & [= -> ->] & Hj).
    rewrite Forall_forall in Hok. destruct (Hok r' (list_elem_of_lookup_2 _ _ _ Hj)) as [_ Hc].
    rewrite (exn_map_ret _ set_cell); [done|].
    intros c Hc'. rewrite Forall_forall in Hc. by apply enable_cell_ret, Hc.
Qed.

Lemma set_row_ok base i r : cells_ok r → cells_ok (set_row_enabled base i r).
Proof.
  intros [Hne Hc]. split; simpl; [by destruct (r_cells r)|].
  apply Forall_map. eapply Forall_impl; [done|]. intros c H. simpl. unfold set_cell.
  destruct (c_nodes c) as [|[s| |w] l] eqn:E; [done|by rewrite E|by rewrite E|].
  destruct (w_type w =s js "button"); simpl; [done|by rewrite E].
Qed.

Lemma set_row_data_eq k base i r :
  row_data k (set_row_enabled base i r) = map (set_datum b) <$> row_data k r.
Proof.
  unfold row_data. simpl r_cells. rewrite length_map, firstn_map.
  generalize (take (length (r_cells r) - k) (r_cells r)). intros l.
  assert (exn_map cell_datum (map set_cell l) =
    match exn_map cell_datum l with Ret x => Ret (map (set_datum b) x) | Raise e => Raise e end) as ->.
  { induction l as [|c l IH]; simpl; [done|]. rewrite set_cell_datum_eq. destruct (cell_datum c); simpl; [|done].
    rewrite IH. by destruct (exn_map cell_datum l). }
  by destruct (exn_map cell_datum l).
Qed.

(** A change of the body followed by [setRowClasses]. *)
Lemma relabel_wf t body : table_wf t → NoDup (map r_id body) → (∀ r, r ∈ body → r ∈ t_body t) →
  ∃ t', setRowClasses (with_body t body) b = Ret t' ∧ table_wf t' ∧
    ∀ k, map (row_data k) (t_body t') = map (λ r, map (set_datum b) <$> row_data k r) body.
Proof.
  intros [(cl & tl & Hh) _ Hn Hc _] Hnd Hsub.
  assert (Hc' : Forall cells_ok body) by (rewrite Forall_forall in *; auto).
  assert (Hn' : Forall (λ r, r_id r < t_next t)%nat body) by (rewrite Forall_forall in *; auto).
  eexists. split; [by apply setRowClasses_ret|]. split.
  - constructor.
    + simpl. rewrite Hh. by eexists _, _.
    + simpl. assert (map r_id (imap (set_row_enabled (zlen (t_head t))) body) = map r_id body) as ->; [|done].
      apply list_eq. intros i. rewrite !list_lookup_fmap, list_lookup_imap. by destruct (body !! i).
    + simpl. apply Forall_lookup. intros i r. rewrite list_lookup_imap. destruct (body !! i) eqn:E; [|done]. simpl.
      intros [= <-]. rewrite Forall_lookup in Hn'. by apply (Hn' _ _ E).
    + simpl. apply Forall_lookup. intros i r. rewrite list_lookup_imap. destruct (body !! i) eqn:E; [|done]. simpl.
      intros [= <-]. apply set_row_ok. rewrite Forall_lookup in Hc'. by apply (Hc' _ _ E).
    + erewrite sanity_display by (simpl; rewrite Hh; reflexivity). simpl. by destruct body.
  - intros k. simpl. apply list_eq. intros i. rewrite !list_lookup_fmap, list_lookup_imap.
    destruct (body !! i); simpl; [|done]. by rewrite set_row_data_eq.
Qed.

End operations.

(** Exchange of the elements [i] and [i + 1]. *)
Fixpoint swap_next {A} (i : nat) (l : list A) : list A :=
  match i, l with
  | O, a :: b :: l' => b :: a :: l'
  | S i', x :: l' => x :: swap_next i' l'
  | _, _ => l
  end.

Section moves.

Lemma swap_next_map {A B} (f : A → B) i l : map f (swap_next i l) = swap_next i (map f l).
Proof.
  revert l; induction i as [|i IH]; intros l.
  - by destruct l as [|a [|b l]].
  - destruct l as [|a l]; simpl; [done|]. by rewrite IH.
Qed.

Lemma swap_next_perm {A} i (l : list A) : swap_next i l ≡ₚ l.
Proof.
  revert l; induction i as [|i IH]; intros l.
  - destruct l as [|a [|b l]]; simpl; [done|done|apply Permutation_swap].
  - destruct l as [|a l]; simpl; [done|]. by rewrite IH.
Qed.

Lemma move_row_swap body i : (S i < length body)%nat → move_row body (S i) i = Ret (swap_next i body).
Proof.
  intros Hi. unfold move_row. destruct (lookup_lt_is_Some_2 body (S i) Hi) as [r Hr]. rewrite Hr. f_equal.
  revert i Hi Hr. induction body as [|a body IH]; intros i Hi Hr; [done|].
  destruct i as [|i].
  - destruct body as [|b body]; [done|]. injection Hr as ->. by simpl.
  - simpl in *. f_equal. apply IH; [lia|done].
Qed.

Lemma find_row_index body i r : NoDup (map r_id body) → body !! i = Some r → find_row body (r_id r) = i.
Proof.
  revert i; induction body as [|a body IH]; intros i Hnd Hi; [done|]. simpl in *.
  apply NoDup_cons in Hnd as [Hn Hnd]. destruct i as [|i].
  - injection Hi as ->. by rewrite Nat.eqb_refl.
  - simpl in Hi. destruct (Nat.eqb_spec (r_id a) (r_id r)) as [E|].
    + exfalso. apply Hn. rewrite E. apply (list_elem_of_fmap_2' r_id _ r (r_id r)); [|done]. by eapply list_elem_of_lookup_2.
    + f_equal. by apply IH.
Qed.

Lemma filter_delete body i r : NoDup (map r_id body) → body !! i = Some r →
  filter (λ x, r_id x ≠ r_id r) body = delete i body.
Proof.
  revert i; induction body as [|a body IH]; intros i Hnd Hi; [done|]. simpl in Hnd.
  apply NoDup_cons in Hnd as [Hn Hnd]. destruct i as [|i]; rewrite filter_cons.
  - injection Hi as ->. rewrite decide_False by naive_solver. simpl.
    clear -Hn. induction body as [|b body IH]; [done|]. rewrite filter_cons.
    simpl in Hn. rewrite decide_True by set_solver. f_equal. apply IH. set_solver.
  - simpl in Hi. rewrite decide_True.
    2:{ intros E. apply Hn. rewrite E. apply (list_elem_of_fmap_2' r_id _ r (r_id r)); [|done]. by eapply list_elem_of_lookup_2. }
    simpl. f_equal. by apply IH.
Qed.

Lemma table_data_rows t rem mov D : table_wf t →
  getTableDataArray t rem mov = Ret D ↔
  map (row_data ((if rem then 1 else 0) + (if mov then 2 else 0))) (t_body t) = map Some D.
Proof.
  intros Hwf. pose proof (wf_cells _ Hwf) as Hc. unfold getTableDataArray. rewrite exn_map_Forall2.
  set (k := ((if rem then 1 else 0) + (if mov then 2 else 0))%nat). clearbody k.
  revert D. induction (t_body t) as [|r l IH]; intros D.
  - split; [by inversion 1|]. by destruct D.
  - inversion Hc as [|? ? [Hr _] Hc']; subst.
    assert (Hone : ∀ d, match r_cells r with [] => Raise TypeError
      | _ => exn_map cell_datum (take (length (r_cells r) - k) (r_cells r)) end = Ret d ↔ row_data k r = Some d).
    { intros d. unfold row_data. destruct (r_cells r); [done|].
      destruct (exn_map cell_datum _); split; intros H; by inversion H. }
    split.
    + inversion 1 as [|? d ? D' Hd HD]; subst. simpl. f_equal; [|by apply IH]. apply Hone. revert Hd. by destruct (r_cells r).
    + destruct D as [|d D]; [done|]. simpl. intros [= H1 H2]. constructor; [|by apply IH]. apply Hone in H1. revert H1. by destruct (r_cells r).
Qed.

End moves.

(** A datum that is kept as it is: one line of text, or an element. *)
Definition one_line (d : datum) : Prop := match d with DStr s => 10 ∉ s | DObj _ => True end.

(** A table under use: rows added, removed and moved by their buttons. *)
Section use.
Variable remove_label : jstr.
Variables rem mov : bool.

Inductive table_step : table → table → Prop :=
| step_add t d : d ≠ [] ∨ rem = true ∨ mov = true →
    table_step t (addTableRow remove_label t d rem mov)
| step_remove t t' i r : t_body t !! i = Some r → removeThisCellsRow t (r_id r) = Ret t' → table_step t t'
| step_up t t' i r : t_body t !! i = Some r → moveThisCellsRowUp t (r_id r) = Ret t' → table_step t t'
| step_down t t' i r : t_body t !! i = Some r → moveThisCellsRowDown t (r_id r) = Ret t' → table_step t t'.

Lemma line_nodes_ne l : l ≠ [] → line_nodes l ≠ [].
Proof. by destruct l as [|a [|b l]]. Qed.

Lemma split_lf_ne s : split_re re_lf s ≠ [].
Proof. change re_lf with (RSet false [(10, 10)]). rewrite split_re_chr. apply split_char_nonempty. Qed.

Lemma datum_nodes_ne d : datum_nodes d ≠ [].
Proof. destruct d; simpl; [|done]. apply line_nodes_ne, split_lf_ne. Qed.

Lemma new_row_cells_ok t d r : d ≠ [] ∨ rem = true ∨ mov = true →
  t_body (addTableRow remove_label t d rem mov) = t_body t ++ [r] → cells_ok r.
Proof.
  intros Hd E. unfold addTableRow in E. cbn [t_body tableSanityCheck] in E. apply app_inj_tail in E as [_ <-].
  split; simpl.
  - destruct Hd as [Hd|Hd]; [by destruct d|]. intros E%(f_equal length). rewrite length_imap, length_app, !length_map in E.
    unfold button_nodes in E. rewrite length_app in E. destruct Hd as [-> | ->]; simpl in E; [lia|destruct rem; simpl in E; lia].
  - apply Forall_lookup. intros i c. rewrite list_lookup_imap.
    destruct ((map datum_nodes d ++ map (λ n, [n]) (button_nodes remove_label rem mov)) !! i) as [ns|] eqn:E; [|done].
    simpl. intros [= <-]. simpl. apply list_elem_of_lookup_2 in E. apply elem_of_app in E as [E|E].
    + apply list_elem_of_fmap in E as (x & -> & _). apply datum_nodes_ne.
    + by apply list_elem_of_fmap in E as (x & -> & _).
Qed.

Lemma addTableRow_wf t d : table_wf t → d ≠ [] ∨ rem = true ∨ mov = true →
  table_wf (addTableRow remove_label t d rem mov).
Proof.
  intros [(cl & tl & Hh) Hi Hn Hc _] Hd.
  assert (∃ r, t_body (addTableRow remove_label t d rem mov) = t_body t ++ [r] ∧ r_id r = t_next t) as (r & Eb & Er).
  { by eexists. }
  pose proof (new_row_cells_ok t d r Hd Eb) as Hr.
  constructor.
  - by eexists _, _.
  - rewrite Eb, map_app. simpl. rewrite Er. apply NoDup_app. split_and!; [done| |apply NoDup_singleton].
    intros x (r' & -> & Hr')%list_elem_of_fmap. rewrite Forall_forall in Hn. specialize (Hn _ Hr').
    rewrite list_elem_of_singleton. lia.
  - rewrite Eb. simpl. apply Forall_app. split; [|constructor; [simpl; lia|done]]. eapply Forall_impl; [exact Hn|]. simpl. lia.
  - rewrite Eb. apply Forall_app. split; [done|]. by constructor.
  - unfold addTableRow. erewrite sanity_display by done. simpl t_body.
    by rewrite !decide_False by (by destruct (t_body t)).
Qed.

Lemma remove_effect t i r : table_wf t → t_body t !! i = Some r →
  ∃ t', removeThisCellsRow t (r_id r) = Ret t' ∧ table_wf t' ∧
    ∀ k, map (row_data k) (t_body t') = map (λ r, map enabled_datum <$> row_data k r) (delete i (t_body t)).
Proof.
  intros Hwf Hi. unfold removeThisCellsRow. rewrite (filter_delete _ i r) by (done || apply Hwf).
  apply relabel_wf; [done| |].
  - pose proof (wf_ids _ Hwf) as Hnd. rewrite (delete_Permutation (t_body t) i r Hi) in Hnd. simpl in Hnd.
    by apply NoDup_cons in Hnd as [_ ?].
  - intros x Hx. rewrite (delete_Permutation (t_body t) i r Hi). by right.
Qed.

Lemma swap_effect t i : table_wf t →
  ∃ t', setRowClasses (with_body t (swap_next i (t_body t))) true = Ret t' ∧ table_wf t' ∧
    ∀ k, map (row_data k) (t_body t') = map (λ r, map enabled_datum <$> row_data k r) (swap_next i (t_body t)).
Proof.
  intros Hwf. apply relabel_wf; [done| |].
  - rewrite swap_next_map, swap_next_perm. apply Hwf.
  - intros r. by rewrite swap_next_perm.
Qed.

Lemma swap_next_last {A} i (l : list A) : (length l ≤ S i)%nat → swap_next i l = l.
Proof.
  revert l; induction i as [|i IH]; intros l Hl.
  - destruct l as [|a [|b l]]; simpl in *; [done|done|lia].
  - destruct l as [|a l]; simpl in *; [done|]. rewrite IH by lia. done.
Qed.

Lemma up_effect t i r : table_wf t → t_body t !! i = Some r →
  ∃ t', moveThisCellsRowUp t (r_id r) = Ret t' ∧ table_wf t' ∧
    ∀ k, map (row_data k) (t_body t') = map (λ r, map enabled_datum <$> row_data k r)
      (match i with O => t_body t | S j => swap_next j (t_body t) end).
Proof.
  intros Hwf Hi. unfold moveThisCellsRowUp. rewrite (find_row_index _ i r) by (done || apply Hwf).
  destruct i as [|j]; simpl Nat.ltb; cbv iota.
  - simpl. apply relabel_wf; [done|apply Hwf|done].
  - change (0 <? S j)%nat with true. cbv iota. replace (S j - 1)%nat with j by lia.
    rewrite move_row_swap by (by eapply lookup_lt_Some). by apply swap_effect.
Qed.

Lemma down_effect t i r : table_wf t → t_body t !! i = Some r →
  ∃ t', moveThisCellsRowDown t (r_id r) = Ret t' ∧ table_wf t' ∧
    ∀ k, map (row_data k) (t_body t') = map (λ r, map enabled_datum <$> row_data k r) (swap_next i (t_body t)).
Proof.
  intros Hwf Hi. unfold moveThisCellsRowDown. rewrite (find_row_index _ i r) by (done || apply Hwf).
  pose proof (lookup_lt_Some _ _ _ Hi) as Hlt.
  destruct (Z.ltb_spec (Z.of_nat i) (zlen (t_body t) - 1)) as [H|H]; simpl andb; unfold zlen in *.
  - rewrite (proj2 (Z.ltb_lt 1 _)) by lia. rewrite move_row_swap by lia. by apply swap_effect.
  - rewrite swap_next_last by lia. apply relabel_wf; [done|apply Hwf|done].
Qed.

Lemma step_wf t t' : table_wf t → table_step t t' → table_wf t'.
Proof.
  intros Hwf Hs. revert Hwf. destruct Hs as [t0 d Hd|t0 t1 i r Hi E|t0 t1 i r Hi E|t0 t1 i r Hi E]; intros Hwf.
  - by apply addTableRow_wf.
  - destruct (remove_effect t0 i r) as (t2 & E2 & ? & _); [done..|congruence].
  - destruct (up_effect t0 i r) as (t2 & E2 & ? & _); [done..|congruence].
  - destruct (down_effect t0 i r) as (t2 & E2 & ? & _); [done..|congruence].
Qed.

Lemma wf_sanity t : table_wf t → table_wf (tableSanityCheck t).
Proof.
  intros [(cl & tl & Hh) Hi Hn Hc _]. constructor; [by eexists _, _|done..|]. by erewrite sanity_display.
Qed.

Lemma createTable_rows cols data id (t0 := mkTable id [] [HTitles (js "header_row") cols] [] O) :
  Forall (λ d, d ≠ [] ∨ rem = true ∨ mov = true) data →
  table_wf (tableSanityCheck (fold_left (λ t d, addTableRow remove_label t d rem mov) data t0)).
Proof.
  intros Hd. destruct data as [|d data].
  - simpl. constructor; simpl; [by eexists _, _|constructor|constructor|constructor|done].
  - inversion Hd as [|? ? H1 H2]; subst. simpl. apply wf_sanity.
    assert (H0 : table_wf (addTableRow remove_label t0 d rem mov)).
    { change (table_wf (addTableRow remove_label (tableSanityCheck t0) d rem mov)).
      apply addTableRow_wf; [|done]. constructor; simpl; [by eexists _, _|constructor|constructor|constructor|done]. }
    clearbody t0. revert H0. generalize (addTableRow remove_label t0 d rem mov). clear Hd H1.
    induction H2 as [|d' l Hd' _ IH]; intros t Ht; simpl; [done|]. apply IH. by apply addTableRow_wf.
Qed.

End use.

Section contents.
Variable remove_label : jstr.
Variables rem mov : bool.
Let k : nat := ((if rem then 1 else 0) + (if mov then 2 else 0))%nat.

Lemma cell_datum_nodes class d : one_line d → cell_datum (mkCell class (datum_nodes d)) = Ret d.
Proof.
  destruct d as [s|w]; simpl; [|done]. intros Hs. change re_lf with (RSet false [(10, 10)]).
  rewrite split_re_chr. by rewrite split_char_none.
Qed.

Lemma length_button_nodes : length (button_nodes remove_label rem mov) = k.
Proof. unfold button_nodes, k. by destruct rem, mov. Qed.

Lemma add_rows_data data t :
  Forall (Forall one_line) data →
  map (row_data k) (t_body (fold_left (λ t d, addTableRow remove_label t d rem mov) data t)) =
  map (row_data k) (t_body t) ++ map Some data.
Proof.
  intros Hd. revert t. induction Hd as [|d data Hd _ IH]; intros t; simpl; [by rewrite app_nil_r|].
  rewrite IH. unfold addTableRow at 1. cbn [t_body tableSanityCheck]. rewrite map_app, <- app_assoc. f_equal. simpl.
  f_equal. unfold row_data. cbn [r_cells]. rewrite imap_app, length_app, !length_imap, !length_map, length_button_nodes.
  rewrite Nat.add_sub, take_app_length' by (by rewrite length_imap, length_map).
  assert (E : ∀ f, exn_map cell_datum (imap (λ i ns, mkCell (f i) ns) (map datum_nodes d)) = Ret d); [|by rewrite E].
  intros f. apply exn_map_Forall2. revert f. induction Hd as [|x d Hx _ IHd]; intros f; simpl; [constructor|].
  constructor; [by apply cell_datum_nodes|]. apply (IHd (λ i, f (S i))).
Qed.

End contents.

(** The data of a table is read back as it was given: [getTableDataArray]
    of the table [createTable] builds returns the rows of the argument, for rows
    of elements and of texts without a line break, with or without the buttons. *)
Theorem table_roundtrip remove_label columnNames data tableId rem mov :
  Forall (λ d, d ≠ [] ∨ rem = true ∨ mov = true) data → Forall (Forall one_line) data →
  getTableDataArray (createTable remove_label columnNames data tableId rem mov) rem mov = Ret data.
Proof.
  intros Hne Hd. apply table_data_rows.
  - unfold createTable. by apply createTable_rows.
  - unfold createTable. cbn [t_body tableSanityCheck]. by rewrite add_rows_data.
Qed.

Lemma table_roundtrip_witness :
  getTableDataArray (createTable (js "Remove") [DStr (js "Host")] [[DStr (js "10.0.0.1")]; [DStr (js "10.0.0.2")]]
    (js "t") true true) true true = Ret [[DStr (js "10.0.0.1")]; [DStr (js "10.0.0.2")]].
Proof.
  apply (table_roundtrip (js "Remove") [DStr (js "Host")] [[DStr (js "10.0.0.1")]; [DStr (js "10.0.0.2")]] (js "t") true true).
  - repeat constructor; auto.
  - by repeat (constructor; [repeat (constructor; [vm_compute; set_solver|]); constructor|]).
Defined.

(** A table under use stays well formed: from [createTable], any sequence of
    additions, removals and moves of rows never throws, keeps the rows distinct
    and their cells non-empty, and hides the table exactly when it has no row. *)
Theorem table_use_wf remove_label columnNames data tableId rem mov t :
  Forall (λ d, d ≠ [] ∨ rem = true ∨ mov = true) data →
  rtc (table_step remove_label rem mov) (createTable remove_label columnNames data tableId rem mov) t →
  table_wf t ∧
  ∀ i r, t_body t !! i = Some r →
    (∃ t', removeThisCellsRow t (r_id r) = Ret t') ∧
    (∃ t', moveThisCellsRowUp t (r_id r) = Ret t') ∧
    (∃ t', moveThisCellsRowDown t (r_id r) = Ret t').
Proof.
  intros Hne Hs.
  assert (Hwf : table_wf t).
  { revert Hs. generalize (createTable_rows remove_label rem mov
      (map column_title columnNames ++ (if rem then [[Text []]] else []) ++ (if mov then [[Text []]; [Text []]] else [])) data tableId Hne).
    fold (createTable remove_label columnNames data tableId rem mov). generalize (createTable remove_label columnNames data tableId rem mov).
    intros t0 H0 Hs. induction Hs as [|t1 t2 t3 Hs _ IH]; [done|]. apply IH. by eapply step_wf. }
  split; [done|]. intros i r Hi. split_and!.
  - destruct (remove_effect t i r Hwf Hi) as (t' & ? & _). by exists t'.
  - destruct (up_effect t i r Hwf Hi) as (t' & ? & _). by exists t'.
  - destruct (down_effect t i r Hwf Hi) as (t' & ? & _). by exists t'.
Qed.

(** C35: the buttons do what they say on the data of the table: removing the row
    [i] deletes element [i], moving it up or down exchanges it with its
    neighbour (nothing at the ends), and the other rows keep their order; the
    buttons among the data are enabled. *)
Theorem table_buttons t rem mov D i r :
  table_wf t → getTableDataArray t rem mov = Ret D → t_body t !! i = Some r →
  let shown := map (map enabled_datum) in
  (∃ t', removeThisCellsRow t (r_id r) = Ret t' ∧ getTableDataArray t' rem mov = Ret (shown (delete i D))) ∧
  (∃ t', moveThisCellsRowUp t (r_id r) = Ret t' ∧
     getTableDataArray t' rem mov = Ret (shown (match i with O => D | S j => swap_next j D end))) ∧
  (∃ t', moveThisCellsRowDown t (r_id r) = Ret t' ∧ getTableDataArray t' rem mov = Ret (shown (swap_next i D))).
Proof.
  intros Hwf HD Hi shown. apply table_data_rows in HD; [|done].
  set (k := ((if rem then 1 else 0) + (if mov then 2 else 0))%nat) in *.
  assert (Hall : ∀ f : list row → list row, ∀ g : list (list datum) → list (list datum),
    map (row_data k) (f (t_body t)) = map Some (g D) →
    map (λ r, map enabled_datum <$> row_data k r) (f (t_body t)) = map Some (shown (g D))).
  { intros f g E. transitivity (map (fmap (map enabled_datum)) (map (row_data k) (f (t_body t)))); [by rewrite map_map|].
    rewrite E. unfold shown. by rewrite !map_map. }
  split_and!.
  - destruct (remove_effect t i r Hwf Hi) as (t' & E & Hwf' & Hd). exists t'. split; [done|].
    apply table_data_rows; [done|]. rewrite Hd. apply (Hall (delete i) (delete i)).
    change (@map row) with (@fmap list _ row). rewrite list_fmap_delete. change (row_data k <$> t_body t) with (map (row_data k) (t_body t)).
    rewrite HD. symmetry. apply (list_fmap_delete Some).
  - destruct (up_effect t i r Hwf Hi) as (t' & E & Hwf' & Hd). exists t'. split; [done|].
    apply table_data_rows; [done|]. rewrite Hd. destruct i as [|j]; [by apply (Hall id id)|].
    apply (Hall (swap_next j) (swap_next j)). by rewrite !swap_next_map, HD.
  - destruct (down_effect t i r Hwf Hi) as (t' & E & Hwf' & Hd). exists t'. split; [done|].
    apply table_data_rows; [done|]. rewrite Hd. apply (Hall (swap_next i) (swap_next i)). by rewrite !swap_next_map, HD.
Qed.

(** A table of two hosts for the witnesses. *)
Definition two_hosts : table :=
  createTable (js "Remove") [DStr (js "Host")] [[DStr (js "10.0.0.1")]; [DStr (js "10.0.0.2")]] (js "t") true false.

Lemma two_hosts_wf : table_wf two_hosts.
Proof.
  unfold two_hosts, createTable. apply createTable_rows. repeat constructor; by right; left.
Qed.

Lemma table_use_wf_witness : table_wf two_hosts.
Proof.
  apply (table_use_wf (js "Remove") [DStr (js "Host")] [[DStr (js "10.0.0.1")]; [DStr (js "10.0.0.2")]] (js "t") true false).
  - repeat constructor; by right; left.
  - apply rtc_refl.
Defined.

Lemma table_buttons_witness :
  ∃ t', removeThisCellsRow two_hosts 0%nat = Ret t' ∧ getTableDataArray t' true false = Ret [[DStr (js "10.0.0.2")]].
Proof.
  assert (E : ∃ r, t_body two_hosts !! 0%nat = Some r ∧ r_id r = 0%nat) by (eexists; split; reflexivity).
  destruct E as (r & Hr & Hid).
  destruct (table_buttons two_hosts true false [[DStr (js "10.0.0.1")]; [DStr (js "10.0.0.2")]] 0 r) as [H _];
    [exact two_hosts_wf|vm_compute; reflexivity|exact Hr|]. rewrite Hid in H. exact H.
Defined.

(** ** Filters *)
Section filters.

Lemma row_shown_spec filters cells y : Forall (λ c, c_nodes c ≠ []) cells →
  ∃ b, row_shown filters cells y = Ret b ∧
    (b = true ↔ ∀ i c, cells !! i = Some c →
       filters !! (y + i)%nat = Some [] ∨
       ∃ s, cell_text c = Ret s ∧ contains (toUpperCase s) (default (js "undefined") (filters !! (y + i)%nat)) = true).
Proof.
  intros Hc. revert y. induction Hc as [|c cells Hc _ IH]; intros y; cbn [row_shown]; [by exists true|].
  assert (Hsplit : ∀ Q : nat → cell → Prop, (∀ i c', (c :: cells) !! i = Some c' → Q (y + i)%nat c') ↔
    Q y c ∧ (∀ i c', cells !! i = Some c' → Q (S y + i)%nat c')).
  { intros Q. split.
    - intros H. split; [specialize (H 0%nat c eq_refl); by rewrite Nat.add_0_r in H|].
      intros i c' Hi. specialize (H (S i) c' Hi). by rewrite Nat.add_succ_r in H.
    - intros [H0 H] [|i] c' Hi; [injection Hi as <-; by rewrite Nat.add_0_r|]. rewrite Nat.add_succ_r. by apply H. }
  destruct (IH (S y)) as (b & Eb & Hb).
  assert (∃ s, cell_text c = Ret s) as (s & Es).
  { unfold cell_text. destruct (c_nodes c) as [|[]]; [done|eauto..]. }
  setoid_rewrite (Hsplit (λ j c', filters !! j = Some [] ∨
       ∃ s, cell_text c' = Ret s ∧ contains (toUpperCase s) (default (js "undefined") (filters !! j)) = true)).
  case_bool_decide as Hf.
  - exists b. split; [done|]. rewrite Hb. naive_solver.
  - rewrite Es. simpl. destruct (contains (toUpperCase s) (default (js "undefined") (filters !! y))) eqn:Ec.
    + exists b. split; [done|]. rewrite Hb. naive_solver.
    + exists false. split; [done|]. split; [done|]. intros [[?|(s' & Es' & Ec')] _]; [done|]. congruence.
Qed.

End filters.

(** [applyTableFilter] never throws on a table whose cells have their
    nodes; it keeps the rows and shows exactly those in which every column with
    a non-empty filter contains it, upper and lower case identified. *)
Theorem filter_shows t inputs rest :
  t_head t = HFilter (js "filter_row") inputs :: rest → Forall cells_ok (t_body t) →
  Forall (λ r, length (r_cells r) = length inputs) (t_body t) →
  ∃ t', applyTableFilter t = Ret t' ∧
    Forall2 (λ r r', r_id r' = r_id r ∧ r_cells r' = r_cells r ∧
      (r_display r' = [] ∨ r_display r' = js "none") ∧
      (r_display r' = [] ↔ ∀ i c f, r_cells r !! i = Some c → fst <$> inputs !! i = Some f → f ≠ [] →
         ∃ s, cell_text c = Ret s ∧ contains (toUpperCase s) (toUpperCase f) = true))
      (t_body t) (t_body t').
Proof.
  intros Hh Hok Hlen. unfold applyTableFilter, filter_values. rewrite Hh, str_eqb_refl.
  set (fs := map (λ i, toUpperCase i.1) inputs).
  assert (Hup : ∀ f, toUpperCase f = [] ↔ f = []) by (intros f; by destruct f).
  assert (H : ∃ body, exn_map (λ r, let! shown := row_shown fs (r_cells r) 0 in
      Ret (mkRow (r_id r) (r_class r) (if shown then [] else js "none") (r_cells r))) (t_body t) = Ret body ∧
    Forall2 (λ r r', r_id r' = r_id r ∧ r_cells r' = r_cells r ∧
      (r_display r' = [] ∨ r_display r' = js "none") ∧
      (r_display r' = [] ↔ ∀ i c f, r_cells r !! i = Some c → fst <$> inputs !! i = Some f → f ≠ [] →
         ∃ s, cell_text c = Ret s ∧ contains (toUpperCase s) (toUpperCase f) = true)) (t_body t) body).
  { induction (t_body t) as [|r l IH]; [by exists []|].
    inversion Hok as [|? ? [_ Hr] Hok']; subst. inversion Hlen as [|? ? Hl Hlen']; subst.
    destruct (row_shown_spec fs (r_cells r) 0 Hr) as (b & Eb & Hb).
    destruct (IH Hok' Hlen') as (body & Ebody & Hbody). eexists. split.
    { cbn [exn_map]. rewrite Eb. cbn [exn_bind]. rewrite Ebody. reflexivity. }
    constructor; [|done]. cbn [r_id r_cells r_display]. split_and!; [done|done|by destruct b; auto|].
    transitivity (b = true); [by destruct b|]. rewrite Hb. split.
    - intros H i c f Hi Hf Hne. destruct (H i c Hi) as [E|(s & Es & Ec)]; simpl in *.
      + unfold fs in E. rewrite list_lookup_fmap in E. destruct (inputs !! i) as [[v d]|]; [|done].
        exfalso. apply Hne, Hup. simpl in *. congruence.
      + exists s. split; [done|]. unfold fs in Ec. rewrite list_lookup_fmap in Ec.
        destruct (inputs !! i) as [[v d]|]; [|done]. simpl in *. by injection Hf as ->.
    - intros H i c Hi. simpl. pose proof (lookup_lt_Some _ _ _ Hi) as Hlt. rewrite Hl in Hlt.
      destruct (lookup_lt_is_Some_2 _ _ Hlt) as [[v d] Ei]. unfold fs. rewrite list_lookup_fmap, Ei. simpl.
      destruct (decide (v = [])) as [->|Hv]; [by left|]. right.
      apply (H i c v Hi); [by rewrite Ei|done]. }
  destruct H as (body & -> & Hbody). by eexists.
Qed.

(** [setRowClasses] names the first row of the head [header_row]; on a table
    with a filter that is the filter's row, after which [applyTableFilter] no
    longer finds the filter and hides every row, although no filter is set. *)
Theorem filter_lost_by_row_classes :
  ∃ t1 t2 t3, createTableFilter two_hosts [true; false] [] = Ret t1 ∧
    Forall (λ r, r_display r = []) (t_body t1) ∧
    setRowClasses t1 true = Ret t2 ∧ applyTableFilter t2 = Ret t3 ∧
    length (t_body t3) = 2%nat ∧ Forall (λ r, r_display r = js "none") (t_body t3).
Proof.
  eexists _, _, _. split; [vm_compute; reflexivity|]. split; [by repeat constructor|].
  split; [vm_compute; reflexivity|]. split; [vm_compute; reflexivity|]. split; [done|]. by repeat constructor.
Qed.

Lemma filter_shows_witness :
  ∃ t', applyTableFilter (mkTable (js "t") [] (HFilter (js "filter_row") [(js "0.2", false); ([], true)] :: t_head two_hosts)
    (t_body two_hosts) 2) = Ret t' ∧ map r_display (t_body t') = [js "none"; []].
Proof.
  destruct (filter_shows (mkTable (js "t") [] (HFilter (js "filter_row") [(js "0.2", false); ([], true)] :: t_head two_hosts)
    (t_body two_hosts) 2) [(js "0.2", false); ([], true)] (t_head two_hosts)) as (t' & E & _);
    [reflexivity|exact (wf_cells _ two_hosts_wf)|vm_compute; by repeat constructor|].
  exists t'. split; [exact E|]. revert E. vm_compute. intros [= <-]. reflexivity.
Defined.
