(* ===== verification/TableEdit.v ===== *)
(** * Rewriting the cells of a row

    The pages edit a row in place: [row.childNodes[i].firstChild.data = v].  A
    text node takes the new text; on another node the assignment only adds a
    property that nothing reads.  A row that has left the table keeps its cells
    outside of it. *)
From S2P Require Import Prelude JsNum JsString JsRegex Table TableFacts.
Import Table.
Open Scope Z_scope.

Module TableEdit.

Definition set_node_data (v : jstr) (n : node) : node := match n with Text _ => Text v | _ => n end.

Definition set_cell_data (v : jstr) (c : cell) : exn cell :=
  match c_nodes c with
  | [] => Raise TypeError
  | n :: ns => Ret (mkCell (c_class c) (set_node_data v n :: ns))
  end.

Definition set_row_data (col : nat) (v : jstr) (r : row) : exn row :=
  let! c := exn_of_option TypeError (r_cells r !! col) in
  let! c := set_cell_data v c in
  Ret (mkRow (r_id r) (r_class r) (r_display r) (<[col := c]> (r_cells r))).

(** [editRow.childNodes[col].firstChild.data = v] *)
Definition set_data (t : table) (editRow : nat) (col : nat) (v : jstr) : exn table :=
  let! body := exn_map (fun r => if (r_id r =? editRow)%nat then set_row_data col v r else Ret r) (t_body t) in
  Ret (with_body t body).

(** The assignments of an edit, in turn. *)
Definition set_datas (t : table) (editRow : nat) (l : list (nat * jstr)) : exn table :=
  exn_fold (fun t cv => set_data t editRow (fst cv) (snd cv)) l t.

(** The same in a container, which may be empty by now. *)
Definition edit_cells (container : option table) (editRow : nat) (l : list (nat * jstr)) : exn (option table) :=
  match container with
  | Some t => let! t := set_datas t editRow l in Ret (Some t)
  | None => Ret None
  end.

(** [editRow.childNodes[col].firstChild.data]; the data of an element is undefined. *)
Definition get_data (r : row) (col : nat) : exn (option jstr) :=
  let! c := exn_of_option TypeError (r_cells r !! col) in
  match c_nodes c with
  | [] => Raise TypeError
  | Text s :: _ => Ret (Some s)
  | _ => Ret None
  end.

(** A string among the data of a row: its string methods throw on anything else. *)
Definition datum_str (r : list datum) (col : nat) : exn jstr :=
  match r !! col with Some (DStr s) => Ret s | _ => Raise TypeError end.

(** [rowData[i] == v] *)
Definition datum_is (rowData : list datum) (i : nat) (v : jstr) : bool := bool_decide (rowData !! i = Some (DStr v)).

(** The rows of the table, the head's first: [table.rows[i]].  [None] is
    a row of the head. *)
Definition table_rows (t : table) : list (option nat) :=
  map (fun _ => None) (t_head t) ++ map (fun r => Some (r_id r)) (t_body t).

(** [table.rows[rowDataIndex+1] != excludeRow] *)
Definition not_excluded (t : table) (rowDataIndex : nat) (excludeRow : option nat) : bool :=
  match table_rows t !! S rowDataIndex with
  | Some (Some id) => negb (bool_decide (excludeRow = Some id))
  | Some None => true
  | None => negb (bool_decide (excludeRow = None))
  end.

(** [table.rows[i].childNodes[col].firstChild.data = v]; the cells of the head are
    not text that is read back. *)
Definition set_cell_at (t : table) (i : nat) (col : nat) (v : jstr) : exn table :=
  match table_rows t !! i with
  | Some (Some id) => set_data t id col v
  | Some None => Ret t
  | None => Raise TypeError
  end.

(** [row.childNodes[i].firstChild], an element. *)
Definition cell_widget (r : row) (i : nat) : exn widget :=
  let! c := exn_of_option TypeError (r_cells r !! i) in
  let! x := cell_datum c in
  match x with DObj w => Ret w | DStr _ => Raise TypeError end.

(** A row whose element in a cell changes. *)
Definition set_widget (i : nat) (f : widget → widget) (r : row) : exn row :=
  let! c := exn_of_option TypeError (r_cells r !! i) in
  let! w := cell_widget r i in
  Ret (mkRow (r_id r) (r_class r) (r_display r) (<[i := mkCell (c_class c) (Elem (f w) :: drop 1 (c_nodes c))]> (r_cells r))).

Definition check_widget (checked : bool) (w : widget) : widget :=
  MkWidget (w_type w) (w_html w) (w_disabled w) (w_class w) checked (w_id w) (w_lines w).

(** The row of the body with an identity. *)
Definition body_row (t : table) (id : nat) : exn row :=
  exn_of_option TypeError (List.find (fun r => (r_id r =? id)%nat) (t_body t)).
Definition set_body_row (t : table) (id : nat) (r' : row) : table :=
  with_body t (map (fun r => if (r_id r =? id)%nat then r' else r) (t_body t)).

(** [v == '' ? '-' : v] *)
Definition or_dash (v : jstr) : jstr := if v =s [] then js "-" else v.

End TableEdit.
Import TableEdit.

(** The first line of a text. *)
Definition first_line (d : datum) : datum :=
  match d with DStr s => DStr (default [] (head (split_char 10 s))) | DObj w => DObj w end.

Lemma first_line_one d : one_line d → first_line d = d.
Proof. destruct d as [s|w]; simpl; [|done]. intros H. by rewrite split_char_none. Qed.

Lemma cell_datum_first class d : cell_datum (mkCell class (datum_nodes d)) = Ret (first_line d).
Proof.
  destruct d as [s|w]; [|done]. simpl. change re_lf with (RSet false [(10, 10)]). rewrite split_re_chr.
  pose proof (split_char_nonempty 10 s). by destruct (split_char 10 s) as [|a [|b l]].
Qed.

Section edit.
Context (rem mov : bool).
Let k : nat := ((if rem then 1 else 0) + (if mov then 2 else 0))%nat.

Lemma set_cell_datum v c s : cell_datum c = Ret (DStr s) →
  ∃ c', set_cell_data v c = Ret c' ∧ cell_datum c' = Ret (DStr v) ∧ c_nodes c' ≠ [].
Proof.
  destruct c as [cl [|[x| |w] ns]]; unfold cell_datum; simpl; try done. intros _. by eexists.
Qed.

Lemma set_row_effect r col v ds s : cells_ok r → row_data k r = Some ds → ds !! col = Some (DStr s) →
  ∃ r', set_row_data col v r = Ret r' ∧ r_id r' = r_id r ∧ cells_ok r' ∧
    row_data k r' = Some (<[col := DStr v]> ds).
Proof.
  intros [Hne Hc] Hd Hs. unfold row_data in Hd.
  destruct (exn_map cell_datum _) as [l|] eqn:E; [|done]. injection Hd as ->.
  pose proof E as HF. apply exn_map_Forall2 in HF.
  destruct (Forall2_lookup_r _ _ _ _ _ HF Hs) as (c & Hlc & Ec). apply lookup_take_Some in Hlc as [Hlc Hlt].
  destruct (set_cell_datum v c s Ec) as (c' & Es & Ec' & Hn). unfold set_row_data. rewrite Hlc. simpl.
  rewrite Es. simpl. eexists. split; [done|]. simpl. split; [done|]. split.
  - split; simpl.
    + intros E0%(f_equal length). rewrite length_insert in E0. by destruct (r_cells r).
    + by apply Forall_insert.
  - unfold row_data. cbn [r_cells]. rewrite length_insert, take_insert_lt by done.
    replace (exn_map cell_datum _) with (Ret (<[col := DStr v]> ds)); [done|]. symmetry.
    apply exn_map_Forall2. by apply Forall2_insert.
Qed.

Lemma get_data_row r col ds s : row_data k r = Some ds → ds !! col = Some (DStr s) → get_data r col = Ret (Some s).
Proof.
  unfold row_data. destruct (exn_map cell_datum _) as [l|] eqn:E; [|done]. intros [= ->] Hs. apply exn_map_Forall2 in E.
  destruct (Forall2_lookup_r _ _ _ _ _ E Hs) as (c & Hlc & Ec). apply lookup_take_Some in Hlc as [Hlc _].
  unfold get_data. rewrite Hlc. simpl. unfold cell_datum in Ec. destruct (c_nodes c) as [|[x| |w] ns]; try done. by injection Ec as ->.
Qed.

Lemma data_row t D i r ds : table_wf t → getTableDataArray t rem mov = Ret D → t_body t !! i = Some r → D !! i = Some ds →
  row_data k r = Some ds.
Proof.
  intros Hwf HD Hr Hds. apply table_data_rows in HD; [|done]. fold k in HD.
  assert (E : map (row_data k) (t_body t) !! i = map Some D !! i) by (by rewrite HD).
  rewrite !list_lookup_fmap, Hr, Hds in E. by injection E.
Qed.

(** One row replaced by another of the same identity. *)
Lemma replace_row_effect t D i r r' ds' : table_wf t → getTableDataArray t rem mov = Ret D → t_body t !! i = Some r →
  r_id r' = r_id r → cells_ok r' → row_data k r' = Some ds' →
  table_wf (with_body t (<[i := r']> (t_body t))) ∧
  getTableDataArray (with_body t (<[i := r']> (t_body t))) rem mov = Ret (<[i := ds']> D).
Proof.
  intros Hwf HD Hr Eid Hok' Hrd'. pose proof Hwf as [Hh Hi Hn Hc Hd]. apply table_data_rows in HD; [|done]. fold k in HD.
  assert (Eids : map r_id (<[i := r']> (t_body t)) = map r_id (t_body t)).
  { rewrite list_fmap_insert. apply list_insert_id. rewrite list_lookup_fmap, Hr. simpl. by rewrite Eid. }
  assert (Hwf' : table_wf (with_body t (<[i := r']> (t_body t)))).
  { split; simpl; [done|by rewrite Eids| |by apply Forall_insert|].
    - apply (Forall_map r_id (λ n, n < t_next t)%nat) in Hn. apply (Forall_map r_id (λ n, n < t_next t)%nat). rewrite <- Eids in Hn. done.
    - rewrite Hd. pose proof (f_equal length Eids) as El. rewrite !length_map in El.
      destruct (t_body t) as [|x l]; [done|]. by destruct (<[i := r']> (x :: l)). }
  split; [done|]. apply table_data_rows; [done|]. cbn [with_body t_body]. fold k.
  rewrite list_fmap_insert, Hrd'. change (row_data k <$> t_body t) with (map (row_data k) (t_body t)).
  rewrite HD. symmetry. apply (list_fmap_insert Some).
Qed.

(** An assignment to a cell of text changes that cell and nothing else. *)
Lemma set_data_effect t D i r ds col s v : table_wf t → getTableDataArray t rem mov = Ret D →
  t_body t !! i = Some r → D !! i = Some ds → ds !! col = Some (DStr s) →
  ∃ t' r', set_data t (r_id r) col v = Ret t' ∧ table_wf t' ∧ t_body t' = <[i := r']> (t_body t) ∧ r_id r' = r_id r ∧
    getTableDataArray t' rem mov = Ret (<[i := <[col := DStr v]> ds]> D).
Proof.
  intros Hwf HD Hr Hds Hs. pose proof Hwf as [Hh Hi Hn Hc Hd].
  pose proof (data_row t D i r ds Hwf HD Hr Hds) as Hrd.
  assert (Hok : cells_ok r) by (rewrite Forall_forall in Hc; apply Hc; by eapply list_elem_of_lookup_2).
  destruct (set_row_effect r col v ds s Hok Hrd Hs) as (r' & Er & Eid & Hok' & Hrd').
  destruct (replace_row_effect t D i r r' _ Hwf HD Hr Eid Hok' Hrd') as [Hwf' HD'].
  assert (Eb : exn_map (λ r0, if (r_id r0 =? r_id r)%nat then set_row_data col v r0 else Ret r0) (t_body t) =
    Ret (<[i := r']> (t_body t))).
  { apply exn_map_Forall2, Forall2_lookup. intros j. destruct (decide (j = i)) as [->|Hj].
    - rewrite list_lookup_insert_eq by (by eapply lookup_lt_Some). rewrite Hr. constructor.
      rewrite Nat.eqb_refl. done.
    - rewrite list_lookup_insert_ne by done. destruct (t_body t !! j) as [r0|] eqn:Ej; constructor.
      rewrite (proj2 (Nat.eqb_neq _ _)); [done|]. intros E. apply Hj.
      eapply (NoDup_lookup (map r_id (t_body t))); [done| |]; rewrite list_lookup_fmap.
      + rewrite Ej. simpl. by rewrite E.
      + by rewrite Hr. }
  exists (with_body t (<[i := r']> (t_body t))), r'. unfold set_data. rewrite Eb. done.
Qed.

(** An element of a cell replaced. *)
Lemma set_widget_effect r i f ds w : cells_ok r → row_data k r = Some ds → ds !! i = Some (DObj w) →
  cell_widget r i = Ret w ∧
  ∃ r', set_widget i f r = Ret r' ∧ r_id r' = r_id r ∧ cells_ok r' ∧ row_data k r' = Some (<[i := DObj (f w)]> ds).
Proof.
  intros [Hne Hc] Hd Hs. unfold row_data in Hd.
  destruct (exn_map cell_datum _) as [l|] eqn:E; [|done]. injection Hd as ->. apply exn_map_Forall2 in E.
  destruct (Forall2_lookup_r _ _ _ _ _ E Hs) as (c & Hlc & Ec). apply lookup_take_Some in Hlc as [Hlc Hlt].
  assert (Ew : cell_widget r i = Ret w) by (unfold cell_widget; rewrite Hlc; simpl; by rewrite Ec). split; [done|].
  unfold set_widget. rewrite Hlc. simpl. rewrite Ew. simpl. eexists. split; [done|]. simpl. split; [done|]. split.
  - split; simpl.
    + intros E0%(f_equal length). rewrite length_insert in E0. by destruct (r_cells r).
    + by apply Forall_insert.
  - unfold row_data. cbn [r_cells]. rewrite length_insert, take_insert_lt by done.
    replace (exn_map cell_datum _) with (Ret (<[i := DObj (f w)]> ds)); [done|]. symmetry.
    apply exn_map_Forall2. by apply Forall2_insert.
Qed.

(** Several assignments to different cells of text of one row. *)
Lemma set_datas_effect t D i r ds l : table_wf t → getTableDataArray t rem mov = Ret D →
  t_body t !! i = Some r → D !! i = Some ds → Forall (λ cv, ∃ s, ds !! cv.1 = Some (DStr s)) l →
  ∃ t', set_datas t (r_id r) l = Ret t' ∧ table_wf t' ∧ map r_id (t_body t') = map r_id (t_body t) ∧
    getTableDataArray t' rem mov = Ret (<[i := fold_left (λ ds cv, <[cv.1 := DStr cv.2]> ds) l ds]> D).
Proof.
  intros Hwf HD Hr Hds Hl. revert t D r ds Hwf HD Hr Hds Hl. induction l as [|[c v] l IH]; intros t D r ds Hwf HD Hr Hds Hl.
  { exists t. simpl. by rewrite list_insert_id. }
  inversion Hl as [|? ? [s Hs] Hl']; subst.
  destruct (set_data_effect t D i r ds c s v) as (t1 & r1 & E1 & W1 & B1 & I1 & D1); [done..|].
  destruct (IH t1 (<[i := <[c := DStr v]> ds]> D) r1 (<[c := DStr v]> ds)) as (t' & E' & W' & I' & D'); [done|done| | | |].
  - rewrite B1, list_lookup_insert_eq; [done|]. by eapply lookup_lt_Some.
  - rewrite list_lookup_insert_eq; [done|]. by eapply lookup_lt_Some.
  - eapply Forall_impl; [exact Hl'|]. intros [c' v'] [s' Hs']. simpl in *. destruct (decide (c' = c)) as [->|Hn].
    + exists v. apply list_lookup_insert_eq. by eapply lookup_lt_Some.
    + exists s'. by rewrite list_lookup_insert_ne.
  - exists t'. unfold set_datas in *. cbn [exn_fold fst snd]. rewrite E1. cbn [exn_bind]. rewrite <- I1. split_and!; [done|done| |].
    + rewrite I', B1, list_fmap_insert. apply list_insert_id. rewrite list_lookup_fmap, Hr. simpl. by rewrite I1.
    + rewrite D', list_insert_insert_eq. done.
Qed.

(** A row that is added is read back up to the first line of each text. *)
Lemma add_row_data label t d :
  map (row_data k) (t_body (addTableRow label t d rem mov)) = map (row_data k) (t_body t) ++ [Some (map first_line d)].
Proof.
  unfold addTableRow. cbn [t_body tableSanityCheck]. rewrite map_app. f_equal. simpl. f_equal.
  unfold row_data. cbn [r_cells]. rewrite imap_app, length_app, !length_imap, !length_map.
  replace (length (button_nodes label rem mov)) with k by (symmetry; apply length_button_nodes).
  rewrite Nat.add_sub, take_app_length' by (by rewrite length_imap, length_map).
  assert (E : ∀ f, exn_map cell_datum (imap (λ i ns, mkCell (f i) ns) (map datum_nodes d)) = Ret (map first_line d)); [|by rewrite E].
  intros f. apply exn_map_Forall2. revert f. induction d as [|x d IHd]; intros f; simpl; [constructor|].
  constructor; [apply cell_datum_first|]. apply (IHd (λ i, f (S i))).
Qed.

Lemma addTableRow_data label t d D : table_wf t → d ≠ [] → getTableDataArray t rem mov = Ret D →
  table_wf (addTableRow label t d rem mov) ∧ getTableDataArray (addTableRow label t d rem mov) rem mov = Ret (D ++ [map first_line d]).
Proof.
  intros Hwf Hd HD. assert (Hwf' : table_wf (addTableRow label t d rem mov)) by (apply addTableRow_wf; auto).
  split; [done|]. apply table_data_rows; [done|]. apply table_data_rows in HD; [|done]. fold k in HD |- *.
  by rewrite add_row_data, HD, map_app.
Qed.

(** A table is created with the first line of each text. *)
Lemma createTable_data label cols rows id : Forall (λ d, d ≠ []) rows →
  table_wf (createTable label cols rows id rem mov) ∧
  getTableDataArray (createTable label cols rows id rem mov) rem mov = Ret (map (map first_line) rows).
Proof.
  intros Hne. assert (Hwf : table_wf (createTable label cols rows id rem mov)).
  { apply createTable_rows. eapply Forall_impl; [exact Hne|]. auto. }
  split; [done|]. apply table_data_rows; [done|]. fold k. unfold createTable. cbn [t_body tableSanityCheck].
  match goal with |- context [fold_left _ rows ?t0] => generalize t0 (eq_refl : map (row_data k) (t_body t0) = map Some []) end.
  clear Hwf Hne. change (map (map first_line) rows) with ([] ++ map (map first_line) rows). generalize (@nil (list datum)).
  induction rows as [|r rows IH]; intros D t Ht; simpl; [by rewrite app_nil_r|].
  rewrite (IH (D ++ [map first_line r])); [by rewrite <- app_assoc|]. by rewrite add_row_data, Ht, map_app.
Qed.

(** Removing a row removes its data; the other rows' buttons are enabled. *)
Lemma removeRow_data t D i r : table_wf t → getTableDataArray t rem mov = Ret D → t_body t !! i = Some r →
  ∃ t', removeThisCellsRow t (r_id r) = Ret t' ∧ table_wf t' ∧
    getTableDataArray t' rem mov = Ret (map (map enabled_datum) (delete i D)).
Proof.
  intros Hwf HD Hr. destruct (remove_effect t i r Hwf Hr) as (t' & E & Hwf' & Hd). exists t'. split_and!; [done..|].
  apply table_data_rows; [done|]. fold k. rewrite Hd. apply table_data_rows in HD; [|done]. fold k in HD.
  rewrite <- (map_map (row_data k) (λ o, map enabled_datum <$> o)).
  replace (map (row_data k) (delete i (t_body t))) with (delete i (map (row_data k) (t_body t))) by (symmetry; apply (list_fmap_delete (row_data k))).
  rewrite HD. replace (delete i (map Some D)) with (map Some (delete i D)) by apply (list_fmap_delete Some).
  by rewrite !map_map.
Qed.

(** [setRowClasses] keeps the data up to the state of the buttons. *)
Lemma setRowClasses_data t D enabled : table_wf t → getTableDataArray t rem mov = Ret D →
  ∃ t', setRowClasses t enabled = Ret t' ∧ table_wf t' ∧ getTableDataArray t' rem mov = Ret (map (map (set_datum enabled)) D).
Proof.
  intros Hwf HD. destruct (relabel_wf enabled t (t_body t) Hwf (wf_ids _ Hwf)) as (t' & E & Hwf' & Hd); [done|].
  exists t'. replace (with_body t (t_body t)) with t in E by (by destruct t). split_and!; [done..|].
  apply table_data_rows; [done|]. fold k. rewrite Hd. apply table_data_rows in HD; [|done]. fold k in HD.
  rewrite <- (map_map (row_data k) (λ o, map (set_datum enabled) <$> o)), HD, !map_map. done.
Qed.

(** An edit of a row that is not in the table changes nothing. *)
Lemma set_datas_absent t id l : (∀ r, r ∈ t_body t → r_id r ≠ id) → set_datas t id l = Ret t.
Proof.
  intros Hid. unfold set_datas. induction l as [|[c v] l IH]; simpl; [done|].
  unfold set_data at 1. rewrite (exn_map_ret _ (λ r, r)).
  - simpl. rewrite map_id. by destruct t.
  - intros r Hr. rewrite (proj2 (Nat.eqb_neq _ _)); [done|]. by apply Hid.
Qed.

End edit.

(** ** Rows by index *)
Section rows.

Lemma body_row_find t i r : table_wf t → t_body t !! i = Some r → body_row t (r_id r) = Ret r.
Proof.
  intros Hwf Hr. unfold body_row. destruct (List.find _ _) as [r'|] eqn:E.
  - apply find_some in E as [Hin Hid]. apply Nat.eqb_eq in Hid. apply list_elem_of_In, list_elem_of_lookup in Hin as [j Hj].
    assert (j = i) as ->; [|rewrite Hr in Hj; by injection Hj as ->].
    eapply (NoDup_lookup (map r_id (t_body t))); [apply Hwf| |]; rewrite list_lookup_fmap; [by rewrite Hj|rewrite Hr; simpl; by rewrite Hid].
  - exfalso. eapply List.find_none in E; [|apply list_elem_of_In; by eapply list_elem_of_lookup_2]. by rewrite Nat.eqb_refl in E.
Qed.

Lemma body_row_index t id r : body_row t id = Ret r → ∃ i, t_body t !! i = Some r ∧ r_id r = id.
Proof.
  unfold body_row. destruct (List.find _ _) as [r'|] eqn:E; [|done]. intros [= ->].
  apply find_some in E as [Hin Hid]. apply Nat.eqb_eq in Hid. apply list_elem_of_In, list_elem_of_lookup in Hin as [j Hj]. eauto.
Qed.

Lemma set_body_row_insert t i r r' : table_wf t → t_body t !! i = Some r →
  set_body_row t (r_id r) r' = with_body t (<[i := r']> (t_body t)).
Proof.
  intros Hwf Hr. unfold set_body_row. f_equal. apply list_eq. intros j. change (map ?f ?l) with (f <$> l). rewrite list_lookup_fmap.
  destruct (decide (j = i)) as [->|Hj].
  - rewrite Hr, list_lookup_insert_eq by (by eapply lookup_lt_Some). simpl. by rewrite Nat.eqb_refl.
  - rewrite list_lookup_insert_ne by done. destruct (t_body t !! j) as [x|] eqn:Ej; [|done]. simpl.
    rewrite (proj2 (Nat.eqb_neq _ _)); [done|]. intros E. apply Hj.
    eapply (NoDup_lookup (map r_id (t_body t))); [apply Hwf| |]; rewrite list_lookup_fmap; [by rewrite Ej|rewrite Hr; simpl; by rewrite E].
Qed.

Lemma table_rows_body t j : table_wf t → table_rows t !! S j = (λ r, Some (r_id r)) <$> t_body t !! j.
Proof.
  intros Hwf. destruct (wf_head _ Hwf) as (c & ti & Hh). unfold table_rows. rewrite Hh.
  exact (list_lookup_fmap (λ r, Some (r_id r)) (t_body t) j).
Qed.

Lemma not_excluded_add t D j : table_wf t → getTableDataArray t true false = Ret D → (j < length D)%nat → not_excluded t j None = true.
Proof.
  intros Hwf HD Hj. unfold not_excluded. rewrite table_rows_body by done.
  apply table_data_rows in HD; [|done]. apply (f_equal length) in HD. rewrite !length_map in HD.
  destruct (lookup_lt_is_Some_2 (t_body t) j) as [r Hr]; [lia|]. by rewrite Hr.
Qed.

Lemma not_excluded_edit t i j r r' : table_wf t → t_body t !! i = Some r → t_body t !! j = Some r' → j ≠ i →
  not_excluded t j (Some (r_id r)) = true.
Proof.
  intros Hwf Hi Hj Hij. unfold not_excluded. rewrite table_rows_body, Hj by done. cbn. rewrite bool_decide_eq_false_2; [done|]. intros [= E]. apply Hij.
  eapply (NoDup_lookup (map r_id (t_body t))); [apply Hwf| |]; rewrite list_lookup_fmap; [by rewrite Hj|rewrite Hi; simpl; by rewrite E].
Qed.

End rows.
