(* ===== verification/Ports.v ===== *)
(** * Sections and ports of the router's configuration (common.js)

    Queries on the container of the saved configuration ([uciOriginal]): the
    DHCP section of the LAN, the wireless mode, the bridge section, the ports
    in use and the test for a conflict with them. *)
From S2P Require Import Prelude JsNum JsString JsRegex Uci.
Import Uci.
Open Scope Z_scope.

(** A port in use: port or range, protocol, the name of its use. *)
Record portDef := mkPortDef { pd_port : jstr; pd_proto : jstr; pd_name : jstr }.

Module Ports.

Definition gets (u : UCIContainer) (pkg section option : jstr) : jstr := uval_str (get u pkg section option).

(** A method of strings ([toLowerCase]) on an option. *)
Definition get_lower (u : UCIContainer) (pkg section option : jstr) : exn jstr :=
  match get u pkg section option with UStr s => Ret (toLowerCase s) | UArr _ => Raise TypeError end.

(** An option as a condition: an array is true, even an empty one. *)
Definition truthy (v : uval) : bool := match v with UStr s => negb (s =s []) | UArr _ => true end.

(** ** Sections *)
Definition getDhcpSection (uciData : UCIContainer) : exn jstr :=
  let! allDhcpSections := getAllSections uciData (js "dhcp") in
  let first := default (js "cfg1") (head allDhcpSections) in
  Ret (fold_left (fun dhcpSection s =>
    if gets uciData (js "dhcp") s (js "interface") =s js "lan" then s else dhcpSection) allDhcpSections first).

Definition getWirelessMode (uciTest : UCIContainer) : exn jstr :=
  let w := js "wireless" in
  let! deviceSections := getAllSectionsOfType uciTest w (js "wifi-device") in
  let validDevices := filter (λ d,
    let disabled := gets uciTest w d (js "disabled") in disabled = js "0" ∨ disabled = []) deviceSections in
  let! ifSections := getAllSectionsOfType uciTest w (js "wifi-iface") in
  let '(ap, other) := fold_left (fun '(ap, other) s =>
    if bool_decide (gets uciTest w s (js "device") ∈ validDevices) then
      let mode := gets uciTest w s (js "mode") in
      if mode =s js "ap"
      then (mode, if truthy (get uciTest w s (js "wds")) then js "wds" else other)
      else (ap, mode)
    else (ap, other)) ifSections ([], []) in
  let p := if negb (ap =s []) && negb (other =s []) then js "+" else [] in
  let wirelessMode := ap ++ p ++ other in
  Ret (if wirelessMode =s [] then js "disabled" else wirelessMode).

(** The sections come from the saved configuration, their options from the
    container under test. *)
Definition getBridgeSection (uciOriginal testUci : UCIContainer) : exn jstr :=
  let! allWirelessSections := getAllSections uciOriginal (js "wireless") in
  let wanDef := gets uciOriginal (js "network") (js "wan") [] in
  exn_fold (fun bridgeSection s =>
    if negb (bridgeSection =s []) then Ret bridgeSection
    else
      let! mode := get_lower testUci (js "wireless") s (js "mode") in
      if (mode =s js "wds") && (wanDef =s []) then Ret s
      else if mode =s js "sta" then
        let! wds := get_lower testUci (js "wireless") s (js "wds") in
        if (wds =s js "1") && (wanDef =s []) then Ret s
        else
          let! client_bridge := get_lower testUci (js "wireless") s (js "client_bridge") in
          Ret (if client_bridge =s js "1" then s else bridgeSection)
      else Ret bridgeSection) allWirelessSections [].

Definition isBridge (uciOriginal testUci : UCIContainer) : exn bool :=
  let! s := getBridgeSection uciOriginal testUci in Ret (negb (s =s [])).

(** ** Ports of the web server *)
Definition re_any_addr : re := Eval vm_compute in rx "^0\.0\.0\.0:".
Definition re_upto_colon : re := Eval vm_compute in rx "^.*:".

(** The elements of an array; the characters of a string. *)
Definition listen_elements (v : uval) : list jstr :=
  match v with UArr l => l | UStr s => map (fun c => [c]) s end.

Definition getUhttpServerPort (isHttps : bool) (serverName : jstr) (uciData : UCIContainer) : jstr :=
  let portList := get uciData (js "uhttpd") serverName (if isHttps then js "listen_https" else js "listen_http") in
  fold_left (fun port listenDef => if test re_any_addr listenDef then replace re_upto_colon [] listenDef else port)
    (listen_elements portList) [].

Definition getHttpsPort (uciData : UCIContainer) : jstr := getUhttpServerPort true (js "main") uciData.
Definition getHttpPort (uciData : UCIContainer) : jstr := getUhttpServerPort false (js "main") uciData.

(** ** getUsedPorts *)
Section used.
Variable UI : jstr → jstr.

(** [portDefs] and [foundPorts], which has the protocols tcp and udp. *)
Record used := mkUsed { u_defs : list portDef; u_found : gset (jstr * jstr) }.

Definition push_def (st : used) (port proto name : jstr) : used :=
  mkUsed (u_defs st ++ [mkPortDef port proto name]) (u_found st).
Definition mark (st : used) (proto port : jstr) : used := mkUsed (u_defs st) ({[(proto, port)]} ∪ u_found st).

(** [foundPorts[proto][port] == null]: an unknown protocol throws. *)
Definition unseen (st : used) (proto port : jstr) : exn bool :=
  if (proto =s js "tcp") || (proto =s js "udp") then Ret (negb (bool_decide ((proto, port) ∈ u_found st)))
  else Raise TypeError.

Definition proto_list (proto : jstr) : list jstr :=
  if (proto =s []) || (proto =s js "tcpudp") then [js "tcp"; js "udp"] else [proto].

(** A redirected port, once for each protocol. *)
Definition add_redirect (remotePort localPort : jstr) (st : used) (nextProto : jstr) : exn used :=
  let! new := unseen st nextProto remotePort in
  if new then
    let st := mark (push_def st remotePort nextProto (UI (js "prdr"))) nextProto remotePort in
    let! new := unseen st nextProto localPort in
    Ret (if new then mark (push_def st localPort nextProto (UI (js "puse"))) nextProto localPort else st)
  else Ret st.

(** One [remote_accept] section.  The loop over [portDefs] compares the fields
    of its own index, which a number does not have, so it never stores
    anything. *)
Definition accept_section (uciOriginal : UCIContainer) (st : used) (section : jstr) : exn used :=
  let fw := js "firewall" in
  let localPort := gets uciOriginal fw section (js "local_port") in
  let remotePort := gets uciOriginal fw section (js "remote_port") in
  let startPort := gets uciOriginal fw section (js "start_port") in
  let endPort := gets uciOriginal fw section (js "end_port") in
  let! proto := get_lower uciOriginal fw section (js "proto") in
  let! zone := get_lower uciOriginal fw section (js "zone") in
  if (zone =s js "wan") || (zone =s []) then
    let remotePort := if remotePort =s [] then localPort else remotePort in
    let! st := (if negb (localPort =s []) then exn_fold (add_redirect remotePort localPort) (proto_list proto) st
                else Ret st) in
    Ret (if (localPort =s []) && negb (startPort =s []) && negb (endPort =s [])
         then fold_left (fun st nextProto => push_def st (startPort ++ js "-" ++ endPort) nextProto (UI (js "prdr")))
                (proto_list proto) st
         else st)
  else Ret st.

(** One [redirect] section.  The index of the loop before has passed the end of
    its array, so the section read is [undefined], whatever the redirects are. *)
Definition redirect_section (uciOriginal : UCIContainer) (st : used) : exn used :=
  let fw := js "firewall" in
  let section := js "undefined" in
  let remotePort := gets uciOriginal fw section (js "remote_port") in
  let! proto := get_lower uciOriginal fw section (js "proto") in
  let! srcZone := get_lower uciOriginal fw section (js "src") in
  let! dstZone := get_lower uciOriginal fw section (js "dest") in
  let ip := gets uciOriginal fw section (js "dest_ip") in
  Ret (push_def st remotePort proto (UI (js "pfwd") ++ js " " ++ ip)).

(** The first section of dropbear is [undefined] where there is none. *)
Definition getUsedPorts (uciOriginal : UCIContainer) : exn (list portDef) :=
  let! dropbearSections := getAllSections uciOriginal (js "dropbear") in
  let sshPort := gets uciOriginal (js "dropbear") (default (js "undefined") (head dropbearSections)) (js "Port") in
  let httpPort := getHttpPort uciOriginal in
  let httpsPort := getHttpsPort uciOriginal in
  let tcp := js "tcp" in
  let st := mark (push_def (mkUsed [] ∅) sshPort tcp (UI (js "sprt"))) tcp sshPort in
  let st := if negb (httpPort =s []) then mark (push_def st httpPort tcp (UI (js "wsprt"))) tcp httpPort else st in
  let st := if negb (httpsPort =s []) then mark (push_def st httpsPort tcp (UI (js "wsprt"))) tcp httpsPort else st in
  let! remoteAcceptSections := getAllSectionsOfType uciOriginal (js "firewall") (js "remote_accept") in
  let! st := exn_fold (accept_section uciOriginal) remoteAcceptSections st in
  let! redirectSections := getAllSectionsOfType uciOriginal (js "firewall") (js "redirect") in
  let! st := exn_fold (fun st _ => redirect_section uciOriginal st) redirectSections st in
  Ret (u_defs st).

End used.

(** ** checkForPortConflict *)
Definition re_dash1 : re := Eval vm_compute in rx "-".

(** The argument: one port or a range. *)
Inductive port_arg := OnePort (port : num) | PortRange (portStart portEnd : num).

Definition nth_piece (l : list jstr) (i : nat) : jstr := default [] (l !! i).

Definition parse_port (port : jstr) : port_arg :=
  if test re_dash1 port then
    let splitPort := split_re re_dash1 port in
    PortRange (parseInt (nth_piece splitPort 0)) (parseInt (nth_piece splitPort 1))
  else OnePort (parseInt port).

(** Does the argument meet the range [lo-hi]? *)
Definition meets_range (p : port_arg) (range : jstr) : bool :=
  let splitRange := split_re re_dash1 range in
  let lo := parseInt (nth_piece splitRange 0) in
  let hi := parseInt (nth_piece splitRange 1) in
  match p with
  | OnePort port => Num.geb port lo && Num.leb port hi
  | PortRange portStart portEnd => Num.leb portStart hi && Num.geb portEnd lo
  end.

Definition meets_port (p : port_arg) (portStr : jstr) : bool :=
  match p with
  | OnePort port => Num.eqb port (parseInt portStr)
  | PortRange portStart portEnd =>
      Num.geb (parseInt portStr) portStart && Num.leb (parseInt portStr) portEnd
  end.

Definition meets (p : port_arg) (portStr : jstr) : bool :=
  if test re_dash1 portStr then meets_range p portStr else meets_port p portStr.

(** The key of [ignorePorts[proto]] for the argument: the number as text, or the
    range as it was written. *)
Definition port_key (port : jstr) (p : port_arg) : jstr :=
  match p with
  | OnePort (Dec z _) => str_of_Z z
  | OnePort _ => js "NaN"
  | PortRange _ _ => port
  end.

(** [ignorePorts]: for each protocol the keys that are set; tcp and udp are
    filled in when missing, another protocol throws. *)
Definition ignore_keys (ignorePorts : list (jstr * list jstr)) (proto : jstr) : exn (list jstr) :=
  match List.find (fun '(p, _) => p =s proto) ignorePorts with
  | Some (_, l) => Ret l
  | None => if (proto =s js "tcp") || (proto =s js "udp") then Ret [] else Raise TypeError
  end.

Definition ignored (port proto : jstr) (p : port_arg) (ignorePorts : list (jstr * list jstr)) : exn bool :=
  let! ks := ignore_keys ignorePorts proto in
  Ret (bool_decide (port_key port p ∈ ks)
       || existsb (fun range => test re_dash1 range && meets_range p range) ks).

Fixpoint first_conflict (p : port_arg) (proto : jstr) (usedPorts : list portDef) (portConflict : jstr) : jstr :=
  match usedPorts with
  | [] => portConflict
  | d :: l =>
      if portConflict =s []
      then first_conflict p proto l
             (if (proto =s pd_proto d) && meets p (pd_port d) then pd_name d else portConflict)
      else portConflict
  end.

Definition checkForPortConflict (UI : jstr → jstr) (uciOriginal : UCIContainer) (port proto : jstr)
    (ignorePorts : option (list (jstr * list jstr))) : exn jstr :=
  let p := parse_port port in
  let! skip := match ignorePorts with Some l => ignored port proto p l | None => Ret false end in
  if skip then Ret []
  else
    let! usedPorts := getUsedPorts UI uciOriginal in
    Ret (first_conflict p proto usedPorts []).

End Ports.
