(* ===== verification/Text.v ===== *)
(** * Formatting of numbers, times and lists (common.js)

    Numbers are exact decimals: a division by a power of two is exact, and the
    rounding of double precision, which is far below the digits shown, is not
    represented. *)
From S2P Require Import Prelude JsNum JsString JsRegex Uci Ports.
Open Scope Z_scope.

Module Text.

(** ** Numbers *)

(** [n / 2^k] *)
Definition div_pow2 (n : num) (k : Z) : num :=
  match n with Dec m e => Dec (m * 5 ^ k) (e - k) | _ => n end.

(** [Math.floor] of [n * 10^d], as an integer. *)
Definition floor_scaled (m e d : Z) : Z := if 0 <=? e + d then m * 10 ^ (e + d) else m / 10 ^ (- (e + d)).

(** [Math.round] *)
Definition round (n : num) : num :=
  match n with
  | Dec m e => if 0 <=? e then Int (m * 10 ^ e) else Int ((2 * m + 10 ^ (- e)) / (2 * 10 ^ (- e)))
  | _ => n
  end.

(** [z] thousandths and the like: [z / 10^d] with [d] digits after the point. *)
Definition fixed_digits (z d : Z) : jstr :=
  let s := padStart (str_of_Z z) (d + 1) 48 in
  take (length s - Z.to_nat d) s ++ js "." ++ drop (length s - Z.to_nat d) s.

(** [toFixed(d)], [d > 0]: the nearest number of [d] digits, the larger of two. *)
Definition toFixed (n : num) (d : Z) : jstr :=
  match n with
  | NaN => js "NaN"
  | Inf neg => if neg then js "-Infinity" else js "Infinity"
  | Dec m e =>
      let q := (2 * Z.abs m * 10 ^ (Z.max 0 e + d) + 10 ^ (- Z.min 0 e)) / (2 * 10 ^ (- Z.min 0 e)) in
      (if m <? 0 then js "-" else []) ++ fixed_digits q d
  end.

Fixpoint strip_trailing_zeros (l : jstr) : jstr :=
  match l with 48 :: l' => strip_trailing_zeros l' | _ => l end.

(** [String(n)] for numbers of magnitude from 1e-6 to 1e21. *)
Definition num_toString (n : num) : jstr :=
  match n with
  | NaN => js "NaN"
  | Inf neg => if neg then js "-Infinity" else js "Infinity"
  | Dec m e =>
      if 0 <=? e then str_of_Z (m * 10 ^ e)
      else
        let d := - e in
        let s := padStart (str_of_Z (Z.abs m)) (d + 1) 48 in
        let ip := take (length s - Z.to_nat d) s in
        let fp := rev (strip_trailing_zeros (rev (drop (length s - Z.to_nat d) s))) in
        (if m <? 0 then js "-" else []) ++ ip ++ (match fp with [] => [] | _ => js "." ++ fp end)
  end.

(** [parseFloat]: the number at the start of the text, without exponent. *)
Definition re_float : re := Eval vm_compute in rx "^[\t\n\v\f\r ]*([+\-]?(\d+\.?\d*|\.\d+))".
Definition parseFloat (s : jstr) : num :=
  match exec re_float s with Some m => toNumber (group 1 m) | None => NaN end.

(** ** Bytes *)
Section ui.
Variable UI : jstr → jstr.

Definition unit_names : list jstr :=
  [js "KBytes"; js "MBytes"; js "GBytes"; js "TBytes"; UI (js "KBy"); UI (js "MBy"); UI (js "GBy"); UI (js "TBy")].

(** [units] is [None] where the caller passes [null]; [dDgt] is 0 where it is
    omitted. *)
Definition parseBytes (bytes : num) (units : option jstr) (abbr : bool) (dDgt : Z) : jstr :=
  let units := match units with
               | Some u => if bool_decide (u ∈ unit_names) then u else js "mixed"
               | None => js "mixed"
               end in
  let spcr := if abbr then [] else js " " in
  let d := if dDgt =? 0 then 3 else dDgt in
  let mixed := units =s js "mixed" in
  let name a b := if abbr then UI (js a) else UI (js b) in
  if (mixed && Num.gtb bytes (Int (1024 ^ 4))) || (units =s js "TBytes") || (units =s UI (js "TBy"))
  then toFixed (div_pow2 bytes 40) d ++ spcr ++ name "TB"%string "TBy"%string
  else if (mixed && Num.gtb bytes (Int (1024 ^ 3))) || (units =s js "GBytes") || (units =s UI (js "GBy"))
  then toFixed (div_pow2 bytes 30) d ++ spcr ++ name "GB"%string "GBy"%string
  else if (mixed && Num.gtb bytes (Int (1024 ^ 2))) || (units =s js "MBytes") || (units =s UI (js "MBy"))
  then toFixed (div_pow2 bytes 20) d ++ spcr ++ name "MB"%string "MBy"%string
  else toFixed (div_pow2 bytes 10) d ++ spcr ++ name "KB"%string "KBy"%string.

Definition toBytes (val : Z) (unit : jstr) : Z :=
  if unit =s js "KB" then val * 1024
  else if unit =s js "MB" then val * 1024 * 1024
  else if unit =s js "GB" then val * 1024 * 1024 * 1024
  else if unit =s js "TB" then val * 1024 * 1024 * 1024 * 1024
  else val.

Definition parseKbytesPerSecond (kbytes : num) (units : option jstr) : jstr :=
  let units := match units with
               | Some u => if (u =s js "bytes/s") || (u =s js "KBytes/s") || (u =s js "MBytes/s") then u else js "mixed"
               | None => js "mixed"
               end in
  if ((units =s js "mixed") && Num.gtb kbytes (Int 1024)) || (units =s js "MBytes/s")
  then toFixed (div_pow2 kbytes 10) 3 ++ js " " ++ UI (js "MBs")
  else num_toString kbytes ++ js " " ++ UI (js "KBs").

End ui.

Definition re_after_point : re := Eval vm_compute in rx ".*\.(.*)$".

Definition truncateDecimal (dec : num) : jstr :=
  let result := num_toString (match dec with Dec m e => Dec (floor_scaled m e 3) (-3) | _ => dec end) in
  match exec re_after_point result with
  | None => result ++ js ".000"
  | Some decMatch =>
      if zlen (group 1 decMatch) =? 1 then result ++ js "00"
      else if zlen (group 1 decMatch) =? 2 then result ++ js "0"
      else result
  end.

(** ** Times *)
Section clock.
Variable UI : jstr → jstr.
Variable uciOriginal : UCIContainer.

(** [style == 24] *)
Definition style24 : bool := Num.eqb (toNumber (Ports.gets uciOriginal (js "gargoyle") (js "global") (js "hour_style"))) (Int 24).

(** [eval] of a numeral: here a run of digits; a leading zero followed by octal
    digits is an octal literal. *)
Definition octal_digit (c : Z) : bool := (48 <=? c) && (c <=? 55).
Definition eval_numeral (s : jstr) : exn Z :=
  if forallb is_digit s && negb (s =s []) then
    Ret (match s with
         | 48 :: s' => if forallb octal_digit s' && negb (s' =s [])
                       then digits_val 8 (map (fun c => c - 48) s') else dec_val s
         | _ => dec_val s
         end)
  else Raise SyntaxError.

Definition hour12 (curr_hour : Z) : jstr :=
  if curr_hour =? 0 then js "12" else str_of_Z (if curr_hour <=? 12 then curr_hour else curr_hour - 12).

Definition cnv24hToLocal (timestamp : jstr) : exn jstr :=
  if style24 then Ret timestamp
  else
    let h_m_stamp := split_char 58 timestamp in
    let! curr_hour := eval_numeral (default [] (h_m_stamp !! 0%nat)) in
    let minutes := default (js "undefined") (h_m_stamp !! 1%nat) in
    let clock := hour12 curr_hour ++ js ":" ++ minutes in
    Ret (if (0 <? zlen (UI (js "pAM"))) && (0 <? zlen (UI (js "pPM")))
         then (if curr_hour <? 12 then UI (js "pAM") else UI (js "pPM")) ++ js " " ++ clock
         else clock ++ js " " ++ (if curr_hour <? 12 then UI (js "hAM") else UI (js "hPM"))).

Definition cnv_LocaleTime (full_date : jstr) : exn jstr :=
  if style24 then Ret full_date
  else
    let tcomponents := split_char 32 full_date in
    let! t := exn_of_option TypeError (tcomponents !! 1%nat) in
    let! local := cnv24hToLocal t in
    Ret (default (js "undefined") (tcomponents !! 0%nat) ++ js " " ++ local ++ js " "
         ++ default (js "undefined") (tcomponents !! 2%nat)).

End clock.

(** ** Time zones *)
Definition re_quoted : re := Eval vm_compute in rx "\x22.*\x22".
Definition re_in_quotes : re := Eval vm_compute in rx "^[^\x22]*\x22([^\x22]*)\x22".

Definition stripQuotes (str : jstr) : exn jstr :=
  if test re_quoted str then
    let! m := exn_of_option TypeError (exec re_in_quotes str) in Ret (group 1 m)
  else Ret str.

Definition re_comment : re := Eval vm_compute in rx "^[\t ]*#".
Definition re_tabs : re := Eval vm_compute in rx "[\t]+".

(** The four arrays; the last three are keyed by name, later lines replacing
    earlier ones. *)
Record timezones := mkTimezones {
  timezoneList : list jstr;
  timezoneRegions : gmap jstr jstr;
  timezoneDefinitions : gmap jstr jstr;
  definitionTimezones : gmap jstr jstr
}.

(** [TiZ] has the names of the language pack; it is empty on a localized firmware.
    The second part of a name is evaluated as an expression: a member of [TiZ]; other
    expressions throw in the model. *)
Definition re_tiz : re := Eval vm_compute in rx "^TiZ\.([A-Za-z_][A-Za-z0-9_]*)$".
Definition re_tiz_search : re := Eval vm_compute in rx "^TiZ.".
Definition local_timezone (TiZ : gmap jstr jstr) (timezone : jstr) : exn jstr :=
  match split_char 32 timezone with
  | [zone; name] =>
      if negb (bool_decide (TiZ = ∅)) && test re_tiz_search name then
        match exec re_tiz name with
        | Some m => Ret (zone ++ js " " ++ default (js "undefined") (TiZ !! group 1 m))
        | None => Raise SyntaxError
        end
      else Ret timezone
  | _ => Ret timezone
  end.

Definition parse_timezone (TiZ : gmap jstr jstr) (tz : timezones) (line : jstr) : exn timezones :=
  if negb (test re_comment line) && (0 <? zlen line) then
    match rev (split_re re_tabs line) with
    | region :: definition :: timezone :: _ =>
        let! region := stripQuotes region in
        let! definition := stripQuotes definition in
        let! timezone := stripQuotes timezone in
        let! timezone := local_timezone TiZ timezone in
        Ret (mkTimezones (timezoneList tz ++ [timezone]) (<[timezone := region]> (timezoneRegions tz))
               (<[timezone := definition]> (timezoneDefinitions tz)) (<[definition := timezone]> (definitionTimezones tz)))
    | _ => Raise TypeError
    end
  else Ret tz.

Definition parseTimezones (TiZ : gmap jstr jstr) (timezoneLines : list jstr) : exn timezones :=
  exn_fold (parse_timezone TiZ) timezoneLines (mkTimezones [] ∅ ∅ ∅).

(** ** Lists *)

(** The text nodes of the span, a break between them. *)
Definition textListToSpanElement (textList : list jstr) (addCommas : bool) : list jstr :=
  imap (fun i t => t ++ (if (S i <? length textList)%nat && addCommas then js "," else [])) textList.

Definition removeStringFromArray (arr : list jstr) (str : jstr) : list jstr :=
  filter (λ x, (x =s str) = false) arr.

(** ** Parameters of a request

    [encodeURIComponent]: the unreserved characters are kept, the others are
    written as the bytes of their UTF-8 form; a lone surrogate throws. *)
Definition unreserved (c : Z) : bool :=
  is_digit c || is_upper c || is_lower c || bool_decide (c ∈ js "-_.!~*'()").

Definition hex_upper (d : Z) : Z := if d <? 10 then d + 48 else d + 55.
Definition percent (b : Z) : jstr := [37; hex_upper (b / 16); hex_upper (b mod 16)].

Definition utf8 (c : Z) : list Z :=
  if c <? 128 then [c]
  else if c <? 2048 then [192 + c / 64; 128 + c mod 64]
  else if c <? 65536 then [224 + c / 4096; 128 + c / 64 mod 64; 128 + c mod 64]
  else [240 + c / 262144; 128 + c / 4096 mod 64; 128 + c / 64 mod 64; 128 + c mod 64].

Fixpoint encodeURIComponent (s : jstr) : exn jstr :=
  match s with
  | [] => Ret []
  | c :: s' =>
      if unreserved c then let! r := encodeURIComponent s' in Ret (c :: r)
      else if (55296 <=? c) && (c <? 56320) then
        match s' with
        | c2 :: s'' =>
            if (56320 <=? c2) && (c2 <? 57344)
            then let! r := encodeURIComponent s'' in
                 Ret (concat (map percent (utf8 ((c - 55296) * 1024 + (c2 - 56320) + 65536))) ++ r)
            else Raise URIError
        | [] => Raise URIError
        end
      else if (56320 <=? c) && (c <? 57344) then Raise URIError
      else let! r := encodeURIComponent s' in Ret (concat (map percent (utf8 c)) ++ r)
  end.

Definition getParameterDefinition (parameter definition : jstr) : exn jstr :=
  let! p := encodeURIComponent parameter in
  let! d := encodeURIComponent definition in
  Ret (p ++ js "=" ++ d).

End Text.
