(* ===== verification/Dom.v ===== *)
(** * The document and its form fields (common.js)

    The part of the document object model that the form functions use: elements
    by identifier, with the attributes that the functions read and write.  A
    function that changes the document returns the new document; access to an
    identifier that is not there throws, as a property of [null] does.

    The strings of the language pack ([UI]) are a parameter. *)
From S2P Require Import Prelude JsNum JsString JsRegex Validate Table.
Import Validate.
Open Scope Z_scope.

Record option_el := mkOpt { o_text : jstr; o_value : jstr }.

#[export] Instance option_el_eq_dec : EqDecision option_el.
Proof. solve_decision. Defined.

Record element := mkEl {
  e_type : jstr;
  e_text_value : jstr;           (** [value] of an input or text area *)
  e_checked : bool;
  e_disabled : bool;
  e_readOnly : bool;
  e_options : list option_el;    (** of a drop-down list *)
  e_selectedIndex : Z;
  e_color : jstr;                (** [style.color] *)
  e_display : jstr;              (** [style.display] *)
  e_class : jstr;
  e_data : option jstr           (** [firstChild.data] *)
}.

(** The document, with the messages shown by [alert], the last first. *)
Record document := mkDoc { elements : gmap jstr element; alerts : list jstr }.

(** ** Setters *)
Definition set_text_value (v : jstr) (e : element) : element :=
  mkEl (e_type e) v (e_checked e) (e_disabled e) (e_readOnly e) (e_options e) (e_selectedIndex e)
    (e_color e) (e_display e) (e_class e) (e_data e).
Definition set_checked (b : bool) (e : element) : element :=
  mkEl (e_type e) (e_text_value e) b (e_disabled e) (e_readOnly e) (e_options e) (e_selectedIndex e)
    (e_color e) (e_display e) (e_class e) (e_data e).
Definition set_disabled (b : bool) (e : element) : element :=
  mkEl (e_type e) (e_text_value e) (e_checked e) b (e_readOnly e) (e_options e) (e_selectedIndex e)
    (e_color e) (e_display e) (e_class e) (e_data e).
Definition set_readOnly (b : bool) (e : element) : element :=
  mkEl (e_type e) (e_text_value e) (e_checked e) (e_disabled e) b (e_options e) (e_selectedIndex e)
    (e_color e) (e_display e) (e_class e) (e_data e).
Definition set_options (l : list option_el) (i : Z) (e : element) : element :=
  mkEl (e_type e) (e_text_value e) (e_checked e) (e_disabled e) (e_readOnly e) l i
    (e_color e) (e_display e) (e_class e) (e_data e).
Definition set_selectedIndex (i : Z) (e : element) : element := set_options (e_options e) i e.
Definition set_color (c : jstr) (e : element) : element :=
  mkEl (e_type e) (e_text_value e) (e_checked e) (e_disabled e) (e_readOnly e) (e_options e) (e_selectedIndex e)
    c (e_display e) (e_class e) (e_data e).
Definition set_display (d : jstr) (e : element) : element :=
  mkEl (e_type e) (e_text_value e) (e_checked e) (e_disabled e) (e_readOnly e) (e_options e) (e_selectedIndex e)
    (e_color e) d (e_class e) (e_data e).
Definition set_class (c : jstr) (e : element) : element :=
  mkEl (e_type e) (e_text_value e) (e_checked e) (e_disabled e) (e_readOnly e) (e_options e) (e_selectedIndex e)
    (e_color e) (e_display e) c (e_data e).

Module Dom.

(** ** Elements *)
Definition getElementById (d : document) (id : jstr) : option element := elements d !! id.

(** Use of an element: a missing one is [null]. *)
Definition el (d : document) (id : jstr) : exn element := exn_of_option TypeError (getElementById d id).
Definition put (d : document) (id : jstr) (e : element) : document := mkDoc (<[id := e]> (elements d)) (alerts d).
Definition update (d : document) (id : jstr) (f : element → element) : exn document :=
  let! e := el d id in Ret (put d id (f e)).

(** The children of an element become the lines of a text with breaks between
    them; the first child is the first line.  A missing element is left. *)
Definition re_amp : re := Eval vm_compute in rx "\&amp;".
Definition set_first_data (s : jstr) (e : element) : element :=
  mkEl (e_type e) (e_text_value e) (e_checked e) (e_disabled e) (e_readOnly e) (e_options e) (e_selectedIndex e)
    (e_color e) (e_display e) (e_class e) (Some s).
Definition setChildText (d : document) (parentId text : jstr) : document :=
  match getElementById d parentId with
  | Some e => put d parentId (set_first_data (default [] (head (split_char 10 (replace_all re_amp (js "&") text)))) e)
  | None => d
  end.

Definition alert (d : document) (msg : jstr) : document := mkDoc (elements d) (msg :: alerts d).

Definition is_text (e : element) : bool := (e_type e =s js "text") || (e_type e =s js "textarea").
Definition is_select (e : element) : bool :=
  (e_type e =s js "select-one") || (e_type e =s js "select-multiple") || (e_type e =s js "select").

(** ** Drop-down lists

    A drop-down list shows one option: when options are inserted or removed and
    none is selected, the first one becomes selected. *)
Definition fix_selection (l : list option_el) (i : Z) : Z :=
  if (i <? 0) && negb (bool_decide (l = [])) then 0 else i.

Definition select_add (e : element) (o : option_el) (before : option nat) : element :=
  let n := match before with Some b => b | None => length (e_options e) end in
  let l := take n (e_options e) ++ o :: drop n (e_options e) in
  let i := if Z.of_nat n <=? e_selectedIndex e then e_selectedIndex e + 1 else e_selectedIndex e in
  set_options l (fix_selection l i) e.

Definition select_remove (e : element) (n : nat) : element :=
  let l := delete n (e_options e) in
  let i := if Z.of_nat n =? e_selectedIndex e then -1
           else if Z.of_nat n <? e_selectedIndex e then e_selectedIndex e - 1 else e_selectedIndex e in
  if (n <? length (e_options e))%nat then set_options l (fix_selection l i) e else e.

Definition selected_option (e : element) : option option_el :=
  if 0 <=? e_selectedIndex e then e_options e !! Z.to_nat (e_selectedIndex e) else None.

(** The index of the first option that satisfies a test. *)
Fixpoint find_option (p : option_el → bool) (l : list option_el) (i : Z) : option Z :=
  match l with
  | [] => None
  | o :: l' => if p o then Some i else find_option p l' (i + 1)
  end.

(** [element.value]: a list gives the value of its selected option, and is set
    to the first option of that value. *)
Definition value (e : element) : jstr :=
  if is_select e then match selected_option e with Some o => o_value o | None => [] end else e_text_value e.
Definition set_value (v : jstr) (e : element) : element :=
  if is_select e then set_selectedIndex (default (-1) (find_option (fun o => o_value o =s v) (e_options e) 0)) e
  else set_text_value v e.

Section ui.
Variable UI : jstr → jstr.

(** [None] is the [undefined] returned after the alert. *)
Definition getSelectedValue (d : document) (selectId : jstr) : exn (option jstr * document) :=
  match getElementById d selectId with
  | None => Ret (None, alert d (UI (js "Err") ++ js ": " ++ selectId ++ js " " ++ UI (js "nex")))
  | Some e =>
      if 0 <=? e_selectedIndex e then
        let! o := exn_of_option TypeError (selected_option e) in Ret (Some (o_value o), d)
      else Ret (Some [], d)
  end.

Definition getSelectedText (d : document) (selectId : jstr) : exn jstr :=
  let! e := el d selectId in
  if 0 <=? e_selectedIndex e then
    let! o := exn_of_option TypeError (selected_option e) in Ret (o_text o)
  else Ret [].

(** The loop of [setSelectedValue] and [setSelectedText]. *)
Definition select_first (p : option_el → bool) (e : element) : element :=
  match find_option p (e_options e) 0 with
  | Some i => set_selectedIndex i e
  | None =>
      if (0 <? zlen (e_options e)) && (e_selectedIndex e <? 0) then set_selectedIndex 0 e else e
  end.

(** The access to the options of a missing element throws after the alert. *)
Definition setSelectedValue (d : document) (selectId selection : jstr) : exn document :=
  update d selectId (select_first (fun o => o_value o =s selection)).

Definition setSelectedText (d : document) (selectId selection : jstr) : exn document :=
  update d selectId (select_first (fun o => o_text o =s selection)).

Definition addOptionToSelectElement (d : document) (selectId optionText optionValue : jstr) (before : option nat)
    : exn document :=
  update d selectId (fun e => select_add e (mkOpt optionText optionValue) before).

Definition remove_first (p : option_el → bool) (e : element) : element :=
  match find_option p (e_options e) 0 with
  | Some i => select_remove e (Z.to_nat i)
  | None => e
  end.

Definition removeOptionFromSelectElement (d : document) (selectId optionText : jstr) : exn document :=
  update d selectId (remove_first (fun o => o_text o =s optionText)).

Definition removeOptionFromSelectElementByValue (d : document) (selectId optionValue : jstr) : exn document :=
  update d selectId (remove_first (fun o => o_value o =s optionValue)).

(** [while(selectElement.length > 0) remove(0)] *)
Fixpoint remove_all (n : nat) (e : element) : element :=
  match n with O => e | S n' => remove_all n' (select_remove e 0) end.
Definition removeAllOptionsFromSelectElement (e : element) : element := remove_all (length (e_options e)) e.

(** The lists are [None] where the caller passes [null]; a name missing from
    [allowableNames] is [undefined]. *)
Definition same_options (l : list option_el) (values names : list jstr) : bool :=
  (length values =? length l)%nat
  && forallb (fun '(i, o) => bool_decide (names !! i = Some (o_text o)) && bool_decide (values !! i = Some (o_value o)))
       (imap (fun i o => (i, o)) l).

Definition setAllowableSelections (d : document) (selectId : jstr) (allowableValues allowableNames : option (list jstr))
    : exn document :=
  match allowableValues, allowableNames, getElementById d selectId with
  | Some values, Some names, Some e =>
      if same_options (e_options e) values names then Ret d
      else
        let! cur := getSelectedValue d selectId in
        let currentSelection := default [] (fst cur) in
        let d := put d selectId (removeAllOptionsFromSelectElement e) in
        let! d := exn_fold (fun d '(i, v) =>
          addOptionToSelectElement d selectId (default (js "undefined") (names !! i)) v None)
          (imap (fun i v => (i, v)) values) d in
        setSelectedValue d selectId currentSelection
  | _, _, _ => Ret d
  end.

(** ** Enabling fields *)
Definition setElementEnabled (d : document) (id : jstr) (enabled : bool) (defaultValue : jstr) : exn document :=
  update d id (fun e =>
    if enabled then
      let e := set_disabled false e in
      if is_text e then set_class (js "form-control") (set_color [] e)
      else if is_select e then set_class (js "form-control") e
      else if e_type e =s js "button" then set_class (Table.class_remove (js "disabled") (e_class e)) e
      else e
    else
      let e := set_disabled true e in
      if is_text e then
        set_class (js "form-control disabled") (set_color (js "#AAAAAA") (set_text_value defaultValue e))
      else if is_select e then
        set_class (js "form-control disabled") (select_first (fun o => o_value o =s defaultValue) e)
      else if e_type e =s js "button" then set_class (Table.class_add (js "disabled") (e_class e)) e
      else if e_type e =s js "file" then set_text_value defaultValue e
      else e).

Definition enableAssociatedField (d : document) (checkbox associatedId defaultValue : jstr) : exn document :=
  let! c := el d checkbox in setElementEnabled d associatedId (e_checked c) defaultValue.

Definition setElementReadOnly (d : document) (id : jstr) (readOnly : bool) : exn document :=
  update d id (fun e => set_readOnly readOnly (if readOnly then set_disabled false e else e)).

Definition updateReadOnlyAssociate (d : document) (associate element_id : jstr) : exn document :=
  let! a := el d associate in
  if e_readOnly a && negb (e_disabled a) then
    let! e := el d element_id in
    Ret (put d associate (set_color (e_color e) (set_value (value e) a)))
  else Ret d.

Definition trueAndVisible (d : document) (elementId visibilityId : jstr) : exn bool :=
  let! e := el d elementId in
  if e_checked e then let! v := el d visibilityId in Ret (negb (e_display v =s js "none")) else Ret false.

(** Missing entries of [defaultDisplays] do not occur in the calls; [None] is a
    missing array. *)
Definition setVisibility (d : document) (ids : list jstr) (visibility : list Z) (defaultDisplays : option (list jstr))
    : exn document :=
  exn_fold (fun d '(i, id) =>
    update d id (set_display
      (if bool_decide (visibility !! i = Some 0) then js "none"
       else match defaultDisplays with Some l => default [] (l !! i) | None => js "block" end)))
    (imap (fun i id => (i, id)) ids) d.

Definition setInvisibleIfIdMatches (d : document) (selectId : jstr) (invisibleOptionValues : list jstr)
    (associatedElementId defaultDisplayMode : jstr) : exn document :=
  match getElementById d associatedElementId with
  | None => Ret d
  | Some visElement =>
      let! sel := exn_fold (fun '(matches, d) v =>
        let! s := getSelectedValue d selectId in
        Ret (if bool_decide (fst s = Some v) then true else matches, snd s)) invisibleOptionValues (false, d) in
      update (snd sel) associatedElementId
        (set_display (if (fst sel : bool) then js "none" else defaultDisplayMode))
  end.

(** ** proofreadFields *)
Definition re_colon1 : re := Eval vm_compute in rx ":".

(** [proofreadText] and [resetProofreadText] on an element. *)
Definition proofread_el (f : jstr → Z) (code : Z) (e : element) : element :=
  let i := proofreadText (mkInput (value e) (e_disabled e) (e_color e)) f code in set_color (in_color i) e.
Definition reset_el (e : element) : element :=
  set_color (in_color (resetProofreadText (mkInput (value e) (e_disabled e) (e_color e)))) e.

(** One field: its identifiers, validator, code of a valid field and the
    element its visibility depends on. *)
Record field := mkField {
  f_input : jstr; f_label : jstr; f_check : jstr → Z; f_code : Z; f_visibility : option jstr
}.

(** [isVisible] *)
Definition field_visible (d : document) (f : field) : exn bool :=
  match f_visibility f with
  | None => Ret true
  | Some v => let! e := el d v in Ret (negb ((e_display e =s js "none") || e_disabled e))
  end.

Definition proofread_field (st : list jstr * document) (f : field) : exn (list jstr * document) :=
  let '(errorArray, d) := st in
  let! isVisible := field_visible d f in
  if isVisible then
    let! d := update d (f_input f) (proofread_el (f_check f) (f_code f)) in
    let! e := el d (f_input f) in
    if negb (f_check f (value e) =? f_code f) then
      let! lab :=
        match getElementById d (f_label f) with
        | Some l => let! s := exn_of_option TypeError (e_data l) in Ret (replace re_colon1 [] s, d)
        | None => Ret (f_label f,
            alert d (js "error in proofread: label with id " ++ f_label f ++ js " is not defined"))
        end in
      Ret (errorArray ++ [UI (js "prfErr") ++ js " " ++ fst lab], snd lab)
    else Ret (errorArray, d)
  else Ret (errorArray, d).

Definition proofreadFields (d : document) (fields : list field) : exn (list jstr * document) :=
  exn_fold proofread_field fields ([], d).

Definition resetProofreadFields (d : document) (inputIds : list jstr) : exn document :=
  exn_fold (fun d id => update d id reset_el) inputIds d.

End ui.

End Dom.
