(* ===== verification/Forms.v ===== *)
(** * Between the configuration and the form (common.js)

    The [setVariable...] functions store the fields of a form in a
    [UCIContainer]; the [load...] functions show options in the fields.  Both
    families are driven by tables of parallel arrays ([setVariables],
    [loadVariables]); here a table is a list of records. *)
From S2P Require Import Prelude JsNum JsString JsRegex Uci Text Dom.
Import Dom.
Open Scope Z_scope.

(** The state of a page: the document, the container being written, and the
    global variable [value] that the setters assign ([None] before the first
    assignment). *)
Record page := mkPage { p_doc : document; p_uci : UCIContainer; p_value : option jstr }.

(** What a setter is called with after the element and the option. *)
Inductive setter :=
| FromValue (setIfBlank : bool)
| FromModifiedValue (setIfBlank : bool) (modFunction : jstr → jstr)
| FromCombined (elementIds : list jstr) (setIfBlank : bool) (combineFunction : list jstr → jstr)
| FromConcatenation (elementIds : list jstr) (visibilityIds : option (list (option jstr))) (setIfBlank : bool)
| Conditionally (testFunction : jstr → bool) (useValueFromElement : bool) (alternateValue : jstr).

(** One row of the table of [setVariables]. *)
Record set_row := mkSetRow {
  s_id : jstr; s_visibility : option jstr; s_pkg : jstr; s_section : jstr; s_option : jstr; s_setter : setter
}.

Module Forms.

(** [isVisible] *)
Definition visible (d : document) (visibilityId : option jstr) : exn bool :=
  match visibilityId with
  | None => Ret true
  | Some v => let! e := el d v in Ret (negb (e_display e =s js "none"))
  end.

Definition store (p : page) (pkg section option : jstr) (v : jstr) : page :=
  mkPage (p_doc p) (Uci.set (p_uci p) pkg section option (UStr v) false) (p_value p).
Definition with_value (p : page) (v : jstr) : page := mkPage (p_doc p) (p_uci p) (Some v).

(** [setVariableFromModifiedValue]; [setVariableFromValue] is the same with the
    identity. *)
Definition setVariableFromModifiedValue (p : page) (elementId : jstr) (visibilityId : option jstr)
    (pkg section option : jstr) (setIfBlank : bool) (modFunction : jstr → jstr) : exn page :=
  let! isVisible := visible (p_doc p) visibilityId in
  if isVisible then
    let! e := el (p_doc p) elementId in
    let p := with_value p (value e) in
    Ret (if negb (value e =s []) || setIfBlank then store p pkg section option (modFunction (value e)) else p)
  else Ret p.

Definition setVariableFromValue (p : page) (elementId : jstr) (visibilityId : option jstr)
    (pkg section option : jstr) (setIfBlank : bool) : exn page :=
  let! isVisible := visible (p_doc p) visibilityId in
  if isVisible then
    let! e := el (p_doc p) elementId in
    let p := with_value p (value e) in
    Ret (if negb (value e =s []) || setIfBlank then store p pkg section option (value e) else p)
  else Ret p.

(** The test of this setter is on the global [value], which it does not assign;
    reading it before any assignment throws. *)
Definition setVariableFromCombined (p : page) (elementIds : list jstr) (visibilityId : option jstr)
    (pkg section option : jstr) (setIfBlank : bool) (combineFunction : list jstr → jstr) : exn page :=
  let! isVisible := visible (p_doc p) visibilityId in
  if isVisible then
    let! values := exn_fold (fun values id => let! e := el (p_doc p) id in Ret (values ++ [value e])) elementIds [] in
    let! v := exn_of_option ReferenceError (p_value p) in
    Ret (if negb (v =s []) || setIfBlank then store p pkg section option (combineFunction values) else p)
  else Ret p.

(** One turn of the loop: the concatenation so far and the page. *)
Definition concat_step (elementIds : list jstr) (visibilityIds : option (list (option jstr)))
    (st : jstr * page) (nextId : nat * jstr) : exn (jstr * page) :=
  let '(concat, p) := st in
  let '(nextIdIndex, id) := nextId in
  let vis := match visibilityIds with Some l => default None (l !! nextIdIndex) | None => None end in
  let! idVisible := visible (p_doc p) vis in
  let! e := el (p_doc p) id in
  let p := with_value p (value e) in
  Ret (if idVisible && negb (value e =s [])
       then (concat ++ value e ++ (if Z.of_nat nextIdIndex <? zlen elementIds - 1 then js " " else []), p)
       else (concat, p)).

Definition setVariableFromConcatenation (p : page) (elementIds : list jstr)
    (visibilityIds : option (list (option jstr))) (pkg section option : jstr) (setIfBlank : bool) : exn page :=
  let! r := exn_fold (concat_step elementIds visibilityIds) (imap (fun i id => (i, id)) elementIds) ([], p) in
  Ret (if negb (fst r =s []) || setIfBlank then store (snd r) pkg section option (fst r) else snd r).

Definition setVariableConditionally (p : page) (elementId : jstr) (visibilityId : option jstr)
    (pkg section option : jstr) (testFunction : jstr → bool) (useValueFromElement : bool) (alternateValue : jstr)
    : exn page :=
  let! isVisible := visible (p_doc p) visibilityId in
  if isVisible then
    let! v := (if useValueFromElement then let! e := el (p_doc p) elementId in Ret (value e)
               else Ret alternateValue) in
    let p := with_value p v in
    Ret (if testFunction v then store p pkg section option v else p)
  else Ret p.

(** [nextFunction(fullList)] *)
Definition apply_setter (p : page) (r : set_row) : exn page :=
  match s_setter r with
  | FromValue b => setVariableFromValue p (s_id r) (s_visibility r) (s_pkg r) (s_section r) (s_option r) b
  | FromModifiedValue b f =>
      setVariableFromModifiedValue p (s_id r) (s_visibility r) (s_pkg r) (s_section r) (s_option r) b f
  | FromCombined ids b f =>
      setVariableFromCombined p ids (s_visibility r) (s_pkg r) (s_section r) (s_option r) b f
  | FromConcatenation ids vis b => setVariableFromConcatenation p ids vis (s_pkg r) (s_section r) (s_option r) b
  | Conditionally f b alt =>
      setVariableConditionally p (s_id r) (s_visibility r) (s_pkg r) (s_section r) (s_option r) f b alt
  end.

Definition setVariables (p : page) (rows : list set_row) : exn page := exn_fold apply_setter rows p.

(** ** Loading *)

(** [if(v != null && v != '') e.value = v; else if(defaultValue != null)
    e.value = defaultValue]; the element is only used when it is assigned. *)
Definition show_value (d : document) (elementId v : jstr) (defaultValue : option jstr) : exn document :=
  if negb (v =s []) then update d elementId (set_value v)
  else match defaultValue with
       | Some v' => update d elementId (set_value v')
       | None => Ret d
       end.

Definition loadValueFromVariable (d : document) (u : UCIContainer) (elementId pkg section option : jstr)
    (defaultValue : Datatypes.option jstr) : exn document :=
  show_value d elementId (uval_str (Uci.get u pkg section option)) defaultValue.

(** The value is multiplied when it is there or not. *)
Definition loadValueFromVariableMultiple (d : document) (u : UCIContainer) (elementId pkg section option : jstr)
    (defaultValue : Datatypes.option jstr) (multiple : num) : exn document :=
  let! d := loadValueFromVariable d u elementId pkg section option defaultValue in
  update d elementId (fun e => set_value (Text.num_toString (Num.mul (toNumber (value e)) multiple)) e).

Definition loadValueFromModifiedVariable (d : document) (u : UCIContainer) (elementId pkg section option : jstr)
    (defaultValue : Datatypes.option jstr) (modificationFunction : uval → jstr) : exn document :=
  show_value d elementId (modificationFunction (Uci.get u pkg section option)) defaultValue.

Definition re_list_sep : re := Eval vm_compute in rx "[,\t ]+".

(** [split] is a method of strings: an array throws. *)
Definition loadValueFromVariableAtIndex (d : document) (u : UCIContainer) (elementId pkg section option : jstr)
    (defaultValue : Datatypes.option jstr) (index : nat) : exn document :=
  match Uci.get u pkg section option with
  | UArr _ => Raise TypeError
  | UStr vStr => show_value d elementId (default [] (split_re re_list_sep vStr !! index)) defaultValue
  end.

Definition loadSelectedValueFromVariable (d : document) (u : UCIContainer) (elementId pkg section option : jstr)
    (defaultValue : Datatypes.option jstr) : exn document :=
  let v := uval_str (Uci.get u pkg section option) in
  if negb (v =s []) then setSelectedValue d elementId v
  else match defaultValue with Some v' => setSelectedValue d elementId v' | None => Ret d end.

Definition loadChecked (d : document) (u : UCIContainer) (elementId pkg section option : jstr) (test : uval → bool)
    : exn document :=
  update d elementId (set_checked (test (Uci.get u pkg section option))).

Definition loadValueFromMultipleVariables (d : document) (u : UCIContainer) (elementId : jstr)
    (vars : list (jstr * jstr * jstr)) (combineFunc : list uval → jstr) (defaultValue : Datatypes.option jstr)
    : exn document :=
  show_value d elementId (combineFunc (map (fun '(pkg, section, option) => Uci.get u pkg section option) vars))
    defaultValue.

(** One row of the table of [loadVariables]. *)
Inductive loader :=
| LoadValue (defaultValue : option jstr)
| LoadMultiple (defaultValue : option jstr) (multiple : num)
| LoadModified (defaultValue : option jstr) (modificationFunction : uval → jstr)
| LoadAtIndex (defaultValue : option jstr) (index : nat)
| LoadSelected (defaultValue : option jstr)
| LoadChecked (test : uval → bool).

Record load_row := mkLoadRow {
  l_id : jstr; l_pkg : jstr; l_section : jstr; l_option : jstr; l_loader : loader
}.

Definition apply_loader (u : UCIContainer) (d : document) (r : load_row) : exn document :=
  match l_loader r with
  | LoadValue dv => loadValueFromVariable d u (l_id r) (l_pkg r) (l_section r) (l_option r) dv
  | LoadMultiple dv n => loadValueFromVariableMultiple d u (l_id r) (l_pkg r) (l_section r) (l_option r) dv n
  | LoadModified dv f => loadValueFromModifiedVariable d u (l_id r) (l_pkg r) (l_section r) (l_option r) dv f
  | LoadAtIndex dv i => loadValueFromVariableAtIndex d u (l_id r) (l_pkg r) (l_section r) (l_option r) dv i
  | LoadSelected dv => loadSelectedValueFromVariable d u (l_id r) (l_pkg r) (l_section r) (l_option r) dv
  | LoadChecked f => loadChecked d u (l_id r) (l_pkg r) (l_section r) (l_option r) f
  end.

Definition loadVariables (d : document) (u : UCIContainer) (rows : list load_row) : exn document :=
  exn_fold (apply_loader u) rows d.

End Forms.
