(* ===== verification/FormFacts.v ===== *)
(** * Properties of the form functions *)
From S2P Require Import Prelude JsNum JsString JsRegex Uci UciFacts Dom Forms Validate.
Import Dom Forms.
Open Scope Z_scope.

(** ** Loading a form and storing it again *)

(** A text field bound to an option. *)
Record binding := mkBinding { b_id : jstr; b_pkg : jstr; b_section : jstr; b_option : jstr }.

Definition load_binding (b : binding) : load_row := mkLoadRow (b_id b) (b_pkg b) (b_section b) (b_option b) (LoadValue None).
Definition save_binding (b : binding) : set_row :=
  mkSetRow (b_id b) None (b_pkg b) (b_section b) (b_option b) (FromValue false).

(** The option is set to the non-empty text [v]. *)
Definition bound_to (u : UCIContainer) (b : binding) (v : jstr) : Prop :=
  v ≠ [] ∧ values u !! Uci.next_key (b_pkg b) (b_section b) (b_option b) = Some (UStr v) ∧
  Uci.next_key (b_pkg b) (b_section b) (b_option b) ∉ listOptions u.

Definition text_field (d : document) (id : jstr) : Prop := ∃ e, elements d !! id = Some e ∧ is_select e = false.
Definition shows (d : document) (id v : jstr) : Prop := ∃ e, elements d !! id = Some e ∧ value e = v.

Section elements.
Lemma put_eq d id e : elements (put d id e) !! id = Some e.
Proof. apply lookup_insert_eq. Qed.

Lemma put_ne d id id' e : id' ≠ id → elements (put d id e) !! id' = elements d !! id'.
Proof. intros H. apply lookup_insert_ne. congruence. Qed.

Lemma update_put d id e f : elements d !! id = Some e → update d id f = Ret (put d id (f e)).
Proof. intros H. unfold update, el, getElementById. by rewrite H. Qed.
End elements.

Section roundtrip.
Variable u : UCIContainer.

Lemma load_one d b v : bound_to u b v → text_field d (b_id b) →
  ∃ d', apply_loader u d (load_binding b) = Ret d' ∧ shows d' (b_id b) v ∧
    (∀ id, id ≠ b_id b → elements d' !! id = elements d !! id) ∧ (∀ id, text_field d id → text_field d' id).
Proof.
  intros (Hv & Hu & _) (e & He & Hs). unfold apply_loader, load_binding, loadValueFromVariable, show_value. simpl.
  unfold Uci.get. rewrite Hu. simpl. rewrite (proj2 (str_eqb_neq v [])) by done. simpl.
  rewrite (update_put _ _ _ _ He). eexists. split; [done|]. split_and!.
  - eexists. split; [apply put_eq|]. unfold set_value, value. rewrite Hs. simpl.
    change (is_select (set_text_value v e)) with (is_select e). by rewrite Hs.
  - intros id Hid. by apply put_ne.
  - intros id (e' & He' & Hs'). destruct (decide (id = b_id b)) as [->|Hne].
    + eexists. split; [apply put_eq|]. unfold set_value. rewrite Hs.
      change (is_select (set_text_value v e)) with (is_select e). done.
    + exists e'. by rewrite put_ne.
Qed.

Lemma load_all bs vs d : NoDup (map b_id bs) → Forall2 (bound_to u) bs vs → Forall (λ b, text_field d (b_id b)) bs →
  ∃ d', loadVariables d u (map load_binding bs) = Ret d' ∧ Forall2 (λ b v, shows d' (b_id b) v) bs vs ∧
    (∀ id, id ∉ map b_id bs → elements d' !! id = elements d !! id).
Proof.
  intros Hnd Hb. revert d. induction Hb as [|b v bs vs Hb _ IH]; intros d Ht; simpl; [by exists d|].
  apply NoDup_cons in Hnd as [Hn Hnd]. inversion Ht as [|? ? Ht1 Ht2]; subst.
  destruct (load_one d b v) as (d1 & E1 & S1 & F1 & K1); [done..|]. unfold loadVariables. simpl. rewrite E1. simpl.
  destruct (IH Hnd d1) as (d' & E' & S' & F').
  { eapply Forall_impl; [done|]. intros b' ?. by apply K1. }
  exists d'. split; [done|]. split.
  - constructor; [|done]. destruct S1 as (e & He & Hv). exists e. split; [|done]. rewrite F' by done. done.
  - intros id Hid. rewrite F' by set_solver. apply F1. set_solver.
Qed.

Lemma save_all bs vs p : Forall2 (bound_to u) bs vs → p_uci p = u → Forall2 (λ b v, shows (p_doc p) (b_id b) v) bs vs →
  ∃ p', setVariables p (map save_binding bs) = Ret p' ∧ p_uci p' = u ∧ p_doc p' = p_doc p.
Proof.
  intros Hb. revert p. induction Hb as [|b v bs vs (Hv & Hu & Hl) _ IH]; intros p Hp Hs; [by exists p|].
  inversion Hs as [|? ? ? ? (e & He & Hev) Hs']; subst. unfold setVariables. simpl.
  unfold apply_setter, save_binding, setVariableFromValue. simpl. unfold el, getElementById. rewrite He. simpl.
  rewrite (proj2 (str_eqb_neq (value e) [])) by done. simpl.
  destruct (IH (store (with_value p (value e)) (b_pkg b) (b_section b) (b_option b) (value e)))
    as (p' & E & Hp' & Hd); [|done|by exists p'].
  unfold store. simpl. unfold Uci.set. rewrite Hu.
  rewrite bool_decide_eq_false_2 by done. rewrite insert_id by done. by destruct (p_uci p).
Qed.

End roundtrip.

(** C28: saving an untouched form changes nothing: when text fields are loaded
    from options that are set to non-empty texts and stored again, the container
    is the one it was; every field shows the text of its option. *)
Theorem form_roundtrip u d bs vs w :
  NoDup (map b_id bs) → Forall2 (bound_to u) bs vs → Forall (λ b, text_field d (b_id b)) bs →
  ∃ d' p', loadVariables d u (map load_binding bs) = Ret d' ∧
    Forall2 (λ b v, shows d' (b_id b) v) bs vs ∧
    setVariables (mkPage d' u w) (map save_binding bs) = Ret p' ∧ p_uci p' = u.
Proof.
  intros Hnd Hb Ht. destruct (load_all u bs vs d Hnd Hb Ht) as (d' & E & S & _).
  destruct (save_all u bs vs (mkPage d' u w)) as (p' & E' & Hu & _); [done..|].
  by exists d', p'.
Qed.

(** ** proofreadFields *)

(** Everything but the colours of the fields. *)
Definition uncoloured (e : element) : element := set_color [] e.
Definition same_but_color (d d' : document) : Prop :=
  (∀ id, uncoloured <$> elements d' !! id = uncoloured <$> elements d !! id) ∧ alerts d' = alerts d.

#[export] Instance same_but_color_equiv : Equivalence same_but_color.
Proof.
  split.
  - done.
  - intros d d' [H A]. split; [intros id; by rewrite H|done].
  - intros d1 d2 d3 [H A] [H' A']. split; [intros id; by rewrite H', H|congruence].
Qed.

(** The elements a field names are there. *)
Definition field_ready (d : document) (f : field) : Prop :=
  (∃ e, elements d !! f_input f = Some e) ∧ (∃ l s, elements d !! f_label f = Some l ∧ e_data l = Some s) ∧
  match f_visibility f with None => True | Some v => ∃ e, elements d !! v = Some e end.

(** The field is visible and its text is not accepted. *)
Definition rejected (d : document) (f : field) : Prop :=
  field_visible d f = Ret true ∧ ∃ e, elements d !! f_input f = Some e ∧ f_check f (value e) ≠ f_code f.

(** The errors of one field. *)
Definition reports (d : document) (f : field) (es : list jstr) : Prop :=
  (length es ≤ 1)%nat ∧ (es = [] ↔ ¬ rejected d f).

Section proofread.
Variable UI : jstr → jstr.

Lemma same_lookup d d' id e : same_but_color d d' → elements d !! id = Some e →
  ∃ c, elements d' !! id = Some (set_color c e).
Proof.
  intros [H _] E. specialize (H id). rewrite E in H. destruct (elements d' !! id) as [e'|] eqn:E'; [|done].
  exists (e_color e'). f_equal. simpl in H. injection H. destruct e', e. unfold set_color; simpl. intros. by subst.
Qed.

Lemma value_color c e : value (set_color c e) = value e.
Proof. done. Qed.

Lemma same_visible d d' f : same_but_color d d' → field_ready d f → field_visible d' f = field_visible d f.
Proof.
  intros Hs (_ & _ & Hv). unfold field_visible. destruct (f_visibility f) as [v|]; [|done]. destruct Hv as [e He].
  destruct (same_lookup _ _ _ _ Hs He) as [c Hc]. unfold el, getElementById. by rewrite He, Hc.
Qed.

Lemma same_ready d d' f : same_but_color d d' → field_ready d f → field_ready d' f.
Proof.
  intros Hs ((e & He) & (l & s & Hl & Hd) & Hv). split_and!.
  - destruct (same_lookup _ _ _ _ Hs He) as [c Hc]. eauto.
  - destruct (same_lookup _ _ _ _ Hs Hl) as [c Hc]. exists (set_color c l), s. done.
  - destruct (f_visibility f); [|done]. destruct Hv as [e' He']. destruct (same_lookup _ _ _ _ Hs He') as [c Hc]. eauto.
Qed.

Lemma same_rejected d d' f : same_but_color d d' → field_ready d f → rejected d' f ↔ rejected d f.
Proof.
  intros Hs Hr. unfold rejected. rewrite (same_visible _ _ _ Hs Hr). destruct Hr as ((e & He) & _).
  destruct (same_lookup _ _ _ _ Hs He) as [c Hc]. rewrite He, Hc. split; intros [? (e' & [= <-] & ?)]; eauto.
Qed.

Lemma same_reports d d' fs per : same_but_color d d' → Forall (field_ready d) fs →
  Forall2 (reports d') fs per → Forall2 (reports d) fs per.
Proof.
  intros Hs Hr. induction 1 as [|f es fs per [Hl Hi] _ IH]; inversion Hr; subst; constructor; [|by apply IH].
  split; [done|]. by rewrite Hi, same_rejected.
Qed.

Lemma proofread_one d f errs : field_ready d f →
  ∃ errs' d', proofread_field UI (errs, d) f = Ret (errs ++ errs', d') ∧ same_but_color d d' ∧
    (errs' = [] ↔ ¬ rejected d f) ∧ (length errs' ≤ 1)%nat.
Proof.
  intros Hr. pose proof Hr as ((e & He) & (l & s & Hl & Hd) & Hv). unfold proofread_field.
  destruct (field_visible d f) as [b|er] eqn:Ev.
  2:{ unfold field_visible in Ev. destruct (f_visibility f); [|done]. destruct Hv as [e' He'].
      unfold el, getElementById in Ev. by rewrite He' in Ev. }
  cbn [exn_bind]. destruct b.
  - rewrite (update_put _ _ _ _ He). cbn [exn_bind].
    set (d1 := put d (f_input f) (proofread_el (f_check f) (f_code f) e)).
    assert (Hs1 : same_but_color d d1).
    { split; [|done]. intros id. unfold d1. destruct (decide (id = f_input f)) as [->|Hne].
      - by rewrite put_eq, He.
      - by rewrite put_ne. }
    assert (H1 : elements d1 !! f_input f = Some (proofread_el (f_check f) (f_code f) e)) by apply put_eq.
    unfold el, getElementById. rewrite H1. cbn [exn_bind exn_of_option].
    change (value (proofread_el (f_check f) (f_code f) e)) with (value e).
    destruct (Z.eqb_spec (f_check f (value e)) (f_code f)) as [Eq|Ne]; cbn [negb].
    + exists [], d1. rewrite app_nil_r. split_and!; [done|done| |simpl; lia]. split; [|done]. intros _ [_ (e' & He' & Hne)].
      rewrite He in He'. injection He' as <-. done.
    + destruct (same_lookup _ _ _ _ Hs1 Hl) as [c Hc]. rewrite Hc. simpl. rewrite Hd. cbn [exn_bind exn_of_option fst snd].
      eexists _, d1. split_and!; [done|done| |simpl; lia]. split; [done|]. intros H. exfalso. apply H. split; [done|]. eauto.
  - exists [], d. rewrite app_nil_r. split_and!; [done|done| |simpl; lia]. split; [|done]. intros _ [? _]. congruence.
Qed.

Lemma proofread_all fs d errs : Forall (field_ready d) fs →
  ∃ errs' d', exn_fold (proofread_field UI) fs (errs, d) = Ret (errs ++ errs', d') ∧ same_but_color d d' ∧
    (errs' = [] ↔ ∀ f, f ∈ fs → ¬ rejected d f) ∧ (length errs' ≤ length fs)%nat ∧
    ∃ per, errs' = concat per ∧ Forall2 (reports d) fs per.
Proof.
  revert d errs. induction fs as [|f fs IH]; intros d errs Hr; cbn [exn_fold].
  - exists [], d. rewrite app_nil_r. split_and!; [done|done|set_solver|simpl; lia|by exists []].
  - inversion Hr as [|? ? Hf Hr']; subst. destruct (proofread_one d f errs Hf) as (e1 & d1 & E1 & S1 & N1 & L1).
    rewrite E1. cbn [exn_bind]. destruct (IH d1 (errs ++ e1)) as (e2 & d2 & E2 & S2 & N2 & L2 & per & -> & P2).
    { eapply Forall_impl; [done|]. intros f' ?. by eapply same_ready. }
    exists (e1 ++ concat per), d2. rewrite app_assoc. split_and!; [done|by etrans| |rewrite length_app; simpl; lia|].
    2:{ exists (e1 :: per). split; [done|]. constructor; [done|]. by apply (same_reports d d1). }
    rewrite app_nil, N1, N2. split.
    + intros [H1 H2] f' [-> | Hf']%elem_of_cons; [done|]. specialize (H2 f' Hf').
      rewrite same_rejected in H2; [done|done|]. rewrite Forall_forall in Hr'. by apply Hr'.
    + intros H. split; [apply H; by left|]. intros f' Hf'. rewrite same_rejected; [|done|].
      * apply H. by right.
      * rewrite Forall_forall in Hr'. by apply Hr'.
Qed.

(** Fields that are all shown: no error means that every text is accepted. *)
Lemma proofread_valid fs d : Forall (λ f, field_ready d f ∧ field_visible d f = Ret true) fs →
  ∃ errs d', proofreadFields UI d fs = Ret (errs, d') ∧ same_but_color d d' ∧
    (errs = [] → ∀ f e, f ∈ fs → elements d' !! f_input f = Some e → f_check f (value e) = f_code f).
Proof.
  intros Hf. rewrite Forall_forall in Hf. destruct (proofread_all fs d []) as (errs & d' & E & S & N & _).
  { apply Forall_forall. intros f Hin. by apply Hf. }
  exists errs, d'. split_and!; [done..|]. intros Hn f x Hin Hx. rewrite N in Hn.
  destruct (Hf f Hin) as [((x0 & Hx0) & _) Hv]. destruct (same_lookup _ _ _ _ S Hx0) as [c Hc].
  rewrite Hx in Hc. injection Hc as ->. rewrite value_color.
  destruct (decide (f_check f (value x0) = f_code f)) as [|Hne]; [done|]. exfalso. apply (Hn f Hin). split; [done|]. eauto.
Qed.

End proofread.

(** C29: [proofreadFields] reports no error exactly when every visible field is
    accepted by its validator; its errors are, in the order of the fields, one for
    each visible field that is not accepted and none for another ([reports]); it
    does not throw when the fields and labels are there, and changes nothing but
    the colours. *)
Theorem proofread_fields_complete UI d fs :
  Forall (field_ready d) fs →
  ∃ errs d', proofreadFields UI d fs = Ret (errs, d') ∧ same_but_color d d' ∧
    (errs = [] ↔ ∀ f, f ∈ fs → ¬ rejected d f) ∧ (length errs ≤ length fs)%nat ∧
    ∃ per, errs = concat per ∧ Forall2 (reports d) fs per.
Proof. intros Hr. apply (proofread_all UI fs d [] Hr). Qed.

(** ** Drop-down lists *)

(** The selected index is that of an option, or -1 where there is none. *)
Definition select_ok (e : element) : Prop :=
  is_select e = true ∧ -1 <= e_selectedIndex e < zlen (e_options e) ∧ (e_options e ≠ [] → 0 <= e_selectedIndex e).

Section selects.

Lemma find_option_Some p l i j : find_option p l i = Some j →
  ∃ o, i <= j ∧ l !! Z.to_nat (j - i) = Some o ∧ p o = true ∧ ∀ k o', (k < Z.to_nat (j - i))%nat → l !! k = Some o' → p o' = false.
Proof.
  revert i; induction l as [|o l IH]; intros i; simpl; [done|]. destruct (p o) eqn:E.
  - intros [= <-]. exists o. rewrite Z.sub_diag. split_and!; [lia|done|done|]. intros; lia.
  - intros (o' & Hle & Hl & Hp & Hk)%IH. exists o'. split_and!; [lia| |done|].
    + replace (Z.to_nat (j - i)) with (S (Z.to_nat (j - (i + 1)))) by lia. done.
    + intros [|k] o2 Hlt Ho; [by injection Ho as <-|]. apply (Hk k); [lia|done].
Qed.

Lemma find_option_None p l i : find_option p l i = None ↔ Forall (λ o, p o = false) l.
Proof.
  revert i; induction l as [|o l IH]; intros i; simpl; [done|]. rewrite Forall_cons. destruct (p o) eqn:E; [naive_solver|].
  rewrite IH. naive_solver.
Qed.

Lemma remove_all_empty n e : (length (e_options e) ≤ n)%nat → select_ok e →
  e_options (remove_all n e) = [] ∧ select_ok (remove_all n e).
Proof.
  revert e; induction n as [|n IH]; intros e Hn Hok; simpl.
  - destruct (e_options e) eqn:E; [done|simpl in Hn; lia].
  - apply IH.
    + unfold select_remove. destruct (e_options e) as [|o l] eqn:E; simpl; rewrite ?E; simpl in *; lia.
    + destruct Hok as (Hs & Hr & Hne). unfold select_remove. destruct (e_options e) as [|o l] eqn:E; simpl; [by unfold select_ok; rewrite E in *|].
      unfold select_ok. simpl. split; [done|]. unfold fix_selection, zlen in *. simpl in *. specialize (Hne ltac:(done)).
      destruct (e_selectedIndex e) as [|q|q]; [|..|lia].
      * destruct l; simpl; split; intros; try done; lia.
      * change (Z.of_nat 0 <? Z.pos q) with true. cbv iota. rewrite (proj2 (Z.ltb_ge (Z.pos q - 1) 0)) by lia.
        cbv iota beta delta [andb]. lia.
Qed.

Lemma select_add_last e o : select_ok e →
  e_options (select_add e o None) = e_options e ++ [o] ∧ select_ok (select_add e o None).
Proof.
  intros (Hs & Hr & Hne). unfold select_add. rewrite take_ge, drop_ge by lia. split; [done|].
  unfold select_ok. simpl. split; [done|]. unfold fix_selection, zlen in *. rewrite length_app. simpl length.
  destruct (Z.leb_spec (Z.of_nat (length (e_options e))) (e_selectedIndex e)); [lia|].
  rewrite bool_decide_eq_false_2 by (by destruct (e_options e)). simpl. rewrite andb_true_r.
  destruct (Z.ltb_spec (e_selectedIndex e) 0); [lia|]. lia.
Qed.

Lemma select_add_index e o : select_ok e →
  e_selectedIndex (select_add e o None) = if e_selectedIndex e <? 0 then 0 else e_selectedIndex e.
Proof.
  intros (Hs & Hr & Hne). unfold select_add. rewrite take_ge, drop_ge by lia. simpl.
  unfold fix_selection, zlen in *. destruct (Z.leb_spec (Z.of_nat (length (e_options e))) (e_selectedIndex e)); [lia|].
  rewrite bool_decide_eq_false_2 by (by destruct (e_options e)). simpl. by rewrite andb_true_r.
Qed.

Lemma select_first_ok p e : select_ok e → select_ok (select_first p e) ∧ e_options (select_first p e) = e_options e.
Proof.
  intros (Hs & Hr & Hne). unfold select_first. destruct (find_option p (e_options e) 0) as [i|] eqn:E.
  - apply find_option_Some in E as (o & Hi & Hl & _). apply lookup_lt_Some in Hl. split; [|done].
    split; [done|]. unfold zlen. simpl. lia.
  - destruct ((0 <? zlen (e_options e)) && (e_selectedIndex e <? 0)) eqn:Eb; [|done].
    bsimpl. split; [|done]. split; [done|]. simpl. lia.
Qed.

Lemma selected_value e : select_ok e → e_options e ≠ [] → ∃ o, selected_option e = Some o ∧ o ∈ e_options e.
Proof.
  intros (_ & Hr & Hne) Ho. unfold selected_option, zlen in *. specialize (Hne Ho).
  rewrite (proj2 (Z.leb_le 0 _)) by done.
  destruct (lookup_lt_is_Some_2 (e_options e) (Z.to_nat (e_selectedIndex e))) as [o Hl]; [lia|].
  exists o. split; [done|]. by eapply list_elem_of_lookup_2.
Qed.

End selects.

Section allowable.
Variable UI : jstr → jstr.

Lemma getSelectedValue_ok d id e : elements d !! id = Some e → select_ok e →
  getSelectedValue UI d id = Ret (Some (value e), d).
Proof.
  intros He Hok. pose proof Hok as (Hs & Hr & Hne). unfold getSelectedValue, getElementById, value. rewrite He, Hs.
  destruct (decide (e_options e = [])) as [E|E].
  - rewrite E in *. unfold zlen in Hr. simpl in Hr. unfold selected_option. by rewrite (proj2 (Z.leb_gt 0 _)) by lia.
  - destruct (selected_value e) as (o & -> & _); [done..|]. by rewrite (proj2 (Z.leb_le 0 _)) by auto.
Qed.

Lemma add_options d id e names values k :
  elements d !! id = Some e → select_ok e → (k + length values = length names)%nat →
  ∃ d' e', exn_fold (λ d '(i, v), addOptionToSelectElement d id (default (js "undefined") (names !! i)) v None)
      (imap (λ i v, ((k + i)%nat, v)) values) d = Ret d' ∧
    elements d' !! id = Some e' ∧ select_ok e' ∧ e_options e' = e_options e ++ zip_with mkOpt (drop k names) values ∧
    (∀ id', id' ≠ id → elements d' !! id' = elements d !! id') ∧
    (0 <= e_selectedIndex e → e_selectedIndex e' = e_selectedIndex e) ∧
    (values ≠ [] → e_selectedIndex e = -1 → e_selectedIndex e' = 0).
Proof.
  revert k d e. induction values as [|v values IH]; intros k d e He Hok Hlen; simpl.
  - exists d, e. rewrite zip_with_nil_r, app_nil_r. done.
  - unfold addOptionToSelectElement at 1. rewrite (update_put _ _ _ _ He). cbn [exn_bind].
    destruct (lookup_lt_is_Some_2 names (k + 0)%nat) as [n Hn]; [simpl in Hlen; lia|]. rewrite Hn. cbn [default from_option].
    destruct (select_add_last e (mkOpt n v) Hok) as [Eo Hok'].
    destruct (IH (S k) (put d id (select_add e (mkOpt n v) None)) (select_add e (mkOpt n v) None))
      as (d' & e' & E & He' & Hk & Ho & Hf & Hi & _); [apply put_eq|done|simpl in Hlen; lia|].
    pose proof (select_add_index e (mkOpt n v) Hok) as Hidx.
    exists d', e'. split_and!; [|done|done| | | |].
    + rewrite <- E. f_equal. apply imap_ext. intros i x _. simpl. f_equal. lia.
    + rewrite Ho, Eo, <- app_assoc. f_equal. rewrite Nat.add_0_r in Hn. rewrite (drop_S _ _ _ Hn). done.
    + intros id' Hne. rewrite Hf by done. by apply put_ne.
    + intros H0. rewrite Hi; rewrite Hidx; [|rewrite (proj2 (Z.ltb_ge _ _)) by done; done].
      by rewrite (proj2 (Z.ltb_ge _ _)) by done.
    + intros _ H0. rewrite Hi; rewrite Hidx, H0; done.
Qed.

Lemma same_options_zip l values names : length values = length names → same_options l values names = true →
  l = zip_with mkOpt names values.
Proof.
  unfold same_options. intros Hlen H. bsimpl. apply Nat.eqb_eq in H as E. rewrite forallb_Forall in H0.
  apply list_eq. intros i. rewrite lookup_zip_with. rewrite Forall_lookup in H0.
  destruct (l !! i) as [o|] eqn:El.
  - specialize (H0 i (i, o)). rewrite list_lookup_imap, El in H0. specialize (H0 eq_refl). simpl in H0. bsimpl.
    rewrite H0, H1. simpl. by destruct o.
  - apply lookup_ge_None in El. rewrite (lookup_ge_None_2 names i) by lia. done.
Qed.

End allowable.

(** [setAllowableSelections] leaves the list with exactly the allowed
    options, in order; the current selection is kept when it is still allowed,
    otherwise the first option is selected; no other element changes. *)
Theorem allowable_selections UI d id e values names :
  elements d !! id = Some e → select_ok e → length values = length names →
  ∃ d' e', setAllowableSelections UI d id (Some values) (Some names) = Ret d' ∧
    elements d' !! id = Some e' ∧ select_ok e' ∧ e_options e' = zip_with mkOpt names values ∧
    (value e ∈ values → value e' = value e) ∧
    (value e ∉ values → values ≠ [] → e_selectedIndex e' = 0) ∧
    (∀ id', id' ≠ id → elements d' !! id' = elements d !! id').
Proof.
  intros He Hok Hlen. unfold setAllowableSelections, getElementById. rewrite He.
  destruct (same_options (e_options e) values names) eqn:Es.
  - apply same_options_zip in Es; [|done]. exists d, e. split_and!; [done|done|done|done|done| |done].
    intros Hni Hne. exfalso. apply Hni. pose proof Hok as (Hs & _).
    destruct (selected_value e) as (o & Eo & Ho); [done| |].
    { rewrite Es. destruct values, names; done. }
    unfold value. rewrite Hs, Eo. rewrite Es in Ho. apply list_elem_of_lookup in Ho as [i Hi].
    apply lookup_zip_with_Some in Hi as (n & v & -> & _ & Hv). by eapply list_elem_of_lookup_2.
  - rewrite (getSelectedValue_ok UI d id e) by done. cbn [exn_bind fst default from_option].
    destruct (remove_all_empty (length (e_options e)) e) as [Er Hr]; [done|done|].
    destruct (add_options (put d id (removeAllOptionsFromSelectElement e)) id (removeAllOptionsFromSelectElement e) names values 0)
      as (d1 & e1 & E1 & He1 & Hok1 & Ho1 & Hf1 & _ & Hi1); [apply put_eq|done|done|].
    change (λ i v, (i, v)) with (λ (i : nat) (v : jstr), ((0 + i)%nat, v)). rewrite E1. cbn [exn_bind].
    unfold setSelectedValue. rewrite (update_put _ _ _ _ He1).
    set (p := λ o : option_el, o_value o =s value e).
    destruct (select_first_ok p e1 Hok1) as [Hok2 Ho2]. unfold removeAllOptionsFromSelectElement in Ho1. rewrite Er in Ho1. simpl in Ho1. rewrite drop_0 in Ho1.
    exists (put d1 id (select_first p e1)), (select_first p e1).
    split_and!; [done|apply put_eq|done|by rewrite Ho2| | |].
    + intros Hin. unfold value at 1. destruct Hok2 as (-> & _). unfold select_first in *.
      destruct (find_option p (e_options e1) 0) as [i|] eqn:Ef.
      * apply find_option_Some in Ef as (o & Hi & Hl & Hp & _). unfold selected_option. simpl.
        rewrite (proj2 (Z.leb_le 0 i)) by done. rewrite Z.sub_0_r in Hl. rewrite Hl. by apply str_eqb_eq.
      * exfalso. apply find_option_None in Ef. rewrite Ho1 in Ef. apply list_elem_of_lookup in Hin as [i Hi].
        destruct (lookup_lt_is_Some_2 names i) as [n Hn]; [rewrite <- Hlen; by eapply lookup_lt_Some|].
        rewrite Forall_lookup in Ef. specialize (Ef i (mkOpt n (value e))). rewrite lookup_zip_with, Hn in Ef. simpl in Ef.
        rewrite Hi in Ef. specialize (Ef eq_refl). by apply str_eqb_neq in Ef.
    + intros Hni Hne. unfold select_first. destruct (find_option p (e_options e1) 0) as [i|] eqn:Ef.
      * exfalso. apply Hni. apply find_option_Some in Ef as (o & _ & Hl & Hp & _). rewrite Ho1 in Hl.
        apply lookup_zip_with_Some in Hl as (n & v & -> & _ & Hv). apply str_eqb_eq in Hp. simpl in Hp. subst.
        by eapply list_elem_of_lookup_2.
      * specialize (Hi1 Hne). destruct Hr as (_ & Hr & _). unfold removeAllOptionsFromSelectElement in Hi1. rewrite Er in Hr.
        unfold zlen in Hr. simpl in Hr. specialize (Hi1 ltac:(lia)). rewrite Hi1. change (0 <? 0) with false. by rewrite andb_false_r.
    + intros id' Hne. rewrite put_ne by done. rewrite Hf1 by done. by apply put_ne.
Qed.

(** ** A small form for the witnesses *)
Definition text_el (v : jstr) : element := mkEl (js "text") v false false false [] (-1) [] [] [] (Some (js "IP:")).
Definition small_doc : document :=
  mkDoc (<[js "ip" := text_el []]> (<[js "ip_label" := text_el []]>
    {[js "sel" := mkEl (js "select-one") [] false false false [mkOpt (js "A") (js "a"); mkOpt (js "B") (js "b")] 1
       [] [] [] None]})) [].
Definition small_uci : UCIContainer :=
  mkUci [js "network.lan.ipaddr"] {[js "network.lan.ipaddr" := UStr (js "192.168.1.1")]} ∅.
Definition ip_binding : binding := mkBinding (js "ip") (js "network") (js "lan") (js "ipaddr").
Definition ip_field : field := mkField (js "ip") (js "ip_label") Validate.validateIP 0 None.

Lemma form_roundtrip_witness :
  ∃ d' p', loadVariables small_doc small_uci (map load_binding [ip_binding]) = Ret d' ∧
    Forall2 (λ b v, shows d' (b_id b) v) [ip_binding] [js "192.168.1.1"] ∧
    setVariables (mkPage d' small_uci None) (map save_binding [ip_binding]) = Ret p' ∧ p_uci p' = small_uci.
Proof.
  apply (form_roundtrip small_uci small_doc [ip_binding] [js "192.168.1.1"] None).
  - apply NoDup_singleton.
  - constructor; [|constructor]. split_and!; [done|reflexivity|]. apply not_elem_of_empty.
  - constructor; [|constructor]. eexists. split; reflexivity.
Defined.

Lemma proofread_fields_complete_witness :
  ∃ errs d', proofreadFields id small_doc [ip_field] = Ret (errs, d') ∧ errs ≠ [].
Proof.
  destruct (proofread_fields_complete id small_doc [ip_field]) as (errs & d' & E & _ & Hiff & _).
  - constructor; [|constructor]. split_and!; [eexists; reflexivity|eexists _, _; split; reflexivity|exact I].
  - exists errs, d'. split; [exact E|]. intros ->. apply (proj1 Hiff eq_refl ip_field); [by left|].
    split; [reflexivity|]. eexists. split; [reflexivity|]. vm_compute. discriminate.
Defined.

Lemma allowable_selections_witness :
  ∃ d' e', setAllowableSelections id small_doc (js "sel") (Some [js "b"; js "c"]) (Some [js "B"; js "C"]) = Ret d' ∧
    elements d' !! js "sel" = Some e' ∧ value e' = js "b".
Proof.
  destruct (allowable_selections id small_doc (js "sel")
    (mkEl (js "select-one") [] false false false [mkOpt (js "A") (js "a"); mkOpt (js "B") (js "b")] 1 [] [] [] None)
    [js "b"; js "c"] [js "B"; js "C"]) as (d' & e' & E & He & _ & _ & Hv & _).
  - reflexivity.
  - split_and!; [reflexivity|simpl; lia|simpl; unfold zlen; simpl; lia|simpl; lia].
  - reflexivity.
  - exists d', e'. split_and!; [exact E|exact He|]. apply Hv. by left.
Defined.

(** The setter that combines several fields tests the global variable
    [value] instead of the values it has read: it stores the combination or not
    according to the field that was stored before it, and throws on a page where
    no field was. *)
Theorem combined_uses_stale_value :
  (∀ d u, elements d !! js "ip" = Some (text_el (js "10.0.0.1")) →
    setVariableFromCombined (mkPage d u None) [js "ip"] None (js "p") (js "s") (js "o") false (join (js " ")) = Raise ReferenceError) ∧
  (∀ d u, elements d !! js "ip" = Some (text_el (js "10.0.0.1")) →
    setVariableFromCombined (mkPage d u (Some [])) [js "ip"] None (js "p") (js "s") (js "o") false (join (js " ")) =
    Ret (mkPage d u (Some []))).
Proof.
  split; intros d u He; unfold setVariableFromCombined; simpl; unfold el, getElementById; rewrite He; reflexivity.
Qed.

Lemma combined_uses_stale_value_witness :
  setVariableFromCombined (mkPage (mkDoc {[js "ip" := text_el (js "10.0.0.1")]} []) small_uci None) [js "ip"] None
    (js "p") (js "s") (js "o") false (join (js " ")) = Raise ReferenceError.
Proof. apply (proj1 combined_uses_stale_value). reflexivity. Defined.
