(* ===== verification/Modal.v ===== *)
(** * Modal windows and descriptions (common.js)

    [modalPrepare] fills the fields of a window before it opens.  The title, the
    buttons and the window itself are not represented; neither are lists with
    several selected options ([values]) and inner texts, which the modelled
    pages do not pass.  A description is a text that a link shows and hides; the
    request that stores the choice is the command it sends. *)
From S2P Require Import Prelude JsNum JsString JsRegex Uci Dom.
Import Dom.
Open Scope Z_scope.

(** An entry of [modalElements]; [None] is an absent property.  The options are
    the keys and the texts of an object, in the order of its properties. *)
Record modal_element := mkModal {
  me_id : jstr;
  me_options : option (list (jstr * jstr));
  me_value : option jstr;
  me_checked : option bool;
  me_disable : option bool
}.

Module Modal.

Definition opt_apply {A B} (f : A → B → B) (o : option A) (b : B) : B :=
  match o with Some a => f a b | None => b end.

Definition fill_options (l : list (jstr * jstr)) (e : element) : element :=
  fold_left (fun e '(key, text) => select_add e (mkOpt text key) None) l (removeAllOptionsFromSelectElement e).

Definition fill_element (m : modal_element) (e : element) : element :=
  let e := opt_apply fill_options (me_options m) e in
  let e := opt_apply set_value (me_value m) e in
  let e := opt_apply set_checked (me_checked m) e in
  opt_apply set_disabled (me_disable m) e.

(** A field that is not in the document is passed over. *)
Definition modalPrepare (d : document) (modalElements : list modal_element) : document :=
  fold_left (fun d m =>
    match getElementById d (me_id m) with Some e => put d (me_id m) (fill_element m e) | None => d end)
    modalElements d.

(** [{"id" : id, "value" : v}] *)
Definition m_value (id v : jstr) : modal_element := mkModal id None (Some v) None None.

(** The same with a value that may be undefined. *)
Definition m_optional (id : jstr) (v : option jstr) : modal_element := mkModal id None v None None.

(** ** Descriptions *)

(** [firstChild.data = v] *)
Definition set_node_text (v : jstr) (e : element) : exn element :=
  let! _d := exn_of_option TypeError (e_data e) in
  Ret (mkEl (e_type e) (e_text_value e) (e_checked e) (e_disabled e) (e_readOnly e) (e_options e) (e_selectedIndex e)
         (e_color e) (e_display e) (e_class e) (Some v)).

Definition set_link (d : document) (id v : jstr) : exn document :=
  let! e := el d id in let! e := set_node_text v e in Ret (put d id e).

Section description.
Variable UI : jstr → jstr.
(** The optional arguments; [None] is [null]. *)
Variables defaultDisplay displayText hideText : option jstr.

Let display : jstr := default (js "inline") defaultDisplay.
Let more : jstr := default (UI (js "MoreInfo")) displayText.
Let hide : jstr := default (UI (js "Hide")) hideText.

(** The document and the command sent. *)
Definition setDescriptionVisibility (d : document) (descriptionId : jstr) : exn (document * jstr) :=
  let! ref := el d (descriptionId ++ js "_ref") in
  let! data := exn_of_option TypeError (e_data ref) in
  let shown := data =s more in
  let! d := set_link d (descriptionId ++ js "_ref") (if shown then hide else more) in
  let! d := update d (descriptionId ++ js "_txt") (set_display (if shown then display else js "none")) in
  Ret (d, js "uci set gargoyle.help." ++ descriptionId ++ js "=" ++ (if shown then js "1" else js "0") ++ [10; 10] ++ js "uci commit" ++ [10]).

Definition initializeDescriptionVisibility (d : document) (testUci : UCIContainer) (descriptionId : jstr) : exn document :=
  let help := Uci.get testUci (js "gargoyle") (js "help") descriptionId in
  let shown := Uci.uval_str help =s js "1" in
  if bool_decide (help = Uci.UStr []) then Ret d
  else
    let! d := set_link d (descriptionId ++ js "_ref") (if shown then hide else more) in
    update d (descriptionId ++ js "_txt") (set_display (if shown then display else js "none")).
End description.

End Modal.
Import Modal.

Section facts.

Lemma modalPrepare_other d l id : id ∉ map me_id l → elements (modalPrepare d l) !! id = elements d !! id.
Proof.
  unfold modalPrepare. revert d. induction l as [|m l IH]; intros d Hid; simpl; [done|].
  rewrite IH by set_solver. destruct (getElementById d (me_id m)); [|done]. simpl.
  apply lookup_insert_ne. set_solver.
Qed.

Lemma modalPrepare_one d l m e : NoDup (map me_id l) → m ∈ l → elements d !! me_id m = Some e →
  elements (modalPrepare d l) !! me_id m = Some (fill_element m e).
Proof.
  unfold modalPrepare. revert d. induction l as [|m' l IH]; intros d Hnd Hm He; [set_solver|].
  cbn [map] in Hnd. apply NoDup_cons in Hnd as [Hn Hnd]. apply elem_of_cons in Hm as [->|Hm]; cbn [fold_left].
  - unfold getElementById at 2. rewrite He. fold (modalPrepare (put d (me_id m') (fill_element m' e)) l).
    rewrite modalPrepare_other by done. apply lookup_insert_eq.
  - apply IH; [done..|]. destruct (getElementById d (me_id m')); [|done]. simpl.
    rewrite lookup_insert_ne; [done|]. intros E. apply Hn. rewrite E. by apply (list_elem_of_fmap_2' me_id _ m).
Qed.

Lemma value_set_text v e : is_select e = false → value (set_value v e) = v.
Proof. intros H. unfold set_value. rewrite H. unfold value. by replace (is_select (set_text_value v e)) with (is_select e) by done; rewrite H. Qed.

End facts.

(** Elements of small documents: a text field, a label, a list, a check box. *)
Definition input_el (v : jstr) : element := mkEl (js "text") v false false false [] (-1) [] [] [] None.
Definition label_el (s : jstr) : element := mkEl (js "label") [] false false false [] (-1) [] [] [] (Some s).
Definition select_el (l : list jstr) : element :=
  mkEl (js "select-one") [] false false false (map (λ v, mkOpt v v) l) 0 [] [] [] None.
Definition check_el (b : bool) : element := mkEl (js "checkbox") [] b false false [] (-1) [] [] [] None.
