(* ===== verification/PortFacts.v ===== *)
(** * Properties of the port functions *)
From S2P Require Import Prelude JsNum JsString JsRegex Uci Ports Ip4Facts.
Import Ports.
Open Scope Z_scope.

(** A port or a range of ports, and its bounds. *)
Definition port_text (s : jstr) (lo hi : Z) : Prop :=
  (numeral s ∧ lo = dec_val s ∧ hi = dec_val s) ∨
  (∃ a b, s = a ++ 45 :: b ∧ numeral a ∧ numeral b ∧ lo = dec_val a ∧ hi = dec_val b).

Section conflicts.

Lemma split_range a b : numeral a → numeral b → split_re re_dash1 (a ++ 45 :: b) = [a; b].
Proof.
  intros Ha Hb. change re_dash1 with (RSet false [(45, 45)]). rewrite split_re_chr.
  rewrite split_char_app by (by apply numeral_no_dash). by rewrite split_char_none by (by apply numeral_no_dash).
Qed.

Lemma test_range a b : test re_dash1 (a ++ 45 :: b) = true.
Proof. apply test_chr. set_solver. Qed.

Lemma test_one s : numeral s → test re_dash1 s = false.
Proof. intros Hs. apply test_chr_false. by apply numeral_no_dash. Qed.

Lemma parseInt_numeral s : numeral s → parseInt s = Int (dec_val s).
Proof. intros [? ?]. by apply parseInt_digits. Qed.

(** Two ports or ranges meet exactly when their intervals do. *)
Lemma meets_interval s lo hi t lo' hi' : port_text s lo hi → port_text t lo' hi' → lo <= hi → lo' <= hi' →
  meets (parse_port s) t = true ↔ lo <= hi' ∧ lo' <= hi.
Proof.
  intros [(Hs & -> & ->)|(a & b & -> & Ha & Hb & -> & ->)] [(Ht & -> & ->)|(a' & b' & -> & Ha' & Hb' & -> & ->)] H1 H2;
    unfold meets, parse_port; rewrite ?test_range, ?test_one by done;
    unfold meets_range, meets_port; rewrite ?split_range by done; unfold nth_piece; simpl lookup; cbn [default from_option id];
    rewrite ?parseInt_numeral by done; numsimpl; lia.
Qed.

Lemma first_conflict_spec p proto l c :
  first_conflict p proto l c =
  if c =s [] then
    match filter (λ d, (proto =s pd_proto d) && meets p (pd_port d) && negb (pd_name d =s []) = true) l with
    | [] => []
    | d :: _ => pd_name d
    end
  else c.
Proof.
  revert c. induction l as [|d l IH]; intros c; cbn [first_conflict].
  - destruct (c =s []) eqn:E; [by apply str_eqb_eq in E|done].
  - destruct (c =s []) eqn:E; [|done]. apply str_eqb_eq in E as ->. rewrite IH, filter_cons.
    destruct ((proto =s pd_proto d) && meets p (pd_port d)) eqn:Em.
    + destruct (pd_name d =s []) eqn:En; simpl; [done|]. done.
    + done.
Qed.

End conflicts.

(** A use of the protocol that has a port in common with [lo] to [hi]. *)
Definition shares_port (proto : jstr) (lo hi : Z) (d : portDef) : Prop :=
  pd_proto d = proto ∧ ∃ l h, port_text (pd_port d) l h ∧ l <= h ∧ lo <= h ∧ l <= hi.

Lemma filter_first {A} (P : A → Prop) `{∀ x, Decision (P x)} (l : list A) x l' : filter P l = x :: l' →
  ∃ pre post, l = pre ++ x :: post ∧ P x ∧ Forall (λ y, ¬ P y) pre.
Proof.
  induction l as [|y l IH]; [done|]. rewrite filter_cons. destruct (decide (P y)) as [Hy|Hy].
  - intros [= -> _]. by exists [], l.
  - intros (pre & post & -> & Hx & Hp)%IH. exists (y :: pre), post. split_and!; [done..|]. by constructor.
Qed.

(** C33: the test for a port conflict: when the ports in use are ports or ranges
    with non-empty names, the answer is empty exactly when no use of the same
    protocol has a port in common with the port or range, and otherwise it is
    the name of the first use in the list that has one. *)
Theorem port_conflict_iff UI u port proto lo hi defs :
  port_text port lo hi → lo <= hi → getUsedPorts UI u = Ret defs →
  Forall (λ d, pd_name d ≠ [] ∧ ∃ l h, port_text (pd_port d) l h ∧ l <= h) defs →
  ∃ c, checkForPortConflict UI u port proto None = Ret c ∧
    (c = [] ↔ Forall (λ d, ¬ shares_port proto lo hi d) defs) ∧
    (c ≠ [] → ∃ before d after, defs = before ++ d :: after ∧ c = pd_name d ∧
       shares_port proto lo hi d ∧ Forall (λ d', ¬ shares_port proto lo hi d') before).
Proof.
  intros Hp Hle Hu Hd. unfold checkForPortConflict. cbn [exn_bind]. rewrite Hu. cbn [exn_bind]. eexists. split; [done|].
  rewrite first_conflict_spec. change ([] =s []) with true. cbv iota. rewrite Forall_forall in Hd.
  set (P := λ d, (proto =s pd_proto d) && meets (parse_port port) (pd_port d) && negb (pd_name d =s []) = true).
  assert (HP : ∀ d, d ∈ defs → P d ↔ shares_port proto lo hi d).
  { intros d Hin. destruct (Hd d Hin) as (Hn & l & h & Ht & Hlh). unfold P, shares_port.
    rewrite !andb_true_iff, negb_true_iff, str_eqb_eq, str_eqb_neq. split.
    - intros [[<- Hm] _]. split; [done|]. exists l, h. apply (meets_interval port lo hi (pd_port d) l h) in Hm; tauto.
    - intros (<- & l' & h' & Ht' & Hl' & H1 & H2). split_and!; [done| |done]. by apply (meets_interval port lo hi (pd_port d) l' h'). }
  destruct (filter P defs) as [|d l] eqn:E.
  - split; [|done]. split; [|done]. intros _. rewrite Forall_forall. intros d Hin Hs%(HP d Hin).
    assert (d ∈ filter P defs) by (by apply list_elem_of_filter). rewrite E in *. set_solver.
  - apply filter_first in E as (pre & post & -> & HPd & Hpre). assert (Hin : d ∈ pre ++ d :: post) by set_solver.
    destruct (Hd d Hin) as (Hn & _). apply (HP d Hin) in HPd. split.
    + split; [done|]. rewrite Forall_forall. intros H. by destruct (H d Hin).
    + intros _. exists pre, d, post. split_and!; [done..|]. rewrite Forall_forall in Hpre |- *. intros d' Hd' Hs. apply (Hpre d' Hd'), HP; set_solver.
Qed.

(** ** getUsedPorts *)
Section used.
Variable UI : jstr → jstr.
Variable u : UCIContainer.

(** What is marked as found is listed. *)
Definition found_listed (st : used) : Prop :=
  ∀ proto port, (proto, port) ∈ u_found st → ∃ d, d ∈ u_defs st ∧ pd_proto d = proto ∧ pd_port d = port.

(** The state only grows. *)
Definition grows (st st' : used) : Prop := u_defs st ⊆ u_defs st' ∧ u_found st ⊆ u_found st'.

#[local] Instance grows_preorder : PreOrder grows.
Proof. split; [by split|]. intros a b c [? ?] [? ?]. split; set_solver. Qed.

Lemma push_mark st port proto name : found_listed st →
  found_listed (mark (push_def st port proto name) proto port) ∧ grows st (mark (push_def st port proto name) proto port).
Proof.
  intros H. split; [|split; simpl; set_solver]. intros q p. simpl. rewrite elem_of_union, elem_of_singleton.
  intros [[= -> ->]|(d & Hd & ? & ?)%H]; [eexists; split; [apply elem_of_app; right; by left|done]|].
  exists d. split; [apply elem_of_app; by left|done].
Qed.

Lemma push_grows st port proto name : found_listed st →
  found_listed (push_def st port proto name) ∧ grows st (push_def st port proto name).
Proof.
  intros H. split; [|split; simpl; set_solver]. intros q p (d & Hd & ?)%H. exists d. split; [apply elem_of_app; by left|done].
Qed.

Lemma add_redirect_spec remotePort localPort st proto st' : found_listed st →
  add_redirect UI remotePort localPort st proto = Ret st' →
  found_listed st' ∧ grows st st' ∧ (proto, remotePort) ∈ u_found st'.
Proof.
  intros Hf. unfold add_redirect, unseen. destruct ((proto =s js "tcp") || (proto =s js "udp")); [|done]. cbn [exn_bind].
  case_bool_decide as Hin; cbn [negb].
  - intros [= <-]. done.
  - destruct (push_mark st remotePort proto (UI (js "prdr")) Hf) as [H1 G1].
    set (st1 := mark (push_def st remotePort proto (UI (js "prdr"))) proto remotePort) in *.
    assert (Hin1 : (proto, remotePort) ∈ u_found st1) by (simpl; set_solver).
    case_bool_decide as Hl; cbn [negb]; intros [= <-]; [done|].
    destruct (push_mark st1 localPort proto (UI (js "puse")) H1) as [H2 G2]. split_and!; [done|by etrans|].
    destruct G2 as [_ G2]. by apply G2.
Qed.

Lemma add_redirects remotePort localPort l st st' : found_listed st →
  exn_fold (add_redirect UI remotePort localPort) l st = Ret st' →
  found_listed st' ∧ grows st st' ∧ ∀ proto, proto ∈ l → (proto, remotePort) ∈ u_found st'.
Proof.
  revert st. induction l as [|q l IH]; intros st Hf; cbn [exn_fold].
  - intros [= <-]. split_and!; [done|done|set_solver].
  - destruct (add_redirect UI remotePort localPort st q) as [st1|] eqn:E; [|done]. cbn [exn_bind]. intros E'.
    apply add_redirect_spec in E as (H1 & G1 & M1); [|done]. destruct (IH st1 H1 E') as (H2 & G2 & M2).
    split_and!; [done|by etrans|]. intros p [-> | Hp]%elem_of_cons; [by apply G2|by apply M2].
Qed.

Definition listed (st : used) (proto port : jstr) : Prop :=
  ∃ d, d ∈ u_defs st ∧ pd_proto d = proto ∧ pd_port d = port.

Lemma listed_grows st st' proto port : grows st st' → listed st proto port → listed st' proto port.
Proof. intros [G _] (d & Hd & ?). exists d. split; [by apply G|done]. Qed.

Lemma push_ranges range l st : found_listed st →
  let st' := fold_left (λ st q, push_def st range q (UI (js "prdr"))) l st in
  found_listed st' ∧ grows st st' ∧ ∀ q, q ∈ l → listed st' q range.
Proof.
  revert st. induction l as [|q l IH]; intros st Hf; simpl; [split_and!; [done|done|set_solver]|].
  destruct (push_grows st range q (UI (js "prdr")) Hf) as [H1 G1]. destruct (IH _ H1) as (H2 & G2 & L2).
  split_and!; [done|by etrans|]. intros q' [-> | Hq]%elem_of_cons; [|by apply L2].
  eapply listed_grows; [exact G2|]. eexists. split; [apply elem_of_app; right; by left|done].
Qed.

(** The protocols an option [proto] means: both when it is empty or tcpudp. *)
Definition means_proto (q proto : jstr) : Prop :=
  if bool_decide (q = [] ∨ q = js "tcpudp") then proto = js "tcp" ∨ proto = js "udp" else proto = q.

Lemma proto_list_means q proto : means_proto q proto → proto ∈ proto_list q.
Proof.
  unfold means_proto, proto_list. destruct (q =s []) eqn:E1; [apply str_eqb_eq in E1|apply str_eqb_neq in E1];
    (destruct (q =s js "tcpudp") eqn:E2; [apply str_eqb_eq in E2|apply str_eqb_neq in E2]);
    case_bool_decide; cbn [orb]; set_solver.
Qed.

(** The port, or the range of ports, a section opens on the WAN. *)
Definition accepts (section port proto : jstr) : Prop :=
  let opt o := gets u (js "firewall") section (js o) in
  (get_lower u (js "firewall") section (js "zone") = Ret (js "wan") ∨
   get_lower u (js "firewall") section (js "zone") = Ret []) ∧
  (if bool_decide (opt "local_port" = [])
   then opt "start_port" ≠ [] ∧ opt "end_port" ≠ [] ∧ port = opt "start_port" ++ js "-" ++ opt "end_port"
   else port = (if bool_decide (opt "remote_port" = []) then opt "local_port" else opt "remote_port")) ∧
  ∃ q, get_lower u (js "firewall") section (js "proto") = Ret q ∧ means_proto q proto.

Lemma accept_section_spec section st st' : found_listed st → accept_section UI u st section = Ret st' →
  found_listed st' ∧ grows st st' ∧ ∀ port proto, accepts section port proto → listed st' proto port.
Proof.
  intros Hf. unfold accept_section, accepts.
  destruct (get_lower u (js "firewall") section (js "proto")) as [q|] eqn:Eq; [|done]. cbn [exn_bind].
  destruct (get_lower u (js "firewall") section (js "zone")) as [z|] eqn:Ez; [|done]. cbn [exn_bind].
  set (lp := gets u (js "firewall") section (js "local_port")).
  set (rp := gets u (js "firewall") section (js "remote_port")).
  set (sp := gets u (js "firewall") section (js "start_port")).
  set (ep := gets u (js "firewall") section (js "end_port")).
  destruct ((z =s js "wan") || (z =s [])) eqn:Ewan.
  2:{ intros [= <-]. split_and!; [done|done|]. intros port proto (Hz & _). exfalso.
      apply orb_false_iff in Ewan as [?%str_eqb_neq ?%str_eqb_neq]. naive_solver. }
  destruct (lp =s []) eqn:El; cbn [negb andb].
  - apply str_eqb_eq in El. rewrite El, bool_decide_true by done. cbn [exn_bind].
    destruct (negb (sp =s []) && negb (ep =s [])) eqn:Er; intros [= <-].
    + destruct (push_ranges (sp ++ js "-" ++ ep) (proto_list q) st Hf) as (H1 & G1 & L1).
      split_and!; [done|done|]. intros port proto (_ & (_ & _ & ->) & q' & [= <-] & Hp).
      by apply L1, proto_list_means.
    + split_and!; [done|done|]. intros port proto (_ & (Hs%str_eqb_neq & He%str_eqb_neq & _) & _).
      exfalso. revert Er. by rewrite Hs, He.
  - apply str_eqb_neq in El. rewrite bool_decide_false by done.
    destruct (exn_fold _ _ st) as [st1|] eqn:E; [|done]. cbn [exn_bind]. intros [= <-].
    apply add_redirects in E as (H1 & G1 & M1); [|done]. split_and!; [done|done|].
    intros port proto (_ & -> & q' & [= <-] & Hp%proto_list_means).
    apply H1. apply M1 in Hp. revert Hp. destruct (rp =s []) eqn:Er; [apply str_eqb_eq in Er; by rewrite bool_decide_true|]. apply str_eqb_neq in Er. by rewrite bool_decide_false.
Qed.

Lemma accept_sections_spec l st st' : found_listed st → exn_fold (accept_section UI u) l st = Ret st' →
  found_listed st' ∧ grows st st' ∧ ∀ s port proto, s ∈ l → accepts s port proto → listed st' proto port.
Proof.
  revert st. induction l as [|s l IH]; intros st Hf; cbn [exn_fold].
  - intros [= <-]. split_and!; [done|done|set_solver].
  - destruct (accept_section UI u st s) as [st1|] eqn:E; [|done]. cbn [exn_bind]. intros E'.
    apply accept_section_spec in E as (H1 & G1 & M1); [|done]. destruct (IH st1 H1 E') as (H2 & G2 & M2).
    split_and!; [done|by etrans|].
    intros s' port proto [-> | Hs]%elem_of_cons Ha; [eapply listed_grows; eauto|by eapply M2].
Qed.

Lemma redirect_grows (l : list jstr) st st' :
  exn_fold (λ st (_ : jstr), redirect_section UI u st) l st = Ret st' → u_defs st ⊆ u_defs st'.
Proof.
  revert st. induction l as [|x l IH]; intros st; cbn [exn_fold]; [by intros [= <-]|].
  destruct (redirect_section UI u st) as [st1|] eqn:E; [|done]. cbn [exn_bind]. intros E'%IH.
  etrans; [|done]. unfold redirect_section in E. repeat (destruct (get_lower _ _ _ _); [|done]; cbn [exn_bind] in E).
  injection E as <-. simpl. set_solver.
Qed.

End used.

(** C34: the list of ports in use has an entry for the SSH server, for the web
    server's HTTP and HTTPS ports, and for every port or range that a
    remote_accept section opens on the WAN, in each of its protocols. *)
Theorem used_ports_complete UI u defs :
  getUsedPorts UI u = Ret defs →
  (∃ ss, Uci.getAllSections u (js "dropbear") = Ret ss ∧
     ∃ d, d ∈ defs ∧ pd_proto d = js "tcp" ∧
       pd_port d = gets u (js "dropbear") (default (js "undefined") (head ss)) (js "Port")) ∧
  (∀ port, port = getHttpPort u ∨ port = getHttpsPort u → port ≠ [] →
     ∃ d, d ∈ defs ∧ pd_proto d = js "tcp" ∧ pd_port d = port) ∧
  (∃ ss, Uci.getAllSectionsOfType u (js "firewall") (js "remote_accept") = Ret ss ∧
     ∀ s port proto, s ∈ ss → accepts u s port proto → ∃ d, d ∈ defs ∧ pd_proto d = proto ∧ pd_port d = port).
Proof.
  unfold getUsedPorts. destruct (Uci.getAllSections u (js "dropbear")) as [ds|]; [|done]. cbn [exn_bind].
  set (ssh := gets u _ _ _). set (tcp := js "tcp").
  assert (H0 : found_listed (mkUsed [] ∅)) by (intros ? ?; simpl; set_solver).
  destruct (push_mark UI (mkUsed [] ∅) ssh tcp (UI (js "sprt")) H0) as [H1 _].
  set (st1 := mark (push_def (mkUsed [] ∅) ssh tcp (UI (js "sprt"))) tcp ssh) in *.
  assert (M1 : (tcp, ssh) ∈ u_found st1) by (simpl; set_solver). clearbody st1.
  set (st2 := if negb (getHttpPort u =s []) then _ else _).
  assert (H2 : found_listed st2 ∧ grows st1 st2 ∧ (getHttpPort u ≠ [] → (tcp, getHttpPort u) ∈ u_found st2)).
  { unfold st2. destruct (getHttpPort u =s []) eqn:E; cbn [negb].
    - apply str_eqb_eq in E. by rewrite E.
    - destruct (push_mark UI st1 (getHttpPort u) tcp (UI (js "wsprt")) H1). split_and!; [done|done|]. intros _. simpl. set_solver. }
  clearbody st2. destruct H2 as (H2 & G2 & M2).
  set (st3 := if negb (getHttpsPort u =s []) then _ else _).
  assert (H3 : found_listed st3 ∧ grows st2 st3 ∧ (getHttpsPort u ≠ [] → (tcp, getHttpsPort u) ∈ u_found st3)).
  { unfold st3. destruct (getHttpsPort u =s []) eqn:E; cbn [negb].
    - apply str_eqb_eq in E. by rewrite E.
    - destruct (push_mark UI st2 (getHttpsPort u) tcp (UI (js "wsprt")) H2). split_and!; [done|done|]. intros _. simpl. set_solver. }
  clearbody st3. destruct H3 as (H3 & G3 & M3).
  destruct (Uci.getAllSectionsOfType u (js "firewall") (js "remote_accept")) as [rs|]; [|done]. cbn [exn_bind].
  destruct (exn_fold (accept_section UI u) rs st3) as [st4|] eqn:E4; [|done]. cbn [exn_bind].
  destruct (accept_sections_spec UI u rs st3 st4 H3 E4) as (H4 & G4 & M4).
  destruct (Uci.getAllSectionsOfType u (js "firewall") (js "redirect")) as [rd|]; [|done]. cbn [exn_bind].
  destruct (exn_fold _ rd st4) as [st5|] eqn:E5; [|done]. cbn [exn_bind]. intros [= <-].
  apply redirect_grows in E5.
  assert (Hin : ∀ proto port, (proto, port) ∈ u_found st4 → ∃ d, d ∈ u_defs st5 ∧ pd_proto d = proto ∧ pd_port d = port).
  { intros proto port (d & Hd & ?)%H4. exists d. split; [by apply E5|done]. }
  destruct G2 as [_ G2], G3 as [_ G3], G4 as [_ G4]. split_and!.
  - exists ds. split; [done|]. apply Hin. by apply G4, G3, G2.
  - intros port [-> | ->] Hne; apply Hin; [by apply G4, G3, M2|by apply G4, M3].
  - exists rs. split; [done|]. intros s port proto Hs Ha. destruct (M4 s port proto Hs Ha) as (d & Hd & ?).
    exists d. split; [by apply E5|done].
Qed.

(** A router with a port forwarded from the WAN. *)
Definition forwarding : UCIContainer :=
  fold_left (fun u '(s, o, v) => Uci.set u (js "firewall") (js s) (js o) (UStr (js v)) false)
    [("r1", "", "redirect"); ("r1", "src", "wan"); ("r1", "dest", "lan"); ("r1", "proto", "tcp");
     ("r1", "src_dport", "8080"); ("r1", "dest_ip", "192.168.1.5"); ("r1", "remote_port", "8080");
     ("a1", "", "remote_accept"); ("a1", "local_port", "2222"); ("a1", "zone", "wan"); ("a1", "proto", "tcp")]%string
    (Uci.set (Uci.set Uci.new (js "dropbear") (js "d1") [] (UStr (js "dropbear")) false)
       (js "dropbear") (js "d1") (js "Port") (UStr (js "22")) false).

(** The loop over the redirect sections reads the sections of the loop
    before, past their end: a port that is forwarded from the WAN is not found
    in use, and an entry without port and protocol is listed in its place. *)
Theorem forwarded_port_not_used :
  ∃ defs, getUsedPorts id forwarding = Ret defs ∧
    map pd_port defs = [js "22"; js "2222"; []] ∧
    checkForPortConflict id forwarding (js "8080") (js "tcp") None = Ret [].
Proof. eexists. split; [vm_compute; reflexivity|]. split; vm_compute; reflexivity. Qed.

Lemma used_ports_complete_witness :
  ∃ defs d, getUsedPorts id forwarding = Ret defs ∧ d ∈ defs ∧ pd_proto d = js "tcp" ∧ pd_port d = js "22".
Proof.
  eexists. destruct (used_ports_complete id forwarding _ ltac:(vm_compute; reflexivity)) as [(ss & Ess & d & Hd & Hp & Hpt) _].
  exists d. split; [vm_compute; reflexivity|]. split; [exact Hd|]. split; [exact Hp|].
  rewrite Hpt. revert Ess. vm_compute. intros [= <-]. reflexivity.
Defined.

(** A router that accepts one port and one range of ports. *)
Definition accepting : UCIContainer :=
  fold_left (fun u '(s, o, v) => Uci.set u (js "firewall") (js s) (js o) (UStr (js v)) false)
    [("a1", "", "remote_accept"); ("a1", "local_port", "2222"); ("a1", "zone", "wan"); ("a1", "proto", "tcp");
     ("a2", "", "remote_accept"); ("a2", "start_port", "6000"); ("a2", "end_port", "6010"); ("a2", "zone", "wan");
     ("a2", "proto", "tcp")]%string
    (Uci.set (Uci.set Uci.new (js "dropbear") (js "d1") [] (UStr (js "dropbear")) false)
       (js "dropbear") (js "d1") (js "Port") (UStr (js "22")) false).

Lemma port_conflict_iff_witness :
  ∃ c, checkForPortConflict id accepting (js "5990-6000") (js "tcp") None = Ret c ∧ c = js "prdr".
Proof.
  assert (Hn : ∀ s, forallb is_digit s && negb (bool_decide (s = [])) && (dec_val s <=? 9999) = true → numeral s).
  { intros s H. bsimpl. split; [done|]. by apply forallb_Forall. }
  destruct (port_conflict_iff id accepting (js "5990-6000") (js "tcp") 5990 6000
    [mkPortDef (js "22") (js "tcp") (js "sprt"); mkPortDef (js "2222") (js "tcp") (js "prdr");
     mkPortDef (js "6000-6010") (js "tcp") (js "prdr")]) as (c & Hc & _).
  - right. exists (js "5990"), (js "6000"). split_and!; [reflexivity|by apply Hn|by apply Hn|reflexivity|reflexivity].
  - lia.
  - vm_compute. reflexivity.
  - constructor; [|constructor; [|constructor; [|constructor]]].
    + split; [done|]. exists 22, 22. split; [left|lia]. split_and!; [by apply Hn|reflexivity|reflexivity].
    + split; [done|]. exists 2222, 2222. split; [left|lia]. split_and!; [by apply Hn|reflexivity|reflexivity].
    + split; [done|]. exists 6000, 6010. split; [right|lia]. exists (js "6000"), (js "6010").
      split_and!; [reflexivity|by apply Hn|by apply Hn|reflexivity|reflexivity].
  - exists c. split; [exact Hc|]. revert Hc. vm_compute. intros [= <-]. reflexivity.
Defined.
