(* ===== verification/TextFacts.v ===== *)
(** * Properties of the formatting functions *)
From S2P Require Import Prelude JsNum JsString JsRegex Uci Text.
Import Text.
Open Scope Z_scope.

(** ** Bytes *)

(** The number [q / 10^d] shown for [bytes / unit] is the nearest one. *)
Definition nearest (q d bytes unit : Z) : Prop := 2 * Z.abs (q * unit - bytes * 10 ^ d) <= unit.

Section bytes.

Lemma toFixed_pow2 bytes k d : 0 <= bytes → 0 <= k → 0 < d →
  ∃ q, toFixed (div_pow2 (Int bytes) k) d = fixed_digits q d ∧ nearest q d bytes (2 ^ k).
Proof.
  intros Hb Hk Hd. unfold toFixed, div_pow2.
  assert (H5 : 0 < 5 ^ k) by (apply Z.pow_pos_nonneg; lia).
  rewrite (proj2 (Z.ltb_ge (bytes * 5 ^ k) 0)) by nia. eexists. split; [reflexivity|].
  rewrite Z.max_l, Z.min_r, Z.abs_eq by nia. rewrite Z.add_0_l. replace (- (0 - k)) with k by lia.
  assert (H10 : 10 ^ k = 2 ^ k * 5 ^ k) by (rewrite <- Z.pow_mul_l; done).
  assert (H2 : 0 < 2 ^ k) by (apply Z.pow_pos_nonneg; lia).
  assert (Hd0 : 0 < 10 ^ d) by (apply Z.pow_pos_nonneg; lia).
  unfold nearest. rewrite H10. set (P := 2 ^ k) in *. set (F := 5 ^ k) in *. set (T := 10 ^ d) in *.
  set (N := 2 * (bytes * F) * T + P * F). set (D := 2 * (P * F)).
  assert (HD : 0 < D) by (unfold D; nia).
  pose proof (Z.div_mod N D ltac:(lia)) as E. pose proof (Z.mod_pos_bound N D HD) as B.
  set (q := N / D) in *. set (x := 2 * bytes * T + P - 2 * P * q).
  assert (Hx : N mod D = F * x) by (unfold N, D, x in *; lia).
  assert (0 <= x < 2 * P) as Hx2; [rewrite Hx in B; unfold D in B; split; nia|]. clear -Hx2 H2. subst x. clearbody q P T. lia.
Qed.

End bytes.

(** [parseBytes] without a fixed unit shows a count of bytes in the largest
    unit it exceeds (KB up to 1024 KB, then MB, GB, TB), with three digits: the
    number shown is the nearest one of that precision, and at most 1024 below
    2^50 bytes. *)
Theorem parseBytes_nearest UI bytes : (∀ k, UI k ≠ js "mixed") → 0 <= bytes →
  ∃ q name k, parseBytes UI (Int bytes) None true 0 = fixed_digits q 3 ++ UI name ∧
    nearest q 3 bytes (2 ^ k) ∧
    (k, name) = (if 2 ^ 40 <? bytes then (40, js "TB") else if 2 ^ 30 <? bytes then (30, js "GB")
                 else if 2 ^ 20 <? bytes then (20, js "MB") else (10, js "KB")) ∧
    (bytes <= 2 ^ 50 → q <= 1024 * 10 ^ 3).
Proof.
  intros HUI Hb. unfold parseBytes. change (js "mixed" =s js "mixed") with true.
  change (js "mixed" =s js "TBytes") with false. change (js "mixed" =s js "GBytes") with false.
  change (js "mixed" =s js "MBytes") with false.
  assert (HU : ∀ k, (js "mixed" =s UI k) = false) by (intros k; apply str_eqb_neq; specialize (HUI k); congruence).
  rewrite !HU, !orb_false_r. cbn [andb]. change (0 =? 0) with true. cbv iota. rewrite !gtb_int.
  change (1024 ^ 4) with (2 ^ 40). change (1024 ^ 3) with (2 ^ 30). change (1024 ^ 2) with (2 ^ 20).
  assert (Hq : ∀ q k, 0 <= k → nearest q 3 bytes (2 ^ k) → bytes <= 1024 * 2 ^ k → q <= 1024 * 10 ^ 3).
  { unfold nearest. intros q k Hk Hn Hle. assert (0 < 2 ^ k) by (apply Z.pow_pos_nonneg; lia).
    change (10 ^ 3) with 1000 in *. nia. }
  destruct (Z.ltb_spec (2 ^ 40) bytes); [|destruct (Z.ltb_spec (2 ^ 30) bytes); [|destruct (Z.ltb_spec (2 ^ 20) bytes)]].
  - destruct (toFixed_pow2 bytes 40 3) as (q & -> & Hn); [lia..|]. exists q, (js "TB"), 40.
    split_and!; [done|done|done|]. intros. apply (Hq q 40); [lia|done|]. change (2 ^ 50) with (1024 * 2 ^ 40) in *. lia.
  - destruct (toFixed_pow2 bytes 30 3) as (q & -> & Hn); [lia..|]. exists q, (js "GB"), 30.
    split_and!; [done|done|done|]. intros. apply (Hq q 30); [lia|done|]. change (1024 * 2 ^ 30) with (2 ^ 40). lia.
  - destruct (toFixed_pow2 bytes 20 3) as (q & -> & Hn); [lia..|]. exists q, (js "MB"), 20.
    split_and!; [done|done|done|]. intros. apply (Hq q 20); [lia|done|]. change (1024 * 2 ^ 20) with (2 ^ 30). lia.
  - destruct (toFixed_pow2 bytes 10 3) as (q & -> & Hn); [lia..|]. exists q, (js "KB"), 10.
    split_and!; [done|done|done|]. intros. apply (Hq q 10); [lia|done|]. change (1024 * 2 ^ 10) with (2 ^ 20). lia.
Qed.

Lemma parseBytes_nearest_witness :
  ∃ q name k, parseBytes (λ k, 32 :: k) (Int 1500000) None true 0 = fixed_digits q 3 ++ 32 :: name ∧
    nearest q 3 1500000 (2 ^ k) ∧ (k, name) = (20, js "MB") ∧ (1500000 <= 2 ^ 50 → q <= 1024 * 10 ^ 3).
Proof. apply (parseBytes_nearest (λ k, 32 :: k) 1500000); [done|lia]. Defined.

(** ** Request parameters *)

(** The decoding of a percent-encoded text, for the characters below 128. *)
Definition from_hex (c : Z) : Z := if is_digit c then c - 48 else c - 55.
Fixpoint decode (s : jstr) : jstr :=
  match s with
  | 37 :: a :: b :: s' => (from_hex a * 16 + from_hex b) :: decode s'
  | c :: s' => c :: decode s'
  | [] => []
  end.

Definition ascii (c : Z) : Prop := 0 <= c < 128.

Section encoding.

Lemma unreserved_not_special c : unreserved c = true → c ≠ 37 ∧ c ≠ 38 ∧ c ≠ 61.
Proof.
  intros H. split_and!; intros ->; vm_compute in H; done.
Qed.

Lemma hex_upper_range d : 0 <= d < 16 → unreserved (hex_upper d) = true ∧ from_hex (hex_upper d) = d.
Proof.
  intros Hd. assert (H : forallb (λ d, unreserved (hex_upper d) && (from_hex (hex_upper d) =? d)) (seqZ 0 16) = true) by reflexivity.
  rewrite forallb_Forall, Forall_forall in H. specialize (H d). bsimpl.
  assert (Hin : d ∈ seqZ 0 16) by (apply elem_of_seqZ; lia). specialize (H Hin). bsimpl. split; [done|lia].
Qed.

(** The bytes of the UTF-8 form. *)
Lemma utf8_bytes c : 0 <= c < 1114112 → Forall (λ b, 0 <= b < 256) (utf8 c).
Proof.
  intros Hc. unfold utf8. repeat case_match; repeat constructor; bsimpl; divlia.
Qed.

Lemma percent_safe l : Forall (λ b, 0 <= b < 256) l →
  Forall (λ c, c ≠ 38 ∧ c ≠ 61) (concat (map percent l)).
Proof.
  induction 1 as [|b l Hb _ IH]; simpl; [constructor|].
  destruct (hex_upper_range (b / 16)) as [H1 _]; [divlia|]. destruct (hex_upper_range (b mod 16)) as [H2 _]; [divlia|].
  apply unreserved_not_special in H1, H2. repeat constructor; try tauto; lia.
Qed.

Lemma encode_safe s t : Forall (λ c, 0 <= c < 65536) s → encodeURIComponent s = Ret t →
  Forall (λ c, c ≠ 38 ∧ c ≠ 61) t.
Proof.
  remember (length s) as n eqn:En. revert s t En. induction n as [n IH] using lt_wf_ind. intros s t -> Hs.
  destruct s as [|c s]; cbn [encodeURIComponent]; [intros [= <-]; constructor|].
  inversion Hs as [|? ? Hc Hs']; subst.
  assert (Htail : ∀ l s' r, Forall (λ c, c ≠ 38 ∧ c ≠ 61) l → Forall (λ c, 0 <= c < 65536) s' → (length s' < S (length s))%nat →
    (let! r := encodeURIComponent s' in Ret (l ++ r)) = Ret r → Forall (λ c, c ≠ 38 ∧ c ≠ 61) r).
  { intros l s' r Hl Hs1 Hlen. destruct (encodeURIComponent s') as [r'|] eqn:E; [|done]. cbn [exn_bind].
    intros [= <-]. apply Forall_app. split; [done|]. by eapply IH; [|reflexivity|..]. }
  destruct (unreserved c) eqn:Eu.
  { apply (Htail [c] s t); [|done|lia]. apply unreserved_not_special in Eu. constructor; [tauto|done]. }
  destruct ((55296 <=? c) && (c <? 56320)) eqn:Ehi.
  - destruct s as [|c2 s]; [done|]. inversion Hs' as [|? ? Hc2 Hs2]; subst.
    destruct ((56320 <=? c2) && (c2 <? 57344)) eqn:Elo; [|done].
    apply Htail; [|done|simpl; lia]. apply percent_safe, utf8_bytes. bsimpl. lia.
  - destruct ((56320 <=? c) && (c <? 57344)); [done|].
    apply Htail; [|done|lia]. apply percent_safe, utf8_bytes. lia.
Qed.

Lemma encode_ascii s : Forall ascii s → ∃ t, encodeURIComponent s = Ret t ∧ decode t = s.
Proof.
  induction 1 as [|c s Hc _ (t & Et & Ed)]; cbn [encodeURIComponent]; [by exists []|].
  rewrite Et. unfold ascii in Hc. destruct (unreserved c) eqn:Eu; cbn [exn_bind].
  - exists (c :: t). split; [done|]. apply unreserved_not_special in Eu as (Hn & _).
    assert (decode (c :: t) = c :: decode t) as ->; [|by rewrite Ed].
    cbn [decode]. destruct c as [|q|]; [done| |done].
    do 6 (destruct q as [q|q|]; try done).
  - rewrite (proj2 (Z.leb_gt 55296 c)), (proj2 (Z.leb_gt 56320 c)) by lia. cbn [andb].
    unfold utf8. rewrite (proj2 (Z.ltb_lt c 128)) by lia. cbn [map concat app]. eexists. split; [done|].
    unfold percent. cbn [app decode].
    destruct (hex_upper_range (c / 16)) as [_ ->]; [divlia|]. destruct (hex_upper_range (c mod 16)) as [_ ->]; [divlia|].
    rewrite Ed. f_equal. divlia.
Qed.

End encoding.

(** A request parameter is written so that it cannot be confused: neither
    side of the = contains an = or an &, whatever the texts, and for texts of
    ASCII characters nothing is thrown and decoding each side gives it back. *)
Theorem parameter_encoding p d :
  Forall (λ c, 0 <= c < 65536) p → Forall (λ c, 0 <= c < 65536) d →
  (∀ r, getParameterDefinition p d = Ret r →
    ∃ p' d', r = p' ++ 61 :: d' ∧ Forall (λ c, c ≠ 38 ∧ c ≠ 61) p' ∧ Forall (λ c, c ≠ 38 ∧ c ≠ 61) d') ∧
  (Forall ascii p → Forall ascii d →
    ∃ p' d', getParameterDefinition p d = Ret (p' ++ 61 :: d') ∧ decode p' = p ∧ decode d' = d).
Proof.
  intros Hp Hd. unfold getParameterDefinition. split.
  - intros r. destruct (encodeURIComponent p) as [p'|] eqn:Ep; [|done]. cbn [exn_bind].
    destruct (encodeURIComponent d) as [d'|] eqn:Ed; [|done]. cbn [exn_bind]. intros [= <-].
    exists p', d'. split_and!; [done|by apply (encode_safe p)|by apply (encode_safe d)].
  - intros (p' & -> & Ep)%encode_ascii (d' & -> & Ed)%encode_ascii. by exists p', d'.
Qed.

Lemma parameter_encoding_witness :
  ∃ p' d', getParameterDefinition (js "commands") (js "uci set a.b=1 && reboot") = Ret (p' ++ 61 :: d') ∧
    decode p' = js "commands" ∧ decode d' = js "uci set a.b=1 && reboot".
Proof.
  apply (parameter_encoding (js "commands") (js "uci set a.b=1 && reboot"));
    apply Forall_forall; intros c Hc; vm_compute in Hc; unfold ascii; set_solver by lia.
Defined.
