(* ===== verification/AddrTable.v ===== *)
(** * Tables of addresses (common.js)

    [addAddressStringToTable] checks a list of addresses against the rows of a
    table and adds a row for each. *)
From S2P Require Import Prelude JsNum JsString JsRegex Ip4 Validate Ip6 Overlap Table.
Import Validate Ip6 Overlap Table.
Open Scope Z_scope.

Module AddrTable.

(** [ipValidFunction]; the function named for type 5 is not defined, and the
    name is read as soon as the type is chosen. *)
Definition ipValidFunction (ipValidType : Z) : exn (jstr → Z) :=
  if ipValidType =? 0 then Ret (fun _ => 1)
  else if ipValidType =? 1 then Ret validateIP
  else if ipValidType =? 2 then Ret validateIpRange
  else if ipValidType =? 3 then Ret validateMultipleIps
  else if ipValidType =? 4 then Ret validateIP6
  else if ipValidType =? 5 then Raise ReferenceError
  else Ret validateMultipleIp6s.

(** The first column of the table, split into MAC addresses and the rest; a cell
    that holds an element has no string methods. *)
Definition current_addrs (data : list (list datum)) : exn (list jstr * list jstr) :=
  exn_fold (fun '(macs, ips) r =>
    match head r with
    | Some (DStr addr) => Ret (if validateMac addr =? 0 then (macs ++ [addr], ips) else (macs, ips ++ [addr]))
    | _ => Raise TypeError
    end) data ([], []).

(** One address: (valid, current MACs, current IPs). *)
Definition check_addr (check : jstr → Z) (macsValid : bool) (ipValidType : Z)
    (st : Z * list jstr * list jstr) (addr : jstr) : exn (Z * list jstr * list jstr) :=
  let '(valid, macs, ips) := st in
  if negb (valid =? 0) then Ret st
  else
    let macValid := macsValid && (validateMac addr =? 0) in
    let ipValid := check addr =? 0 in
    if macValid || ipValid then
      let currAddrs := if macValid then macs else ips in
      let treatipv6 := negb (macValid || (ipValidType <=? 3)) in
      let! overlap := (if (length currAddrs =? 0)%nat then Ret false
                       else testAddrOverlap addr (join (js ",") currAddrs) treatipv6) in
      Ret (if overlap then (1, macs, ips)
           else if macValid then (0, macs ++ [addr], ips) else (0, macs, ips ++ [addr]))
    else Ret (1, macs, ips).

(** The text a new row shows. *)
Definition shown_addr (tmpaddr : jstr) : jstr :=
  if contains tmpaddr (js "-") then
    let tmpaddrs := split_char 45 tmpaddr in
    if isIPv6 (Ip4.nth_str tmpaddrs 0)
    then join (js "-") (match tmpaddrs with
                        | a :: b :: rest => ip6_canonical a :: ip6_canonical b :: rest
                        | l => l
                        end)
    else tmpaddr
  else if isIPv6 tmpaddr then ip6_canonical tmpaddr else tmpaddr.

Definition re_lead_blanks0 : re := Eval vm_compute in rx "^[\t ]*".
Definition re_trail_blanks0 : re := Eval vm_compute in rx "[\t ]*$".

Section ui.
Variable remove_label : jstr.

(** [container] is the table in the container, if any.  The result is whether
    the addresses are valid, and the container's table. *)
Definition addAddressStringToTable (newAddrs : jstr) (container : option table) (tableId : jstr)
    (macsValid : bool) (ipValidType : Z) : exn (bool * option table) :=
  let! check := ipValidFunction ipValidType in
  let! current := match container with
                  | Some t => let! data := getTableDataArray t true false in current_addrs data
                  | None => Ret ([], [])
                  end in
  let splitAddrs := split_re re_comma_split newAddrs in
  let! r := exn_fold (check_addr check macsValid ipValidType) splitAddrs
              (if (0 <? length splitAddrs)%nat then 0 else 1, fst current, snd current) in
  let '(valid, _, _) := r in
  if valid =? 0 then
    let t := match container with
             | Some t => t
             | None => createTable remove_label [DStr []] [] tableId true false
             end in
    let newAddrs := replace re_trail_blanks0 [] (replace re_lead_blanks0 [] newAddrs) in
    let addrs := split_re re_comma_split newAddrs in
    Ret (true, Some (fold_left (fun t a => addTableRow remove_label t [DStr (shown_addr a)] true false) addrs t))
  else Ret (false, container).

(** [addAddressesToTable]: the text field is emptied when the addresses were
    added. *)
Definition addAddressesToTable (text : jstr) (container : option table) (tableId : jstr)
    (macsValid : bool) (ipValidType : Z) : exn (bool * jstr * option table) :=
  let! r := addAddressStringToTable text container tableId macsValid ipValidType in
  Ret (fst r, if fst r then [] else text, snd r).

End ui.

End AddrTable.
