(* ===== verification/AddrFacts.v ===== *)
(** * Tables of addresses stay disjoint

    [addAddressStringToTable] accepts new addresses exactly when the table's and
    the new ones are pairwise disjoint, and then adds a row for each. *)
From Stdlib Require Import List.
From S2P Require Import Prelude JsNum JsString JsRegex Ip4 Validate Ip6 Overlap Ip4Facts ValidateFacts OverlapFacts.
From S2P Require Import Table TableFacts AddrTable.
Import Validate Ip6 Overlap Table AddrTable.
Open Scope Z_scope.

(** Two sets of addresses have none in common. *)
Definition apart (P Q : Z → Prop) : Prop := ¬ ∃ y, 0 <= y < 2 ^ 32 ∧ P y ∧ Q y.

(** A list of sets is pairwise disjoint. *)
Definition disjoint_sets (Ps : list (Z → Prop)) : Prop := ForallOrdPairs apart Ps.

(** The rows of a table of addresses. *)
Definition addr_rows (l : list jstr) : list (list datum) := map (λ a, [DStr a]) l.

(** A container that is empty or holds a table with the given rows. *)
Definition holds (container : option table) (l : list jstr) : Prop :=
  match container with
  | Some t => table_wf t ∧ getTableDataArray t true false = Ret (addr_rows l)
  | None => l = []
  end.

Section disjointness.

Lemma disjoint_snoc Ps Q : disjoint_sets (Ps ++ [Q]) ↔ disjoint_sets Ps ∧ Forall (λ P, apart P Q) Ps.
Proof.
  unfold disjoint_sets. induction Ps as [|P Ps IH]; simpl.
  - split; [|repeat constructor]. by split; constructor.
  - split.
    + inversion 1 as [|? ? Hf Ho]; subst. apply IH in Ho as [Ho Hq]. apply Forall_app in Hf as [Hf HQ].
      inversion HQ; subst. split; by constructor.
    + intros [Ho Hq]. inversion Ho; inversion Hq; subst. constructor; [|by apply IH].
      apply Forall_app. by rewrite Forall_singleton.
Qed.

Lemma disjoint_prefix Ps Qs : disjoint_sets (Ps ++ Qs) → disjoint_sets Ps.
Proof.
  revert Ps. induction Qs as [|Q Qs IH]; intros Ps; [by rewrite app_nil_r|].
  rewrite cons_middle, app_assoc. intros H%IH. by apply disjoint_snoc in H as [H _].
Qed.

End disjointness.

Section items.

(** An IPv4 item is not taken for a MAC or an IPv6 address. *)
Lemma item_not_mac s : Forall (λ c, item_char c = true) s → validateMac s = 2.
Proof.
  intros Hs. unfold validateMac. change re_colon with (RSet false [(58, 58)]). rewrite split_re_chr, split_char_none; [done|].
  intros Hin. rewrite Forall_forall in Hs. by specialize (Hs _ Hin).
Qed.

Lemma valid4_not_v6 s : validateIpRange s = 0 → isIPv6 s = false.
Proof. intros H. unfold isIPv6, getIPFamily. by rewrite H. Qed.

Lemma host_valid4 s n : host_text s n → validateIpRange s = 0.
Proof.
  intros Hs. unfold validateIpRange, indexOf. change (js "/") with [47].
  rewrite indexOf_from_none by (apply quad_no; [by eapply host_chars|auto]). apply Hs.
Qed.

Lemma denotes_shown s P : denotes s P → shown_addr s = s.
Proof.
  intros Hd. pose proof (denotes_valid s P Hd) as Hv.
  rewrite item_validateMultipleIps in Hv by (by eapply denotes_chars || by eapply denotes_nonempty).
  unfold shown_addr, contains, indexOf. change (js "-") with [45].
  destruct Hd as [s n Hs|s n m p Hs Hm|s n s' n' Hs Hs' _ _].
  - rewrite indexOf_from_none by (apply quad_no; [by eapply host_chars|auto]). simpl.
    by rewrite valid4_not_v6 by (by eapply host_valid4).
  - assert (Hno : 45 ∉ s ++ 47 :: m).
    { rewrite elem_of_app, elem_of_cons. intros [H|[H|H]]; [|done|]; revert H; (apply quad_no; [|auto]);
        [by eapply host_chars|eapply mask_text_chars, Hm]. }
    rewrite indexOf_from_none by done. simpl. rewrite valid4_not_v6; [done|].
    unfold validateMultipleIps_one in Hv. by rewrite (proj2 (test_chr_false 45 _)) in Hv.
  - rewrite indexOf_from_app by (apply quad_no; [by eapply host_chars|auto]).
    rewrite split_char_app by (apply quad_no; [by eapply host_chars|auto]).
    change (Ip4.nth_str (s :: split_char 45 s') 0) with s. rewrite valid4_not_v6 by (by eapply host_valid4).
    by rewrite (proj2 (Z.leb_le _ _)) by (unfold zlen; lia).
Qed.

(** The blanks removed around the list are none. *)
Lemma replace_empty_match r s : (∀ m, exec r s = Some m → m_str m = []) → replace r [] s = s.
Proof.
  intros H. unfold replace, replace_with. destruct (exec r s) as [m|] eqn:E; [|done].
  specialize (H m eq_refl). apply search_Some in E as (gap & -> & Hp & _). rewrite H, app_nil_r in *.
  by rewrite Hp, rev_involutive.
Qed.

Lemma blanks_empty (gap w suf : jstr) :
  Forall (λ c, is_blank c = false) (gap ++ w ++ suf) → Forall (λ c, in_set false [(9, 9); (32, 32)] c = true) w → w = [].
Proof.
  intros Hs Hw. destruct w as [|x w]; [done|]. apply Forall_app in Hs as [_ Hs]. inversion Hs as [|? ? Hx _]; subst.
  inversion Hw; subst. unfold is_blank in Hx. congruence.
Qed.

Lemma strip_blanks0 s : Forall (λ c, is_blank c = false) s →
  replace re_trail_blanks0 [] (replace re_lead_blanks0 [] s) = s.
Proof.
  intros Hs. rewrite (replace_empty_match re_lead_blanks0).
  - apply replace_empty_match. intros m E. apply search_Some in E as (gap & -> & _ & Hm).
    apply mt_seq_iff in Hm as (w1 & w2 & c' & Hw & Hm & Hm2). apply mt_eol_iff in Hm2 as (-> & _).
    apply mt_rep_set_iff in Hm as (Hf & _); [|done]. rewrite app_nil_r in Hw. rewrite Hw in *. by eapply blanks_empty.
  - intros m E. apply search_Some in E as (gap & -> & _ & Hm). apply mt_seq_iff in Hm as (w1 & w2 & c' & Hw & Hm & Hm2).
    inversion Hm; subst. simpl in Hw. apply mt_rep_set_iff in Hm2 as (Hf & _); [|done]. rewrite Hw in *. by eapply blanks_empty.
Qed.

Lemma denotes_all_chars l Ps : Forall2 denotes l Ps → Forall (λ p, Forall (λ c, item_char c = true) p) l.
Proof. induction 1 as [|? ? ? ? H]; constructor; [by eapply denotes_chars|done]. Qed.

Lemma denotes_split l Ps : l ≠ [] → Forall2 denotes l Ps → split_re re_comma_split (join [44] l) = l.
Proof.
  intros Hne Hd. apply (split_re_join 44); [done|done|]. apply denotes_all_chars in Hd.
  eapply Forall_impl; [done|]. intros p. apply item_piece.
Qed.

End items.

Section adding.
Variable macsValid : bool.

(** One address against the ones so far. *)
Lemma check_addr_item ips Ps a Q : Forall2 denotes ips Ps → denotes a Q →
  ∃ b : bool, check_addr validateMultipleIps macsValid 3 (0, [], ips) a =
         Ret (if b then (1, [], ips) else (0, [], ips ++ [a])) ∧
       (b = false ↔ Forall (λ P, apart P Q) Ps).
Proof.
  intros Hd Ha. unfold check_addr. cbn [Z.eqb negb].
  rewrite (item_not_mac a) by (by eapply denotes_chars). rewrite (denotes_valid a Q) by done.
  replace (macsValid && (2 =? 0)) with false by (by destruct macsValid). cbn [Z.eqb orb negb Z.leb Z.compare].
  destruct Hd as [|i P ips Ps Hi Hd]; cbn [length Nat.eqb].
  { exists false. split; [done|]. split; [constructor|done]. }
  destruct (addr_lists_overlap a [Q] (join [44] (i :: ips)) (P :: Ps)) as (b & E & Hb).
  { exists [a]. by repeat constructor. }
  { exists (i :: ips). split_and!; [done|done|by constructor]. }
  exists b. split; [change (js ",") with [44]; change (negb (3 <=? 3)) with false; rewrite E; by destruct b|].
  rewrite <- not_true_iff_false, Hb, Forall_forall. unfold apart. split.
  - intros Hn P' HP' (y & Hy & Hp & Hq). apply Hn. exists y. split; [done|split; [left; exact Hq|]]. apply Exists_exists. by exists P'.
  - intros Hn (y & Hy & Hq & (P' & HP' & Hp)%Exists_exists). apply (Hn P' HP'). exists y. split; [done|split; [done|]].
    by inversion Hq as [? ? H|? ? H]; [|inversion H].
Qed.

(** The loop over the new addresses. *)
Lemma check_addrs_items l Qs ips Ps : Forall2 denotes ips Ps → Forall2 denotes l Qs → disjoint_sets Ps →
  ∃ v ips', exn_fold (check_addr validateMultipleIps macsValid 3) l (0, [], ips) = Ret (v, [], ips') ∧
    (v = 0 ↔ disjoint_sets (Ps ++ Qs)).
Proof.
  intros Hd Hl. revert ips Ps Hd. induction Hl as [|a Q l Qs Ha Hl IH]; intros ips Ps Hd Hp; cbn [exn_fold].
  { exists 0, ips. by rewrite app_nil_r. }
  destruct (check_addr_item ips Ps a Q Hd Ha) as (b & -> & Hb). cbn [exn_bind].
  rewrite (cons_middle Q Ps Qs), (app_assoc Ps). destruct b.
  - exists 1, ips. split.
    + clear. induction l as [|x l IH]; [done|]. by cbn [exn_fold check_addr Z.eqb negb exn_bind].
    + split; [done|]. intros [_ H%Hb]%disjoint_prefix%disjoint_snoc. done.
  - apply IH; [by apply Forall2_app; [|constructor]|]. apply disjoint_snoc. split; [done|by apply Hb].
Qed.

Lemma current_items ips Ps : Forall2 denotes ips Ps → current_addrs (addr_rows ips) = Ret ([], ips).
Proof.
  intros Hd. unfold current_addrs, addr_rows.
  match goal with |- exn_fold ?g _ _ = _ => set (f := g) end.
  cut (∀ acc, exn_fold f (map (λ a, [DStr a]) ips) ([], acc) = Ret ([], acc ++ ips)); [intros H; apply (H [])|].
  induction Hd as [|a P ips Ps Ha _ IH]; intros acc; cbn [map exn_fold]; [by rewrite app_nil_r|].
  unfold f at 1. cbn [head]. rewrite (item_not_mac a) by (by eapply denotes_chars). cbn [Z.eqb exn_bind].
  rewrite IH. by rewrite <- app_assoc.
Qed.

End adding.

Section rows.
Variable remove_label : jstr.

Lemma add_rows_hold l ips t : Forall (λ a, 10 ∉ a) l →
  table_wf t → getTableDataArray t true false = Ret (addr_rows ips) →
  let t' := fold_left (λ t a, addTableRow remove_label t [DStr a] true false) l t in
  table_wf t' ∧ getTableDataArray t' true false = Ret (addr_rows (ips ++ l)).
Proof.
  intros Hl Hwf Hd.
  assert (Ef : fold_left (λ t a, addTableRow remove_label t [DStr a] true false) l t =
    fold_left (λ t d, addTableRow remove_label t d true false) (addr_rows l) t).
  { clear. revert t. unfold addr_rows. induction l as [|a l IH]; intros t; simpl; [done|]. apply IH. }
  cbv zeta. rewrite Ef. clear Ef.
  assert (Hw' : table_wf (fold_left (λ t d, addTableRow remove_label t d true false) (addr_rows l) t)).
  { clear -Hwf. unfold addr_rows. revert t Hwf. induction l as [|a l IH]; intros t Hwf; simpl; [done|].
    apply IH, addTableRow_wf; [done|by left]. }
  split; [done|]. apply table_data_rows in Hd; [|done]. apply table_data_rows; [done|].
  rewrite (add_rows_data remove_label true false).
  - rewrite Hd. unfold addr_rows. by rewrite !map_app.
  - unfold addr_rows. apply Forall_map. eapply Forall_impl; [exact Hl|]. intros a Ha. by repeat constructor.
Qed.

Lemma empty_table_wf tableId : table_wf (createTable remove_label [DStr []] [] tableId true false).
Proof. unfold createTable. apply createTable_rows. constructor. Qed.

End rows.

(** C31: a table of IPv4 addresses stays disjoint.  The items are the hosts that
    the validator accepts, such a host with a mask of 1 to 32 bits (dotted, or a
    number up to 31), and ranges from a host to one that is not below it, both on
    the same side of 128.0.0.0 ([denotes]; for the others see
    [range_across_sign] and [zero_mask_overlaps_nothing]).  On a container whose
    rows are items that are pairwise disjoint, a list of items is accepted exactly
    when the rows and the new items are pairwise disjoint; then a row is added for
    each item, in order and as it was written, and otherwise the container is left
    as it was. *)
Theorem address_table_disjoint remove_label container tableId macsValid ips Ps l Qs :
  holds container ips → Forall2 denotes ips Ps → disjoint_sets Ps → l ≠ [] → Forall2 denotes l Qs →
  ∃ ok container',
    addAddressStringToTable remove_label (join [44] l) container tableId macsValid 3 = Ret (ok, container') ∧
    (ok = true ↔ disjoint_sets (Ps ++ Qs)) ∧
    (if ok then holds container' (ips ++ l) else container' = container).
Proof.
  intros Hh Hd Hp Hne Hl. unfold addAddressStringToTable. cbn [ipValidFunction Z.eqb Pos.eqb exn_bind].
  set (current := match container with Some t => _ | None => _ end).
  assert (Ec : current = Ret ([], ips)).
  { unfold current. destruct container as [t|]; simpl in Hh; [|by subst].
    destruct Hh as [_ ->]. by apply (current_items ips Ps). }
  rewrite Ec. cbn [exn_bind fst snd]. rewrite (denotes_split l Qs), (proj2 (Nat.ltb_lt _ _)) by (done || by destruct l; [|simpl; lia]).
  destruct (check_addrs_items macsValid l Qs ips Ps) as (v & ips' & -> & Hv); [done..|]. cbn [exn_bind].
  assert (Hl10 : Forall (λ a, 10 ∉ a) l).
  { eapply Forall_impl; [by eapply denotes_all_chars|]. intros a Ha Hin. rewrite Forall_forall in Ha. by specialize (Ha _ Hin). }
  destruct (Z.eqb_spec v 0) as [E|E].
  - eexists true, _. split; [done|]. split; [by rewrite Hv in E|].
    rewrite strip_blanks0 by (apply join_chars; by eapply denotes_all_chars). rewrite (denotes_split l Qs) by done.
    rewrite (fold_left_ext _ (λ t a, addTableRow remove_label t [DStr a] true false)).
    2:{ intros t a Ha. apply list_elem_of_lookup in Ha as [i Ha].
        destruct (Forall2_lookup_l _ _ _ _ _ Hl Ha) as (Q & _ & HQ). by rewrite (denotes_shown a Q). }
    apply add_rows_hold; [done|..]; destruct container as [t|]; simpl in Hh; try apply Hh; subst; [apply empty_table_wf|done].
  - exists false, container. split; [done|]. split; [|done]. split; [done|]. by intros H%Hv.
Qed.

Lemma address_table_disjoint_witness :
  ∃ ok container',
    addAddressStringToTable (js "Remove") (js "192.168.1.77,10.0.0.1") None (js "t") true 3 = Ret (ok, container') ∧
    (ok = true ↔ disjoint_sets ([] ++ [λ y, y = 3232235853; λ y, y = 167772161])) ∧
    (if ok then holds container' ([] ++ [js "192.168.1.77"; js "10.0.0.1"]) else container' = None).
Proof.
  apply (address_table_disjoint (js "Remove") None (js "t") true [] [] [js "192.168.1.77"; js "10.0.0.1"]
    [λ y, y = 3232235853; λ y, y = 167772161]); [done|constructor|constructor|done|].
  apply Forall2_cons; split; [|apply Forall2_cons; split; [|done]].
  - apply denotes_host. split; [exact addr_sample|reflexivity].
  - apply denotes_host. split; [|reflexivity]. exists (js "10"), (js "0"), (js "0"), (js "1").
    split_and!; [reflexivity|by apply octet_eval..|reflexivity].
Defined.
