(* ===== verification/TimeRanges.v ===== *)
(** * Weekly time ranges (quotas.js)

    [timeVariablesToWeeklyRanges] turns the hours, days or weekly ranges of a
    quota into a list of boundaries in seconds of the week, and [rangesOverlap]
    tests two such lists.  The names of the days come from the language pack. *)
From S2P Require Import Prelude JsNum JsString JsRegex Ip4.
Import Ip4.
Open Scope Z_scope.

Module TimeRanges.

Definition week : Z := 7 * 24 * 60 * 60.
Definition day : Z := 24 * 60 * 60.

Definition getDaySeconds (offset : Z) : Z := offset / day * day.
(** The sign of [%] is that of its first operand. *)
Definition getHourSeconds (offset : Z) : Z := Z.rem offset day / (60 * 60) * (60 * 60).

(** ** splitRangesAtEnd *)

(** A range that wraps is cut at [max] and its second part appended to the list
    that is being read; a range [0, end] is not cut again, so twice the length
    is enough. *)
Fixpoint split_wrapped (fuel : nat) (max : Z) (l : list (Z * Z)) : list (Z * Z) :=
  match fuel, l with
  | S f, (s, e) :: l' =>
      if e <? s then (s, max) :: split_wrapped f max (l' ++ [(0, e)]) else (s, e) :: split_wrapped f max l'
  | _, _ => []
  end.

(** [sort] on the starts; equal starts keep their order. *)
Fixpoint insert_pair (p : Z * Z) (l : list (Z * Z)) : list (Z * Z) :=
  match l with
  | [] => [p]
  | q :: l' => if fst p <? fst q then p :: l else q :: insert_pair p l'
  end.
Definition sort_pairs (l : list (Z * Z)) : list (Z * Z) := fold_left (fun acc p => insert_pair p acc) l [].

Definition splitRangesAtEnd (rangeList : list (Z * Z)) (max : Z) : list (Z * Z) :=
  sort_pairs (split_wrapped (2 * length rangeList) max rangeList).

Definition flatten (l : list (Z * Z)) : list Z := concat (map (fun p => [fst p; snd p]) l).

(** ** Parsing *)
Definition re_time_sep : re := Eval vm_compute in rx "[:\t ]+".
Definition re_comma_sep : re := Eval vm_compute in rx "[\t ]*,[\t ]*".
Definition re_dash_sep : re := Eval vm_compute in rx "[\t ]*\-[\t ]*".
Definition re_lead : re := Eval vm_compute in rx "^[\t ]*".
Definition re_trail : re := Eval vm_compute in rx "[\t ]*$".

(** [parsePaddedInt(x) + "" != "NaN" ? parsePaddedInt(x) * k : 0]; a missing
    piece is [null]. *)
Definition padded (x : option jstr) (k : Z) : Z :=
  match parsePaddedInt (default [] x) with Dec z _ => z * k | _ => 0 end.

Section days.
(** The short names of the days, Sunday first. *)
Variable days_names : list jstr.

Fixpoint day_index (names : list jstr) (i : Z) (name : jstr) (found : option Z) : option Z :=
  match names with
  | [] => found
  | n :: l => day_index l (i + 1) name (if toUpperCase n =s name then Some i else found)
  end.
(** [dayToIndex[name]]: a name that occurs twice has its last index. *)
Definition dayToIndex (name : jstr) : option Z := day_index days_names 0 name None.

Definition day_name (s : jstr) : jstr := toUpperCase (substr s 0 3).

Definition parse_weekly_piece (piece : jstr) : Z :=
  let p := split_re re_time_sep piece in
  default 0 (dayToIndex (day_name (default [] (p !! 0%nat)))) * day
  + padded (p !! 1%nat) (60 * 60) + padded (p !! 2%nat) 60
  + match p !! 3%nat with Some x => padded (Some x) 1 | None => 0 end.

Definition parse_hour_piece (piece : jstr) : Z :=
  let p := split_re re_time_sep piece in
  padded (p !! 0%nat) (60 * 60) + padded (p !! 1%nat) 60
  + match p !! 2%nat with Some x => padded (Some x) 1 | None => 0 end.

(** A pair "a - b"; a missing second piece throws. *)
Definition parse_pair (parse : jstr → Z) (pair : jstr) : exn (Z * Z) :=
  let pieces := split_re re_dash_sep pair in
  let! a := exn_of_option TypeError (pieces !! 0%nat) in
  let! b := exn_of_option TypeError (pieces !! 1%nat) in
  Ret (parse a, parse b).

Definition parse_pairs (parse : jstr → Z) (l : list jstr) : exn (list (Z * Z)) :=
  exn_fold (fun acc pair => let! p := parse_pair parse pair in Ret (acc ++ [p])) l [].

Definition valid_days (days : jstr) : list bool :=
  if days =s [] then replicate 7 true
  else fold_left (fun valid d =>
         match dayToIndex (day_name d) with Some i => <[Z.to_nat i := true]> valid | None => valid end)
         (split_re re_comma_sep days) (replicate 7 false).

(** The inversion of a list of boundaries. *)
Definition invert_ranges (ranges : list Z) : list Z :=
  let ranges := match ranges with
                | x :: l => if x =? 0 then l else 0 :: ranges
                | [] => [0]
                end in
  match last ranges with
  | Some x => if x =? week then removelast ranges else ranges ++ [week]
  | None => [week]
  end.

Definition timeVariablesToWeeklyRanges (hours days weekly : jstr) (invert : bool) : exn (list Z) :=
  if (hours =s []) && (days =s []) && (weekly =s []) then Ret [0; week]
  else
    let! ranges :=
      (if negb (weekly =s []) then
         let! pairs := parse_pairs parse_weekly_piece (split_re re_comma_sep weekly) in
         Ret (flatten (splitRangesAtEnd pairs week))
       else
         let! hourRanges :=
           (if negb (hours =s []) then
              let! pairs := parse_pairs parse_hour_piece
                (map (fun p => replace re_trail [] (replace re_lead [] p)) (split_re re_comma_sep hours)) in
              Ret (splitRangesAtEnd pairs day)
            else Ret []) in
         let hourRanges := match hourRanges with [] => [(0, day)] | _ => hourRanges end in
         Ret (concat (imap (fun d (v : bool) =>
           if v then map (Z.add (Z.of_nat d * 24 * 60 * 60)) (flatten hourRanges) else []) (valid_days days)))) in
    Ret (if invert then invert_ranges ranges else ranges).

End days.

(** ** rangesOverlap *)

(** [r1End > r2Start && r1Start < r2End] *)
Definition meet (r1 r2 : Z * Z) : bool := (fst r2 <? snd r1) && (fst r1 <? snd r2).

(** The inner [while], on the ranges from [r2Index] on: (found, the rest). *)
Fixpoint advance (r1 : Z * Z) (found : bool) (ranges2 : list (Z * Z)) : bool * list (Z * Z) :=
  if found then (true, ranges2)
  else match ranges2 with
       | r2 :: l =>
           if fst r2 <? fst r1
           then match l with r2' :: _ => advance r1 (meet r1 r2') l | [] => (false, []) end
           else (false, ranges2)
       | [] => (false, [])
       end.

Fixpoint sweep (ranges1 ranges2 : list (Z * Z)) : bool :=
  match ranges1 with
  | [] => false
  | r1 :: l =>
      let found := match ranges2 with r2 :: _ => meet r1 r2 | [] => false end in
      let '(found, rest) := advance r1 found ranges2 in
      if found then true else sweep l rest
  end.

(** The pairs of a list of boundaries, which has an even length. *)
Fixpoint pairs_of (l : list Z) : list (Z * Z) :=
  match l with s :: e :: l' => (s, e) :: pairs_of l' | _ => [] end.

(** Hours, days, weekly ranges and whether they are inverted. *)
Record time_params := mkTime { tp_hours : jstr; tp_days : jstr; tp_weekly : jstr; tp_invert : bool }.

Definition rangesOverlap (names : list jstr) (t1 t2 : time_params) : exn bool :=
  let! ranges1 := timeVariablesToWeeklyRanges names (tp_hours t1) (tp_days t1) (tp_weekly t1) (tp_invert t1) in
  let! ranges2 := timeVariablesToWeeklyRanges names (tp_hours t2) (tp_days t2) (tp_weekly t2) (tp_invert t2) in
  Ret (sweep (pairs_of ranges1) (pairs_of ranges2)).

End TimeRanges.
