(* ===== verification/TimeFacts.v ===== *)
(** * Properties of the weekly time ranges *)
From S2P Require Import Prelude JsNum JsString JsRegex Ip4 TimeRanges.
From Stdlib Require Import Sorting.Sorted.
Import TimeRanges.
Open Scope Z_scope.

(** [t] is in a half-open range, in one of a list, in one that may wrap. *)
Definition inside (t : Z) (r : Z * Z) : Prop := fst r <= t < snd r.
Definition covered (t : Z) (l : list (Z * Z)) : Prop := Exists (inside t) l.
Definition inside_wrapped (t : Z) (r : Z * Z) : Prop :=
  if snd r <? fst r then fst r <= t ∨ t < snd r else inside t r.

Definition by_start (p q : Z * Z) : Prop := fst p <= fst q.
Definition nonempty (r : Z * Z) : Prop := fst r < snd r.

(** ** The sweep *)
Section sweep.

Lemma meet_iff p q : nonempty p → nonempty q → meet p q = true ↔ ∃ t, inside t p ∧ inside t q.
Proof.
  unfold nonempty, meet, inside. intros. rewrite andb_true_iff, !Z.ltb_lt. split.
  - intros. exists (Z.max (fst p) (fst q)). lia.
  - intros (t & ? & ?). lia.
Qed.

(** What the inner loop returns, when the head of the list has been tested. *)
Lemma advance_spec r1 l : nonempty r1 → Forall nonempty l → StronglySorted by_start l →
  let '(found, rest) := advance r1 (match l with r2 :: _ => meet r1 r2 | [] => false end) l in
  (found = true ↔ Exists (λ r2, meet r1 r2 = true) l) ∧
  (found = false → ∃ skipped, l = skipped ++ rest ∧ Forall (λ r2, snd r2 <= fst r1) skipped).
Proof.
  intros H1. unfold nonempty in H1. induction l as [|r2 l IH]; intros Hne Hs; [simpl; split; [|by exists []]; split; [done|inversion 1]|].
  inversion Hne as [|? ? Hr2 Hne']; subst. apply StronglySorted_inv in Hs as [Hs Hall].
  destruct (meet r1 r2) eqn:Em; cbn [advance].
  { split; [|done]. split; [intros _; by left|done]. }
  assert (Hmeet : snd r1 <= fst r2 ∨ snd r2 <= fst r1) by (unfold meet in Em; unfold nonempty in *; lia).
  destruct (Z.ltb_spec (fst r2) (fst r1)) as [Hlt|Hge].
  - assert (Hsk : snd r2 <= fst r1) by lia. destruct l as [|r2' l].
    { split; [rewrite Exists_cons, Exists_nil; split; [done|intros [?|[]]; congruence]|]. intros _. exists [r2]. split; [done|by constructor]. }
    specialize (IH Hne' Hs). destruct (advance r1 (meet r1 r2') (r2' :: l)) as [found rest]. destruct IH as [IH1 IH2]. split.
    + rewrite IH1, (Exists_cons _ r2). split; [by right|]. intros [?|?]; [congruence|done].
    + intros Hf. destruct (IH2 Hf) as (sk & -> & Hsk'). exists (r2 :: sk). split; [done|by constructor].
  - split; [|by exists []]. split; [done|]. intros Hex. exfalso. unfold nonempty in Hr2.
    assert (Hfar : snd r1 <= fst r2) by lia. apply Exists_exists in Hex as (q & Hq & Hm). 
    assert (fst r2 <= fst q). { apply elem_of_cons in Hq as [-> | Hq]; [lia|]. rewrite Forall_forall in Hall. by apply Hall. }
    unfold meet in Hm. lia.
Qed.

Lemma sweep_spec l1 l2 : Forall nonempty l1 → StronglySorted by_start l1 → Forall nonempty l2 → StronglySorted by_start l2 →
  sweep l1 l2 = true ↔ Exists (λ r1, Exists (λ r2, meet r1 r2 = true) l2) l1.
Proof.
  intros H1. revert l2. induction H1 as [|r1 l1 Hr1 Hl1 IH]; intros l2 Hs1 H2 Hs2; cbn [sweep].
  - split; [done|inversion 1].
  - apply StronglySorted_inv in Hs1 as [Hs1 Hall]. pose proof (advance_spec r1 l2 Hr1 H2 Hs2) as Ha.
    destruct (advance r1 _ l2) as [found rest]. destruct Ha as [Hf Hsk]. destruct found.
    + split; [|done]. intros _. left. by apply Hf.
    + destruct (Hsk eq_refl) as (sk & -> & Hskip). rewrite Forall_app in H2. destruct H2 as [H2a H2b].
      assert (Hs2' : StronglySorted by_start rest).
      { clear -Hs2. induction sk as [|x sk IHs]; [done|]. simpl in Hs2. apply IHs. by apply StronglySorted_inv in Hs2 as [? _]. }
      rewrite (IH rest Hs1 H2b Hs2'). rewrite Exists_cons. split.
      * intros H. right. eapply Exists_impl; [exact H|]. intros r Hr. apply Exists_app. by right.
      * intros [H|H]; [by apply Hf in H|]. apply Exists_exists in H as (r & Hr & Hm). apply Exists_exists. exists r. split; [done|].
        apply Exists_app in Hm as [Hm|Hm]; [|done]. exfalso. apply Exists_exists in Hm as (q & Hq & Hm).
        rewrite Forall_forall in Hskip. specialize (Hskip q Hq). rewrite Forall_forall in Hall. specialize (Hall r Hr).
        unfold by_start, meet in *. lia.
Qed.

End sweep.

(** ** Cutting and sorting *)
Section cutting.

Lemma insert_pair_perm p l : insert_pair p l ≡ₚ p :: l.
Proof.
  induction l as [|q l IH]; simpl; [done|]. destruct (fst p <? fst q); [done|]. rewrite IH. apply Permutation_swap.
Qed.

Lemma insert_pair_sorted p l : StronglySorted by_start l → StronglySorted by_start (insert_pair p l).
Proof.
  induction l as [|q l IH]; intros Hs; simpl; [by repeat constructor|].
  apply StronglySorted_inv in Hs as [Hs Hall]. destruct (Z.ltb_spec (fst p) (fst q)).
  - constructor; [by constructor|]. constructor; [unfold by_start; lia|]. eapply Forall_impl; [exact Hall|]. unfold by_start. simpl. lia.
  - constructor; [by apply IH|]. rewrite insert_pair_perm. constructor; [unfold by_start; lia|done].
Qed.

Lemma sort_pairs_spec l : sort_pairs l ≡ₚ l ∧ StronglySorted by_start (sort_pairs l).
Proof.
  unfold sort_pairs. assert (H : ∀ acc, StronglySorted by_start acc →
    fold_left (λ acc p, insert_pair p acc) l acc ≡ₚ l ++ acc ∧
    StronglySorted by_start (fold_left (λ acc p, insert_pair p acc) l acc)).
  { induction l as [|p l IH]; intros acc Ha; simpl; [done|].
    destruct (IH (insert_pair p acc) (insert_pair_sorted p acc Ha)) as [Hp Hs]. split; [|done].
    rewrite Hp, insert_pair_perm. by rewrite Permutation_middle. }
  destruct (H [] ltac:(constructor)) as [Hp Hs]. by rewrite app_nil_r in Hp.
Qed.

(** The number of ranges that wrap bounds the work. *)
Definition wraps (l : list (Z * Z)) : nat := length (filter (λ r, snd r < fst r) l).

Lemma wraps_app l k : wraps (l ++ k) = (wraps l + wraps k)%nat.
Proof. unfold wraps. by rewrite filter_app, length_app. Qed.

Lemma split_wrapped_spec fuel max l : (length l + wraps l ≤ fuel)%nat →
  Forall (λ r, 0 <= fst r <= max ∧ 0 <= snd r <= max) l →
  (∀ t, 0 <= t < max → covered t (split_wrapped fuel max l) ↔ Exists (inside_wrapped t) l) ∧
  Forall (λ r, 0 <= fst r <= snd r ∧ snd r <= max) (split_wrapped fuel max l).
Proof.
  revert l. induction fuel as [|f IH]; intros l Hf Hl.
  - destruct l; [|simpl in Hf; lia]. simpl. split; [|constructor]. intros t _. split; inversion 1.
  - destruct l as [|[s e] l]; simpl; [split; [|constructor]; intros t _; split; inversion 1|].
    inversion Hl as [|? ? [Hs He] Hl']; subst. simpl in Hs, He.
    change ((s, e) :: l) with ([(s, e)] ++ l) in Hf. rewrite wraps_app in Hf. simpl length in Hf.
    destruct (Z.ltb_spec e s) as [Hw|Hw].
    + assert (E1 : wraps [(s, e)] = 1%nat) by (unfold wraps; rewrite filter_cons_True; done).
      assert (E2 : wraps [(0, e)] = 0%nat) by (unfold wraps; rewrite filter_cons_False; [done|simpl; lia]).
      destruct (IH (l ++ [(0, e)])) as [IH1 IH2].
      { rewrite length_app, wraps_app, E2. simpl length. lia. }
      { apply Forall_app. split; [done|]. constructor; [simpl; lia|done]. }
      split.
      * intros t Ht. unfold covered in *. rewrite Exists_cons, IH1, Exists_app by done.
        rewrite (Exists_cons _ (0, e)), Exists_nil, Exists_cons.
        assert (Ha : inside_wrapped t (s, e) ↔ s <= t ∨ t < e).
        { unfold inside_wrapped. simpl. by rewrite (proj2 (Z.ltb_lt e s)). }
        assert (Hb : inside_wrapped t (0, e) ↔ t < e).
        { unfold inside_wrapped, inside. simpl. rewrite (proj2 (Z.ltb_ge e 0)) by lia. lia. }
        rewrite Ha, Hb. unfold inside. simpl. intuition lia.
      * constructor; [simpl; lia|done].
    + assert (E1 : wraps [(s, e)] = 0%nat) by (unfold wraps; rewrite filter_cons_False; [done|simpl; lia]).
      destruct (IH l) as [IH1 IH2]; [lia|done|]. split; [|constructor; [simpl; lia|done]].
      intros t Ht. unfold covered in *. rewrite !Exists_cons, IH1 by done.
      assert (Ha : inside_wrapped t (s, e) ↔ inside t (s, e)).
      { unfold inside_wrapped. simpl. by rewrite (proj2 (Z.ltb_ge e s)). }
      by rewrite Ha.
Qed.

Lemma wraps_le l : (wraps l ≤ length l)%nat.
Proof. unfold wraps. induction l as [|r l IH]; simpl; [done|]. rewrite filter_cons. destruct (decide _); simpl; lia. Qed.

End cutting.

(** Cutting at the end of the period keeps the times covered: the ranges of
    [splitRangesAtEnd] do not wrap, are sorted by their starts, and cover a time
    exactly when one of the given ranges does, a range whose end is before its
    start meaning the time that wraps around. *)
Theorem split_ranges_cover rangeList max :
  Forall (λ r, 0 <= fst r <= max ∧ 0 <= snd r <= max) rangeList →
  let out := splitRangesAtEnd rangeList max in
  StronglySorted by_start out ∧ Forall (λ r, 0 <= fst r <= snd r ∧ snd r <= max) out ∧
  ∀ t, 0 <= t < max → covered t out ↔ Exists (inside_wrapped t) rangeList.
Proof.
  intros Hl out. unfold out, splitRangesAtEnd.
  destruct (split_wrapped_spec (2 * length rangeList) max rangeList) as [H1 H2]; [pose proof (wraps_le rangeList); lia|done|].
  destruct (sort_pairs_spec (split_wrapped (2 * length rangeList) max rangeList)) as [Hp Hs].
  split; [done|]. split; [by rewrite Hp|].
  intros t Ht. rewrite <- H1 by done. unfold covered. by rewrite Hp.
Qed.

(** The sweep of [rangesOverlap] is right on ranges that are not empty and
    sorted by their starts: it finds an overlap exactly when some time is in a
    range of each list. *)
Theorem sweep_finds_overlap l1 l2 :
  Forall nonempty l1 → StronglySorted by_start l1 → Forall nonempty l2 → StronglySorted by_start l2 →
  sweep l1 l2 = true ↔ ∃ t, covered t l1 ∧ covered t l2.
Proof.
  intros H1 S1 H2 S2. rewrite sweep_spec by done. rewrite Forall_forall in H1, H2. unfold covered. split.
  - intros (p & Hp & (q & Hq & Hm)%Exists_exists)%Exists_exists. apply meet_iff in Hm as (t & ? & ?); [|auto..].
    exists t. rewrite !Exists_exists. split; [by exists p|by exists q].
  - intros (t & (p & Hp & ?)%Exists_exists & (q & Hq & ?)%Exists_exists). apply Exists_exists. exists p. split; [done|].
    apply Exists_exists. exists q. split; [done|]. apply meet_iff; eauto.
Qed.

(** ** Inversion *)

(** The number of boundaries up to [t]: in a sorted list of boundaries, [t] is
    covered when it is odd. *)
Definition passed (t : Z) (l : list Z) : nat := length (filter (λ b, b <= t) l).

Section inversion.

Lemma passed_app t l k : passed t (l ++ k) = (passed t l + passed t k)%nat.
Proof. unfold passed. by rewrite filter_app, length_app. Qed.

Lemma passed_none t l : Forall (λ b, t < b) l → passed t l = 0%nat.
Proof.
  unfold passed. induction 1 as [|b l Hb _ IH]; [done|]. rewrite filter_cons, decide_False by lia. done.
Qed.

Lemma list_pair_ind {A} (P : list A → Prop) :
  P [] → (∀ x, P [x]) → (∀ x y l, P l → P (x :: y :: l)) → ∀ l, P l.
Proof.
  intros H0 H1 H2 l. assert (H : P l ∧ ∀ x, P (x :: l)); [|apply H].
  induction l as [|x l [IH1 IH2]]; [done|]. split; [apply IH2|]. intros y. by apply H2.
Qed.

Lemma covered_parity t l : StronglySorted Z.le l → Nat.even (length l) = true →
  covered t (pairs_of l) ↔ Nat.odd (passed t l) = true.
Proof.
  induction l as [|x|x y l IH] using list_pair_ind; intros Hs Hev; [|done|].
  - simpl. split; [inversion 1|done].
  - apply StronglySorted_inv in Hs as [Hs Hx]. apply StronglySorted_inv in Hs as [Hs Hy]. simpl pairs_of.
    unfold covered in *. rewrite Exists_cons, IH by done. unfold inside. simpl fst. simpl snd.
    inversion Hx as [|? ? Hxy _]; subst. unfold passed. rewrite !filter_cons.
    destruct (decide (y <= t)).
    + rewrite decide_True by lia. simpl length. rewrite Nat.odd_succ, Nat.even_succ. unfold passed. intuition lia.
    + assert (H0 : passed t l = 0%nat).
      { apply passed_none. eapply Forall_impl; [exact Hy|]. simpl. lia. }
      unfold passed in H0. rewrite H0. destruct (decide (x <= t)); simpl length; rewrite H0; simpl; intuition lia.
Qed.

Lemma removelast_last {A} (l : list A) x : last l = Some x → l = removelast l ++ [x].
Proof.
  intros H. destruct l as [|y l _] using rev_ind; [done|]. rewrite last_snoc in H. injection H as ->. by rewrite removelast_last.
Qed.

Lemma sorted_app_inv (l k : list Z) : StronglySorted Z.le (l ++ k) → StronglySorted Z.le l ∧ Forall (λ x, Forall (Z.le x) k) l.
Proof.
  induction l as [|x l IH]; intros Hs; simpl in *; [repeat constructor|].
  apply StronglySorted_inv in Hs as [Hs Hx]. apply Forall_app in Hx as [Hx Hk]. destruct (IH Hs) as [H1 H2].
  split; by constructor.
Qed.

Lemma sorted_snoc (l : list Z) x : StronglySorted Z.le l → Forall (λ y, y <= x) l → StronglySorted Z.le (l ++ [x]).
Proof.
  induction 1 as [|y l Hs IH Hy]; intros Hl; simpl; [repeat constructor|]. inversion Hl; subst.
  constructor; [by apply IH|]. apply Forall_app. split; [done|by constructor].
Qed.

(** The two steps of the inversion. *)
Definition flip_start (l : list Z) : list Z :=
  match l with x :: l' => if x =? 0 then l' else 0 :: l | [] => [0] end.
Definition flip_end (l : list Z) : list Z :=
  match last l with Some x => if x =? week then removelast l else l ++ [week] | None => [week] end.

Lemma invert_flips l : invert_ranges l = flip_end (flip_start l).
Proof. done. Qed.

Definition bounded (l : list Z) : Prop := StronglySorted Z.le l ∧ Forall (λ b, 0 <= b <= week) l.

Lemma flip_start_spec l t : bounded l → 0 <= t →
  bounded (flip_start l) ∧ Nat.odd (length (flip_start l)) = negb (Nat.odd (length l)) ∧
  Nat.odd (passed t (flip_start l)) = negb (Nat.odd (passed t l)).
Proof.
  intros [Hs Hb] Ht. unfold flip_start. destruct l as [|x l].
  - split_and!; [split; [repeat constructor|constructor; [unfold week; lia|constructor]]|done|].
    unfold passed. rewrite filter_cons, decide_True by lia. done.
  - inversion Hb as [|? ? Hx Hb']; subst. pose proof Hs as [Hs' Hall]%StronglySorted_inv.
    destruct (Z.eqb_spec x 0) as [->|Hne].
    + split_and!; [done| |].
      * simpl length. by rewrite Nat.odd_succ, <- Nat.negb_odd, negb_involutive.
      * unfold passed. rewrite (filter_cons _ 0), decide_True by lia. simpl length.
        by rewrite Nat.odd_succ, <- Nat.negb_odd, negb_involutive.
    + split_and!.
      * split; [|constructor; [unfold week; lia|done]]. constructor; [done|]. eapply Forall_impl; [exact Hb|]. simpl. lia.
      * change (length (0 :: x :: l)) with (S (length (x :: l))). by rewrite Nat.odd_succ, <- Nat.negb_odd.
      * unfold passed. rewrite (filter_cons _ 0), decide_True by lia.
        change (length (0 :: filter (λ b, b <= t) (x :: l))) with (S (length (filter (λ b, b <= t) (x :: l)))).
        by rewrite Nat.odd_succ, <- Nat.negb_odd.
Qed.

Lemma flip_end_spec l t : bounded l → t < week →
  bounded (flip_end l) ∧ Nat.odd (length (flip_end l)) = negb (Nat.odd (length l)) ∧ passed t (flip_end l) = passed t l.
Proof.
  intros [Hs Hb] Ht. unfold flip_end. destruct (last l) as [x|] eqn:El.
  - pose proof (removelast_last l x El) as E. destruct (Z.eqb_spec x week) as [->|Hne].
    + rewrite E in Hs, Hb. apply sorted_app_inv in Hs as [Hs _]. apply Forall_app in Hb as [Hb _]. split_and!; [done| |].
      * rewrite E at 2. rewrite length_app. simpl. by rewrite Nat.add_1_r, Nat.odd_succ, <- Nat.negb_odd, negb_involutive.
      * rewrite E at 2. rewrite passed_app. rewrite (passed_none t [week]); [lia|]. by constructor.
    + split_and!.
      * split; [apply sorted_snoc; [done|]|apply Forall_app; split; [done|constructor; [unfold week; lia|done]]].
        eapply Forall_impl; [exact Hb|]. simpl. lia.
      * rewrite length_app. simpl. by rewrite Nat.add_1_r, Nat.odd_succ, <- Nat.negb_odd.
      * rewrite passed_app. rewrite (passed_none t [week]); [lia|]. by constructor.
  - apply last_None in El as ->. split_and!; [split; [repeat constructor|constructor; [unfold week; lia|constructor]]|done|].
    by rewrite (passed_none t [week]) by (by constructor).
Qed.

End inversion.

(** Inversion gives the complement: for sorted boundaries of the week, a
    time is covered by the inverted list exactly when it is not covered by the
    list, and inverting keeps the list sorted and of even length. *)
Theorem invert_complement l :
  StronglySorted Z.le l → Forall (λ b, 0 <= b <= week) l → Nat.even (length l) = true →
  StronglySorted Z.le (invert_ranges l) ∧ Nat.even (length (invert_ranges l)) = true ∧
  ∀ t, 0 <= t < week → covered t (pairs_of (invert_ranges l)) ↔ ¬ covered t (pairs_of l).
Proof.
  intros Hs Hb Hev. rewrite invert_flips.
  assert (H : ∀ t, 0 <= t < week → bounded (flip_end (flip_start l)) ∧
    Nat.even (length (flip_end (flip_start l))) = true ∧
    Nat.odd (passed t (flip_end (flip_start l))) = negb (Nat.odd (passed t l))).
  { intros t Ht. destruct (flip_start_spec l t) as (B1 & L1 & P1); [done|lia|].
    destruct (flip_end_spec (flip_start l) t) as (B2 & L2 & P2); [done|lia|]. split_and!; [done| |by rewrite P2, P1].
    rewrite <- Nat.negb_odd, L2, L1, negb_involutive, Nat.negb_odd. done. }
  destruct (H 0) as (B & L & _); [unfold week; lia|]. split; [apply B|]. split; [done|].
  intros t Ht. destruct (H t Ht) as (_ & _ & P). rewrite !covered_parity by (done || apply B). rewrite P.
  by destruct (Nat.odd (passed t l)).
Qed.

Lemma invert_complement_witness :
  covered 100000 (pairs_of (invert_ranges [0; 86400; 554400; 604800])).
Proof.
  apply (invert_complement [0; 86400; 554400; 604800]).
  - repeat constructor; lia.
  - repeat constructor; unfold week; lia.
  - reflexivity.
  - unfold week. lia.
  - unfold covered. simpl. rewrite !Exists_cons, Exists_nil. unfold inside. simpl. lia.
Defined.

Lemma split_ranges_cover_witness :
  covered 3600 (splitRangesAtEnd [(79200, 21600)] day) ↔ Exists (inside_wrapped 3600) [(79200, 21600)].
Proof.
  apply (split_ranges_cover [(79200, 21600)] day).
  - constructor; [unfold day; simpl; lia|constructor].
  - unfold day. lia.
Defined.

Lemma sweep_finds_overlap_witness :
  sweep [(0, 10); (20, 30)] [(12, 15); (29, 40)] = true ↔ ∃ t, covered t [(0, 10); (20, 30)] ∧ covered t [(12, 15); (29, 40)].
Proof.
  apply (sweep_finds_overlap [(0, 10); (20, 30)] [(12, 15); (29, 40)]);
    repeat constructor; unfold nonempty, by_start; simpl; lia.
Defined.

(** A weekly range that ends at the start of the week leaves an empty range
    at 0, at which the sweep stops: it does not overlap the whole week as the
    second argument, although it does as the first. *)
Theorem overlap_misses_after_empty_range :
  let names := map js ["Sun"; "Mon"; "Tue"; "Wed"; "Thu"; "Fri"; "Sat"]%string in
  let always := mkTime [] [] [] false in
  let saturday := mkTime [] [] (js "Sat 10:00 - Sun 00:00") false in
  timeVariablesToWeeklyRanges names [] [] (js "Sat 10:00 - Sun 00:00") false = Ret [0; 0; 554400; 604800] ∧
  rangesOverlap names always saturday = Ret false ∧ rangesOverlap names saturday always = Ret true.
Proof. split_and!; vm_compute; reflexivity. Qed.
