(* ===== verification/Quotas.v ===== *)
(** * The quota page (quotas.js)

    The functions that read and write a quota between the form, the tables of
    addresses and the container, and the commands of the page.  The strings of
    the language pack ([UI], [quotasStr]) are parameters. *)
From S2P Require Import Prelude JsNum JsString JsRegex Uci Ip4 Validate Ip6 Overlap Table Dom Ports Text AddrTable TimeRanges.
Import Ip4 Dom Ports Text TimeRanges Uci.
Open Scope Z_scope.

(** The state of the page: document, tables in the two containers, the edited
    container, [changedIds]. *)
Record quota_page := mkQuotaPage {
  q_doc : document;
  q_ip_table : option table;
  q_ip6_table : option table;
  q_uci : UCIContainer;
  q_changed : gset jstr
}.

(** The page's language pack: [UI] and [quotasStr]. *)
Record quota_strings := mkQuotaStrings { qs_UI : jstr → jstr; qs_quotas : jstr → jstr }.

Module Quotas.

Definition pkg : jstr := js "firewall".

Section page.
Variable strings : quota_strings.
Definition UI (k : string) : jstr := qs_UI strings (js k).
Definition quotasStr (k : string) : jstr := qs_quotas strings (js k).

(** [getSelectedValue]; [None] is [undefined]. *)
Definition selected (d : document) (id : string) : exn (option jstr) :=
  let! r := getSelectedValue (qs_UI strings) d (js id) in Ret (fst r).
Definition selected_is (d : document) (id v : string) : exn bool :=
  let! s := selected d id in Ret (bool_decide (s = Some (js v))).
(** Its text, as [uci.set] stores it. *)
Definition selected_text (d : document) (id : string) : exn jstr :=
  let! s := selected d id in Ret (default (js "undefined") s).

(** ** Days *)
Definition fw_days : list jstr := map js ["sun"; "mon"; "tue"; "wed"; "thu"; "fri"; "sat"]%string.
Definition Fw_days : list jstr := map js ["Sun"; "Mon"; "Tue"; "Wed"; "Thu"; "Fri"; "Sat"]%string.
Definition local_days : list jstr := map (qs_UI strings) Fw_days.

(** The element at the place of [x] in another list. *)
Fixpoint translate (from to : list jstr) (x : jstr) : jstr :=
  match from, to with
  | f :: from', t :: to' => if f =s x then t else translate from' to' x
  | _, _ => x
  end.

(** Each [if] looks at the day as the ones before it left it. *)
Definition dayToi18n (daystrings : jstr) : jstr :=
  join (js ",") (map (fun d =>
    fold_left (fun d '(f, t) => if d =s f then t else d) (zip fw_days local_days) d)
    (split_char 44 daystrings)).

Definition weekly_i18n (weekly_schd : jstr) (from_uci : bool) : jstr :=
  if zlen weekly_schd <? 6 then weekly_schd
  else
    let '(indays, outdays) := if from_uci then (Fw_days, local_days) else (local_days, Fw_days) in
    join (js " ") (map (translate indays outdays) (split_char 32 weekly_schd)).

(** ** Text of the quota table *)
Definition ipToTableSpan (ip : jstr) : list jstr :=
  let ipStr := if ip =s js "ALL_OTHERS_INDIVIDUAL" then quotasStr "OthersOne"
               else if ip =s js "ALL_OTHERS_COMBINED" then quotasStr "OthersAll"
               else if (ip =s js "ALL") || (ip =s []) then quotasStr "All"
               else ip in
  textListToSpanElement (split_re re_comma_sep ipStr) true.

(** Hours, days, weekly ranges and when they are active. *)
Record quota_times := mkTimes { t_hours : jstr; t_days : jstr; t_weekly : jstr; t_active : jstr }.

Definition pieces (s : jstr) : list jstr := if test Validate.re_comma s then split_re re_comma_sep s else [s].

Definition timeParamsToTableSpan (t : quota_times) : list jstr :=
  let textList :=
    if t_active t =s js "always" then [UI "Always"]
    else
      (if t_active t =s js "only" then quotasStr "Only" ++ js ":" else quotasStr "AllExcept" ++ js ":")
      :: (if negb (t_weekly t =s []) then pieces (t_weekly t)
          else (if negb (t_days t =s []) then [dayToi18n (t_days t)] else [])
               ++ (if negb (t_hours t =s []) then pieces (t_hours t) else [])) in
  textListToSpanElement textList false.

Definition re_fraction : re := Eval vm_compute in rx "\.[\d]+".
Definition re_blanks1 : re := Eval vm_compute in rx "[\t ]+".

Definition parse_limit (limStr : jstr) : jstr :=
  if limStr =s [] then quotasStr "NA"
  else replace re_blanks1 [] (replace re_fraction [] (parseBytes (qs_UI strings) (parsePaddedInt limStr) None true 0)).

(** The container is the page's, whatever the first argument of the call. *)
Definition getLimitStrFromUci (uci : UCIContainer) (section : jstr) : jstr :=
  parse_limit (gets uci pkg section (js "combined_limit")) ++ js "/"
  ++ parse_limit (gets uci pkg section (js "ingress_limit")) ++ js "/"
  ++ parse_limit (gets uci pkg section (js "egress_limit")).

(** ** Identifiers *)
Definition re_after_first : re := Eval vm_compute in rx "[\t, ]+.*$".
Definition re_slash1 : re := Eval vm_compute in rx "\/".

Definition suffix (n : nat) : jstr :=
  if (n <? 26)%nat then js "_" ++ substr (js "ABCDEFGHIJKLMNOPQRSTUVWXYZ") (Z.of_nat n) 1
  else js "_Z" ++ str_of_Z (Z.of_nat n - 25).

(** The search for an identifier no quota has: [n] is [suffixCount] when [id] is
    tested.  Every turn but the last finds a quota with the identifier tested,
    and the identifiers differ, so one more turn than there are quotas is
    enough. *)
Fixpoint find_id (fuel : nat) (used : list jstr) (idPrefix id : jstr) (n : nat) : option jstr :=
  match fuel with
  | O => None
  | S f => if bool_decide (id ∈ used) then find_id f used idPrefix (idPrefix ++ suffix n) (S n) else Some id
  end.

Definition quota_ids (uci : UCIContainer) : exn (list jstr) :=
  let! quotaSections := getAllSectionsOfType uci pkg (js "quota") in
  Ret (map (fun s => gets uci pkg s (js "id")) quotaSections).

Definition id_prefix (ip : jstr) : jstr :=
  replace re_slash1 (js "_") (if ip =s [] then js "ALL" else replace re_after_first [] ip).

Definition getIdFromIp (uci : UCIContainer) (ip : jstr) : exn jstr :=
  let! used := quota_ids uci in
  exn_of_option RangeError (find_id (S (length used)) used (id_prefix ip) (id_prefix ip) O).

(** ** Addresses of the form *)
Definition first_column (t : option table) : exn (list jstr) :=
  match t with
  | None => Ret []
  | Some t =>
      let! data := Table.getTableDataArray t true false in
      Table.exn_map (fun r => match head r with Some (DStr s) => Ret s | _ => Raise TypeError end) data
  end.

Definition getIpFromDocument (p : quota_page) : exn jstr :=
  let! s := selected (q_doc p) "applies_to_type" in
  if bool_decide (s = Some (js "all")) then Ret (js "ALL")
  else if bool_decide (s = Some (js "others_combined")) then Ret (js "ALL_OTHERS_COMBINED")
  else if bool_decide (s = Some (js "others_individual")) then Ret (js "ALL_OTHERS_INDIVIDUAL")
  else if bool_decide (s = Some (js "only")) then
    let! l4 := first_column (q_ip_table p) in
    let! l6 := first_column (q_ip6_table p) in
    Ret (join (js ",") (l4 ++ l6))
  else Ret (js "ALL").

(** The addresses of a list by family; a range is classified by its start. *)
Definition split_families (ip : jstr) : list jstr * list jstr :=
  fold_left (fun '(ip4, ip6) g =>
    let start := nth_str (split_char 45 g) 0 in
    if Ip6.isIPv4 start then (ip4 ++ [g], ip6)
    else if Ip6.isIPv6 start then (ip4, ip6 ++ [g]) else (ip4, ip6)) (split_char 44 ip) ([], []).

Definition with_tables (p : quota_page) (d : document) (t4 t6 : option table) : quota_page :=
  mkQuotaPage d t4 t6 (q_uci p) (q_changed p).

(** [addAddressesToTable] from a field, which is emptied whatever the result. *)
Definition fill_table (d : document) (textId tableId : string) (text : jstr) (ipValidType : Z)
    : exn (document * option table) :=
  let! r := AddrTable.addAddressesToTable (UI "Remove") text None (js tableId) false ipValidType in
  let! d := update d (js textId) (set_value []) in
  Ret (d, snd r).

Definition setDocumentIp (p : quota_page) (ip : jstr) : exn quota_page :=
  let ip := if ip =s [] then js "ALL" else ip in
  let! d := update (q_doc p) (js "add_ip") (set_value []) in
  let select v := let! d := setSelectedValue d (js "applies_to_type") (js v) in Ret (with_tables p d None None) in
  if ip =s js "ALL" then select "all"%string
  else if ip =s js "ALL_OTHERS_COMBINED" then select "others_combined"%string
  else if ip =s js "ALL_OTHERS_INDIVIDUAL" then select "others_individual"%string
  else
    let! d := setSelectedValue d (js "applies_to_type") (js "only") in
    let '(ip4, ip6) := split_families ip in
    let! r4 := fill_table d "add_ip" "quota_ip_table" (join (js ",") ip4) 3 in
    let! r6 := fill_table (fst r4) "add_ip6" "quota_ip6_table" (join (js ",") ip6) 6 in
    Ret (with_tables p (fst r6) (snd r4) (snd r6)).

(** ** Times of the form and of the container *)
Definition shown_el (d : document) (container : string) : exn bool :=
  let! e := el d (js container) in Ret (negb (e_display e =s js "none")).

Definition shown_value (d : document) (container field : string) : exn jstr :=
  let! shown := shown_el d container in
  if shown then let! e := el d (js field) in Ret (value e) else Ret [].

Definition checked_days (d : document) : exn (list jstr) :=
  exn_fold (fun dayList day =>
    let! e := el d (js "quota_" ++ day) in Ret (if e_checked e then dayList ++ [day] else dayList)) fw_days [].

Definition getTimeParametersFromDocument (d : document) : exn quota_times :=
  let! hours := shown_value d "active_hours_container" "active_hours" in
  let! weekly := shown_value d "active_weekly_container" "active_weekly" in
  let! shown := shown_el d "active_days_container" in
  let! dayList := (if shown then checked_days d else Ret []) in
  let! active := selected_text d "quota_active" in
  Ret (mkTimes hours (join (js ",") dayList) (weekly_i18n weekly false) active).

Definition times_with (srcUci : UCIContainer) (section : jstr) (prefix active : string) : jstr * jstr * jstr * jstr :=
  let hours := gets srcUci pkg section (js prefix ++ js "_hours") in
  let days := gets srcUci pkg section (js prefix ++ js "_weekdays") in
  let weekly := gets srcUci pkg section (js prefix ++ js "_weekly_ranges") in
  (hours, days, weekly,
   if negb (hours =s []) || negb (days =s []) || negb (weekly =s []) then js active else js "always").

Definition getTimeParametersFromUci (srcUci : UCIContainer) (quotaSection : jstr) (i18ndays : bool) : quota_times :=
  let '(hours, days, weekly, active) := times_with srcUci quotaSection "offpeak" "except" in
  let '(hours, days, weekly, active) :=
    if active =s js "always" then times_with srcUci quotaSection "onpeak" "only" else (hours, days, weekly, active) in
  mkTimes hours (if i18ndays then dayToi18n days else days) (weekly_i18n weekly true) active.

(** ** Limits *)
Definition round_text (multiple : Z) (text : jstr) : jstr :=
  num_toString (round (Num.mul (Int multiple) (parseFloat text))).

Definition getDocumentLimit (d : document) (textId unlimitedSelectId unitSelectId : string) : exn jstr :=
  let! unlimited := selected_is d unlimitedSelectId "unlimited" in
  if unlimited then Ret []
  else
    let! unit := selected d unitSelectId in
    let multiple := if bool_decide (unit = Some (js "TB")) then 1024 ^ 4
                    else if bool_decide (unit = Some (js "GB")) then 1024 ^ 3 else 1024 ^ 2 in
    let! e := el d (js textId) in
    Ret (round_text multiple (value e)).

(** [multiple] is a global of the page that the unit assigns; it is not defined
    before the first unit that matches. *)
Definition getDocumentSpeed (d : document) (multiple : option Z) (containerId textId unitSelectId : string)
    : exn (jstr * option Z) :=
  let! shown := shown_el d containerId in
  if shown then
    let! unit := selected d unitSelectId in
    let multiple := if bool_decide (unit = Some (js "KBytes/s")) then Some 1
                    else if bool_decide (unit = Some (js "MBytes/s")) then Some 1024 else multiple in
    let! m := exn_of_option ReferenceError multiple in
    let! e := el d (js textId) in
    Ret (round_text m (value e), multiple)
  else Ret ([], multiple).

Definition getDocumentMark (d : document) (containerId selectId : string) : exn jstr :=
  let! shown := shown_el d containerId in
  if shown then selected_text d selectId else Ret [].

Definition unit_matches (pb name : jstr) : exn bool :=
  let! r := exn_of_option SyntaxError (parse_re name) in Ret (test r pb).

Definition setDocumentLimit (d : document) (bytes : jstr) (textId unitSelectId : string) : exn document :=
  let n := if bytes =s [] then Int 0 else parseInt bytes in
  let! _ := el d (js textId) in
  if Num.leb n (Int 0) then
    let! d := setSelectedValue d (js unitSelectId) (UI "MB") in
    update d (js textId) (set_value (js "0"))
  else
    let pb := parseBytes (qs_UI strings) n None false 0 in
    let! isGB := unit_matches pb (UI "GBy") in
    let! isTB := unit_matches pb (UI "TBy") in
    let '(unit, k) := if isTB then (UI "TB", 40) else if isGB then (UI "GB", 30) else (UI "MB", 20) in
    let! d := setSelectedValue d (js unitSelectId) unit in
    update d (js textId) (set_value (num_toString (parseFloat (truncateDecimal (div_pow2 n k))))).

Definition setDocumentSpeed (d : document) (kbytes : jstr) (textId unitSelectId : string) : exn document :=
  let defaultUnit := UI "KBs" in
  let! _ := el d (js textId) in
  let! d := setSelectedValue d (js unitSelectId) defaultUnit in
  let n := if kbytes =s [] then Int 0 else parseInt kbytes in
  if Num.leb n (Int 0) then update d (js textId) (set_value (js "0"))
  else
    let splitParsed := split_re re_blanks1 (parseKbytesPerSecond (qs_UI strings) n None) in
    let unitText := default (js "undefined") (splitParsed !! 1%nat) in
    let! d := update d (js textId) (set_value (num_toString (parseFloat (nth_str splitParsed 0)))) in
    setSelectedValue d (js unitSelectId)
      (if unitText =s UI "KBs" then js "KBytes/s" else if unitText =s UI "MBs" then js "MBytes/s" else defaultUnit).

(** ** Storing the form *)

(** The last quota with an identifier. *)
Definition section_of_id (uci : UCIContainer) (id : jstr) : exn jstr :=
  let! sections := getAllSectionsOfType uci pkg (js "quota") in
  Ret (fold_left (fun found s => if gets uci pkg s (js "id") =s id then s else found) sections []).

(** The first name quota_1, quota_2, ... that is free; as many names as there
    are keys, and one, are enough. *)
Fixpoint free_number (fuel : nat) (uci : UCIContainer) (n : Z) : Z :=
  match fuel with
  | O => n
  | S f => if gets uci pkg (js "quota_" ++ str_of_Z n) [] =s [] then n else free_number f uci (n + 1)
  end.
Definition free_section (uci : UCIContainer) : jstr :=
  js "quota_" ++ str_of_Z (free_number (S (length (keys uci))) uci 1).

Definition set1 (uci : UCIContainer) (section : jstr) (option : string) (v : jstr) : UCIContainer :=
  Uci.set uci pkg section (js option) (UStr v) false.
Definition remove1 (uci : UCIContainer) (section : jstr) (option : string) : UCIContainer :=
  fst (Uci.remove uci pkg section (js option)).

(** [updateFun] *)
Definition update_opt (prefixActive : bool) (uci : UCIContainer) (section : jstr) (option : string) (v : jstr) :=
  if prefixActive then set1 uci section option v else remove1 uci section option.

Definition store_times (uci : UCIContainer) (section : jstr) (t : quota_times) : UCIContainer :=
  let off := t_active t =s js "except" in
  let on := t_active t =s js "only" in
  let uci := update_opt off uci section "offpeak_hours" (t_hours t) in
  let uci := update_opt off uci section "offpeak_weekdays" (t_days t) in
  let uci := update_opt off uci section "offpeak_weekly_ranges" (t_weekly t) in
  let uci := update_opt on uci section "onpeak_hours" (t_hours t) in
  let uci := update_opt on uci section "onpeak_weekdays" (t_days t) in
  update_opt on uci section "onpeak_weekly_ranges" (t_weekly t).

Definition or_zero (s : jstr) : jstr := if s =s [] then js "0" else s.

Definition store_reset_time (uci : UCIContainer) (section : jstr) (resetTime : num) : UCIContainer :=
  if Num.gtb resetTime (Int 0) then set1 uci section "reset_time" (num_toString resetTime)
  else remove1 uci section "reset_time".

Definition setUciFromDocument (p : quota_page) (multiple : option Z) (id : jstr) : exn quota_page :=
  let d := q_doc p in
  let! ip := getIpFromDocument p in
  let! id := (if id =s [] then getIdFromIp (q_uci p) ip else Ret id) in
  let! found := section_of_id (q_uci p) id in
  let '(quotaSection, uci) :=
    if found =s []
    then let s := free_section (q_uci p) in (s, Uci.set (q_uci p) pkg s [] (UStr (js "quota")) false)
    else (found, q_uci p) in
  let oldIp := gets uci pkg quotaSection (js "ip") in
  let! changed := (if negb (oldIp =s ip)
                   then let! o := Overlap.testAddrOverlap oldIp ip false in Ret (negb o) else Ret false) in
  let changedIds := if changed then {[id]} ∪ q_changed p else q_changed p in
  let! down := getDocumentLimit d "max_down" "max_down_type" "max_down_unit" in
  let! up := getDocumentLimit d "max_up" "max_up_type" "max_up_unit" in
  let! combined := getDocumentLimit d "max_combined" "max_combined_type" "max_combined_unit" in
  let! upSpeed := getDocumentSpeed d multiple "quota_only_qos_container" "quota_qos_up" "quota_qos_up_unit" in
  let! downSpeed := getDocumentSpeed d (snd upSpeed) "quota_only_qos_container" "quota_qos_down" "quota_qos_down_unit" in
  let! upMark := getDocumentMark d "quota_full_qos_container" "quota_full_qos_up_class" in
  let! downMark := getDocumentMark d "quota_full_qos_container" "quota_full_qos_down_class" in
  let! reset := selected_text d "quota_reset" in
  let! qd := selected_text d "quota_day" in
  let! qh := selected_text d "quota_hour" in
  let! times := getTimeParametersFromDocument d in
  let uci := set1 uci quotaSection "ingress_limit" down in
  let uci := set1 uci quotaSection "egress_limit" up in
  let uci := set1 uci quotaSection "combined_limit" combined in
  let uci := set1 uci quotaSection "exceeded_up_speed" (fst upSpeed) in
  let uci := set1 uci quotaSection "exceeded_down_speed" (fst downSpeed) in
  let uci := set1 uci quotaSection "exceeded_up_class_mark" upMark in
  let uci := set1 uci quotaSection "exceeded_down_class_mark" downMark in
  let uci := set1 uci quotaSection "reset_interval" reset in
  let uci := set1 uci quotaSection "ip" ip in
  let uci := set1 uci quotaSection "id" id in
  let uci := store_reset_time uci quotaSection (Num.add (parseInt (or_zero qd)) (parseInt (or_zero qh))) in
  let uci := store_times uci quotaSection times in
  Ret (mkQuotaPage d (q_ip_table p) (q_ip6_table p) uci changedIds).

(** ** Validation *)
Definition overlap_params (t : quota_times) : time_params :=
  mkTime (t_hours t) (t_days t) (t_weekly t) (t_active t =s js "except").

(** The search for a quota that overlaps in addresses and in time. *)
Definition quota_overlap (p : quota_page) (originalQuotaId ip : jstr) : exn bool :=
  let! quotaSections := getAllSectionsOfType (q_uci p) pkg (js "quota") in
  exn_fold (fun (overlapFound : bool) s =>
    if overlapFound then Ret true
    else if gets (q_uci p) pkg s (js "id") =s originalQuotaId then Ret false
    else
      let! ipOverlap := Overlap.testAddrOverlap (gets (q_uci p) pkg s (js "ip")) ip false in
      if ipOverlap then
        let! sectionTime := getTimeParametersFromDocument (q_doc p) in
        let testTime := getTimeParametersFromUci (q_uci p) s false in
        rangesOverlap local_days (overlap_params sectionTime) (overlap_params testTime)
      else Ret false) quotaSections false.

Definition re_ALL : re := Eval vm_compute in rx "ALL".
Definition re_OTHER : re := Eval vm_compute in rx "OTHER".

(** The validator builds its expression from the names of the days; names that
    are not a valid expression would throw here. *)
Definition weekly_code (s : jstr) : Z :=
  match Validate.validateWeeklyRange local_days s with Ret z => z | Raise _ => 1 end.

Definition quota_fields : list field :=
  map (fun '(i, l, f, v) => mkField (js i) (js l) f 0 (Some (js v)))
    [("max_up", "max_up_label", Validate.validateDecimal, "max_up_container");
     ("max_down", "max_down_label", Validate.validateDecimal, "max_down_container");
     ("max_combined", "max_combined_label", Validate.validateDecimal, "max_combined_container");
     ("active_hours", "quota_active_label", Validate.validateHours, "active_hours_container");
     ("active_weekly", "quota_active_label", weekly_code, "active_weekly_container")]%string.

(** Add the addresses left in the text field, when it is used. *)
Definition add_pending_ips (p : quota_page) (errors : list jstr) : exn (list jstr * quota_page) :=
  let! pending :=
    (if (length errors =? 0)%nat then
       let! only := selected_is (q_doc p) "applies_to_type" "only" in
       if only then let! e := el (q_doc p) (js "add_ip") in Ret (value e) else Ret []
     else Ret []) in
  if negb (pending =s []) then
    let! r := AddrTable.addAddressesToTable (UI "Remove") pending (q_ip_table p) (js "quota_ip_table") false 3 in
    let '(valid, text, t) := r in
    let! d := update (q_doc p) (js "add_ip") (set_value text) in
    Ret (if (valid : bool) then errors else errors ++ [[34] ++ text ++ [34] ++ js " is not a valid IP or IP range"],
         mkQuotaPage d t (q_ip6_table p) (q_uci p) (q_changed p))
  else Ret (errors, p).

Definition validateQuota (p : quota_page) (originalQuotaId originalQuotaIp : jstr) : exn (list jstr * quota_page) :=
  let! r := proofreadFields (qs_UI strings) (q_doc p) quota_fields in
  let p := mkQuotaPage (snd r) (q_ip_table p) (q_ip6_table p) (q_uci p) (q_changed p) in
  let! r := add_pending_ips p (fst r) in
  let '(errors, p) := r in
  match errors with
  | _ :: _ => Ret (errors, p)
  | [] =>
      let! ip := getIpFromDocument p in
      if ip =s [] then Ret ([quotasStr "IPError"], p)
      else
        let! up := selected_is (q_doc p) "max_up_type" "unlimited" in
        let! down := selected_is (q_doc p) "max_down_type" "unlimited" in
        let! combined := selected_is (q_doc p) "max_combined_type" "unlimited" in
        if up && down && combined then Ret ([quotasStr "AllUnlimitedError"], p)
        else if ip =s originalQuotaIp then Ret ([], p)
        else
          let! overlapFound := quota_overlap p originalQuotaId ip in
          Ret (if overlapFound
               then [if negb (test re_ALL ip) then quotasStr "DuplicateRange"
                     else if test re_OTHER ip then quotasStr "OneTimeQuotaError"
                     else quotasStr "OneNetworkQuotaError"]
               else [], p)
  end.

(** ** Editing and removing *)
Definition removeQuotaCallback (p : quota_page) (id : jstr) : exn quota_page :=
  let! sections := getAllSectionsOfType (q_uci p) pkg (js "quota") in
  let! uci := exn_fold (fun uci s => if gets uci pkg s (js "id") =s id then Uci.removeSection uci pkg s else Ret uci)
                sections (q_uci p) in
  Ret (mkQuotaPage (q_doc p) (q_ip_table p) (q_ip6_table p) uci ({[id]} ∪ q_changed p)).

(** The first quota with an identifier, and its addresses. *)
Definition first_section_of_id (uci : UCIContainer) (id : jstr) : exn jstr :=
  let! sections := getAllSectionsOfType uci pkg (js "quota") in
  Ret (default [] (List.find (fun s => gets uci pkg s (js "id") =s id) sections)).

(** [editQuota], without the cells of the table: the errors, or the new page.
    [editIp] is [undefined] when no quota has the identifier. *)
Definition editQuota (p : quota_page) (multiple : option Z) (editId : jstr) : exn (list jstr * quota_page) :=
  let! editSection := first_section_of_id (q_uci p) editId in
  let editIp := if editSection =s [] then js "none" else gets (q_uci p) pkg editSection (js "ip") in
  let! r := validateQuota p editId editIp in
  match fst r with
  | _ :: _ => Ret (fst r, snd r)
  | [] =>
      let! newIp := getIpFromDocument (snd r) in
      let! p := setUciFromDocument (snd r) multiple editId in
      if negb (newIp =s editIp) then
        let! newId := getIdFromIp (q_uci p) newIp in
        let! o := Overlap.testAddrOverlap newIp editIp false in
        Ret ([], mkQuotaPage (q_doc p) (q_ip_table p) (q_ip6_table p) (set1 (q_uci p) editSection "id" newId)
                   (if o then q_changed p else {[newId]} ∪ q_changed p))
      else Ret ([], p)
  end.

(** ** Commands *)
Definition nl : jstr := [10].

(** The quotas that are kept: their identifier, section and whether their box is
    checked come from the table. *)
Definition enable_quotas (uci : UCIContainer) (rows : list (jstr * bool)) (sections : list jstr) : UCIContainer * bool :=
  let section_of id := List.find (fun s => gets uci pkg s (js "id") =s id) (rev sections) in
  fold_left (fun '(u, visible) '(id, checked) =>
    match section_of id with
    | Some s => (set1 u s "enabled" (if checked : bool then js "1" else js "0"), visible || checked)
    | None => (u, visible)
    end) rows (uci, false).

Definition mark_changed (uci : UCIContainer) (changedIds : gset jstr) (sections : list jstr) : UCIContainer :=
  fold_left (fun u s => if bool_decide (gets uci pkg s (js "id") ∈ changedIds)
                        then set1 u s "ignore_backup_at_next_restore" (js "1") else u) sections uci.

Definition saveChanges (uciOriginal : UCIContainer) (p : quota_page) (rows : list (jstr * bool)) : exn jstr :=
  let! allOriginalQuotas := getAllSectionsOfType uciOriginal pkg (js "quota") in
  let! uciOriginal := exn_fold (fun u s => Uci.removeSection u pkg s) allOriginalQuotas uciOriginal in
  let preCommands := map (fun s => js "uci del " ++ pkg ++ js "." ++ s) allOriginalQuotas ++ [js "uci commit"] in
  let! allNewQuotas := getAllSectionsOfType (q_uci p) pkg (js "quota") in
  let uci := mark_changed (q_uci p) (q_changed p) allNewQuotas in
  let '(uci, visible) := enable_quotas uci rows allNewQuotas in
  let quotaUseVisibleCommand :=
    if visible : bool then nl ++ js "uci set gargoyle.status.quotause=" ++ [34] ++ js "225" ++ [34] ++ js " ; uci commit ;" ++ nl
    else nl ++ js "uci del gargoyle.status.quotause ; uci commit ;" ++ nl in
  let script := Uci.getScriptCommands uci uciOriginal in
  let postCommands :=
    [js "sh /usr/lib/gargoyle/restart_firewall.sh";
     js "if [ -d " ++ [34] ++ js "/usr/data/quotas/" ++ [34] ++ js " ] ; then rm -rf /usr/data/quotas/* ; fi ;";
     js "backup_quotas"] in
  Ret (join nl preCommands ++ nl ++ script ++ nl ++ quotaUseVisibleCommand ++ nl ++ join nl postCommands).

(** The commands that reset one counter. *)
Definition buildResetCmd (quotaId : jstr) : jstr :=
  let f := js "/tmp/" ++ quotaId ++ js ".bw" in
  join nl
    [js "bw_get -i " ++ quotaId ++ js " -f " ++ f ++ js " >/dev/null 2>&1";
     js "awk 'BEGIN{FS=OFS=" ++ [34] ++ js "\t" ++ [34] ++ js "} NR==1{print;next} NF{$NF=0} 1' " ++ f ++ js " > " ++ f
       ++ js ".z 2>/dev/null && mv " ++ f ++ js ".z " ++ f ++ js " 2>/dev/null";
     js "bw_set -i " ++ quotaId ++ js " -f " ++ f ++ js " >/dev/null 2>&1";
     js "rm -f " ++ f ++ js " " ++ f ++ js ".z"].

Definition resetQuotaUsage (id : jstr) : jstr :=
  join nl (map buildResetCmd [id ++ js "_egress"; id ++ js "_ingress"; id ++ js "_combined"]).

End page.

End Quotas.
