(* ===== verification/QuotaPage.v ===== *)
(** * The quota page as a whole (quotas.js)

    [Quotas] holds the functions between the form and the settings; this file puts
    them together with the table of the quotas, the lists of the classes of the
    quality of service, the form of a new or edited quota and the windows.  The
    marks of the classes, whether the quality of service is on and the version of
    the traffic control are parameters. *)
From S2P Require Import Prelude JsNum JsString JsRegex Uci Ip4 Validate Ip6 Overlap Table TableFacts TableEdit Dom Modal Ports Text AddrTable TimeRanges Quotas.
Import Ip4 Dom Modal Ports Text Uci Table TableEdit Quotas.
Open Scope Z_scope.

(** The page: its form and edited settings, the table of the quotas, the settings of
    the router, the marks and names of the classes of the two directions and the
    global [multiple]. *)
Record quotas_state := mkQuotas {
  qt_page : quota_page;
  qt_table : option table;
  qt_orig : UCIContainer;
  qt_up : list (jstr * jstr);
  qt_down : list (jstr * jstr);
  qt_multiple : option Z
}.

Module QuotaPage.

Definition rowCheckIndex : nat := 3.

Section page.
Variable strings : quota_strings.
Context (qosMarkList : list (jstr * jstr * jstr)) (fullQosEnabled : bool) (tcInstalled : jstr).
Definition UI : string → jstr := Quotas.UI strings.
Definition quotasStr : string → jstr := Quotas.quotasStr strings.

Definition with_page (q : quotas_state) (p : quota_page) : quotas_state :=
  mkQuotas p (qt_table q) (qt_orig q) (qt_up q) (qt_down q) (qt_multiple q).
Definition with_table (q : quotas_state) (t : option table) : quotas_state :=
  mkQuotas (qt_page q) t (qt_orig q) (qt_up q) (qt_down q) (qt_multiple q).
Definition with_multiple (q : quotas_state) (m : option Z) : quotas_state :=
  mkQuotas (qt_page q) (qt_table q) (qt_orig q) (qt_up q) (qt_down q) m.

Definition page_doc (p : quota_page) (d : document) : quota_page :=
  mkQuotaPage d (q_ip_table p) (q_ip6_table p) (q_uci p) (q_changed p).
Definition page_uci (p : quota_page) (u : UCIContainer) : quota_page :=
  mkQuotaPage (q_doc p) (q_ip_table p) (q_ip6_table p) u (q_changed p).

(** ** Visibility *)
Definition hide_if (d : document) (selectId : string) (values : list string) (container mode : string) : exn document :=
  setInvisibleIfIdMatches (qs_UI strings) d (js selectId) (map js values) (js container) (js mode).

Definition show_if (d : document) (id : string) (shown : bool) : exn document :=
  update d (js id) (set_display (if shown then js "block" else js "none")).

(** The suffix of a day of the month: 1st, 2nd, 3rd, 4th and so on. *)
Definition day_suffix (day : Z) : jstr :=
  let lastDigit := day mod 10 in
  let suffix := quotasStr "Digs" in
  let suffix := if negb (day mod 100 =? 11) && (lastDigit =? 1) then quotasStr "LD1s" else suffix in
  let suffix := if negb (day mod 100 =? 12) && (lastDigit =? 2) then quotasStr "LD2s" else suffix in
  if negb (day mod 100 =? 13) && (lastDigit =? 3) then quotasStr "LD3s" else suffix.

Definition month_days : list Z := map Z.of_nat (seq 1 28).
Definition month_values : list jstr := map (fun day => str_of_Z ((day - 1) * 86400)) month_days.
Definition month_names : list jstr := map (fun day => str_of_Z day ++ day_suffix day) month_days.
Definition week_values : list jstr := map (fun i => str_of_Z (Z.of_nat i * 86400)) (seq 0 7).
Definition week_names : list jstr :=
  map (fun k => qs_UI strings (js k)) ["Sunday"; "Monday"; "Tuesday"; "Wednesday"; "Thursday"; "Friday"; "Saturday"]%string.

Definition disable_if_present (d : document) (id : jstr) (disabled : bool) : document :=
  match getElementById d id with Some e => put d id (set_disabled disabled e) | None => d end.

Definition set_reset_days (d : document) : exn document :=
  let! qri := selected strings d "quota_reset" in
  let! d := (if bool_decide (qri = Some (js "month"))
             then setAllowableSelections (qs_UI strings) d (js "quota_day") (Some month_values) (Some month_names) else Ret d) in
  if bool_decide (qri = Some (js "week"))
  then setAllowableSelections (qs_UI strings) d (js "quota_day") (Some week_values) (Some week_names) else Ret d.

(** Without the traffic control only a cut-off can be saved. *)
Definition require_tc (d : document) : exn document :=
  if tcInstalled =s [] then
    let! e := el d (js "quota_exceeded") in
    let isHardCutoff := value e =s js "hard_cutoff" in
    let! d := show_if d "quotas_no_tc" (negb isHardCutoff) in
    Ret (disable_if_present (disable_if_present d (js "add_quota_button") (negb isHardCutoff)) (js "quotas_edit_save_button") (negb isHardCutoff))
  else Ret d.

Definition setVisibility (d : document) : exn document :=
  let everyone := ["all"; "others_combined"; "others_individual"]%string in
  let! d := hide_if d "applies_to_type" everyone "quota_ip_container" "inline" in
  let! d := hide_if d "applies_to_type" everyone "quota_ip6_container" "inline" in
  let! d := hide_if d "quota_reset" ["hour"; "day"; "never"] "quota_day_container" "block" in
  let! d := hide_if d "quota_reset" ["hour"; "never"] "quota_hour_container" "block" in
  let! d := hide_if d "max_up_type" ["unlimited"] "max_up_container" "inline" in
  let! d := hide_if d "max_down_type" ["unlimited"] "max_down_container" "inline" in
  let! d := hide_if d "max_combined_type" ["unlimited"] "max_combined_container" "inline" in
  let! d := hide_if d "quota_active" ["always"] "quota_active_type" "inline" in
  let! d := hide_if d "quota_active" ["always"] "quota_active_controls_container" "block" in
  let! always := selected_is strings d "quota_active" "always" in
  let! d := (if negb always then
      let! d := hide_if d "quota_active_type" ["days"; "weekly_range"] "active_hours_container" "block" in
      let! d := hide_if d "quota_active_type" ["hours"; "weekly_range"] "active_days_container" "block" in
      hide_if d "quota_active_type" ["hours"; "days"; "days_and_hours"] "active_weekly_container" "block"
    else
      let! d := hide_if d "quota_active" ["always"] "active_hours_container" "block" in
      let! d := hide_if d "quota_active" ["always"] "active_days_container" "block" in
      hide_if d "quota_active" ["always"] "active_weekly_container" "block") in
  let! d := hide_if d "quota_exceeded" ["hard_cutoff"] "quota_only_qos_container" "block" in
  let! d := hide_if d "quota_exceeded" ["hard_cutoff"] "quota_full_qos_container" "block" in
  let! d := update d (js (if fullQosEnabled then "quota_only_qos_container" else "quota_full_qos_container")) (set_display (js "none")) in
  let! d := set_reset_days d in
  require_tc d.

(** ** From the settings to the form *)
Definition check_days (d : document) (days : jstr) : exn document :=
  let dayList := if days =s [] then fw_days else split_char 44 days in
  exn_fold (fun d day => update d (js "quota_" ++ day) (set_checked (bool_decide (day ∈ dayList)))) fw_days d.

(** The kind of times: hours, days or both, or weekly ranges. *)
Definition active_type (t : quota_times) : string :=
  match negb (t_hours t =s []), negb (t_days t =s []), negb (t_weekly t =s []) with
  | _, false, false => "hours"
  | false, true, false => "days"
  | true, true, false => "days_and_hours"
  | _, _, true => "weekly_range"
  end.

Definition on_integer (f : Z → Z) (n : num) : num := match n with Dec z 0 => Int (f z) | _ => NaN end.

Definition set_times (d : document) (t : quota_times) : exn document :=
  let! d := check_days d (t_days t) in
  let! d := update d (js "active_hours") (set_value (t_hours t)) in
  let! d := update d (js "active_weekly") (set_value (t_weekly t)) in
  let! d := setSelectedValue d (js "quota_active") (t_active t) in
  if t_active t =s js "always" then Ret d else setSelectedValue d (js "quota_active_type") (js (active_type t)).

Definition set_limit (d : document) (limit : jstr) (textId : string) : exn document :=
  setSelectedValue d (js textId ++ js "_type") (if limit =s [] then js "unlimited" else js "limited").

Definition set_marks (q : quotas_state) (d : document) (upMark downMark : jstr) : exn document :=
  if fullQosEnabled then
    let! d := setAllowableSelections (qs_UI strings) d (js "quota_full_qos_up_class") (Some (map fst (qt_up q))) (Some (map snd (qt_up q))) in
    let! d := setAllowableSelections (qs_UI strings) d (js "quota_full_qos_down_class") (Some (map fst (qt_down q))) (Some (map snd (qt_down q))) in
    if negb (upMark =s []) && negb (downMark =s []) then
      let! d := setSelectedValue d (js "quota_full_qos_up_class") upMark in
      setSelectedValue d (js "quota_full_qos_down_class") downMark
    else Ret d
  else Ret d.

Definition setDocumentFromUci (q : quotas_state) (srcUci : UCIContainer) (id : jstr) : exn quotas_state :=
  let! quotaSection := first_section_of_id srcUci id in
  let opt o := gets srcUci pkg quotaSection (js o) in
  let ip := if opt "ip" =s [] then js "ALL" else opt "ip"%string in
  let interval := opt "reset_interval" in
  let resetInterval := if (interval =s []) || (interval =s js "minute") then js "day" else interval in
  let offset := if opt "reset_time" =s [] then Int 0 else parseInt (opt "reset_time"%string) in
  let up := opt "egress_limit" in
  let down := opt "ingress_limit" in
  let combined := opt "combined_limit" in
  let upSpeed := opt "exceeded_up_speed" in
  let downSpeed := opt "exceeded_down_speed" in
  let upMark := opt "exceeded_up_class_mark" in
  let downMark := opt "exceeded_down_class_mark" in
  let! p := setDocumentIp strings (qt_page q) ip in
  let! d := setSelectedValue (q_doc p) (js "quota_reset") resetInterval in
  let! d := set_times d (getTimeParametersFromUci strings srcUci quotaSection false) in
  let! d := set_limit d up "max_up" in
  let! d := set_limit d down "max_down" in
  let! d := set_limit d combined "max_combined" in
  let! d := setDocumentLimit strings d up "max_up" "max_up_unit" in
  let! d := setDocumentLimit strings d down "max_down" "max_down_unit" in
  let! d := setDocumentLimit strings d combined "max_combined" "max_combined_unit" in
  let given a b := negb (a =s []) && negb (b =s []) in
  let throttle := (given upSpeed downSpeed && negb fullQosEnabled) || (given upMark downMark && fullQosEnabled) in
  let! d := setSelectedValue d (js "quota_exceeded") (if throttle then js "throttle" else js "hard_cutoff") in
  let! d := setDocumentSpeed strings d upSpeed "quota_qos_up" "quota_qos_up_unit" in
  let! d := setDocumentSpeed strings d downSpeed "quota_qos_down" "quota_qos_down_unit" in
  let! d := setVisibility d in
  let! d := setSelectedValue d (js "quota_day") (num_toString (on_integer TimeRanges.getDaySeconds offset)) in
  let! d := setSelectedValue d (js "quota_hour") (num_toString (on_integer TimeRanges.getHourSeconds offset)) in
  let! d := set_marks q d upMark downMark in
  Ret (with_page q (page_doc p d)).

(** ** The table *)
Definition span (lines : list jstr) : datum := DObj (MkWidget [] [] false [] false [] lines).

Definition createEnabledCheckbox (enabled : bool) : widget := mkWidget (js "checkbox") [] false [] enabled.
Definition set_id (id : jstr) (w : widget) : widget :=
  MkWidget (w_type w) (w_html w) (w_disabled w) (w_class w) (w_checked w) id (w_lines w).
Definition createEditButton (enabled : bool) : widget :=
  enable_button enabled (mkWidget (js "button") (UI "Edit") false (js "btn btn-default btn-edit") false).

Definition quota_row (ip : jstr) (times : quota_times) (limitStr id : jstr) (enabled : bool) : list datum :=
  [span (ipToTableSpan strings ip); span (timeParamsToTableSpan strings times); DStr limitStr;
   DObj (set_id id (createEnabledCheckbox enabled)); DObj (createEditButton enabled)].

(** ** Loading *)
Definition class_of_mark (orig : UCIContainer) (m : jstr * jstr * jstr) : jstr * jstr :=
  let '(_, className, mark) := m in
  let classDisplay := gets orig (js "qos_gargoyle") className (js "name") in
  (mark, if classDisplay =s [] then className else classDisplay).

Definition is_upload (m : jstr * jstr * jstr) : bool := fst (fst m) =s js "upload".

(** A quota without an identifier gets one in the edited settings. *)
Definition load_quota (orig : UCIContainer) (st : UCIContainer * list (list datum)) (s : jstr) : exn (UCIContainer * list (list datum)) :=
  let '(uci, rows) := st in
  let ip := toUpperCase (gets orig pkg s (js "ip")) in
  let id := gets orig pkg s (js "id") in
  let! new_id := (if id =s [] then getIdFromIp uci ip else Ret id) in
  let uci := if id =s [] then set1 uci s "id" new_id else uci in
  let enabled := negb (gets orig pkg s (js "enabled") =s js "0") in
  Ret (uci, rows ++ [quota_row ip (getTimeParametersFromUci strings uci s true) (getLimitStrFromUci strings uci s) new_id enabled]).

Definition quota_columns : list datum :=
  [DStr (quotasStr "IPs"); DStr (quotasStr "Active"); span (textListToSpanElement [quotasStr "Limits"; quotasStr "Totals"] false);
   DStr (UI "Enabled"); DStr []].

Definition resetData (q : quotas_state) : exn quotas_state :=
  let orig := qt_orig q in
  let up := map (class_of_mark orig) (List.filter is_upload qosMarkList) in
  let down := map (class_of_mark orig) (List.filter (fun m => negb (is_upload m)) qosMarkList) in
  let! quotaSections := getAllSectionsOfType orig pkg (js "quota") in
  let! r := exn_fold (load_quota orig) quotaSections (q_uci (qt_page q), []) in
  let t := createTable (UI "Remove") quota_columns (snd r) (js "quota_table") true false in
  let p := mkQuotaPage (q_doc (qt_page q)) (q_ip_table (qt_page q)) (q_ip6_table (qt_page q)) (fst r) ∅ in
  let! q := setDocumentFromUci (mkQuotas p (Some t) orig up down (qt_multiple q)) new [] in
  let! d := setVisibility (q_doc (qt_page q)) in
  Ret (with_page q (page_doc (qt_page q) d)).

(** ** Adding *)

(** What [getDocumentSpeed] leaves in the global [multiple]. *)
Definition multiple_after (d : document) (multiple : option Z) : exn (option Z) :=
  let! up := getDocumentSpeed strings d multiple "quota_only_qos_container" "quota_qos_up" "quota_qos_up_unit" in
  let! down := getDocumentSpeed strings d (snd up) "quota_only_qos_container" "quota_qos_down" "quota_qos_down_unit" in
  Ret (snd down).

Definition show_errors (q : quotas_state) (p : quota_page) (errors : list jstr) (message : string) : quotas_state :=
  with_page q (page_doc p (alert (q_doc p) (join nl errors ++ nl ++ quotasStr message))).

Definition addNewQuota (q : quotas_state) : exn quotas_state :=
  let! r := validateQuota strings (qt_page q) [] (js "none") in
  let '(errors, p) := r in
  if negb (length errors =? 0)%nat then Ret (show_errors q p errors "AddError")
  else
    let s := free_section (q_uci p) in
    let! p := setUciFromDocument strings p (qt_multiple q) [] in
    let! m := multiple_after (q_doc p) (qt_multiple q) in
    let id := gets (q_uci p) pkg s (js "id") in
    let! t := exn_of_option TypeError (qt_table q) in
    let! ip := getIpFromDocument strings p in
    let row := quota_row ip (getTimeParametersFromUci strings (q_uci p) s false) (getLimitStrFromUci strings (q_uci p) s) id true in
    let t := addTableRow (UI "Remove") t row true false in
    setDocumentFromUci (with_multiple (with_table (with_page q p) (Some t)) m) new [].

(** ** The row of a quota *)

(** A click changes the box, then [setRowEnabled] runs: the text "0" counts as true,
    and the identifier is taken for the name of a section. *)
Definition setRowEnabled (q : quotas_state) (row : nat) : exn quotas_state :=
  let! t := exn_of_option TypeError (qt_table q) in
  let! r := body_row t row in
  let! w := cell_widget r rowCheckIndex in
  let checked := negb (w_checked w) in
  let! r := set_widget rowCheckIndex (check_widget checked) r in
  let! r := set_widget (S rowCheckIndex) (enable_button true) r in
  let ids := split_char 46 (w_id w) in
  let enabled := if checked then js "1" else js "0" in
  let store uci i :=
    let s := default (js "undefined") (ids !! i) in
    if gets uci pkg s [] =s [] then uci else set1 uci s "enabled" enabled in
  let uci := store (store (q_uci (qt_page q)) 0%nat) 1%nat in
  Ret (with_table (with_page q (page_uci (qt_page q) uci)) (Some (set_body_row t row r))).

(** The button of a row removes the row, then its quota. *)
Definition removeQuota (q : quotas_state) (row : nat) : exn quotas_state :=
  let! t := exn_of_option TypeError (qt_table q) in
  let! r := body_row t row in
  let! w := cell_widget r rowCheckIndex in
  let! t := removeThisCellsRow t row in
  let! p := removeQuotaCallback (qt_page q) (w_id w) in
  Ret (with_table (with_page q p) (Some t)).

(** [setElementAtColumn] *)
Definition set_element (col : nat) (x : datum) (r : row) : exn row :=
  let! c := exn_of_option TypeError (r_cells r !! col) in
  match x with
  | DObj w => Ret (mkRow (r_id r) (r_class r) (r_display r) (<[col := mkCell (c_class c) [Elem w]]> (r_cells r)))
  | DStr s => Ret (mkRow (r_id r) (r_class r) (r_display r) (<[col := mkCell (c_class c) [Table.Text s]]> (r_cells r)))
  end.

(** [editQuota] of [Quotas] with the cells of the row. *)
Definition editQuotaRow (q : quotas_state) (row : nat) (editId : jstr) : exn quotas_state :=
  let! editSection := first_section_of_id (q_uci (qt_page q)) editId in
  let editIp := if editSection =s [] then js "none" else gets (q_uci (qt_page q)) pkg editSection (js "ip") in
  let! r := editQuota strings (qt_page q) (qt_multiple q) editId in
  let '(errors, p) := r in
  if negb (length errors =? 0)%nat then Ret (show_errors q p errors "QuotaAddError")
  else
    let! m := multiple_after (q_doc p) (qt_multiple q) in
    let! t := exn_of_option TypeError (qt_table q) in
    let! newIp := getIpFromDocument strings p in
    let! er := body_row t row in
    let! er := (if negb (newIp =s editIp) then
        let! er := set_element 0 (span (ipToTableSpan strings newIp)) er in
        set_widget rowCheckIndex (set_id (gets (q_uci p) pkg editSection (js "id"))) er
      else Ret er) in
    let! er := set_element 1 (span (timeParamsToTableSpan strings (getTimeParametersFromUci strings (q_uci p) editSection true))) er in
    let! er := set_row_data 2 (getLimitStrFromUci strings (q_uci p) editSection) er in
    Ret (with_multiple (with_table (with_page q p) (Some (set_body_row t row er))) m).

(** ** Windows *)
Definition addQuotaModal (q : quotas_state) : exn quotas_state :=
  let! q := setDocumentFromUci q new [] in
  let! d := setVisibility (q_doc (qt_page q)) in
  Ret (with_page q (page_doc (qt_page q) (modalPrepare d []))).

Definition editQuotaModal (q : quotas_state) (editRow : row) : exn quotas_state :=
  let! w := cell_widget editRow rowCheckIndex in
  let! q := setDocumentFromUci q (q_uci (qt_page q)) (w_id w) in
  Ret (with_page q (page_doc (qt_page q) (modalPrepare (q_doc (qt_page q)) []))).

(** ** Saving *)

(** The boxes of the table. *)
Definition quota_boxes (t : table) : exn (list (jstr * bool)) :=
  let! data := getTableDataArray t true false in
  exn_map (fun row => match row !! rowCheckIndex with Some (DObj w) => Ret (w_id w, w_checked w) | _ => Raise TypeError end) data.

Definition save (q : quotas_state) : exn jstr :=
  let! t := exn_of_option TypeError (qt_table q) in
  let! rows := quota_boxes t in
  saveChanges (qt_orig q) (qt_page q) rows.

End page.
End QuotaPage.
