(* ===== verification/QuotaFacts.v ===== *)
(** * Properties of the quota page *)
From S2P Require Import Prelude JsNum JsString JsRegex Uci UciFacts Ip4Facts Dom Ports Text TimeRanges Quotas.
Import Quotas Ports.
Open Scope Z_scope.

(** ** New identifiers *)
Section identifiers.

(** The identifiers that are tried. *)
Definition nth_id (prefix : jstr) (n : nat) : jstr :=
  match n with O => prefix | S m => prefix ++ suffix m end.

Lemma letter (m : nat) : (m < 26)%nat → substr (js "ABCDEFGHIJKLMNOPQRSTUVWXYZ") (Z.of_nat m) 1 = [65 + Z.of_nat m].
Proof.
  intros Hm. do 26 (destruct m as [|m]; [reflexivity|]). lia.
Qed.

Lemma str_of_Z_ne a : 0 <= a → str_of_Z a ≠ [].
Proof. intros Ha. apply (str_of_Z_numeral a Ha). Qed.

Lemma suffix_inj m n : suffix m = suffix n → m = n.
Proof.
  unfold suffix. destruct (Nat.ltb_spec m 26), (Nat.ltb_spec n 26); rewrite ?letter by done; intros E.
  - injection E as E. lia.
  - exfalso. injection E as _ E. symmetry in E. apply str_of_Z_ne in E; [done|lia].
  - exfalso. injection E as _ E. apply str_of_Z_ne in E; [done|lia].
  - injection E as E. apply str_of_Z_inj in E; lia.
Qed.

Lemma suffix_ne m : suffix m ≠ [].
Proof. unfold suffix. by destruct (m <? 26)%nat. Qed.

Lemma nth_id_inj prefix m n : nth_id prefix m = nth_id prefix n → m = n.
Proof.
  destruct m as [|m], n as [|n]; simpl; [done| | |].
  - intros E. exfalso. rewrite <- (app_nil_r prefix) in E at 1. apply app_inv_head in E. by apply (suffix_ne n).
  - intros E. exfalso. rewrite <- (app_nil_r prefix) in E. rewrite <- app_assoc in E. apply app_inv_head in E.
    rewrite app_nil_l in E. by apply (suffix_ne m).
  - intros E%app_inv_head%suffix_inj. lia.
Qed.

Lemma find_id_spec fuel used prefix n :
  match find_id fuel used prefix (nth_id prefix n) n with
  | Some id => (id ∉ used) ∧ (∃ m, (n ≤ m)%nat ∧ id = nth_id prefix m ∧ ∀ j, (n ≤ j < m)%nat → nth_id prefix j ∈ used)
  | None => ∀ m, (n ≤ m)%nat ∧ (m < n + fuel)%nat → nth_id prefix m ∈ used
  end.
Proof.
  revert n. induction fuel as [|f IH]; intros n; cbn [find_id]; [intros; lia|].
  case_bool_decide as Hin; [|split; [done|]; exists n; split_and!; [done..|intros; lia]].
  specialize (IH (S n)). change (prefix ++ suffix n) with (nth_id prefix (S n)).
  destruct (find_id f used prefix (nth_id prefix (S n)) (S n)).
  - destruct IH as (Hi & m & Hm & -> & Hj). split; [done|]. exists m. split_and!; [lia|done|].
    intros j Hjm. destruct (decide (j = n)) as [->|]; [done|]. apply Hj. lia.
  - intros m Hm. destruct (decide (m = n)) as [->|]; [done|]. apply IH. lia.
Qed.

(** More identifiers than there are quotas cannot all be in use. *)
Lemma find_id_total used prefix : ∃ id, find_id (S (length used)) used prefix prefix 0 = Some id ∧ (id ∉ used) ∧
  (∃ m, id = nth_id prefix m ∧ ∀ j, (j < m)%nat → nth_id prefix j ∈ used).
Proof.
  pose proof (find_id_spec (S (length used)) used prefix 0) as H. change (nth_id prefix 0) with prefix in H at 1.
  destruct (find_id _ _ _ _ _) as [id|].
  { destruct H as (Hi & m & _ & E & Hj). exists id. split_and!; [done..|]. exists m. split; [done|]. intros j Hjm. apply Hj. lia. }
  exfalso.
  assert (Hnd : NoDup (map (nth_id prefix) (seq 0 (S (length used))))).
  { apply NoDup_fmap_2; [intros m n; apply nth_id_inj|apply NoDup_seq]. }
  assert (Hsub : map (nth_id prefix) (seq 0 (S (length used))) ⊆ used).
  { intros x (m & -> & Hm%elem_of_seq)%list_elem_of_fmap. apply H. lia. }
  pose proof (NoDup_submseteq _ _ Hnd Hsub) as Hs. apply submseteq_length in Hs.
  rewrite length_map, length_seq in Hs. lia.
Qed.

End identifiers.

(** C37: a new quota gets an identifier that no quota has: on a container whose
    quota sections can be listed, the search of [getIdFromIp] ends, and its
    result is the first candidate that is free: the identifier made from the
    address when no quota has it, and otherwise with the first suffix for which
    none has. *)
Theorem new_quota_id_fresh uci ip sections :
  Uci.getAllSectionsOfType uci pkg (js "quota") = Ret sections →
  ∃ id, getIdFromIp uci ip = Ret id ∧
    (∀ s, s ∈ sections → gets uci pkg s (js "id") ≠ id) ∧
    ∃ m, id = nth_id (id_prefix ip) m ∧
      ∀ j, (j < m)%nat → ∃ s, s ∈ sections ∧ gets uci pkg s (js "id") = nth_id (id_prefix ip) j.
Proof.
  intros Hs. unfold getIdFromIp, quota_ids. rewrite Hs. cbn [exn_bind].
  destruct (find_id_total (map (λ s, gets uci pkg s (js "id")) sections) (id_prefix ip)) as (id & -> & Hf & m & Em & Hm).
  exists id. split_and!; [done| |].
  - intros s Hin E. apply Hf. rewrite <- E. by apply (list_elem_of_fmap_2 (λ s, gets uci pkg s (js "id"))).
  - exists m. split; [done|]. intros j Hj. apply Hm, list_elem_of_fmap in Hj as (s & E & Hs'). eauto.
Qed.

Definition one_quota : Uci.UCIContainer :=
  Uci.set (Uci.set Uci.new pkg (js "quota_1") [] (UStr (js "quota")) false) pkg (js "quota_1") (js "id") (UStr (js "10.0.0.0_8")) false.

Lemma new_quota_id_fresh_witness :
  ∃ id, getIdFromIp one_quota (js "10.0.0.0/8, 11.0.0.0/8") = Ret id ∧
    (∀ s, s ∈ [js "quota_1"] → gets one_quota pkg s (js "id") ≠ id) ∧
    ∃ m, id = nth_id (id_prefix (js "10.0.0.0/8, 11.0.0.0/8")) m ∧
      ∀ j, (j < m)%nat → ∃ s, s ∈ [js "quota_1"] ∧ gets one_quota pkg s (js "id") = nth_id (id_prefix (js "10.0.0.0/8, 11.0.0.0/8")) j.
Proof. apply new_quota_id_fresh. vm_compute. reflexivity. Defined.

(** ** Times *)
Section times.
Variable strings : quota_strings.

(** An option of a section that is not a list. *)
Definition plain (u : UCIContainer) (s : jstr) (o : string) : Prop := Uci.option_key pkg s (js o) ∉ listOptions u.

Definition time_options : list string :=
  ["offpeak_hours"; "offpeak_weekdays"; "offpeak_weekly_ranges"; "onpeak_hours"; "onpeak_weekdays"; "onpeak_weekly_ranges"]%string.

Lemma next_key_ne (s : jstr) (o : string) : js o ≠ [] → Uci.next_key pkg s (js o) = Uci.option_key pkg s (js o).
Proof. apply next_key_option. Qed.

Lemma option_key_eq s (o o' : string) : Uci.option_key pkg s (js o) = Uci.option_key pkg s (js o') ↔ js o = js o'.
Proof.
  unfold Uci.option_key. split; [|by intros ->]. intros E. by do 4 apply app_inv_head in E.
Qed.

Lemma gets_set1 u s o o' v : js o ≠ [] → js o' ≠ [] → plain u s o →
  gets (set1 u s o v) pkg s (js o') = if bool_decide (js o = js o') then v else gets u pkg s (js o').
Proof.
  intros Ho Ho' Hp. unfold gets, set1. rewrite get_set_key, !next_key_ne by done.
  rewrite (bool_decide_ext _ _ (option_key_eq s o o')). case_bool_decide; [|done].
  rewrite bool_decide_eq_false_2 by done. done.
Qed.

Lemma gets_remove1 u s o o' : wf u → js o ≠ [] → js o' ≠ [] →
  gets (remove1 u s o) pkg s (js o') = if bool_decide (js o = js o') then [] else gets u pkg s (js o').
Proof.
  intros Hu Ho Ho'. unfold gets, remove1. rewrite remove_spec by done. simpl. unfold Uci.get, remove_key. simpl.
  rewrite !next_key_ne by done. case_bool_decide as E.
  - rewrite E, lookup_delete_eq. done.
  - rewrite lookup_delete_ne; [done|]. by rewrite option_key_eq.
Qed.

Lemma set1_wf u s o v : wf u → wf (set1 u s o v).
Proof. apply set_wf. Qed.
Lemma remove1_wf u s o : wf u → wf (remove1 u s o).
Proof. apply remove_wf. Qed.

Lemma plain_set1 u s o o' v : plain u s o' → plain (set1 u s o v) s o'.
Proof. unfold plain, set1. by rewrite set_listOptions. Qed.
Lemma plain_remove1 u s o o' : wf u → plain u s o' → plain (remove1 u s o) s o'.
Proof. unfold plain, remove1. intros Hu. rewrite remove_spec by done. simpl. set_solver. Qed.

Lemma update_opt_spec b u s o v : wf u → js o ≠ [] → (∀ o', o' ∈ time_options → plain u s o') → o ∈ time_options →
  let u' := update_opt b u s o v in
  wf u' ∧ (∀ o', o' ∈ time_options → plain u' s o') ∧
  ∀ o', js o' ≠ [] → gets u' pkg s (js o') = if bool_decide (js o = js o') then (if b then v else []) else gets u pkg s (js o').
Proof.
  intros Hu Ho Hp Hin. unfold update_opt. destruct b; split_and!.
  - by apply set1_wf.
  - intros. by apply plain_set1, Hp.
  - intros o' Ho'. by apply gets_set1, Hp.
  - by apply remove1_wf.
  - intros. by apply plain_remove1, Hp.
  - intros o' Ho'. by apply gets_remove1.
Qed.

End times.

Section stored.

(** The options of the section after [store_times]. *)
Lemma store_times_gets u s t : wf u → (∀ o, o ∈ time_options → plain u s o) →
  let u' := store_times u s t in
  let off v := if t_active t =s js "except" then v else [] in
  let on v := if t_active t =s js "only" then v else [] in
  gets u' pkg s (js "offpeak_hours") = off (t_hours t) ∧ gets u' pkg s (js "offpeak_weekdays") = off (t_days t) ∧
  gets u' pkg s (js "offpeak_weekly_ranges") = off (t_weekly t) ∧ gets u' pkg s (js "onpeak_hours") = on (t_hours t) ∧
  gets u' pkg s (js "onpeak_weekdays") = on (t_days t) ∧ gets u' pkg s (js "onpeak_weekly_ranges") = on (t_weekly t) ∧
  ∀ o, js o ≠ [] → Forall (λ o', js o' ≠ js o) time_options → gets u' pkg s (js o) = gets u pkg s (js o).
Proof.
  intros Hu Hp. unfold store_times. cbv zeta.
  set (off := t_active t =s js "except"). set (on := t_active t =s js "only").
  destruct (update_opt_spec off u s "offpeak_hours" (t_hours t)) as (W1 & P1 & G1); [done|done|done|set_solver|].
  set (u1 := update_opt off u s "offpeak_hours" (t_hours t)) in *. clearbody u1.
  destruct (update_opt_spec off u1 s "offpeak_weekdays" (t_days t)) as (W2 & P2 & G2); [done|done|done|set_solver|].
  set (u2 := update_opt off u1 s "offpeak_weekdays" (t_days t)) in *. clearbody u2.
  destruct (update_opt_spec off u2 s "offpeak_weekly_ranges" (t_weekly t)) as (W3 & P3 & G3); [done|done|done|set_solver|].
  set (u3 := update_opt off u2 s "offpeak_weekly_ranges" (t_weekly t)) in *. clearbody u3.
  destruct (update_opt_spec on u3 s "onpeak_hours" (t_hours t)) as (W4 & P4 & G4); [done|done|done|set_solver|].
  set (u4 := update_opt on u3 s "onpeak_hours" (t_hours t)) in *. clearbody u4.
  destruct (update_opt_spec on u4 s "onpeak_weekdays" (t_days t)) as (W5 & P5 & G5); [done|done|done|set_solver|].
  set (u5 := update_opt on u4 s "onpeak_weekdays" (t_days t)) in *. clearbody u5.
  destruct (update_opt_spec on u5 s "onpeak_weekly_ranges" (t_weekly t)) as (W6 & P6 & G6); [done|done|done|set_solver|].
  set (u6 := update_opt on u5 s "onpeak_weekly_ranges" (t_weekly t)) in *. clearbody u6.
  split_and!; [rewrite G6, G5, G4, G3, G2, G1 by done; reflexivity..|].
  intros o Ho Hne. unfold time_options in Hne. rewrite !Forall_cons in Hne. destruct Hne as (? & ? & ? & ? & ? & ? & _).
  rewrite G6, G5, G4, G3, G2, G1 by done. by rewrite !bool_decide_eq_false_2.
Qed.

End stored.

(** C36: the active times of a quota are read back as they were stored, and the
    other options of the section are kept: after [store_times] of times that are
    excepted, exclusive or always, [getTimeParametersFromUci] returns the hours,
    days and (translated) weekly ranges with the same mode, or "always" with
    empty fields when the times are always active or all empty. *)
Theorem quota_times_roundtrip strings u s t :
  wf u → (∀ o, o ∈ time_options → plain u s o) →
  t_active t = js "except" ∨ t_active t = js "only" ∨ t_active t = js "always" →
  getTimeParametersFromUci strings (store_times u s t) s false =
    (if (t_active t =s js "always") || ((t_hours t =s []) && (t_days t =s []) && (t_weekly t =s []))
     then mkTimes [] [] [] (js "always")
     else mkTimes (t_hours t) (t_days t) (weekly_i18n strings (t_weekly t) true) (t_active t)) ∧
  ∀ o, js o ≠ [] → Forall (λ o', js o' ≠ js o) time_options → gets (store_times u s t) pkg s (js o) = gets u pkg s (js o).
Proof.
  intros Hu Hp Ha. destruct (store_times_gets u s t Hu Hp) as (E1 & E2 & E3 & E4 & E5 & E6 & Hf). split; [|done].
  unfold getTimeParametersFromUci, times_with.
  change (js "offpeak" ++ js "_hours") with (js "offpeak_hours"). change (js "offpeak" ++ js "_weekdays") with (js "offpeak_weekdays").
  change (js "offpeak" ++ js "_weekly_ranges") with (js "offpeak_weekly_ranges").
  change (js "onpeak" ++ js "_hours") with (js "onpeak_hours"). change (js "onpeak" ++ js "_weekdays") with (js "onpeak_weekdays").
  change (js "onpeak" ++ js "_weekly_ranges") with (js "onpeak_weekly_ranges").
  rewrite E1, E2, E3, E4, E5, E6. clear E1 E2 E3 E4 E5 E6 Hf.
  assert (Hw : weekly_i18n strings [] true = []) by done.
  destruct Ha as [-> | [-> | ->]].
  - change (js "except" =s js "except") with true. change (js "except" =s js "only") with false. change (js "except" =s js "always") with false.
    cbv iota. destruct (t_hours t =s []) eqn:Eh, (t_days t =s []) eqn:Ed, (t_weekly t =s []) eqn:Ew; cbn [negb orb andb]; cbv iota; try done.
  - change (js "only" =s js "except") with false. change (js "only" =s js "only") with true. change (js "only" =s js "always") with false.
    cbv iota. change ([] =s []) with true. cbn [negb orb]. change (js "always" =s js "always") with true. cbv iota.
    destruct (t_hours t =s []) eqn:Eh, (t_days t =s []) eqn:Ed, (t_weekly t =s []) eqn:Ew; cbn [negb orb andb]; cbv iota; try done.
    apply str_eqb_eq in Eh, Ed, Ew. by rewrite Eh, Ed, Ew.
  - done.
Qed.

Lemma quota_times_roundtrip_witness :
  getTimeParametersFromUci (mkQuotaStrings id id)
    (store_times (Uci.set Uci.new pkg (js "q1") [] (UStr (js "quota")) false) (js "q1")
       (mkTimes (js "10:00-12:00") (js "mon,tue") [] (js "only"))) (js "q1") false =
  mkTimes (js "10:00-12:00") (js "mon,tue") [] (js "only").
Proof.
  apply (quota_times_roundtrip (mkQuotaStrings id id) (Uci.set Uci.new pkg (js "q1") [] (UStr (js "quota")) false) (js "q1")
    (mkTimes (js "10:00-12:00") (js "mon,tue") [] (js "only"))).
  - apply set_wf, new_wf.
  - intros o _. unfold plain. rewrite set_listOptions. apply not_elem_of_empty.
  - by right; left.
Defined.

(** ** Translation of the days *)
Section days.
Variable strings : quota_strings.

Lemma translate_back from to x : length from = length to → NoDup from → NoDup to →
  x ∈ from ∨ x ∉ to → translate to from (translate from to x) = x.
Proof.
  revert to. induction from as [|f from IH]; intros [|t to] Hlen Hnf Hnt Hx; try done.
  apply NoDup_cons in Hnf as [Hf Hnf]. apply NoDup_cons in Hnt as [Ht Hnt]. simpl in Hlen. simpl.
  assert (Hres : ∀ y, translate from to y ∈ to ∨ translate from to y = y).
  { clear. revert to. induction from as [|f from IH]; intros [|t to] y; simpl; auto.
    destruct (f =s y); [left; by left|]. destruct (IH to y) as [H|H]; [left; by right|by right]. }
  destruct (f =s x) eqn:E.
  - apply str_eqb_eq in E as ->. by rewrite str_eqb_refl.
  - apply str_eqb_neq in E. destruct (t =s translate from to x) eqn:E2.
    + exfalso. apply str_eqb_eq in E2. destruct (Hres x) as [H|H]; [by rewrite <- E2 in H|].
      rewrite H in E2. subst t. destruct Hx as [Hx|Hx]; [|apply Hx; by left].
      apply elem_of_cons in Hx as [->|Hx]; [done|].
      assert (translate from to x ∈ to) as Hin; [|by rewrite H in Hin].
      clear -Hx Hlen. injection Hlen as Hlen. revert to Hlen. induction from as [|f from IH]; intros [|t to] Hl; try done.
      simpl. destruct (f =s x) eqn:E; [by left|]. apply str_eqb_neq in E. right. apply IH; [set_solver|simpl in Hl; lia].
    + apply IH; [lia|done|done|]. set_solver.
Qed.

End days.

(** The weekly ranges survive the change of language: translating the days
    of the configuration to those of the page and back gives the same text, when
    the page's names are distinct and without blanks and no word of the text is
    a name of the page that is not a day of the configuration. *)
Theorem weekly_i18n_roundtrip strings w :
  NoDup (local_days strings) → Forall (λ d, 32 ∉ d) (local_days strings) →
  Forall (λ x, x ∈ Fw_days ∨ x ∉ local_days strings) (split_char 32 w) →
  6 <= zlen w → 6 <= zlen (weekly_i18n strings w true) →
  weekly_i18n strings (weekly_i18n strings w true) false = w.
Proof.
  intros Hnd Hsp Hw Hl Hl'. unfold weekly_i18n at 1. rewrite (proj2 (Z.ltb_ge _ _)) by done.
  unfold weekly_i18n. rewrite (proj2 (Z.ltb_ge _ _)) by done. change (js " ") with [32].
  rewrite split_char_join.
  - rewrite map_map. assert (E : map (λ x, translate (local_days strings) Fw_days (translate Fw_days (local_days strings) x)) (split_char 32 w) = split_char 32 w).
    { induction Hw as [|x l Hx _ IH]; cbn [map]; [done|]. f_equal; [|done]. apply translate_back; [done| |done|done].
      apply (bool_decide_unpack _). vm_compute. exact I. }
    rewrite E. apply join_split_char.
  - intros E. apply (split_char_nonempty 32 w). by destruct (split_char 32 w).
  - apply Forall_map. pose proof (split_char_pieces 32 w) as Hp. eapply Forall_impl; [exact Hp|]. intros x Hx. cbv beta in *.
    clear -Hx Hsp. revert Hsp. generalize (local_days strings) Fw_days. intros to from Hsp. revert from.
    induction Hsp as [|t to Ht _ IH]; intros [|f from]; cbn [translate]; try exact Hx. destruct (f =s x); [exact Ht|apply IH].
Qed.

Lemma weekly_i18n_roundtrip_witness :
  let french := mkQuotaStrings (λ k, translate Fw_days (map js ["Dim"; "Lun"; "Mar"; "Mer"; "Jeu"; "Ven"; "Sam"]%string) k) id in
  weekly_i18n french (weekly_i18n french (js "Sat 10:00 - Sun 08:00") true) false = js "Sat 10:00 - Sun 08:00".
Proof.
  intros french. apply (weekly_i18n_roundtrip french (js "Sat 10:00 - Sun 08:00")).
  - apply (bool_decide_unpack _). vm_compute. exact I.
  - apply (bool_decide_unpack _). vm_compute. exact I.
  - apply (bool_decide_unpack _). vm_compute. exact I.
  - vm_compute. discriminate.
  - vm_compute. discriminate.
Defined.
