(* ===== verification/QuotaUse.v ===== *)
(** * The table of quotas follows the settings

    Whatever quotas the user adds, edits, switches and removes, the rows of the table
    stand for the quotas of the edited settings, one row for each, and no two quotas
    have the same identifier, under which the router keeps their counters. *)
From S2P Require Import Prelude JsNum JsString JsRegex Uci UciFacts UciScript Sections Ip4 Validate Ip6 Overlap Table TableFacts TableEdit Dom Modal Ports AddrTable Quotas QuotaFacts QuotaPage.
Import Uci Table TableEdit Dom Modal Ports Quotas QuotaPage.
Open Scope Z_scope.

Lemma word_firewall : word pkg.
Proof. by_eval. Qed.
Lemma name_firewall : name pkg.
Proof. apply word_name, word_firewall. Qed.
Create HintDb quota.
#[local] Hint Resolve word_firewall name_firewall word_name : quota.

Definition quota_type : jstr := js "quota".
Definition id_option : jstr := js "id".
Lemma name_id : name id_option.
Proof. by_eval. Qed.

(** ** Settings with quotas *)
Definition is_quota (u : UCIContainer) (s : jstr) : Prop := gets u pkg s [] = quota_type.
Definition quota_id (u : UCIContainer) (s : jstr) : jstr := gets u pkg s id_option.

Record quotas_ok (u : UCIContainer) : Prop := {
  qo_wf : wf u;
  qo_shaped : shaped u;
  qo_own : pkg_unambiguous u pkg;
  qo_nolist : ∀ s, name s → next_key pkg s [] ∉ listOptions u ∧ next_key pkg s id_option ∉ listOptions u;
  qo_words : ∀ s, name s → is_quota u s → word s;
  qo_unique : ∀ s s', name s → name s' → is_quota u s → is_quota u s' → quota_id u s = quota_id u s' → s = s'
}.

(** ** Listing the quotas *)
Lemma quota_listed u ss s : wf u → shaped u → pkg_unambiguous u pkg → getAllSectionsOfType u pkg quota_type = Ret ss → name s →
  s ∈ ss ↔ is_quota u s.
Proof.
  intros Hwf Hsh Ha E Hs. rewrite (query_elem pkg u quota_type _ s word_firewall Hsh Ha Hs E).
  unfold is_quota, value_is, gets, get. rewrite next_key_section, (wf_dom _ Hwf). destruct (values u !! section_key pkg s) as [v|]; simpl.
  - rewrite str_eqb_eq. naive_solver.
  - split; [by intros [[? ?] _]|done].
Qed.

Lemma quota_sections u : quotas_ok u →
  ∃ ss, getAllSectionsOfType u pkg quota_type = Ret ss ∧ NoDup ss ∧ Forall name ss ∧ ∀ s, name s → s ∈ ss ↔ is_quota u s.
Proof.
  intros [Hwf Hsh Ha _ _ _]. pose proof (getAllSectionsOfType_hits u pkg quota_type word_firewall Hsh) as E.
  eexists. split; [exact E|]. split; [by eapply query_nodup; [apply word_firewall|..]|]. split.
  - apply Forall_forall. intros s Hs. apply list_elem_of_fmap in Hs as (k & -> & Hk). rewrite list_elem_of_In, filter_In, <-list_elem_of_In in Hk.
    destruct Hk as [Hk _]. apply query_hits_shape in Hk as (s & Hs & -> & _); [|auto with quota..]. by rewrite sec_name_key by auto with quota.
  - intros s Hs. by apply quota_listed.
Qed.

(** The section of an identifier. *)
Lemma fold_last (f : jstr → bool) l a : fold_left (fun found s => if f s then s else found) l a = a ∧ Forall (fun s => f s = false) l ∨
  (∃ s, s ∈ l ∧ f s = true ∧ fold_left (fun found s => if f s then s else found) l a = s).
Proof.
  revert a. induction l as [|x l IH]; intros a; [by left|]. cbn [fold_left]. destruct (f x) eqn:E.
  - destruct (IH x) as [[-> _]|(s & Hs & Hf & ->)]; right; [exists x|exists s]; split_and!; auto; [by left|by right].
  - destruct (IH a) as [[-> Hl]|(s & Hs & Hf & ->)]; [left; auto|right; exists s; split_and!; auto; by right].
Qed.

Lemma section_of_id_spec u id : quotas_ok u → ∃ s, section_of_id u id = Ret s ∧
  (s = [] ∧ (∀ x, name x → is_quota u x → quota_id u x ≠ id) ∨ name s ∧ is_quota u s ∧ quota_id u s = id).
Proof.
  intros Hok. destruct (quota_sections u Hok) as (ss & E & _ & Hn & Hiff). unfold section_of_id. change (js "quota") with quota_type. rewrite E. cbn [exn_bind].
  eexists. split; [done|]. rewrite Forall_forall in Hn. destruct (fold_last (fun s => gets u pkg s (js "id") =s id) ss []) as [[-> Hl]|(s & Hs & Hf & ->)].
  - left. split; [done|]. intros x Hx Hq Heq. apply Hiff in Hq; [|done]. rewrite Forall_forall in Hl. apply Hl in Hq. by apply str_eqb_neq in Hq.
  - right. apply str_eqb_eq in Hf. split_and!; [by apply Hn|by apply Hiff; [apply Hn|]|done].
Qed.

Lemma first_section_of_id_spec u id : quotas_ok u → ∃ s, first_section_of_id u id = Ret s ∧
  (s = [] ∧ (∀ x, name x → is_quota u x → quota_id u x ≠ id) ∨ name s ∧ is_quota u s ∧ quota_id u s = id).
Proof.
  intros Hok. destruct (quota_sections u Hok) as (ss & E & _ & Hn & Hiff). unfold first_section_of_id. change (js "quota") with quota_type. rewrite E. cbn [exn_bind].
  eexists. split; [done|]. rewrite Forall_forall in Hn. destruct (List.find _ ss) as [s|] eqn:Ef.
  - apply find_some in Ef as [Hs%list_elem_of_In Hf%str_eqb_eq]. right. split_and!; [by apply Hn|by apply Hiff; [apply Hn|]|done].
  - left. split; [done|]. intros x Hx Hq Heq. apply Hiff in Hq; [|done]. apply list_elem_of_In in Hq. eapply find_none in Ef; [|done].
    by apply str_eqb_neq in Ef.
Qed.

(** A new identifier is one that no quota has. *)
Lemma new_id_fresh u ip id : quotas_ok u → getIdFromIp u ip = Ret id → ∀ s, name s → is_quota u s → quota_id u s ≠ id.
Proof.
  intros Hok H s Hs Hq. destruct (quota_sections u Hok) as (ss & E & _ & _ & Hiff). unfold getIdFromIp, quota_ids in H.
  change (js "quota") with quota_type in H. rewrite E in H. cbn [exn_bind] in H.
  destruct (find_id_total (map (fun s => gets u pkg s (js "id")) ss) (id_prefix ip)) as (id' & Ef & Hni & _). rewrite Ef in H. injection H as <-.
  intros Heq. apply Hni, list_elem_of_fmap. exists s. split; [by rewrite <-Heq|]. by apply Hiff.
Qed.

(** The name of a new section is free. *)
Lemma free_number_spec u fuel n : 0 <= n → let m := free_number fuel u n in 0 <= m ∧
  (gets u pkg (js "quota_" ++ str_of_Z m) [] = [] ∨ ∀ k, (k < fuel)%nat → gets u pkg (js "quota_" ++ str_of_Z (n + Z.of_nat k)) [] ≠ []).
Proof.
  cbv zeta. revert n. induction fuel as [|f IH]; intros n Hn; [cbn; split; [done|right; lia]|]. cbn [free_number].
  destruct (gets _ _ _ _ =s []) eqn:E; [apply str_eqb_eq in E; auto|]. destruct (IH (n + 1)) as [Hm [Hg|Hg]]; [lia|auto|]. split; [done|right].
  intros [|k] Hk; [rewrite Z.add_0_r; by apply str_eqb_neq|]. replace (n + Z.of_nat (S k)) with (n + 1 + Z.of_nat k) by lia. apply Hg. lia.
Qed.

Lemma free_section_spec u : wf u → word (free_section u) ∧ gets u pkg (free_section u) [] = [].
Proof.
  intros Hu. unfold free_section. destruct (free_number_spec u (S (length (keys u))) 1) as [Hm Hg]; [lia|]. split.
  - apply word_numbered; [by_eval|done].
  - destruct Hg as [Hg|Hg]; [done|]. destruct (names_run_out pkg u (js "quota_") 1 Hu) as (k & Hk & Ek); [lia|].
    destruct (Hg k); [lia|]. unfold gets. by rewrite Ek.
Qed.

(** ** Storing the form *)
Definition late_options : list jstr :=
  map js ["reset_time"; "offpeak_hours"; "offpeak_weekdays"; "offpeak_weekly_ranges"; "onpeak_hours"; "onpeak_weekdays"; "onpeak_weekly_ranges"]%string.
Definition form_options : list jstr :=
  map js ["ingress_limit"; "egress_limit"; "combined_limit"; "exceeded_up_speed"; "exceeded_down_speed"; "exceeded_up_class_mark";
          "exceeded_down_class_mark"; "reset_interval"; "ip"; "id"]%string ++ late_options.

Section storing.
Context (sec : jstr) (u : UCIContainer).
Hypothesis (Hsec : name sec).

Lemma changes_set1 os o v u' : js o ∈ os → name (js o) → changes pkg sec os u u' → changes pkg sec os u (set1 u' sec o v).
Proof using Hsec. intros. apply changes_set; auto with quota. Qed.

Lemma changes_update os b o v u' : js o ∈ os → name (js o) → changes pkg sec os u u' → changes pkg sec os u (update_opt b u' sec o v).
Proof using Hsec. intros. unfold update_opt. destruct b; [by apply changes_set1|apply changes_remove; auto with quota]. Qed.

Lemma store_times_changes t u' : changes pkg sec late_options u u' → changes pkg sec late_options u (store_times u' sec t).
Proof using Hsec. intros H. unfold store_times. by repeat (apply changes_update; [by_eval|by_eval|]). Qed.

Lemma store_reset_changes n u' : changes pkg sec late_options u u' → changes pkg sec late_options u (store_reset_time u' sec n).
Proof using Hsec. intros H. unfold store_reset_time. destruct (Num.gtb _ _); [apply changes_set1|apply changes_remove; [apply name_firewall| | | |]]; (done || by_eval). Qed.

End storing.

Lemma changes_get_type sec u u' : name sec → changes pkg sec form_options u u' → get u' pkg sec [] = get u pkg sec [].
Proof. intros Hs H. apply (ch_frame _ _ _ _ _ H); [done|by left|right; by_eval]. Qed.

(** The identifier, the section and the settings of a form that was stored. *)
Lemma setUci_effect strings p m id p' : quotas_ok (q_uci p) → setUciFromDocument strings p m id = Ret p' →
  ∃ ip id' sec u0, getIpFromDocument strings p = Ret ip ∧ (if id =s [] then getIdFromIp (q_uci p) ip else Ret id) = Ret id' ∧
    name sec ∧ changes pkg sec form_options u0 (q_uci p') ∧ get (q_uci p') pkg sec id_option = UStr id' ∧
    (q_doc p' = q_doc p ∧ q_ip_table p' = q_ip_table p ∧ q_ip6_table p' = q_ip6_table p) ∧
    (sec = free_section (q_uci p) ∧ u0 = set (q_uci p) pkg sec [] (UStr quota_type) false ∧
       (∀ x, name x → is_quota (q_uci p) x → quota_id (q_uci p) x ≠ id') ∨
     u0 = q_uci p ∧ is_quota (q_uci p) sec ∧ quota_id (q_uci p) sec = id').
Proof.
  intros Hok H. unfold setUciFromDocument in H. binds H. rename a into ip, a0 into id', a1 into found.
  destruct (section_of_id_spec (q_uci p) id' Hok) as (s & Es & Hs). rewrite E1 in Es. injection Es as ->.
  set (sec := if s =s [] then free_section (q_uci p) else s).
  set (u0 := if s =s [] then set (q_uci p) pkg sec [] (UStr quota_type) false else q_uci p).
  assert (Hsec : name sec).
  { unfold sec. destruct (s =s []) eqn:Eq; [apply word_name, free_section_spec, Hok|]. destruct Hs as [[-> _]|[Hs _]]; done. }
  assert (Hpair : (if s =s [] then (free_section (q_uci p), set (q_uci p) pkg (free_section (q_uci p)) [] (UStr (js "quota")) false) else (s, q_uci p)) = (sec, u0)).
  { unfold u0, sec. by destruct (s =s []). }
  rewrite Hpair in H. binds H. injection H as <-. cbn [q_uci q_doc q_ip_table q_ip6_table].
  assert (Hb : wf u0 ∧ shaped u0 ∧ pkg_unambiguous u0 pkg).
  { unfold u0. destruct (s =s []); [|split_and!; apply Hok]. split_and!; [apply set_wf, Hok|apply set_shaped; auto with quota; apply Hok|].
    eapply pkg_unambiguous_keys; [apply name_firewall| |apply Hok]. intros k [Hk| ->]%set_keys_in; [auto|right]. exists sec, []. auto. }
  destruct Hb as (Hw & Hsh & Hown).
  match goal with |- context [store_times (store_reset_time ?v sec _) sec _] => set (u1 := v) end.
  assert (H1 : changes pkg sec form_options u0 u1).
  { unfold u1. repeat (apply changes_set1; [done|by_eval|by_eval|]). by apply changes_refl. }
  match goal with |- context [store_times (store_reset_time u1 sec ?n) sec ?t] =>
    assert (H2 : changes pkg sec late_options u1 (store_times (store_reset_time u1 sec n) sec t)) end.
  { apply store_times_changes; [done|]. apply store_reset_changes; [done|]. apply changes_refl; apply H1. }
  assert (Hid : get u1 pkg sec id_option = UStr id').
  { unfold u1, set1. apply set_get_same. change (js "id") with id_option.
    pose proof (proj2 (qo_nolist _ Hok sec Hsec)) as Hl. rewrite !set_listOptions. unfold u0. destruct (s =s []); [by rewrite set_listOptions|done]. }
  exists ip, id', sec, u0. split_and!; [done|done|done| | |done..|].
  - eapply changes_trans; [exact H1|]. eapply changes_weaken; [|exact H2]. unfold form_options. set_solver.
  - rewrite (ch_frame _ _ _ _ _ H2 sec id_option); [done|done|right; apply name_id|right; by_eval].
  - unfold u0, sec. destruct Hs as [[-> Hs]|(Hs1 & Hs2 & Hs3)]; [left; by split_and!|right].
    rewrite (proj2 (str_eqb_neq s [])); [by split_and!|]. by destruct Hs1.
Qed.

(** A quota written to a section: the other quotas are the same. *)
Record stored_quota (sec id : jstr) (u u' : UCIContainer) : Prop := {
  sq_wf : wf u';
  sq_shaped : shaped u';
  sq_own : pkg_unambiguous u' pkg;
  sq_lists : listOptions u' ⊆ listOptions u;
  sq_word : word sec;
  sq_frame : ∀ x, name x → x ≠ sec → (is_quota u' x ↔ is_quota u x) ∧ quota_id u' x = quota_id u x;
  sq_quota : is_quota u' sec;
  sq_id : quota_id u' sec = id;
  sq_fresh : ∀ x, name x → x ≠ sec → is_quota u x → quota_id u x ≠ id
}.

Lemma stored_ok sec id u u' : quotas_ok u → stored_quota sec id u u' → quotas_ok u'.
Proof.
  intros Hok [S1 S2 S3 S4 S5 S6 S7 S8 S9]. split; [done|done|done| | |].
  - intros s Hs. destruct (qo_nolist _ Hok s Hs). set_solver.
  - intros s Hs Hq. destruct (decide (s = sec)) as [->|Hne]; [done|]. destruct (S6 s Hs Hne) as [Hiff _]. apply (qo_words _ Hok s Hs). by apply Hiff.
  - assert (Hcase : ∀ s, name s → is_quota u' s → s ≠ sec → quota_id u' s ≠ id).
    { intros s Hs Hq Hne. destruct (S6 s Hs Hne) as [Hiff ->]. apply S9; [done..|]. by apply Hiff. }
    intros s s' Hs Hs' Hq Hq' E. destruct (decide (s = sec)) as [->|Hne], (decide (s' = sec)) as [->|Hne']; [done| | |].
    + rewrite S8 in E. by destruct (Hcase s').
    + rewrite S8 in E. by destruct (Hcase s).
    + destruct (S6 s Hs Hne) as [Hiff Hi], (S6 s' Hs' Hne') as [Hiff' Hi']. rewrite Hi, Hi' in E. apply (qo_unique _ Hok); [done|done|by apply Hiff|by apply Hiff'|done].
Qed.

(** The identifiers in use after a quota was stored. *)
Definition has_id (u : UCIContainer) (id : jstr) : Prop := ∃ s, name s ∧ is_quota u s ∧ quota_id u s = id.

Lemma stored_ids sec id u u' x : stored_quota sec id u u' →
  has_id u' x ↔ x = id ∨ ∃ s, name s ∧ s ≠ sec ∧ is_quota u s ∧ quota_id u s = x.
Proof.
  intros [S1 S2 S3 S4 S5 S6 S7 S8 S9]. split.
  - intros (s & Hs & Hq & <-). destruct (decide (s = sec)) as [->|Hne]; [by left|right]. exists s. destruct (S6 s Hs Hne) as [Hiff ->]. naive_solver.
  - intros [->|(s & Hs & Hne & Hq & <-)]; [exists sec; split_and!; auto with quota|]. exists s. destruct (S6 s Hs Hne) as [Hiff ->]. naive_solver.
Qed.

Lemma quota_setUci_stored strings p m id p' : quotas_ok (q_uci p) → setUciFromDocument strings p m id = Ret p' →
  ∃ ip id' sec, getIpFromDocument strings p = Ret ip ∧ (if id =s [] then getIdFromIp (q_uci p) ip else Ret id) = Ret id' ∧
    stored_quota sec id' (q_uci p) (q_uci p') ∧ (q_doc p' = q_doc p ∧ q_ip_table p' = q_ip_table p ∧ q_ip6_table p' = q_ip6_table p) ∧
    (sec = free_section (q_uci p) ∧ ¬ is_quota (q_uci p) sec ∧ ¬ has_id (q_uci p) id' ∨ is_quota (q_uci p) sec ∧ quota_id (q_uci p) sec = id').
Proof.
  intros Hok H. destruct (setUci_effect strings p m id p' Hok H) as (ip & id' & sec & u0 & Hip & Hid & Hsec & Hch & Hget & Hsame & Hcase).
  exists ip, id', sec. split_and!; [done|done| |apply Hsame..|].
  - pose proof Hch as [C1 C2 C3 C4 C5].
    assert (Hu0 : listOptions u0 = listOptions (q_uci p) ∧ ∀ x o, name x → o = [] ∨ name o → x ≠ sec → get u0 pkg x o = get (q_uci p) pkg x o).
    { destruct Hcase as [(_ & -> & _)|(-> & _)]; [|done]. split; [by apply set_listOptions|]. intros x o Hx Ho Hne. apply set_get_other; auto with quota. congruence. }
    destruct Hu0 as [Hl Hu0]. split; [done|done|done|by rewrite <-Hl| | | | |].
    + destruct Hcase as [(-> & _)|(_ & Hq & _)]; [by apply free_section_spec, Hok|by apply (qo_words _ Hok)].
    + intros x Hx Hne. unfold is_quota, quota_id, gets. rewrite !C5, !Hu0 by (auto using name_id). done.
    + unfold is_quota, gets. rewrite (changes_get_type sec u0) by done. destruct Hcase as [(_ & -> & _)|(-> & Hq & _)]; [|done].
      rewrite set_get_same; [done|]. apply (qo_nolist _ Hok sec Hsec).
    + unfold quota_id, gets. by rewrite Hget.
    + intros x Hx Hne Hq E. destruct Hcase as [(_ & _ & Hf)|(_ & Hq' & E')]; [by apply (Hf x)|]. apply Hne, (qo_unique _ Hok); congruence.
  - destruct Hcase as [(Hf & _ & Hn)|(_ & Hq & E)]; [left|right; done]. split_and!; [done| |].
    + unfold is_quota. rewrite Hf. destruct (free_section_spec (q_uci p)) as [_ ->]; [apply Hok|done].
    + intros (s & Hs & Hq & E). by apply (Hn s).
Qed.

(** A new identifier for a quota. *)
Lemma set_id_stored sec id u : quotas_ok u → word sec → is_quota u sec → ¬ has_id u id → stored_quota sec id u (set1 u sec "id" id).
Proof.
  intros Hok Hw Hq Hn. pose proof (word_name _ Hw) as Hs. destruct (qo_nolist _ Hok sec Hs) as [_ Hl].
  assert (Hch : changes pkg sec [id_option] u (set1 u sec "id" id)).
  { apply changes_set1; [done|by left|by_eval|]. apply changes_refl; apply Hok. }
  pose proof Hch as [C1 C2 C3 C4 C5]. split; [done..| | | |].
  - intros x Hx Hne. unfold is_quota, quota_id, gets. rewrite !C5 by (auto using name_id). done.
  - unfold is_quota, gets. rewrite C5; [done|done|by left|right; by_eval].
  - unfold quota_id, gets, set1. by rewrite set_get_same.
  - intros x Hx Hne Hqx E. apply Hn. by exists x.
Qed.

(** ** The table *)

(** A row with the box of the quota [id]. *)
Definition shows_box (id : jstr) (ds : list datum) : Prop :=
  ∃ a b c w e, ds = [DObj a; DObj b; DStr c; DObj w; DObj e] ∧ w_id w = id.

Definition listed (u : UCIContainer) (o : option table) : Prop :=
  ∃ t D ids, o = Some t ∧ table_wf t ∧ getTableDataArray t true false = Ret D ∧ Forall2 shows_box ids D ∧
    NoDup ids ∧ ∀ id, id ∈ ids ↔ has_id u id.

Definition page_of (q : quotas_state) : UCIContainer := q_uci (qt_page q).

Record follows (q : quotas_state) : Prop := {
  fq_ok : quotas_ok (page_of q);
  fq_table : listed (page_of q) (qt_table q)
}.

(** Nothing but the form changes. *)
Definition aside (q q' : quotas_state) : Prop := page_of q' = page_of q ∧ qt_table q' = qt_table q.

Lemma quota_follows_aside q q' : follows q → aside q q' → follows q'.
Proof. intros [H1 H2] [A1 A2]. split; by rewrite ?A1, ?A2. Qed.

Section page.
Variable strings : quota_strings.
Context (qosMarkList : list (jstr * jstr * jstr)) (fullQosEnabled : bool) (tcInstalled : jstr).

Lemma setDocumentIp_uci p ip p' : setDocumentIp strings p ip = Ret p' → q_uci p' = q_uci p.
Proof.
  intros H. unfold setDocumentIp in H. binds H. repeat (match type of H with context [if ?b then _ else _] => destruct b end; [binds H; by injection H as <-|]).
  binds H. destruct (split_families _). binds H. by injection H as <-.
Qed.

Lemma quota_setDocument_aside q src id q' : setDocumentFromUci strings fullQosEnabled tcInstalled q src id = Ret q' → aside q q'.
Proof.
  intros H. unfold setDocumentFromUci in H. binds H. injection H as <-. split; [|done]. apply setDocumentIp_uci in E0. exact E0.
Qed.

Lemma add_pending_uci p errors r : add_pending_ips strings p errors = Ret r → q_uci (snd r) = q_uci p.
Proof.
  intros H. unfold add_pending_ips in H. binds H. destruct (negb _); [|by injection H as <-]. binds H. destruct a0 as [[v t] tb]. binds H. by injection H as <-.
Qed.

Lemma validate_uci p id ip r : validateQuota strings p id ip = Ret r → q_uci (snd r) = q_uci p.
Proof.
  intros H. unfold validateQuota in H. binds H. apply add_pending_uci in E0. destruct a0 as [errors p1]. cbn [snd q_uci] in E0. rewrite <-E0.
  destruct errors; [|by injection H as <-]. binds H. destruct (_ =s _); [by injection H as <-|]. binds H.
  destruct (_ && _); [by injection H as <-|]. destruct (_ =s _); [by injection H as <-|]. binds H. by injection H as <-.
Qed.

(** *** Adding *)
Lemma quota_add_follows q q' : follows q → addNewQuota strings fullQosEnabled tcInstalled q = Ret q' → follows q'.
Proof.
  intros [Hok Hl] H. unfold addNewQuota in H. binds H. destruct a as [errors p]. apply validate_uci in E. cbn [snd] in E.
  destruct (negb _).
  { injection H as <-. apply (quota_follows_aside q); [by split|]. by split. }
  binds H. apply quota_setDocument_aside in H. eapply quota_follows_aside; [|exact H]. clear H. unfold page_of in *. rewrite <-E in *.
  destruct (quota_setUci_stored strings p (qt_multiple q) [] a Hok E0) as (ip & id & sec & Hip & Hid & Hst & _ & Hcase).
  assert (Hnew : sec = free_section (q_uci p) ∧ ¬ is_quota (q_uci p) sec ∧ ¬ has_id (q_uci p) id).
  { destruct Hcase as [Hc|[Hq Eq]]; [done|]. destruct (new_id_fresh _ _ _ Hok Hid sec (word_name _ (sq_word _ _ _ _ Hst)) Hq Eq). }
  destruct Hnew as (Hsec & Hnq & Hnid). destruct Hl as (t & D & ids & Et & Hwf & HD & HF & Hnd & Hiff). rewrite Et in E2. injection E2 as <-.
  split; cbn [page_of with_multiple with_table with_page qt_page qt_table]; [by eapply stored_ok|].
  match goal with |- listed _ (Some (addTableRow ?l t ?row true false)) => set (label := l); set (rowd := row) end.
  destruct (addTableRow_data true false label t rowd D Hwf) as [Hwf' HD']; [done|done|].
  exists (addTableRow label t rowd true false), (D ++ [map first_line rowd]), (ids ++ [id]). split_and!; [done|done|done| | |].
  - apply Forall2_app; [done|]. constructor; [|done]. eexists _, _, _, _, _. split; [reflexivity|]. cbn [set_id w_id].
    rewrite <-Hsec. apply Hst.
  - apply NoDup_app. split_and!; [done| |apply NoDup_singleton]. intros x Hx ->%list_elem_of_singleton. by apply Hnid, Hiff.
  - intros x. rewrite elem_of_app, list_elem_of_singleton, Hiff, (stored_ids _ _ _ _ x Hst). unfold has_id. split.
    + intros [(s & Hs & Hq & Ex)|Ex]; [|by left]. right. exists s. split_and!; try done. congruence.
    + naive_solver.
Qed.

(** *** A row *)
Lemma listed_row u t i r : listed u (Some t) → t_body t !! i = Some r →
  ∃ D ids a b c w e, table_wf t ∧ getTableDataArray t true false = Ret D ∧ Forall2 shows_box ids D ∧
    NoDup ids ∧ (∀ id, id ∈ ids ↔ has_id u id) ∧ ids !! i = Some (w_id w) ∧ cells_ok r ∧
    row_data 1 r = Some [DObj a; DObj b; DStr c; DObj w; DObj e] ∧ cell_widget r 3 = Ret w ∧ body_row t (r_id r) = Ret r.
Proof.
  intros (t' & D & ids & [= <-] & Hwf & HD & HF & Hnd & Hiff) Hr.
  assert (Hlen : length (t_body t) = length D).
  { apply table_data_rows in HD; [|done]. apply (f_equal length) in HD. by rewrite !length_map in HD. }
  destruct (lookup_lt_is_Some_2 D i) as [ds Hds]; [rewrite <- Hlen; by eapply lookup_lt_Some|].
  destruct (Forall2_lookup_r _ _ _ _ _ HF Hds) as (s & Hs & a & b & c & w & e & -> & Hid).
  assert (Hokr : cells_ok r) by (pose proof (wf_cells _ Hwf) as Hc; rewrite Forall_forall in Hc; apply Hc; by eapply list_elem_of_lookup_2).
  pose proof (data_row true false t D i r _ Hwf HD Hr Hds) as Hrd. simpl in Hrd.
  exists D, ids, a, b, c, w, e. rewrite Hid. split_and!; try done; [|by eapply body_row_find].
  by apply (set_widget_effect true false r 3 (λ w, w) _ w Hokr Hrd).
Qed.

Lemma has_id_section u id : quotas_ok u → has_id u id → ∃ s, word s ∧ is_quota u s ∧ quota_id u s = id ∧
  first_section_of_id u id = Ret s ∧ ∀ x, name x → is_quota u x → quota_id u x = id → x = s.
Proof.
  intros Hok (s & Hs & Hq & E). destruct (first_section_of_id_spec u id Hok) as (s' & Es & [[-> Hno]|(Hs' & Hq' & E')]); [by destruct (Hno s)|].
  exists s'. split_and!; [by apply (qo_words _ Hok)|done|done|done|]. intros x Hx Hqx Ex. apply (qo_unique _ Hok); congruence.
Qed.

(** *** Editing *)
Lemma set_element_effect r col w ds x : cells_ok r → row_data 1 r = Some ds → ds !! col = Some x →
  ∃ r', set_element col (DObj w) r = Ret r' ∧ r_id r' = r_id r ∧ cells_ok r' ∧ row_data 1 r' = Some (<[col := DObj w]> ds).
Proof.
  intros [Hne Hc] Hd Hx. unfold row_data in Hd. destruct (exn_map cell_datum _) as [l|] eqn:E; [|done]. injection Hd as ->. apply exn_map_Forall2 in E.
  destruct (Forall2_lookup_r _ _ _ _ _ E Hx) as (c & Hlc & _). apply lookup_take_Some in Hlc as [Hlc Hlt].
  unfold set_element. rewrite Hlc. cbn [exn_of_option exn_bind]. eexists. split; [done|]. split; [done|]. split.
  - split; cbn [r_cells].
    + intros E0%(f_equal length). rewrite length_insert in E0. by destruct (r_cells r).
    + by apply Forall_insert.
  - unfold row_data. cbn [r_cells]. rewrite length_insert, take_insert_lt by done.
    replace (exn_map cell_datum _) with (Ret (<[col := DObj w]> ds)); [done|]. symmetry. apply exn_map_Forall2. by apply Forall2_insert.
Qed.

Lemma getIp_same p p' : q_doc p' = q_doc p → q_ip_table p' = q_ip_table p → q_ip6_table p' = q_ip6_table p →
  getIpFromDocument strings p' = getIpFromDocument strings p.
Proof. intros E1 E2 E3. unfold getIpFromDocument. by rewrite E1, E2, E3. Qed.

(** What [editQuota] stores. *)
Lemma editQuota_stored p m editId p' : quotas_ok (q_uci p) → has_id (q_uci p) editId → editId ≠ [] →
  editQuota strings p m editId = Ret ([], p') →
  ∃ sec newIp newId, word sec ∧ is_quota (q_uci p) sec ∧ quota_id (q_uci p) sec = editId ∧ first_section_of_id (q_uci p) editId = Ret sec ∧
    (∀ x, name x → is_quota (q_uci p) x → quota_id (q_uci p) x = editId → x = sec) ∧
    getIpFromDocument strings p' = Ret newIp ∧ stored_quota sec newId (q_uci p) (q_uci p') ∧
    (newIp = gets (q_uci p) pkg sec (js "ip") → newId = editId).
Proof.
  intros Hok Hhas Hne H. destruct (has_id_section _ _ Hok Hhas) as (sec & Hw & Hq & Hid & Hfirst & Huniq). unfold editQuota in H. rewrite Hfirst in H.
  cbn [exn_bind] in H. rewrite (proj2 (str_eqb_neq sec [])) in H by (by destruct (word_name _ Hw)). binds H. pose proof (validate_uci _ _ _ _ E) as Eu.
  destruct a as [[|err errs] p1]; cbn [fst snd] in *; [|done]. binds H. rename a into newIp, a0 into p2. rewrite <-Eu in *.
  destruct (quota_setUci_stored strings p1 m editId p2 Hok E1) as (ip & id' & s' & Hip & Hid' & Hst & (Hd & H4 & H6) & Hcase).
  rewrite (proj2 (str_eqb_neq _ _) Hne) in Hid'. injection Hid' as <-.
  assert (s' = sec) as ->.
  { destruct Hcase as [(_ & _ & Hn)|[Hq' Eq]]; [done|]. apply Huniq; [apply word_name, Hst|done|done]. }
  pose proof (stored_ok _ _ _ _ Hok Hst) as Hok2. exists sec, newIp.
  destruct (negb (newIp =s _)) eqn:Ech.
  - binds H. injection H as <-. rename a into newId. cbn [q_uci q_doc q_ip_table q_ip6_table].
    exists newId. split_and!; [done..| | |].
    + rewrite <-E0. by apply getIp_same.
    + assert (Hn : ¬ has_id (q_uci p2) newId). { intros (s & Hs & Hqs & Es). by apply (new_id_fresh _ _ _ Hok2 E2 s). }
      pose proof (set_id_stored sec newId (q_uci p2) Hok2 Hw (sq_quota _ _ _ _ Hst) Hn) as [T1 T2 T3 T4 T5 T6 T7 T8 T9].
      destruct Hst as [S1 S2 S3 S4 S5 S6 S7 S8 S9]. split; [done|done|done|set_solver|done| |done|done|].
      * intros x Hx Hxne. destruct (S6 x Hx Hxne) as [A1 A2], (T6 x Hx Hxne) as [B1 B2]. split; [by rewrite B1|by rewrite B2].
      * intros x Hx Hxne Hqx. destruct (S6 x Hx Hxne) as [A1 A2]. rewrite <-A2. apply T9; [done|done|]. by apply A1.
    + intros Eip. apply negb_true_iff, str_eqb_neq in Ech. done.
  - injection H as <-. exists editId. split_and!; [done..| |done|done]. rewrite <-E0. by apply getIp_same.
Qed.

Lemma quota_edit_follows q q' t i r : follows q → qt_table q = Some t → t_body t !! i = Some r →
  (∀ w, cell_widget r rowCheckIndex = Ret w → w_id w ≠ [] ∧ editQuotaRow strings q (r_id r) (w_id w) = Ret q') → follows q'.
Proof.
  intros [Hok Hl] Et Hi Hstep. rewrite Et in Hl.
  destruct (listed_row _ _ _ _ Hl Hi) as (D & ids & a & b & c & w & e & Hwf & HD & HF & Hnd & Hiff & Hid & Hcells & Hrd & Hcw & Hbr).
  destruct (Hstep w Hcw) as [Hne H]. clear Hstep. assert (Hhas : has_id (page_of q) (w_id w)) by (apply Hiff; by eapply list_elem_of_lookup_2).
  unfold editQuotaRow in H. binds H. rename a0 into es. destruct a1 as [errors p]. destruct errors as [|err errs].
  2:{ cbn [length Nat.eqb negb] in H. injection H as <-. apply (quota_follows_aside q); [by split; [|rewrite Et]|]. split; [|done].
      unfold page_of, show_errors. cbn [with_page qt_page page_doc q_uci]. unfold editQuota in E0. binds E0. pose proof (validate_uci _ _ _ _ E2) as Ev. 
      destruct (fst _) eqn:Ef; [|by injection E0 as _ _ <-]. binds E0. destruct (negb _); [binds E0|]; discriminate E0. }
  cbn [length Nat.eqb negb] in H. binds H. rewrite Et in E2. injection E2 as <-.
  destruct (editQuota_stored _ _ _ _ Hok Hhas Hne E0) as (sec & newIp & newId & Hw & Hq & Hsid & Hfirst & Huniq & Hip & Hst & Hkeep).
  fold (page_of q) in *. rewrite Hfirst in E. injection E as <-. rewrite Hip in E3. injection E3 as <-. rewrite Hbr in E4. injection E4 as <-.
  rewrite (proj2 (str_eqb_neq sec [])) in E5 by (by destruct (word_name _ Hw)).
  match type of E5 with _ = Ret ?x => rename x into er end.
  assert (Hrow : ∃ w' r1, er = r1 ∧ r_id r1 = r_id r ∧ cells_ok r1 ∧ (∃ a', row_data 1 r1 = Some [DObj a'; DObj b; DStr c; DObj w'; DObj e]) ∧ w_id w' = newId).
  { destruct (negb (newIp =s _)) eqn:Ech.
    - binds E5. unfold span in E. 
      match type of E with set_element 0 (DObj ?x) _ = _ => destruct (set_element_effect r 0 x _ (DObj a) Hcells Hrd eq_refl) as (r1 & E1' & I1 & O1 & R1) end.
      rewrite E1' in E. injection E as <-. cbn [insert list_insert] in R1.
      match type of E5 with set_widget _ ?f _ = _ => destruct (set_widget_effect true false r1 3 f _ w O1 R1 eq_refl) as (_ & r2 & E2' & I2 & O2 & R2) end.
      change rowCheckIndex with 3%nat in E5. rewrite E2' in E5. injection E5 as <-. eexists _, r2. split_and!; [done|congruence|done|by eexists|]. cbn [set_id w_id]. apply Hst.
    - injection E5 as <-. apply negb_false_iff, str_eqb_eq in Ech. exists w, r. split_and!; [done..|by eexists|]. symmetry. by apply Hkeep. }
  destruct Hrow as (w' & r1 & -> & I1 & O1 & (a' & R1) & Hw').
  unfold span in E6. match type of E6 with set_element 1 (DObj ?x) _ = _ => destruct (set_element_effect r1 1 x _ (DObj b) O1 R1 eq_refl) as (r2 & E2' & I2 & O2 & R2) end.
  rewrite E2' in E6. injection E6 as <-. cbn [insert list_insert] in R2.
  match type of E7 with set_row_data 2 ?v _ = _ => destruct (set_row_effect true false r2 2 v _ c O2 R2 eq_refl) as (r3 & E3' & I3 & O3 & R3) end.
  rewrite E3' in E7. injection E7 as <-. cbn [insert list_insert] in R3. injection H as <-.
  rewrite (set_body_row_insert t i r) by done.
  destruct (replace_row_effect true false t D i r r3 _ Hwf HD Hi ltac:(congruence) O3 R3) as [Hwf' HD'].
  split; cbn [page_of with_multiple with_table with_page qt_page qt_table]; [by eapply stored_ok|].
  eexists _, _, (<[i := newId]> ids). split_and!; [done|exact Hwf'|exact HD'| | |].
  - apply Forall2_insert; [done|]. by eexists _, _, _, _, _.
  - apply NoDup_alt. intros j k x Hj Hk. apply list_lookup_insert_Some in Hj, Hk. rewrite NoDup_alt in Hnd.
    assert (Hnew : ∀ n, n ≠ i → ids !! n = Some newId → False).
    { intros n Hn Hx. assert (Hin : newId ∈ ids) by (by eapply list_elem_of_lookup_2). apply Hiff in Hin as (s & Hs & Hqs & Es).
      destruct (decide (s = sec)) as [->|Hns]; [|by apply (sq_fresh _ _ _ _ Hst s)]. apply Hn, (Hnd n i newId Hx). by rewrite Hid, <-Hsid, <-Es. }
    destruct Hj as [(-> & <- & _)|[Hj1 Hj2]], Hk as [(-> & Ek & _)|[Hk1 Hk2]]; [done| | |by eapply Hnd].
    + exfalso. by apply (Hnew k).
    + exfalso. subst x. by apply (Hnew j).
  - intros x. rewrite (insert_elem ids i (w_id w) newId x Hnd Hid), Hiff, (stored_ids _ _ _ _ x Hst). unfold has_id. split.
    + intros [->|[Hx (s & Hs & Hqs & Es)]]; [by left|right]. exists s. split_and!; [done| |done|done]. intros ->. congruence.
    + intros [->|(s & Hs & Hns & Hqs & Es)]; [by left|right]. split; [|by exists s]. intros Ex. apply Hns, Huniq; [done|done|congruence].
Qed.

(** *** Switching *)
Lemma split_char_piece c s x : x ∈ split_char c s → c ∉ x.
Proof. pose proof (split_char_pieces c s) as H. rewrite Forall_forall in H. apply H. Qed.

(** A section that has a type has a name, when its name has no dot. *)
Lemma typed_name u s : wf u → shaped u → 46 ∉ s → gets u pkg s [] ≠ [] → name s.
Proof.
  intros Hwf Hsh Hd Hg. split; [|done]. intros ->. apply Hg. unfold gets, get. rewrite next_key_section.
  destruct (values u !! section_key pkg []) as [v|] eqn:E; [|done]. exfalso.
  assert (Hk : section_key pkg [] ∈ keys u) by (apply (wf_dom _ Hwf); by eexists).
  unfold shaped in Hsh. rewrite Forall_forall in Hsh. apply Hsh in Hk. remember (section_key pkg []) as k eqn:Ek.
  assert (Hsplit : split_char 46 k = [pkg; []]) by (rewrite Ek; reflexivity).
  destruct Hk as [p s Hp Hs|p s o Hp Hs Ho].
  - rewrite split_section_key in Hsplit by done. injection Hsplit as _ ->. by destruct Hs.
  - rewrite split_option_key in Hsplit by done. done.
Qed.

Lemma set_enabled_ok u s v : quotas_ok u → name s →
  quotas_ok (set1 u s "enabled" v) ∧ ∀ id, has_id (set1 u s "enabled" v) id ↔ has_id u id.
Proof.
  intros Hok Hs. assert (Hch : changes pkg s [js "enabled"] u (set1 u s "enabled" v)).
  { apply changes_set1; [done|by left|by_eval|]. apply changes_refl; apply Hok. }
  pose proof Hch as [C1 C2 C3 C4 C5].
  assert (Hsame : ∀ x, name x → (is_quota (set1 u s "enabled" v) x ↔ is_quota u x) ∧ quota_id (set1 u s "enabled" v) x = quota_id u x).
  { intros x Hx. unfold is_quota, quota_id, gets. rewrite !C5; [done|done|right; apply name_id|right; by_eval|done|by left|right; by_eval]. }
  split.
  - split; [done|done|done| | |].
    + intros x Hx. destruct (qo_nolist _ Hok x Hx). set_solver.
    + intros x Hx Hq. apply (qo_words _ Hok x Hx). by apply Hsame.
    + intros x y Hx Hy Hqx Hqy E. destruct (Hsame x Hx) as [A1 A2], (Hsame y Hy) as [B1 B2]. apply (qo_unique _ Hok); [done|done|by apply A1|by apply B1|congruence].
  - intros id. split; intros (x & Hx & Hq & E); exists x; destruct (Hsame x Hx) as [A1 A2]; (split_and!; [done|by apply A1|congruence]).
Qed.

Lemma quota_click_follows q q' t i r : follows q → qt_table q = Some t → t_body t !! i = Some r → setRowEnabled q (r_id r) = Ret q' → follows q'.
Proof.
  intros [Hok Hl] Et Hi H. rewrite Et in Hl.
  destruct (listed_row _ _ _ _ Hl Hi) as (D & ids & a & b & c & w & e & Hwf & HD & HF & Hnd & Hiff & Hid & Hcells & Hrd & Hcw & Hbr).
  unfold setRowEnabled in H. rewrite Et in H. cbn [exn_of_option exn_bind] in H. rewrite Hbr in H. cbn [exn_bind] in H.
  change rowCheckIndex with 3%nat in H. rewrite Hcw in H. cbn [exn_bind] in H.
  destruct (set_widget_effect true false r 3 (check_widget (negb (w_checked w))) _ w Hcells Hrd eq_refl) as (_ & r1 & E1 & I1 & O1 & R1).
  rewrite E1 in H. cbn [exn_bind] in H. cbn [insert list_insert] in R1.
  destruct (set_widget_effect true false r1 4 (enable_button true) _ e O1 R1 eq_refl) as (_ & r2 & E2 & I2 & O2 & R2).
  rewrite E2 in H. cbn [exn_bind] in H. cbn [insert list_insert] in R2. injection H as <-.
  set (v := if negb (w_checked w) then js "1" else js "0").
  assert (Hstore : ∀ u s, quotas_ok u → 46 ∉ s → let u' := if gets u pkg s [] =s [] then u else set1 u s "enabled" v in
    quotas_ok u' ∧ ∀ id, has_id u' id ↔ has_id u id).
  { intros u s Hu Hs u'. unfold u'. destruct (gets u pkg s [] =s []) eqn:Eg; [done|]. apply set_enabled_ok; [done|].
    apply str_eqb_neq in Eg. apply (typed_name u); [apply Hu|apply Hu|done|done]. }
  assert (Hpiece : ∀ k, 46 ∉ default (js "undefined") (split_char 46 (w_id w) !! k)).
  { intros k. destruct (split_char 46 (w_id w) !! k) eqn:Ek; [|by_eval]. eapply split_char_piece. by eapply list_elem_of_lookup_2. }
  destruct (Hstore (page_of q) _ Hok (Hpiece 0%nat)) as [Hok1 Hids1].
  destruct (Hstore _ _ Hok1 (Hpiece 1%nat)) as [Hok2 Hids2].
  rewrite (set_body_row_insert t i r) by done.
  destruct (replace_row_effect true false t D i r r2 _ Hwf HD Hi ltac:(congruence) O2 R2) as [Hwf' HD'].
  split; unfold page_of; cbn [with_table with_page qt_page qt_table page_uci q_uci]; [exact Hok2|].
  eexists _, _, ids. split_and!; [done|exact Hwf'|exact HD'| |done|].
  - rewrite <-(list_insert_id ids i (w_id w)) by done. apply Forall2_insert; [done|]. by eexists _, _, _, _, _.
  - intros id. rewrite Hiff, <-Hids1, <-Hids2. done.
Qed.

(** *** Removing *)
Lemma without_ok u s : quotas_ok u → word s → quotas_ok (without_section u pkg s) ∧
  ∀ id, has_id (without_section u pkg s) id ↔ ∃ x, name x ∧ x ≠ s ∧ is_quota u x ∧ quota_id u x = id.
Proof.
  intros Hok Hw. pose proof (word_name _ Hw) as Hs.
  assert (Hq : ∀ x, name x → is_quota (without_section u pkg s) x ↔ x ≠ s ∧ is_quota u x).
  { intros x Hx. unfold is_quota, gets. rewrite without_get by auto with quota. destruct (decide (x = s)); naive_solver. }
  assert (Hi : ∀ x, name x → x ≠ s → quota_id (without_section u pkg s) x = quota_id u x).
  { intros x Hx Hne. unfold quota_id, gets. rewrite without_get by (auto using name_id with quota). by rewrite decide_False. }
  split.
  - split.
    + apply without_section_wf, Hok.
    + apply without_section_shaped, Hok.
    + apply without_unambiguous; [apply name_firewall|apply Hok].
    + intros x Hx. destruct (qo_nolist _ Hok x Hx) as [L1 L2]. cbn [without_section listOptions]. split; set_solver.
    + intros x Hx Hqx. apply (qo_words _ Hok x Hx). by apply Hq.
    + intros x y Hx Hy Hqx Hqy E. apply Hq in Hqx as [N1 Q1], Hqy as [N2 Q2]; [|done..]. rewrite !Hi in E by done. by apply (qo_unique _ Hok).
  - intros id. split.
    + intros (x & Hx & Hqx & E). apply Hq in Hqx as [N1 Q1]; [|done]. rewrite Hi in E by done. by exists x.
    + intros (x & Hx & N & Qx & E). exists x. split_and!; [done|by apply Hq|by rewrite Hi].
Qed.

Lemma remove_one u id : quotas_ok u → has_id u id → ∃ s ss, word s ∧ quota_id u s = id ∧
  (∀ x, name x → is_quota u x → quota_id u x = id → x = s) ∧ getAllSectionsOfType u pkg quota_type = Ret ss ∧
  exn_fold (fun uci s => if gets uci pkg s (js "id") =s id then removeSection uci pkg s else Ret uci) ss u = Ret (without_section u pkg s).
Proof.
  intros Hok Hhas. destruct (has_id_section _ _ Hok Hhas) as (s & Hw & Hq & Hid & _ & Huniq). destruct (quota_sections u Hok) as (ss & Es & Hnd & Hn & Hiff).
  exists s, ss. split_and!; [done..|]. assert (Hin : s ∈ ss) by (by apply Hiff; [apply word_name|]). clear Es.
  assert (Hother : ∀ x, x ∈ ss → x ≠ s → gets u pkg x (js "id") ≠ id).
  { intros x Hx Hne E. rewrite Forall_forall in Hn. apply Hne, Huniq; [by apply Hn|by apply Hiff; [apply Hn|]|done]. }
  set (f := fun uci s => _). assert (Hrest : ∀ l, s ∉ l → l ⊆ ss → exn_fold f l (without_section u pkg s) = Ret (without_section u pkg s)).
  { induction l as [|x l IH]; intros Hns Hsub; [done|]. cbn [exn_fold]. assert (Hxs : x ≠ s) by set_solver. assert (Hxss : x ∈ ss) by set_solver.
    assert (Ex : f (without_section u pkg s) x = Ret (without_section u pkg s)); [|rewrite Ex; cbn [exn_bind]; apply IH; set_solver].
    unfold f, gets. rewrite Forall_forall in Hn. rewrite without_get; [|auto with quota..|by apply Hn|right; by_eval]. rewrite decide_False by done.
    specialize (Hother x Hxss Hxs). unfold gets in Hother. by rewrite (proj2 (str_eqb_neq _ _) Hother). }
  assert (Hmain : ∀ l, s ∈ l → NoDup l → l ⊆ ss → exn_fold f l u = Ret (without_section u pkg s)).
  { induction l as [|x l IH]; intros Hsl Hndl Hsub; [set_solver|]. apply NoDup_cons in Hndl as [Hxl Hndl]. cbn [exn_fold]. destruct (decide (x = s)) as [->|Hxs].
    - assert (Ex : f u s = Ret (without_section u pkg s)); [|rewrite Ex; cbn [exn_bind]; apply Hrest; set_solver].
      unfold f. change (gets u pkg s (js "id")) with (quota_id u s). rewrite Hid, str_eqb_refl. apply removeSection_without; auto with quota; apply Hok.
    - assert (Ex : f u x = Ret u); [|rewrite Ex; cbn [exn_bind]; apply IH; set_solver].
      unfold f. rewrite (proj2 (str_eqb_neq _ _) (Hother x ltac:(set_solver) Hxs)). done. }
  by apply Hmain.
Qed.

Lemma delete_follows q q' t i r : follows q → qt_table q = Some t → t_body t !! i = Some r → removeQuota q (r_id r) = Ret q' → follows q'.
Proof.
  intros [Hok Hl] Et Hi H. rewrite Et in Hl.
  destruct (listed_row _ _ _ _ Hl Hi) as (D & ids & a & b & c & w & e & Hwf & HD & HF & Hnd & Hiff & Hid & Hcells & Hrd & Hcw & Hbr).
  unfold removeQuota in H. rewrite Et in H. cbn [exn_of_option exn_bind] in H. rewrite Hbr in H. cbn [exn_bind] in H.
  change rowCheckIndex with 3%nat in H. rewrite Hcw in H. cbn [exn_bind] in H.
  destruct (removeRow_data true false t D i r Hwf HD Hi) as (t' & Er & Hwf' & HD'). rewrite Er in H. cbn [exn_bind] in H.
  assert (Hhas : has_id (page_of q) (w_id w)) by (apply Hiff; by eapply list_elem_of_lookup_2).
  destruct (remove_one _ _ Hok Hhas) as (s & ss & Hw & Hsid & Huniq & Es & Ef). unfold removeQuotaCallback in H. fold (page_of q) in H.
  change (js "quota") with quota_type in H. rewrite Es in H. cbn [exn_bind] in H. rewrite Ef in H. cbn [exn_bind] in H. injection H as <-.
  destruct (without_ok _ s Hok Hw) as [Hok' Hids]. split; unfold page_of; cbn [with_table with_page qt_page qt_table q_uci]; [exact Hok'|].
  eexists t', _, (delete i ids). split_and!; [done|exact Hwf'|exact HD'| | |].
  - apply Forall2_fmap_r. apply (Forall2_impl shows_box).
    + apply Forall2_delete. exact HF.
    + intros x ds (a1 & b1 & c1 & w1 & e1 & -> & Hx). eexists _, _, _, _, _. split; [done|]. by destruct (w_type w1 =s js "button").
  - by eapply sublist_NoDup; [|apply sublist_delete].
  - intros id. rewrite (delete_elem ids i (w_id w) id Hnd Hid), Hiff, Hids. unfold has_id. split.
    + intros [Hne (x & Hx & Hq & E)]. exists x. split_and!; [done| |done|done]. intros ->. congruence.
    + intros (x & Hx & Hne & Hq & E). split; [|by exists x]. intros ->. by apply Hne, Huniq.
Qed.

(** *** Loading *)
Definition loaded_row (u : UCIContainer) (s : jstr) : list datum :=
  quota_row strings (toUpperCase (gets u pkg s (js "ip"))) (getTimeParametersFromUci strings u s true) (getLimitStrFromUci strings u s) (quota_id u s)
    (negb (gets u pkg s (js "enabled") =s js "0")).

Lemma load_quotas u ss rows : Forall (fun s => quota_id u s ≠ []) ss →
  exn_fold (load_quota strings u) ss (u, rows) = Ret (u, rows ++ map (loaded_row u) ss).
Proof.
  intros H. revert rows. induction H as [|s ss Hs _ IH]; intros rows; [cbn; by rewrite app_nil_r|]. cbn [exn_fold].
  unfold load_quota at 1. change (gets u pkg s (js "id")) with (quota_id u s). rewrite (proj2 (str_eqb_neq _ _) Hs). cbn [exn_bind].
  rewrite IH. cbn [map]. by rewrite <-app_assoc.
Qed.

Lemma quota_load_follows q q' : qt_orig q = page_of q → quotas_ok (page_of q) →
  (∀ s, name s → is_quota (page_of q) s → quota_id (page_of q) s ≠ []) →
  resetData strings qosMarkList fullQosEnabled tcInstalled q = Ret q' → follows q'.
Proof.
  intros Eo Hok Hids H. unfold resetData in H. rewrite Eo in H. destruct (quota_sections _ Hok) as (ss & Es & Hnd & Hn & Hiff).
  change (js "quota") with quota_type in H. rewrite Es in H. cbn [exn_bind] in H. fold (page_of q) in H.
  assert (Hne : Forall (fun s => quota_id (page_of q) s ≠ []) ss).
  { apply Forall_forall. intros s Hs. rewrite Forall_forall in Hn. apply Hids; [by apply Hn|]. by apply Hiff; [apply Hn|]. }
  rewrite load_quotas in H by done. cbn [exn_bind fst snd app] in H. binds H. injection H as <-. apply quota_setDocument_aside in E.
  eapply (quota_follows_aside a); [|by split]. eapply quota_follows_aside; [|exact E]. clear E E0.
  split; unfold page_of at 1; cbn [qt_page qt_table q_uci]; [done|].
  match goal with |- listed _ (Some (createTable ?l ?c ?rows ?i true false)) => destruct (createTable_data true false l c rows i) as [Hw HD] end.
  { apply Forall_map, Forall_forall. done. }
  eexists _, _, (map (quota_id (page_of q)) ss). split_and!; [done|exact Hw|exact HD| | |].
  - rewrite map_map. apply Forall2_fmap, Forall_Forall2_diag, Forall_forall. intros s _. eexists _, _, _, _, _. split; reflexivity.
  - apply NoDup_fmap_2_strong; [|done]. rewrite Forall_forall in Hn. intros x y Hx Hy E. apply (qo_unique _ Hok); [by apply Hn|by apply Hn|by apply Hiff; [apply Hn|]|by apply Hiff; [apply Hn|]|done].
  - intros id. rewrite list_elem_of_fmap. rewrite Forall_forall in Hn. unfold has_id, page_of. cbn [qt_page q_uci]. split.
    + intros (s & -> & Hs). exists s. split_and!; [by apply Hn|by apply Hiff; [apply Hn|]|done].
    + intros (s & Hs & Hq & <-). exists s. split; [done|]. by apply Hiff.
Qed.

(** What a user can do: fill the form and open the windows; add a quota; edit, switch
    and remove the quota of a row. *)
Inductive quota_step : quotas_state → quotas_state → Prop :=
| qs_form q q' : aside q q' → quota_step q q'
| qs_add q q' : addNewQuota strings fullQosEnabled tcInstalled q = Ret q' → quota_step q q'
| qs_edit q q' t i r w : qt_table q = Some t → t_body t !! i = Some r → cell_widget r rowCheckIndex = Ret w → w_id w ≠ [] →
    editQuotaRow strings q (r_id r) (w_id w) = Ret q' → quota_step q q'
| qs_click q q' t i r : qt_table q = Some t → t_body t !! i = Some r → setRowEnabled q (r_id r) = Ret q' → quota_step q q'
| qs_remove q q' t i r : qt_table q = Some t → t_body t !! i = Some r → removeQuota q (r_id r) = Ret q' → quota_step q q'.

Lemma quota_step_follows q q' : quota_step q q' → follows q → follows q'.
Proof.
  intros H Hf. destruct H.
  - by eapply quota_follows_aside.
  - by eapply quota_add_follows.
  - eapply quota_edit_follows; [done..|]. intros w' Hw'. rewrite H1 in Hw'. by injection Hw' as <-.
  - by eapply quota_click_follows.
  - by eapply delete_follows.
Qed.

(** C11: in a page of quotas that was loaded from the settings ([quota_load_follows]), whatever
    the user does with the form and with quotas (adding, editing, switching, removing),
    the table has exactly one row for each quota of the edited settings, with its
    identifier, and no two quotas have the same identifier. *)
Theorem quota_table_follows_settings q q' : follows q → rtc quota_step q q' → follows q'.
Proof. intros H0 Hs. induction Hs as [|? ? ? Hstep _ IH]; [done|]. apply IH. by eapply quota_step_follows. Qed.

End page.

(** ** Two quotas *)
Definition sample_quotas : UCIContainer :=
  let u := set new pkg (js "quota_1") [] (UStr quota_type) false in
  let u := set u pkg (js "quota_1") id_option (UStr (js "192.168.1.7")) false in
  let u := set u pkg (js "quota_2") [] (UStr quota_type) false in
  set u pkg (js "quota_2") id_option (UStr (js "ALL")) false.

Definition no_strings : quota_strings := mkQuotaStrings (fun s => s) (fun s => s).

Definition sample_state : quotas_state :=
  mkQuotas (mkQuotaPage (mkDoc ∅ []) None None sample_quotas ∅)
    (Some (createTable (js "Remove") [] (map (loaded_row no_strings sample_quotas) [js "quota_1"; js "quota_2"]) (js "quota_table") true false))
    sample_quotas [] [] None.

(** Without the first quota. *)
Definition sample_removed : quotas_state := match removeQuota sample_state 0 with Ret q => q | Raise _ => sample_state end.

Lemma sample_ok : quotas_ok sample_quotas.
Proof.
  assert (Hwf : wf sample_quotas) by (unfold sample_quotas; repeat apply set_wf; apply new_wf).
  pose proof (sectioned_shaped _ (check_sectioned _ Hwf eq_refl)) as Hsh.
  assert (Ha : pkg_unambiguous sample_quotas pkg) by (apply one_package_unambiguous; by_eval).
  assert (Hq : ∀ s, name s → is_quota sample_quotas s → s ∈ [js "quota_1"; js "quota_2"]).
  { intros s Hs. by apply (quota_listed sample_quotas). }
  split; [done|done|done| | |].
  - intros s _. change (listOptions sample_quotas) with (listOptions new). split; apply not_elem_of_empty.
  - intros s Hs Hqs. apply Hq in Hqs; [|done]. rewrite !elem_of_cons in Hqs. destruct Hqs as [->|[->|Hqs]]; [by_eval|by_eval|by apply elem_of_nil in Hqs].
  - intros s s' Hs Hs' Hqs Hqs' E. apply Hq in Hqs, Hqs'; [|done..]. rewrite !elem_of_cons in Hqs, Hqs'.
    destruct Hqs as [->|[->|Hqs]], Hqs' as [->|[->|Hqs']]; try done; (by apply elem_of_nil in Hqs) || (by apply elem_of_nil in Hqs').
Qed.

Lemma quota_sample_follows : follows sample_state.
Proof.
  pose proof sample_ok as Hok. split; [done|]. unfold sample_state at 2. cbn [qt_table].
  match goal with |- listed _ (Some (createTable ?l ?c ?rows ?i true false)) => destruct (createTable_data true false l c rows i) as [Hw HD] end.
  { by repeat constructor. }
  eexists _, _, [js "192.168.1.7"; js "ALL"]. split_and!; [done|exact Hw|exact HD| |by_eval|].
  - repeat constructor; eexists _, _, _, _, _; split; reflexivity.
  - intros id. split.
    + rewrite !elem_of_cons. intros [->|[->|H]]; [exists (js "quota_1")|exists (js "quota_2")|by apply elem_of_nil in H]; (split_and!; [by_eval|reflexivity..]).
    + intros (s & Hs & Hq & <-). apply (quota_listed sample_quotas [js "quota_1"; js "quota_2"]) in Hq; [|apply Hok|apply Hok|apply Hok|reflexivity|done].
      rewrite !elem_of_cons in Hq. destruct Hq as [->|[->|Hq]]; [by left|right; by left|by apply elem_of_nil in Hq].
Qed.

Lemma quota_table_follows_settings_witness :
  getAllSectionsOfType (page_of sample_state) pkg quota_type = Ret [js "quota_1"; js "quota_2"] ∧
  getAllSectionsOfType (page_of sample_removed) pkg quota_type = Ret [js "quota_2"] ∧ follows sample_removed.
Proof.
  split; [vm_compute; reflexivity|]. split; [vm_compute; reflexivity|].
  apply (quota_table_follows_settings no_strings false [] sample_state); [exact quota_sample_follows|]. apply rtc_once.
  eapply (qs_remove _ _ _ _ _ _ 0); [reflexivity|reflexivity|vm_compute; reflexivity].
Defined.
