(* ===== verification/Ddns.v ===== *)
(** * Dynamic DNS (plugin-gargoyle-ddns, ddns.js)

    The page has a table of services, one section of the package [ddns_gargoyle]
    each, and a window whose fields are made for the provider that is selected in
    a drop-down list: [setProvider] empties the container of these fields and fills
    it again.  The providers are read from the lines of a file.

    The language pack ([UI] and the members of [DyDNS]), the lines of the file, the
    installed scripts, the names of the interfaces and the local time of the browser
    are parameters.  A name of a variable is evaluated as an expression: a member of
    [DyDNS], or a name that is not defined; other expressions throw in the model. *)
From S2P Require Import Prelude JsNum JsString JsRegex JsFloat Uci Validate Table TableEdit Dom Modal Ports.
Import Uci Validate Table TableEdit Dom Modal Ports.
Open Scope Z_scope.

(** A provider; [None] is a property that was not set. *)
Record provider := mkProvider {
  pr_name : jstr;
  pr_variables : option (list jstr);
  pr_variable_names : option (list jstr);
  pr_optional_variables : list jstr;
  pr_optional_variable_names : list jstr;
  pr_boolean_variables : list jstr;
  pr_external_script : jstr
}.

(** The parts of a date in local time: month from 0, day, hours, minutes, seconds. *)
Record date := mkDate { d_month : Z; d_date : Z; d_hours : Z; d_minutes : Z; d_seconds : Z }.

(** The page: the document, the identifiers of the elements in
    [ddns_variable_container], the table, the globals. *)
Record ddns_page := mkDdns {
  dp_doc : document;
  dp_fields : list jstr;
  dp_table : option table;
  dp_uci : UCIContainer;
  dp_orig : UCIContainer;
  dp_providers : list provider;
  dp_new : list jstr;
  dp_updated : list jstr;
  dp_resetting : bool;
  dp_times : gmap jstr jstr
}.

Module Ddns.

Definition pkg : jstr := js "ddns_gargoyle".

Definition with_doc (p : ddns_page) (d : document) : ddns_page :=
  mkDdns d (dp_fields p) (dp_table p) (dp_uci p) (dp_orig p) (dp_providers p) (dp_new p) (dp_updated p) (dp_resetting p) (dp_times p).
Definition with_fields (p : ddns_page) (l : list jstr) : ddns_page :=
  mkDdns (dp_doc p) l (dp_table p) (dp_uci p) (dp_orig p) (dp_providers p) (dp_new p) (dp_updated p) (dp_resetting p) (dp_times p).
Definition with_table (p : ddns_page) (t : option table) : ddns_page :=
  mkDdns (dp_doc p) (dp_fields p) t (dp_uci p) (dp_orig p) (dp_providers p) (dp_new p) (dp_updated p) (dp_resetting p) (dp_times p).
Definition with_uci (p : ddns_page) (u : UCIContainer) : ddns_page :=
  mkDdns (dp_doc p) (dp_fields p) (dp_table p) u (dp_orig p) (dp_providers p) (dp_new p) (dp_updated p) (dp_resetting p) (dp_times p).
Definition with_orig (p : ddns_page) (u : UCIContainer) : ddns_page :=
  mkDdns (dp_doc p) (dp_fields p) (dp_table p) (dp_uci p) u (dp_providers p) (dp_new p) (dp_updated p) (dp_resetting p) (dp_times p).
Definition with_providers (p : ddns_page) (l : list provider) : ddns_page :=
  mkDdns (dp_doc p) (dp_fields p) (dp_table p) (dp_uci p) (dp_orig p) l (dp_new p) (dp_updated p) (dp_resetting p) (dp_times p).
Definition with_sections (p : ddns_page) (new updated : list jstr) : ddns_page :=
  mkDdns (dp_doc p) (dp_fields p) (dp_table p) (dp_uci p) (dp_orig p) (dp_providers p) new updated (dp_resetting p) (dp_times p).
Definition with_resetting (p : ddns_page) (b : bool) : ddns_page :=
  mkDdns (dp_doc p) (dp_fields p) (dp_table p) (dp_uci p) (dp_orig p) (dp_providers p) (dp_new p) (dp_updated p) b (dp_times p).
Definition with_times (p : ddns_page) (m : gmap jstr jstr) : ddns_page :=
  mkDdns (dp_doc p) (dp_fields p) (dp_table p) (dp_uci p) (dp_orig p) (dp_providers p) (dp_new p) (dp_updated p) (dp_resetting p) m.

(** ** The file of the providers *)
Definition re_service : re := Eval vm_compute in rx "^[\t ]*service[\t ]+".
Definition re_ervice : re := Eval vm_compute in rx "ervice[\t ]+".
Definition re_required : re := Eval vm_compute in rx "^[\t ]*required_variables[\t ]+".
Definition re_optional : re := Eval vm_compute in rx "^[\t ]*optional_variables[\t ]+".
Definition re_required_names : re := Eval vm_compute in rx "^[\t ]*required_variable_names[\t ]+".
Definition re_optional_names : re := Eval vm_compute in rx "^[\t ]*optional_variable_names[\t ]+".
Definition re_boolean : re := Eval vm_compute in rx "^[\t ]*boolean_variables[\t ]+".
Definition re_script : re := Eval vm_compute in rx "^[\t ]*external_script[\t ]+".
Definition re_ariables : re := Eval vm_compute in rx "ariables[\t ]+(.*)$".
Definition re_ariable_names : re := Eval vm_compute in rx "ariable_names[\t ]+(.*)$".
Definition re_script_part : re := Eval vm_compute in rx "script[\t ]+(.*)$".
Definition re_blanks : re := Eval vm_compute in rx "[\t ]+".
Definition re_comma : re := Eval vm_compute in rx ",".

Definition is_service (line : jstr) : bool := test re_service line.

(** A provider as its service line starts it. *)
Definition start_provider (line : jstr) : provider :=
  mkProvider (default (js "undefined") (split_re re_ervice line !! 1%nat)) None None [] [] [] [].

Definition with_required (l : option (list jstr)) (p : provider) : provider :=
  mkProvider (pr_name p) l (pr_variable_names p) (pr_optional_variables p) (pr_optional_variable_names p) (pr_boolean_variables p) (pr_external_script p).
Definition with_required_names (l : option (list jstr)) (p : provider) : provider :=
  mkProvider (pr_name p) (pr_variables p) l (pr_optional_variables p) (pr_optional_variable_names p) (pr_boolean_variables p) (pr_external_script p).
Definition with_optional (l : list jstr) (p : provider) : provider :=
  mkProvider (pr_name p) (pr_variables p) (pr_variable_names p) l (pr_optional_variable_names p) (pr_boolean_variables p) (pr_external_script p).
Definition with_optional_names (l : list jstr) (p : provider) : provider :=
  mkProvider (pr_name p) (pr_variables p) (pr_variable_names p) (pr_optional_variables p) l (pr_boolean_variables p) (pr_external_script p).
Definition with_boolean (l : list jstr) (p : provider) : provider :=
  mkProvider (pr_name p) (pr_variables p) (pr_variable_names p) (pr_optional_variables p) (pr_optional_variable_names p) l (pr_external_script p).
Definition with_script (s : jstr) (p : provider) : provider :=
  mkProvider (pr_name p) (pr_variables p) (pr_variable_names p) (pr_optional_variables p) (pr_optional_variable_names p) (pr_boolean_variables p) s.

(** One line below the service line. *)
Definition provider_line (p : provider) (line : jstr) : exn provider :=
  if test re_required line then
    let! part := match_group1 re_ariables line in Ret (with_required (Some (split_re re_blanks part)) p)
  else if test re_optional line then
    let! part := match_group1 re_ariables line in Ret (with_optional (split_re re_blanks part) p)
  else if test re_required_names line then
    let! part := match_group1 re_ariable_names line in Ret (with_required_names (Some (split_re re_comma part)) p)
  else if test re_optional_names line then
    let! part := match_group1 re_ariable_names line in Ret (with_optional_names (split_re re_comma part) p)
  else if test re_boolean line then
    let! part := match_group1 re_ariables line in Ret (with_boolean (split_re re_blanks part) p)
  else if test re_script line then
    let! part := match_group1 re_script_part line in Ret (with_script part p)
  else Ret p.

(** The inner loop: the index, the line and the provider after it. *)
Fixpoint provider_lines (fuel : nat) (data : list jstr) (i : nat) (line : jstr) (p : provider) : exn (nat * jstr * provider) :=
  match fuel with
  | O => Ret (i, line, p)
  | S f =>
      match data !! i with
      | Some next =>
          if is_service line then Ret (i, line, p)
          else let! p := provider_line p next in provider_lines f data (S i) next p
      | None => Ret (i, line, p)
      end
  end.

Definition complete (p : provider) : bool :=
  match pr_variables p, pr_variable_names p with Some _, Some _ => true | _, _ => false end.

(** The outer loop.  After a block that ended at the next service line the index
    goes back by two, and the loop adds one. *)
Fixpoint parse_providers (fuel : nat) (data : list jstr) (i : nat) (providers : list provider) : exn (list provider) :=
  match fuel with
  | O => Ret providers
  | S f =>
      match data !! i with
      | None => Ret providers
      | Some line =>
          if is_service line then
            let! r := provider_lines (length data) data (S i) [] (start_provider line) in
            let '(j, last, p) := r in
            let providers := if complete p then providers ++ [p] else providers in
            let j := if is_service last then (j - 2)%nat else j in
            parse_providers f data (S j) providers
          else parse_providers f data (S i) providers
      end
  end.

Definition parseProviderData (providerData : list jstr) : exn (list provider) :=
  parse_providers (length providerData) providerData 0%nat [].

(** [for(...; provider == null; ...)]: the first provider with a name. *)
Definition find_provider (l : list provider) (name : option jstr) : option provider :=
  List.find (fun p => bool_decide (Some (pr_name p) = name)) l.

(** The elements of a property that was set. *)
Definition variables (p : provider) : list jstr := default [] (pr_variables p).
(** [allBooleanVariables[v] == 1] *)
Definition is_boolean (p : provider) (v : jstr) : bool := bool_decide (v ∈ pr_boolean_variables p).

Definition re_v6 : re := Eval vm_compute in rx "(.*)_v6$".
(** The name of a provider as it is shown. *)
Definition shown_provider (name : jstr) : jstr :=
  match exec re_v6 name with Some m => group 1 m ++ js " (IPv6)" | None => name end.

(** [sort] by the texts in lower case; equal texts keep their order. *)
Definition lower_leb (a b : jstr) : bool := str_leb (toLowerCase a) (toLowerCase b).
Fixpoint insert_name (x : jstr) (l : list jstr) : list jstr :=
  match l with [] => [x] | y :: l' => if lower_leb y x then y :: insert_name x l' else x :: l end.
Definition sort_names (l : list jstr) : list jstr := fold_left (fun s x => insert_name x s) l [].

Definition afraid : jstr := js "freedns.afraid.org".
Definition is_afraid (p : provider) : bool := (pr_name p =s afraid) || (pr_name p =s afraid ++ js "_v6").

(** The names and the values of the list of providers. *)
Definition provider_choices (l : list provider) : list jstr * list jstr :=
  let others := List.filter (fun p => negb (is_afraid p)) l in
  let names := sort_names (map (fun p => shown_provider (pr_name p)) others) in
  let vals := sort_names (map pr_name others) in
  if existsb is_afraid l then
    (afraid :: (afraid ++ js " (IPv6)") :: names, afraid :: (afraid ++ js "_v6") :: vals)
  else (names, vals).

Definition getMultipleFromUnit (unit : jstr) : Z :=
  if unit =s js "minutes" then 60
  else if unit =s js "hours" then 60 * 60
  else if unit =s js "days" then 24 * 60 * 60
  else if unit =s js "weeks" then 7 * 24 * 60 * 60
  else 1.

(** [(multiple * interval) / unit], or a default where it is not positive. *)
Definition interval_text (u : UCIContainer) (section : jstr) (unitOption intervalOption : string) (unit : Z) (default_text : string) : jstr :=
  let seconds := Num.mul (Int (getMultipleFromUnit (gets u pkg section (js unitOption)))) (toNumber (gets u pkg section (js intervalOption))) in
  if Num.gtb seconds (Int 0) then JsFloat.num_quotient_text seconds unit else js default_text.

(** ** The domain of a service *)

(** The domain that is shown: the test domain, the domain or the provider. *)
Definition domain_of (u : UCIContainer) (section : jstr) : jstr :=
  let domain := gets u pkg section (js "domain") in
  let testDomain := gets u pkg section (js "test_domain") in
  let domain := if domain =s [] then gets u pkg section (js "service_provider") else domain in
  if testDomain =s [] then domain else testDomain.
Definition ipv6_of (u : UCIContainer) (section : jstr) : jstr :=
  let ipv6 := gets u pkg section (js "ipv6") in if ipv6 =s [] then js "0" else ipv6.

Definition set1 (u : UCIContainer) (section : jstr) (option : string) (v : jstr) : UCIContainer :=
  set u pkg section (js option) (UStr v) false.
Definition remove1 (u : UCIContainer) (section : jstr) (option : string) : UCIContainer :=
  fst (remove u pkg section (js option)).

Section page.
Context (UI : jstr → jstr) (DyDNS : gmap jstr jstr) (cNams : list jstr) (providerData : list jstr)
  (extScripts : list jstr) (wanIface lanIface : jstr) (localtime : jstr → date).

(** A text of the language pack. *)
Definition dy (k : string) : jstr := default (js "undefined") (DyDNS !! js k).

(** [eval] of the name of a variable. *)
Definition re_member : re := Eval vm_compute in rx "^DyDNS\.([A-Za-z_][A-Za-z0-9_]*)$".
Definition re_identifier : re := Eval vm_compute in rx "^[A-Za-z_][A-Za-z0-9_]*$".
Definition eval_name (s : jstr) : exn jstr :=
  let s := trim s in
  match exec re_member s with
  | Some m => Ret (default (js "undefined") (DyDNS !! group 1 m))
  | None => Raise (if test re_identifier s then ReferenceError else SyntaxError)
  end.

(** [ObjLen(DyDNS)==0 ? name : eval(name)]; a missing name is [undefined], which
    evaluates to itself. *)
Definition label_text (names : list jstr) (i : nat) : exn jstr :=
  match names !! i with
  | None => Ret (js "undefined")
  | Some name => if bool_decide (DyDNS = ∅) then Ret name else eval_name name
  end.

(** The provider that is selected: the text of a node where the page has one, or
    the value of the list. *)
Definition selected_provider (d : document) : exn (option jstr * document) :=
  match getElementById d (js "ddns_provider_text") with
  | Some e => let! s := exn_of_option TypeError (e_data e) in Ret (Some s, d)
  | None => getSelectedValue UI d (js "ddns_provider")
  end.

(** ** The fields of a provider *)
Definition label_el (text : jstr) : element := mkEl [] [] false false false [] (-1) [] [] (js "col-xs-5") (Some text).
Definition text_input : element := mkEl (js "text") [] false false false [] (-1) [] [] (js "form-control") None.
Definition check_input : element := mkEl (js "checkbox") [] false false false [] (-1) [] [] [] None.

Definition required_field (p : provider) (i : nat) (v : jstr) : exn (list (jstr * element)) :=
  let! text := label_text (default [] (pr_variable_names p)) i in
  Ret [(v ++ js "_label", label_el (text ++ js ":")); (v, if is_boolean p v then check_input else text_input)].

Definition optional_field (p : provider) (i : nat) (v : jstr) : exn (list (jstr * element)) :=
  let! text := label_text (pr_optional_variable_names p) i in
  let label := (v ++ js "_label", label_el (text ++ js ":")) in
  Ret (if is_boolean p v then [label; (v, check_input)]
       else [label; (v ++ js "_enabled", check_input); (v, text_input)]).

Definition provider_fields (p : provider) : exn (list (jstr * element)) :=
  let! required := exn_map (fun '(i, v) => required_field p i v) (imap (fun i v => (i, v)) (variables p)) in
  let! optional := exn_map (fun '(i, v) => optional_field p i v) (imap (fun i v => (i, v)) (pr_optional_variables p)) in
  Ret (concat required ++ concat optional).

(** The children of the container are removed and the new ones appended. *)
Definition drop_elements (d : document) (ids : list jstr) : document :=
  mkDoc (fold_left (fun m id => delete id m) ids (Dom.elements d)) (alerts d).
Definition put_elements (d : document) (l : list (jstr * element)) : document :=
  fold_left (fun d ie => put d (fst ie) (snd ie)) l d.

(** A text field is enabled as its box says. *)
Definition enable_optional (p : provider) (d : document) (v : jstr) : exn document :=
  if is_boolean p v then Ret d
  else let! check := el d (v ++ js "_enabled") in setElementEnabled d v (e_checked check) [].

Definition setProvider (q : ddns_page) : exn (option provider * ddns_page) :=
  let! sel := selected_provider (dp_doc q) in
  let d := snd sel in
  match find_provider (dp_providers q) (fst sel) with
  | None => Ret (None, with_doc q d)
  | Some p =>
      let missing := negb (pr_external_script p =s []) && negb (bool_decide (pr_external_script p ∈ extScripts)) in
      let! d := update d (js "ddns_no_script") (set_display (if missing then js "block" else js "none")) in
      let! fields := provider_fields p in
      let d := put_elements (drop_elements d (dp_fields q)) fields in
      let! d := exn_fold (enable_optional p) (pr_optional_variables p) d in
      Ret (Some p, with_fields (with_doc q d) (map fst fields))
  end.

(** The box beside an optional field; the first [_enabled] of its identifier is
    taken away. *)
Definition re_enabled : re := Eval vm_compute in rx "_enabled".
Definition click_optional (d : document) (id : jstr) : exn document :=
  let! d := update d id (fun e => set_checked (negb (e_checked e)) e) in
  let! check := el d id in
  setElementEnabled d (replace re_enabled [] id) (e_checked check) [].

(** ** The settings in the window *)

(** [appendChild(createTextNode(...))]: the first node stays the first one. *)
Definition append_text (s : jstr) (e : element) : element :=
  mkEl (e_type e) (e_text_value e) (e_checked e) (e_disabled e) (e_readOnly e) (e_options e) (e_selectedIndex e)
    (e_color e) (e_display e) (e_class e) (Some (default s (e_data e))).

Definition load_required (src : UCIContainer) (pkg section : jstr) (p : provider) (d : document) (v : jstr) : exn document :=
  update d v (if is_boolean p v then set_checked (gets src pkg section v =s js "1") else set_value (gets src pkg section v)).

Definition load_optional (src : UCIContainer) (pkg section : jstr) (p : provider) (d : document) (v : jstr) : exn document :=
  let s := gets src pkg section v in
  let! e := el d v in
  if is_boolean p v then update d v (set_checked (s =s js "1"))
  else
    let checked := negb (s =s []) in
    let! d := update d (v ++ js "_enabled") (set_checked checked) in
    let! d := (if checked then update d v (set_value s) else Ret d) in
    setElementEnabled d v checked [].

Definition setDocumentFromUci (q : ddns_page) (src : UCIContainer) (pkg section : jstr) : exn ddns_page :=
  let providerName := gets src pkg section (js "service_provider") in
  let d := dp_doc q in
  let! d := match getElementById d (js "ddns_provider_text") with
            | Some e => Ret (put d (js "ddns_provider_text") (append_text providerName e))
            | None => setSelectedValue d (js "ddns_provider") providerName
            end in
  let! r := setProvider (with_doc q d) in
  let '(found, q) := r in
  let! p := exn_of_option TypeError found in
  let! d := exn_fold (load_required src pkg section p) (variables p) (dp_doc q) in
  let! d := exn_fold (load_optional src pkg section p) (pr_optional_variables p) d in
  let! d := update d (js "ddns_check") (set_value (interval_text src section "check_unit" "check_interval" 60 "15")) in
  let! d := update d (js "ddns_force") (set_value (interval_text src section "force_unit" "force_interval" (24 * 60 * 60) "3")) in
  let ip_from := gets src Ddns.pkg section (js "ip_interface") in
  let! d := setSelectedValue d (js "ip_from") (if ip_from =s [] then js "internet" else ip_from) in
  Ret (with_doc q d).

(** ** The window stored *)
Definition store_required (p : provider) (section : jstr) (d : document) (u : UCIContainer) (v : jstr) : exn UCIContainer :=
  let! e := el d v in
  let s := if is_boolean p v then if e_checked e then js "1" else js "0" else value e in
  Ret (if s =s [] then u else set u pkg section v (UStr s) false).

Definition store_optional (p : provider) (section : jstr) (d : document) (u : UCIContainer) (v : jstr) : exn UCIContainer :=
  let! e := el d v in
  if is_boolean p v then Ret (set u pkg section v (UStr (if e_checked e then js "1" else js "0")) false)
  else
    let! check := el d (v ++ js "_enabled") in
    Ret (if e_checked check then set u pkg section v (UStr (value e)) false else u).

(** The options of every service; [None] is the [undefined] of a missing list. *)
Definition store_common (u : UCIContainer) (section providerName : jstr) (from : option jstr) (force check : jstr) : UCIContainer :=
  let u := set u pkg section [] (UStr (js "service")) false in
  let u := set1 u section "enabled" (js "1") in
  let u := set1 u section "service_provider" providerName in
  let u := if test re_v6 providerName then set1 u section "ipv6" (js "1") else remove1 u section "ipv6" in
  let u := if bool_decide (from = Some (js "internet"))
           then remove1 (set1 u section "ip_source" (js "internet")) section "ip_interface"
           else set1 (set1 u section "ip_source" (js "interface")) section "ip_interface" (default (js "undefined") from) in
  let u := set1 (set1 u section "force_interval" force) section "force_unit" (js "days") in
  set1 (set1 u section "check_interval" check) section "check_unit" (js "minutes").

(** An unknown provider is reported after the options that do not depend on it. *)
Definition setUciFromDocument (q : ddns_page) (section : jstr) : exn ddns_page :=
  let! sel := selected_provider (dp_doc q) in
  let d := snd sel in
  let! providerName := exn_of_option TypeError (fst sel) in
  let! u := removeSection (dp_uci q) pkg section in
  let! from := getSelectedValue UI d (js "ip_from") in
  let d := snd from in
  let! force := el d (js "ddns_force") in
  let! check := el d (js "ddns_check") in
  let u := store_common u section providerName (fst from) (value force) (value check) in
  match find_provider (dp_providers q) (Some providerName) with
  | None => Ret (with_uci (with_doc q (alert d (dy "InvErr"))) u)
  | Some p =>
      let! u := exn_fold (store_required p section d) (variables p) u in
      let! u := exn_fold (store_optional p section d) (pr_optional_variables p) u in
      Ret (with_uci (with_doc q d) u)
  end.

(** ** Validation *)
Definition notNull (s : jstr) : Z := validateLengthRange s 1 999.
Definition own_field (id : jstr) (f : jstr → Z) : field := mkField id (id ++ js "_label") f 0 (Some id).

(** The optional variables whose fields are used. *)
Definition used_optional (p : provider) (d : document) : exn (list jstr) :=
  exn_fold (fun l v =>
    if is_boolean p v then Ret l
    else let! check := el d (v ++ js "_enabled") in Ret (if e_checked check then l ++ [v] else l))
    (pr_optional_variables p) [].

Definition text_variables (p : provider) : list jstr := List.filter (fun v => negb (is_boolean p v)) (variables p).

Definition service_fields (p : provider) (d : document) : exn (list field) :=
  let! optional := used_optional p d in
  Ret ([own_field (js "ddns_check") validateNumeric; own_field (js "ddns_force") validateNumeric]
       ++ map (fun v => own_field v notNull) (text_variables p ++ optional)).

(** The domain in the window. *)
Definition form_domain (d : document) (providerName : jstr) : jstr :=
  let domain := match getElementById d (js "domain") with Some e => value e | None => providerName end in
  match getElementById d (js "test_domain") with
  | Some e => if value e =s [] then domain else value e
  | None => domain
  end.

Definition form_ipv6 (providerName : jstr) : jstr := if test re_v6 providerName then js "1" else js "0".

Definition is_duplicate (u : UCIContainer) (services : list jstr) (domain ipv6 : jstr) : bool :=
  existsb (fun s => (domain_of u s =s domain) && (ipv6 =s ipv6_of u s)) services.

(** Without a provider the result is [undefined], whose length both callers read:
    that throws. *)
Definition proofreadServiceProvider (q : ddns_page) : exn (list jstr * ddns_page) :=
  let! sel := selected_provider (dp_doc q) in
  let! p := exn_of_option TypeError (find_provider (dp_providers q) (fst sel)) in
  let providerName := default [] (fst sel) in
  let! fields := service_fields p (snd sel) in
  let! r := proofreadFields UI (snd sel) fields in
  let '(errors, d) := r in
  let! optional := used_optional p d in
  let! d := exn_fold (fun d v => update d v (set_class [])) (text_variables p ++ optional) d in
  let! errors := (if (length errors =? 0)%nat then
      let! services := getAllSectionsOfType (dp_uci q) pkg (js "service") in
      Ret (if is_duplicate (dp_uci q) services (form_domain d providerName) (form_ipv6 providerName) then [dy "DupErr"] else [])
    else Ret errors) in
  Ret (errors, with_doc q d).

(** ** The table *)
Definition check_column : nat := 3.
Definition update_column : nat := 5.

Definition createEnabledCheckbox (checked : bool) (id : jstr) : widget :=
  MkWidget (js "checkbox") [] false [] checked id [].
Definition createEditButton : widget := mkWidget (js "button") (UI (js "Edit")) false (js "btn btn-default btn-edit") false.
Definition createForceUpdateButton : widget := mkWidget (js "button") (dy "ForceU") false (js "btn btn-default btn-update") false.

Definition twod (n : Z) : jstr := let s := str_of_Z n in if zlen s =? 1 then js "0" ++ s else s.

(** The time of the last update in the format of the system. *)
Definition update_text (dateformat : jstr) (t : date) : jstr :=
  let m := twod (d_month t + 1) in
  let d := twod (d_date t) in
  let h := js " " ++ str_of_Z (d_hours t) ++ js ":" ++ twod (d_minutes t) ++ js ":" ++ twod (d_seconds t) in
  if dateformat =s js "hungary" then m ++ js "." ++ d ++ h
  else if dateformat =s js "iso8601" then m ++ js "-" ++ d ++ h
  else if dateformat =s js "argentina" then d ++ js "/" ++ m ++ h
  else if dateformat =s js "russia" then d ++ js "." ++ m ++ h
  else if (dateformat =s []) || (dateformat =s js "usa") || (dateformat =s js "iso") then m ++ js "/" ++ d ++ h
  else d ++ js "/" ++ m ++ h.

Definition service_row (domain provider lastUpdate : jstr) (checked enabled : bool) (section : jstr) : list datum :=
  [DStr domain; DStr provider; DStr lastUpdate; DObj (createEnabledCheckbox checked section); DObj createEditButton;
   DObj (if enabled then createForceUpdateButton else enable_button false createForceUpdateButton)].

Definition load_service (q : ddns_page) (section : jstr) : list datum :=
  let u := dp_orig q in
  let lastUpdate := match dp_times q !! section with
                    | Some t => update_text (gets u (js "gargoyle") (js "global") (js "dateformat")) (localtime t)
                    | None => UI (js "never")
                    end in
  let enabled := gets u pkg section (js "enabled") =s js "1" in
  service_row (domain_of u section) (shown_provider (gets u pkg section (js "service_provider"))) lastUpdate enabled enabled section.

(** The boxes are set again in the third column, which holds a text: that changes
    nothing. *)
Definition resetData (q : ddns_page) : exn ddns_page :=
  let! d := initializeDescriptionVisibility UI None None None (dp_doc q) (dp_orig q) (js "ddns_1") in
  let! orig := removeSection (dp_orig q) (js "gargoyle") (js "help") in
  let! uci := clone orig in
  let! providers := parseProviderData providerData in
  let q := with_sections (with_providers (with_uci (with_orig (with_doc q d) orig) uci) providers) [] [] in
  let '(names, vals) := provider_choices providers in
  let! d := setAllowableSelections UI (dp_doc q) (js "ddns_provider") (Some vals) (Some names) in
  let! d := setSelectedValue d (js "ddns_provider") afraid in
  let q := with_doc q d in
  let! q := (if dp_resetting q then Ret q else setDocumentFromUci q new [] []) in
  let q := with_resetting q false in
  let! sections := getAllSections (dp_uci q) pkg in
  let t := createTable (UI (js "Remove")) (map DStr cNams) (map (load_service q) sections) (js "ddns_table") true false in
  let! d := setAllowableSelections UI (dp_doc q) (js "ip_from") (Some [js "internet"; wanIface; lanIface])
              (Some [js "Internet"; wanIface ++ js " (WAN)"; lanIface ++ js " (LAN)"]) in
  Ret (with_table (with_doc q d) (Some t)).

(** ** Adding, editing, removing *)
Fixpoint free_number (fuel : nat) (u : UCIContainer) (n : Z) : Z :=
  match fuel with
  | O => n
  | S f => if gets u pkg (js "ddns_" ++ str_of_Z n) [] =s [] then n else free_number f u (n + 1)
  end.
Definition free_section (u : UCIContainer) (sections : list jstr) : jstr :=
  js "ddns_" ++ str_of_Z (free_number (S (length (keys u))) u (1 + zlen sections)).

Definition newline : jstr := [10].
Definition alert_errors (q : ddns_page) (errors : list jstr) (message : jstr) : ddns_page :=
  with_doc q (alert (dp_doc q) (join newline errors ++ newline ++ newline ++ message)).

Definition addDdnsService (q : ddns_page) : exn ddns_page :=
  let! r := proofreadServiceProvider q in
  let '(errorList, q) := r in
  if (0 <? length errorList)%nat then Ret (alert_errors q errorList (UI (js "ErrChanges")))
  else
    let! sections := getAllSections (dp_uci q) pkg in
    let section := free_section (dp_uci q) sections in
    let! sel := getSelectedValue UI (dp_doc q) (js "ddns_provider") in
    let! q := setUciFromDocument (with_doc q (snd sel)) section in
    let! providerName := exn_of_option TypeError (fst sel) in
    let domain := gets (dp_uci q) pkg section (js "domain") in
    let testDomain := gets (dp_uci q) pkg section (js "test_domain") in
    let domain := if domain =s [] then providerName else domain in
    let domain := if testDomain =s [] then domain else testDomain in
    let! t := exn_of_option TypeError (dp_table q) in
    let t := addTableRow (UI (js "Remove")) t (service_row domain (shown_provider providerName) (UI (js "never")) true true section) true false in
    let! q := setDocumentFromUci (with_table q (Some t)) new [] [] in
    Ret (with_sections q (dp_new q ++ [section]) (dp_updated q ++ [section])).

(** The button of a row removes the row, then its section. *)
Definition removeServiceProvider (q : ddns_page) (row : nat) : exn ddns_page :=
  let! t := exn_of_option TypeError (dp_table q) in
  let! r := body_row t row in
  let! w := cell_widget r check_column in
  let! t := removeThisCellsRow t row in
  let! u := removeSection (dp_uci q) pkg (w_id w) in
  Ret (with_uci (with_table q (Some t)) u).

(** A click changes the box, then [setRowEnabled] runs. *)
Definition setRowEnabled (q : ddns_page) (row : nat) : exn ddns_page :=
  let! t := exn_of_option TypeError (dp_table q) in
  let! r := body_row t row in
  let! w := cell_widget r check_column in
  let enabled := negb (w_checked w) in
  let! r := set_widget check_column (check_widget enabled) r in
  let! r := set_widget update_column (enable_button enabled) r in
  let u := set1 (dp_uci q) (w_id w) "enabled" (if enabled then js "1" else js "0") in
  let q := with_sections q (dp_new q) (dp_updated q ++ [w_id w]) in
  Ret (with_uci (with_table q (Some (set_body_row t row r))) u).

(** The error of a duplicate is compared as an expression. *)
Definition editServiceTableRow (q : ddns_page) (editRow : nat) (section providerName selectedDomain : jstr) : exn ddns_page :=
  let newDomain := form_domain (dp_doc q) providerName in
  let! r := proofreadServiceProvider q in
  let '(errors, q) := r in
  let! errors := (match errors with
                  | [e] => let! dup := match_string e (dy "DupErr") in
                           Ret (if dup && (newDomain =s selectedDomain) then [] else errors)
                  | _ => Ret errors
                  end) in
  if (0 <? length errors)%nat then Ret (alert_errors q errors (dy "UpSrvErr"))
  else
    let! t := exn_of_option TypeError (dp_table q) in
    let! r := body_row t editRow in
    let! r := set_row_data 0 newDomain r in
    let! q := setUciFromDocument (with_table q (Some (set_body_row t editRow r))) section in
    Ret (with_sections q (dp_new q) (dp_updated q ++ [section])).

(** ** Windows *)
Definition addDDNSModal (q : ddns_page) : exn ddns_page :=
  let! r := setProvider q in
  let q := snd r in
  Ret (with_doc q (modalPrepare (dp_doc q) [])).

(** The page and what the window remembers: the section, the provider, the domain. *)
Definition editDDNSModal (q : ddns_page) (row : nat) : exn (ddns_page * (jstr * jstr * jstr)) :=
  let! t := exn_of_option TypeError (dp_table q) in
  let! r := body_row t row in
  let! w := cell_widget r check_column in
  let section := w_id w in
  let! q' := setDocumentFromUci q (dp_uci q) pkg section in
  Ret (with_doc q' (modalPrepare (dp_doc q') [mkModal (js "ddns_provider") None None None (Some true)]),
       (section, gets (dp_uci q) pkg section (js "service_provider"), domain_of (dp_uci q) section)).

(** ** Saving *)
Definition delete_command (section : jstr) : jstr := js "uci del ddns_gargoyle." ++ section.
Definition testCommands : list jstr := [js "/etc/init.d/ddns_gargoyle stop"; js "/etc/init.d/ddns_gargoyle test_config"].

(** The commands that are sent first. *)
Definition saveChanges (q : ddns_page) : exn jstr :=
  let! diffBase := clone (dp_orig q) in
  let! sections := getAllSections (dp_orig q) pkg in
  let! diffBase := exn_fold (fun u s => removeSection u pkg s) sections diffBase in
  let deleteCommands := map delete_command sections ++ [js "uci commit"] in
  let createCommands := getScriptCommands (dp_uci q) diffBase in
  Ret (join newline deleteCommands ++ newline ++ createCommands ++ newline ++ join newline testCommands).

Definition re_lines : re := Eval vm_compute in rx "[\r\n]+".

(** A section whose update failed, when it is a new one: the window is filled with
    it and it is removed. *)
Definition drop_failed (st : ddns_page * list jstr * list jstr) (name : jstr) : exn (ddns_page * list jstr * list jstr) :=
  let '(q, failed, commands) := st in
  if bool_decide (name ∈ dp_new q) then
    let! q := setDocumentFromUci (with_resetting q true) (dp_uci q) pkg name in
    let domain := gets (dp_uci q) pkg name (js "domain") in
    let domain := if domain =s [] then gets (dp_uci q) pkg name (js "service_provider") else domain in
    let! u := removeSection (dp_uci q) pkg name in
    Ret (with_uci q u, failed ++ [domain], commands ++ [delete_command name])
  else Ret st.

Definition failed_names (names success : list jstr) : list jstr :=
  if (length names =? length success)%nat
  then map fst (List.filter (fun ns => snd ns =s js "0") (zip names success)) else [].

(** The answer of the first commands; the result has the commands sent next. *)
Definition saveChangesPart2 (q : ddns_page) (response : jstr) : exn (ddns_page * jstr) :=
  let q := with_resetting q false in
  let responseLines := split_re re_lines response in
  let! names := exn_of_option TypeError (responseLines !! 0%nat) in
  let! success := exn_of_option TypeError (responseLines !! 1%nat) in
  let! st := exn_fold drop_failed (failed_names (split_re re_blanks names) (split_re re_blanks success)) (q, [], []) in
  let '(q, newFailedDomains, deleteCommands) := st in
  let deleteCommands := deleteCommands ++ [js "uci commit"] in
  let q := if (0 <? length newFailedDomains)%nat
           then with_doc q (alert (dp_doc q) (dy "UpErr1" ++ js ":" ++ newline ++ join newline newFailedDomains ++ newline ++ newline ++ dy "UpErr2"))
           else q in
  let! sections := getAllSections (dp_uci q) pkg in
  let times := map (fun s => js "echo " ++ s ++ js " $(cat /var/last_ddns_updates/" ++ s ++ js ")") sections in
  Ret (q, join newline deleteCommands ++ newline ++ js "/etc/init.d/ddns_gargoyle enable" ++ newline
          ++ js "/etc/init.d/ddns_gargoyle restart" ++ newline ++ join newline times).

(** A time that is missing is [undefined], which counts as none. *)
Definition set_time (m : gmap jstr jstr) (section : jstr) (t : option jstr) : gmap jstr jstr :=
  match t with Some t => <[section := t]> m | None => delete section m end.

(** The answer of the second commands. *)
Definition saved (q : ddns_page) (response : jstr) : exn ddns_page :=
  let responseLines := split_re re_lines response in
  let times := fold_left (fun m line =>
      let lineParts := split_re re_blanks line in set_time m (default [] (lineParts !! 0%nat)) (lineParts !! 1%nat))
    (take (length responseLines - 1) responseLines) (dp_times q) in
  let! orig := clone (dp_uci q) in
  resetData (with_orig (with_times q times) orig).

(** [Some]: the commands that update the service of a row; [None]: only the alert. *)
Definition forceUpdateForRow (q : ddns_page) (row : nat) : exn (ddns_page * option jstr) :=
  let! t := exn_of_option TypeError (dp_table q) in
  let! r := body_row t row in
  let! _sections := getAllSections (dp_uci q) pkg in
  let! w := cell_widget r check_column in
  let section := w_id w in
  Ret (if bool_decide (section ∈ dp_updated q) then (with_doc q (alert (dp_doc q) (dy "ModErr")), None)
       else (q, Some (js "/usr/bin/ddns_gargoyle -P /etc/ddns_providers.conf -C /etc/ddns_gargoyle.conf -m -f " ++ section
                      ++ newline ++ js "echo $(cat /var/last_ddns_updates/" ++ section ++ js ") "))).

Definition re_zero : re := Eval vm_compute in rx "0".
Definition force_answer (q : ddns_page) (section response : jstr) : exn ddns_page :=
  let responseLines := split_re re_lines response in
  if test re_zero (default [] (responseLines !! 0%nat)) then Ret (with_doc q (alert (dp_doc q) (dy "UpFErr")))
  else resetData (with_times (with_doc q (alert (dp_doc q) (dy "UpOK"))) (set_time (dp_times q) section (responseLines !! 1%nat))).

End page.

End Ddns.
