(* ===== verification/DdnsFacts.v ===== *)
(** * The file of the providers (ddns.js)

    The loops of [parseProviderData] go over the lines with an index that is moved
    back at the end of a block.  They compute the providers of the blocks of the
    file: a service line with the lines below it up to the next one. *)
From S2P Require Import Prelude JsNum JsString JsRegex Uci Table TableFacts Ddns.
Import Uci Table Ddns.
Open Scope Z_scope.

(** ** Blocks *)

(** The service lines, each with the lines up to the next one. *)
Fixpoint blocks (lines : list jstr) : list (jstr * list jstr) :=
  match lines with
  | [] => []
  | l :: ls => if is_service l then (l, fst (span (fun x => negb (is_service x)) ls)) :: blocks ls else blocks ls
  end.

Definition block_provider (b : jstr * list jstr) : exn provider := exn_fold provider_line (snd b) (start_provider (fst b)).

(** ** A service line is not a line of a block *)

Lemma blank_prefix c r s : test (RSeq RBol (RSeq (RRep 0 None blank_set) (RSeq (RChr c) r))) s = true →
  ∃ a b, s = a ++ c :: b ∧ Forall (λ x, is_blank x = true) a.
Proof.
  intros (w & suf & k & -> & H)%test_bol. apply mt_seq_iff in H as (w1 & w2 & k1 & -> & H1 & H2).
  apply mt_seq_iff in H2 as (w3 & w4 & k2 & -> & H2 & H3). apply mt_chr_iff in H2 as [-> _].
  exists w1, (w4 ++ suf). split; [by rewrite <- app_assoc|]. unfold blank_set in H1.
  apply mt_rep_set_iff in H1 as [H1 _]; done.
Qed.

Lemma first_not_blank a b a' b' c c' : Forall (λ x, is_blank x = true) a → Forall (λ x, is_blank x = true) a' →
  is_blank c = false → is_blank c' = false → a ++ c :: b = a' ++ c' :: b' → c = c'.
Proof.
  revert a'. induction a as [|x a IH]; intros [|y a'] Ha Ha' Hc Hc' E; simplify_eq/=; [done|..].
  - apply Forall_inv in Ha'. congruence.
  - apply Forall_inv in Ha. congruence.
  - apply Forall_inv_tail in Ha, Ha'. eauto.
Qed.

Lemma other_keyword c r s : is_blank c = false → c ≠ 115 → is_service s = true →
  test (RSeq RBol (RSeq (RRep 0 None blank_set) (RSeq (RChr c) r))) s = false.
Proof.
  intros Hb Hc Hs. apply not_true_iff_false. intros (a & b & -> & Ha)%blank_prefix.
  apply (blank_prefix 115) in Hs as (a' & b' & E & Ha'). apply Hc. by eapply (first_not_blank a b a' b').
Qed.

Lemma service_line_ignored p line : is_service line = true → provider_line p line = Ret p.
Proof.
  intros H. unfold provider_line.
  replace (test re_required line) with false by (symmetry; by apply (other_keyword 114)).
  replace (test re_optional line) with false by (symmetry; by apply (other_keyword 111)).
  replace (test re_required_names line) with false by (symmetry; by apply (other_keyword 114)).
  replace (test re_optional_names line) with false by (symmetry; by apply (other_keyword 111)).
  replace (test re_boolean line) with false by (symmetry; by apply (other_keyword 98)).
  by replace (test re_script line) with false by (symmetry; by apply (other_keyword 101)).
Qed.

(** ** The loops *)
Local Abbreviation below := (span (fun x => negb (is_service x))).

(** The lines below a service line up to the end of its block. *)
Lemma provider_lines_spec fuel data i line p : (length data ≤ fuel + i)%nat → is_service line = false →
  ∃ last, is_service last = false ∧
    provider_lines fuel data i line p =
    let! p := exn_fold provider_line (fst (below (drop i data))) p in
    Ret (match snd (below (drop i data)) with
         | [] => ((i + length (fst (below (drop i data))))%nat, last, p)
         | s :: _ => (S (i + length (fst (below (drop i data)))), s, p)
         end).
Proof.
  revert i line p. induction fuel as [|fuel IH]; intros i line p Hf Hl.
  - exists line. split; [done|]. rewrite drop_ge by lia. simpl. by rewrite Nat.add_0_r.
  - simpl. destruct (data !! i) as [next|] eqn:E.
    2:{ exists line. split; [done|]. apply lookup_ge_None_1 in E. rewrite drop_ge by lia. simpl. by rewrite Nat.add_0_r. }
    rewrite Hl. rewrite (drop_S data next i) by done. simpl. destruct (is_service next) eqn:En; simpl.
    + exists line. split; [done|]. rewrite service_line_ignored by done. simpl. rewrite Nat.add_0_r.
      destruct fuel; simpl; [done|]. rewrite En. by destruct (data !! S i).
    + destruct (provider_line p next) as [p'|err] eqn:Ep.
      * destruct (IH (S i) next p') as (last & Hlast & Eq); [lia|done|]. exists last. split; [done|]. simpl. rewrite Eq.
        destruct (below (drop (S i) data)) as [body tl]; simpl. rewrite Ep. simpl. by rewrite Nat.add_succ_r.
      * exists line. split; [done|]. destruct (below (drop (S i) data)) as [body tl]; simpl. by rewrite Ep.
Qed.

Lemma blocks_skip l : blocks l = blocks (snd (below l)).
Proof.
  induction l as [|x l IH]; simpl; [done|]. destruct (is_service x) eqn:E; simpl; [by rewrite E|].
  rewrite IH. by destruct (below l).
Qed.

Lemma parse_providers_spec fuel data i acc : (length data ≤ fuel + i)%nat →
  parse_providers fuel data i acc =
  let! ps := exn_map block_provider (blocks (drop i data)) in Ret (acc ++ List.filter complete ps).
Proof.
  revert i acc. induction fuel as [|fuel IH]; intros i acc Hf.
  - rewrite drop_ge by lia. simpl. by rewrite app_nil_r.
  - simpl. destruct (data !! i) as [line|] eqn:E.
    2:{ apply lookup_ge_None_1 in E. rewrite drop_ge by lia. simpl. by rewrite app_nil_r. }
    rewrite (drop_S data line i) by done. simpl. destruct (is_service line) eqn:El; simpl; [|apply IH; lia].
    destruct (provider_lines_spec (length data) data (S i) [] (start_provider line)) as (last & Hlast & ->); [lia|done|].
    unfold block_provider at 1. simpl. rewrite (blocks_skip (drop (S i) data)).
    pose proof (span_app (λ x, negb (is_service x)) (drop (S i) data)) as Hsp.
    destruct (below (drop (S i) data)) as [body tl] eqn:Eb. simpl.
    destruct (exn_fold provider_line body (start_provider line)) as [p|err]; simpl; [|done].
    assert (Hd : drop (S i + length body) data = tl).
    { rewrite <- drop_drop, Hsp. apply drop_app_length. }
    assert (Hs : match tl with [] => True | s :: _ => is_service s = true end).
    { clear -Eb. revert body Eb. induction (drop (S i) data) as [|x l IHl]; intros body Eb; simpl in Eb; [by simplify_eq|].
      destruct (is_service x) eqn:Ex; simpl in Eb; [by simplify_eq|]. destruct (below l) as [b t]. simplify_eq. by eapply IHl. }
    destruct tl as [|s tl].
    + rewrite Hlast, IH by lia. simpl. rewrite drop_ge; [simpl; destruct (complete p); by rewrite ?app_nil_r|].
      apply (f_equal length) in Hd. rewrite length_drop in Hd. simpl in Hd. lia.
    + rewrite Hs, IH by lia.
      replace (S (S (S (i + length body)) - 2))%nat with (S i + length body)%nat by lia. rewrite Hd.
      destruct (exn_map block_provider (blocks (s :: tl))); simpl; [|done].
      destruct (complete p); [by rewrite <- app_assoc|done].
Qed.

(** C14: The providers that the page reads from the lines of the provider file are those of the
    blocks of the file, in order: a block is a service line with the lines below it up to the
    next service line, each of which sets the property it names, and a block without required
    variables or their names is left out.  The loops, whose index moves back by two lines at the
    end of each block, reach every block once and end. *)
Theorem providers_by_blocks (data : list jstr) :
  parseProviderData data = let! ps := exn_map block_provider (blocks data) in Ret (List.filter complete ps).
Proof. unfold parseProviderData. by rewrite parse_providers_spec by lia. Qed.

(** ** A provider of the file that is shipped *)
Definition easydns_lines : list jstr :=
  [js "service easydns.com";
   js "    required_variables          domain username password";
   js "    required_variable_names     DyDNS.DoNm,DyDNS.UsrN,DyDNS.Pssw";
   js "    optional_variables          mx wildcard";
   js "    optional_variable_names     MX,Wildcard";
   js "    boolean_variables           wildcard"].
Definition easydns : provider :=
  mkProvider (js "easydns.com") (Some [js "domain"; js "username"; js "password"])
    (Some [js "DyDNS.DoNm"; js "DyDNS.UsrN"; js "DyDNS.Pssw"]) [js "mx"; js "wildcard"] [js "MX"; js "Wildcard"] [js "wildcard"] [].
Example easydns_parsed : parseProviderData easydns_lines = Ret [easydns].
Proof. vm_compute. reflexivity. Qed.

(** Its optional names are not members of [DyDNS]: with a language pack loaded, the
    fields of the provider cannot be made. *)
Lemma easydns_window_throws DyDNS : DyDNS ≠ ∅ → provider_fields DyDNS easydns = Raise ReferenceError.
Proof.
  intros Hd. unfold provider_fields, required_field, optional_field, label_text. rewrite bool_decide_eq_false_2 by done.
  vm_compute. reflexivity.
Qed.
