(* ===== verification/DdnsUse.v ===== *)
(** * Dynamic DNS services stay apart

    The page refuses a second service with the domain and the address family of one
    that it has.  This file follows everything a user can do on the page (opening and
    closing the windows, choosing a provider, typing, ticking, adding, editing,
    switching and removing services) and shows that the check is enough: no two
    services of the edited settings update the same domain with the same family, and
    the table has one row for each service, which shows its domain. *)
From S2P Require Import Prelude JsNum JsString JsRegex Uci UciFacts UciScript Sections Validate Table TableFacts TableEdit Dom FormFacts Modal Ports Ddns.
Import Uci Validate Table TableEdit Dom Modal Ports Ddns.
Open Scope Z_scope.

Lemma word_ddns : word pkg.
Proof. by_eval. Qed.
Lemma name_ddns : name pkg.
Proof. apply word_name, word_ddns. Qed.
Create HintDb ddns.
#[local] Hint Resolve word_ddns name_ddns word_name : ddns.

(** ** The settings *)
Definition service (u : UCIContainer) (s : jstr) : Prop := gets u pkg s [] = js "service".
Definition provider_of (u : UCIContainer) (s : jstr) : jstr := gets u pkg s (js "service_provider").

Record services_ok (u : UCIContainer) : Prop := {
  so_wf : wf u;
  so_shaped : shaped u;
  so_own : pkg_unambiguous u pkg;
  so_words : ∀ s, name s → service u s → word s;
  so_family : ∀ s, name s → service u s → ipv6_of u s = form_ipv6 (provider_of u s);
  so_apart : ∀ s s', name s → name s' → service u s → service u s' →
    domain_of u s = domain_of u s' → ipv6_of u s = ipv6_of u s' → s = s'
}.

(** The options that say which domain a service updates. *)
Definition watched : list jstr := map js [""; "domain"; "test_domain"; "service_provider"; "ipv6"]%string.

Lemma watched_name o : o ∈ watched → o = [] ∨ name o.
Proof. intros H. unfold watched in H. cbn [map] in H. repeat (apply elem_of_cons in H as [->|H]; [first [by left|right; by_eval]|]). set_solver. Qed.

(** Two settings that agree on a section. *)
Definition same_service (u u' : UCIContainer) (s : jstr) : Prop := ∀ o, o ∈ watched → get u' pkg s o = get u pkg s o.

Lemma same_service_spec u u' s : same_service u u' s →
  (service u' s ↔ service u s) ∧ domain_of u' s = domain_of u s ∧ ipv6_of u' s = ipv6_of u s ∧ provider_of u' s = provider_of u s.
Proof.
  intros H. assert (Hg : ∀ o, o ∈ watched → gets u' pkg s o = gets u pkg s o) by (intros o Ho; unfold gets; by rewrite H).
  unfold service, domain_of, ipv6_of, provider_of.
  rewrite (Hg []), (Hg (js "domain")), (Hg (js "test_domain")), (Hg (js "service_provider")), (Hg (js "ipv6")) by by_eval. done.
Qed.

(** A service written to a section. *)
Record stored_service (sec dom fam : jstr) (u u' : UCIContainer) : Prop := {
  ss_wf : wf u';
  ss_shaped : shaped u';
  ss_own : pkg_unambiguous u' pkg;
  ss_word : word sec;
  ss_frame : ∀ s, name s → s ≠ sec → same_service u u' s;
  ss_service : service u' sec;
  ss_domain : domain_of u' sec = dom;
  ss_family : ipv6_of u' sec = fam;
  ss_provider : fam = form_ipv6 (provider_of u' sec)
}.

Lemma stored_service_ok sec dom fam u u' : services_ok u → stored_service sec dom fam u u' →
  (∀ s, name s → s ≠ sec → service u s → domain_of u s = dom → ipv6_of u s = fam → False) → services_ok u'.
Proof.
  intros Hok Hst Hfresh. assert (Hs : ∀ s, name s → s ≠ sec → (service u' s ↔ service u s) ∧ domain_of u' s = domain_of u s ∧ ipv6_of u' s = ipv6_of u s ∧ provider_of u' s = provider_of u s).
  { intros s Hn Hne. by apply same_service_spec, Hst. }
  split; [apply Hst..| | |].
  - intros s Hn Hsv. destruct (decide (s = sec)) as [->|Hne]; [apply Hst|]. apply (so_words _ Hok); [done|]. by apply Hs.
  - intros s Hn Hsv. destruct (decide (s = sec)) as [->|Hne]; [rewrite (ss_family _ _ _ _ _ Hst); apply Hst|].
    destruct (Hs s Hn Hne) as (H1 & _ & -> & ->). apply (so_family _ Hok); [done|]. by apply H1.
  - assert (Hno : ∀ s, name s → s ≠ sec → service u' s → domain_of u' s = dom → ipv6_of u' s = fam → False).
    { intros s Hn Hne Hsv Hd Hf. destruct (Hs s Hn Hne) as (H1 & H2 & H3 & _). rewrite H2 in Hd. rewrite H3 in Hf. apply (Hfresh s); [done..| |done|done]. by apply H1. }
    intros s s' Hn Hn' Hsv Hsv' Hd Hf. pose proof (ss_domain _ _ _ _ _ Hst) as Ed. pose proof (ss_family _ _ _ _ _ Hst) as Ef.
    destruct (decide (s = sec)) as [->|Hne], (decide (s' = sec)) as [->|Hne']; [done| | |].
    + destruct (Hno s'); congruence.
    + destruct (Hno s); congruence.
    + destruct (Hs s Hn Hne) as (H1 & H2 & H3 & _), (Hs s' Hn' Hne') as (H1' & H2' & H3' & _).
      apply (so_apart _ Hok); [done|done|by apply H1|by apply H1'|congruence..].
Qed.

(** The other options of a service. *)
Lemma changes_ok sec os u u' : services_ok u → name sec → changes pkg sec os u u' → Forall (λ o, o ∉ os) watched → services_ok u' ∧ ∀ s, name s → same_service u u' s.
Proof.
  intros Hok Hsec Hch Hos. rewrite Forall_forall in Hos. assert (Hs : ∀ s, name s → same_service u u' s).
  { intros s Hn o Ho. apply (ch_frame _ _ _ _ _ Hch); [done|by apply watched_name|right; by apply Hos]. }
  split; [|done]. assert (Hc : ∀ s, name s → (service u' s ↔ service u s) ∧ domain_of u' s = domain_of u s ∧ ipv6_of u' s = ipv6_of u s ∧ provider_of u' s = provider_of u s).
  { intros s Hn. by apply same_service_spec, Hs. }
  split; [apply Hch..| | |].
  - intros s Hn Hsv. apply (so_words _ Hok); [done|]. by apply Hc.
  - intros s Hn Hsv. destruct (Hc s Hn) as (H1 & _ & -> & ->). apply (so_family _ Hok); [done|]. by apply H1.
  - intros s s' Hn Hn' Hsv Hsv' Hd Hf. destruct (Hc s Hn) as (H1 & H2 & H3 & _), (Hc s' Hn') as (H1' & H2' & H3' & _).
    apply (so_apart _ Hok); [done|done|by apply H1|by apply H1'|congruence..].
Qed.

Lemma without_services_ok u s : services_ok u → word s → services_ok (without_section u pkg s) ∧
  ∀ x, name x → (service (without_section u pkg s) x ↔ x ≠ s ∧ service u x) ∧ (x ≠ s → same_service u (without_section u pkg s) x).
Proof.
  intros Hok Hw. pose proof (word_name _ Hw) as Hn.
  assert (Hsame : ∀ x, name x → x ≠ s → same_service u (without_section u pkg s) x).
  { intros x Hx Hne o Ho. rewrite without_get by (auto using watched_name with ddns). by rewrite decide_False. }
  assert (Hsv : ∀ x, name x → service (without_section u pkg s) x ↔ x ≠ s ∧ service u x).
  { intros x Hx. unfold service, gets. rewrite without_get by auto with ddns. destruct (decide (x = s)); naive_solver. }
  split; [|auto]. split.
  - apply without_section_wf, Hok.
  - apply without_section_shaped, Hok.
  - apply without_unambiguous; [apply name_ddns|apply Hok].
  - intros x Hx Hq. apply Hsv in Hq as [_ Hq]; [|done]. by apply (so_words _ Hok).
  - intros x Hx [Hne Hq]%Hsv; [|done]. destruct (same_service_spec _ _ _ (Hsame x Hx Hne)) as (_ & _ & -> & ->). by apply (so_family _ Hok).
  - intros x y Hx Hy [Nx Qx]%Hsv [Ny Qy]%Hsv; [|done..]. destruct (same_service_spec _ _ _ (Hsame x Hx Nx)) as (_ & -> & -> & _), (same_service_spec _ _ _ (Hsame y Hy Ny)) as (_ & -> & -> & _).
    by apply (so_apart _ Hok).
Qed.

(** ** Writing the options of a section *)
Section options.
Context (sec : jstr) (f : UCIContainer → jstr → exn UCIContainer) (g : jstr → option jstr).
Hypothesis (Hsec : name sec).
Hypothesis (Hf : ∀ u v u', f u v = Ret u' → u' = match g v with Some s => set u pkg sec v (UStr s) false | None => u end).

Lemma fold_options vs u u' : Forall name vs → wf u → shaped u → pkg_unambiguous u pkg → (∀ v, v ∈ vs → next_key pkg sec v ∉ listOptions u) →
  exn_fold f vs u = Ret u' →
  changes pkg sec vs u u' ∧ ∀ v, v ∈ vs → get u' pkg sec v = match g v with Some s => UStr s | None => get u pkg sec v end.
Proof using Hsec Hf.
  intros Hn. revert u. induction Hn as [|v vs Hv Hn IH]; intros u Hwf Hsh Hown Hl H; simpl in H.
  { injection H as <-. split; [by apply changes_refl|set_solver]. }
  binds H. apply Hf in E. subst a. set (u1 := match g v with Some s => _ | None => u end) in *.
  assert (H1 : changes pkg sec [v] u u1).
  { unfold u1. destruct (g v); [|by apply changes_refl]. apply changes_set; auto with ddns; [by left|]. by apply changes_refl. }
  destruct (IH u1) as [H2 Hg]; [apply H1..| |done|].
  { intros x Hx Hin. apply (Hl x); [by right|]. by apply (ch_lists _ _ _ _ _ H1). }
  split.
  - eapply changes_trans; [eapply changes_weaken; [|exact H1]|eapply changes_weaken; [|exact H2]]; set_solver.
  - assert (Hx : ∀ x, name x → get u1 pkg sec x = if decide (x = v) then match g v with Some s => UStr s | None => get u pkg sec v end else get u pkg sec x).
    { intros x Hx. destruct (decide (x = v)) as [->|Hne].
      - unfold u1. destruct (g v); [|done]. apply set_get_same. apply Hl. by left.
      - apply (ch_frame _ _ _ _ _ H1); [done|by right|right; set_solver]. }
    intros x Hin. rewrite Forall_forall in Hn. destruct (decide (x ∈ vs)) as [Hin'|Hin'].
    + rewrite Hg by done. destruct (g x) eqn:Eg; [done|]. rewrite Hx by auto. destruct (decide (x = v)) as [->|]; [by rewrite Eg|done].
    + assert (x = v) as -> by set_solver. rewrite (ch_frame _ _ _ _ _ H2); [|done|by right|by right]. rewrite Hx by done. by rewrite decide_True.
Qed.
End options.

(** The text that is stored for a variable. *)
Definition required_value (p : provider) (d : document) (v : jstr) : option jstr :=
  e ← Dom.elements d !! v;
  let s := if is_boolean p v then if e_checked e then js "1" else js "0" else value e in
  if s =s [] then None else Some s.
Definition optional_value (p : provider) (d : document) (v : jstr) : option jstr :=
  e ← Dom.elements d !! v;
  if is_boolean p v then Some (if e_checked e then js "1" else js "0")
  else check ← Dom.elements d !! (v ++ js "_enabled"); if e_checked check then Some (value e) else None.

Lemma el_Ret d id e : el d id = Ret e ↔ Dom.elements d !! id = Some e.
Proof. unfold el, getElementById. destruct (Dom.elements d !! id); simpl; naive_solver. Qed.

Lemma store_required_value p sec d u v u' : store_required p sec d u v = Ret u' →
  u' = match required_value p d v with Some s => set u pkg sec v (UStr s) false | None => u end.
Proof.
  unfold store_required, required_value. intros H. binds H. apply el_Ret in E. rewrite E. simpl. injection H as <-. by destruct (_ =s []).
Qed.

Lemma store_optional_value p sec d u v u' : store_optional p sec d u v = Ret u' →
  u' = match optional_value p d v with Some s => set u pkg sec v (UStr s) false | None => u end.
Proof.
  unfold store_optional, optional_value. intros H. binds H. apply el_Ret in E. rewrite E. simpl. destruct (is_boolean p v).
  - by injection H as <-.
  - binds H. apply el_Ret in E0. rewrite E0. simpl. injection H as <-. by destruct (e_checked a0).
Qed.

(** ** Providers *)

(** The elements of the page outside the container, and the options the page sets
    for every service. *)
Definition static_ids : list jstr :=
  map js ["ddns_provider"; "ddns_provider_text"; "ddns_no_script"; "ddns_check"; "ddns_force"; "ip_from"]%string.
Definition own_options : list jstr :=
  map js ["enabled"; "service_provider"; "ipv6"; "ip_source"; "ip_interface"; "force_interval"; "force_unit"; "check_interval"; "check_unit"]%string.

(** The identifiers of the fields of a provider: labels and boxes, then inputs. *)
Definition extra_ids (p : provider) : list jstr :=
  map (.++ js "_label") (variables p ++ pr_optional_variables p)
  ++ map (.++ js "_enabled") (List.filter (fun v => negb (is_boolean p v)) (pr_optional_variables p)).
Definition input_ids (p : provider) : list jstr := variables p ++ pr_optional_variables p.

Record provider_ok (p : provider) : Prop := {
  po_name : pr_name p ≠ [];
  po_nodup : NoDup (input_ids p);
  po_apart : Forall (λ id, id ∉ input_ids p) (extra_ids p);
  po_static : Forall (λ id, id ∉ input_ids p ++ extra_ids p) static_ids;
  po_words : Forall word (input_ids p);
  po_options : Forall (λ o, o ∉ input_ids p) own_options;
  po_domain : js "domain" ∉ pr_optional_variables p ++ pr_boolean_variables p ++ extra_ids p;
  po_test_domain : js "test_domain" ∉ variables p ++ pr_boolean_variables p ++ extra_ids p;
  po_enabled : Forall (λ v, replace re_enabled [] (v ++ js "_enabled") = v) (pr_optional_variables p)
}.

(** The variables of the provider. *)
Lemma variables_names p : provider_ok p → Forall name (variables p) ∧ Forall name (pr_optional_variables p) ∧ (∀ v, v ∈ variables p → v ∉ pr_optional_variables p).
Proof.
  intros Hpo. destruct (proj1 (Forall_app word (variables p) (pr_optional_variables p)) (po_words _ Hpo)) as [Hv1 Hv2].
  split_and!; [eapply Forall_impl; [exact Hv1|apply word_name]|eapply Forall_impl; [exact Hv2|apply word_name]|].
  intros v Hin Hin'. pose proof (po_nodup _ Hpo) as Hnd. apply NoDup_app in Hnd as (_ & Hd & _). by apply (Hd v).
Qed.

Lemma own_not_variable p o : provider_ok p → o ∈ [] :: own_options → o ∉ variables p ∧ o ∉ pr_optional_variables p.
Proof.
  intros Hpo. destruct (variables_names p Hpo) as (H1 & H2 & _). rewrite Forall_forall in H1, H2. intros [->|Ho]%elem_of_cons.
  - split; intros Hin; [by destruct (H1 [] Hin)|by destruct (H2 [] Hin)].
  - pose proof (po_options _ Hpo) as Hp. rewrite Forall_forall in Hp. apply Hp in Ho. unfold input_ids in Ho. set_solver.
Qed.

(** ** The window stored *)
Section storing.
Context (u : UCIContainer) (sec providerName : jstr) (p : provider).
Hypotheses (Hwf : wf u) (Hsh : shaped u) (Hown : pkg_unambiguous u pkg) (Hw : word sec) (Hpo : provider_ok p).
Let u0 := without_section u pkg sec.

Lemma emptied : wf u0 ∧ shaped u0 ∧ pkg_unambiguous u0 pkg ∧ ∀ o, o = [] ∨ name o → next_key pkg sec o ∉ listOptions u0.
Proof using Hwf Hsh Hown Hw.
  split_and!; [by apply without_section_wf|by apply without_section_shaped|by apply without_unambiguous; [apply name_ddns|]|].
  intros o Ho. unfold u0. cbn [without_section listOptions]. rewrite elem_of_filter. intros [Hk _]. apply not_true_iff_false in Hk. apply Hk.
  destruct Ho as [->|Ho]; [by apply in_section_section; auto with ddns|]. rewrite next_key_option by apply Ho. by apply in_section_option; auto with ddns.
Qed.

Definition late_options : list jstr := map js ["ip_source"; "ip_interface"; "force_interval"; "force_unit"; "check_interval"; "check_unit"]%string.

Lemma store_common_spec from force check (u' := store_common u0 sec providerName from force check) :
  changes pkg sec ([] :: own_options) u0 u' ∧ get u' pkg sec [] = UStr (js "service") ∧
  get u' pkg sec (js "service_provider") = UStr providerName ∧ get u' pkg sec (js "ipv6") = UStr (if test re_v6 providerName then js "1" else []).
Proof using Hwf Hsh Hown Hw.
  destruct emptied as (W0 & S0 & O0 & Hl). pose proof (word_name _ Hw) as Hsec.
  set (uA := set u0 pkg sec [] (UStr (js "service")) false). set (uB := set1 (set1 uA sec "enabled" (js "1")) sec "service_provider" providerName).
  set (uC := if test re_v6 providerName then set1 uB sec "ipv6" (js "1") else remove1 uB sec "ipv6").
  assert (CA : changes pkg sec [[]] u0 uA) by (apply changes_set; auto with ddns; [by left|by apply changes_refl]).
  assert (CB : changes pkg sec [js "enabled"; js "service_provider"] uA uB).
  { unfold uB, set1. repeat (apply changes_set; [apply name_ddns|done|right; by_eval|by_eval|]). apply changes_refl; apply CA. }
  assert (CC : changes pkg sec [js "ipv6"] uB uC).
  { unfold uC, set1, remove1. destruct (test re_v6 providerName); [apply changes_set; [apply name_ddns|done|right; by_eval|by_eval|]
      |apply changes_remove; [apply name_ddns|done|by_eval|by_eval|]]; apply changes_refl; apply CB. }
  assert (CD : changes pkg sec late_options uC u').
  { unfold u', store_common. fold uA. fold uB. fold uC. unfold set1, remove1. repeat (apply changes_set; [apply name_ddns|done|right; by_eval|by_eval|]).
    case_bool_decide; [apply changes_remove; [apply name_ddns|done|by_eval|by_eval|]|];
      repeat (apply changes_set; [apply name_ddns|done|right; by_eval|by_eval|]); apply changes_refl; apply CC. }
  split_and!.
  - eapply changes_trans; [eapply changes_weaken; [|exact CA]|]; [by_eval|]. eapply changes_trans; [eapply changes_weaken; [|exact CB]|]; [by_eval|].
    eapply changes_trans; [eapply changes_weaken; [|exact CC]|eapply changes_weaken; [|exact CD]]; by_eval.
  - rewrite (ch_frame _ _ _ _ _ CD), (ch_frame _ _ _ _ _ CC), (ch_frame _ _ _ _ _ CB) by (done || (by left) || (right; by_eval)).
    unfold uA. rewrite set_get_same; [done|]. apply Hl. by left.
  - rewrite (ch_frame _ _ _ _ _ CD), (ch_frame _ _ _ _ _ CC) by (done || (right; by_eval)).
    unfold uB, set1 at 1. rewrite set_get_same; [done|]. unfold set1. rewrite set_listOptions. unfold uA. rewrite set_listOptions. apply Hl. right; by_eval.
  - rewrite (ch_frame _ _ _ _ _ CD) by (done || (right; by_eval)). unfold uC, set1, remove1. destruct (test re_v6 providerName).
    + rewrite set_get_same; [done|]. unfold uB, set1. rewrite !set_listOptions. unfold uA. rewrite set_listOptions. apply Hl. right; by_eval.
    + rewrite remove_spec by apply CB. unfold get. simpl. by rewrite lookup_delete_eq.
Qed.

Lemma store_variables_spec from force check d u1 u2 (v0 := store_common u0 sec providerName from force check) :
  exn_fold (store_required p sec d) (variables p) v0 = Ret u1 → exn_fold (store_optional p sec d) (pr_optional_variables p) u1 = Ret u2 →
  changes pkg sec (input_ids p) v0 u2 ∧
  (∀ v, v ∈ variables p → get u2 pkg sec v = UStr (default [] (required_value p d v))) ∧
  (∀ v, v ∈ pr_optional_variables p → get u2 pkg sec v = UStr (default [] (optional_value p d v))).
Proof using Hwf Hsh Hown Hw Hpo.
  intros E1 E2. destruct emptied as (W0 & S0 & O0 & Hl). pose proof (word_name _ Hw) as Hsec. destruct (variables_names p Hpo) as (Hn1 & Hn2 & Hd).
  destruct (store_common_spec from force check) as (CD & _). fold v0 in CD.
  assert (Hempty : ∀ v, v ∈ input_ids p → get v0 pkg sec v = UStr []).
  { intros v Hv. assert (Hn : name v) by (pose proof (po_words _ Hpo) as Hp; rewrite Forall_forall in Hp; by apply word_name, Hp).
    rewrite (ch_frame _ _ _ _ _ CD); [|done|by right|].
    - unfold u0. rewrite without_get by auto with ddns. by rewrite decide_True.
    - right. intros Ho. apply (own_not_variable p _ Hpo) in Ho. unfold input_ids in Hv. set_solver. }
  rewrite Forall_forall in Hn1. rewrite Forall_forall in Hn2.
  destruct (fold_options sec _ (required_value p d) Hsec (store_required_value p sec d) (variables p) v0 u1) as [CE GE]; [by apply Forall_forall|apply CD..| |done|].
  { intros v Hv Hin. apply (Hl v); [right; auto|]. by apply (ch_lists _ _ _ _ _ CD). }
  destruct (fold_options sec _ (optional_value p d) Hsec (store_optional_value p sec d) (pr_optional_variables p) u1 u2) as [CF GF]; [by apply Forall_forall|apply CE..| |done|].
  { intros v Hv Hin. apply (Hl v); [right; auto|]. apply (ch_lists _ _ _ _ _ CD). by apply (ch_lists _ _ _ _ _ CE). }
  unfold input_ids in Hempty. split_and!.
  - eapply changes_trans; [eapply changes_weaken; [|exact CE]|eapply changes_weaken; [|exact CF]]; unfold input_ids; set_solver.
  - intros v Hv. rewrite (ch_frame _ _ _ _ _ CF); [|done|right; auto|right; auto]. rewrite GE by done. destruct (required_value p d v); [done|]. apply Hempty. set_solver.
  - intros v Hv. rewrite GF by done. destruct (optional_value p d v); [done|]. simpl.
    rewrite (ch_frame _ _ _ _ _ CE); [apply Hempty; set_solver|done|right; auto|]. right. intros Hin. by apply (Hd v).
Qed.

End storing.

(** The provider that is selected. *)
Definition chosen (d : document) : option jstr :=
  e ← Dom.elements d !! js "ddns_provider"; if 0 <=? e_selectedIndex e then o_value <$> selected_option e else Some [].

(** ** The fields of the window *)

(** What the page reads of an element. *)
Definition seen (e : element) : jstr * jstr * bool * bool * jstr * list option_el * Z :=
  (e_type e, e_text_value e, e_checked e, e_disabled e, e_display e, e_options e, e_selectedIndex e).
Definition like (d d' : document) : Prop := ∀ id, seen <$> Dom.elements d' !! id = seen <$> Dom.elements d !! id.

Lemma like_refl d : like d d.
Proof. done. Qed.
Lemma like_trans d1 d2 d3 : like d1 d2 → like d2 d3 → like d1 d3.
Proof. intros H1 H2 id. by rewrite H2, H1. Qed.
Lemma like_eq d d' : Dom.elements d' = Dom.elements d → like d d'.
Proof. intros H id. by rewrite H. Qed.

Lemma seen_value e e' : seen e' = seen e → value e' = value e ∧ is_text e' = is_text e ∧ e_checked e' = e_checked e ∧ e_disabled e' = e_disabled e ∧ e_display e' = e_display e.
Proof. destruct e, e'. unfold seen. simpl. intros [=]. by subst. Qed.

Lemma like_lookup d d' id e : like d d' → Dom.elements d !! id = Some e → ∃ e', Dom.elements d' !! id = Some e' ∧ seen e' = seen e.
Proof. intros H He. specialize (H id). rewrite He in H. destruct (Dom.elements d' !! id) as [e'|]; simpl in H; [|done]. apply (inj Some) in H. by exists e'. Qed.
Lemma like_none d d' id : like d d' → Dom.elements d !! id = None → Dom.elements d' !! id = None.
Proof. intros H He. specialize (H id). rewrite He in H. by destruct (Dom.elements d' !! id). Qed.

Lemma update_Ret d id f d' : update d id f = Ret d' ↔ ∃ e, Dom.elements d !! id = Some e ∧ d' = put d id (f e).
Proof. unfold update. rewrite exn_bind_Ret. setoid_rewrite el_Ret. naive_solver. Qed.

Lemma put_like d id e e' : Dom.elements d !! id = Some e → seen e' = seen e → like d (put d id e').
Proof.
  intros He Hs x. simpl. destruct (decide (x = id)) as [->|Hne]; [rewrite lookup_insert_eq, He; simpl; by rewrite Hs|by rewrite lookup_insert_ne].
Qed.

Lemma chosen_like d d' : like d d' → chosen d' = chosen d.
Proof.
  intros H. specialize (H (js "ddns_provider")). unfold chosen.
  destruct (Dom.elements d' !! _) as [e'|], (Dom.elements d !! _) as [e|]; simpl in H; try done. injection H as _ _ _ _ _ Ho Hi. simpl.
  unfold selected_option. by rewrite Ho, Hi.
Qed.

Definition td : jstr := js "test_domain".
Definition td_box : jstr := js "test_domain_enabled".

(** A field that is validated. *)
Definition usable (o : option element) : Prop := ∃ e, o = Some e ∧ e_disabled e = false ∧ e_display e ≠ js "none".
(** The field of the test domain with its box; it is empty where it is not used. *)
Definition boxed (o c : option element) : Prop := ∃ e k, o = Some e ∧ c = Some k ∧ is_text e = true.
Definition box_obeyed (o c : option element) : Prop :=
  ∃ e k, o = Some e ∧ c = Some k ∧ is_text e = true ∧ (e_checked k = false → value e = [] ∧ e_disabled e = true).

Record fields_there (p : provider) (d : document) : Prop := {
  ft_text : ∀ v, v ∈ text_variables p → usable (Dom.elements d !! v);
  ft_domain : js "domain" ∉ variables p → Dom.elements d !! js "domain" = None;
  ft_test : td ∉ pr_optional_variables p → Dom.elements d !! td = None
}.
Definition test_there (p : provider) (d : document) : Prop := td ∈ pr_optional_variables p → boxed (Dom.elements d !! td) (Dom.elements d !! td_box).
Definition test_obeyed (p : provider) (d : document) : Prop := td ∈ pr_optional_variables p → box_obeyed (Dom.elements d !! td) (Dom.elements d !! td_box).
Definition fields_ok (p : provider) (d : document) : Prop := fields_there p d ∧ test_obeyed p d.

Lemma fields_like p d d' : like d d' → fields_ok p d → fields_ok p d'.
Proof.
  intros Hl [[H1 H2 H3] H4]. split; [split|].
  - intros v Hv. destruct (H1 v Hv) as (e & He & Hd & Hs). destruct (like_lookup _ _ _ _ Hl He) as (e' & He' & Es).
    apply seen_value in Es as (_ & _ & _ & Ed & Ey). exists e'. by rewrite Ed, Ey.
  - intros Hn. by eapply like_none, H2.
  - intros Hn. by eapply like_none, H3.
  - intros Hin. destruct (H4 Hin) as (e & k & He & Hk & Ht & Hb).
    destruct (like_lookup _ _ _ _ Hl He) as (e' & He' & Es), (like_lookup _ _ _ _ Hl Hk) as (k' & Hk' & Ek).
    apply seen_value in Es as (Ev & Et & _ & Ed & _), Ek as (_ & _ & Ec & _). exists e', k'. by rewrite Ev, Et, Ec, Ed.
Qed.

(** Other elements do not matter; a field stays as it is or changes its contents. *)
Lemma put_there p d id e e' : Dom.elements d !! id = Some e → fields_there p d →
  (id ∈ text_variables p → e_disabled e' = e_disabled e ∧ e_display e' = e_display e) → fields_there p (put d id e').
Proof.
  intros He [H1 H2 H3] Hf. assert (Hn : ∀ x, Dom.elements d !! x = None → Dom.elements (put d id e') !! x = None).
  { intros x Hx. simpl. rewrite lookup_insert_ne; [done|]. intros ->. congruence. }
  split; [|auto..]. intros v Hv. simpl. destruct (decide (v = id)) as [->|Hne]; [|rewrite lookup_insert_ne by done; auto].
  rewrite lookup_insert_eq. destruct (H1 id Hv) as (e0 & He0 & Hd & Hs). rewrite He in He0. injection He0 as <-. destruct (Hf Hv) as [Ed Es].
  exists e'. by rewrite Ed, Es.
Qed.

Lemma put_obeyed p d id e : id ≠ td → id ≠ td_box → test_obeyed p d → test_obeyed p (put d id e).
Proof. intros H1 H2 H Hin. simpl. rewrite !lookup_insert_ne by done. by apply H. Qed.
Lemma put_test_there p d id e : Dom.elements d !! id = Some e → ∀ e', is_text e' = is_text e → test_there p d → test_there p (put d id e').
Proof.
  intros He e' Ht H Hin. destruct (H Hin) as (e0 & k & He0 & Hk & Hx). simpl. destruct (decide (id = td)) as [->|N1].
  - rewrite He in He0. injection He0 as <-. rewrite lookup_insert_eq, lookup_insert_ne by by_eval. exists e', k. by rewrite Ht.
  - rewrite (lookup_insert_ne _ id td) by done. destruct (decide (id = td_box)) as [->|N2]; [rewrite lookup_insert_eq|rewrite lookup_insert_ne by done]; by eexists _, _.
Qed.

Lemma optional_not_text p v : provider_ok p → v ∈ pr_optional_variables p → v ∉ text_variables p.
Proof.
  intros Hpo Hv Ht. unfold text_variables in Ht. rewrite list_elem_of_In, filter_In, <-list_elem_of_In in Ht. destruct Ht as [Ht _].
  destruct (variables_names p Hpo) as (_ & _ & Hd). by apply (Hd v).
Qed.

Lemma box_is_extra p v : is_boolean p v = false → v ∈ pr_optional_variables p → v ++ js "_enabled" ∈ extra_ids p.
Proof.
  intros Hb Hv. unfold extra_ids. apply elem_of_app. right. apply list_elem_of_fmap. exists v. split; [done|].
  rewrite list_elem_of_In, filter_In, <-list_elem_of_In. by rewrite Hb.
Qed.

Lemma td_not_boolean p : provider_ok p → is_boolean p td = false.
Proof. intros H. unfold is_boolean. apply bool_decide_eq_false_2. pose proof (po_test_domain _ H). unfold td. set_solver. Qed.

Lemma input_not_box p v : provider_ok p → td ∈ pr_optional_variables p → v ∈ input_ids p → v ≠ td_box.
Proof.
  intros Hpo Htd Hv ->. pose proof (po_apart _ Hpo) as Ha. rewrite Forall_forall in Ha. apply (Ha td_box); [|done].
  change td_box with (td ++ js "_enabled"). apply box_is_extra; [by apply td_not_boolean|done].
Qed.

Lemma input_is p v : v ∈ variables p ∨ v ∈ pr_optional_variables p → v ∈ input_ids p.
Proof. unfold input_ids. set_solver. Qed.

Lemma text_not_select e : is_text e = true → is_select e = false.
Proof. unfold is_text, is_select. intros [->%str_eqb_eq| ->%str_eqb_eq]%orb_true_iff; done. Qed.

(** [setElementEnabled] *)
Lemma set_enabled_put d v b d' : setElementEnabled d v b [] = Ret d' →
  ∃ e e', Dom.elements d !! v = Some e ∧ d' = put d v e' ∧ e_type e' = e_type e ∧ e_disabled e' = negb b ∧ e_display e' = e_display e ∧
    (is_text e = true → value e' = if b then value e else []).
Proof.
  intros H. apply update_Ret in H as (e & He & ->). exists e. eexists. split; [done|]. split; [done|]. destruct (is_text e) eqn:Et.
  - pose proof (text_not_select e Et) as Es. destruct b; cbv zeta.
    + replace (is_text (set_disabled false e)) with true by done. split_and!; [done..|]. intros _. unfold value.
      match goal with |- (if is_select ?x then _ else _) = _ => change (is_select x) with (is_select e) end. by rewrite Es.
    + replace (is_text (set_disabled true e)) with true by done. split_and!; [done..|]. intros _. unfold value.
      match goal with |- (if is_select ?x then _ else _) = _ => change (is_select x) with (is_select e) end. by rewrite Es.
  - destruct b; cbv zeta.
    + replace (is_text (set_disabled false e)) with false by done. destruct (is_select _); [done|]. destruct (e_type _ =s js "button"); done.
    + replace (is_text (set_disabled true e)) with false by done. destruct (is_select _).
      * unfold select_first. destruct (find_option _ _ 0); [done|]. destruct (_ && _); done.
      * destruct (e_type _ =s js "button"); [done|]. destruct (e_type _ =s js "file"); done.
Qed.

(** An optional field that is enabled or disabled. *)
Lemma enable_ok p d v b d' : provider_ok p → v ∈ pr_optional_variables p → fields_there p d → test_there p d → setElementEnabled d v b [] = Ret d' →
  fields_there p d' ∧ test_there p d' ∧ (v ≠ td → test_obeyed p d → test_obeyed p d') ∧
  (v = td → (∀ k, Dom.elements d !! td_box = Some k → e_checked k = b) → test_obeyed p d') ∧ ∃ e, d' = put d v e.
Proof.
  intros Hpo Hv H1 H2 H. apply set_enabled_put in H as (e & e' & He & -> & Et & Ed & Es & Ev). split_and!.
  - apply (put_there p d v e e'); [done..|]. intros Hin. by destruct (optional_not_text p v Hpo Hv).
  - apply (put_test_there p d v e He e'); [|done]. unfold is_text. by rewrite Et.
  - intros Hne Ho Hin. refine (put_obeyed p d v e' _ _ Ho Hin); [done|]. apply (input_not_box p); [done..|]. by apply input_is; right.
  - intros -> Hb Hin. destruct (H2 Hin) as (e0 & k & He0 & Hk & Ht). rewrite He in He0. injection He0 as <-. simpl.
    rewrite lookup_insert_eq, lookup_insert_ne by by_eval. exists e', k. rewrite <-(Hb k Hk) in Ev, Ed. split_and!; [done|done| |].
    + unfold is_text. rewrite Et. exact Ht.
    + intros Hc. rewrite Hc in Ev, Ed. split; [by apply Ev|done].
  - by eexists.
Qed.

Lemma enable_optional_ok p d v d' : provider_ok p → v ∈ pr_optional_variables p → fields_there p d → test_there p d → enable_optional p d v = Ret d' →
  fields_there p d' ∧ test_there p d' ∧ (test_obeyed p d ∨ v = td → test_obeyed p d') ∧ (d' = d ∨ ∃ e, d' = put d v e).
Proof.
  intros Hpo Hv H1 H2 H. unfold enable_optional in H. destruct (is_boolean p v) eqn:Eb.
  { injection H as <-. split_and!; [done|done| |by left]. intros [Ho| ->]; [done|]. by rewrite td_not_boolean in Eb. }
  binds H. destruct (enable_ok p d v (e_checked a) d' Hpo Hv H1 H2 H) as (F1 & F2 & F3 & F4 & F5). split_and!; [done|done| |by right].
  apply el_Ret in E. assert (Htd : v = td → test_obeyed p d').
  { intros ->. apply F4; [done|]. intros k Hk. change td_box with (td ++ js "_enabled") in Hk. by simplify_eq. }
  intros [Ho|Hin]; [|auto]. destruct (decide (v = td)) as [Ev|Ev]; auto.
Qed.

Lemma enable_all_ok p l d d' : provider_ok p → l ⊆ pr_optional_variables p → fields_there p d → test_there p d → exn_fold (enable_optional p) l d = Ret d' →
  fields_there p d' ∧ (test_obeyed p d ∨ td ∈ l → test_obeyed p d') ∧ ∀ id, id ∉ l → Dom.elements d' !! id = Dom.elements d !! id.
Proof.
  intros Hpo. revert d. induction l as [|v l IH]; intros d Hl H1 H2 H; simpl in H.
  { injection H as <-. split_and!; [done| |done]. intros [?|?]; [done|set_solver]. }
  binds H. destruct (enable_optional_ok p d v a Hpo) as (F1 & F2 & F3 & F4); [set_solver|done..|].
  destruct (IH a) as (G1 & G2 & G3); [set_solver|done..|]. split_and!; [done| |].
  - intros [Ho|[Hin|Hin]%elem_of_cons]; apply G2; auto.
  - intros id Hid. rewrite G3 by set_solver. destruct F4 as [->|[e ->]]; [done|]. simpl. rewrite lookup_insert_ne; set_solver.
Qed.

(** ** The elements of the container *)
Lemma drop_elements_lookup ids d x : Dom.elements (drop_elements d ids) !! x = if decide (x ∈ ids) then None else Dom.elements d !! x.
Proof.
  unfold drop_elements. simpl. generalize (Dom.elements d). induction ids as [|id ids IH]; intros m; cbn [fold_left]; [by rewrite decide_False by set_solver|].
  rewrite IH. destruct (decide (x ∈ ids)) as [Hin|Hin].
  - by rewrite decide_True by set_solver.
  - destruct (decide (x = id)) as [->|Hne]; [rewrite lookup_delete_eq, decide_True by set_solver; done|].
    rewrite lookup_delete_ne by done. by rewrite decide_False by set_solver.
Qed.

Lemma put_elements_other l d x : x ∉ map fst l → Dom.elements (put_elements d l) !! x = Dom.elements d !! x.
Proof.
  unfold put_elements. revert d. induction l as [|[id e] l IH]; intros d Hx; simpl; [done|]. rewrite IH by set_solver. simpl.
  apply lookup_insert_ne. set_solver.
Qed.

Lemma put_elements_in l d x : x ∈ map fst l → ∃ e, (x, e) ∈ l ∧ Dom.elements (put_elements d l) !! x = Some e.
Proof.
  unfold put_elements. revert d. induction l as [|[id e] l IH]; intros d Hx; simpl; [set_solver|].
  destruct (decide (x ∈ map fst l)) as [Hin|Hin].
  - destruct (IH (put d id e) Hin) as (e' & He' & E). exists e'. split; [by right|done].
  - assert (x = id) as -> by set_solver. exists e. split; [by left|].
    etransitivity; [by apply (put_elements_other l)|]. simpl. apply lookup_insert_eq.
Qed.

Section fields.
Context (DyDNS : gmap jstr jstr) (p : provider).
Let input (v : jstr) : element := if is_boolean p v then check_input else text_input.

Lemma exn_map_concat {A} (f : nat * jstr → exn (list A)) (P : jstr → A → Prop) vs k :
  (∀ i v l, f (i, v) = Ret l → ∀ x, x ∈ l → P v x) → exn_map f (imap (fun i v => (i, v)) vs) = Ret k →
  ∀ x, x ∈ concat k → ∃ v, v ∈ vs ∧ P v x.
Proof.
  intros HP Hk x Hx. apply exn_map_Forall2 in Hk. apply list_elem_of_In, in_concat in Hx as (l & Hl & Hx). apply list_elem_of_In in Hl, Hx.
  apply list_elem_of_lookup in Hl as [i Hi]. destruct (Forall2_lookup_r _ _ _ _ _ Hk Hi) as ([j v] & Hj & Ef).
  rewrite list_lookup_imap in Hj. apply fmap_Some in Hj as (v' & Hv' & [= -> ->]). exists v'. split; [by eapply list_elem_of_lookup_2|]. by eapply HP.
Qed.

Lemma exn_map_covers {A} (f : nat * jstr → exn (list A)) (Q : jstr → A → Prop) vs k v :
  (∀ i v l, f (i, v) = Ret l → ∃ x, x ∈ l ∧ Q v x) → exn_map f (imap (fun i v => (i, v)) vs) = Ret k → v ∈ vs → ∃ x, x ∈ concat k ∧ Q v x.
Proof.
  intros HQ Hk Hv. apply exn_map_Forall2 in Hk. apply list_elem_of_lookup in Hv as [i Hi].
  destruct (Forall2_lookup_l _ _ _ i (i, v) Hk) as (l & Hl & Ef); [by rewrite list_lookup_imap, Hi|].
  destruct (HQ _ _ _ Ef) as (x & Hx & Hq). exists x. split; [|done]. apply list_elem_of_In, in_concat. exists l. split; apply list_elem_of_In; [by eapply list_elem_of_lookup_2|done].
Qed.

(** The identifiers are those of the provider, the inputs are what its variables say. *)
Lemma provider_fields_in l id e : provider_fields DyDNS p = Ret l → (id, e) ∈ l → id ∈ extra_ids p ∨ id ∈ input_ids p ∧ e = input id.
Proof.
  intros H Hin. unfold provider_fields in H. binds H. injection H as <-. unfold input_ids, extra_ids, input. apply elem_of_app in Hin as [Hin|Hin].
  - apply (exn_map_concat _ (λ v x, x.1 = v ++ js "_label" ∨ x.1 = v ∧ x.2 = if is_boolean p v then check_input else text_input) _ _) with (2 := E) in Hin as (v & Hv & [Ex|[Ex Ee]]).
    + left. apply elem_of_app. left. apply list_elem_of_fmap. exists v. split; [done|set_solver].
    + right. simpl in Ex, Ee. subst. set_solver.
    + intros i v l Hl x Hx. unfold required_field in Hl. binds Hl. injection Hl as <-.
      apply elem_of_cons in Hx as [->|Hx]; [by left|]. apply list_elem_of_singleton in Hx as ->. by right.
  - apply (exn_map_concat _ (λ v x, x.1 = v ++ js "_label" ∨ (is_boolean p v = false ∧ x.1 = v ++ js "_enabled") ∨ x.1 = v ∧ x.2 = if is_boolean p v then check_input else text_input) _ _) with (2 := E0) in Hin as (v & Hv & [Ex|[[Eb Ex]|[Ex Ee]]]).
    + left. apply elem_of_app. left. apply list_elem_of_fmap. exists v. split; [done|set_solver].
    + left. simpl in Ex. subst id. by apply box_is_extra.
    + right. simpl in Ex, Ee. subst. set_solver.
    + intros i v l Hl x Hx. unfold optional_field in Hl. binds Hl. injection Hl as <-. destruct (is_boolean p v) eqn:Eb.
      * apply elem_of_cons in Hx as [->|Hx]; [by left|]. apply list_elem_of_singleton in Hx as ->. by right; right.
      * apply elem_of_cons in Hx as [->|Hx]; [by left|]. apply elem_of_cons in Hx as [->|Hx]; [by right; left|].
        apply list_elem_of_singleton in Hx as ->. by right; right.
Qed.

Lemma provider_fields_cover l v : provider_fields DyDNS p = Ret l → v ∈ input_ids p →
  v ∈ map fst l ∧ (v ∈ pr_optional_variables p → is_boolean p v = false → v ++ js "_enabled" ∈ map fst l).
Proof.
  intros H Hv. unfold provider_fields in H. binds H. injection H as <-. rewrite map_app.
  assert (Hopt : v ∈ pr_optional_variables p → v ∈ map fst (concat a0) ∧ (is_boolean p v = false → v ++ js "_enabled" ∈ map fst (concat a0))).
  { intros Hin. split.
    - destruct (exn_map_covers (fun '(i, v) => optional_field DyDNS p i v) (λ v x, x.1 = v) (pr_optional_variables p) a0 v) with (2 := E0) as ([x e] & Hx & Ex); [|done|].
      + intros i w l Hl. unfold optional_field in Hl. binds Hl. injection Hl as <-. destruct (is_boolean p w); [exists (w, check_input)|exists (w, text_input)]; split; set_solver.
      + simpl in Ex. subst x. by apply (list_elem_of_fmap_2' fst _ (v, e)).
    - intros Hb. destruct (exn_map_covers (fun '(i, v) => optional_field DyDNS p i v) (λ v x, is_boolean p v = false → x.1 = v ++ js "_enabled") (pr_optional_variables p) a0 v) with (2 := E0) as ([x e] & Hx & Ex); [|done|].
      + intros i w l Hl. unfold optional_field in Hl. binds Hl. injection Hl as <-. destruct (is_boolean p w); [exists (w, check_input)|exists (w ++ js "_enabled", check_input)]; split; set_solver.
      + simpl in Ex. rewrite <-Ex by done. by apply (list_elem_of_fmap_2' fst _ (x, e)). }
  split; [|intros Hin Hb; apply elem_of_app; right; by apply Hopt]. apply elem_of_app in Hv as [Hv|Hv]; [|apply elem_of_app; right; by apply Hopt].
  apply elem_of_app. left. destruct (exn_map_covers (fun '(i, v) => required_field DyDNS p i v) (λ v x, x.1 = v) (variables p) a v) with (2 := E) as ([x e] & Hx & Ex); [|done|].
  - intros i w l Hl. unfold required_field in Hl. binds Hl. injection Hl as <-. exists (w, input w). split; [right; by left|done].
  - simpl in Ex. subst x. by apply (list_elem_of_fmap_2' fst _ (v, e)).
Qed.

End fields.

(** ** The window *)

(** The parts of the page that do not change, and the list of the providers. *)
Record form_base (q : ddns_page) : Prop := {
  fb_text : Dom.elements (dp_doc q) !! js "ddns_provider_text" = None;
  fb_fields : ∀ id, id = js "domain" ∨ id = td → Dom.elements (dp_doc q) !! id ≠ None → id ∈ dp_fields q;
  fb_static : ∀ id, id ∈ dp_fields q → id ∉ static_ids;
  fb_list : ∃ e, Dom.elements (dp_doc q) !! js "ddns_provider" = Some e ∧ ∀ p, p ∈ dp_providers q → ∃ o, o ∈ e_options e ∧ o_value o = pr_name p;
  fb_providers : ∀ p, p ∈ dp_providers q → provider_ok p
}.
Definition form_match (q : ddns_page) : Prop := ∀ p, find_provider (dp_providers q) (chosen (dp_doc q)) = Some p → fields_ok p (dp_doc q).
Definition form_ok (q : ddns_page) : Prop := form_base q ∧ form_match q.

Lemma find_provider_Some l n p : find_provider l n = Some p → p ∈ l ∧ Some (pr_name p) = n.
Proof. unfold find_provider. intros [H1 H2]%find_some. apply bool_decide_eq_true in H2. split; [by apply list_elem_of_In|done]. Qed.

(** The same form with other colours. *)
Lemma base_like q d : like (dp_doc q) d → form_base q → form_base (with_doc q d).
Proof.
  intros Hl [H1 H2 H3 H4 H5]. split; cbn [with_doc dp_doc dp_fields dp_providers]; [by eapply like_none| |done| |done].
  - intros id Hid Hne. apply H2; [done|]. intros Hn. by apply Hne, (like_none (dp_doc q)).
  - destruct H4 as (e & He & Ho). destruct (like_lookup _ _ _ _ Hl He) as (e' & He' & Es). exists e'. split; [done|]. by injection Es as _ _ _ _ _ -> _.
Qed.
Lemma form_like q d : like (dp_doc q) d → form_ok q → form_ok (with_doc q d).
Proof.
  intros Hl [H1 H2]. split; [by apply base_like|]. intros p. cbn [with_doc dp_doc dp_providers]. rewrite (chosen_like _ _ Hl). intros Hp.
  eapply fields_like; [exact Hl|]. by apply H2.
Qed.

Lemma chosen_lookup d d' : Dom.elements d' !! js "ddns_provider" = Dom.elements d !! js "ddns_provider" → chosen d' = chosen d.
Proof. intros H. unfold chosen. by rewrite H. Qed.

(** ** Contents of the fields *)

(** Only the fields of the provider change, none comes or goes. *)
Definition keeps (p : provider) (d d' : document) : Prop :=
  (∀ id, id ∉ input_ids p ++ extra_ids p → Dom.elements d' !! id = Dom.elements d !! id) ∧
  ∀ id, Dom.elements d' !! id = None ↔ Dom.elements d !! id = None.

Lemma keeps_refl p d : keeps p d d.
Proof. done. Qed.
Lemma keeps_trans p d1 d2 d3 : keeps p d1 d2 → keeps p d2 d3 → keeps p d1 d3.
Proof. intros [A1 A2] [B1 B2]. split; [intros id Hid; by rewrite B1, A1|intros id; by rewrite B2, A2]. Qed.
Lemma keeps_put p d id e e' : Dom.elements d !! id = Some e → id ∈ input_ids p ++ extra_ids p → keeps p d (put d id e').
Proof.
  intros He Hid. split; intros x; simpl; [intros Hx; rewrite lookup_insert_ne; [done|]; by intros ->|].
  destruct (decide (x = id)) as [->|Hne]; [by rewrite lookup_insert_eq, He|by rewrite lookup_insert_ne].
Qed.

Lemma keeps_base p q d : provider_ok p → keeps p (dp_doc q) d → form_base q → form_base (with_doc q d) ∧ chosen d = chosen (dp_doc q) ∧
  Dom.elements d !! js "ddns_provider" = Dom.elements (dp_doc q) !! js "ddns_provider".
Proof.
  intros Hpo [K1 K2] [H1 H2 H3 H4 H5]. pose proof (po_static _ Hpo) as Hst. rewrite Forall_forall in Hst.
  assert (Hl : Dom.elements d !! js "ddns_provider" = Dom.elements (dp_doc q) !! js "ddns_provider") by (apply K1, Hst; by_eval).
  split_and!; [|by apply chosen_lookup|done]. split; cbn [with_doc dp_doc dp_fields dp_providers]; [by apply K2| |done|by rewrite Hl|done].
  intros id Hid Hne. apply H2; [done|]. by rewrite <-K2.
Qed.

Lemma variable_not_td p v : provider_ok p → v ∈ variables p → v ≠ td.
Proof. intros Hpo Hv ->. pose proof (po_test_domain _ Hpo). unfold td in *. set_solver. Qed.

Lemma in_fields p v : v ∈ input_ids p → v ∈ input_ids p ++ extra_ids p.
Proof. set_solver. Qed.

(** A field whose contents change. *)
Lemma put_contents p d v e e' : provider_ok p → Dom.elements d !! v = Some e → e_disabled e' = e_disabled e → e_display e' = e_display e →
  v ≠ td → (td ∈ pr_optional_variables p → v ≠ td_box ∨ e_checked e' = e_checked e) → fields_ok p d → fields_ok p (put d v e').
Proof.
  intros Hpo He E1 E2 Htd Hbox [H1 H2]. split; [by apply (put_there p d v e e')|]. intros Hin. destruct (H2 Hin) as (x & k & Hx & Hk & Ht & Ho).
  simpl. rewrite (lookup_insert_ne _ v td) by done. destruct (decide (v = td_box)) as [->|Hne].
  - rewrite lookup_insert_eq. rewrite He in Hk. injection Hk as <-. exists x, e'. destruct (Hbox Hin) as [?|Hc]; [done|]. by rewrite Hc.
  - rewrite lookup_insert_ne by done. by exists x, k.
Qed.

Lemma contents_kept e v b : e_disabled (set_value v e) = e_disabled e ∧ e_display (set_value v e) = e_display e ∧
  e_disabled (set_checked b e) = e_disabled e ∧ e_display (set_checked b e) = e_display e.
Proof. unfold set_value. by destruct (is_select e). Qed.

Lemma load_required_ok src pk sec p d v d' : provider_ok p → v ∈ variables p → fields_ok p d → load_required src pk sec p d v = Ret d' →
  fields_ok p d' ∧ keeps p d d'.
Proof.
  intros Hpo Hv Hf H. unfold load_required in H. apply update_Ret in H as (e & He & ->).
  split; [|eapply keeps_put; [done|]; by apply in_fields, input_is; left].
  eapply put_contents; [done|done| | |by apply (variable_not_td p)| |done].
  1,2: destruct (is_boolean p v); apply contents_kept; exact false || exact [].
  intros Hin. left. apply (input_not_box p); [done..|]. by apply input_is; left.
Qed.

(** A box is set, the text beside it possibly too, and enabled as the box says. *)
Lemma set_box_ok p d v b k d2 d' (d1 := put d (v ++ js "_enabled") (set_checked b k)) :
  provider_ok p → v ∈ pr_optional_variables p → is_boolean p v = false → fields_ok p d → Dom.elements d !! (v ++ js "_enabled") = Some k →
  d2 = d1 ∨ (∃ e s, Dom.elements d1 !! v = Some e ∧ d2 = put d1 v (set_value s e)) → setElementEnabled d2 v b [] = Ret d' →
  fields_ok p d' ∧ keeps p d d'.
Proof.
  intros Hpo Hv Eb [Hf Ht] Hk Hd2 H. assert (Hi : v ∈ input_ids p) by (by apply input_is; right).
  assert (Hbox : v ++ js "_enabled" ∈ extra_ids p) by (by apply box_is_extra).
  assert (Hapart : v ++ js "_enabled" ∉ input_ids p) by (pose proof (po_apart _ Hpo) as Ha; rewrite Forall_forall in Ha; by apply Ha).
  assert (Hne : v ++ js "_enabled" ≠ v) by (intros Ev; apply Hapart; by rewrite Ev).
  assert (Hsuf : v ++ js "_enabled" = td_box → v = td) by (change td_box with (td ++ js "_enabled"); apply app_inv_tail).
  assert (Htd : v ++ js "_enabled" ≠ td).
  { pose proof (po_test_domain _ Hpo) as Hpt. intros Ev. rewrite Ev in Hbox. unfold td in Hbox. set_solver. }
  assert (F1 : fields_there p d1).
  { apply (put_there p d _ k); [done..|]. intros Hx. destruct Hapart. unfold text_variables in Hx. rewrite list_elem_of_In, filter_In, <-list_elem_of_In in Hx. apply input_is. naive_solver. }
  assert (F2 : test_there p d1).
  { apply (put_test_there p d _ k); [done..|]. intros Hin. destruct (Ht Hin) as (x & y & ? & ? & ? & _). by exists x, y. }
  assert (F3 : v ≠ td → test_obeyed p d1) by (intros Hvt; apply put_obeyed; auto).
  assert (K1 : keeps p d d1) by (eapply keeps_put; [done|]; set_solver).
  assert (G : fields_there p d2 ∧ test_there p d2 ∧ (v ≠ td → test_obeyed p d2) ∧ keeps p d d2 ∧ Dom.elements d2 !! (v ++ js "_enabled") = Some (set_checked b k)).
  { assert (Hb1 : Dom.elements d1 !! (v ++ js "_enabled") = Some (set_checked b k)) by (apply lookup_insert_eq).
    destruct Hd2 as [->|(e & s & He & ->)]; [done|]. split_and!.
    - apply (put_there p d1 v e); [done..|]. intros Hx. by destruct (optional_not_text p v Hpo Hv).
    - apply (put_test_there p d1 v e He); [|done]. unfold set_value. by destruct (is_select e).
    - intros Hvt Hin. refine (put_obeyed p d1 v _ Hvt _ (F3 Hvt) Hin). by apply (input_not_box p).
    - eapply keeps_trans; [exact K1|]. eapply keeps_put; [done|]. by apply in_fields.
    - simpl. by rewrite lookup_insert_ne. }
  destruct G as (G1 & G2 & G3 & G4 & G5). apply set_enabled_put in H as He. destruct He as (e0 & e1 & He0 & Ed' & _).
  destruct (enable_ok p d2 v b d' Hpo Hv G1 G2 H) as (L1 & _ & L3 & L4 & _). split.
  - split; [done|]. destruct (decide (v = td)) as [->|Hvt]; [|auto]. apply L4; [done|]. intros k' Hk'. change td_box with (td ++ js "_enabled") in Hk'. by simplify_eq.
  - eapply keeps_trans; [exact G4|]. rewrite Ed'. eapply keeps_put; [done|]. by apply in_fields.
Qed.

Lemma load_optional_ok src pk sec p d v d' : provider_ok p → v ∈ pr_optional_variables p → fields_ok p d → load_optional src pk sec p d v = Ret d' →
  fields_ok p d' ∧ keeps p d d'.
Proof.
  intros Hpo Hv Hf H. assert (Hi : v ∈ input_ids p) by (by apply input_is; right). unfold load_optional in H. binds H. destruct (is_boolean p v) eqn:Eb.
  { apply update_Ret in H as (e & He & ->). split; [|eapply keeps_put; [done|]; by apply in_fields].
    assert (v ≠ td) by (intros ->; by rewrite td_not_boolean in Eb).
    eapply put_contents; [done|done|done|done|done| |done]. intros Hin. left. by apply (input_not_box p). }
  binds H. apply update_Ret in E0 as (k & Hk & ->). eapply set_box_ok; [done..| |exact H].
  destruct (negb _); [|injection E1 as <-; by left]. apply update_Ret in E1 as (e & He & ->). right. by exists e, (gets src pk sec v).
Qed.

Lemma click_optional_ok p d v d' : provider_ok p → v ∈ pr_optional_variables p → is_boolean p v = false → fields_ok p d →
  click_optional d (v ++ js "_enabled") = Ret d' → fields_ok p d' ∧ keeps p d d'.
Proof.
  intros Hpo Hv Eb Hf H. unfold click_optional in H. binds H. apply update_Ret in E as (k & Hk & ->). apply el_Ret in E0. simpl in E0. rewrite lookup_insert_eq in E0.
  injection E0 as <-. pose proof (po_enabled _ Hpo) as Hre. rewrite Forall_forall in Hre. rewrite Hre in H by done.
  eapply set_box_ok; [done..| |exact H]. by left.
Qed.

Lemma load_fold_ok (f : document → jstr → exn document) p l d d' : (∀ d v d', v ∈ l → fields_ok p d → f d v = Ret d' → fields_ok p d' ∧ keeps p d d') →
  fields_ok p d → exn_fold f l d = Ret d' → fields_ok p d' ∧ keeps p d d'.
Proof.
  revert d. induction l as [|v l IH]; intros d Hf H1 H; simpl in H; [by injection H as <-|]. binds H.
  destruct (Hf d v a) as [A1 A2]; [by left|done..|]. destruct (IH a) as [B1 B2]; [|done..|].
  - intros d0 v0 d0' Hv0. apply Hf. by right.
  - split; [done|by eapply keeps_trans].
Qed.

(** An element outside the window. *)
Lemma update_static p q d id f d' : id ∈ static_ids → id ≠ js "ddns_provider" → provider_ok p → form_base (with_doc q d) → fields_ok p d → update d id f = Ret d' →
  form_base (with_doc q d') ∧ fields_ok p d' ∧ Dom.elements d' !! js "ddns_provider" = Dom.elements d !! js "ddns_provider".
Proof.
  intros Hs Hne Hpo [H1 H2 H3 H4 H5] [F1 F2] H. apply update_Ret in H as (e & He & ->). pose proof (po_static _ Hpo) as Hst. rewrite Forall_forall in Hst.
  specialize (Hst id Hs). cbn [with_doc dp_doc dp_fields dp_providers] in *. split_and!.
  - split; cbn [with_doc dp_doc dp_fields dp_providers]; simpl; [|..|done].
    + rewrite lookup_insert_ne; [done|]. intros ->. congruence.
    + intros x Hx. rewrite lookup_insert_ne; [by apply H2|]. intros ->. destruct Hx as [->| ->]; revert Hs; by_eval.
    + done.
    + by rewrite lookup_insert_ne.
  - split.
    + apply (put_there p _ id e); [done..|]. intros Hx. destruct Hst. apply in_fields, input_is. left.
      unfold text_variables in Hx. rewrite list_elem_of_In, filter_In, <-list_elem_of_In in Hx. apply Hx.
    + apply put_obeyed; [intros ->; revert Hs; by_eval|intros ->; revert Hs; by_eval|done].
  - simpl. by rewrite lookup_insert_ne.
Qed.

Lemma put_lookup d id e : Dom.elements (put d id e) !! id = Some e.
Proof. apply lookup_insert_eq. Qed.

Lemma select_first_options f e : e_options (select_first f e) = e_options e.
Proof. unfold select_first. destruct (find_option f (e_options e) 0); [done|]. by destruct (_ && _). Qed.

(** The domain that is stored is the one in the window. *)
Lemma stored_domain p d n : provider_ok p → fields_ok p d →
  (let dom := if decide (js "domain" ∈ variables p) then default [] (required_value p d (js "domain")) else [] in
   let test := if decide (js "test_domain" ∈ pr_optional_variables p) then default [] (optional_value p d (js "test_domain")) else [] in
   if test =s [] then if dom =s [] then n else dom else test) =
  (if form_domain d n =s [] then n else form_domain d n).
Proof.
  intros Hpo [[H1 H2 H3] H4]. cbv zeta. unfold form_domain, getElementById.
  set (dom := if decide (js "domain" ∈ variables p) then _ else _). set (test := if decide (js "test_domain" ∈ _) then _ else _).
  assert (Hd : (if dom =s [] then n else dom) = (let x := match Dom.elements d !! js "domain" with Some e => value e | None => n end in if x =s [] then n else x)).
  { unfold dom. destruct (decide _) as [Hin|Hin]; [|rewrite (H2 Hin); cbv zeta; simpl; by destruct (n =s []) eqn:E].
    assert (Hb : is_boolean p (js "domain") = false) by (apply bool_decide_eq_false_2; pose proof (po_domain _ Hpo); set_solver).
    destruct (H1 (js "domain")) as (e & He & _). { unfold text_variables. rewrite list_elem_of_In, filter_In, <-list_elem_of_In. by rewrite Hb. }
    unfold required_value. rewrite He. cbn [mbind option_bind]. rewrite Hb. cbv zeta. destruct (value e =s []) eqn:E; [done|]. simpl. by rewrite E. }
  assert (Ht : test = match Dom.elements d !! js "test_domain" with Some e => value e | None => [] end).
  { unfold test. change (js "test_domain") with td. destruct (decide (td ∈ pr_optional_variables p)) as [Hin|Hin]; [|by rewrite (H3 Hin)]. destruct (H4 Hin) as (e & k & He & Hk & _ & Ho).
    unfold optional_value. change (td ++ js "_enabled") with td_box. rewrite He. cbn [mbind option_bind]. rewrite td_not_boolean by done. rewrite Hk. cbn [mbind option_bind].
    destruct (e_checked k); [done|]. destruct Ho as [-> _]; done. }
  rewrite Hd, Ht. destruct (Dom.elements d !! js "test_domain") as [e|]; [|done]. destruct (value e =s []) eqn:E; [done|]. by rewrite E.
Qed.

(** ** Validation *)
Lemma visible_like d d' f : like d d' → field_visible d' f = field_visible d f.
Proof.
  intros Hl. unfold field_visible, el, getElementById. destruct (f_visibility f) as [v|]; [|done]. specialize (Hl v).
  destruct (Dom.elements d' !! v) as [e'|], (Dom.elements d !! v) as [e|]; simpl in Hl; try done. apply (inj Some), seen_value in Hl as (_ & _ & _ & Hd & Hs).
  simpl. by rewrite Hd, Hs.
Qed.

Lemma proofread_step UI errs d f errs' d' : proofread_field UI (errs, d) f = Ret (errs', d') →
  like d d' ∧ ∃ more, errs' = errs ++ more ∧ (more = [] → field_visible d f = Ret true → ∃ e, Dom.elements d !! f_input f = Some e ∧ f_check f (value e) = f_code f).
Proof.
  intros H. unfold proofread_field in H. binds H. destruct a; [|injection H as <- <-; split; [apply like_refl|exists []; rewrite app_nil_r; split; [done|congruence]]].
  binds H. apply update_Ret in E0 as (e & He & ->). apply el_Ret in E1. rewrite put_lookup in E1. injection E1 as <-.
  assert (Hv : value (proofread_el (f_check f) (f_code f) e) = value e) by (by apply seen_value).
  assert (Hl : like d (put d (f_input f) (proofread_el (f_check f) (f_code f) e))) by (by apply (put_like d _ e)).
  rewrite Hv in H. destruct (f_check f (value e) =? f_code f) eqn:Ec; simpl in H.
  - injection H as <- <-. split; [done|]. exists []. rewrite app_nil_r. split; [done|]. intros _ _. exists e. split; [done|lia].
  - binds H. injection H as <- <-. split; [|eexists; split; [done|]; intros [=]]. match goal with E : match getElementById ?a ?b with _ => _ end = Ret _ |- _ => destruct (getElementById a b); [binds E|]; injection E as <- end; [done|].
    eapply like_trans; [exact Hl|]. by apply like_eq.
Qed.

Lemma proofread_fields_like UI fs errs d errs' d' : exn_fold (proofread_field UI) fs (errs, d) = Ret (errs', d') →
  like d d' ∧ (∃ more, errs' = errs ++ more) ∧
  (errs' = [] → ∀ f, f ∈ fs → field_visible d f = Ret true → ∃ e, Dom.elements d !! f_input f = Some e ∧ f_check f (value e) = f_code f).
Proof.
  revert errs d. induction fs as [|f fs IH]; intros errs d H; simpl in H.
  { injection H as <- <-. split_and!; [apply like_refl|exists []; by rewrite app_nil_r|set_solver]. }
  binds H. destruct a as [errs1 d1]. apply proofread_step in E as (Hl & m1 & -> & Hf). apply IH in H as (Hl' & [m2 ->] & Hfs).
  split_and!; [by eapply like_trans|exists (m1 ++ m2); by rewrite app_assoc|]. intros Hnil g [->|Hg]%elem_of_cons Hv.
  - apply Hf; [|done]. by destruct m1, errs.
  - destruct (Hfs Hnil g Hg) as (e & He & Hc); [by rewrite (visible_like d d1)|]. specialize (Hl (f_input g)). rewrite He in Hl.
    destruct (Dom.elements d !! f_input g) as [e0|]; simpl in Hl; [|done]. apply (inj Some), seen_value in Hl as (Ev & _). exists e0. by rewrite <-Ev.
Qed.

Lemma update_class_like l d d' : exn_fold (fun d v => update d v (set_class [])) l d = Ret d' → like d d'.
Proof.
  revert d. induction l as [|v l IH]; intros d H; simpl in H; [injection H as <-; apply like_refl|]. binds H. apply update_Ret in E as (e & He & ->).
  eapply like_trans; [|by apply IH]. by apply (put_like d v e).
Qed.

Lemma form_domain_like d d' n : like d d' → form_domain d' n = form_domain d n.
Proof.
  intros H. unfold form_domain, getElementById. pose proof (H (js "domain")) as H1. pose proof (H (js "test_domain")) as H2.
  assert (Hv : ∀ o o' : option element, seen <$> o' = seen <$> o → value <$> o' = value <$> o).
  { intros [e|] [e'|]; simpl; try done. intros Hs%(inj Some). by apply seen_value in Hs as [-> _]. }
  apply Hv in H1, H2. destruct (Dom.elements d' !! js "domain"), (Dom.elements d !! js "domain"); simpl in H1; simplify_eq;
    destruct (Dom.elements d' !! js "test_domain"), (Dom.elements d !! js "test_domain"); simpl in H2; simplify_eq; by rewrite ?H1, ?H2.
Qed.

Lemma notNull_ne s : notNull s = 0 → s ≠ [].
Proof. by intros H ->. Qed.

Section page.
Context (UI : jstr → jstr) (DyDNS : gmap jstr jstr) (extScripts : list jstr).

Lemma getSelectedValue_elements d id r : getSelectedValue UI d id = Ret r → Dom.elements (snd r) = Dom.elements d.
Proof. unfold getSelectedValue. destruct (getElementById d id); [|by intros [= <-]]. destruct (0 <=? _); intros H; [binds H|]; by injection H as <-. Qed.

Lemma getSelected_chosen d s d' : getSelectedValue UI d (js "ddns_provider") = Ret (s, d') → s = chosen d.
Proof.
  unfold getSelectedValue, getElementById, chosen. destruct (Dom.elements d !! js "ddns_provider") as [e|]; [|by intros [= <-]]. simpl.
  destruct (0 <=? _); [|by intros [= <-]]. intros H. binds H. destruct (selected_option e); [|done]. injection E as ->. by injection H as <-.
Qed.

Lemma selected_chosen d s d' : Dom.elements d !! js "ddns_provider_text" = None → selected_provider UI d = Ret (s, d') →
  s = chosen d ∧ Dom.elements d' = Dom.elements d.
Proof.
  intros Ht H. unfold selected_provider, getElementById in H. rewrite Ht in H. split; [by apply getSelected_chosen in H|by apply getSelectedValue_elements in H].
Qed.

(** A text field that is not used is empty. *)
Definition test_domain_value (p : provider) (d : document) : jstr := default [] (optional_value p d (js "test_domain")).


Lemma setUci_stored_service q sec providerName p q' : Dom.elements (dp_doc q) !! js "ddns_provider_text" = None →
  chosen (dp_doc q) = Some providerName → find_provider (dp_providers q) (Some providerName) = Some p → provider_ok p →
  wf (dp_uci q) → shaped (dp_uci q) → pkg_unambiguous (dp_uci q) pkg → word sec → setUciFromDocument UI DyDNS q sec = Ret q' →
  ∃ d u', q' = with_uci (with_doc q d) u' ∧ Dom.elements d = Dom.elements (dp_doc q) ∧
  wf u' ∧ shaped u' ∧ pkg_unambiguous u' pkg ∧ (∀ s, name s → s ≠ sec → same_service (dp_uci q) u' s) ∧ service u' sec ∧
  provider_of u' sec = providerName ∧ ipv6_of u' sec = form_ipv6 providerName ∧
  gets u' pkg sec (js "domain") = (if decide (js "domain" ∈ variables p) then default [] (required_value p (dp_doc q) (js "domain")) else []) ∧
  gets u' pkg sec (js "test_domain") = (if decide (js "test_domain" ∈ pr_optional_variables p) then default [] (optional_value p (dp_doc q) (js "test_domain")) else []).
Proof.
  intros Ht Hch Hfp Hpo Hwf Hsh Hown Hw H. pose proof (word_name _ Hw) as Hsec. unfold setUciFromDocument in H. binds H.
  destruct a as [s d]. apply selected_chosen in E as [-> Ed]; [|done]. cbn [fst snd] in *. rewrite Hch in E0. injection E0 as <-.
  rewrite removeSection_without in E1 by auto with ddns. injection E1 as <-.
  destruct a2 as [from d2]. apply getSelectedValue_elements in E2 as Ed2. cbn [fst snd] in *. rewrite Ed in Ed2.
  rewrite Hfp in H. binds H. injection H as <-. rename a into u1, a0 into u2, a3 into a, a4 into a0.
  destruct (store_common_spec (dp_uci q) sec providerName Hwf Hsh Hown Hw from (value a) (value a0)) as (CD & G1 & G2 & G3).
  destruct (store_variables_spec (dp_uci q) sec providerName p Hwf Hsh Hown Hw Hpo from (value a) (value a0) d2 u1 u2) as (CF & GV & GO); [done..|].
  assert (Hkeep : ∀ o, o ∈ [] :: own_options → o = [] ∨ name o → get u2 pkg sec o = get (store_common (without_section (dp_uci q) pkg sec) sec providerName from (value a) (value a0)) pkg sec o).
  { intros o Ho Hn. apply (ch_frame _ _ _ _ _ CF); [done|done|]. right. apply (own_not_variable p _ Hpo) in Ho. unfold input_ids. set_solver. }
  assert (Hvar : ∀ v d', Dom.elements d' = Dom.elements (dp_doc q) → required_value p d' v = required_value p (dp_doc q) v ∧ optional_value p d' v = optional_value p (dp_doc q) v).
  { intros v d' Hd. unfold required_value, optional_value. by rewrite Hd. }
  assert (Hnone : ∀ v, name v → v ∉ [] :: own_options → v ∉ input_ids p → gets u2 pkg sec v = []).
  { intros v Hn Ho Hi. unfold gets. rewrite (ch_frame _ _ _ _ _ CF), (ch_frame _ _ _ _ _ CD) by auto.
    rewrite without_get by auto with ddns. by rewrite decide_True. }
  exists d2, u2. split_and!; [done|exact Ed2|apply CF..| | | | | |].
  - intros s Hs Hne o Ho. apply watched_name in Ho. rewrite (ch_frame _ _ _ _ _ CF), (ch_frame _ _ _ _ _ CD) by auto.
    rewrite without_get by auto with ddns. by rewrite decide_False.
  - unfold service, gets. rewrite Hkeep, G1; [done|by left|by left].
  - unfold provider_of, gets. rewrite Hkeep, G2; [done|by_eval|right; by_eval].
  - unfold ipv6_of, gets. rewrite Hkeep, G3; [|by_eval|right; by_eval]. unfold form_ipv6. by destruct (test re_v6 providerName).
  - pose proof (po_domain _ Hpo). destruct (decide _) as [Hin|Hin].
    + unfold gets. rewrite GV by done. by destruct (Hvar (js "domain") d2 Ed2) as [-> _].
    + apply Hnone; [by_eval|by_eval|]. unfold input_ids. set_solver.
  - pose proof (po_test_domain _ Hpo). destruct (decide _) as [Hin|Hin].
    + unfold gets. rewrite GO by done. by destruct (Hvar (js "test_domain") d2 Ed2) as [_ ->].
    + apply Hnone; [by_eval|by_eval|]. unfold input_ids. set_solver.
Qed.

(** The fields that [setProvider] makes are those of the provider. *)
Lemma setProvider_fields q p l d d' : form_base q → provider_ok p → (∀ id, id ≠ js "ddns_no_script" → Dom.elements d !! id = Dom.elements (dp_doc q) !! id) →
  provider_fields DyDNS p = Ret l → exn_fold (enable_optional p) (pr_optional_variables p) (put_elements (drop_elements d (dp_fields q)) l) = Ret d' →
  fields_ok p d' ∧ (∀ id, id ∈ map fst l → id ∉ static_ids) ∧ (∀ id, id = js "domain" ∨ id = td → Dom.elements d' !! id ≠ None → id ∈ map fst l) ∧
  (∀ id, id ∈ static_ids → id ≠ js "ddns_no_script" → Dom.elements d' !! id = Dom.elements (dp_doc q) !! id).
Proof.
  intros Hb Hpo Hd Hl Hf. set (d1 := put_elements (drop_elements d (dp_fields q)) l) in *.
  assert (Hids : ∀ id, id ∈ map fst l → id ∈ input_ids p ++ extra_ids p).
  { intros id (x & -> & Hx)%list_elem_of_fmap. destruct x as [id e]. destruct (provider_fields_in _ _ _ _ _ Hl Hx) as [H|[H _]]; set_solver. }
  assert (Hst : ∀ id, id ∈ static_ids → id ∉ input_ids p ++ extra_ids p) by (apply Forall_forall, po_static, Hpo).
  assert (Hin : ∀ id, id ∈ input_ids p → ∃ e, Dom.elements d1 !! id = Some e ∧ e = if is_boolean p id then check_input else text_input).
  { intros id Hid. destruct (provider_fields_cover DyDNS p l id Hl Hid) as [Hc _]. destruct (put_elements_in l (drop_elements d (dp_fields q)) id Hc) as (e & He & E).
    exists e. split; [done|]. destruct (provider_fields_in _ _ _ _ _ Hl He) as [Hx|[_ Hx]]; [|done].
    pose proof (po_apart _ Hpo) as Ha. rewrite Forall_forall in Ha. by destruct (Ha id Hx). }
  assert (Hother : ∀ id, id = js "domain" ∨ id = td → id ∉ map fst l → Dom.elements d1 !! id = None).
  { intros id Hid Hn. unfold d1. rewrite put_elements_other by done. rewrite drop_elements_lookup. destruct (decide _) as [|Hni]; [done|].
    rewrite Hd by (by destruct Hid as [->| ->]). destruct (Dom.elements (dp_doc q) !! id) eqn:E; [|done]. destruct Hni. apply (fb_fields _ Hb); [done|]. by rewrite E. }
  assert (Hext : js "domain" ∉ extra_ids p ∧ js "domain" ∉ pr_optional_variables p ∧ td ∉ extra_ids p ∧ td ∉ variables p).
  { pose proof (po_domain _ Hpo). pose proof (po_test_domain _ Hpo). unfold td. set_solver. }
  destruct Hext as (X1 & X2 & X3 & X4).
  assert (Hthere : fields_there p d1).
  { split.
    - intros v Hv. unfold text_variables in Hv. rewrite list_elem_of_In, filter_In, <-list_elem_of_In in Hv. destruct Hv as [Hv Hbo].
      destruct (Hin v) as (e & He & ->); [by apply input_is; left|]. apply negb_true_iff in Hbo. rewrite Hbo in He. by exists text_input.
    - intros Hn. apply Hother; [by left|]. intros Hc%Hids. unfold input_ids in Hc. set_solver.
    - intros Hn. apply Hother; [by right|]. intros Hc%Hids. unfold input_ids in Hc. set_solver. }
  assert (Htest : test_there p d1).
  { intros Htd. destruct (Hin td) as (e & He & ->); [by apply input_is; right|]. rewrite td_not_boolean in He by done.
    destruct (provider_fields_cover DyDNS p l td Hl) as [_ Hc]; [by apply input_is; right|]. specialize (Hc Htd (td_not_boolean p Hpo)).
    destruct (put_elements_in l (drop_elements d (dp_fields q)) _ Hc) as (k & _ & Hk). by exists text_input, k. }
  destruct (enable_all_ok p (pr_optional_variables p) d1 d' Hpo ltac:(done) Hthere Htest Hf) as (F1 & F2 & F3). split_and!.
  - split; [done|]. intros Htd. apply F2; [by right|done].
  - intros id Hid Hs. apply (Hst id Hs). by apply Hids.
  - intros id Hid Hne. destruct (decide (id ∈ map fst l)) as [|Hn]; [done|]. destruct Hne. destruct (decide (id ∈ pr_optional_variables p)) as [Ho|Ho].
    + destruct Hn. by apply (provider_fields_cover DyDNS p l id Hl), input_is; right.
    + rewrite F3 by done. by apply Hother.
  - intros id Hs Hne. rewrite F3 by (intros Ho; apply (Hst id Hs), elem_of_app; left; by apply input_is; right). unfold d1.
    rewrite put_elements_other by (intros Hc%Hids; by apply (Hst id)). rewrite drop_elements_lookup, decide_False by (intros Hc; by apply (fb_static _ Hb id)).
    by apply Hd.
Qed.


Lemma setProvider_ok q r q' : form_base q → setProvider UI DyDNS extScripts q = Ret (r, q') →
  form_ok q' ∧ r = find_provider (dp_providers q) (chosen (dp_doc q)) ∧
  Dom.elements (dp_doc q') !! js "ddns_provider" = Dom.elements (dp_doc q) !! js "ddns_provider" ∧ ∃ d l, q' = with_fields (with_doc q d) l.
Proof.
  intros Hb H. unfold setProvider in H. binds H. destruct a as [s d]. apply selected_chosen in E as [-> Ed]; [|apply Hb]. cbn [fst snd] in H.
  destruct (find_provider _ _) as [p|] eqn:Ep.
  2:{ injection H as <- <-. cbn [with_doc dp_doc]. rewrite Ed. split_and!; [|done|done|by exists d, (dp_fields q)]. split.
      - apply base_like; [by apply like_eq|done].
      - intros p. cbn [with_doc dp_doc dp_providers]. rewrite (chosen_like (dp_doc q) d) by (by apply like_eq). by rewrite Ep. }
  binds H. injection H as <- <-. apply find_provider_Some in Ep as Hp. destruct Hp as [Hp _]. pose proof (fb_providers _ Hb p Hp) as Hpo.
  rename a into d0, a0 into l, a1 into d'. apply update_Ret in E as (e & He & ->).
  match type of E1 with exn_fold _ _ (put_elements (drop_elements ?d2 _) l) = _ => destruct (setProvider_fields q p l d2 d') as (F1 & F2 & F3 & F4); [done|done| |done|done|] end.
  { intros id Hne. simpl. rewrite lookup_insert_ne by done. by rewrite Ed. }
  assert (Hlist : Dom.elements d' !! js "ddns_provider" = Dom.elements (dp_doc q) !! js "ddns_provider") by (apply F4; by_eval).
  cbn [with_fields with_doc dp_doc]. split_and!; [split|done|done|by eexists _, _].
  - split; cbn [with_fields with_doc dp_doc dp_fields dp_providers]; [|done|done| |apply Hb].
    + rewrite F4 by by_eval. apply Hb.
    + rewrite Hlist. apply Hb.
  - intros p'. cbn [with_fields with_doc dp_doc dp_providers]. rewrite (chosen_lookup (dp_doc q)) by done. rewrite Ep. by intros [= <-].
Qed.

Lemma base_select q f e : Dom.elements (dp_doc q) !! js "ddns_provider" = Some e → form_base q → form_base (with_doc q (put (dp_doc q) (js "ddns_provider") (select_first f e))).
Proof.
  intros He [H1 H2 H3 H4 H5]. split; cbn [with_doc dp_doc dp_fields dp_providers]; simpl; [|..|done].
  - rewrite lookup_insert_ne; [done|]. intros Ex. rewrite <-Ex in H1. congruence.
  - intros id Hid. rewrite lookup_insert_ne; [by apply H2|]. intros <-. by destruct Hid.
  - done.
  - rewrite lookup_insert_eq. eexists. split; [done|]. rewrite select_first_options. destruct H4 as (e' & He' & Ho). rewrite He in He'. by injection He' as <-.
Qed.

Lemma setDocument_ok q src pk sec q' : form_base q → setDocumentFromUci UI DyDNS extScripts q src pk sec = Ret q' →
  form_ok q' ∧ (∃ d l, q' = with_fields (with_doc q d) l) ∧ ∃ e, Dom.elements (dp_doc q) !! js "ddns_provider" = Some e ∧
    Dom.elements (dp_doc q') !! js "ddns_provider" = Some (select_first (fun o => o_value o =s gets src pk sec (js "service_provider")) e).
Proof.
  intros Hb H. unfold setDocumentFromUci, getElementById in H. rewrite (fb_text _ Hb) in H. binds H. apply update_Ret in E as (e & He & ->).
  destruct a0 as [r q1]. destruct (setProvider_ok _ _ _ (base_select q _ e He Hb) E0) as (Hf & -> & Hl & d1 & l & Eq1). clear E0.
  cbn [with_doc dp_doc dp_providers] in *. rewrite put_lookup in Hl. binds H. destruct (find_provider _ _) as [p|] eqn:Ep; [|done]. injection E as <-.
  apply find_provider_Some in Ep as Hp. destruct Hp as [Hp _]. pose proof (fb_providers _ Hb p Hp) as Hpo. injection H as <-.
  destruct Hf as [Hb1 Hm1].
  assert (Hch : chosen (dp_doc q1) = chosen (put (dp_doc q) (js "ddns_provider") (select_first (fun o => o_value o =s gets src pk sec (js "service_provider")) e))).
  { apply chosen_lookup. by rewrite Hl, put_lookup. }
  assert (Hfp : find_provider (dp_providers q1) (chosen (dp_doc q1)) = Some p) by (rewrite Hch; by subst q1).
  pose proof (Hm1 p Hfp) as Hfl. rename a0 into d2, a1 into d3, a2 into d4, a3 into d5, a4 into d6.
  destruct (load_fold_ok _ p _ _ _ (λ d v d', load_required_ok src pk sec p d v d' Hpo) Hfl E0) as [Hf2 K2].
  destruct (load_fold_ok _ p _ _ _ (λ d v d', load_optional_ok src pk sec p d v d' Hpo) Hf2 E1) as [Hf3 K3].
  destruct (keeps_base p q1 d3 Hpo (keeps_trans _ _ _ _ K2 K3) Hb1) as (Hb3 & Hc3 & Hl3).
  pose proof (update_static p q1 d3 (js "ddns_check") _ d4 ltac:(by_eval) ltac:(by_eval) Hpo Hb3 Hf3 E2) as (Hb4 & Hf4 & Hl4).
  pose proof (update_static p q1 d4 (js "ddns_force") _ d5 ltac:(by_eval) ltac:(by_eval) Hpo Hb4 Hf4 E3) as (Hb5 & Hf5 & Hl5).
  pose proof (update_static p q1 d5 (js "ip_from") _ d6 ltac:(by_eval) ltac:(by_eval) Hpo Hb5 Hf5 E4) as (Hb6 & Hf6 & Hl6).
  assert (Hlast : Dom.elements d6 !! js "ddns_provider" = Dom.elements (dp_doc q1) !! js "ddns_provider") by (by rewrite Hl6, Hl5, Hl4, Hl3).
  split_and!.
  - split; [done|]. intros p'. cbn [with_doc dp_doc dp_providers]. rewrite (chosen_lookup (dp_doc q1)) by done. rewrite Hfp. by intros [= <-].
  - subst q1. by exists d6, l.
  - exists e. split; [done|]. cbn [with_doc dp_doc]. by rewrite Hlast.
Qed.

(** What the validation of the window says. *)
Lemma proofread_service q errors q1 : form_ok q → proofreadServiceProvider UI DyDNS q = Ret (errors, q1) →
  ∃ d p n, q1 = with_doc q d ∧ like (dp_doc q) d ∧ chosen (dp_doc q) = Some n ∧ find_provider (dp_providers q) (Some n) = Some p ∧ pr_name p = n ∧ provider_ok p ∧
    (errors = [] → (js "domain" ∈ variables p → form_domain (dp_doc q) n ≠ []) ∧
       ∃ services, getAllSectionsOfType (dp_uci q) pkg (js "service") = Ret services ∧
         is_duplicate (dp_uci q) services (form_domain (dp_doc q) n) (form_ipv6 n) = false).
Proof.
  intros [Hb Hm] H. unfold proofreadServiceProvider in H. binds H. destruct a as [s d0]. apply selected_chosen in E as [-> Ed]; [|apply Hb]. cbn [fst snd] in *.
  destruct (find_provider _ _) as [p|] eqn:Ep; [|done]. injection E0 as <-. apply find_provider_Some in Ep as Hp. destruct Hp as [Hp Hn].
  pose proof (fb_providers _ Hb p Hp) as Hpo. pose proof (Hm p Ep) as Hf. rewrite <-Hn in *. cbn [default] in H. destruct a2 as [errs d1]. binds H. injection H as <- <-. rename a0 into d2.
  destruct (proofread_fields_like _ _ _ _ _ _ E2) as (Hl1 & _ & Hv). apply update_class_like in E0 as Hl2.
  assert (Hl0 : like (dp_doc q) d0) by (by apply like_eq). assert (Hl : like (dp_doc q) d2) by (eapply like_trans; [|exact Hl2]; by eapply like_trans).
  exists d2, p, (pr_name p). split_and!; [done..|]. intros ->. destruct errs as [|er errs]; [|done]. cbn [length Nat.eqb] in E3. binds E3.
  destruct (is_duplicate _ _ _ _) eqn:Edup; [done|]. clear E3. split.
  - intros Hin. assert (Ht : js "domain" ∈ text_variables p).
    { unfold text_variables. rewrite list_elem_of_In, filter_In, <-list_elem_of_In. split; [done|]. apply negb_true_iff, bool_decide_eq_false_2. pose proof (po_domain _ Hpo). set_solver. }
    destruct (ft_text _ _ (proj1 Hf) _ Ht) as (e & He & Hdis & Hdsp).
    destruct (Hv eq_refl (own_field (js "domain") notNull)) as (e0 & He0 & Hc).
    + unfold service_fields in E1. binds E1. injection E1 as <-. apply elem_of_cons. right. apply elem_of_cons. right. apply list_elem_of_fmap. exists (js "domain"). split; [done|]. by apply elem_of_app; left.
    + rewrite (visible_like _ _ _ Hl0). unfold field_visible, own_field. cbn [f_visibility]. unfold el, getElementById. rewrite He. simpl. rewrite Hdis. by rewrite (proj2 (str_eqb_neq _ _) Hdsp).
    + cbn [own_field f_input f_check f_code] in *. rewrite Ed, He in He0. injection He0 as <-. apply notNull_ne in Hc.
      unfold form_domain, getElementById. rewrite He. destruct (Dom.elements (dp_doc q) !! js "test_domain") as [x|]; [|done]. destruct (value x =s []) eqn:E'; [done|]. by apply str_eqb_neq.
  - match goal with E : getAllSectionsOfType _ _ _ = Ret ?x |- _ => exists x end. split; [done|]. by rewrite <-(form_domain_like _ _ _ Hl).
Qed.

(** ** The table *)
Definition same_line (a b : jstr) : Prop := head (split_char 10 a) = head (split_char 10 b).

(** A row with the box of the service, which shows its domain. *)
Definition shows_service (u : UCIContainer) (s : jstr) (ds : list datum) : Prop :=
  ∃ a b c w x y, ds = [DStr a; DStr b; DStr c; DObj w; DObj x; DObj y] ∧ w_id w = s ∧ same_line a (domain_of u s).

Definition listed_services (u : UCIContainer) (o : option table) : Prop :=
  ∃ t D ids, o = Some t ∧ table_wf t ∧ getTableDataArray t true false = Ret D ∧ Forall2 (shows_service u) ids D ∧
    NoDup ids ∧ Forall name ids ∧ ∀ s, name s → s ∈ ids ↔ service u s.

(** ** What a user can do *)

(** The windows: none, the one for a new service, the one for a service of the table,
    with what it remembers. *)
Inductive window := Closed | Adding | Editing (row : nat) (section providerName selectedDomain : jstr).

(** What the user does.  The window of a service opens only when its provider is in the
    file of providers: without it the list keeps the provider chosen before, and the
    check for duplicates can be passed ([unknown_provider_edit_clash]). *)
Inductive ddns_step : ddns_page * window → ddns_page * window → Prop :=
| st_open_add q q' : addDDNSModal UI DyDNS extScripts q = Ret q' → ddns_step (q, Closed) (q', Adding)
| st_open_edit q row q' s n dom : editDDNSModal UI DyDNS extScripts q row = Ret (q', (s, n, dom)) →
    find_provider (dp_providers q) (Some n) ≠ None → ddns_step (q, Closed) (q', Editing row s n dom)
| st_close q w : ddns_step (q, w) (q, Closed)
| st_type q w id e v : Dom.elements (dp_doc q) !! id = Some e → is_text e = true → e_disabled e = false →
    ddns_step (q, w) (with_doc q (put (dp_doc q) id (set_value v e)), w)
| st_tick q w id e b : Dom.elements (dp_doc q) !! id = Some e → (∀ v, id ≠ v ++ js "_enabled") →
    ddns_step (q, w) (with_doc q (put (dp_doc q) id (set_checked b e)), w)
| st_optional q w p v d : find_provider (dp_providers q) (chosen (dp_doc q)) = Some p → v ∈ pr_optional_variables p → is_boolean p v = false →
    click_optional (dp_doc q) (v ++ js "_enabled") = Ret d → ddns_step (q, w) (with_doc q d, w)
| st_choose q w e n d r q' : Dom.elements (dp_doc q) !! js "ddns_provider" = Some e → e_disabled e = false →
    setSelectedValue (dp_doc q) (js "ddns_provider") n = Ret d → setProvider UI DyDNS extScripts (with_doc q d) = Ret (r, q') → ddns_step (q, w) (q', w)
| st_from q w n d : setSelectedValue (dp_doc q) (js "ip_from") n = Ret d → ddns_step (q, w) (with_doc q d, w)
| st_add q q' w : addDdnsService UI DyDNS extScripts q = Ret q' → w = Adding ∨ w = Closed → ddns_step (q, Adding) (q', w)
| st_edit q row s n dom q' w : editServiceTableRow UI DyDNS q row s n dom = Ret q' →
    w = Closed ∨ w = Editing row s n dom ∧ dp_uci q' = dp_uci q ∧ dp_table q' = dp_table q → ddns_step (q, Editing row s n dom) (q', w)
| st_click q row q' : setRowEnabled q row = Ret q' → ddns_step (q, Closed) (q', Closed)
| st_remove q row q' : removeServiceProvider q row = Ret q' → ddns_step (q, Closed) (q', Closed).

(** What the window of a service remembers is what the settings say, and its
    provider cannot be changed. *)
Definition window_ok (q : ddns_page) (w : window) : Prop :=
  match w with
  | Editing row s n dom => name s ∧ service (dp_uci q) s ∧ provider_of (dp_uci q) s = n ∧ domain_of (dp_uci q) s = dom ∧ chosen (dp_doc q) = Some n ∧
      (∃ e, Dom.elements (dp_doc q) !! js "ddns_provider" = Some e ∧ e_disabled e = true) ∧
      (∃ t r wd, dp_table q = Some t ∧ body_row t row = Ret r ∧ cell_widget r check_column = Ret wd ∧ w_id wd = s)
  | _ => True
  end.

Record page_ok (qw : ddns_page * window) : Prop := {
  pg_services : services_ok (dp_uci qw.1);
  pg_table : listed_services (dp_uci qw.1) (dp_table qw.1);
  pg_form : form_ok qw.1;
  pg_window : window_ok qw.1 qw.2
}.

Lemma stored_from_form q sec n p q' : form_ok q → services_ok (dp_uci q) → word sec → chosen (dp_doc q) = Some n → find_provider (dp_providers q) (Some n) = Some p →
  setUciFromDocument UI DyDNS q sec = Ret q' →
  ∃ d u', q' = with_uci (with_doc q d) u' ∧ Dom.elements d = Dom.elements (dp_doc q) ∧ provider_of u' sec = n ∧
    stored_service sec (if form_domain (dp_doc q) n =s [] then n else form_domain (dp_doc q) n) (form_ipv6 n) (dp_uci q) u'.
Proof.
  intros [Hb Hm] Hok Hw Hc Hp H. apply find_provider_Some in Hp as Hin. destruct Hin as [Hin Hn]. pose proof (fb_providers _ Hb p Hin) as Hpo.
  destruct (setUci_stored_service q sec n p q') as (d & u' & -> & Ed & H1 & H2 & H3 & H4 & H5 & H6 & H7 & H8 & H9); [apply Hb|done|done|done|apply Hok..|done|done|].
  exists d, u'. split_and!; [done..|]. split; [done..| | |].
  - unfold domain_of. rewrite H8, H9. unfold provider_of in H6. rewrite H6. rewrite <-(stored_domain p (dp_doc q) n Hpo); [done|]. apply Hm. by rewrite Hc.
  - done.
  - by rewrite H6.
Qed.

(** *** Rows *)
Lemma same_line_first a : same_line (default [] (head (split_char 10 a))) a.
Proof.
  unfold same_line. pose proof (split_char_nonempty 10 a) as Hne. destruct (split_char 10 a) as [|x l] eqn:E; [done|]. simpl. rewrite split_char_none; [done|].
  pose proof (split_char_pieces 10 a) as Hp. rewrite E in Hp. by apply Forall_inv in Hp.
Qed.

Lemma service_row_first u s a b c w x y : w_id w = s → same_line a (domain_of u s) → shows_service u s (map first_line [DStr a; DStr b; DStr c; DObj w; DObj x; DObj y]).
Proof.
  intros Hw Ha. eexists _, _, _, w, x, y. split; [reflexivity|]. split; [done|]. pose proof (same_line_first a) as H. unfold same_line in *. congruence.
Qed.

Lemma listed_same u u' o : listed_services u o → (∀ s, name s → same_service u u' s) → listed_services u' o.
Proof.
  intros (t & D & ids & -> & Hwf & HD & HF & Hnd & Hn & Hiff) Hs. exists t, D, ids. rewrite Forall_forall in Hn. split_and!; [done|done|done| |done|by apply Forall_forall|].
  - apply (Forall2_impl (λ s ds, name s ∧ shows_service u s ds)).
    + clear -HF Hn. induction HF; constructor; [split; [apply Hn; by left|done]|]. apply IHHF. intros z Hz. apply Hn. by right.
    + intros s ds [Hsn (a & b & c & w & x & y & -> & Hw & Ha)]. destruct (same_service_spec _ _ _ (Hs s Hsn)) as (_ & Hd & _).
      exists a, b, c, w, x, y. by rewrite Hd.
  - intros s Hsn. destruct (same_service_spec _ _ _ (Hs s Hsn)) as [Hv _]. by rewrite Hiff, Hv.
Qed.

Lemma service_row_at u t row r : listed_services u (Some t) → body_row t row = Ret r →
  ∃ i D ids a b c w x y, t_body t !! i = Some r ∧ r_id r = row ∧ table_wf t ∧ getTableDataArray t true false = Ret D ∧ Forall2 (shows_service u) ids D ∧
    NoDup ids ∧ Forall name ids ∧ (∀ s, name s → s ∈ ids ↔ service u s) ∧ ids !! i = Some (w_id w) ∧ cells_ok r ∧
    row_data 1 r = Some [DStr a; DStr b; DStr c; DObj w; DObj x; DObj y] ∧ cell_widget r 3 = Ret w.
Proof.
  intros (t' & D & ids & [= <-] & Hwf & HD & HF & Hnd & Hn & Hiff) Hr. apply body_row_index in Hr as (i & Hi & Hid).
  assert (Hlen : length (t_body t) = length D) by (apply table_data_rows in HD; [|done]; apply (f_equal length) in HD; by rewrite !length_map in HD).
  destruct (lookup_lt_is_Some_2 D i) as [ds Hds]; [rewrite <- Hlen; by eapply lookup_lt_Some|].
  destruct (Forall2_lookup_r _ _ _ _ _ HF Hds) as (s & Hs & a & b & c & w & x & y & -> & Hw & Ha).
  assert (Hokr : cells_ok r) by (pose proof (wf_cells _ Hwf) as Hc; rewrite Forall_forall in Hc; apply Hc; by eapply list_elem_of_lookup_2).
  pose proof (data_row true false t D i r _ Hwf HD Hi Hds) as Hrd. simpl in Hrd.
  exists i, D, ids, a, b, c, w, x, y. rewrite Hw. split_and!; try done. by apply (set_widget_effect true false r 3 (λ w, w) _ w Hokr Hrd).
Qed.

(** *** Adding *)
Lemma free_number_ddns u fuel n : 0 <= n → let m := free_number fuel u n in 0 <= m ∧
  (gets u pkg (js "ddns_" ++ str_of_Z m) [] = [] ∨ ∀ k, (k < fuel)%nat → gets u pkg (js "ddns_" ++ str_of_Z (n + Z.of_nat k)) [] ≠ []).
Proof.
  cbv zeta. revert n. induction fuel as [|f IH]; intros n Hn; [cbn; split; [done|right; lia]|]. cbn [free_number].
  destruct (gets _ _ _ _ =s []) eqn:E; [apply str_eqb_eq in E; auto|]. destruct (IH (n + 1)) as [Hm [Hg|Hg]]; [lia|auto|]. split; [done|right].
  intros [|k] Hk; [rewrite Z.add_0_r; by apply str_eqb_neq|]. replace (n + Z.of_nat (S k)) with (n + 1 + Z.of_nat k) by lia. apply Hg. lia.
Qed.

Lemma free_section_ddns u ss : wf u → word (free_section u ss) ∧ gets u pkg (free_section u ss) [] = [].
Proof.
  intros Hu. assert (Hz : 0 <= 1 + zlen ss) by (unfold zlen; lia). unfold free_section. destruct (free_number_ddns u (S (length (keys u))) (1 + zlen ss) Hz) as [Hm Hg]. split.
  - apply word_numbered; [by_eval|done].
  - destruct Hg as [Hg|Hg]; [done|]. destruct (names_run_out pkg u (js "ddns_") (1 + zlen ss) Hu Hz) as (k & Hk & Ek).
    destruct (Hg k); [lia|]. unfold gets. by rewrite Ek.
Qed.

Lemma not_duplicate u services dom fam : services_ok u → getAllSectionsOfType u pkg (js "service") = Ret services → is_duplicate u services dom fam = false →
  ∀ s, name s → service u s → domain_of u s = dom → ipv6_of u s = fam → False.
Proof.
  intros Hok E Hd s Hs Hsv H1 H2. apply not_true_iff_false in Hd. apply Hd. apply existsb_exists. exists s. split.
  - apply list_elem_of_In. rewrite (query_elem pkg u (js "service") _ s word_ddns (so_shaped _ Hok) (so_own _ Hok) Hs E). unfold service, gets, get in Hsv. unfold value_is.
    rewrite next_key_section in Hsv. rewrite (wf_dom _ (so_wf _ Hok)). destruct (values u !! section_key pkg s) as [v|]; simpl in *; [|done]. rewrite Hsv. split; [by eexists|apply str_eqb_refl].
  - by rewrite H1, H2, !str_eqb_refl.
Qed.

Lemma base_ext q q' : dp_doc q' = dp_doc q → dp_fields q' = dp_fields q → dp_providers q' = dp_providers q → form_base q → form_base q'.
Proof. intros E1 E2 E3 [H1 H2 H3 H4 H5]. split; rewrite ?E1, ?E2, ?E3; done. Qed.
Lemma form_ext q q' : dp_doc q' = dp_doc q → dp_fields q' = dp_fields q → dp_providers q' = dp_providers q → form_ok q → form_ok q'.
Proof. intros E1 E2 E3 [H1 H2]. split; [by eapply base_ext|]. unfold form_match. by rewrite E1, E3. Qed.

Lemma shows_same u u' s ds : same_service u u' s → shows_service u s ds → shows_service u' s ds.
Proof.
  intros Hs (a & b & c & w & x & y & -> & Hw & Ha). destruct (same_service_spec _ _ _ Hs) as (_ & Hd & _). exists a, b, c, w, x, y. by rewrite Hd.
Qed.

Lemma shows_all u u' ids D : Forall2 (shows_service u) ids D → (∀ s, s ∈ ids → same_service u u' s) → Forall2 (shows_service u') ids D.
Proof.
  intros HF. induction HF as [|s ds ids D Hs HF IH]; intros H; constructor; [eapply shows_same; [|done]; apply H; by left|]. apply IH. intros x Hx. apply H. by right.
Qed.

Lemma listed_add u u' t label sec dom fam a b c w x y : listed_services u (Some t) → stored_service sec dom fam u u' → gets u pkg sec [] = [] →
  w_id w = sec → same_line a dom → listed_services u' (Some (addTableRow label t [DStr a; DStr b; DStr c; DObj w; DObj x; DObj y] true false)).
Proof.
  intros (t' & D & ids & [= <-] & Hwf & HD & HF & Hnd & Hn & Hiff) Hst Hfree Hw Ha. set (rowd := [DStr a; DStr b; DStr c; DObj w; DObj x; DObj y]).
  pose proof (word_name _ (ss_word _ _ _ _ _ Hst)) as Hsec. assert (Hnew : sec ∉ ids) by (rewrite Hiff by done; unfold service; by rewrite Hfree).
  rewrite Forall_forall in Hn. assert (Hsame : ∀ s, s ∈ ids → same_service u u' s) by (intros s Hs; apply Hst; [by apply Hn|by intros ->]).
  destruct (addTableRow_data true false label t rowd D Hwf) as [Hwf' HD']; [done|done|].
  exists (addTableRow label t rowd true false), (D ++ [map first_line rowd]), (ids ++ [sec]). split_and!; [done|done|done| | | |].
  - apply Forall2_app; [by apply (shows_all u)|]. constructor; [|done]. apply service_row_first; [done|]. by rewrite (ss_domain _ _ _ _ _ Hst).
  - apply NoDup_app. split_and!; [done| |apply NoDup_singleton]. by intros s Hs ->%list_elem_of_singleton.
  - apply Forall_app. split; [by apply Forall_forall|]. by constructor.
  - intros s Hs. rewrite elem_of_app, list_elem_of_singleton. destruct (decide (s = sec)) as [->|Hne].
    + split; [intros _; apply Hst|by right].
    + rewrite Hiff by done. destruct (same_service_spec _ _ _ (ss_frame _ _ _ _ _ Hst s Hs Hne)) as [-> _]. naive_solver.
Qed.

Lemma form_domain_ne q n p : form_ok q → chosen (dp_doc q) = Some n → find_provider (dp_providers q) (Some n) = Some p → pr_name p = n → provider_ok p →
  (js "domain" ∈ variables p → form_domain (dp_doc q) n ≠ []) → form_domain (dp_doc q) n ≠ [].
Proof.
  intros Hform Hc Hp <- Hpo Hne. destruct (decide (js "domain" ∈ variables p)) as [Hin|Hin]; [by apply Hne|]. unfold form_domain, getElementById.
  assert (Hfo : fields_ok p (dp_doc q)) by (apply (proj2 Hform); by rewrite Hc). rewrite (ft_domain _ _ (proj1 Hfo) Hin).
  destruct (Dom.elements (dp_doc q) !! js "test_domain") as [x|]; [|apply Hpo]. destruct (value x =s []) eqn:Ex; [apply Hpo|by apply str_eqb_neq].
Qed.

Lemma service_add_ok q q' w : page_ok (q, Adding) → addDdnsService UI DyDNS extScripts q = Ret q' → w = Adding ∨ w = Closed → page_ok (q', w).
Proof.
  intros [Hok Htab Hform _] H Hw. cbn [fst snd] in *. assert (Hwin : window_ok q' w) by (by destruct Hw as [->| ->]). unfold addDdnsService in H. binds H. destruct a as [errors q1].
  destruct (proofread_service q errors q1 Hform E) as (d & p & n & -> & Hl & Hc & Hp & Hpn & Hpo & Hv).
  destruct errors as [|er errors]; cbn [length Nat.ltb Nat.leb] in H.
  2:{ injection H as <-. split; cbn [fst snd]; [done|done| |done]. eapply form_like; [|by eapply form_like, Hform]. by apply like_eq. }
  destruct (Hv eq_refl) as (Hne & services & Es & Hdup). binds H. destruct a0 as [sel d1]. cbn [fst snd] in *.
  apply getSelectedValue_elements in E1 as Ed1. cbn [snd with_doc dp_doc] in Ed1.
  assert (Hl1 : like (dp_doc q) d1) by (eapply like_trans; [exact Hl|]; by apply like_eq).
  set (sec := free_section (dp_uci q) a) in *. destruct (free_section_ddns (dp_uci q) a (so_wf _ Hok)) as [Hws Hfree]. fold sec in Hws, Hfree.
  assert (Hform1 : form_ok (with_doc (with_doc q d) d1)) by (eapply (form_ext (with_doc q d1)); [done..|]; by apply form_like).
  assert (Hc1 : chosen d1 = Some n) by (by rewrite (chosen_like _ _ Hl1)).
  apply getSelected_chosen in E1 as ->. cbn [with_doc dp_doc] in *. rewrite (chosen_like _ _ Hl), Hc in E3. injection E3 as <-.
  destruct (stored_from_form _ sec n p a1 Hform1 Hok Hws Hc1 Hp E2) as (d2 & u' & -> & Ed2 & Hpr & Hst).
  cbn [with_doc with_uci dp_doc dp_uci dp_table dp_new dp_updated] in *. rewrite (form_domain_like _ _ _ Hl1) in Hst.
  assert (Hdom : form_domain (dp_doc q) n ≠ []) by (by eapply form_domain_ne).
  rewrite (proj2 (str_eqb_neq _ _) Hdom) in Hst. pose proof (not_duplicate _ _ _ _ Hok Es Hdup) as Hfresh.
  match goal with H : exn_of_option TypeError (dp_table q) = Ret ?t |- _ => rename t into tb; destruct (dp_table q) as [t0|] eqn:Et; [|done]; injection H as -> end.
  match goal with H : setDocumentFromUci _ _ _ (with_table ?q2 (Some ?tt)) _ _ _ = Ret ?q3 |- _ =>
    assert (Hbase : form_base (with_table q2 (Some tt))); [|destruct (setDocument_ok _ _ _ _ _ Hbase H) as (Hf3 & (d3 & l3 & ->) & _); set (t' := tt) in *] end.
  { eapply (base_ext (with_doc (with_doc (with_doc q d) d1) d2)); [done..|]. apply base_like; [by apply like_eq|apply Hform1]. }
  injection H as <-. split; cbn [fst snd]; [| | |done].
  - cbn. eapply stored_service_ok; [exact Hok|exact Hst|]. intros s Hs _. by apply Hfresh.
  - cbn. eapply listed_add; [exact Htab|exact Hst|done|done|].
    unfold same_line. f_equal. f_equal. pose proof (ss_domain _ _ _ _ _ Hst) as Hd. unfold domain_of in Hd. unfold provider_of in Hpr. rewrite Hpr in Hd. exact Hd.
  - eapply form_ext; [..|exact Hf3]; done.
Qed.

Lemma listed_edit u u' t row r r' s dom fam : listed_services u (Some t) → stored_service s dom fam u u' → service u s → body_row t row = Ret r →
  (∃ w, cell_widget r check_column = Ret w ∧ w_id w = s) → set_row_data 0 dom r = Ret r' → listed_services u' (Some (set_body_row t row r')).
Proof.
  intros Hl Hst Hsv Hr (w0 & Hw0 & Hid) Hr'.
  destruct (service_row_at u t row r Hl Hr) as (i & D & ids & a & b & c & w & x & y & Hi & <- & Hwf & HD & HF & Hnd & Hn & Hiff & Hids & Hcells & Hrd & Hcw).
  change check_column with 3%nat in Hw0. rewrite Hcw in Hw0. injection Hw0 as <-. rewrite Hid in Hids. pose proof (word_name _ (ss_word _ _ _ _ _ Hst)) as Hs.
  destruct (set_row_effect true false r 0 dom _ a Hcells Hrd) as (r2 & Er2 & Hid2 & Hc2 & Hd2); [done|]. rewrite Hr' in Er2. injection Er2 as <-. cbn in Hd2.
  destruct (replace_row_effect true false t D i r r' _ Hwf HD Hi Hid2 Hc2 Hd2) as [Hwf' HD'].
  rewrite <-(set_body_row_insert t i r r') in Hwf', HD' by done. rewrite Forall_forall in Hn.
  exists (set_body_row t (r_id r) r'). eexists _, ids. split_and!; [done|exact Hwf'|exact HD'| |done|by apply Forall_forall|].
  - apply Forall2_same_length_lookup. split; [rewrite length_insert; by eapply Forall2_length|]. intros j sj dsj Hj Hdj.
    destruct (decide (j = i)) as [->|Hne].
    + rewrite Hids in Hj. injection Hj as <-. rewrite list_lookup_insert_eq in Hdj; [|rewrite <-(Forall2_length _ _ _ HF); by eapply lookup_lt_Some].
      injection Hdj as <-. exists dom, b, c, w, x, y. split_and!; [done|done|]. by rewrite (ss_domain _ _ _ _ _ Hst).
    + rewrite list_lookup_insert_ne in Hdj by done. pose proof (Forall2_lookup_lr _ _ _ _ _ _ HF Hj Hdj) as Hsh. eapply shows_same; [|exact Hsh].
      apply Hst; [apply Hn; by eapply list_elem_of_lookup_2|]. intros ->. apply Hne. by eapply NoDup_lookup.
  - intros z Hz. rewrite Hiff by done. destruct (decide (z = s)) as [->|Hne]; [split; intros _; [apply Hst|done]|].
    destruct (same_service_spec _ _ _ (ss_frame _ _ _ _ _ Hst z Hz Hne)) as [-> _]. done.
Qed.

(** *** Editing *)
Lemma window_like q q' d row s n dom : like (dp_doc q) d → dp_doc q' = d → dp_uci q' = dp_uci q → dp_table q' = dp_table q →
  window_ok q (Editing row s n dom) → window_ok q' (Editing row s n dom).
Proof.
  intros Hl Ed Eu Et (H1 & H2 & H3 & H4 & H5 & (e & He & Hd) & H7). unfold window_ok. rewrite Ed, Eu, Et. rewrite (chosen_like _ _ Hl).
  split_and!; try done. destruct (like_lookup _ _ _ _ Hl He) as (e' & He' & Es). exists e'. split; [done|]. apply seen_value in Es as (_ & _ & _ & -> & _). done.
Qed.

Lemma service_edit_ok q row s n dom q' w : page_ok (q, Editing row s n dom) → editServiceTableRow UI DyDNS q row s n dom = Ret q' →
  w = Closed ∨ w = Editing row s n dom ∧ dp_uci q' = dp_uci q ∧ dp_table q' = dp_table q → page_ok (q', w).
Proof.
  intros [Hok Htab Hform Hwin] H Hw. cbn [fst snd] in *. pose proof Hwin as (Hs & Hsv & Hpr & Hdom & Hc & Hdis & (t & r & wd & Et & Hr & Hcw & Hid)).
  unfold editServiceTableRow in H. binds H. destruct a as [errors q1].
  destruct (proofread_service q errors q1 Hform E) as (d & p & n' & -> & Hl & Hc' & Hp & Hpn & Hpo & Hv). rewrite Hc in Hc'. injection Hc' as <-.
  set (form := form_domain (dp_doc q) n) in *. binds H. rename a into errors'.
  destruct errors' as [|er errors']; cbn [length Nat.ltb Nat.leb] in H.
  2:{ injection H as <-. split; cbn [fst snd]; [done|done| |].
      - eapply form_like; [|by eapply form_like, Hform]. by apply like_eq.
      - destruct Hw as [->|(-> & _ & _)]; [done|]. eapply (window_like q); [|done|done|done|done]. eapply like_trans; [exact Hl|by apply like_eq]. }
  assert (Hcase : form ≠ [] ∧ ∀ x, name x → x ≠ s → service (dp_uci q) x → domain_of (dp_uci q) x = form → ipv6_of (dp_uci q) x = form_ipv6 n → False).
  { destruct errors as [|e1 [|e2 errors]]; [|binds E0|done].
    - destruct (Hv eq_refl) as (Hne & services & Es & Hdup). split; [by eapply form_domain_ne|]. intros x Hx _. by eapply (not_duplicate _ _ _ _ Hok Es Hdup).
    - destruct (a && (form =s dom)) eqn:Ea; [|done]. apply andb_true_iff in Ea as [_ Ef%str_eqb_eq]. rewrite Ef. split.
      + rewrite <-Hdom. unfold domain_of. unfold provider_of in Hpr. rewrite Hpr. destruct (_ =s []) eqn:Et1; [|by apply str_eqb_neq].
        destruct (gets _ _ _ (js "domain") =s []) eqn:Et2; [rewrite <-Hpn; apply Hpo|by apply str_eqb_neq].
      + intros x Hx Hne Hsx Hd Hf. apply Hne, (so_apart _ Hok); [done..|congruence|]. rewrite Hf, (so_family _ Hok s Hs Hsv). by rewrite Hpr. }
  destruct Hcase as [Hform0 Hfresh]. cbn [with_doc dp_table] in H. rewrite Et in H. cbn [exn_of_option exn_bind] in H. rewrite Hr in H. cbn [exn_bind] in H. binds H.
  match goal with E : setUciFromDocument _ _ ?q2 s = Ret ?q3 |- _ =>
    assert (Hform2 : form_ok q2) by (eapply (form_ext (with_doc q d)); [done..|]; by apply form_like);
    destruct (stored_from_form q2 s n p q3 Hform2 Hok) as (d3 & u' & -> & Ed3 & _ & Hst); [by apply (so_words _ Hok)|by rewrite <-Hc; apply chosen_like|done|done|] end.
  cbn [with_table with_doc dp_doc dp_uci] in *. rewrite (form_domain_like _ _ _ Hl) in Hst. fold form in Hst. rewrite (proj2 (str_eqb_neq _ _) Hform0) in Hst.
  injection H as <-. split; cbn [fst snd].
  - cbn. eapply stored_service_ok; [exact Hok|exact Hst|done].
  - cbn. rewrite Et in Htab. eapply listed_edit; [exact Htab|exact Hst|done|done|by exists wd|done].
  - eapply (form_ext (with_doc (with_doc q d) d3)); [done..|]. apply (form_like (with_doc q d)); [by apply like_eq|]. by apply form_like.
  - destruct Hw as [->|(-> & Hu & Htt)]; [done|]. eapply (window_like q); [|done|exact Hu|exact Htt|done]. eapply like_trans; [exact Hl|by apply like_eq].
Qed.

(** *** Switching and removing *)
Lemma click_ok q row q' : page_ok (q, Closed) → setRowEnabled q row = Ret q' → page_ok (q', Closed).
Proof.
  intros [Hok Htab Hform _] H. cbn [fst snd] in *. unfold setRowEnabled in H. destruct (dp_table q) as [t|] eqn:Et; [|done]. cbn [exn_of_option exn_bind] in H.
  binds H. destruct (service_row_at _ t row a Htab E) as (i & D & ids & x1 & x2 & x3 & w & x5 & x6 & Hi & <- & Hwf & HD & HF & Hnd & Hn & Hiff & Hids & Hcells & Hrd & Hcw).
  change check_column with 3%nat in *. change update_column with 5%nat in *. rewrite Hcw in E0. injection E0 as <-. injection H as <-.
  assert (Hsn : name (w_id w)) by (rewrite Forall_forall in Hn; apply Hn; by eapply list_elem_of_lookup_2).
  destruct (set_widget_effect true false a 3 (check_widget (negb (w_checked w))) _ w Hcells Hrd) as (_ & r1 & Er1 & Hid1 & Hc1 & Hd1); [done|]. rewrite E1 in Er1. injection Er1 as <-.
  cbn in Hd1. destruct (set_widget_effect true false a1 5 (enable_button (negb (w_checked w))) _ x6 Hc1 Hd1) as (_ & r2 & Er2 & Hid2 & Hc2 & Hd2); [done|]. rewrite E2 in Er2. injection Er2 as <-.
  cbn in Hd2. rewrite Hid1 in Hid2. destruct (replace_row_effect true false t D i a a2 _ Hwf HD Hi Hid2 Hc2 Hd2) as [Hwf' HD']. rewrite <-(set_body_row_insert t i a a2) in Hwf', HD' by done.
  assert (Hch : changes pkg (w_id w) [js "enabled"] (dp_uci q) (set1 (dp_uci q) (w_id w) "enabled" (if negb (w_checked w) then js "1" else js "0"))).
  { unfold set1. apply changes_set; [apply name_ddns|done|right; by_eval|by left|]. apply changes_refl; apply Hok. }
  destruct (changes_ok _ _ _ _ Hok Hsn Hch) as [Hok' Hsame]; [by_eval|]. split; cbn [fst snd]; [exact Hok'| |by eapply (form_ext q)|done].
  cbn. eapply listed_same; [|exact Hsame]. exists (set_body_row t (r_id a) a2). eexists _, ids. split_and!; [done|exact Hwf'|exact HD'| |done|done|done].
  destruct (lookup_lt_is_Some_2 D i) as [ds Hds]; [rewrite <-(Forall2_length _ _ _ HF); by eapply lookup_lt_Some|].
  pose proof (Forall2_lookup_lr _ _ _ _ _ _ HF Hids Hds) as (y1 & y2 & y3 & yw & y5 & y6 & -> & Hyw & Hline).
  pose proof (data_row true false t D i a _ Hwf HD Hi Hds) as Hrd'. cbn in Hrd'. rewrite Hrd in Hrd'. injection Hrd' as <- <- <- <- <- <-.
  rewrite <-(list_insert_id ids i (w_id w)) by done. apply Forall2_insert; [done|]. eexists _, _, _, _, _, _. split; [reflexivity|]. done.
Qed.

Lemma remove_ok q row q' : page_ok (q, Closed) → removeServiceProvider q row = Ret q' → page_ok (q', Closed).
Proof.
  intros [Hok Htab Hform _] H. cbn [fst snd] in *. unfold removeServiceProvider in H. destruct (dp_table q) as [t|] eqn:Et; [|done]. cbn [exn_of_option exn_bind] in H.
  binds H. destruct (service_row_at _ t row a Htab E) as (i & D & ids & x1 & x2 & x3 & w & x5 & x6 & Hi & <- & Hwf & HD & HF & Hnd & Hn & Hiff & Hids & Hcells & Hrd & Hcw).
  change check_column with 3%nat in *. rewrite Hcw in E0. injection E0 as <-. rewrite Forall_forall in Hn.
  destruct (removeRow_data true false t D i a Hwf HD Hi) as (t' & Er & Hwf' & HD'). rewrite E1 in Er. injection Er as ->.
  assert (Hin : w_id w ∈ ids) by (by eapply list_elem_of_lookup_2). assert (Hsn : name (w_id w)) by (by apply Hn). assert (Hw : word (w_id w)) by (apply (so_words _ Hok); [done|by apply Hiff]).
  rewrite removeSection_without in E2 by first [done|apply word_ddns|apply (so_wf _ Hok)|apply (so_shaped _ Hok)]. injection E2 as <-. injection H as <-.
  destruct (without_services_ok _ _ Hok Hw) as [Hok' Hsv]. split; cbn [fst snd]; [exact Hok'| |by eapply (form_ext q)|done].
  cbn. exists t'. eexists _, (delete i ids). split_and!; [done|exact Hwf'|exact HD'| | | |].
  - apply Forall2_fmap_r. apply (Forall2_impl (shows_service (without_section (dp_uci q) pkg (w_id w)))).
    + assert (Hall : ∀ s, s ∈ delete i ids → same_service (dp_uci q) (without_section (dp_uci q) pkg (w_id w)) s).
      { intros s Hs. rewrite (delete_elem ids i (w_id w) s Hnd Hids) in Hs. destruct Hs as [Hne Hs]. by apply Hsv; [apply Hn|]. }
      apply (shows_all (dp_uci q)); [|done]. by apply Forall2_delete.
    + intros s ds (y1 & y2 & y3 & yw & y5 & y6 & -> & Hyw & Hline). eexists _, _, _, _, _, _. split; [done|]. split; [|done]. by destruct (w_type yw =s js "button").
  - by eapply sublist_NoDup; [|apply sublist_delete].
  - apply Forall_forall. intros s Hs. rewrite (delete_elem ids i (w_id w) s Hnd Hids) in Hs. apply Hn, Hs.
  - intros s Hs. rewrite (delete_elem ids i (w_id w) s Hnd Hids), (Hiff s Hs). destruct (Hsv s Hs) as [-> _]. done.
Qed.

(** *** The windows and their fields *)
Lemma base_put q id e e' : Dom.elements (dp_doc q) !! id = Some e → e_options e' = e_options e → form_base q → form_base (with_doc q (put (dp_doc q) id e')).
Proof.
  intros He Ho [H1 H2 H3 H4 H5]. assert (Hsome : ∀ x, Dom.elements (put (dp_doc q) id e') !! x = None ↔ Dom.elements (dp_doc q) !! x = None).
  { intros x. simpl. destruct (decide (x = id)) as [->|Hne]; [by rewrite lookup_insert_eq, He|by rewrite lookup_insert_ne]. }
  split; cbn [with_doc dp_doc dp_fields dp_providers]; [by apply Hsome| |done| |done].
  - intros x Hx. rewrite Hsome. by apply H2.
  - destruct H4 as (l & Hl & Hp). simpl. destruct (decide (js "ddns_provider" = id)) as [<-|Hne].
    + rewrite lookup_insert_eq. exists e'. rewrite Hl in He. injection He as <-. by rewrite Ho.
    + rewrite lookup_insert_ne by done. by exists l.
Qed.

Lemma chosen_put d id e e' : Dom.elements d !! id = Some e → e_options e' = e_options e → e_selectedIndex e' = e_selectedIndex e → chosen (put d id e') = chosen d.
Proof.
  intros He Ho Hs. unfold chosen. simpl. destruct (decide (js "ddns_provider" = id)) as [<-|Hne]; [|by rewrite lookup_insert_ne].
  rewrite lookup_insert_eq, He. cbn [mbind option_bind]. unfold selected_option. by rewrite Ho, Hs.
Qed.

Lemma put_field_ok p d id e e' : Dom.elements d !! id = Some e → e_disabled e' = e_disabled e → e_display e' = e_display e → is_text e' = is_text e →
  (id = td → e_disabled e = false ∨ value e' = value e) → (id = td_box → e_checked e' = e_checked e) → fields_ok p d → fields_ok p (put d id e').
Proof.
  intros He E1 E2 E3 Htd Hbox [H1 H2]. split; [by apply (put_there p d id e e')|]. intros Hin. destruct (H2 Hin) as (x & k & Hx & Hk & Ht & Ho). simpl.
  destruct (decide (id = td)) as [->|N1].
  - rewrite lookup_insert_eq, lookup_insert_ne by by_eval. rewrite He in Hx. injection Hx as <-. exists e', k. rewrite E1, E3. split_and!; [done..|]. intros Hc.
    destruct (Ho Hc) as [Hv Hd]. destruct (Htd eq_refl) as [Hd'|Hv']; [congruence|]. by rewrite Hv'.
  - rewrite (lookup_insert_ne _ id td) by done. destruct (decide (id = td_box)) as [->|N2]; [|rewrite lookup_insert_ne by done; by exists x, k].
    rewrite lookup_insert_eq. rewrite He in Hk. injection Hk as <-. exists x, e'. by rewrite (Hbox eq_refl).
Qed.

Lemma window_keep q q' w : dp_uci q' = dp_uci q → dp_table q' = dp_table q → chosen (dp_doc q') = chosen (dp_doc q) →
  (∀ e, Dom.elements (dp_doc q) !! js "ddns_provider" = Some e → ∃ e', Dom.elements (dp_doc q') !! js "ddns_provider" = Some e' ∧ e_disabled e' = e_disabled e) →
  window_ok q w → window_ok q' w.
Proof.
  intros Eu Et Ec El. destruct w as [| |row s n dom]; [done..|]. intros (H1 & H2 & H3 & H4 & H5 & (e & He & Hd) & H7). unfold window_ok. rewrite Eu, Et, Ec. split_and!; try done.
  destruct (El e He) as (e' & He' & Hd'). exists e'. by rewrite Hd'.
Qed.

(** A field is filled or ticked. *)
Lemma put_ok q w id e e' : page_ok (q, w) → Dom.elements (dp_doc q) !! id = Some e → e_disabled e' = e_disabled e → e_display e' = e_display e → is_text e' = is_text e →
  e_options e' = e_options e → e_selectedIndex e' = e_selectedIndex e → (id = td → e_disabled e = false ∨ value e' = value e) → (id = td_box → e_checked e' = e_checked e) →
  page_ok (with_doc q (put (dp_doc q) id e'), w).
Proof.
  intros [Hok Htab [Hb Hm] Hw] He E1 E2 E3 E4 E5 Htd Hbox. cbn [fst snd] in *. assert (Hc : chosen (put (dp_doc q) id e') = chosen (dp_doc q)) by (by eapply chosen_put).
  split; cbn [fst snd]; [done|done| |].
  - split; [by eapply base_put|]. intros p. cbn [with_doc dp_doc dp_providers]. rewrite Hc. intros Hp. eapply put_field_ok; [exact He|done..|by apply Hm].
  - eapply (window_keep q); [done|done|exact Hc| |exact Hw]. intros l Hl. cbn [with_doc dp_doc]. simpl.
    destruct (decide (js "ddns_provider" = id)) as [<-|Hne]; [rewrite lookup_insert_eq; exists e'; split; [done|]; congruence|rewrite lookup_insert_ne by done; by exists l].
Qed.

Lemma optional_ok q w p v d : page_ok (q, w) → find_provider (dp_providers q) (chosen (dp_doc q)) = Some p → v ∈ pr_optional_variables p → is_boolean p v = false →
  click_optional (dp_doc q) (v ++ js "_enabled") = Ret d → page_ok (with_doc q d, w).
Proof.
  intros [Hok Htab [Hb Hm] Hw] Hp Hv Hbo H. cbn [fst snd] in *. apply find_provider_Some in Hp as Hin. pose proof (fb_providers _ Hb p (proj1 Hin)) as Hpo.
  destruct (click_optional_ok p (dp_doc q) v d Hpo Hv Hbo (Hm p Hp) H) as [Hf K]. destruct (keeps_base p q d Hpo K Hb) as (Hb' & Hc & Hl).
  split; cbn [fst snd]; [done|done| |].
  - split; [done|]. intros p'. cbn [with_doc dp_doc dp_providers]. rewrite Hc, Hp. by intros [= <-].
  - eapply (window_keep q); [done|done|exact Hc| |exact Hw]. intros e He. cbn [with_doc dp_doc]. rewrite Hl. by exists e.
Qed.

Lemma from_ok q w n d : page_ok (q, w) → setSelectedValue (dp_doc q) (js "ip_from") n = Ret d → page_ok (with_doc q d, w).
Proof.
  intros [Hok Htab [Hb Hm] Hw] H. cbn [fst snd] in *. pose proof H as H'. apply update_Ret in H' as (e & He & Ed).
  assert (Hl : Dom.elements d !! js "ddns_provider" = Dom.elements (dp_doc q) !! js "ddns_provider") by (rewrite Ed; simpl; by rewrite lookup_insert_ne by by_eval).
  split; cbn [fst snd]; [done|done| |].
  - split; [rewrite Ed; eapply base_put; [exact He|apply select_first_options|done]|]. intros p. cbn [with_doc dp_doc dp_providers]. rewrite (chosen_lookup (dp_doc q)) by done.
    intros Hp. apply find_provider_Some in Hp as Hin. pose proof (fb_providers _ Hb p (proj1 Hin)) as Hpo.
    apply (update_static p q (dp_doc q) (js "ip_from") _ d) with (6 := H); [by_eval|by_eval|done| |by apply Hm]. by eapply (base_ext q).
  - eapply (window_keep q); [done|done|by apply chosen_lookup| |exact Hw]. intros x Hx. cbn [with_doc dp_doc]. rewrite Hl. by exists x.
Qed.

Lemma choose_ok q w e n d r q' : page_ok (q, w) → Dom.elements (dp_doc q) !! js "ddns_provider" = Some e → e_disabled e = false →
  setSelectedValue (dp_doc q) (js "ddns_provider") n = Ret d → setProvider UI DyDNS extScripts (with_doc q d) = Ret (r, q') → page_ok (q', w).
Proof.
  intros [Hok Htab [Hb Hm] Hw] He Hd H1 H2. cbn [fst snd] in *. apply update_Ret in H1 as (e0 & He0 & ->). rewrite He in He0. injection He0 as <-.
  destruct (setProvider_ok _ _ _ (base_select q _ e He Hb) H2) as (Hf & _ & _ & d1 & l & ->). split; cbn [fst snd]; [done|done|done|].
  destruct w as [| |row s nn dom]; [done..|]. destruct Hw as (_ & _ & _ & _ & _ & (e1 & He1 & Hd1) & _). congruence.
Qed.

Lemma open_add_ok q q' : page_ok (q, Closed) → addDDNSModal UI DyDNS extScripts q = Ret q' → page_ok (q', Adding).
Proof.
  intros [Hok Htab [Hb Hm] _] H. cbn [fst snd] in *. unfold addDDNSModal in H. binds H. destruct a as [r q1]. injection H as <-. cbn [snd].
  destruct (setProvider_ok q r q1 Hb E) as (Hf & _ & _ & d & l & ->). split; cbn [fst snd]; [done|done| |done]. eapply form_ext; [..|exact Hf]; done.
Qed.

Lemma chosen_found d e n : Dom.elements d !! js "ddns_provider" = Some (select_first (fun o => o_value o =s n) e) → (∃ o, o ∈ e_options e ∧ o_value o = n) → chosen d = Some n.
Proof.
  intros Hd (o & Ho & Hv). unfold chosen. rewrite Hd. cbn [mbind option_bind]. unfold select_first. destruct (find_option _ _ 0) as [i|] eqn:Ef.
  - destruct (find_option_Some _ _ _ _ Ef) as (o' & Hi & Hl & Hp%str_eqb_eq & _). rewrite Z.sub_0_r in Hl.
    assert (E : selected_option (set_selectedIndex i e) = Some o') by (unfold selected_option; cbn [e_selectedIndex e_options set_selectedIndex set_options]; by rewrite (proj2 (Z.leb_le 0 i) Hi)).
    rewrite E. cbn [e_selectedIndex set_selectedIndex set_options]. rewrite (proj2 (Z.leb_le 0 i) Hi). cbn. by rewrite Hp.
  - apply find_option_None in Ef. rewrite Forall_forall in Ef. apply Ef, str_eqb_neq in Ho. done.
Qed.

Lemma open_edit_ok q row q' s n dom : page_ok (q, Closed) → editDDNSModal UI DyDNS extScripts q row = Ret (q', (s, n, dom)) →
  find_provider (dp_providers q) (Some n) ≠ None → page_ok (q', Editing row s n dom).
Proof.
  intros [Hok Htab [Hb Hm] _] H Hknown. cbn [fst snd] in *. unfold editDDNSModal in H. destruct (dp_table q) as [t|] eqn:Et; [|done]. cbn [exn_of_option exn_bind] in H. binds H.
  destruct (service_row_at _ t row a Htab E) as (i & D & ids & x1 & x2 & x3 & w & x5 & x6 & _ & _ & _ & _ & _ & _ & Hn & Hiff & Hids & _ & _ & Hcw).
  change check_column with 3%nat in E0. rewrite Hcw in E0. injection E0 as <-. injection H as <- <- <- <-. rename a1 into q1.
  destruct (setDocument_ok _ _ _ _ _ Hb E1) as ([Hb1 Hm1] & (d & l & ->) & e & He & He1). cbn [with_fields with_doc dp_doc] in *.
  set (e1 := select_first _ e) in *. set (n := gets (dp_uci q) pkg (w_id w) (js "service_provider")) in *.
  assert (Hin : w_id w ∈ ids) by (by eapply list_elem_of_lookup_2). rewrite Forall_forall in Hn.
  assert (Hopt : ∃ o, o ∈ e_options e ∧ o_value o = n).
  { destruct (find_provider (dp_providers q) (Some n)) as [p|] eqn:Ep; [|done]. apply find_provider_Some in Ep as [Hp [= <-]].
    destruct (fb_list _ Hb) as (e0 & He0 & Ho). rewrite He in He0. injection He0 as <-. by apply Ho. }
  assert (Hc : chosen d = Some n) by (by apply (chosen_found d e)).
  unfold modalPrepare. cbn [fold_left me_id]. unfold getElementById. rewrite He1. set (e2 := fill_element _ e1).
  assert (Hc2 : chosen (put d (js "ddns_provider") e2) = Some n) by (rewrite <-Hc; by apply (chosen_put d _ e1)).
  split; cbn [fst snd]; [done|by rewrite <-Et in Htab| |].
  - split; [eapply (base_put (with_fields (with_doc q d) l)); [exact He1|done|done]|]. intros p. cbn [with_doc with_fields dp_doc dp_providers]. rewrite Hc2. intros Hp.
    apply find_provider_Some in Hp as Hpin. pose proof (fb_providers _ Hb p (proj1 Hpin)) as Hpo. pose proof (po_static _ Hpo) as Hst. rewrite Forall_forall in Hst.
    destruct (Hm1 p) as [F1 F2]; [cbn [with_doc with_fields dp_doc dp_providers]; by rewrite Hc|]. split.
    + apply (put_there p d _ e1); [done..|]. intros Hx. destruct (Hst (js "ddns_provider")); [by_eval|]. apply in_fields, input_is. left.
      unfold text_variables in Hx. rewrite list_elem_of_In, filter_In, <-list_elem_of_In in Hx. apply Hx.
    + apply put_obeyed; [by_eval|by_eval|done].
  - split_and!; [by apply Hn|by apply Hiff; [apply Hn|]|done|done|exact Hc2| |].
    + exists e2. split; [apply put_lookup|done].
    + exists t, a, w. by split_and!.
Qed.

Lemma ddns_step_ok qw qw' : ddns_step qw qw' → page_ok qw → page_ok qw'.
Proof.
  intros Hstep H. destruct Hstep.
  - by eapply open_add_ok.
  - by eapply open_edit_ok.
  - by destruct H.
  - pose proof (text_not_select e ltac:(assumption)) as Hs. eapply put_ok; [done|done|..]; unfold set_value; rewrite ?Hs; try done. by left.
  - eapply put_ok; [done|done|..]; try done; [by right|]. intros ->. by destruct (H1 td).
  - by eapply optional_ok.
  - by eapply choose_ok.
  - by eapply from_ok.
  - by eapply service_add_ok.
  - by eapply service_edit_ok.
  - by eapply click_ok.
  - by eapply remove_ok.
Qed.

(** C12: on the page of dynamic DNS, once its services differ in domain or address family and
    are listed: whatever the user does (opening and closing the windows, choosing a provider,
    typing, ticking boxes, adding, editing, switching and removing services), as long as no
    service is edited whose provider is missing from the file of providers, no two services of
    the edited settings have the same domain and the same address family, the family stored
    with a service is the one of its provider, and the table has exactly one row for each
    service, which shows the service's domain. *)
Theorem services_stay_apart qw qw' : page_ok qw → rtc ddns_step qw qw' →
  services_ok (dp_uci qw'.1) ∧ listed_services (dp_uci qw'.1) (dp_table qw'.1).
Proof. intros H0 Hs. assert (H : page_ok qw') by (induction Hs as [|? ? ? Hst _ IH]; [done|]; by eapply IH, ddns_step_ok). split; apply H. Qed.

End page.

(** ** A page with two services *)
Definition sample_provider (n : string) : provider := mkProvider (js n) (Some [js "domain"]) (Some [js "DyDNS.DoNm"]) [] [] [] [].
Definition sample_services : UCIContainer :=
  let service u s n := set1 (set1 (set u pkg (js s) [] (UStr (js "service")) false) (js s) "service_provider" (js n)) (js s) "domain" (js "a.org") in
  set1 (service (service new "ddns_1" "dyn.org") "ddns_2" "dyn.org_v6") (js "ddns_2") "ipv6" (js "1").

Definition provider_list : element :=
  mkEl (js "select-one") [] false false false [mkOpt (js "dyn.org") (js "dyn.org"); mkOpt (js "dyn.org (IPv6)") (js "dyn.org_v6")] 0 [] [] [] None.
Definition sample_ddns_doc : document :=
  mkDoc (list_to_map [(js "ddns_provider", provider_list); (js "ddns_no_script", label_el []); (js "ip_from", select_el [js "internet"]);
    (js "ddns_check", input_el (js "15")); (js "ddns_force", input_el (js "3")); (js "domain_label", label_el (js "Domain Name:")); (js "domain", text_input)]) [].
Definition sample_pack : gmap jstr jstr := {[js "DoNm" := js "Domain Name"]}.

Definition sample_row (s : string) : list datum := service_row (λ s, s) sample_pack (js "a.org") (js "dyn.org") (js "never") true true (js s).
Definition sample_ddns : ddns_page :=
  mkDdns sample_ddns_doc [js "domain_label"; js "domain"] (Some (createTable (js "Remove") [] [sample_row "ddns_1"; sample_row "ddns_2"] (js "ddns_table") true false))
    sample_services sample_services [sample_provider "dyn.org"; sample_provider "dyn.org_v6"] [] [] false ∅.

(** The first service removed, then the window for a new one opened. *)
Definition sample_fewer : ddns_page := match removeServiceProvider sample_ddns 0 with Ret q => q | Raise _ => sample_ddns end.
Definition sample_opened : ddns_page := match addDDNSModal (λ s, s) sample_pack [] sample_fewer with Ret q => q | Raise _ => sample_fewer end.

Lemma sample_provider_ok n : n = "dyn.org"%string ∨ n = "dyn.org_v6"%string → provider_ok (sample_provider n).
Proof. by intros [->| ->]; split; by_eval. Qed.

Lemma sample_service s : name s → service sample_services s ↔ s ∈ [js "ddns_1"; js "ddns_2"].
Proof.
  assert (Hwf : wf sample_services) by (unfold sample_services; repeat apply set_wf; apply new_wf).
  intros Hs. split.
  - intros Hsv. unfold service, gets, get in Hsv. rewrite next_key_section in Hsv.
    destruct (values sample_services !! section_key pkg s) as [v|] eqn:E; [|done]. assert (Hk : section_key pkg s ∈ keys sample_services) by (apply (wf_dom _ Hwf); by eexists).
    change (keys sample_services) with (section_key pkg (js "ddns_1") :: option_key pkg (js "ddns_1") (js "service_provider") :: option_key pkg (js "ddns_1") (js "domain") ::
      section_key pkg (js "ddns_2") :: option_key pkg (js "ddns_2") (js "service_provider") :: option_key pkg (js "ddns_2") (js "domain") :: [option_key pkg (js "ddns_2") (js "ipv6")]) in Hk.
    rewrite !elem_of_cons in Hk. assert (Hno : ∀ s' o, name s' → name o → section_key pkg s ≠ option_key pkg s' o).
    { intros s' o Hs' Ho Ek. by apply (section_option_key pkg s pkg s' o) in Ek; auto using name_ddns. }
    assert (Hyes : ∀ s', name s' → section_key pkg s = section_key pkg s' → s = s') by (intros s' Hs' Ek; by apply (section_key_inj pkg s pkg s') in Ek as [_ ->]; auto using name_ddns).
    destruct Hk as [Ek|[Ek|[Ek|[Ek|[Ek|[Ek|[Ek|Ek]]]]]]]; try (by apply elem_of_nil in Ek); try (apply Hno in Ek; [done|by_eval|by_eval]);
      apply Hyes in Ek as ->; (by_eval || set_solver).
  - rewrite !elem_of_cons. intros [->|[->|H]]; [reflexivity|reflexivity|by apply elem_of_nil in H].
Qed.

Lemma sample_services_ok : services_ok sample_services.
Proof.
  assert (Hwf : wf sample_services) by (unfold sample_services; repeat apply set_wf; apply new_wf).
  pose proof (sectioned_shaped _ (check_sectioned _ Hwf eq_refl)) as Hsh.
  assert (Hcase : ∀ s, name s → service sample_services s → s = js "ddns_1" ∨ s = js "ddns_2").
  { intros s Hs Hsv. apply sample_service in Hsv; [|done]. rewrite !elem_of_cons in Hsv. destruct Hsv as [?|[?|H]]; auto. by apply elem_of_nil in H. }
  split; [done|done|apply one_package_unambiguous; by_eval| | |].
  - intros s Hs Hsv. destruct (Hcase s Hs Hsv) as [->| ->]; by_eval.
  - intros s Hs Hsv. destruct (Hcase s Hs Hsv) as [->| ->]; vm_compute; reflexivity.
  - intros s s' Hs Hs' Hsv Hsv' _ Hf. destruct (Hcase s Hs Hsv) as [->| ->], (Hcase s' Hs' Hsv') as [->| ->]; try done; vm_compute in Hf; discriminate Hf.
Qed.

Lemma sample_page_ok : page_ok (sample_ddns, Closed).
Proof.
  split; cbn [fst snd]; [exact sample_services_ok| | |done].
  - cbn [sample_ddns dp_table]. match goal with |- listed_services _ (Some (createTable ?l ?c ?rows ?i true false)) => destruct (createTable_data true false l c rows i) as [Hw HD] end.
    { by repeat constructor. }
    eexists _, _, [js "ddns_1"; js "ddns_2"]. split_and!; [done|exact Hw|exact HD| |by_eval|by_eval|].
    + repeat constructor; eexists _, _, _, _, _, _; (split_and!; [reflexivity|reflexivity|vm_compute; reflexivity]).
    + intros s Hs. by rewrite sample_service.
  - split; [split; cbn [sample_ddns dp_doc dp_fields dp_providers]|].
    + by_eval.
    + intros id [->| ->]; [intros _; by_eval|]. intros H. destruct H. vm_compute. reflexivity.
    + apply Forall_forall. by_eval.
    + exists provider_list. split; [vm_compute; reflexivity|]. intros p. rewrite !elem_of_cons.
      intros [->|[->|H]]; [exists (mkOpt (js "dyn.org") (js "dyn.org"))|exists (mkOpt (js "dyn.org (IPv6)") (js "dyn.org_v6"))|by apply elem_of_nil in H]; (split; [by_eval|reflexivity]).
    + intros p. rewrite !elem_of_cons. intros [->|[->|H]]; [apply sample_provider_ok; auto|apply sample_provider_ok; auto|by apply elem_of_nil in H].
    + intros p Hp. replace p with (sample_provider "dyn.org") by (vm_compute in Hp; by injection Hp as <-). split; [split|].
      * intros v [->|H]%elem_of_cons; [|by apply elem_of_nil in H]. exists text_input. split_and!; [vm_compute; reflexivity|done|by_eval].
      * intros H. destruct H. by_eval.
      * intros _. vm_compute. reflexivity.
      * intros H. by apply elem_of_nil in H.
Qed.

Lemma services_stay_apart_witness :
  getAllSections (dp_uci sample_opened) pkg = Ret [js "ddns_2"] ∧
  services_ok (dp_uci (sample_opened, Adding).1) ∧ listed_services (dp_uci (sample_opened, Adding).1) (dp_table (sample_opened, Adding).1).
Proof.
  split; [vm_compute; reflexivity|]. apply (services_stay_apart (λ s, s) sample_pack [] (sample_ddns, Closed) (sample_opened, Adding)); [exact sample_page_ok|].
  eapply rtc_l; [apply (st_remove _ _ _ sample_ddns 0 sample_fewer); vm_compute; reflexivity|]. apply rtc_once. apply st_open_add. vm_compute. reflexivity.
Defined.

(** ** Where the check for duplicates is passed *)

(** A service whose provider is no longer in the file, and another one. *)
Definition orphan_services : UCIContainer :=
  let service u s n := set1 (set1 (set u pkg (js s) [] (UStr (js "service")) false) (js s) "service_provider" (js n)) (js s) "domain" (js "a.org") in
  set1 (service (service new "ddns_1" "gone.org") "ddns_2" "dyn.org_v6") (js "ddns_2") "ipv6" (js "1").
Definition orphan_ddns : ddns_page :=
  mkDdns (put sample_ddns_doc (js "ddns_provider") (set_selectedIndex 1 provider_list)) [js "domain_label"; js "domain"] (dp_table sample_ddns)
    orphan_services orphan_services [sample_provider "dyn.org"; sample_provider "dyn.org_v6"] [] [] false ∅.

(** The window of a service whose provider is not in the file keeps the provider that was
    chosen before; the service is stored with it, and because its domain is unchanged the
    error of the duplicate is dropped: two services for the same domain and family. *)
Theorem unknown_provider_edit_clash :
  (let! q := addDDNSModal (λ s, s) sample_pack [] orphan_ddns in
   let! r := editDDNSModal (λ s, s) sample_pack [] q 0 in
   let '(q, (s, n, dom)) := r in
   let! q := editServiceTableRow (λ s, s) sample_pack q 0 s n dom in
   let u := dp_uci q in
   Ret (map (λ s, (domain_of u s, ipv6_of u s)) [js "ddns_1"; js "ddns_2"])) =
  Ret [(js "a.org", js "1"); (js "a.org", js "1")].
Proof. vm_compute. reflexivity. Qed.
