(* ===== verification/DdnsSave.v ===== *)
(** * Saving the dynamic DNS services

    The commands of [Ddns.saveChanges] remove all sections of the package, commit,
    and build the new settings from what is left.  Run on a router that has the
    settings the page was loaded with, they leave the settings of the page. *)
From S2P Require Import Prelude JsNum JsString JsRegex Uci UciFacts Backend UciScript Sections Dom Ddns.
Import Uci Sections Ddns.
Open Scope Z_scope.

Section saving.

Lemma pkg_word : word pkg.
Proof. by_eval. Qed.

Lemma section_words u ss : shaped u → Forall key_word (keys u) → pkg_unambiguous u pkg → getAllSections u pkg = Ret ss → Forall word ss.
Proof.
  intros Hsh Hkw Ha. rewrite getAllSections_hits by (done || apply pkg_word). intros [= <-].
  apply Forall_map, Forall_forall. intros k Hk. apply query_hits_shape in Hk as (s & Hs & -> & Hk); [|by auto using pkg_word..].
  rewrite sec_name_key by eauto using pkg_word with uci. rewrite Forall_forall in Hkw. apply Hkw in Hk.
  inversion Hk as [p' s' Hp' Hs' E|p' s' o' Hp' Hs' Ho' E].
  - apply section_key_inj in E as [_ <-]; eauto using pkg_word with uci.
  - symmetry in E. apply section_option_key in E; eauto using pkg_word with uci. done.
Qed.

Lemma remove_all u ss : wf u → shaped u → Forall word ss →
  exn_fold (λ u s, removeSection u pkg s) ss u = Ret (without_sections pkg u ss).
Proof.
  intros Hu Hsh Hss. revert u Hu Hsh. induction Hss as [|s ss Hs _ IH]; intros u Hu Hsh; [done|].
  cbn [exn_fold]. rewrite removeSection_without by auto using pkg_word. cbn [exn_bind]. by rewrite IH by auto with uci.
Qed.

Lemma delete_commands ss : map delete_command ss = map (λ s, cmd_del (section_key pkg s)) ss.
Proof. by apply map_ext. Qed.

End saving.

(** C13: [saveChanges] of the dynamic DNS page brings the router to the settings of the
    page.  For any shell and any configuration store that keep their contracts, and
    a router with the settings the page was loaded with, the text that is sent is a
    script followed by the two commands of the service: the script removes every
    section of the package, commits and writes the new settings, and after it every
    key of the router has the value the page shows: the services that were removed
    are gone, those that were added or changed are there. *)
Theorem ddns_save_refines `{PosixShell, UciBackend} (q : ddns_page) (st : bstate) :
  wf (dp_orig q) → sectioned (dp_orig q) → pkg_unambiguous (dp_orig q) pkg →
  wf (dp_uci q) → sectioned (dp_uci q) → (∀ k, view st k = config (dp_orig q) k) →
  ∃ script, saveChanges q = Ret (script ++ newline ++ join newline testCommands) ∧
    ∀ k, view (run_script script st) k = config (dp_uci q) k.
Proof.
  intros Ho Hso Ha Hu Hsu Hst. pose proof (sectioned_shaped _ Hso) as Hsh.
  destruct (all_sections pkg (dp_orig q) pkg_word Ho Hsh Ha) as (ss & Ess & _).
  assert (Hw : Forall word ss) by (by eapply section_words; eauto using sec_words).
  unfold saveChanges. rewrite clone_is_copy by done. cbn [exn_bind]. rewrite Ess. cbn [exn_bind].
  rewrite remove_all by done. cbn [exn_bind]. rewrite delete_commands.
  eexists (join Uci.newline (map (λ s, cmd_del (section_key pkg s)) ss ++ [cmd_commit] ++ script_lines (dp_uci q) (without_sections pkg (dp_orig q) ss))).
  split; [|intros k; by apply removal_and_script; auto using pkg_word].
  rewrite (app_assoc _ [cmd_commit]). set (dels := map _ ss ++ [cmd_commit]).
  rewrite (join_app _ dels) by (apply script_lines_ne || by destruct ss). by rewrite <-!app_assoc.
Qed.

(** ** An example: one service is removed, one is changed, one is new. *)
Definition service (id domain : string) : section_rec :=
  (js id, js "service", [(js "service_provider", js "dyndns.com"); (js "domain", js domain); (js "enabled", js "1")]).
Definition settings (l : list section_rec) : UCIContainer := write_sections pkg new l.
Definition sample_page : ddns_page :=
  mkDdns (mkDoc ∅ []) [] None
    (settings [service "ddns_2" "changed.example.org"; service "ddns_3" "new.example.org"])
    (settings [service "ddns_1" "old.example.org"; service "ddns_2" "home.example.org"]) [] [] [] false ∅.

Lemma ddns_save_refines_witness : ∃ script,
  saveChanges sample_page = Ret (script ++ newline ++ join newline testCommands) ∧
  ∀ k, @view SimpleStore.store (@run_script SimpleShell.shell SimpleStore.store script (values (dp_orig sample_page))) k =
       config (dp_uci sample_page) k.
Proof.
  assert (Ho : wf (dp_orig sample_page)) by (apply write_sections_wf, new_wf).
  assert (Hu : wf (dp_uci sample_page)) by (apply write_sections_wf, new_wf).
  apply (@ddns_save_refines SimpleShell.shell SimpleStore.store sample_page (values (dp_orig sample_page)) Ho
    (check_sectioned _ Ho eq_refl)).
  - apply one_package_unambiguous; by_eval.
  - exact Hu.
  - exact (check_sectioned _ Hu eq_refl).
  - apply simple_store_config. by_eval.
Defined.

(** The value of a removed and of a new service after the script. *)
Example removed_and_new :
  config (dp_uci sample_page) (js "ddns_gargoyle.ddns_1") = UStr [] ∧
  config (dp_uci sample_page) (js "ddns_gargoyle.ddns_3.domain") = UStr (js "new.example.org").
Proof. vm_compute. done. Qed.
