(* ===== verification/Routing.v ===== *)
(** * The routing page (routing.js)

    The page shows the active routes, and two tables of static routes that can
    be edited and saved.  The state holds the document, the saved configuration
    and the table in each container ([None] is an empty container).  The requests
    and the modal windows' own elements are not represented. *)
From S2P Require Import Prelude JsNum JsString JsRegex Uci UciFacts Backend UciScript Sections Ip4 Validate Ip6 Table TableFacts TableEdit Dom Modal Ports.
Import Uci Validate Ip6 Table TableEdit Dom Modal Sections.
Import Ip4(nth_str).
Open Scope Z_scope.

Record routing_page := mkRouting {
  rt_doc : document;
  rt_uci : UCIContainer;              (** [uciOriginal] *)
  rt_active : option table;
  rt_active6 : option table;
  rt_static : option table;
  rt_static6 : option table
}.

Inductive ip_family := RouteIPv4 | RouteIPv6.

Module Routing.

Definition with_doc (p : routing_page) (d : document) : routing_page :=
  mkRouting d (rt_uci p) (rt_active p) (rt_active6 p) (rt_static p) (rt_static6 p).
Definition with_static (p : routing_page) (t : option table) : routing_page :=
  mkRouting (rt_doc p) (rt_uci p) (rt_active p) (rt_active6 p) t (rt_static6 p).
Definition with_static6 (p : routing_page) (t : option table) : routing_page :=
  mkRouting (rt_doc p) (rt_uci p) (rt_active p) (rt_active6 p) (rt_static p) t.

(** ** Destinations *)

(** [while(bitCount < 8)]; each turn adds one to the count. *)
Fixpoint clear_bits (fuel : nat) (bitCount nextVal : Z) : Z :=
  match fuel with
  | O => nextVal
  | S f => if bitCount <? 8 then clear_bits f (bitCount + 1) (nextVal - 2 ^ (7 - bitCount)) else nextVal
  end.

(** One turn of the loop on the parts: the part, and the bits left.  A count
    that is not a number clears nothing. *)
Definition mask_part (bits : num) : Z * num :=
  let nextBits := if Num.gtb bits (Int 8) then Int 8 else bits in
  let nextVal := match nextBits with Dec b _ => clear_bits (Z.to_nat (8 - b)) b 255 | _ => 255 end in
  (nextVal, Num.sub bits nextBits).

Fixpoint mask_parts (n : nat) (bits : num) : list jstr :=
  match n with
  | O => []
  | S n' => let '(v, bits) := mask_part bits in str_of_Z v :: mask_parts n' bits
  end.

(** [parseInt] of an element; that of a missing one is NaN, as of the empty text. *)
Definition int_at (l : list jstr) (i : nat) : num := parseInt (nth_str l i).

(** [while(byteIndex > 0)], from 3 down *)
Fixpoint mask_bytes (byteIndex : nat) (splitDest splitMask : list jstr) : list jstr :=
  match byteIndex with
  | O => splitDest
  | S b =>
      mask_bytes b
        (array_set [] splitDest byteIndex
          (str_of_Z (Num.band (Num.toInt32 (int_at splitDest byteIndex)) (Num.toInt32 (int_at splitMask byteIndex)))))
        splitMask
  end.

Definition any_route (dest : jstr) : bool :=
  (toLowerCase dest =s js "default") || (dest =s js "0.0.0.0") || (dest =s js "0.0.0.0/0")
  || (dest =s js "0.0.0.0/0.0.0.0").

Definition parseDest (origDest : jstr) : jstr * jstr :=
  let dest := if any_route origDest then js "0.0.0.0/0.0.0.0" else origDest in
  if test Ip4.re_slash dest then
    let splitDest := split_re Ip4.re_slash dest in
    let dest := nth_str splitDest 0 in
    let mask := nth_str splitDest 1 in
    let mask := if negb (test Ip4.re_dot mask) then join (js ".") (mask_parts 4 (parseInt mask)) else mask in
    let splitMask := split_re Ip4.re_dot mask in
    (join (js ".") (mask_bytes 3 (split_re Ip4.re_dot dest) splitMask), join (js ".") splitMask)
  else (dest, []).

Definition parseDest6 (origDest : jstr) : jstr * jstr :=
  let dest := ip6_canonical origDest in
  let dest := if (toLowerCase origDest =s js "default") || (dest =s js "::") || (dest =s js "::/0")
              then js "::/0" else dest in
  if test Ip4.re_slash dest then
    let splitDest := split_re Ip4.re_slash dest in (nth_str splitDest 0, nth_str splitDest 1)
  else (dest, js "128").

(** [destData[1] == "" ? destData[0] : destData[0] + "/" + destData[1]] *)
Definition dest_text (destData : jstr * jstr) : jstr :=
  if snd destData =s [] then fst destData else fst destData ++ js "/" ++ snd destData.

(** ** Validation *)
Definition validateGatewayIp (ip : jstr) : Z :=
  if (validateIP ip =? 0) || (ip =s js "0.0.0.0") || (ip =s js "*") then 0 else 1.
Definition validateRouteIp (ip : jstr) : Z :=
  if (validateIpRange ip =? 0) || (ip =s js "0.0.0.0") || (ip =s js "0.0.0.0/0.0.0.0") || (ip =s js "0.0.0.0/0")
     || (ip =s js "default") then 0 else 1.
Definition validateGatewayIp6 (ip : jstr) : Z :=
  if (validateIP6 ip =? 0) || (ip =s js "::") || (ip =s js "*") then 0 else 1.
Definition validateRouteIp6 (ip : jstr) : Z :=
  if (validateIP6Range ip =? 0) || (ip =s js "::") || (ip =s js "::/0") || (ip =s js "default") then 0 else 1.

Definition proofreadGatewayIp input := proofreadText input validateGatewayIp 0.
Definition proofreadRouteIp input := proofreadText input validateRouteIp 0.
Definition proofreadGatewayIp6 input := proofreadText input validateGatewayIp6 0.
Definition proofreadRouteIp6 input := proofreadText input validateRouteIp6 0.

Section ui.
(** The strings of the language packs [UI] and [rtgS]. *)
Variables UI rtgS : jstr → jstr.

Definition route_fields (family : ip_family) : list field :=
  match family with
  | RouteIPv4 =>
      [mkField (js "add_dest") (js "add_dest_label") validateRouteIp 0 (Some (js "add_dest"));
       mkField (js "add_gateway") (js "add_gateway_label") validateGatewayIp 0 (Some (js "add_gateway"))]
  | RouteIPv6 =>
      [mkField (js "add_dest6") (js "add_dest6_label") validateRouteIp6 0 (Some (js "add_dest6"));
       mkField (js "add_gateway6") (js "add_gateway6_label") validateGatewayIp6 0 (Some (js "add_gateway6"))]
  end.

Definition proofreadStaticRoute (family : ip_family) (d : document) : exn (list jstr * document) :=
  proofreadFields UI d (route_fields family).

(** ** Rows *)
Definition createEditButton : widget := mkWidget (js "button") (UI (js "Edit")) false (js "btn btn-default btn-edit") false.

(** A row with an [undefined] cell cannot be added. *)
Definition route_row (dest : jstr) (iface : option jstr) (gateway : jstr) : exn (list datum) :=
  let! iface := exn_of_option TypeError iface in
  Ret [DStr dest; DStr iface; DStr gateway; DObj createEditButton].

Definition addStaticRoute (p : routing_page) : exn routing_page :=
  let! r := proofreadStaticRoute RouteIPv4 (rt_doc p) in
  let d := snd r in
  if negb (length (fst r) =? 0)%nat then
    Ret (with_doc p (alert d (join newline (fst r) ++ newline ++ newline ++ rtgS (js "AErr"))))
  else
    let! dest_el := el d (js "add_dest") in
    let dest := dest_text (parseDest (value dest_el)) in
    let! sel := getSelectedValue UI d (js "add_iface") in
    let d := snd sel in
    let! gateway_el := el d (js "add_gateway") in
    let gateway := if value gateway_el =s js "0.0.0.0" then js "*" else value gateway_el in
    let dest := if dest =s js "0.0.0.0/0.0.0.0" then js "default" else dest in
    let! row := route_row dest (fst sel) gateway in
    let! t := exn_of_option TypeError (rt_static p) in
    Ret (with_static (with_doc p d) (Some (addTableRow (UI (js "Remove")) t row true false))).

Definition addStatic6Route (p : routing_page) : exn routing_page :=
  let! r := proofreadStaticRoute RouteIPv6 (rt_doc p) in
  let d := snd r in
  if negb (length (fst r) =? 0)%nat then
    Ret (with_doc p (alert d (join newline (fst r) ++ newline ++ newline ++ rtgS (js "AErr"))))
  else
    let! dest_el := el d (js "add_dest6") in
    let dest := dest_text (parseDest6 (value dest_el)) in
    let! sel := getSelectedValue UI d (js "add_iface6") in
    let d := snd sel in
    let! gateway_el := el d (js "add_gateway6") in
    let origgateway := value gateway_el in
    let gateway := if origgateway =s js "*" then js "*" else ip6_canonical origgateway in
    let gateway := if gateway =s js "::" then js "*" else gateway in
    let dest := if dest =s js "::/0" then js "default" else dest in
    let! row := route_row dest (fst sel) gateway in
    let! t := exn_of_option TypeError (rt_static6 p) in
    Ret (with_static6 (with_doc p d) (Some (addTableRow (UI (js "Remove")) t row true false))).

(** The windows that edit a row: [editRow] is a row of the table, [id] its
    identity.  A cell without text leaves [undefined] in the field. *)
Definition cell_or_undefined (r : row) (col : nat) : exn jstr :=
  let! v := get_data r col in Ret (default (js "undefined") v).

Definition editStaticModal (p : routing_page) (editRow : row) : exn routing_page :=
  let! dest := cell_or_undefined editRow 0 in
  let dest := if dest =s js "default" then js "0.0.0.0/0.0.0.0" else dest in
  let! iface := cell_or_undefined editRow 1 in
  let! gateway := cell_or_undefined editRow 2 in
  let gateway := if gateway =s js "*" then js "0.0.0.0" else gateway in
  Ret (with_doc p (modalPrepare (rt_doc p)
    [m_value (js "add_dest") dest; m_value (js "add_iface") iface; m_value (js "add_gateway") gateway])).

Definition editStatic6Modal (p : routing_page) (editRow : row) : exn routing_page :=
  let! dest := cell_or_undefined editRow 0 in
  let dest := if dest =s js "default" then js "::/0" else dest in
  let! iface := cell_or_undefined editRow 1 in
  let! gateway := cell_or_undefined editRow 2 in
  let gateway := if gateway =s js "*" then js "::" else gateway in
  Ret (with_doc p (modalPrepare (rt_doc p)
    [m_value (js "add_dest") dest; m_value (js "add_iface") iface; m_value (js "add_gateway") gateway])).

Definition addStaticModal (p : routing_page) : routing_page :=
  with_doc p (modalPrepare (rt_doc p)
    [m_value (js "add_dest") []; m_value (js "add_iface") (js "wan"); m_value (js "add_gateway") []]).

Definition addStatic6Modal (p : routing_page) : routing_page :=
  with_doc p (modalPrepare (rt_doc p)
    [m_value (js "add_dest6") []; m_value (js "add_iface6") (js "wan"); m_value (js "add_gateway6") []]).

(** [editStaticRoute(editRow)], with the row by its identity. *)
Definition editStaticRoute (p : routing_page) (editRow : nat) : exn routing_page :=
  let! r := proofreadStaticRoute RouteIPv4 (rt_doc p) in
  let d := snd r in
  if negb (length (fst r) =? 0)%nat then
    Ret (with_doc p (alert d (join newline (fst r) ++ newline ++ rtgS (js "SRErr"))))
  else
    let! gateway_el := el d (js "add_gateway") in
    let newGw := if value gateway_el =s js "0.0.0.0" then js "*" else value gateway_el in
    let! dest_el := el d (js "add_dest") in
    let newDst := dest_text (parseDest (value dest_el)) in
    let newDst := if newDst =s js "0.0.0.0/0.0.0.0" then js "default" else newDst in
    let! sel := getSelectedValue UI d (js "add_iface") in
    let! t := edit_cells (rt_static p) editRow
                [(0%nat, newDst); (1%nat, default (js "undefined") (fst sel)); (2%nat, newGw)] in
    Ret (with_static (with_doc p (snd sel)) t).

Definition editStatic6Route (p : routing_page) (editRow : nat) : exn routing_page :=
  let! r := proofreadStaticRoute RouteIPv6 (rt_doc p) in
  let d := snd r in
  if negb (length (fst r) =? 0)%nat then
    Ret (with_doc p (alert d (join newline (fst r) ++ newline ++ rtgS (js "SRErr"))))
  else
    let! gateway_el := el d (js "add_gateway6") in
    let newGw := if value gateway_el =s js "::" then js "*" else value gateway_el in
    let! dest_el := el d (js "add_dest6") in
    let newDst := dest_text (parseDest6 (value dest_el)) in
    let newDst := if newDst =s js "::/0" then js "default" else newDst in
    let! sel := getSelectedValue UI d (js "add_iface6") in
    let! t := edit_cells (rt_static6 p) editRow
                [(0%nat, newDst); (1%nat, default (js "undefined") (fst sel)); (2%nat, newGw)] in
    Ret (with_static6 (with_doc p (snd sel)) t).

(** ** Loading *)

(** A value of the configuration in a cell: an array is neither a string nor a
    node. *)
Definition uval_datum (v : uval) : exn datum := match v with UStr s => Ret (DStr s) | UArr _ => Raise TypeError end.

Definition re_field_sep : re := Eval vm_compute in rx "[\t ]+".

(** The two assignments to [iface]. *)
Definition iface_text (wanIface lanIface rLine_i : jstr) : jstr :=
  let iface := if rLine_i =s wanIface then rLine_i ++ js " (WAN)" else rLine_i in
  if rLine_i =s lanIface then iface ++ js " (LAN)" else iface.

(** A line of [route]; [None] is a line that is not shown.  A line of fewer
    fields has [undefined] cells. *)
Definition active_row (wanIface lanIface str : jstr) : exn (option (list datum)) :=
  let rLine := split_re re_field_sep str in
  match rLine !! 7%nat with
  | None => Raise TypeError
  | Some dev =>
      let iface := iface_text wanIface lanIface dev in
      if iface =s [] then Ret None
      else
        let r0 := nth_str rLine 0 in
        let destination :=
          if (r0 =s js "default") || ((r0 =s js "0.0.0.0") && (nth_str rLine 2 =s js "0.0.0.0")) then js "default" else r0 in
        let gateway := if nth_str rLine 1 =s js "0.0.0.0" then js "*" else nth_str rLine 1 in
        let mask := if destination =s js "default" then [] else js "/" ++ nth_str rLine 2 in
        let mask := if mask =s js "/255.255.255.255" then [] else mask in
        Ret (Some [DStr (destination ++ mask); DStr iface; DStr gateway; DStr (nth_str rLine 4)])
  end.

Definition active_rows (wanIface lanIface : jstr) (routingData : list jstr) : exn (list (list datum)) :=
  let! rows := exn_map (active_row wanIface lanIface) (drop 2 routingData) in Ret (omap id rows).

(** The lines of the IPv6 table; only the first default route is shown. *)
Definition active_step6 (wanIface lanIface : jstr) (st : bool * list (list datum)) (str : jstr)
    : exn (bool * list (list datum)) :=
  let '(defaultRouteFound, data) := st in
  let rLine := split_re re_field_sep str in
  match rLine !! 6%nat with
  | None => Raise TypeError
  | Some dev =>
      let iface := iface_text wanIface lanIface dev in
      if negb (iface =s []) && negb (iface =s js "lo") then
        let gateway := if negb (nth_str rLine 1 =s js "::") then nth_str rLine 1 else js "*" in
        let destination := if nth_str rLine 0 =s js "::/0" then js "default" else nth_str rLine 0 in
        if negb defaultRouteFound || negb (destination =s js "default") then
          Ret (if destination =s js "default" then true else defaultRouteFound,
               data ++ [[DStr destination; DStr iface; DStr gateway; DStr (nth_str rLine 4)]])
        else Ret st
      else Ret st
  end.

Definition active_rows6 (wanIface lanIface : jstr) (routing6Data : list jstr) : exn (list (list datum)) :=
  let! r := exn_fold (active_step6 wanIface lanIface) (drop 2 routing6Data) (false, []) in Ret (snd r).

Definition static_row (u : UCIContainer) (section : jstr) : exn (list datum) :=
  let dest := get u (js "network") section (js "target") in
  let mask := Ports.gets u (js "network") section (js "netmask") in
  let iface := get u (js "network") section (js "interface") in
  let gateway := get u (js "network") section (js "gateway") in
  let gateway := if uval_str gateway =s js "0.0.0.0" then UStr (js "*") else gateway in
  let dest := if mask =s [] then dest else UStr (uval_str dest ++ js "/" ++ mask) in
  let dest := if (uval_str dest =s js "0.0.0.0") || (uval_str dest =s js "0.0.0.0/0.0.0.0")
              then UStr (js "default") else dest in
  let! dest := uval_datum dest in
  let! iface := uval_datum iface in
  let! gateway := uval_datum gateway in
  Ret [dest; iface; gateway; DObj createEditButton].

Definition static_row6 (u : UCIContainer) (section : jstr) : exn (list datum) :=
  let dest := get u (js "network") section (js "target") in
  let iface := get u (js "network") section (js "interface") in
  let gateway := get u (js "network") section (js "gateway") in
  let gateway := if uval_str gateway =s js "::" then UStr (js "*") else gateway in
  let dest := if (uval_str dest =s js "::") || (uval_str dest =s js "::/0") then UStr (js "default") else dest in
  let! dest := uval_datum dest in
  let! iface := uval_datum iface in
  let! gateway := uval_datum gateway in
  Ret [dest; iface; gateway; DObj createEditButton].

Definition static_rows (u : UCIContainer) : exn (list (list datum)) :=
  let! routeSections := getAllSectionsOfType u (js "network") (js "route") in
  exn_map (static_row u) routeSections.

Definition static_rows6 (u : UCIContainer) : exn (list (list datum)) :=
  let! routeSections := getAllSectionsOfType u (js "network") (js "route6") in
  exn_map (static_row6 u) routeSections.

Definition active_columns : list datum :=
  [DStr (rtgS (js "Dstn")); DStr (rtgS (js "ItfN")); DStr (rtgS (js "Gtwy")); DStr (rtgS (js "Mtrc"))].
Definition static_columns : list datum :=
  [DStr (rtgS (js "Dstn")); DStr (rtgS (js "Itfc")); DStr (rtgS (js "Gtwy")); DStr []].

Definition resetData (wanIface lanIface : jstr) (routingData routing6Data : list jstr) (p : routing_page)
    : exn routing_page :=
  let table_of columns data tableId rem := createTable (UI (js "Remove")) columns data tableId rem false in
  let! active := active_rows wanIface lanIface routingData in
  let! active6 := active_rows6 wanIface lanIface routing6Data in
  let! static := static_rows (rt_uci p) in
  let! static6 := static_rows6 (rt_uci p) in
  Ret (mkRouting (rt_doc p) (rt_uci p)
    (Some (table_of active_columns active (js "active_route_table") false))
    (Some (table_of active_columns active6 (js "active_route6_table") false))
    (Some (table_of static_columns static (js "static_route_table") true))
    (Some (table_of static_columns static6 (js "static_route6_table") true))).

End ui.

(** ** Saving *)

(** Row [routeIndex] of the first table. *)
Definition save_route (uci : UCIContainer) (ir : nat * list datum) : exn UCIContainer :=
  let '(routeIndex, row) := ir in
  let! row0 := datum_str row 0 in
  let '(dest, netmask) := parseDest row0 in
  let! iface := datum_str row 1 in
  let! row2 := datum_str row 2 in
  let gateway := if row2 =s js "*" then js "0.0.0.0" else row2 in
  let routeId := js "route" ++ str_of_Z (Z.of_nat routeIndex + 1) in
  let network := js "network" in
  let uci := set uci network routeId [] (UStr (js "route")) false in
  let uci := set uci network routeId (js "target") (UStr dest) false in
  let uci := set uci network routeId (js "interface") (UStr iface) false in
  let uci := set uci network routeId (js "gateway") (UStr gateway) false in
  Ret (if negb (netmask =s []) then set uci network routeId (js "netmask") (UStr netmask) false else uci).

Definition save_route6 (routeIdxOffset : nat) (uci : UCIContainer) (ir : nat * list datum) : exn UCIContainer :=
  let '(routeIndex, row) := ir in
  let! row0 := datum_str row 0 in
  let '(dest, netmask) := parseDest6 row0 in
  let! iface := datum_str row 1 in
  let! row2 := datum_str row 2 in
  let gateway := if row2 =s js "*" then js "::" else row2 in
  let routeId := js "route" ++ str_of_Z (Z.of_nat routeIndex + 1 + Z.of_nat routeIdxOffset) in
  let network := js "network" in
  let uci := set uci network routeId [] (UStr (js "route6")) false in
  let uci := set uci network routeId (js "target") (UStr (dest ++ js "/" ++ netmask)) false in
  let uci := set uci network routeId (js "interface") (UStr iface) false in
  Ret (set uci network routeId (js "gateway") (UStr gateway) false).

Definition indexed {A} (l : list A) : list (nat * A) := imap (fun i x => (i, x)) l.

(** The new settings, the old ones without their routes (the state of
    [uciOriginal] afterwards), and the commands sent to the router. *)
Definition saveChanges (p : routing_page) : exn (UCIContainer * UCIContainer * jstr) :=
  let! old := pop_sections (js "network") (js "route") (rt_uci p) in
  let! old6 := pop_sections (js "network") (js "route6") (fst old) in
  let uciOriginal := fst old6 in
  let removeCommands := snd old ++ snd old6 ++ [js "uci commit"] in
  let! uci := clone uciOriginal in
  let! staticRouteTable := exn_of_option TypeError (rt_static p) in
  let! staticRouteData := getTableDataArray staticRouteTable true false in
  let! uci := exn_fold save_route (indexed staticRouteData) uci in
  let! staticRoute6Table := exn_of_option TypeError (rt_static6 p) in
  let! staticRoute6Data := getTableDataArray staticRoute6Table true false in
  let! uci := exn_fold (save_route6 (length staticRouteData)) (indexed staticRoute6Data) uci in
  let commands := join newline removeCommands ++ newline ++ getScriptCommands uci uciOriginal
    ++ newline ++ js "sh /usr/lib/gargoyle/restart_network.sh ;" ++ newline in
  Ret (uci, uciOriginal, commands).

End Routing.
