(* ===== verification/RoutingFacts.v ===== *)
(** * Properties of the routing page *)
From S2P Require Import Prelude JsNum JsString JsRegex Uci UciFacts Backend UciScript Sections Ip4 Validate Ip4Facts ValidateFacts Ip6 Table TableFacts TableEdit Dom Modal Ports Routing.
Import Uci Validate Ip4 Table TableEdit Dom Modal Ports Sections Routing.
Open Scope Z_scope.

(** ** Destinations *)
Section destinations.

(** [&] on octets, and on dotted quads octet by octet. *)
Lemma land_bound x y : 0 <= x → 0 <= y → 0 <= Z.land x y <= x.
Proof.
  intros Hx Hy. split; [apply Z.land_nonneg; lia|].
  assert (E : Z.ldiff (Z.land x y) x = 0).
  { apply Z.bits_inj'. intros n Hn. rewrite Z.ldiff_spec, Z.land_spec, Z.bits_0. by destruct (Z.testbit x n), (Z.testbit y n). }
  apply Z.sub_nocarry_ldiff in E. assert (0 <= Z.ldiff x (Z.land x y)) by (apply Z.ldiff_nonneg; lia). lia.
Qed.

Lemma band_octets x y : 0 <= x <= 255 → 0 <= y <= 255 → Num.band (Num.toInt32 (Int x)) (Num.toInt32 (Int y)) = Z.land x y.
Proof.
  intros Hx Hy. rewrite !toInt32_int, !signed32_small by lia. apply signed32_small. pose proof (land_bound x y). lia.
Qed.

Lemma byte_high r n : 0 <= r < 256 → 8 <= n → Z.testbit r n = false.
Proof.
  intros Hr Hn. apply Z.bits_above_log2; [lia|]. destruct (decide (r = 0)) as [->|]; [simpl; lia|].
  apply Z.log2_lt_pow2; [lia|]. pose proof (Z.pow_le_mono_r 2 8 n). lia.
Qed.

Lemma byte_lor q r : 0 <= r < 256 → q * 256 + r = Z.lor (Z.shiftl q 8) r.
Proof.
  intros Hr. rewrite Z.shiftl_mul_pow2 by lia. change (2 ^ 8) with 256.
  pose proof (Z.add_lor_land (q * 256) r) as E. replace (Z.land (q * 256) r) with 0 in E; [lia|].
  apply Z.bits_inj'. intros n Hn. rewrite Z.land_spec, Z.bits_0. change 256 with (2 ^ 8).
  rewrite Z.mul_pow2_bits by lia. destruct (decide (n < 8)).
  - by rewrite Z.testbit_neg_r by lia.
  - rewrite (byte_high r) by lia. by rewrite andb_false_r.
Qed.

Lemma land_byte x y x' y' : 0 <= y < 256 → 0 <= y' < 256 →
  Z.land (x * 256 + y) (x' * 256 + y') = Z.land x x' * 256 + Z.land y y'.
Proof.
  intros Hy Hy'. pose proof (land_bound y y') as Hl. rewrite !byte_lor by lia. apply Z.bits_inj'. intros n Hn.
  rewrite Z.lor_spec, !Z.land_spec, !Z.lor_spec, !Z.shiftl_spec, Z.land_spec by lia.
  destruct (decide (n < 8)).
  - by rewrite !(Z.testbit_neg_r _ (n - 8)) by lia.
  - rewrite (byte_high y), (byte_high y') by lia. by rewrite !orb_false_r.
Qed.

Lemma land_quad a b c d a' b' c' d' : octets a b c d → octets a' b' c' d' →
  Z.land (quad_val a b c d) (quad_val a' b' c' d') = quad_val (Z.land a a') (Z.land b b') (Z.land c c') (Z.land d d').
Proof. unfold octets, quad_val. intros. by rewrite !land_byte by lia. Qed.

(** The mask clears the low bits. *)
Lemma land_mask n h : 0 <= n < 2 ^ 32 → 0 <= h <= 32 → Z.land n (2 ^ 32 - 2 ^ h) = n / 2 ^ h * 2 ^ h.
Proof.
  intros Hn Hh. rewrite <- ldiff_low by lia.
  assert (E : 2 ^ 32 - 2 ^ h = Z.land (- 2 ^ h) (Z.ones 32)).
  { rewrite Z.land_ones by lia. pose proof (Z.pow_le_mono_r 2 h 32). pose proof (Z.pow_pos_nonneg 2 h).
    rewrite <- (Z.mod_add _ 1) by lia. symmetry. rewrite Z.mul_1_l. 
    destruct (decide (h = 32)) as [->|]; [done|]. rewrite Z.mod_small; [lia|].
    pose proof (Z.pow_lt_mono_r 2 h 32). lia. }
  rewrite E, (Z.land_comm (- _)), Z.land_assoc, Z.land_ones, Z.mod_small by lia. done.
Qed.

(** The octets of the mask of [p] ones, as the loop on the bits writes them. *)
Definition mask_octet (p : Z) (i : Z) : Z := (2 ^ 32 - 2 ^ (32 - p)) / 2 ^ (8 * (3 - i)) mod 256.

Lemma mask_parts_octets p : 0 <= p <= 32 →
  mask_parts 4 (Int p) = map (λ i, str_of_Z (mask_octet p i)) [0; 1; 2; 3].
Proof.
  assert (H : forallb (λ n, bool_decide (mask_parts 4 (Int (Z.of_nat n)) =
    map (λ i, str_of_Z (mask_octet (Z.of_nat n) i)) [0; 1; 2; 3])) (seq 0 33) = true) by (by vm_compute).
  intros Hp. rewrite forallb_forall in H. specialize (H (Z.to_nat p)). rewrite Z2Nat.id in H by lia.
  by apply bool_decide_eq_true in H; [|apply in_seq; lia].
Qed.

Lemma mask_octet_range p i : 0 <= mask_octet p i <= 255.
Proof. unfold mask_octet. pose proof (Z.mod_pos_bound ((2 ^ 32 - 2 ^ (32 - p)) / 2 ^ (8 * (3 - i))) 256). lia. Qed.

Lemma mask_octet_quad p : 0 <= p <= 32 →
  quad_val (mask_octet p 0) (mask_octet p 1) (mask_octet p 2) (mask_octet p 3) = 2 ^ 32 - 2 ^ (32 - p).
Proof.
  assert (H : forallb (λ n, let p := Z.of_nat n in
    quad_val (mask_octet p 0) (mask_octet p 1) (mask_octet p 2) (mask_octet p 3) =? 2 ^ 32 - 2 ^ (32 - p)) (seq 0 33) = true)
    by (by vm_compute).
  intros Hp. rewrite forallb_forall in H. specialize (H (Z.to_nat p)). cbv zeta in H. rewrite Z2Nat.id in H by lia.
  apply Z.eqb_eq, H, in_seq. lia.
Qed.

Lemma join_dotted a b c d : join (js ".") [a; b; c; d] = dotted a b c d.
Proof. done. Qed.

Lemma int_at_octet l i s : l !! i = Some s → octet s → int_at l i = Int (dec_val s).
Proof. intros Hl [[Hne Hd] _]. unfold int_at, nth_str. rewrite Hl. by apply parseInt_digits. Qed.

Lemma octet_range s : octet s → 0 <= dec_val s <= 255.
Proof. intros [Hn ?]. apply dec_val_numeral in Hn. lia. Qed.

(** The last three octets are masked, the first is kept as it is written. *)
Definition masked (a b c d mb mc md : jstr) : jstr :=
  dotted a (str_of_Z (Z.land (dec_val b) (dec_val mb))) (str_of_Z (Z.land (dec_val c) (dec_val mc)))
    (str_of_Z (Z.land (dec_val d) (dec_val md))).

Lemma mask_bytes_quads a b c d ma mb mc md : octet b → octet c → octet d → octet mb → octet mc → octet md →
  join (js ".") (mask_bytes 3 [a; b; c; d] [ma; mb; mc; md]) = masked a b c d mb mc md.
Proof.
  intros Hb Hc Hd Hmb Hmc Hmd. cbn [mask_bytes].
  rewrite (int_at_octet [a; b; c; d] 3 d), (int_at_octet [ma; mb; mc; md] 3 md) by done.
  rewrite band_octets by (by apply octet_range). unfold array_set at 3. cbn [length Nat.ltb Nat.leb insert list_insert].
  rewrite (int_at_octet _ 2 c), (int_at_octet [ma; mb; mc; md] 2 mc) by done.
  rewrite band_octets by (by apply octet_range). unfold array_set at 2. cbn [length Nat.ltb Nat.leb insert list_insert].
  rewrite (int_at_octet _ 1 b), (int_at_octet [ma; mb; mc; md] 1 mb) by done.
  rewrite band_octets by (by apply octet_range). done.
Qed.

Lemma quad_no_slash a b c d : octet a → octet b → octet c → octet d → 47 ∉ dotted a b c d.
Proof.
  intros Ha Hb Hc Hd Hin.
  pose proof (addr_text_chars _ _ (addr_text_dotted a b c d Ha Hb Hc Hd)) as H. rewrite Forall_forall in H.
  destruct (H _ Hin); done.
Qed.

Lemma parseDest_slash s m : any_route (s ++ 47 :: m) = false → 47 ∉ s → 47 ∉ m →
  parseDest (s ++ 47 :: m) =
  let m := if negb (test re_dot m) then join (js ".") (mask_parts 4 (parseInt m)) else m in
  (join (js ".") (mask_bytes 3 (split_char 46 s) (split_char 46 m)), m).
Proof.
  intros Ha Hs Hm. unfold parseDest. rewrite Ha. replace (test re_slash (s ++ 47 :: m)) with true
    by (symmetry; apply test_chr; set_solver).
  change re_slash with (RSet false [(47, 47)]). change re_dot with (RSet false [(46, 46)]). rewrite !split_re_chr.
  rewrite (split_char_app 47 s m), (split_char_none 47 m) by done. cbv zeta.
  change (nth_str [s; m] 0) with s. change (nth_str [s; m] 1) with m. change (js ".") with [46]. by rewrite join_split_char.
Qed.

Lemma parseDest_masked a b c d m p : octet a → octet b → octet c → octet d → 0 <= p <= 32 → mask_text m p →
  any_route (dotted a b c d ++ 47 :: m) = false →
  ∃ ma mb mc md, octet ma ∧ octet mb ∧ octet mc ∧ octet md ∧
    quad_val (dec_val ma) (dec_val mb) (dec_val mc) (dec_val md) = 2 ^ 32 - 2 ^ (32 - p) ∧
    parseDest (dotted a b c d ++ 47 :: m) = (masked a b c d mb mc md, dotted ma mb mc md).
Proof.
  intros Ha Hb Hc Hd Hp Hm Hany.
  assert (Hsp : split_char 46 (dotted a b c d) = [a; b; c; d]) by (apply split_dotted; [apply Ha|apply Hb|apply Hc|apply Hd]).
  assert (Hns : 47 ∉ m).
  { intros Hin. apply mask_text_chars in Hm. rewrite Forall_forall in Hm. by destruct (Hm _ Hin). }
  rewrite parseDest_slash by (done || by apply quad_no_slash). rewrite Hsp.
  destruct Hm as [[Hn Hv]|(ma & mb & mc & md & -> & Hma & Hmb & Hmc & Hmd & E)].
  - replace (test re_dot m) with false by (symmetry; apply test_chr_false; by apply numeral_no_dot). cbn [negb]. cbv zeta.
    rewrite parseInt_digits, Hv, mask_parts_octets by (apply Hn || done). cbn [map].
    exists (str_of_Z (mask_octet p 0)), (str_of_Z (mask_octet p 1)), (str_of_Z (mask_octet p 2)), (str_of_Z (mask_octet p 3)).
    assert (Ho : ∀ i, octet (str_of_Z (mask_octet p i))) by (intros i; apply octet_str_of_Z, mask_octet_range).
    split_and!; [done..| |].
    + rewrite !dec_val_str_of_Z by apply mask_octet_range. by apply mask_octet_quad.
    + rewrite join_dotted, split_dotted by apply Ho. by rewrite mask_bytes_quads.
  - replace (test re_dot (dotted ma mb mc md)) with true by (symmetry; apply test_chr; unfold dotted; set_solver).
    cbn [negb]. cbv zeta. exists ma, mb, mc, md. split_and!; [done..|].
    rewrite split_dotted by (apply Hma || apply Hmb || apply Hmc || apply Hmd). by rewrite mask_bytes_quads.
Qed.

Lemma addr_zero : addr_text (js "0.0.0.0") 0.
Proof. exists (js "0"), (js "0"), (js "0"), (js "0"). by split_and!; try by apply octet_eval. Qed.

Lemma addr_no_slash s n : addr_text s n → Forall (λ c, c ≠ 47) s.
Proof. intros Hs%addr_text_chars. eapply Forall_impl; [done|]. intros c [Hc| ->] E; [subst; done|done]. Qed.

Lemma any_route_slash s n m : addr_text s n → any_route (s ++ 47 :: m) = true → s = js "0.0.0.0" ∧ (m = js "0" ∨ m = js "0.0.0.0").
Proof.
  intros Hs. assert (Hn : ∀ m', s ++ 47 :: m = js "0.0.0.0" ++ 47 :: m' → s = js "0.0.0.0" ∧ m = m').
  { intros m' E. eapply (app_inv_mid (λ c, c ≠ 47)) in E; eauto using addr_no_slash, addr_zero. }
  unfold any_route. rewrite !orb_true_iff, !str_eqb_eq. intros [[[E|E]|E]|E].
  - assert (Hin : 47 ∈ toLowerCase (s ++ 47 :: m)) by (unfold toLowerCase; rewrite map_app; simpl; set_solver).
    rewrite E in Hin. exfalso. revert Hin. by apply (bool_decide_eq_false_1 (47 ∈ js "default")).
  - assert (Hin : 47 ∈ js "0.0.0.0") by (rewrite <- E; set_solver). exfalso. revert Hin. by apply (bool_decide_eq_false_1 (47 ∈ js "0.0.0.0")).
  - apply (Hn (js "0")) in E. naive_solver.
  - apply (Hn (js "0.0.0.0")) in E. naive_solver.
Qed.

Lemma any_route_masked s n m p : addr_text s n → 1 <= p → mask_text m p → any_route (s ++ 47 :: m) = false.
Proof.
  intros Hs Hp Hm. apply not_true_iff_false. intros [_ [-> | ->]]%(any_route_slash _ n); [| |done].
  - destruct Hm as [[_ E]|(a & b & c & d & E & _)]; [vm_compute in E; lia|].
    apply (f_equal (λ l, bool_decide (46 ∈ l))) in E. rewrite (bool_decide_eq_true_2 (46 ∈ dotted a b c d)) in E; [done|].
    unfold dotted. set_solver.
  - destruct Hm as [[[_ Hd] _]|(a & b & c & d & E & Ha & Hb & Hc & Hd & Hv)].
    + inversion Hd as [|? ? _ Hd']; subst. inversion Hd'; done.
    + assert (Hv0 : addr_text (js "0.0.0.0") (2 ^ 32 - 2 ^ (32 - p))) by (rewrite E, <- Hv; by apply addr_text_dotted).
      pose proof addr_zero as Hz. apply addr_text_parseIp in Hv0, Hz. rewrite Hz in Hv0. injection Hv0 as Hv0.
      assert (2 ^ (32 - p) < 2 ^ 32); [|lia]. destruct (decide (0 <= 32 - p)); [apply Z.pow_lt_mono_r; lia|].
      rewrite Z.pow_neg_r; lia.
Qed.

(** The octets of a mask: below 8 ones only the first is not zero, from 8 on
    the first is 255. *)
Lemma mask_quad_octets a b c d p : octets a b c d → 1 <= p <= 32 → quad_val a b c d = 2 ^ 32 - 2 ^ (32 - p) →
  quad_val 255 b c d = 2 ^ 32 - 2 ^ (Z.min (32 - p) 24).
Proof.
  unfold octets, quad_val. intros Ho Hp E. destruct (decide (8 <= p)).
  - rewrite Z.min_l by lia. pose proof (Z.pow_le_mono_r 2 (32 - p) 24). pose proof (Z.pow_pos_nonneg 2 (32 - p)). lia.
  - rewrite Z.min_r by lia. replace (32 - p) with ((8 - p) + 24) in E by lia. rewrite Z.pow_add_r in E by lia.
    pose proof (Z.pow_pos_nonneg 2 (8 - p)). lia.
Qed.

Lemma masked_addr a b c d ma mb mc md p : octet a → octet b → octet c → octet d →
  octet ma → octet mb → octet mc → octet md → 1 <= p <= 32 →
  quad_val (dec_val ma) (dec_val mb) (dec_val mc) (dec_val md) = 2 ^ 32 - 2 ^ (32 - p) →
  let h := Z.min (32 - p) 24 in
  addr_text (masked a b c d mb mc md)
    (quad_val (dec_val a) (dec_val b) (dec_val c) (dec_val d) / 2 ^ h * 2 ^ h).
Proof.
  intros Ha Hb Hc Hd Hma Hmb Hmc Hmd Hp E h. pose proof (octet_octets a b c d Ha Hb Hc Hd) as Ho.
  pose proof (octet_octets ma mb mc md Hma Hmb Hmc Hmd) as Hom.
  apply mask_quad_octets in E; [|done|done]. fold h in E.
  rewrite <- land_mask by (try apply quad_range, Ho; lia). rewrite <- E, land_quad by (done || unfold octets in *; lia).
  assert (Hland : ∀ x y, octet x → octet y → 0 <= Z.land (dec_val x) (dec_val y) <= 255).
  { intros x y Hx%octet_range Hy%octet_range. pose proof (land_bound (dec_val x) (dec_val y)). lia. }
  eexists _, _, _, _. split; [done|]. split; [done|]. split_and!; [apply octet_str_of_Z; auto..|].
  rewrite !dec_val_str_of_Z by (by apply Hland). f_equal.
  rewrite land_255. apply Z.mod_small. apply octet_range in Ha. lia.
Qed.

(** Masking a masked address changes nothing. *)
Lemma octet_land x y : octet x → octet y →
  octet (str_of_Z (Z.land (dec_val x) (dec_val y))) ∧ dec_val (str_of_Z (Z.land (dec_val x) (dec_val y))) = Z.land (dec_val x) (dec_val y).
Proof.
  intros Hx%octet_range Hy%octet_range. pose proof (land_bound (dec_val x) (dec_val y)).
  split; [apply octet_str_of_Z|apply dec_val_str_of_Z]; lia.
Qed.

Lemma masked_again a b c d ma mb mc md : octet a → octet b → octet c → octet d →
  octet ma → octet mb → octet mc → octet md →
  any_route (masked a b c d mb mc md ++ 47 :: dotted ma mb mc md) = false →
  parseDest (masked a b c d mb mc md ++ 47 :: dotted ma mb mc md) = (masked a b c d mb mc md, dotted ma mb mc md).
Proof.
  intros Ha Hb Hc Hd Hma Hmb Hmc Hmd Hany.
  destruct (octet_land b mb) as [Ob Eb], (octet_land c mc) as [Oc Ec], (octet_land d md) as [Od Ed]; [done..|].
  rewrite parseDest_slash; [|done|by apply quad_no_slash|by apply quad_no_slash].
  replace (test re_dot (dotted ma mb mc md)) with true by (symmetry; apply test_chr; unfold dotted; set_solver).
  cbn [negb]. cbv zeta. unfold masked. rewrite !split_dotted by (by apply Ha || apply Hma || apply Hmb || apply Hmc || apply Hmd || apply Ob || apply Oc || apply Od).
  rewrite mask_bytes_quads by auto. unfold masked. rewrite Eb, Ec, Ed.
  by rewrite <- !Z.land_assoc, !Z.land_diag.
Qed.

End destinations.

(** C17: a destination [address/mask] with 1 to 32 mask bits, written as a number
    or as a dotted mask, is turned into the network address and the dotted mask,
    and the result is a fixed point.  The first octet is never masked: with
    fewer than 8 mask bits the address is only cut to its first octet. *)
Theorem parseDest_network s n m p : addr_text s n → 1 <= p <= 32 → mask_text m p →
  let h := Z.min (32 - p) 24 in
  ∃ net mask, parseDest (s ++ 47 :: m) = (net, mask) ∧ addr_text net (n / 2 ^ h * 2 ^ h) ∧
    addr_text mask (2 ^ 32 - 2 ^ (32 - p)) ∧ parseDest (net ++ 47 :: mask) = (net, mask).
Proof.
  intros Hs Hp Hm h. pose proof (any_route_masked s n m p Hs (proj1 Hp) Hm) as Hany.
  destruct Hs as (a & b & c & d & -> & Ha & Hb & Hc & Hd & ->).
  destruct (parseDest_masked a b c d m p) as (ma & mb & mc & md & Hma & Hmb & Hmc & Hmd & E & Ep); [done..|lia|done|done|].
  exists (masked a b c d mb mc md), (dotted ma mb mc md). split_and!; [done| | |].
  - by apply (masked_addr a b c d ma mb mc md p).
  - rewrite <- E. by apply addr_text_dotted.
  - apply masked_again; [done..|]. eapply any_route_masked; [by apply (masked_addr a b c d ma mb mc md p)|apply Hp|].
    right. by exists ma, mb, mc, md.
Qed.

Lemma parseDest_network_witness : ∃ net mask,
  parseDest (js "192.168.1.77/26") = (net, mask) ∧ addr_text net 3232235840 ∧
  addr_text mask (2 ^ 32 - 2 ^ (32 - 26)) ∧ parseDest (net ++ 47 :: mask) = (net, mask).
Proof. apply (parseDest_network (js "192.168.1.77") 3232235853 (js "26") 26 addr_sample); [lia|apply mask_sample]. Defined.

(** ** What the table shows of a route after it was saved *)

(** A row: destination, interface and gateway. *)
Definition route : Type := jstr * jstr * jstr.
Definition route_data (button : widget) (r : route) : list datum := [DStr r.1.1; DStr r.1.2; DStr r.2; DObj button].

Definition shows_route (r : route) (ds : list datum) : Prop := ∃ button, ds = route_data button r.

Definition shown_dest (d : jstr) : jstr :=
  let t := dest_text (parseDest d) in if (t =s js "0.0.0.0") || (t =s js "0.0.0.0/0.0.0.0") then js "default" else t.
Definition stored_gateway (g : jstr) : jstr := if g =s js "*" then js "0.0.0.0" else g.
Definition shown_gateway (g : jstr) : jstr := if stored_gateway g =s js "0.0.0.0" then js "*" else stored_gateway g.
Definition shown_route (r : route) : route := (shown_dest r.1.1, r.1.2, shown_gateway r.2).

Section shown.

Lemma dest_text_slash s m : m ≠ [] → dest_text (s, m) = s ++ 47 :: m.
Proof. intros Hm. unfold dest_text. simpl. by rewrite (proj2 (str_eqb_neq m [])). Qed.

Lemma dotted_ne a b c d : dotted a b c d ≠ [].
Proof. unfold dotted. by destruct a. Qed.

Lemma shown_default d : any_route d = true → shown_dest d = js "default".
Proof. intros H. unfold shown_dest, parseDest. by rewrite H. Qed.

Lemma shown_dest_idem d : validateRouteIp d = 0 → shown_dest (shown_dest d) = shown_dest d.
Proof.
  intros Hv. destruct (any_route d) eqn:Hany; [by rewrite (shown_default d)|].
  unfold validateRouteIp in Hv. destruct (validateIpRange d =? 0) eqn:E.
  2:{ simpl in Hv. unfold any_route in Hany. bsimpl. destruct (d =s js "0.0.0.0"), (d =s js "0.0.0.0/0.0.0.0"), (d =s js "0.0.0.0/0"); try done.
      simpl in Hv. destruct (d =s js "default") eqn:Ed; [|done]. apply str_eqb_eq in Ed as ->. done. }
  apply Z.eqb_eq, validateIpRange_sound in E as [[n Hn]|(a & n & m & p & -> & Hn & Hp & Hm)].
  - assert (Es : shown_dest d = d); [|by rewrite !Es].
    unfold shown_dest, parseDest. rewrite Hany. replace (test re_slash d) with false.
    + unfold dest_text. simpl. unfold any_route in Hany. bsimpl. destruct (d =s js "0.0.0.0"); [done|]. by destruct (d =s js "0.0.0.0/0.0.0.0").
    + symmetry. apply test_chr_false. intros Hin. apply addr_no_slash in Hn. rewrite Forall_forall in Hn. by apply (Hn 47).
  - destruct Hn as (b1 & b2 & b3 & b4 & -> & H1 & H2 & H3 & H4 & ->).
    destruct (parseDest_masked b1 b2 b3 b4 m p) as (m1 & m2 & m3 & m4 & M1 & M2 & M3 & M4 & E & Ep); [done..|].
    assert (Es : shown_dest (dotted b1 b2 b3 b4 ++ 47 :: m) =
      let t := masked b1 b2 b3 b4 m2 m3 m4 ++ 47 :: dotted m1 m2 m3 m4 in
      if (t =s js "0.0.0.0") || (t =s js "0.0.0.0/0.0.0.0") then js "default" else t).
    { unfold shown_dest. rewrite Ep, dest_text_slash by apply dotted_ne. done. }
    rewrite Es. cbv zeta. clear Es.
    destruct ((_ =s js "0.0.0.0") || _) eqn:Eo; [by vm_compute|].
    set (t := masked b1 b2 b3 b4 m2 m3 m4 ++ 47 :: dotted m1 m2 m3 m4) in *.
    assert (Ht : any_route t = false).
    { apply not_true_iff_false. intros Ht. unfold t, masked in Ht.
      destruct (octet_land b2 m2) as [O2 _], (octet_land b3 m3) as [O3 _], (octet_land b4 m4) as [O4 _]; [done..|].
      eapply any_route_slash in Ht as [E1 E2]; [|by apply addr_text_dotted].
      bsimpl. apply str_eqb_neq in H0. apply H0. unfold t, masked. rewrite E1. destruct E2 as [E2|E2].
      - exfalso. apply (f_equal (λ l, bool_decide (46 ∈ l))) in E2. rewrite bool_decide_eq_true_2 in E2; [done|]. unfold dotted. set_solver.
      - by rewrite E2. }
    unfold shown_dest. unfold t in Ht |- *. rewrite masked_again by done. rewrite dest_text_slash by apply dotted_ne.
    fold t. by rewrite Eo.
Qed.

Lemma shown_gateway_idem g : shown_gateway (shown_gateway g) = shown_gateway g.
Proof.
  unfold shown_gateway at 2 3. destruct (_ =s js "0.0.0.0") eqn:E; [done|].
  unfold shown_gateway. unfold stored_gateway in *. destruct (g =s js "*") eqn:Eg; [done|]. rewrite Eg. by rewrite E.
Qed.

End shown.
