(* ===== verification/RoutingSave.v ===== *)
(** * Saving the routes and reading them back *)
From S2P Require Import Prelude JsNum JsString JsRegex Uci UciFacts Backend UciScript Sections Ip4 Validate Ip4Facts Ip6 Table TableFacts TableEdit Dom Modal Ports Routing RoutingFacts.
Import Uci Table TableEdit Sections Routing.
Open Scope Z_scope.

Abbreviation network := (js "network").

Definition route_id (n : Z) : jstr := js "route" ++ str_of_Z n.

(** The options of a route, and of an IPv6 route. *)
Definition route_opts (r : route) : list (jstr * jstr) :=
  let '(dest, mask) := parseDest r.1.1 in
  [(js "target", dest); (js "interface", r.1.2); (js "gateway", stored_gateway r.2)]
  ++ (if mask =s [] then [] else [(js "netmask", mask)]).

Definition stored_gateway6 (g : jstr) : jstr := if g =s js "*" then js "::" else g.
Definition route6_opts (r : route) : list (jstr * jstr) :=
  let '(dest, mask) := parseDest6 r.1.1 in
  [(js "target", dest ++ js "/" ++ mask); (js "interface", r.1.2); (js "gateway", stored_gateway6 r.2)].

(** What the page shows of a saved IPv6 route. *)
Definition shown_route6 (r : route) : route :=
  let '(dest, mask) := parseDest6 r.1.1 in
  let t := dest ++ js "/" ++ mask in
  (if (t =s js "::") || (t =s js "::/0") then js "default" else t, r.1.2,
   if stored_gateway6 r.2 =s js "::" then js "*" else stored_gateway6 r.2).

Lemma map_imap {A B C} (f : nat → A → B) (g : B → C) l : map g (imap f l) = imap (λ i x, g (f i x)) l.
Proof. apply fmap_imap. Qed.

Section saving.

Lemma word_route n : 0 <= n → word (route_id n).
Proof.
  intros Hn. apply word_numbered; [|done]. split; [done|repeat constructor].
Qed.

Lemma route_id_inj a b : 0 <= a → 0 <= b → route_id a = route_id b → a = b.
Proof. intros Ha Hb E. unfold route_id in E. apply app_inv_head in E. by apply str_of_Z_inj. Qed.

Lemma route_opts_ok r : Forall word (map fst (route_opts r)) ∧ NoDup (map fst (route_opts r)).
Proof. unfold route_opts. destruct (parseDest r.1.1) as [d m]. by destruct (m =s []); simpl; split; by_eval. Qed.

Lemma route6_opts_ok r : Forall word (map fst (route6_opts r)) ∧ NoDup (map fst (route6_opts r)).
Proof. unfold route6_opts. destruct (parseDest6 r.1.1) as [d m]. simpl. split; by_eval. Qed.

(** The sections written for the two tables. *)
Definition route_recs (rs : list route) : list section_rec :=
  imap (λ i r, (route_id (Z.of_nat i + 1), js "route", route_opts r)) rs.
Definition route6_recs (offset : nat) (rs : list route) : list section_rec :=
  imap (λ i r, (route_id (Z.of_nat i + 1 + Z.of_nat offset), js "route6", route6_opts r)) rs.

Lemma save_route_write button u i r :
  save_route u (i, route_data button r) = Ret (write_section network u (route_id (Z.of_nat i + 1)) (js "route") (route_opts r)).
Proof.
  destruct r as [[dest iface] gw]. unfold save_route, route_data, datum_str, route_opts. cbn.
  destruct (parseDest dest) as [d m]. by destruct (m =s []).
Qed.

Lemma save_route6_write button k u i r :
  save_route6 k u (i, route_data button r) =
  Ret (write_section network u (route_id (Z.of_nat i + 1 + Z.of_nat k)) (js "route6") (route6_opts r)).
Proof.
  destruct r as [[dest iface] gw]. unfold save_route6, route_data, datum_str, route6_opts. cbn.
  by destruct (parseDest6 dest) as [d m].
Qed.

(** A loop that writes a section per row. *)
Lemma save_rows_write (save : UCIContainer → nat * list datum → exn UCIContainer) (rec : nat → route → section_rec) rs D u :
  (∀ b u i r, save u (i, route_data b r) = Ret (write_section network u (rec_name (rec i r)) (rec_type (rec i r)) (rec_opts (rec i r)))) →
  Forall2 shows_route rs D →
  exn_fold save (indexed D) u = Ret (write_sections network u (imap rec rs)).
Proof. intros Hsave HD. apply (write_rows network save rec shows_route); [|done]. intros u' i r d [b ->]. apply Hsave. Qed.

Lemma route_recs_names rs rs6 :
  map rec_name (route_recs rs ++ route6_recs (length rs) rs6) =
  map (λ n, route_id (Z.of_nat n + 1)) (seq 0 (length rs + length rs6)).
Proof.
  rewrite map_app, seq_app, map_app. f_equal.
  - unfold route_recs. rewrite map_imap. apply (imap_seq_0 rs (λ n, route_id (Z.of_nat n + 1))).
  - rewrite Nat.add_0_l. unfold route6_recs. rewrite map_imap.
    etrans; [|apply (imap_seq rs6 (λ n, route_id (Z.of_nat n + 1)))]. apply imap_ext. intros i r _.
    change (route_id (Z.of_nat i + 1 + Z.of_nat (length rs)) = route_id (Z.of_nat (length rs + i) + 1)). f_equal. lia.
Qed.

Lemma route_recs_ok rs rs6 : Forall rec_ok (route_recs rs ++ route6_recs (length rs) rs6) ∧
  NoDup (map rec_name (route_recs rs ++ route6_recs (length rs) rs6)).
Proof.
  split.
  - apply Forall_app; split; apply Forall_lookup; intros i x; unfold route_recs, route6_recs; rewrite list_lookup_imap.
    + destruct (rs !! i) as [r|]; [|done]. intros [= <-]. split_and!; [apply word_route; lia|done|apply route_opts_ok..].
    + destruct (rs6 !! i) as [r|]; [|done]. intros [= <-]. split_and!; [apply word_route; lia|done|apply route6_opts_ok..].
  - rewrite route_recs_names. apply NoDup_fmap_2_strong; [|apply NoDup_seq]. intros x y _ _ E. apply route_id_inj in E; lia.
Qed.

Lemma names_of_routes rs rs6 :
  names_of_type (js "route") (route_recs rs ++ route6_recs (length rs) rs6) = map rec_name (route_recs rs) ∧
  names_of_type (js "route6") (route_recs rs ++ route6_recs (length rs) rs6) = map rec_name (route6_recs (length rs) rs6).
Proof.
  assert (H : ∀ (f : section_rec → bool) l b, Forall (λ r, f r = b) l → List.filter f l = if b then l else []).
  { intros f l b Hl. induction Hl as [|r l Hr _ IH]; simpl; [by destruct b|]. rewrite Hr, IH. by destruct b. }
  assert (H4 : Forall (λ r, rec_type r = js "route") (route_recs rs)).
  { apply Forall_lookup. intros i x. unfold route_recs. rewrite list_lookup_imap. destruct (rs !! i); [|done]. by intros [= <-]. }
  assert (H6 : Forall (λ r, rec_type r = js "route6") (route6_recs (length rs) rs6)).
  { apply Forall_lookup. intros i x. unfold route6_recs. rewrite list_lookup_imap. destruct (rs6 !! i); [|done]. by intros [= <-]. }
  unfold names_of_type. rewrite !List.filter_app. split.
  - rewrite (H _ (route_recs rs) true), (H _ (route6_recs _ rs6) false); [by rewrite app_nil_r|..];
      (eapply Forall_impl; [eassumption|]; by intros r ->).
  - rewrite (H _ (route_recs rs) false), (H _ (route6_recs _ rs6) true); [done|..];
      (eapply Forall_impl; [eassumption|]; by intros r ->).
Qed.

End saving.

Section reading.
Context (UI : jstr → jstr).

Lemma static_row_holds u i r : holds_rec network u (route_id i, js "route", route_opts r) →
  static_row UI u (route_id i) = Ret (route_data (createEditButton UI) (shown_route r)).
Proof.
  intros [Hv Hn]. cbn [rec_name rec_opts fst snd] in *. unfold static_row, Ports.gets. unfold route_opts in *.
  destruct r as [[dest iface] gw]. unfold shown_route, shown_dest, shown_gateway. cbn [fst snd] in *.
  destruct (parseDest dest) as [d m]. unfold dest_text. cbn [fst snd].
  rewrite (Hv (js "target") d), (Hv (js "interface") iface), (Hv (js "gateway") (stored_gateway gw)) by set_solver.
  assert (Em : get u network (route_id i) (js "netmask") = UStr m).
  { destruct (m =s []) eqn:E; [apply str_eqb_eq in E as ->; apply Hn; by_eval|]. apply Hv. set_solver. }
  rewrite Em. cbn [uval_str]. destruct (m =s []); cbn [uval_str]; by destruct (_ || _), (stored_gateway gw =s js "0.0.0.0").
Qed.

Lemma static_row6_holds u i r : holds_rec network u (route_id i, js "route6", route6_opts r) →
  static_row6 UI u (route_id i) = Ret (route_data (createEditButton UI) (shown_route6 r)).
Proof.
  intros [Hv _]. cbn [rec_name rec_opts fst snd] in *. unfold static_row6. unfold route6_opts in *.
  destruct r as [[dest iface] gw]. unfold shown_route6. cbn [fst snd] in *. destruct (parseDest6 dest) as [d m].
  rewrite (Hv (js "target") (d ++ js "/" ++ m)), (Hv (js "interface") iface), (Hv (js "gateway") (stored_gateway6 gw)) by set_solver.
  cbn [uval_str]. by destruct (_ || _), (stored_gateway6 gw =s js "::").
Qed.

Lemma static_rows_read u rs rs6 : Forall (holds_rec network u) (route_recs rs ++ route6_recs (length rs) rs6) →
  getAllSectionsOfType u network (js "route") = Ret (map rec_name (route_recs rs)) →
  getAllSectionsOfType u network (js "route6") = Ret (map rec_name (route6_recs (length rs) rs6)) →
  static_rows UI u = Ret (map (route_data (createEditButton UI)) (map shown_route rs)) ∧
  static_rows6 UI u = Ret (map (route_data (createEditButton UI)) (map shown_route6 rs6)).
Proof.
  intros [H4 H6]%Forall_app Q4 Q6. rewrite Forall_forall in H4, H6. unfold static_rows, static_rows6. rewrite Q4, Q6. cbn [exn_bind].
  rewrite !map_map. split.
  - rewrite <- (exn_map_imap (static_row UI u) (λ i _, route_id (Z.of_nat i + 1))).
    + unfold route_recs, route6_recs. by rewrite map_imap.
    + intros i r Hr. apply static_row_holds, H4. apply list_elem_of_lookup. exists i. unfold route_recs. by rewrite list_lookup_imap, Hr.
  - rewrite <- (exn_map_imap (static_row6 UI u) (λ i _, route_id (Z.of_nat i + 1 + Z.of_nat (length rs)))).
    + unfold route_recs, route6_recs. by rewrite map_imap.
    + intros i r Hr. apply static_row6_holds, H6. apply list_elem_of_lookup. exists i. unfold route6_recs. by rewrite list_lookup_imap, Hr.
Qed.

End reading.

(** The names [route1], [route2], ... are those of routes. *)
Definition routes_named (u : UCIContainer) : Prop :=
  ∀ n v, 0 <= n → values u !! section_key network (route_id n) = Some v → v = UStr (js "route") ∨ v = UStr (js "route6").

(** A section that the page does not write: not a route, nor named like one. *)
Definition not_route (u : UCIContainer) (pkg section : jstr) : Prop :=
  pkg = network → (∀ n, section ≠ route_id n) ∧
    value_is u (section_key network section) (js "route") = false ∧
    value_is u (section_key network section) (js "route6") = false.

Section roundtrip.
Context (u : UCIContainer) (ss4 ss6 : list jstr).
Hypothesis (Hu : wf u) (Hs : sectioned u) (Ha : pkg_unambiguous u network) (Hn : routes_named u).
Hypothesis (Q4 : getAllSectionsOfType u network (js "route") = Ret ss4).
Hypothesis (Q6 : getAllSectionsOfType u network (js "route6") = Ret ss6).

Let ss := rev ss4 ++ rev ss6.
Let u2 := without_sections network u ss.

Lemma word_network : word network.
Proof. by_eval. Qed.

Lemma removed_no_route n : 0 <= n → section_key network (route_id n) ∉ keys u2.
Proof.
  intros Hn0 Hk. destruct (pop_two network (js "route") (js "route6") u ss4 ss6 word_network) as (_ & _ & _ & R4 & R6); [done..|].
  assert (Hsh : shaped u2) by (apply without_sections_shaped, sectioned_shaped, Hs).
  assert (Ha2 : pkg_unambiguous u2 network).
  { eapply unambiguous_sublist; [|done]. unfold u2. rewrite without_sections_keys.
    intros k. rewrite list_elem_of_In, filter_In, <- list_elem_of_In. naive_solver. }
  assert (Hin : ∀ t, getAllSectionsOfType u2 network t = Ret [] → value_is u2 (section_key network (route_id n)) t = true → False).
  { intros t Q Hv. eapply (query_elem _ _ _ _ (route_id n)) in Q; [|apply word_network|done|done|apply word_name; by apply word_route].
    eapply not_elem_of_nil. by apply Q. }
  assert (Hw2 : wf u2) by (by apply without_sections_wf). apply (wf_dom _ Hw2) in Hk as [v Hv]. pose proof Hv as Hv'.
  unfold u2 in Hv'. rewrite without_sections_lookup in Hv'. destruct (in_sections _ _ _); [done|].
  unfold value_is in Hin. destruct (Hn n v Hn0 Hv') as [-> | ->]; [apply (Hin _ R4)|apply (Hin _ R6)]; by rewrite Hv.
Qed.

Lemma removed_get p s o : name p → name s → o = [] ∨ name o → not_route u p s → get u2 p s o = get u p s o.
Proof.
  intros Hp Hsn Ho Hnr. unfold get, u2. rewrite without_sections_lookup. replace (in_sections _ _ _) with false; [done|]. symmetry.
  destruct (pop_two network (js "route") (js "route6") u ss4 ss6 word_network) as (Hw & _); [done..|]. fold ss in Hw.
  assert (Hno : p = network → s ∉ ss).
  { intros ->. destruct (Hnr eq_refl) as (_ & H4 & H6). unfold ss. rewrite elem_of_app, !list_elem_of_In, <- !in_rev, <- !list_elem_of_In.
    rewrite (query_elem _ _ _ _ s word_network (sectioned_shaped _ Hs) Ha Hsn Q4),
      (query_elem _ _ _ _ s word_network (sectioned_shaped _ Hs) Ha Hsn Q6). naive_solver congruence. }
  apply not_true_iff_false. unfold in_sections. rewrite existsb_exists. intros (x & Hx%list_elem_of_In & Hin).
  rewrite Forall_forall in Hw. pose proof (word_name _ (Hw x Hx)) as Hxn. pose proof (word_name _ word_network) as Hnn.
  destruct Ho as [->|Ho].
  - rewrite next_key_section in Hin. apply in_section_section in Hin as [E ->]; [|done..]. by apply Hno.
  - rewrite next_key_option in Hin by apply Ho. apply in_section_option in Hin as [E ->]; [|done..]. by apply Hno.
Qed.

End roundtrip.

(** C16: saving the routes and reading them back.  From a page whose two tables
    hold routes, [saveChanges] succeeds; its commands, run on a router in the old
    configuration, leave it in the new one; and when the page is loaded from the
    new configuration its tables show the same routes, each in the form the page
    shows ([shown_route]); every other setting is as before. *)
Theorem routes_roundtrip `{PosixShell, UciBackend} UI page t4 t6 D4 D6 rs rs6 st (u := rt_uci page) :
  wf u → sectioned u → pkg_unambiguous u (js "network") → routes_named u →
  rt_static page = Some t4 → getTableDataArray t4 true false = Ret D4 → Forall2 shows_route rs D4 →
  rt_static6 page = Some t6 → getTableDataArray t6 true false = Ret D6 → Forall2 shows_route rs6 D6 →
  (∀ k, view st k = config u k) →
  ∃ uci old script,
    saveChanges page = Ret (uci, old, script ++ newline ++ js "sh /usr/lib/gargoyle/restart_network.sh ;" ++ newline) ∧
    (∀ k, view (run_script script st) k = config uci k) ∧
    static_rows UI uci = Ret (map (route_data (createEditButton UI)) (map shown_route rs)) ∧
    static_rows6 UI uci = Ret (map (route_data (createEditButton UI)) (map shown_route6 rs6)) ∧
    (∀ p s o, name p → name s → o = [] ∨ name o → not_route u p s → get uci p s o = get u p s o).
Proof.
  intros Hu Hs Ha Hn E4 T4 S4 E6 T6 S6 Hst. pose proof (sectioned_shaped u Hs) as Hsh.
  destruct (getAllSectionsOfType u network (js "route")) as [ss4|] eqn:Q4; [|by rewrite getAllSectionsOfType_hits in Q4 by (done || by_eval)].
  destruct (getAllSectionsOfType u network (js "route6")) as [ss6|] eqn:Q6; [|by rewrite getAllSectionsOfType_hits in Q6 by (done || by_eval)].
  destruct (pop_two network (js "route") (js "route6") u ss4 ss6 word_network) as (Hw & P4 & P6 & R4 & R6); [done..|].
  set (ss := rev ss4 ++ rev ss6) in *. set (u2 := without_sections network u ss) in *.
  assert (Hu2 : wf u2) by (by apply without_sections_wf).
  assert (Hs2 : sectioned u2) by (apply without_sections_sectioned; [apply word_network|done|done]).
  set (recs := route_recs rs ++ route6_recs (length rs) rs6).
  destruct (route_recs_ok rs rs6) as [Hok Hnd]. fold recs in Hok, Hnd.
  destruct (write_sections_spec network word_network recs u2 Hok Hnd Hu2 Hs2) as (Wf & Ws & Wq & Wh & Wn).
  { apply (Forall_map rec_name (λ s, section_key network s ∉ keys u2)). unfold recs. rewrite route_recs_names. apply Forall_map, Forall_forall.
    intros n _. apply removed_no_route; [done..|lia]. }
  set (uci := write_sections network u2 recs) in *.
  exists uci, u2, (join newline (map (λ s, cmd_del (section_key network s)) ss ++ [cmd_commit] ++ script_lines uci u2)).
  assert (Hrr : static_rows UI uci = Ret (map (route_data (createEditButton UI)) (map shown_route rs)) ∧
    static_rows6 UI uci = Ret (map (route_data (createEditButton UI)) (map shown_route6 rs6))).
  { destruct (names_of_routes rs rs6) as [N4 N6]. apply static_rows_read; [done|rewrite (Wq _ _ R4)|rewrite (Wq _ _ R6)]; simpl;
      [by rewrite <- N4|by rewrite <- N6]. }
  split_and!; [|by apply removal_and_script; [apply word_network|..]|apply Hrr|apply Hrr|].
  - unfold saveChanges. fold u. rewrite P4. cbn [exn_bind fst snd]. rewrite P6. cbn [exn_bind fst snd]. 
    rewrite clone_is_copy by (done || by apply sectioned_shaped). cbn [exn_bind].
    rewrite E4, E6. cbn [exn_of_option exn_bind]. rewrite T4. cbn [exn_bind].
    rewrite (save_rows_write save_route (λ i r, (route_id (Z.of_nat i + 1), js "route", route_opts r)) rs D4) by (done || intros; apply save_route_write).
    cbn [exn_bind]. rewrite T6. cbn [exn_bind]. rewrite <- (Forall2_length _ _ _ S4).
    rewrite (save_rows_write _ (λ i r, (route_id (Z.of_nat i + 1 + Z.of_nat (length rs)), js "route6", route6_opts r)) rs6 D6) by (done || intros; apply save_route6_write).
    cbn [exn_bind]. unfold write_sections. rewrite <- fold_left_app. fold (write_sections network u2). change (imap _ rs ++ imap _ rs6) with recs.
    change (fold_left _ recs u2) with uci. unfold ss. rewrite map_app.
    change (js "uci commit") with cmd_commit. set (rems := map _ (rev ss4) ++ map _ (rev ss6) ++ [cmd_commit]).
    replace ((_ ++ _) ++ [cmd_commit] ++ script_lines uci u2) with (rems ++ script_lines uci u2) by (unfold rems; by rewrite <- !app_assoc).
    rewrite (join_app newline rems).
    + unfold getScriptCommands. by rewrite <- !app_assoc.
    + unfold rems. by destruct (map _ (rev ss4)), (map _ (rev ss6)).
    + apply script_lines_ne.
  - intros p s o Hp Hsn Ho Hnr. rewrite Wn; [|done..|].
    + by apply removed_get.
    + intros E. destruct (Hnr E) as [Hni _]. unfold recs. rewrite route_recs_names. rewrite list_elem_of_fmap. naive_solver.
Qed.

(** ** A page with a route *)
Definition sample_uci : UCIContainer :=
  write_sections network new
    [(js "lan", js "interface", [(js "proto", js "static")]);
     (js "route1", js "route", [(js "target", js "10.0.0.0"); (js "netmask", js "255.0.0.0")])].

Definition sample_button : widget := mkWidget (js "button") (js "Edit") false [] false.
Definition sample_route : route := (js "192.168.1.77/26", js "lan", js "*").
Definition sample_table (rs : list route) : table :=
  createTable (js "Remove") [] (map (route_data sample_button) rs) (js "t") true false.
Definition sample_page : routing_page :=
  mkRouting (mkDoc ∅ []) sample_uci None None (Some (sample_table [sample_route])) (Some (sample_table [])).

Lemma sample_uci_routes : routes_named sample_uci.
Proof.
  intros n v Hn Hv.
  assert (H : map_Forall (λ k v, is_prefix (js "network.route") k = true → length (split_char 46 k) = 2%nat →
    v = UStr (js "route") ∨ v = UStr (js "route6")) (values sample_uci)) by by_eval.
  apply (H _ _ Hv).
  - apply is_prefix_iff. by exists (str_of_Z n).
  - rewrite split_section_key; [done|by_eval|]. by apply word_name, word_route.
Qed.

Lemma routes_roundtrip_witness : ∃ uci old script,
  saveChanges sample_page = Ret (uci, old, script ++ newline ++ js "sh /usr/lib/gargoyle/restart_network.sh ;" ++ newline) ∧
  static_rows (λ s, s) uci = Ret [[DStr (js "192.168.1.64/255.255.255.192"); DStr (js "lan"); DStr (js "*"); DObj (createEditButton (λ s, s))]].
Proof.
  assert (Hwf : wf sample_uci) by (apply write_sections_wf, new_wf).
  destruct (@routes_roundtrip SimpleShell.shell SimpleStore.store (λ s, s) sample_page (sample_table [sample_route]) (sample_table [])
    [route_data sample_button sample_route] [] [sample_route] [] (values sample_uci) Hwf (check_sectioned _ Hwf eq_refl)) as (uci & old & script & E & _ & R & _).
  - apply one_package_unambiguous; by_eval.
  - apply sample_uci_routes.
  - reflexivity.
  - vm_compute. reflexivity.
  - repeat constructor. by exists sample_button.
  - reflexivity.
  - vm_compute. reflexivity.
  - constructor.
  - apply simple_store_config. by_eval.
  - exists uci, old, script. split; [exact E|]. rewrite R. vm_compute. reflexivity.
Defined.
