(* ===== verification/RoutingUse.v ===== *)
(** * The table of static routes in use

    Adding, editing and removing rows keeps every row in the form in which the
    page shows saved routes. *)
From S2P Require Import Prelude JsNum JsString JsRegex Uci Ip4 Validate Ip4Facts ValidateFacts Ip6 Table TableFacts TableEdit Dom FormFacts Modal Routing RoutingFacts.
Import Validate Ip4 Table TableEdit Dom Modal Routing.
Open Scope Z_scope.

Section texts.

(** The destination that is written in a row. *)
Lemma dest_in_row d : 
  (if dest_text (parseDest d) =s js "0.0.0.0/0.0.0.0" then js "default" else dest_text (parseDest d)) = shown_dest d.
Proof.
  unfold shown_dest. cbv zeta. destruct (dest_text (parseDest d) =s js "0.0.0.0") eqn:E; [|done].
  exfalso. apply str_eqb_eq in E. unfold parseDest in E. destruct (any_route d) eqn:Ha; [done|].
  destruct (test re_slash d) eqn:Es.
  - revert E. set (m := nth_str (split_re re_slash d) 1). cbv zeta. set (m' := if negb (test re_dot m) then _ else m).
    assert (Hm : join (js ".") (split_re re_dot m') ≠ []).
    { change re_dot with (RSet false [(46, 46)]) at 1. rewrite split_re_chr. change (js ".") with [46]. rewrite join_split_char.
      unfold m'. destruct (test re_dot m) eqn:Ed; cbn [negb].
      - intros ->. revert Ed. change re_dot with (RSet false [(46, 46)]). rewrite test_chr. set_solver.
      - cbn [mask_parts]. destruct (mask_part (parseInt m)) as [v1 b1]. cbn [mask_parts]. destruct (mask_part b1) as [v2 b2]. simpl.
        by destruct (str_of_Z v1). }
    rewrite dest_text_slash by done. intros E.
    assert (Hin : 47 ∈ js "0.0.0.0") by (rewrite <- E; set_solver). revert Hin. by apply (bool_decide_eq_false_1 (47 ∈ js "0.0.0.0")).
  - unfold dest_text in E. simpl in E. subst. done.
Qed.

Lemma gateway_in_row g : (if g =s js "0.0.0.0" then js "*" else g) = shown_gateway g.
Proof.
  unfold shown_gateway, stored_gateway. destruct (g =s js "*") eqn:E; [|done].
  apply str_eqb_eq in E as ->. done.
Qed.

Lemma quad_line s n : addr_text s n → 10 ∉ s.
Proof. intros Hs%addr_text_chars Hin. rewrite Forall_forall in Hs. by destruct (Hs _ Hin). Qed.

Lemma shown_dest_line d : validateRouteIp d = 0 → 10 ∉ shown_dest d.
Proof.
  intros Hv. destruct (any_route d) eqn:Hany; [rewrite shown_default by done; by apply (bool_decide_eq_false_1 (10 ∈ js "default"))|].
  unfold validateRouteIp in Hv. destruct (validateIpRange d =? 0) eqn:E.
  2:{ simpl in Hv. destruct (_ || _) eqn:Ho in Hv; [|done]. rewrite !orb_true_iff, !str_eqb_eq in Ho.
      destruct Ho as [[[-> | ->] | ->] | ->]; done. }
  clear Hv. unfold shown_dest. cbv zeta. destruct (_ || _); [by apply (bool_decide_eq_false_1 (10 ∈ js "default"))|].
  apply Z.eqb_eq, validateIpRange_sound in E as [[n Hn]|(a & n & m & p & -> & Hn & Hp & Hm)].
  - unfold parseDest. rewrite Hany. replace (test re_slash d) with false; [by apply (quad_line d n)|].
    symmetry. apply test_chr_false. intros Hin. apply addr_no_slash in Hn. rewrite Forall_forall in Hn. by apply (Hn 47).
  - destruct Hn as (b1 & b2 & b3 & b4 & -> & H1 & H2 & H3 & H4 & ->).
    destruct (parseDest_masked b1 b2 b3 b4 m p) as (m1 & m2 & m3 & m4 & M1 & M2 & M3 & M4 & E & ->); [done..|].
    rewrite dest_text_slash by apply dotted_ne.
    destruct (octet_land b2 m2) as [O2 _], (octet_land b3 m3) as [O3 _], (octet_land b4 m4) as [O4 _]; [done..|].
    rewrite elem_of_app, elem_of_cons. unfold masked.
    intros [Hin|[Hin|Hin]]; [|done|]; revert Hin; eapply quad_line; by apply addr_text_dotted.
Qed.

Lemma shown_gateway_line g : validateGatewayIp g = 0 → 10 ∉ shown_gateway g.
Proof.
  unfold validateGatewayIp. destruct (validateIP g =? 0) eqn:E.
  - apply Z.eqb_eq, validateIP_addr in E as [n Hn]. intros _. rewrite <- gateway_in_row. destruct (g =s js "0.0.0.0").
    + by apply (bool_decide_eq_false_1 (10 ∈ js "*")).
    + by apply (quad_line g n).
  - simpl. destruct (_ || _) eqn:Ho; [|done]. rewrite orb_true_iff, !str_eqb_eq in Ho. intros _.
    by destruct Ho as [-> | ->]; apply (bool_decide_eq_false_1 (10 ∈ js "*")).
Qed.

End texts.

(** A table whose rows are routes in the form the page shows. *)
Definition normal_routes (t : table) : Prop :=
  table_wf t ∧ ∃ D rs, getTableDataArray t true false = Ret D ∧ Forall2 shows_route rs D ∧ Forall (λ r, shown_route r = r) rs.

Definition page_ok (p : routing_page) : Prop := ∃ t, rt_static p = Some t ∧ normal_routes t.

(** The window's fields are there, shown and enabled. *)
Definition route_form (d : document) : Prop :=
  Forall (λ f, field_ready d f ∧ field_visible d f = Ret true) (route_fields RouteIPv4).

(** What a user can do; any change of the fields is possible. *)
Inductive route_step (UI rtgS : jstr → jstr) : routing_page → routing_page → Prop :=
| rs_fields p d : route_step UI rtgS p (with_doc p d)
| rs_add p p' : route_form (rt_doc p) → addStaticRoute UI rtgS p = Ret p' → route_step UI rtgS p p'
| rs_edit p p' id : route_form (rt_doc p) → editStaticRoute UI rtgS p id = Ret p' → route_step UI rtgS p p'
| rs_remove p t t' i r : rt_static p = Some t → t_body t !! i = Some r → removeThisCellsRow t (r_id r) = Ret t' →
    route_step UI rtgS p (with_static p (Some t'))
| rs_add6 p p' : addStatic6Route UI rtgS p = Ret p' → route_step UI rtgS p p'
| rs_edit6 p p' id : editStatic6Route UI rtgS p id = Ret p' → route_step UI rtgS p p'.

Section steps.
Context (UI rtgS : jstr → jstr).

(** Proofreading leaves either an error, or valid texts in both fields. *)
Lemma proofread_route d : route_form d →
  ∃ errs d', proofreadStaticRoute UI RouteIPv4 d = Ret (errs, d') ∧
    (errs = [] → ∀ e g, elements d' !! js "add_dest" = Some e → elements d' !! js "add_gateway" = Some g →
      validateRouteIp (value e) = 0 ∧ validateGatewayIp (value g) = 0).
Proof.
  intros Hf. destruct (proofread_valid UI (route_fields RouteIPv4) d Hf) as (errs & d' & E & _ & Hval).
  exists errs, d'. split; [done|]. intros Hn e g He Hg. specialize (Hval Hn).
  split; [apply (Hval (mkField (js "add_dest") (js "add_dest_label") validateRouteIp 0 (Some (js "add_dest"))))
         |apply (Hval (mkField (js "add_gateway") (js "add_gateway_label") validateGatewayIp 0 (Some (js "add_gateway"))))];
    (set_solver || done).
Qed.

Lemma shown_normal dest iface gw : validateRouteIp dest = 0 →
  shown_route (shown_dest dest, iface, shown_gateway gw) = (shown_dest dest, iface, shown_gateway gw).
Proof. intros Hv. unfold shown_route. simpl. by rewrite shown_dest_idem, shown_gateway_idem. Qed.

Lemma add_normal t dest iface gw button : validateRouteIp dest = 0 → validateGatewayIp gw = 0 → normal_routes t →
  normal_routes (addTableRow (UI (js "Remove")) t (route_data button (shown_dest dest, iface, shown_gateway gw)) true false).
Proof.
  intros Hd Hg (Hwf & D & rs & HD & Hs & Hn).
  destruct (addTableRow_data true false (UI (js "Remove")) t (route_data button (shown_dest dest, iface, shown_gateway gw)) D) as [Hwf' HD']; [done..|].
  split; [done|]. eexists _, (rs ++ [(shown_dest dest, default [] (head (split_char 10 iface)), shown_gateway gw)]).
  split; [exact HD'|]. split.
  - apply Forall2_app; [done|]. constructor; [|constructor]. exists button. unfold route_data. cbn [map fst snd].
    rewrite (first_line_one (DStr (shown_dest dest))), (first_line_one (DStr (shown_gateway gw))); [done|..].
    + by apply shown_gateway_line.
    + by apply shown_dest_line.
  - apply Forall_app. split; [done|]. constructor; [|done]. by apply shown_normal.
Qed.

Lemma edit_normal t t' id dest iface gw : validateRouteIp dest = 0 → normal_routes t →
  set_datas t id [(0%nat, shown_dest dest); (1%nat, iface); (2%nat, shown_gateway gw)] = Ret t' → normal_routes t'.
Proof.
  intros Hd (Hwf & D & rs & HD & Hs & Hn) E. destruct (decide (id ∈ map r_id (t_body t))) as [Hin|Hnin].
  - apply list_elem_of_fmap in Hin as (r & -> & (i & Hi)%list_elem_of_lookup).
    assert (Hlen : length (t_body t) = length D).
    { apply table_data_rows in HD; [|done]. apply (f_equal length) in HD. by rewrite !length_map in HD. }
    destruct (lookup_lt_is_Some_2 D i) as [ds Hds]; [rewrite <- Hlen; by eapply lookup_lt_Some|].
    destruct (Forall2_lookup_r _ _ _ _ _ Hs Hds) as (rt & Hrt & b & ->).
    destruct (set_datas_effect true false t D i r (route_data b rt) [(0%nat, shown_dest dest); (1%nat, iface); (2%nat, shown_gateway gw)])
      as (t1 & E1 & W1 & _ & D1); [done..|repeat (constructor; [by eexists|]); constructor|].
    rewrite E in E1. injection E1 as <-. split; [done|]. eexists _, (<[i := (shown_dest dest, iface, shown_gateway gw)]> rs).
    split; [exact D1|]. split.
    + apply Forall2_insert; [done|]. by exists b.
    + apply Forall_insert; [done|]. by apply shown_normal.
  - rewrite set_datas_absent in E.
    + injection E as <-. split; [done|]. eauto 10.
    + intros r Hr Eid. apply Hnin. subst. by apply list_elem_of_fmap_2.
Qed.

Lemma add_ok p p' : route_form (rt_doc p) → page_ok p → addStaticRoute UI rtgS p = Ret p' → page_ok p'.
Proof.
  intros Hf (t & Ht & Hn). unfold addStaticRoute. destruct (proofread_route _ Hf) as (errs & d & -> & Hv). cbn [exn_bind fst snd].
  destruct errs as [|x errs]; [|intros [= <-]; by exists t]. cbn [length Nat.eqb negb].
  unfold el, getElementById. destruct (elements d !! js "add_dest") as [e|] eqn:He; [|done]. cbn [exn_of_option exn_bind].
  destruct (getSelectedValue UI d (js "add_iface")) as [[iface d']|] eqn:Es; [|done]. cbn [exn_bind fst snd].
  assert (Hd' : elements d' = elements d).
  { unfold getSelectedValue in Es. destruct (getElementById d (js "add_iface")); [|by injection Es as _ <-].
    destruct (0 <=? _); [|by injection Es as _ <-]. destruct (selected_option _); [|done]. by injection Es as _ <-. }
  rewrite Hd'. destruct (elements d !! js "add_gateway") as [g|] eqn:Hg; [|done]. cbn [exn_of_option exn_bind].
  destruct (Hv eq_refl e g eq_refl eq_refl) as [Hve Hvg]. destruct iface as [iface|]; [|done]. cbn [route_row exn_of_option exn_bind].
  rewrite Ht. cbn [exn_of_option exn_bind]. intros [= <-]. eexists. split; [done|].
  rewrite (dest_in_row (value e)), gateway_in_row. by apply (add_normal t (value e) iface (value g)).
Qed.

Lemma edit_ok p p' id : route_form (rt_doc p) → page_ok p → editStaticRoute UI rtgS p id = Ret p' → page_ok p'.
Proof.
  intros Hf (t & Ht & Hn). unfold editStaticRoute. destruct (proofread_route _ Hf) as (errs & d & -> & Hv). cbn [exn_bind fst snd].
  destruct errs as [|x errs]; [|intros [= <-]; by exists t]. cbn [length Nat.eqb negb].
  unfold el, getElementById. destruct (elements d !! js "add_gateway") as [g|] eqn:Hg; [|done]. cbn [exn_of_option exn_bind].
  destruct (elements d !! js "add_dest") as [e|] eqn:He; [|done]. cbn [exn_of_option exn_bind].
  destruct (getSelectedValue UI d (js "add_iface")) as [[iface d']|] eqn:Es; [|done]. cbn [exn_bind fst snd].
  destruct (Hv eq_refl e g eq_refl eq_refl) as [Hve Hvg]. rewrite (dest_in_row (value e)), gateway_in_row, Ht. cbn [edit_cells].
  destruct (set_datas t id _) as [t'|] eqn:E; [|done]. cbn [exn_bind]. intros [= <-]. eexists. split; [done|].
  by eapply edit_normal.
Qed.

End steps.

(** Steps on the other table leave this one alone. *)
Lemma static6_static UI rtgS p p' :
  addStatic6Route UI rtgS p = Ret p' ∨ (∃ id, editStatic6Route UI rtgS p id = Ret p') → rt_static p' = rt_static p.
Proof.
  intros [E|[id E]]; revert E; unfold addStatic6Route, editStatic6Route, exn_bind, exn_of_option;
    repeat match goal with |- context [match ?x with _ => _ end] => destruct x end; try done; by intros [= <-].
Qed.

(** C18: however the static routes are used - rows added and edited through the
    checked fields, rows removed, fields changed, IPv6 routes changed - every row
    of the table stays a route in the form the page shows, so that saving and
    loading the table gives the same rows. *)
Theorem static_routes_stay_normal UI rtgS p p' : page_ok p → rtc (route_step UI rtgS) p p' → page_ok p'.
Proof.
  intros Hok. induction 1 as [|p p1 p2 Hs _ IH]; [done|]. apply IH. clear IH.
  destruct Hs as [p d|p p' Hf E|p p' id Hf E|p t t' i r Ht Hr E|p p' E|p p' id E].
  - done.
  - by eapply add_ok.
  - by eapply edit_ok.
  - destruct Hok as (t0 & Ht0 & Hwf & D & rs & HD & Hrs & Hn). rewrite Ht in Ht0. injection Ht0 as <-.
    destruct (removeRow_data true false t D i r Hwf HD Hr) as (t1 & E1 & W1 & D1). rewrite E in E1. injection E1 as <-.
    exists t'. split; [done|]. split; [done|]. eexists _, (delete i rs). split; [exact D1|]. split.
    + apply Forall2_fmap_r. eapply Forall2_impl; [by apply Forall2_delete|].
      intros x y [b ->]. by eexists.
    + by apply Forall_delete.
  - destruct Hok as (t & Ht & Hn). exists t. rewrite <- Ht. split; [|done]. eapply static6_static; eauto.
  - destruct Hok as (t & Ht & Hn). exists t. rewrite <- Ht. split; [|done]. eapply static6_static; eauto.
Qed.

(** ** Editing without a change *)
Section unchanged.
Context (UI rtgS : jstr → jstr).

(** The fields of the window: two texts, and a list that has the interface. *)
Record edit_window (d : document) (iface : jstr) : Prop := {
  ew_form : Forall (field_ready d) (route_fields RouteIPv4);
  ew_dest : ∃ e, elements d !! js "add_dest" = Some e ∧ is_select e = false;
  ew_gateway : ∃ e, elements d !! js "add_gateway" = Some e ∧ is_select e = false;
  ew_iface : ∃ e, elements d !! js "add_iface" = Some e ∧ is_select e = true ∧ iface ∈ map o_value (e_options e)
}.

Definition window_dest (dest : jstr) : jstr := if dest =s js "default" then js "0.0.0.0/0.0.0.0" else dest.
Definition window_gateway (gw : jstr) : jstr := if gw =s js "*" then js "0.0.0.0" else gw.

Lemma window_dest_shown dest : shown_dest dest = dest → shown_dest (window_dest dest) = dest.
Proof. intros H. unfold window_dest. destruct (dest =s js "default") eqn:E; [|done]. apply str_eqb_eq in E as ->. by vm_compute. Qed.

Lemma window_gateway_shown gw : shown_gateway gw = gw → shown_gateway (window_gateway gw) = gw.
Proof. intros H. unfold window_gateway. destruct (gw =s js "*") eqn:E; [|done]. by apply str_eqb_eq in E as ->. Qed.

Lemma set_value_color v c e : set_value v (set_color c e) = set_color c (set_value v e).
Proof. unfold set_value. change (is_select (set_color c e)) with (is_select e). by destruct (is_select e). Qed.

(** The list shows the interface it was set to. *)
Lemma set_value_selected d id e v : is_select e = true → v ∈ map o_value (e_options e) → elements d !! id = Some (set_value v e) →
  getSelectedValue UI d id = Ret (Some v, d).
Proof.
  intros Hs Hv He. unfold getSelectedValue, getElementById. rewrite He. unfold set_value. rewrite Hs.
  destruct (find_option (λ o, o_value o =s v) (e_options e) 0) as [j|] eqn:E.
  - pose proof (find_option_Some _ _ _ _ E) as H. change (default (-1) (Some j)) with j. unfold selected_option, set_selectedIndex, set_options. cbn [e_selectedIndex e_options].
    destruct H as (o & Hj & Ho & Hp & _). apply str_eqb_eq in Hp.
    rewrite (proj2 (Z.leb_le 0 j)) by lia. rewrite Z.sub_0_r in Ho. rewrite Ho. simpl. by rewrite Hp.
  - apply find_option_None in E. apply list_elem_of_fmap in Hv as (o & -> & Ho). rewrite Forall_forall in E.
    specialize (E o Ho). apply str_eqb_neq in E. done.
Qed.

Lemma window_filled d iface dest gw : edit_window d iface →
  let d1 := modalPrepare d [m_value (js "add_dest") dest; m_value (js "add_iface") iface; m_value (js "add_gateway") gw] in
  Forall (field_ready d1) (route_fields RouteIPv4) ∧
  (∃ e, elements d1 !! js "add_dest" = Some e ∧ value e = dest) ∧
  (∃ e, elements d1 !! js "add_gateway" = Some e ∧ value e = gw) ∧
  (∃ e, elements d1 !! js "add_iface" = Some (set_value iface e) ∧ is_select e = true ∧ iface ∈ map o_value (e_options e)).
Proof.
  intros [Hf (e1 & E1 & S1) (e2 & E2 & S2) (e3 & E3 & S3 & O3)] d1.
  assert (Hnd : NoDup (map me_id [m_value (js "add_dest") dest; m_value (js "add_iface") iface; m_value (js "add_gateway") gw])).
  { simpl. repeat (apply NoDup_cons; split; [set_solver|]). apply NoDup_nil_2. }
  assert (Hv : ∀ id v e, m_value id v ∈ [m_value (js "add_dest") dest; m_value (js "add_iface") iface; m_value (js "add_gateway") gw] →
    elements d !! id = Some e → elements d1 !! id = Some (set_value v e)).
  { intros id v e Hin He. unfold d1. by rewrite (modalPrepare_one d _ (m_value id v) e). }
  assert (F1 : elements d1 !! js "add_dest" = Some (set_value dest e1)) by (apply Hv; [set_solver|done]).
  assert (F2 : elements d1 !! js "add_gateway" = Some (set_value gw e2)) by (apply Hv; [set_solver|done]).
  assert (F3 : elements d1 !! js "add_iface" = Some (set_value iface e3)) by (apply Hv; [set_solver|done]).
  split_and!.
  - assert (Hl : ∀ id, id = js "add_dest_label" ∨ id = js "add_gateway_label" → elements d1 !! id = elements d !! id).
    { intros id Hid. apply modalPrepare_other. simpl. destruct Hid as [-> | ->]; set_solver. }
    inversion Hf as [|? ? (_ & L1 & _) Hf2]; subst. inversion Hf2 as [|? ? (_ & L2 & _) _]; subst. cbn in L1, L2.
    repeat constructor; cbn; try (by eexists); rewrite Hl by auto; done.
  - eexists. split; [exact F1|]. by apply value_set_text.
  - eexists. split; [exact F2|]. by apply value_set_text.
  - eauto.
Qed.

(** Opening the edit window of a static route and confirming it without a
    change leaves the data of the table as it was. *)
Theorem edit_route_unchanged p t D i r button rt :
  rt_static p = Some t → table_wf t → getTableDataArray t true false = Ret D →
  t_body t !! i = Some r → D !! i = Some (route_data button rt) → shown_route rt = rt → edit_window (rt_doc p) rt.1.2 →
  ∃ p1 p2 t2, editStaticModal p r = Ret p1 ∧ editStaticRoute UI rtgS p1 (r_id r) = Ret p2 ∧
    rt_static p2 = Some t2 ∧ getTableDataArray t2 true false = Ret D.
Proof.
  intros Ht Hwf HD Hr Hds Hn Hw. destruct rt as [[dest iface] gw]. injection Hn as Hnd Hng. cbn [fst snd] in *.
  pose proof (data_row true false t D i r _ Hwf HD Hr Hds) as Hrd.
  destruct (window_filled (rt_doc p) iface (window_dest dest) (window_gateway gw) Hw) as (Hf & (e1 & E1 & V1) & (e2 & E2 & V2) & (e3 & E3 & S3 & O3)).
  set (d1 := modalPrepare _ _) in *. exists (with_doc p d1).
  assert (Em : editStaticModal p r = Ret (with_doc p d1)).
  { unfold editStaticModal, cell_or_undefined.
    rewrite (get_data_row true false r 0 _ dest Hrd eq_refl), (get_data_row true false r 1 _ iface Hrd eq_refl), (get_data_row true false r 2 _ gw Hrd eq_refl). done. }
  rewrite Em. destruct (proofread_all UI (route_fields RouteIPv4) d1 [] Hf) as (errs & d2 & E & S & _).
  unfold editStaticRoute, proofreadStaticRoute, proofreadFields. cbn [rt_doc with_doc]. rewrite E. cbn [exn_bind fst snd app].
  destruct errs as [|x errs]; [|eexists _, t; by split_and!]. cbn [length Nat.eqb negb].
  destruct (same_lookup _ _ _ _ S E1) as [c1 F1], (same_lookup _ _ _ _ S E2) as [c2 F2], (same_lookup _ _ _ _ S E3) as [c3 F3].
  unfold el at 1 2, getElementById at 1 2. rewrite F1, F2. cbn [exn_of_option exn_bind]. rewrite !value_color, V1, V2.
  rewrite dest_in_row, gateway_in_row, window_dest_shown, window_gateway_shown by done.
  rewrite (set_value_selected d2 (js "add_iface") (set_color c3 e3) iface) by (done || by rewrite set_value_color).
  cbn [exn_bind fst snd default rt_static with_doc]. rewrite Ht. cbn [edit_cells].
  change (id iface) with iface.
  destruct (set_datas_effect true false t D i r _ [(0%nat, dest); (1%nat, iface); (2%nat, gw)] Hwf HD Hr Hds) as (t2 & E4 & _ & _ & D2);
    [repeat (constructor; [by eexists|]); constructor|].
  rewrite E4. cbn [exn_bind]. eexists _, t2. split_and!; [done|done|done|]. rewrite D2. f_equal. by apply list_insert_id.
Qed.

End unchanged.

(** ** A page to use *)
Definition sample_doc : document := mkDoc (list_to_map
  [(js "add_dest", input_el (js "10.20.30.40/12")); (js "add_dest_label", label_el (js "Destination:"));
   (js "add_gateway", input_el (js "10.0.0.1")); (js "add_gateway_label", label_el (js "Gateway:"));
   (js "add_iface", select_el [js "wan"; js "lan"])]) [].

Definition one_route (rt : route) : table := createTable (js "Remove") [] [route_data (mkWidget (js "button") [] false [] false) rt] (js "t") true false.
Definition sample_use : routing_page := mkRouting sample_doc Uci.new None None (Some (one_route (js "default", js "wan", js "10.0.0.1"))) None.

Lemma sample_use_wf rt : table_wf (one_route rt).
Proof. unfold one_route, createTable. apply createTable_rows. constructor; [by left|constructor]. Qed.

Lemma static_routes_stay_normal_witness : ∃ p, addStaticRoute (λ s, s) (λ s, s) sample_use = Ret p ∧ page_ok p.
Proof.
  eexists. split; [vm_compute; reflexivity|]. apply (static_routes_stay_normal (λ s, s) (λ s, s) sample_use).
  - exists (one_route (js "default", js "wan", js "10.0.0.1")). split; [reflexivity|]. split; [apply sample_use_wf|].
    eexists _, [(js "default", js "wan", js "10.0.0.1")]. split; [vm_compute; reflexivity|]. split.
    + constructor; [by eexists|constructor].
    + constructor; [vm_compute; reflexivity|constructor].
  - apply rtc_once, rs_add; [|vm_compute; reflexivity]. repeat constructor; try (eexists; vm_compute; reflexivity);
      try (eexists _, _; vm_compute; split; reflexivity); vm_compute; reflexivity.
Defined.

Lemma edit_route_unchanged_witness : ∃ p1 p2 t2,
  editStaticModal sample_use (default (mkRow 0 [] [] []) (head (t_body (one_route (js "default", js "wan", js "10.0.0.1"))))) = Ret p1 ∧
  editStaticRoute (λ s, s) (λ s, s) p1 0 = Ret p2 ∧ rt_static p2 = Some t2 ∧
  getTableDataArray t2 true false = Ret [route_data (mkWidget (js "button") [] false [] false) (js "default", js "wan", js "10.0.0.1")].
Proof.
  apply (edit_route_unchanged (λ s, s) (λ s, s) sample_use (one_route (js "default", js "wan", js "10.0.0.1"))
    [route_data (mkWidget (js "button") [] false [] false) (js "default", js "wan", js "10.0.0.1")] 0
    (default (mkRow 0 [] [] []) (head (t_body (one_route (js "default", js "wan", js "10.0.0.1")))))
    (mkWidget (js "button") [] false [] false) (js "default", js "wan", js "10.0.0.1")).
  - reflexivity.
  - apply sample_use_wf.
  - vm_compute. reflexivity.
  - vm_compute. reflexivity.
  - reflexivity.
  - vm_compute. reflexivity.
  - split.
    + repeat constructor; try (eexists; vm_compute; reflexivity); eexists _, _; vm_compute; split; reflexivity.
    + eexists. split; vm_compute; reflexivity.
    + eexists. split; vm_compute; reflexivity.
    + eexists. split; [vm_compute; reflexivity|]. split; [vm_compute; reflexivity|]. set_solver.
Defined.

(** The window that edits an IPv6 route is filled through the identifiers of the
    IPv4 window: its own fields keep what they held. *)
Theorem edit6_window_not_filled p p' r id : editStatic6Modal p r = Ret p' →
  id ∈ [js "add_dest6"; js "add_iface6"; js "add_gateway6"] → elements (rt_doc p') !! id = elements (rt_doc p) !! id.
Proof.
  unfold editStatic6Modal. destruct (cell_or_undefined r 0), (cell_or_undefined r 1), (cell_or_undefined r 2); try done.
  cbn [exn_bind]. intros H Hid.
  apply (f_equal (λ m, match m with Ret q => elements (rt_doc q) !! id | Raise _ => None end)) in H. rewrite <- H. cbn [rt_doc with_doc].
  apply modalPrepare_other. simpl. set_solver.
Qed.
