(* ===== verification/PortForward.v ===== *)
(** * The port forwarding page (port_forwarding.js)

    The page has four tables of rules: ports and ranges of ports forwarded to a
    host of the LAN, and ports and ranges opened for IPv6.  The state holds the
    document, the saved configuration, the tables in their containers, and what
    the global variable [portfRangeTable] refers to.  The requests are not
    represented; the answer to the one for the UPnP redirections is an argument
    of [upnp_answer].  The options of the sections are single values: on a list
    the string methods and the tables throw. *)
From S2P Require Import Prelude JsNum JsString JsRegex Uci Sections Ip4 Validate Ip6 Table TableEdit Dom Modal Ports.
Import Uci Validate Ip6 Table TableEdit Dom Modal Sections Ports.
Import Ip4(nth_str).
Open Scope Z_scope.

(** The global [portfRangeTable], which [addPortfRangeRule] assigns: never
    assigned, the table in the container, or one that has been replaced. *)
Inductive table_ref := Unassigned | Current | Stale (t : table).

Record forward_page := mkForward {
  fw_doc : document;
  fw_uci : UCIContainer;             (** [uciOriginal] *)
  fw_single : option table;          (** [portf_table_container] *)
  fw_range : option table;           (** [portfrange_table_container] *)
  fw_open : option table;            (** [porto_table_container] *)
  fw_open_range : option table;      (** [portorange_table_container] *)
  fw_upnp : option table;            (** [upnp_table_container] *)
  fw_ref : table_ref
}.

Module PortForward.

Definition with_doc (p : forward_page) (d : document) : forward_page :=
  mkForward d (fw_uci p) (fw_single p) (fw_range p) (fw_open p) (fw_open_range p) (fw_upnp p) (fw_ref p).
Definition with_single (p : forward_page) (t : option table) : forward_page :=
  mkForward (fw_doc p) (fw_uci p) t (fw_range p) (fw_open p) (fw_open_range p) (fw_upnp p) (fw_ref p).
Definition with_range (p : forward_page) (t : option table) (r : table_ref) : forward_page :=
  mkForward (fw_doc p) (fw_uci p) (fw_single p) t (fw_open p) (fw_open_range p) (fw_upnp p) r.
Definition with_open (p : forward_page) (t : option table) : forward_page :=
  mkForward (fw_doc p) (fw_uci p) (fw_single p) (fw_range p) t (fw_open_range p) (fw_upnp p) (fw_ref p).
Definition with_open_range (p : forward_page) (t : option table) : forward_page :=
  mkForward (fw_doc p) (fw_uci p) (fw_single p) (fw_range p) (fw_open p) t (fw_upnp p) (fw_ref p).
Definition with_upnp (p : forward_page) (t : option table) : forward_page :=
  mkForward (fw_doc p) (fw_uci p) (fw_single p) (fw_range p) (fw_open p) (fw_open_range p) t (fw_ref p).

(** [rowData[i]*1]; anything but text of a number is NaN. *)
Definition datum_num (rowData : list datum) (i : nat) : num :=
  match rowData !! i with Some (DStr s) => toNumber s | _ => NaN end.

Section ui.
(** The strings of the language packs [UI] and [prtS]. *)
Variables UI prtS : jstr → jstr.

Definition both : jstr := UI (js "both").

(** ** Validation *)

(** [addProtocol == rowData[1] || addProtocol == UI.both || rowData[1] == UI.both] *)
Definition protocols_meet (addProtocol : jstr) (rowData : list datum) : bool :=
  datum_is rowData 1 addProtocol || (addProtocol =s both) || datum_is rowData 1 both.

(** One message for each row that satisfies the test, but the excluded one. *)
Definition clashes (t : table) (excludeRow : option (option nat)) (clash : list datum → bool) (msg : jstr) : exn (list jstr) :=
  let! data := getTableDataArray t true false in
  Ret (concat (imap (fun i rowData =>
    if match excludeRow with Some ex => not_excluded t i ex | None => true end
    then (if clash rowData then [msg] else []) else []) data)).

Definition own_field (id : jstr) (check : jstr → Z) : field := mkField id (id ++ js "_label") check 0 (Some id).

Definition proofreadForwardRange (p : forward_page) (excludeRow : option nat) : exn (list jstr * document) :=
  let! r := proofreadFields UI (fw_doc p)
              [own_field (js "addr_sp") validateNumeric; own_field (js "addr_ep") validateNumeric; own_field (js "addr_ip") validateIP] in
  let d := snd r in
  if negb (length (fst r) =? 0)%nat then Ret r
  else
    let! sp := el d (js "addr_sp") in
    let! ep := el d (js "addr_ep") in
    let! t := exn_of_option TypeError (fw_single p) in
    let! prot := el d (js "addr_prot") in
    let addStartPort := toNumber (value sp) in
    let addEndPort := toNumber (value ep) in
    let errors := if Num.gtb addStartPort addEndPort then [prtS (js "GTErr")] else [] in
    let! single := clashes t None (fun rowData =>
      protocols_meet (value prot) rowData && Num.leb addStartPort (datum_num rowData 2) && Num.leb (datum_num rowData 2) addEndPort)
      (prtS (js "DupErr")) in
    let! tr := exn_of_option TypeError (fw_range p) in
    let! range := clashes tr (Some excludeRow) (fun rowData =>
      protocols_meet (value prot) rowData && Num.leb (datum_num rowData 2) addEndPort && Num.leb addStartPort (datum_num rowData 3))
      (prtS (js "DupErr")) in
    Ret (errors ++ single ++ range, d).

Definition proofreadForwardSingle (p : forward_page) (excludeRow : option nat) : exn (list jstr * document) :=
  let! dp := el (fw_doc p) (js "add_dp") in
  let! r := proofreadFields UI (fw_doc p)
              ([own_field (js "add_fp") validateNumeric; own_field (js "add_ip") validateIP]
               ++ (if 0 <? zlen (value dp) then [own_field (js "add_dp") validateNumeric] else [])) in
  let d := snd r in
  if negb (length (fst r) =? 0)%nat then Ret r
  else
    let! t := exn_of_option TypeError (fw_single p) in
    let! fp := el d (js "add_fp") in
    let! prot := el d (js "add_prot") in
    let! single := clashes t (Some excludeRow) (fun rowData => protocols_meet (value prot) rowData && datum_is rowData 2 (value fp))
      (prtS (js "CopErr")) in
    let! tr := exn_of_option TypeError (fw_range p) in
    let addPort := toNumber (value fp) in
    let! range := clashes tr None (fun rowData =>
      protocols_meet (value prot) rowData && Num.leb (datum_num rowData 2) addPort && Num.leb addPort (datum_num rowData 3))
      (prtS (js "CopErr")) in
    Ret (single ++ range, d).

Definition proofreadOpenSingle (p : forward_page) (excludeRow : option nat) : exn (list jstr * document) :=
  let! r := proofreadFields UI (fw_doc p) [own_field (js "addo_dp") validateNumeric; own_field (js "addo_ip") validateIP6Range] in
  let d := snd r in
  if negb (length (fst r) =? 0)%nat then Ret r
  else
    let! t := exn_of_option TypeError (fw_open p) in
    let! dp := el d (js "addo_dp") in
    let! prot := el d (js "addo_prot") in
    let! ip := el d (js "addo_ip") in
    let addIP := ip6_canonical (value ip) in
    let! single := clashes t (Some excludeRow) (fun rowData =>
      protocols_meet (value prot) rowData && datum_is rowData 3 (value dp) && datum_is rowData 2 addIP) (prtS (js "CopOErr")) in
    let! tr := exn_of_option TypeError (fw_open_range p) in
    let addPort := toNumber (value dp) in
    let! range := clashes tr None (fun rowData =>
      protocols_meet (value prot) rowData && Num.leb (datum_num rowData 2) addPort && Num.leb addPort (datum_num rowData 3)
      && datum_is rowData 4 addIP) (prtS (js "CopOErr")) in
    Ret (single ++ range, d).

Definition proofreadOpenRange (p : forward_page) (excludeRow : option nat) : exn (list jstr * document) :=
  let! r := proofreadFields UI (fw_doc p)
              [own_field (js "addor_sp") validateNumeric; own_field (js "addor_ep") validateNumeric; own_field (js "addor_ip") validateIP6Range] in
  let d := snd r in
  if negb (length (fst r) =? 0)%nat then Ret r
  else
    let! sp := el d (js "addor_sp") in
    let! ep := el d (js "addor_ep") in
    let! t := exn_of_option TypeError (fw_open p) in
    let! prot := el d (js "addor_prot") in
    let! ip := el d (js "addor_ip") in
    let addIP := ip6_canonical (value ip) in
    let addStartPort := toNumber (value sp) in
    let addEndPort := toNumber (value ep) in
    let errors := if Num.gtb addStartPort addEndPort then [prtS (js "GTErr")] else [] in
    let! single := clashes t None (fun rowData =>
      protocols_meet (value prot) rowData && Num.leb addStartPort (datum_num rowData 3) && Num.leb (datum_num rowData 3) addEndPort
      && datum_is rowData 2 addIP) (prtS (js "DupOErr")) in
    let! tr := exn_of_option TypeError (fw_open_range p) in
    let! range := clashes tr (Some excludeRow) (fun rowData =>
      protocols_meet (value prot) rowData && Num.leb (datum_num rowData 2) addEndPort && Num.leb addStartPort (datum_num rowData 3)
      && datum_is rowData 4 addIP) (prtS (js "DupOErr")) in
    Ret (errors ++ single ++ range, d).

Definition proofreadAll (d : document) : exn (list jstr * document) :=
  proofreadFields UI d [own_field (js "dmz_ip") validateIP; own_field (js "upnp_up") validateNumeric; own_field (js "upnp_down") validateNumeric].

(** ** Adding rules *)
Definition createEditButton : widget := mkWidget (js "button") (UI (js "Edit")) false (js "btn btn-default btn-edit") false.
Definition checkbox (checked : bool) : widget := mkWidget (js "checkbox") [] false [] checked.

(** The loop that reads the fields; those of text are emptied. *)
Definition read_fields (canonical_id : jstr) (d : document) (ids : list jstr) : exn (list jstr * document) :=
  exn_fold (fun '(values, d) id =>
    let! e := el d id in
    let v := or_dash (value e) in
    let v := if id =s canonical_id then ip6_canonical v else v in
    Ret (values ++ [v], if e_type e =s js "text" then put d id (set_value [] e) else d)) ids ([], d).

Definition otherProto (proto : jstr) : jstr := if proto =s js "TCP" then js "UDP" else js "TCP".

(** [otherProto == rowData[1] && values[2] == rowData[2] && ...], on [columns]. *)
Definition same_rule (columns : list nat) (values : list jstr) (rowData : list datum) : bool :=
  datum_is rowData 1 (otherProto (nth_str values 1)) && forallb (fun c => datum_is rowData c (nth_str values c)) columns.

(** The description of the new rule replaces a blank one. *)
Definition merge_name (values : list jstr) (t : table) (i : nat) (rowData : list datum) : exn table :=
  if negb (nth_str values 0 =s js "-") && datum_is rowData 0 (js "-") then set_cell_at t (S i) 0 (nth_str values 0) else Ret t.

(** The loop over the rows: the table, and whether a row was merged. *)
Definition merge_rules (columns : list nat) (values : list jstr) (t : table) : exn (table * bool) :=
  let! data := getTableDataArray t true false in
  exn_fold (fun '(t, merged) '(i, rowData) =>
    if same_rule columns values rowData then
      let! t := set_cell_at t (S i) 1 both in
      let! t := merge_name values t i rowData in
      Ret (t, true)
    else Ret (t, merged)) (imap (fun i r => (i, r)) data) (t, false).

Definition new_row (values : list jstr) : list datum := map DStr values ++ [DObj (checkbox true); DObj createEditButton].

(** The table after the rule was merged, or else added. *)
Definition merge_or_add (columns : list nat) (values : list jstr) (t : table) : exn table :=
  let! m := merge_rules columns values t in
  Ret (if snd m then fst m else addTableRow (UI (js "Remove")) (fst m) (new_row values) true false).

Definition alert_errors (d : document) (errors : list jstr) (msg : jstr) : document :=
  alert d (join newline errors ++ newline ++ newline ++ prtS msg).

Definition addPortfRule (p : forward_page) : exn forward_page :=
  let! r := proofreadForwardSingle p None in
  if negb (length (fst r) =? 0)%nat then Ret (with_doc p (alert_errors (snd r) (fst r) (js "AFRErr")))
  else
    let! v := read_fields [] (snd r) [js "add_desc"; js "add_prot"; js "add_fp"; js "add_ip"; js "add_dp"] in
    let values := if nth_str (fst v) 4 =s js "-" then <[4%nat := nth_str (fst v) 2]> (fst v) else fst v in
    let! t := exn_of_option TypeError (fw_single p) in
    let! t := merge_or_add [2%nat; 3%nat; 4%nat] values t in
    Ret (with_single (with_doc p (snd v)) (Some t)).

Definition addPortfRangeRule (p : forward_page) : exn forward_page :=
  let! r := proofreadForwardRange p None in
  if negb (length (fst r) =? 0)%nat then Ret (with_doc p (alert_errors (snd r) (fst r) (js "AFRErr")))
  else
    let! v := read_fields [] (snd r) [js "addr_desc"; js "addr_prot"; js "addr_sp"; js "addr_ep"; js "addr_ip"] in
    let! t := exn_of_option TypeError (fw_range p) in
    let! t := merge_or_add [2%nat; 3%nat; 4%nat] (fst v) t in
    Ret (with_range (with_doc p (snd v)) (Some t) Current).

Definition addPortoRule (p : forward_page) : exn forward_page :=
  let! r := proofreadOpenSingle p None in
  if negb (length (fst r) =? 0)%nat then Ret (with_doc p (alert_errors (snd r) (fst r) (js "AORErr")))
  else
    let! v := read_fields (js "addo_ip") (snd r) [js "addo_desc"; js "addo_prot"; js "addo_ip"; js "addo_dp"] in
    let! t := exn_of_option TypeError (fw_open p) in
    let! t := merge_or_add [2%nat; 3%nat] (fst v) t in
    Ret (with_open (with_doc p (snd v)) (Some t)).

(** [portfRangeTable.rows[i].childNodes[1].firstChild.data = UI.both] on the
    global variable. *)
Definition set_ref_both (range : option table) (ref : table_ref) (i : nat) : exn (option table * table_ref) :=
  match ref with
  | Unassigned => Raise ReferenceError
  | Current => let! t := exn_of_option TypeError range in let! t := set_cell_at t i 1 both in Ret (Some t, Current)
  | Stale t => let! t := set_cell_at t i 1 both in Ret (range, Stale t)
  end.

(** The loop of [addPortoRangeRule], which writes the protocol into the table of
    forwarded ranges. *)
Definition merge_open_range (values : list jstr) (range : option table) (ref : table_ref) (t : table)
    : exn (option table * table_ref * table * bool) :=
  let! data := getTableDataArray t true false in
  exn_fold (fun '(range, ref, t, merged) '(i, rowData) =>
    if same_rule [2%nat; 3%nat; 4%nat] values rowData then
      let! rr := set_ref_both range ref (S i) in
      let! t := merge_name values t i rowData in
      Ret (fst rr, snd rr, t, true)
    else Ret (range, ref, t, merged)) (imap (fun i r => (i, r)) data) (range, ref, t, false).

Definition addPortoRangeRule (p : forward_page) : exn forward_page :=
  let! r := proofreadOpenRange p None in
  if negb (length (fst r) =? 0)%nat then Ret (with_doc p (alert_errors (snd r) (fst r) (js "AORErr")))
  else
    let! v := read_fields (js "addor_ip") (snd r) [js "addor_desc"; js "addor_prot"; js "addor_sp"; js "addor_ep"; js "addor_ip"] in
    let! t := exn_of_option TypeError (fw_open_range p) in
    let! m := merge_open_range (fst v) (fw_range p) (fw_ref p) t in
    let '(range, ref, t, merged) := m in
    let t := if merged then t else addTableRow (UI (js "Remove")) t (new_row (fst v)) true false in
    Ret (with_open_range (with_range (with_doc p (snd v)) range ref) (Some t)).

(** ** Editing rules *)

(** The fields of the window of a table of forwarded ([o] empty) or opened ports. *)
Definition field_id (o : jstr) (isSingle : bool) (name : jstr) : jstr :=
  js "add" ++ o ++ (if isSingle then [] else js "r") ++ js "_" ++ name.

Definition columns_of (isOpen isSingle : bool) : list jstr :=
  if isSingle then (if isOpen then [js "ip"; js "dp"] else [js "fp"; js "ip"; js "dp"]) else [js "sp"; js "ep"; js "ip"].

(** The values written to the cells: description, protocol, then the columns. *)
Definition edit_values (d : document) (isOpen isSingle : bool) : exn (list (nat * jstr) * document) :=
  let id := field_id (if isOpen then js "o" else []) isSingle in
  let! desc := el d (id (js "desc")) in
  let! prot := getSelectedValue UI d (id (js "prot")) in
  let d := snd prot in
  let! values := exn_map (fun c => let! e := el d (id c) in Ret (value e)) (columns_of isOpen isSingle) in
  Ret ([(0%nat, value desc); (1%nat, default (js "undefined") (fst prot))] ++ imap (fun i v => ((i + 2)%nat, v)) values, d).

Definition alert_update (d : document) (errors : list jstr) : document :=
  alert d (join newline errors ++ newline ++ prtS (js "UpErr")).

Definition editForward (p : forward_page) (isSingle : bool) (editRow : nat) : exn forward_page :=
  let! r := (if isSingle then proofreadForwardSingle p (Some editRow) else proofreadForwardRange p (Some editRow)) in
  if negb (length (fst r) =? 0)%nat then Ret (with_doc p (alert_update (snd r) (fst r)))
  else
    let! v := edit_values (snd r) false isSingle in
    let p' := with_doc p (snd v) in
    if isSingle then let! t := edit_cells (fw_single p) editRow (fst v) in Ret (with_single p' t)
    else let! t := edit_cells (fw_range p) editRow (fst v) in Ret (with_range p' t (fw_ref p)).

Definition editOpen (p : forward_page) (isSingle : bool) (editRow : nat) : exn forward_page :=
  let! r := (if isSingle then proofreadOpenSingle p (Some editRow) else proofreadOpenRange p (Some editRow)) in
  if negb (length (fst r) =? 0)%nat then Ret (with_doc p (alert_update (snd r) (fst r)))
  else
    let! v := edit_values (snd r) true isSingle in
    let p' := with_doc p (snd v) in
    if isSingle then let! t := edit_cells (fw_open p) editRow (fst v) in Ret (with_open p' t)
    else let! t := edit_cells (fw_open_range p) editRow (fst v) in Ret (with_open_range p' t).

(** *** Windows *)
Definition addPortFModal (p : forward_page) (isSingle : bool) : forward_page :=
  let id := field_id [] isSingle in
  with_doc p (modalPrepare (fw_doc p)
    ([m_value (id (js "desc")) []; m_value (id (js "prot")) (js "both"); m_value (id (js "ip")) []]
     ++ (if isSingle then [m_value (js "add_fp") []; m_value (js "add_dp") []]
         else [m_value (js "addr_sp") []; m_value (js "addr_ep") []]))).

Definition addPortOModal (p : forward_page) (isSingle : bool) : forward_page :=
  let id := field_id (js "o") isSingle in
  with_doc p (modalPrepare (fw_doc p)
    ([m_value (id (js "desc")) []; m_value (id (js "prot")) (js "both"); m_value (id (js "ip")) []]
     ++ (if isSingle then [m_value (js "addo_dp") []] else [m_value (js "addor_sp") []; m_value (js "addor_ep") []]))).

Definition editPortFModal (p : forward_page) (isSingle : bool) (editRow : row) : exn forward_page :=
  let id := field_id [] isSingle in
  let! desc := get_data editRow 0 in
  let! prot := get_data editRow 1 in
  let! c2 := get_data editRow 2 in
  let! c3 := get_data editRow 3 in
  let! c4 := get_data editRow 4 in
  let ip := if isSingle then c3 else c4 in
  Ret (with_doc p (modalPrepare (fw_doc p)
    ([m_optional (id (js "desc")) desc; m_optional (id (js "prot")) prot; m_optional (id (js "ip")) ip]
     ++ (if isSingle then [m_optional (js "add_fp") c2; m_optional (js "add_dp") c4]
         else [m_optional (js "addr_sp") c2; m_optional (js "addr_ep") c3])))).

Definition editPortOModal (p : forward_page) (isSingle : bool) (editRow : row) : exn forward_page :=
  let id := field_id (js "o") isSingle in
  let! desc := get_data editRow 0 in
  let! prot := get_data editRow 1 in
  let! c2 := get_data editRow 2 in
  let! c3 := get_data editRow 3 in
  let! rest := (if isSingle then Ret [m_optional (js "addo_ip") c2; m_optional (js "addo_dp") c3]
                else let! c4 := get_data editRow 4 in
                     Ret [m_optional (js "addor_sp") c2; m_optional (js "addor_ep") c3; m_optional (js "addor_ip") c4]) in
  Ret (with_doc p (modalPrepare (fw_doc p) ([m_optional (id (js "desc")) desc; m_optional (id (js "prot")) prot] ++ rest))).

(** ** Loading *)
Definition str_opt (u : UCIContainer) (section option : jstr) : exn jstr :=
  match get u (js "firewall") section option with UStr s => Ret s | UArr _ => Raise TypeError end.

(** The rows of one table, and the index of the row of a rule: protocol and
    [hashStr], the last rule stored first. *)
Record scan := mkScan { sc_rows : list (list datum); sc_hash : list (jstr * jstr * nat) }.

Fixpoint find_hash (h : list (jstr * jstr * nat)) (proto hashStr : jstr) : option nat :=
  match h with
  | [] => None
  | (p, s, i) :: h' => if (p =s proto) && (s =s hashStr) then Some i else find_hash h' proto hashStr
  end.

(** The same rule with the other protocol becomes a rule for both. *)
Definition scan_rule (sc : scan) (proto hashStr : jstr) (rowData : list datum) : scan :=
  match find_hash (sc_hash sc) (if proto =s js "tcp" then js "udp" else js "tcp") hashStr with
  | Some i => mkScan (alter (fun r => <[1%nat := DStr both]> r) i (sc_rows sc)) (sc_hash sc)
  | None => mkScan (sc_rows sc ++ [rowData]) ((proto, hashStr, length (sc_rows sc)) :: sc_hash sc)
  end.

(** The tables of single ports and of ranges. *)
Definition scan_redirect (u : UCIContainer) (sectionType : jstr) (st : scan * scan) (rId : jstr) : exn (scan * scan) :=
  let! name := str_opt u rId (js "name") in
  let name := or_dash name in
  let! proto := str_opt u rId (js "proto") in
  let proto := toLowerCase proto in
  let! srcdport := str_opt u rId (js "src_dport") in
  let! destip := str_opt u rId (js "dest_ip") in
  let! destport := str_opt u rId (js "dest_port") in
  Ret (if (srcdport =s []) && (destport =s []) && (sectionType =s js "redirect") then st
       else if (proto =s js "tcp") || (proto =s js "udp") then
         let controls := [DObj (checkbox (sectionType =s js "redirect")); DObj createEditButton] in
         let destport := if destport =s [] then srcdport else destport in
         let hashStr := name ++ js "-" ++ srcdport ++ js "-" ++ destip ++ js "-" ++ destport in
         if test Ip4.re_dash srcdport then
           let splitPorts := split_re Ip4.re_dash srcdport in
           (fst st, scan_rule (snd st) proto hashStr
              ([DStr name; DStr (toUpperCase proto); DStr (nth_str splitPorts 0); DStr (nth_str splitPorts 1); DStr destip] ++ controls))
         else
           (scan_rule (fst st) proto hashStr
              ([DStr name; DStr (toUpperCase proto); DStr srcdport; DStr destip; DStr destport] ++ controls), snd st)
       else st).

Definition re_portopen : re := Eval vm_compute in rx "^portopen_rule_(en|dis)abled".

Definition scan_open (u : UCIContainer) (sectionType : jstr) (st : scan * scan) (poId : jstr) : exn (scan * scan) :=
  if negb (test re_portopen poId) then Ret st
  else
    let! name := str_opt u poId (js "name") in
    let name := or_dash name in
    let! proto := str_opt u poId (js "proto") in
    let proto := toLowerCase proto in
    let! destip := str_opt u poId (js "dest_ip") in
    let! destport := str_opt u poId (js "dest_port") in
    Ret (if (proto =s js "tcp") || (proto =s js "udp") then
           let controls := [DObj (checkbox (sectionType =s js "rule")); DObj createEditButton] in
           let hashStr := name ++ js "-" ++ destip ++ js "-" ++ destport in
           if test Ip4.re_dash destport then
             let splitPorts := split_re Ip4.re_dash destport in
             (fst st, scan_rule (snd st) proto hashStr
                ([DStr name; DStr (toUpperCase proto); DStr (nth_str splitPorts 0); DStr (nth_str splitPorts 1); DStr destip] ++ controls))
           else
             (scan_rule (fst st) proto hashStr
                ([DStr name; DStr (toUpperCase proto); DStr destip; DStr destport] ++ controls), snd st)
         else st).

(** The sections of the two types, in turn. *)
Definition scan_sections (step : UCIContainer → jstr → scan * scan → jstr → exn (scan * scan)) (types : list jstr) (u : UCIContainer)
    : exn (scan * scan) :=
  exn_fold (fun st sectionType =>
    let! sections := getAllSectionsOfType u (js "firewall") sectionType in
    exn_fold (step u sectionType) sections st) types (mkScan [] [], mkScan [] []).

Definition load_forwards (u : UCIContainer) : exn (scan * scan) := scan_sections scan_redirect [js "redirect"; js "redirect_disabled"] u.
Definition load_opens (u : UCIContainer) : exn (scan * scan) := scan_sections scan_open [js "rule"; js "rule_disabled"] u.

Definition single_columns : list datum :=
  map DStr [prtS (js "Desc"); prtS (js "Proto"); prtS (js "FPrt"); prtS (js "TIP"); prtS (js "TPrt"); UI (js "Enabled"); []].
Definition range_columns : list datum :=
  map DStr [prtS (js "Desc"); prtS (js "Proto"); prtS (js "SPrt"); prtS (js "EPrt"); prtS (js "TIP"); UI (js "Enabled"); []].
Definition open_columns : list datum :=
  map DStr [prtS (js "Desc"); prtS (js "Proto"); js "IP"; prtS (js "Port"); UI (js "Enabled"); []].
Definition upnp_columns : list datum := map DStr [prtS (js "Prot"); prtS (js "LHst"); prtS (js "Port"); prtS (js "EPort")].

Definition clear_ids : list jstr :=
  [js "add_desc"; js "add_fp"; js "add_ip"; js "add_dp"; js "addr_desc"; js "addr_sp"; js "addr_ep"; js "addr_ip"].

Definition setUpnpEnabled (d : document) : exn document :=
  let! up := el d (js "upnp_up") in
  let! d := enableAssociatedField d (js "upnp_enabled") (js "upnp_up") (value up) in
  let! down := el d (js "upnp_down") in
  enableAssociatedField d (js "upnp_enabled") (js "upnp_down") (value down).

Definition setDmzEnabled (d : document) : exn document :=
  let! ip := el d (js "dmz_ip") in enableAssociatedField d (js "dmz_enabled") (js "dmz_ip") (value ip).

Definition re_last_part : re := Eval vm_compute in rx "\.[^\.]*$".

(** The address proposed for the DMZ, next to the router's. *)
Definition defaultDmz (currentLanIp : jstr) : jstr :=
  let lanIpEnd := parseInt (nth_str (split_char 46 currentLanIp) 3) in
  let lanIpEnd := if Num.geb lanIpEnd (Int 254) then Num.sub lanIpEnd (Int 1) else Num.add lanIpEnd (Int 1) in
  nth_str (split_re re_last_part currentLanIp) 0 ++ js "." ++ int_toString 10 lanIpEnd.

Definition load_dmz (u : UCIContainer) (currentLanIp : jstr) (d : document) : exn document :=
  let! dmzSections := getAllSectionsOfType u (js "firewall") (js "dmz") in
  let! d := update d (js "dmz_enabled") (set_checked (0 <? zlen dmzSections)) in
  let! d := update d (js "dmz_ip") (set_value (match dmzSections with
                                               | s :: _ => gets u (js "firewall") s (js "to_ip")
                                               | [] => defaultDmz currentLanIp
                                               end)) in
  setDmzEnabled d.

Definition load_upnp (u : UCIContainer) (haveUpnpd upnpdEnabled : bool) (d : document) : exn document :=
  let! d := update d (js "upnp_no_miniupnpd") (set_display (if haveUpnpd then js "none" else js "block")) in
  let! d := update d (js "upnp_enabled") (set_disabled (negb haveUpnpd)) in
  let! d := update d (js "upnp_enabled") (set_checked upnpdEnabled) in
  let speed opt := let v := gets u (js "upnpd") (js "config") opt in if v =s [] then js "1250" else v in
  let! d := update d (js "upnp_up") (set_value (speed (js "upload"))) in
  let! d := update d (js "upnp_down") (set_value (speed (js "download"))) in
  let! d := setUpnpEnabled d in
  initializeDescriptionVisibility UI None None None d u (js "upnp_help").

Definition blank_upnp : list (list datum) := [map DStr [js "***"; js "***********"; js "*****"; js "*****"]].
Definition upnp_table (rows : list (list datum)) : table := createTable (UI (js "Remove")) upnp_columns rows (js "upnp_table") false false.

(** The saved configuration loses its section of help texts; the table of UPnP
    redirections waits for its answer when the service runs.  A global
    reference to the table of ranges is left to the one that is replaced. *)
Definition resetData (currentLanIp : jstr) (haveUpnpd upnpdEnabled : bool) (p : forward_page) : exn forward_page :=
  let table_of columns sc id := Some (createTable (UI (js "Remove")) columns (sc_rows sc) id true false) in
  let u := fw_uci p in
  let! forwards := load_forwards u in
  let! d := exn_fold (fun d id => update d id (set_value [])) clear_ids (fw_doc p) in
  let! d := load_dmz u currentLanIp d in
  let! d := load_upnp u haveUpnpd upnpdEnabled d in
  let! u := removeSection u (js "gargoyle") (js "help") in
  let! opens := load_opens u in
  Ret (mkForward d u
    (table_of single_columns (fst forwards) (js "portf_table")) (table_of range_columns (snd forwards) (js "portf_range_table"))
    (table_of open_columns (fst opens) (js "porto_table")) (table_of range_columns (snd opens) (js "porto_range_table"))
    (if upnpdEnabled then fw_upnp p else Some (upnp_table blank_upnp))
    (match fw_ref p, fw_range p with Current, Some t => Stale t | r, _ => r end)).

(** *** The answer to [update_upnp] *)
Definition re_upnp4 : re := Eval vm_compute in ignore_case
  (rx "iif \x22.*\x22 @nh,72,8 0x([0-9A-F]+) th dport ([0-9]+) dnat ip to ([0-9]{1,3}\.[0-9]{1,3}\.[0-9]{1,3}\.[0-9]{1,3}):([0-9]+)").
Definition re_upnp6 : re := Eval vm_compute in ignore_case
  (rx "iif \x22.*\x22 th dport ([0-9]+) th sport ([0-9]+) @nh,192,128 0x([0-9A-F]+) @nh,64,128 0x0 @nh,48,8 0x([0-9A-F]+)").
Definition re_four : re := Eval vm_compute in rx ".{4}".

Definition upnp_proto (s : jstr) : jstr := if s =s js "6" then js "TCP" else js "UDP".

(** The length of a missing match throws; a match always has five parts.  Text of
    fewer than four characters has no match to count. *)
Definition upnp_line (line : jstr) : exn (list (list datum)) :=
  if contains line (js "dnat") then
    let! m := exn_of_option TypeError (exec re_upnp4 line) in
    Ret [map DStr [upnp_proto (group 1 m); group 3 m; group 4 m; group 2 m]]
  else if contains line (js "@nh,192,128") then
    let! m := exn_of_option TypeError (exec re_upnp6 line) in
    let ip6 := match_all re_four (group 3 m) in
    if (length ip6 =? 0)%nat then Raise TypeError
    else Ret (if (length ip6 =? 8)%nat
              then [map DStr [upnp_proto (group 4 m); ip6_canonical (join (js ":") ip6); group 1 m; group 2 m]] else [])
  else Ret [].

Definition upnp_answer (responseText : jstr) (p : forward_page) : exn forward_page :=
  let! rows := exn_map upnp_line (split_char 10 responseText) in
  let tableData := concat rows in
  Ret (with_upnp p (Some (upnp_table (if (length tableData =? 0)%nat then blank_upnp else tableData)))).

(** ** Saving *)

(** [rowData[i].checked]; a string has no such property. *)
Definition datum_checked (rowData : list datum) (i : nat) : exn bool :=
  match rowData !! i with Some (DObj w) => Ret (w_checked w) | Some (DStr _) => Ret false | None => Raise TypeError end.

Record save_state := mkSave { sv_uci : UCIContainer; sv_commands : list jstr; sv_enabled : Z; sv_disabled : Z }.

Definition protos_of (proto : jstr) : list jstr :=
  if toLowerCase proto =s toLowerCase both then [js "tcp"; js "udp"] else [toLowerCase proto].

Definition rule_id (prefix : jstr) (enabled : bool) (st : save_state) : jstr :=
  prefix ++ (if enabled then js "enabled" else js "disabled") ++ js "_number_"
  ++ str_of_Z (if enabled then sv_enabled st else sv_disabled st).
Definition rule_type (type : jstr) (enabled : bool) : jstr := if enabled then type else type ++ js "_disabled".

(** The section of a rule for one protocol. *)
Definition save_rule (prefix type : jstr) (enabled : bool) (opts : jstr → list (jstr * jstr)) (st : save_state) (proto : jstr) : save_state :=
  let id := rule_id prefix enabled st in
  mkSave (write_section (js "firewall") (sv_uci st) id (rule_type type enabled) (opts proto))
    (sv_commands st ++ [js "uci set firewall." ++ id ++ js "=" ++ rule_type type enabled])
    (sv_enabled st + (if enabled then 1 else 0)) (sv_disabled st + (if enabled then 0 else 1)).

Definition forward_opts (name src_dport : jstr) (dest : list (jstr * jstr)) (proto : jstr) : list (jstr * jstr) :=
  [(js "name", name); (js "src", js "wan"); (js "dest", js "lan"); (js "family", js "ipv4"); (js "proto", proto);
   (js "src_dport", src_dport)] ++ dest.
Definition open_opts (name dest_ip dest_port proto : jstr) : list (jstr * jstr) :=
  [(js "name", name); (js "src", js "wan"); (js "dest", js "lan"); (js "family", js "ipv6"); (js "target", js "ACCEPT");
   (js "proto", proto); (js "dest_ip", dest_ip); (js "dest_port", dest_port)].

Definition save_single (st : save_state) (rowData : list datum) : exn save_state :=
  let! enabled := datum_checked rowData 5 in
  let! proto := datum_str rowData 1 in
  let! name := datum_str rowData 0 in
  let! fp := datum_str rowData 2 in
  let! ip := datum_str rowData 3 in
  let! dp := datum_str rowData 4 in
  Ret (fold_left (save_rule (js "redirect_") (js "redirect") enabled
    (forward_opts name fp [(js "dest_ip", ip); (js "dest_port", dp)])) (protos_of proto) st).

Definition save_range (st : save_state) (rowData : list datum) : exn save_state :=
  let! enabled := datum_checked rowData 5 in
  let! proto := datum_str rowData 1 in
  let! name := datum_str rowData 0 in
  let! sp := datum_str rowData 2 in
  let! ep := datum_str rowData 3 in
  let! ip := datum_str rowData 4 in
  let ports := sp ++ js "-" ++ ep in
  Ret (fold_left (save_rule (js "redirect_") (js "redirect") enabled
    (forward_opts name ports [(js "dest_port", ports); (js "dest_ip", ip)])) (protos_of proto) st).

Definition save_open (st : save_state) (rowData : list datum) : exn save_state :=
  let! enabled := datum_checked rowData 4 in
  let! proto := datum_str rowData 1 in
  let! name := datum_str rowData 0 in
  let! ip := datum_str rowData 2 in
  let! dp := datum_str rowData 3 in
  Ret (fold_left (save_rule (js "portopen_rule_") (js "rule") enabled (open_opts name ip dp)) (protos_of proto) st).

Definition save_open_range (st : save_state) (rowData : list datum) : exn save_state :=
  let! enabled := datum_checked rowData 5 in
  let! proto := datum_str rowData 1 in
  let! name := datum_str rowData 0 in
  let! sp := datum_str rowData 2 in
  let! ep := datum_str rowData 3 in
  let! ip := datum_str rowData 4 in
  Ret (fold_left (save_rule (js "portopen_rule_") (js "rule") enabled (open_opts name ip (sp ++ js "-" ++ ep))) (protos_of proto) st).

Definition save_table (save : save_state → list datum → exn save_state) (t : option table) (st : save_state) : exn save_state :=
  let! t := exn_of_option TypeError t in
  let! data := getTableDataArray t true false in
  exn_fold save data st.

(** The loop that removes the old sections; of the rules, only those of this page. *)
Definition own_section (sectionType section : jstr) : bool :=
  negb ((sectionType =s js "rule") || (sectionType =s js "rule_disabled")) || test re_portopen section.

Definition redirectSectionTypes : list jstr := [js "redirect"; js "redirect_disabled"; js "dmz"; js "rule"; js "rule_disabled"].

Definition remove_sections (u : UCIContainer) : exn (UCIContainer * list jstr) :=
  exn_fold (fun st sectionType =>
    let! sections := getAllSectionsOfType (fst st) (js "firewall") sectionType in
    pop_list (js "firewall") (List.filter (own_section sectionType) (rev sections)) st) redirectSectionTypes (u, []).

Definition save_dmz (d : document) (st : save_state) : exn save_state :=
  let! enabled := el d (js "dmz_enabled") in
  if e_checked enabled then
    let! ip := el d (js "dmz_ip") in
    Ret (mkSave (write_section (js "firewall") (sv_uci st) (js "dmz") (js "dmz") [(js "from", js "wan"); (js "to_ip", value ip)])
           (sv_commands st ++ [js "uci firewall.dmz=dmz"]) (sv_enabled st) (sv_disabled st))
  else Ret st.

(** The container and the commands that start or stop the service. *)
Definition save_upnp (d : document) (uci : UCIContainer) (haveUpnpd : bool) : exn (UCIContainer * list jstr) :=
  if haveUpnpd then
    let! enabled := el d (js "upnp_enabled") in
    let put_ u opt v := set u (js "upnpd") (js "config") opt (UStr v) false in
    let flags u v := put_ (put_ (put_ u (js "enabled") v) (js "enable_upnp") v) (js "enable_natpmp") v in
    if e_checked enabled then
      let! up := el d (js "upnp_up") in
      let! down := el d (js "upnp_down") in
      Ret (put_ (put_ (flags uci (js "1")) (js "upload") (value up)) (js "download") (value down), [js "/etc/init.d/miniupnpd enable"])
    else Ret (flags uci (js "0"), [js "/etc/init.d/miniupnpd disable"])
  else Ret (uci, []).

Definition restartFirewallCommand : jstr := newline ++ js "sh /usr/lib/gargoyle/restart_firewall.sh ;" ++ newline.

(** The page after an error, or the page, the new configuration and the commands. *)
Inductive save_outcome :=
| SaveErrors (p : forward_page)
| SaveSent (p : forward_page) (uci : UCIContainer) (commands : jstr).

Definition with_index (st : save_state) (u : UCIContainer) (commands : list jstr) : save_state := mkSave u (sv_commands st ++ commands) 0 0.

Definition saveChanges (haveUpnpd : bool) (p : forward_page) : exn save_outcome :=
  let! r := proofreadAll (fw_doc p) in
  let d := snd r in
  if negb (length (fst r) =? 0)%nat then
    Ret (SaveErrors (with_doc p (alert d (join newline (fst r) ++ newline ++ newline ++ UI (js "ErrChanges")))))
  else
    let! old := remove_sections (fw_uci p) in
    let uciOriginal := fst old in
    let! uci := clone uciOriginal in
    let! st := save_table save_single (fw_single p) (mkSave uci (snd old) 0 0) in
    let! st := save_table save_range (fw_range p) st in
    let! st := save_dmz d st in
    let! upnp := save_upnp d (sv_uci st) haveUpnpd in
    let! st := save_table save_open (fw_open p) (with_index st (fst upnp) [js "uci commit"]) in
    let! st := save_table save_open_range (fw_open_range p) st in
    let uci := sv_uci st in
    Ret (SaveSent (mkForward d uciOriginal (fw_single p) (fw_range p) (fw_open p) (fw_open_range p) (fw_upnp p) (fw_ref p)) uci
      (join newline (sv_commands st) ++ newline ++ getScriptCommands uci uciOriginal ++ newline ++ join newline (snd upnp) ++ newline
       ++ restartFirewallCommand)).

End ui.
End PortForward.
