(* ===== verification/PortForwardFacts.v ===== *)
(** * Properties of the port forwarding page: the rules stay apart *)
From S2P Require Import Prelude JsNum JsString JsRegex Uci Ip4 Validate Ip4Facts ValidateFacts Ip6 Table TableFacts TableEdit Dom FormFacts Modal Sections PortForward.
Import Validate Ip6 Table TableEdit Dom Modal PortForward.
Import Ip4(nth_str).
Open Scope Z_scope.

(** A rule: the protocol as the table shows it, the first and the last port. *)
Record rule := mkRule { ru_proto : jstr; ru_lo : Z; ru_hi : Z }.

Section rules.
Context (UI : jstr → jstr).
Let both : jstr := both UI.

Definition known (proto : jstr) : Prop := proto = js "TCP" ∨ proto = js "UDP" ∨ proto = both.

Definition collide (r r' : rule) : Prop :=
  (ru_proto r = ru_proto r' ∨ ru_proto r = both ∨ ru_proto r' = both) ∧ ru_lo r <= ru_hi r' ∧ ru_lo r' <= ru_hi r.
Definition separate (r r' : rule) : Prop := ¬ collide r r'.

#[export] Instance separate_sym : Symmetric separate.
Proof. intros r r'. unfold separate, collide. naive_solver. Qed.

(** The rows that show a rule. *)
Inductive single_row : rule → list datum → Prop :=
| single_row_intro name proto n ip dp w w' : known proto → 0 <= n →
    single_row (mkRule proto n n) [DStr name; DStr proto; DStr (str_of_Z n); DStr ip; DStr dp; DObj w; DObj w'].
Inductive range_row : rule → list datum → Prop :=
| range_row_intro name proto sp ep ip w w' : known proto → numeral sp → numeral ep → dec_val sp <= dec_val ep →
    range_row (mkRule proto (dec_val sp) (dec_val ep)) [DStr name; DStr proto; DStr sp; DStr ep; DStr ip; DObj w; DObj w'].

(** Merging a rule with the same one of the other protocol. *)
Lemma merged_separate x y z : both ≠ js "TCP" → both ≠ js "UDP" → known (ru_proto x) → known (ru_proto z) →
  ru_proto y = otherProto (ru_proto x) → ru_lo y = ru_lo x → ru_hi y = ru_hi x →
  separate y x → separate z x → separate z y → separate z (mkRule both (ru_lo y) (ru_hi y)).
Proof.
  destruct x as [px lx hx], y as [py ly hy], z as [pz lz hz]. unfold separate, collide, known, otherProto.
  cbn [ru_proto ru_lo ru_hi]. intros H1 H2 Hx Hz -> -> -> Hyx Hzx Hzy [_ Hp].
  destruct Hx as [->|[->| ->]].
  - replace (js "TCP" =s js "TCP") with true in * by done. destruct Hz as [->|[->| ->]]; tauto.
  - replace (js "UDP" =s js "TCP") with false in * by done. destruct Hz as [->|[->| ->]]; tauto.
  - apply Hzx. tauto.
Qed.

(** ** Rows after a merge *)
Definition merge_row (columns : list nat) (values : list jstr) (ds : list datum) : list datum :=
  if same_rule columns values ds then
    let ds' := <[1%nat := DStr both]> ds in
    if negb (nth_str values 0 =s js "-") && datum_is ds 0 (js "-") then <[0%nat := DStr (nth_str values 0)]> ds' else ds'
  else ds.

Lemma set_cell_at_effect t D i ds col s v : table_wf t → getTableDataArray t true false = Ret D →
  D !! i = Some ds → ds !! col = Some (DStr s) →
  ∃ t', set_cell_at t (S i) col v = Ret t' ∧ table_wf t' ∧ getTableDataArray t' true false = Ret (<[i := <[col := DStr v]> ds]> D).
Proof.
  intros Hwf HD Hds Hs. assert (Hlen : length (t_body t) = length D).
  { pose proof HD as HD'. apply table_data_rows in HD'; [|done]. apply (f_equal length) in HD'. by rewrite !length_map in HD'. }
  destruct (lookup_lt_is_Some_2 (t_body t) i) as [r Hr]; [rewrite Hlen; by eapply lookup_lt_Some|].
  destruct (set_data_effect true false t D i r ds col s v Hwf HD Hr Hds Hs) as (t' & r' & E & W & _ & _ & D').
  exists t'. split_and!; [|done|done]. unfold set_cell_at. by rewrite table_rows_body, Hr by done.
Qed.

Lemma datum_is_Some ds i v : datum_is ds i v = true → ds !! i = Some (DStr v).
Proof. apply bool_decide_eq_true. Qed.

(** The loop over the rows: those before [length pre] are done. *)
Lemma merge_fold columns values t pre post :
  table_wf t → getTableDataArray t true false = Ret (map (merge_row columns values) pre ++ post) →
  Forall (λ ds, (∃ a b rest, ds = DStr a :: DStr b :: rest)) post → ∀ b,
  ∃ t', exn_fold (fun '(t, merged) '(i, rowData) =>
      if same_rule columns values rowData then
        let! t := set_cell_at t (S i) 1 both in
        let! t := merge_name values t i rowData in
        Ret (t, true)
      else Ret (t, merged)) (imap (fun i r => ((i + length pre)%nat, r)) post) (t, b) =
    Ret (t', b || existsb (same_rule columns values) post) ∧ table_wf t' ∧
    getTableDataArray t' true false = Ret (map (merge_row columns values) (pre ++ post)).
Proof.
  revert t pre. induction post as [|ds post IH]; intros t pre Hwf HD Hp b.
  { exists t. rewrite app_nil_r in *. rewrite orb_false_r. done. }
  apply Forall_cons in Hp as [(a0 & b0 & rest & Eds) Hp]. cbn [imap exn_fold].
  assert (Hat : (map (merge_row columns values) pre ++ ds :: post) !! length pre = Some ds).
  { rewrite lookup_app_r by (by rewrite length_map). by rewrite length_map, Nat.sub_diag. }
  assert (Hupd : ∀ x, <[length pre := x]> (map (merge_row columns values) pre ++ ds :: post) = map (merge_row columns values) pre ++ x :: post).
  { intros x. rewrite insert_app_r_alt by (by rewrite length_map). by rewrite length_map, Nat.sub_diag. }
  assert (Hnext : ∀ t' bb, table_wf t' →
    getTableDataArray t' true false = Ret (map (merge_row columns values) (pre ++ [ds]) ++ post) →
    ∃ t'', exn_fold (fun '(t, merged) '(i, rowData) =>
      if same_rule columns values rowData then
        let! t := set_cell_at t (S i) 1 both in
        let! t := merge_name values t i rowData in
        Ret (t, true)
      else Ret (t, merged)) (imap (λ i r, ((S i + length pre)%nat, r)) post) (t', bb) =
    Ret (t'', bb || existsb (same_rule columns values) post) ∧ table_wf t'' ∧
    getTableDataArray t'' true false = Ret (map (merge_row columns values) (pre ++ ds :: post))).
  { intros t' bb Hwf' HD'. destruct (IH t' (pre ++ [ds]) Hwf' HD' Hp bb) as (t'' & E & W & D'). exists t''.
    rewrite <- app_assoc in D'. split_and!; [|done|done]. rewrite <- E. f_equal. apply imap_ext. intros i x _. simpl.
    rewrite length_app. f_equal. simpl. lia. }
  cbn [existsb]. replace (0 + length pre)%nat with (length pre) by lia. unfold compose.
  destruct (same_rule columns values ds) eqn:Es.
  - destruct (set_cell_at_effect t _ (length pre) ds 1 b0 both Hwf HD Hat) as (t1 & E1 & W1 & D1); [by rewrite Eds|].
    rewrite E1. cbn [exn_bind]. rewrite Hupd in D1. unfold merge_name.
    destruct (negb (nth_str values 0 =s js "-") && datum_is ds 0 (js "-")) eqn:En.
    + assert (Hat1 : (map (merge_row columns values) pre ++ <[1%nat:=DStr both]> ds :: post) !! length pre = Some (<[1%nat:=DStr both]> ds)).
      { rewrite lookup_app_r by (by rewrite length_map). by rewrite length_map, Nat.sub_diag. }
      destruct (set_cell_at_effect t1 _ (length pre) _ 0 a0 (nth_str values 0) W1 D1 Hat1) as (t2 & E2 & W2 & D2); [by rewrite Eds|].
      rewrite E2. cbn [exn_bind]. rewrite orb_true_r. destruct (Hnext t2 true W2) as (t3 & E3 & R3).
      * rewrite D2, insert_app_r_alt by (by rewrite length_map). rewrite length_map, Nat.sub_diag, map_app, <- app_assoc. cbn [map app list_insert].
        unfold merge_row at 3. by rewrite Es, En.
      * by exists t3.
    + cbn [exn_bind]. rewrite orb_true_r. destruct (Hnext t1 true W1) as (t3 & E3 & R3); [|by exists t3].
      rewrite D1, map_app, <- app_assoc. cbn [map app]. unfold merge_row at 3. by rewrite Es, En.
  - rewrite orb_false_l. apply Hnext; [done|]. rewrite HD, map_app, <- app_assoc. cbn [map app]. unfold merge_row at 3. by rewrite Es.
Qed.

Lemma merge_rules_spec columns values t D : table_wf t → getTableDataArray t true false = Ret D →
  Forall (λ ds, (∃ a b rest, ds = DStr a :: DStr b :: rest)) D →
  ∃ t', merge_rules UI columns values t = Ret (t', existsb (same_rule columns values) D) ∧ table_wf t' ∧
    getTableDataArray t' true false = Ret (map (merge_row columns values) D).
Proof.
  intros Hwf HD Hs. unfold merge_rules. rewrite HD. cbn [exn_bind].
  destruct (merge_fold columns values t [] D Hwf HD Hs false) as (t' & E & R). exists t'. split; [|exact R].
  etrans; [|exact E]. f_equal. apply imap_ext. intros i x _. simpl. f_equal. lia.
Qed.

(** ** The checks *)
Lemma clashes_nil t ex f msg D : getTableDataArray t true false = Ret D → clashes t ex f msg = Ret [] →
  ∀ j ds, D !! j = Some ds → match ex with Some e => not_excluded t j e | None => true end = true → f ds = false.
Proof.
  intros HD. unfold clashes. rewrite HD. cbn [exn_bind]. intros [= E] j ds Hj Hex.
  assert (Hin : (if f ds then [msg] else []) ∈ imap (λ i rowData, if match ex with Some e => not_excluded t i e | None => true end
      then (if f rowData then [msg] else []) else []) D).
  { apply list_elem_of_lookup. exists j. rewrite list_lookup_imap, Hj. simpl. by rewrite Hex. }
  destruct (f ds); [|done]. exfalso. assert (Hm : msg ∈ concat (imap (λ i rowData, if match ex with Some e => not_excluded t i e | None => true end
      then (if f rowData then [msg] else []) else []) D)).
  { apply list_elem_of_In, in_concat. exists [msg]. split; [by apply list_elem_of_In|by left]. }
  rewrite E in Hm. by apply elem_of_nil in Hm.
Qed.

Lemma meets_collide x y ds : ds !! 1%nat = Some (DStr (ru_proto y)) → collide y x → protocols_meet UI (ru_proto x) ds = true.
Proof.
  intros Hds [[E|[E|E]] _]; unfold protocols_meet, datum_is; rewrite Hds.
  - by rewrite E, bool_decide_eq_true_2.
  - rewrite orb_true_iff. right. apply bool_decide_eq_true. by rewrite E.
  - rewrite E, (proj2 (str_eqb_eq _ _)) by done. by rewrite orb_true_r.
Qed.

Lemma leb_true a b : a <= b → Num.leb (Int a) (Int b) = true.
Proof. intros. rewrite leb_int. lia. Qed.

(** A test that holds on every colliding row separates the rows it rejects. *)
Lemma row_num y ds i : single_row y ds ∧ i = 2%nat → datum_num ds i = Int (ru_lo y).
Proof. intros [[? ? n ? ? ? ? ? Hn] ->]. unfold datum_num. simpl. rewrite toNumber_numeral by (by apply str_of_Z_numeral). by rewrite dec_val_str_of_Z. Qed.

Lemma range_nums y ds : range_row y ds → datum_num ds 2 = Int (ru_lo y) ∧ datum_num ds 3 = Int (ru_hi y).
Proof. intros [? ? sp ep ? ? ? ? Hs He]. unfold datum_num. simpl. by rewrite !toNumber_numeral by done. Qed.

Lemma single_single x y ds : ru_hi x = ru_lo x → single_row y ds →
  protocols_meet UI (ru_proto x) ds && datum_is ds 2 (str_of_Z (ru_lo x)) = false → separate y x.
Proof.
  intros Hx Hy E Hc. assert (Hp : protocols_meet UI (ru_proto x) ds = true) by (apply (meets_collide x y); [by destruct Hy|done]).
  rewrite Hp in E. simpl in E. inversion Hy as [name proto n ip dp w w' Hk Hn Ey Eds]; subst. unfold datum_is in E.
  destruct Hc as (_ & H1 & H2). cbn [ru_lo ru_hi] in *. assert (n = ru_lo x) as -> by lia. simpl in E. by rewrite bool_decide_eq_true_2 in E.
Qed.

Lemma single_range x y ds : range_row y ds →
  protocols_meet UI (ru_proto x) ds && Num.leb (datum_num ds 2) (Int (ru_hi x)) && Num.leb (Int (ru_lo x)) (datum_num ds 3) = false → separate y x.
Proof.
  intros Hy E Hc. rewrite (meets_collide x y ds) in E; [|by destruct Hy|done]. destruct (range_nums y ds Hy) as [Hl Hh]. rewrite Hl, Hh in E.
  destruct Hc as (_ & H1 & H2). by rewrite !leb_true in E by done.
Qed.

Lemma range_single x y ds : single_row y ds →
  protocols_meet UI (ru_proto x) ds && Num.leb (Int (ru_lo x)) (datum_num ds 2) && Num.leb (datum_num ds 2) (Int (ru_hi x)) = false → separate y x.
Proof.
  intros Hy E Hc. rewrite (meets_collide x y ds) in E; [|by destruct Hy|done]. rewrite (row_num y ds 2) in E by done.
  destruct Hc as (_ & H1 & H2). assert (ru_hi y = ru_lo y) as E' by (by destruct Hy). rewrite E' in H2. rewrite !leb_true in E by lia. done.
Qed.

(** ** The state *)
Definition table_rules (row : rule → list datum → Prop) (t : table) (rs : list rule) : Prop :=
  table_wf t ∧ ∃ D, getTableDataArray t true false = Ret D ∧ Forall2 row rs D.

(** No two rules of the page forward the same port of the same protocol. *)
Definition page_separate (p : forward_page) : Prop :=
  ∃ ts tr rs rr, fw_single p = Some ts ∧ fw_range p = Some tr ∧ table_rules single_row ts rs ∧ table_rules range_row tr rr ∧
    pairwise separate rs ∧ pairwise separate rr ∧ (∀ x y, x ∈ rs → y ∈ rr → separate x y).

(** The fields of a window: shown, enabled and of the right kinds.  The port of a
    single rule is written without leading zeros. *)
Record single_form (d : document) : Prop := {
  sf_fields : Forall (λ f, field_ready d f ∧ field_visible d f = Ret true)
    [own_field (js "add_fp") validateNumeric; own_field (js "add_ip") validateIP; own_field (js "add_dp") validateNumeric];
  sf_desc : ∃ e, elements d !! js "add_desc" = Some e;
  sf_prot : ∃ e, elements d !! js "add_prot" = Some e ∧ is_select e = true ∧ known (value e);
  sf_port : ∃ e n, elements d !! js "add_fp" = Some e ∧ value e = str_of_Z n ∧ 0 <= n
}.
Record range_form (d : document) : Prop := {
  rf_fields : Forall (λ f, field_ready d f ∧ field_visible d f = Ret true)
    [own_field (js "addr_sp") validateNumeric; own_field (js "addr_ep") validateNumeric; own_field (js "addr_ip") validateIP];
  rf_desc : ∃ e, elements d !! js "addr_desc" = Some e;
  rf_prot : ∃ e, elements d !! js "addr_prot" = Some e ∧ is_select e = true ∧ known (value e)
}.

(** The rule in the fields is separate from the rows that were compared. *)
Definition apart_from (x : rule) (t : table) (row : rule → list datum → Prop) (ex : option (option nat)) : Prop :=
  ∀ D j ds y, getTableDataArray t true false = Ret D → D !! j = Some ds → row y ds →
    match ex with Some e => not_excluded t j e | None => true end = true → separate y x.

Lemma own_fields_input fs id f d : Forall (λ f, field_ready d f ∧ field_visible d f = Ret true) fs → own_field id f ∈ fs →
  ∃ e, elements d !! id = Some e.
Proof. intros H Hin. rewrite Forall_forall in H. by destruct (H _ Hin) as [[(e & He) _] _]; exists e. Qed.

Lemma same_value d d' id e : same_but_color d d' → elements d !! id = Some e →
  ∃ e', elements d' !! id = Some e' ∧ value e' = value e ∧ is_select e' = is_select e.
Proof. intros S He. destruct (same_lookup _ _ _ _ S He) as [c Hc]. eexists. split; [exact Hc|]. split; [apply value_color|done]. Qed.

Context (prtS : jstr → jstr).

Lemma single_checked p ts tr ex d : single_form (fw_doc p) → fw_single p = Some ts → fw_range p = Some tr →
  proofreadForwardSingle UI prtS p ex = Ret ([], d) →
  ∃ epr efp n, same_but_color (fw_doc p) d ∧ elements d !! js "add_prot" = Some epr ∧ is_select epr = true ∧ known (value epr) ∧
    elements d !! js "add_fp" = Some efp ∧ value efp = str_of_Z n ∧ 0 <= n ∧
    apart_from (mkRule (value epr) n n) ts single_row (Some ex) ∧ apart_from (mkRule (value epr) n n) tr range_row None.
Proof.
  intros [Hf _ (e1 & He1 & Hs1 & Hk) (e2 & n & He2 & Hv2 & Hn)] Ets Etr. unfold proofreadForwardSingle.
  destruct (own_fields_input _ (js "add_dp") validateNumeric _ Hf) as (e3 & He3); [set_solver|].
  unfold el at 1, getElementById at 1. rewrite He3. cbn [exn_of_option exn_bind].
  destruct (proofread_valid UI ([own_field (js "add_fp") validateNumeric; own_field (js "add_ip") validateIP]
    ++ (if 0 <? zlen (value e3) then [own_field (js "add_dp") validateNumeric] else [])) (fw_doc p)) as (errs & d' & -> & S & _).
  { destruct (0 <? zlen (value e3)); [exact Hf|]. exact (Forall_take _ 2 _ Hf). }
  cbn [exn_bind fst snd]. destruct errs; [|done]. cbn [length Nat.eqb negb]. rewrite Ets, Etr. cbn [exn_of_option exn_bind].
  destruct (same_value _ _ _ _ S He1) as (e1' & He1' & V1 & T1), (same_value _ _ _ _ S He2) as (e2' & He2' & V2 & _).
  unfold el, getElementById. rewrite He1', He2'. cbn [exn_of_option exn_bind].
  destruct (clashes ts _ _ _) as [l1|] eqn:E1; [|done]. cbn [exn_bind]. destruct (clashes tr _ _ _) as [l2|] eqn:E2; [|done]. cbn [exn_bind].
  intros [= E <-]. apply app_nil in E as [-> ->]. exists e1', e2', n. rewrite T1, V1, V2. split_and!; try done.
  - intros D j ds y HD Hj Hy Hex. apply (single_single (mkRule (value e1) n n) y ds); [done..|]. cbn [ru_proto ru_lo].
    rewrite <- Hv2, <- V1, <- V2. exact (clashes_nil _ _ _ _ _ HD E1 j ds Hj Hex).
  - intros D j ds y HD Hj Hy Hex. apply (single_range (mkRule (value e1) n n) y ds); [done|]. cbn [ru_proto ru_lo ru_hi].
    rewrite <- (dec_val_str_of_Z n), <- (toNumber_numeral (str_of_Z n)), <- Hv2, <- V1, <- V2 by (done || by apply str_of_Z_numeral).
    exact (clashes_nil _ _ _ _ _ HD E2 j ds Hj Hex).
Qed.

Lemma range_checked p ts tr ex d : range_form (fw_doc p) → fw_single p = Some ts → fw_range p = Some tr →
  proofreadForwardRange UI prtS p ex = Ret ([], d) →
  ∃ epr es ee, same_but_color (fw_doc p) d ∧ elements d !! js "addr_prot" = Some epr ∧ is_select epr = true ∧ known (value epr) ∧
    elements d !! js "addr_sp" = Some es ∧ elements d !! js "addr_ep" = Some ee ∧ numeral (value es) ∧ numeral (value ee) ∧
    dec_val (value es) <= dec_val (value ee) ∧
    let x := mkRule (value epr) (dec_val (value es)) (dec_val (value ee)) in
    apart_from x ts single_row None ∧ apart_from x tr range_row (Some ex).
Proof.
  intros [Hf _ (e1 & He1 & Hs1 & Hk)] Ets Etr. unfold proofreadForwardRange.
  destruct (own_fields_input _ (js "addr_sp") validateNumeric _ Hf) as (e2 & He2); [set_solver|].
  destruct (own_fields_input _ (js "addr_ep") validateNumeric _ Hf) as (e3 & He3); [set_solver|].
  destruct (proofread_valid UI _ (fw_doc p) Hf) as (errs & d' & -> & S & V).
  cbn [exn_bind fst snd]. destruct errs; [|done]. cbn [length Nat.eqb negb]. rewrite Ets, Etr. cbn [exn_of_option exn_bind]. specialize (V eq_refl).
  destruct (same_value _ _ _ _ S He1) as (e1' & He1' & V1 & T1), (same_value _ _ _ _ S He2) as (e2' & He2' & V2 & _),
    (same_value _ _ _ _ S He3) as (e3' & He3' & V3 & _).
  assert (N2 : numeral (value e2')) by (apply validateNumeric_numeral; apply (V (own_field (js "addr_sp") validateNumeric) e2'); [set_solver|done]).
  assert (N3 : numeral (value e3')) by (apply validateNumeric_numeral; apply (V (own_field (js "addr_ep") validateNumeric) e3'); [set_solver|done]).
  unfold el, getElementById. rewrite He1', He2', He3'. cbn [exn_of_option exn_bind].
  destruct (clashes ts _ _ _) as [l1|] eqn:E1; [|done]. cbn [exn_bind]. destruct (clashes tr _ _ _) as [l2|] eqn:E2; [|done]. cbn [exn_bind].
  intros [= E <-]. apply app_nil in E as [E [-> ->]%app_nil]. exists e1', e2', e3'. rewrite T1.
  rewrite !toNumber_numeral, gtb_int in E by done. split_and!; try done; [by rewrite V1|destruct (Z.ltb_spec (dec_val (value e3')) (dec_val (value e2'))); [done|lia]|..].
  - intros D j ds y HD Hj Hy Hex. apply (range_single (mkRule (value e1') (dec_val (value e2')) (dec_val (value e3'))) y ds); [done|]. cbn [ru_proto ru_lo ru_hi].
    rewrite <- !toNumber_numeral by done. exact (clashes_nil _ _ _ _ _ HD E1 j ds Hj Hex).
  - intros D j ds y HD Hj Hy Hex. apply (single_range (mkRule (value e1') (dec_val (value e2')) (dec_val (value e3'))) y ds); [done|]. cbn [ru_proto ru_lo ru_hi].
    rewrite <- !toNumber_numeral by done. exact (clashes_nil _ _ _ _ _ HD E2 j ds Hj Hex).
Qed.

(** ** Adding *)
Lemma read_fields_spec canonical d ids : NoDup ids → (∀ id, id ∈ ids → ∃ e, elements d !! id = Some e) →
  ∃ vs d', read_fields canonical d ids = Ret (vs, d') ∧
    Forall2 (λ id v, ∃ e, elements d !! id = Some e ∧ v = (if id =s canonical then ip6_canonical (or_dash (value e)) else or_dash (value e))) ids vs.
Proof.
  unfold read_fields.
  cut (∀ acc d0, NoDup ids → (∀ id, id ∈ ids → elements d0 !! id = elements d !! id) → (∀ id, id ∈ ids → ∃ e, elements d !! id = Some e) →
    ∃ vs d', exn_fold (fun '(values, d) id =>
      let! e := el d id in
      let v := or_dash (value e) in
      let v := if id =s canonical then ip6_canonical v else v in
      Ret (values ++ [v], if e_type e =s js "text" then put d id (set_value [] e) else d)) ids (acc, d0) = Ret (acc ++ vs, d') ∧
    Forall2 (λ id v, ∃ e, elements d !! id = Some e ∧ v = (if id =s canonical then ip6_canonical (or_dash (value e)) else or_dash (value e))) ids vs).
  { intros H Hnd He. destruct (H [] d Hnd ltac:(done) He) as (vs & d' & E & HF). exists vs, d'. by split. }
  induction ids as [|id ids IH]; intros acc d0 Hnd Hd He.
  { exists [], d0. rewrite app_nil_r. by split. }
  apply NoDup_cons in Hnd as [Hn Hnd]. destruct (He id) as (e & Ee); [by left|]. cbn [exn_fold].
  unfold el at 1, getElementById. rewrite (Hd id), Ee by (by left). cbn [exn_of_option exn_bind].
  match goal with |- context [exn_fold _ ids (?a, ?b)] => destruct (IH a b Hnd) as (vs & d' & E & HF) end.
  - intros id' Hin. destruct (e_type e =s js "text"); [|apply Hd; by right]. rewrite put_ne; [apply Hd; by right|]. intros ->. done.
  - intros id' Hin. apply He. by right.
  - eexists (_ :: vs), d'. split; [etrans; [exact E|by rewrite <- app_assoc]|]. constructor; [|done]. by exists e.
Qed.

Section adding.
Context (row : rule → list datum → Prop) (columns : list nat) (values : list jstr) (x : rule).
Hypothesis both_tcp : both ≠ js "TCP".
Hypothesis both_udp : both ≠ js "UDP".
Hypothesis row_known : ∀ y ds, row y ds → known (ru_proto y) ∧ ru_lo y <= ru_hi y ∧ ∃ a b rest, ds = DStr a :: DStr b :: rest.
Hypothesis row_new : row x (map first_line (new_row UI values)).
Hypothesis row_same : ∀ y ds, row y ds → same_rule columns values ds = true →
  ru_proto y = otherProto (ru_proto x) ∧ ru_lo y = ru_lo x ∧ ru_hi y = ru_hi x.
Hypothesis row_both : ∀ y ds, row y ds → row (mkRule both (ru_lo y) (ru_hi y)) (<[1%nat := DStr both]> ds).
Hypothesis row_name : ∀ y ds s, row y ds → row y (<[0%nat := DStr s]> ds).

(** The rule of a row after the merge. *)
Definition merged_rule (y : rule) (ds : list datum) : rule :=
  if same_rule columns values ds then mkRule both (ru_lo y) (ru_hi y) else y.

Lemma merged_row y ds : row y ds → row (merged_rule y ds) (merge_row columns values ds).
Proof.
  intros Hy. unfold merged_rule, merge_row. destruct (same_rule columns values ds); [|done].
  destruct (_ && _); [apply row_name|]; by apply row_both.
Qed.

Lemma merged_apart y ds z : row y ds → known (ru_proto z) → separate y x → separate z x → separate z y → separate z (merged_rule y ds).
Proof.
  intros Hy Hz Hyx Hzx Hzy. unfold merged_rule. destruct (same_rule columns values ds) eqn:E; [|done].
  destruct (row_same y ds Hy E) as (Hp & Hl & Hh). apply (merged_separate x y z); try done. by apply (row_known x _ row_new).
Qed.

Lemma merge_or_add_separate t (rs ro : list rule) : table_rules row t rs → pairwise separate rs →
  (∀ y, y ∈ rs → separate y x) → (∀ z, z ∈ ro → known (ru_proto z) ∧ separate z x) → (∀ y z, y ∈ rs → z ∈ ro → separate y z) →
  ∃ t' rs', merge_or_add UI columns values t = Ret t' ∧ table_rules row t' rs' ∧ pairwise separate rs' ∧
    (∀ y z, y ∈ rs' → z ∈ ro → separate y z).
Proof.
  intros (Hwf & D & HD & HF) Hpw Hx Hro Hrz.
  destruct (merge_rules_spec columns values t D Hwf HD) as (t1 & E1 & W1 & D1).
  { apply Forall_forall. intros ds (j & Hj)%list_elem_of_lookup. destruct (Forall2_lookup_r _ _ _ _ _ HF Hj) as (y & _ & Hy). by apply row_known in Hy as (_ & _ & ?). }
  unfold merge_or_add. rewrite E1. cbn [exn_bind fst snd]. destruct (existsb (same_rule columns values) D) eqn:Ex.
  - assert (Hl : ∀ j z, zip_with merged_rule rs D !! j = Some z → ∃ y ds, rs !! j = Some y ∧ D !! j = Some ds ∧ row y ds ∧ z = merged_rule y ds).
    { intros j z Hz. apply lookup_zip_with_Some in Hz as (y & ds & -> & Hy & Hds). exists y, ds. split_and!; try done.
      destruct (Forall2_lookup_l _ _ _ _ _ HF Hy) as (ds' & Hds' & ?). by rewrite Hds in Hds'; injection Hds' as ->. }
    exists t1, (zip_with merged_rule rs D). split_and!; [done| | |].
    + split; [done|]. eexists. split; [exact D1|]. apply Forall2_lookup. intros j. rewrite lookup_zip_with, list_lookup_fmap.
      pose proof (proj1 (Forall2_lookup row rs D) HF j) as HF'. destruct HF' as [y ds Hy|]; constructor. by apply merged_row.
    + intros i j a b Ha Hb Hij. apply Hl in Ha as (ya & da & Hya & Hda & Ra & ->), Hb as (yb & db & Hyb & Hdb & Rb & ->).
      assert (Hsab : separate ya yb) by (by eapply Hpw). assert (Ha' : separate ya x) by (apply Hx; by eapply list_elem_of_lookup_2).
      assert (Hb' : separate yb x) by (apply Hx; by eapply list_elem_of_lookup_2).
      destruct (same_rule columns values da) eqn:Ea.
      * destruct (same_rule columns values db) eqn:Eb.
        { destruct (row_same ya da Ra Ea) as (Pa & La & Ha1), (row_same yb db Rb Eb) as (Pb & Lb & Hb1), (row_known ya da Ra) as (_ & Hle & _).
          exfalso. apply Hsab. split; [left; congruence|lia]. }
        symmetry. unfold merged_rule at 1. rewrite Eb. apply merged_apart; try done. by apply (row_known yb db).
      * unfold merged_rule at 1. rewrite Ea. apply merged_apart; try done. by apply (row_known ya da).
    + intros y z (j & Hj)%list_elem_of_lookup Hz. apply Hl in Hj as (ya & da & Hya & _ & Ra & ->). symmetry.
      assert (Hin : ya ∈ rs) by (by eapply list_elem_of_lookup_2). destruct (Hro z Hz). apply merged_apart; auto. symmetry. auto.
  - eexists _, (rs ++ [x]).
    assert (E2 : map (merge_row columns values) D = D).
    { clear -Ex. induction D as [|ds D IH]; [done|]. cbn [existsb map] in *. apply orb_false_iff in Ex as [E Ex]. unfold merge_row at 1. by rewrite E, IH. }
    rewrite E2 in D1. destruct (addTableRow_data true false (UI (js "Remove")) t1 (new_row UI values) D W1) as [W2 D2]; [by destruct values|done|].
    split; [done|]. split_and!.
    + split; [done|]. eexists. split; [exact D2|]. apply Forall2_app; [done|]. by repeat constructor.
    + apply pairwise_snoc; [apply _|done..].
    + intros y z [Hy| ->%list_elem_of_singleton]%elem_of_app Hz; [auto|]. symmetry. by apply Hro.
Qed.

End adding.


(** ** The operations *)
Hypothesis both_tcp : both ≠ js "TCP".
Hypothesis both_udp : both ≠ js "UDP".
Hypothesis both_text : both ≠ [] ∧ 10 ∉ both.

Lemma known_text proto : known proto → proto ≠ [] ∧ first_line (DStr proto) = DStr proto ∧ or_dash proto = proto.
Proof.
  intros Hk. assert (proto ≠ [] ∧ 10 ∉ proto) as [Hn Hl].
  { destruct Hk as [->|[->| ->]]; [..|exact both_text]; (split; [done|by apply (bool_decide_eq_false_1 (10 ∈ _))]). }
  split_and!; [done|by apply first_line_one|]. unfold or_dash. by rewrite (proj2 (str_eqb_neq proto [])).
Qed.

Lemma numeral_text s : numeral s → first_line (DStr s) = DStr s ∧ or_dash s = s.
Proof.
  intros [Hn Hs]. split.
  - apply first_line_one. intros Hin. rewrite Forall_forall in Hs. by apply Hs in Hin.
  - unfold or_dash. by rewrite (proj2 (str_eqb_neq s [])).
Qed.

Lemma single_known y ds : single_row y ds → known (ru_proto y) ∧ ru_lo y <= ru_hi y ∧ ∃ a b rest, ds = DStr a :: DStr b :: rest.
Proof. intros []. cbn. split_and!; [done|lia|eauto]. Qed.
Lemma range_known y ds : range_row y ds → known (ru_proto y) ∧ ru_lo y <= ru_hi y ∧ ∃ a b rest, ds = DStr a :: DStr b :: rest.
Proof. intros []. cbn. split_and!; [done|lia|eauto]. Qed.

Lemma known_both : known both.
Proof. right. by right. Qed.

Lemma single_both y ds : single_row y ds → single_row (mkRule both (ru_lo y) (ru_hi y)) (<[1%nat := DStr both]> ds).
Proof. intros []. cbn. constructor; [apply known_both|done]. Qed.
Lemma range_both y ds : range_row y ds → range_row (mkRule both (ru_lo y) (ru_hi y)) (<[1%nat := DStr both]> ds).
Proof. intros []. cbn. constructor; try done. apply known_both. Qed.
Lemma single_name y ds s : single_row y ds → single_row y (<[0%nat := DStr s]> ds).
Proof. intros []. cbn. by constructor. Qed.
Lemma range_name y ds s : range_row y ds → range_row y (<[0%nat := DStr s]> ds).
Proof. intros []. cbn. by constructor. Qed.

Lemma single_new desc proto n ip dp : known proto → 0 <= n →
  single_row (mkRule proto n n) (map first_line (new_row UI [desc; proto; str_of_Z n; ip; dp])).
Proof.
  intros Hk Hn. unfold new_row. cbn [map app]. destruct (known_text proto Hk) as (_ & -> & _).
  destruct (numeral_text _ (str_of_Z_numeral n Hn)) as [-> _]. by constructor.
Qed.
Lemma range_new desc proto sp ep ip : known proto → numeral sp → numeral ep → dec_val sp <= dec_val ep →
  range_row (mkRule proto (dec_val sp) (dec_val ep)) (map first_line (new_row UI [desc; proto; sp; ep; ip])).
Proof.
  intros Hk Hs He Hle. unfold new_row. cbn [map app]. destruct (known_text proto Hk) as (_ & -> & _).
  destruct (numeral_text _ Hs) as [-> _], (numeral_text _ He) as [-> _]. by constructor.
Qed.

Lemma single_same desc proto n ip dp y ds : single_row y ds → 0 <= n →
  same_rule [2%nat; 3%nat; 4%nat] [desc; proto; str_of_Z n; ip; dp] ds = true →
  ru_proto y = otherProto proto ∧ ru_lo y = n ∧ ru_hi y = n.
Proof.
  intros [name proto' n' ip' dp' w w' Hk Hn'] Hn. unfold same_rule, datum_is. cbn. intros H. bsimpl.
  repeat match goal with E : Some _ = Some _ |- _ => injection E as E end. cbn.
  match goal with E : str_of_Z n' = str_of_Z n |- _ => apply str_of_Z_inj in E; [|done..]; subst end. done.
Qed.
Lemma range_same desc proto sp ep ip y ds : range_row y ds →
  same_rule [2%nat; 3%nat; 4%nat] [desc; proto; sp; ep; ip] ds = true →
  ru_proto y = otherProto proto ∧ ru_lo y = dec_val sp ∧ ru_hi y = dec_val ep.
Proof.
  intros [name proto' sp' ep' ip' w w' Hk Hs He Hle]. unfold same_rule, datum_is. cbn. intros H. bsimpl.
  repeat match goal with E : Some _ = Some _ |- _ => injection E as E end. cbn. by subst.
Qed.

Lemma all_apart x t row rs : table_rules row t rs → apart_from x t row None → ∀ y, y ∈ rs → separate y x.
Proof.
  intros (_ & D & HD & HF) Ha y (j & Hj)%list_elem_of_lookup. destruct (Forall2_lookup_l _ _ _ _ _ HF Hj) as (ds & Hds & Hy).
  by eapply Ha.
Qed.
Lemma added_apart x t row rs : table_rules row t rs → apart_from x t row (Some None) → ∀ y, y ∈ rs → separate y x.
Proof.
  intros (Hwf & D & HD & HF) Ha y (j & Hj)%list_elem_of_lookup. destruct (Forall2_lookup_l _ _ _ _ _ HF Hj) as (ds & Hds & Hy).
  eapply Ha; [done..|]. eapply not_excluded_add; [done..|]. by eapply lookup_lt_Some.
Qed.

Lemma rules_known row t rs y : table_rules row t rs → (∀ y ds, row y ds → known (ru_proto y) ∧ ru_lo y <= ru_hi y ∧ ∃ a b rest, ds = DStr a :: DStr b :: rest) →
  y ∈ rs → known (ru_proto y).
Proof.
  intros (_ & D & _ & HF) Hk (j & Hj)%list_elem_of_lookup. destruct (Forall2_lookup_l _ _ _ _ _ HF Hj) as (ds & _ & Hy). by apply (Hk y ds).
Qed.

Lemma add_single_separate p p' : single_form (fw_doc p) → page_separate p → addPortfRule UI prtS p = Ret p' → page_separate p'.
Proof.
  intros Hf (ts & tr & rs & rr & Ets & Etr & Hs & Hr & Ps & Pr & Psr). unfold addPortfRule.
  destruct (proofreadForwardSingle UI prtS p None) as [[errs d]|] eqn:E; [|done]. cbn [exn_bind fst snd].
  destruct errs as [|e errs]; [|intros [= <-]; exists ts, tr, rs, rr; done]. cbn [length Nat.eqb negb].
  destruct (single_checked p ts tr None d Hf Ets Etr E) as (epr & efp & n & S & Hpr & _ & Hk & Hfp & Vfp & Hn & A1 & A2).
  destruct Hf as [Hff (edesc & Hdesc) _ _].
  destruct (own_fields_input _ (js "add_ip") validateIP _ Hff) as (eip & Hip); [set_solver|].
  destruct (own_fields_input _ (js "add_dp") validateNumeric _ Hff) as (edp & Hdp); [set_solver|].
  destruct (same_value _ _ _ _ S Hdesc) as (edesc' & Hdesc' & _), (same_value _ _ _ _ S Hip) as (eip' & Hip' & _), (same_value _ _ _ _ S Hdp) as (edp' & Hdp' & _).
  destruct (read_fields_spec [] d [js "add_desc"; js "add_prot"; js "add_fp"; js "add_ip"; js "add_dp"]) as (vs & d' & Ev & HF).
  { by apply (bool_decide_eq_true_1 (NoDup _)). }
  { intros id Hin. rewrite !elem_of_cons, elem_of_nil in Hin. destruct Hin as [->|[->|[->|[->|[->|[]]]]]]; eauto. }
  rewrite Ev. cbn [exn_bind fst snd]. rewrite Ets. cbn [exn_of_option exn_bind].
  destruct vs as [|v0 [|v1 [|v2 [|v3 [|v4 [|]]]]]]; try (by apply Forall2_length in HF). rewrite !Forall2_cons in HF.
  destruct HF as ((x0 & _ & _) & (x1 & Hx1 & ->) & (x2 & Hx2 & ->) & _). rewrite Hpr in Hx1. injection Hx1 as <-. rewrite Hfp in Hx2. injection Hx2 as <-.
  replace (js "add_prot" =s []) with false by done. replace (js "add_fp" =s []) with false by done.
  destruct (known_text _ Hk) as (_ & _ & ->). rewrite Vfp. destruct (numeral_text _ (str_of_Z_numeral n Hn)) as [_ ->].
  set (values := if nth_str _ 4 =s js "-" then _ else _).
  assert (∃ dp, values = [v0; value epr; str_of_Z n; v3; dp]) as (dp & ->) by (unfold values; cbn [nth_str]; match goal with |- context [if ?b then _ else _] => destruct b end; eexists; reflexivity).
  destruct (merge_or_add_separate single_row [2%nat; 3%nat; 4%nat] [v0; value epr; str_of_Z n; v3; dp] (mkRule (value epr) n n)
    both_tcp both_udp single_known (single_new v0 (value epr) n v3 dp Hk Hn) (λ y ds Hy Hb, single_same v0 (value epr) n v3 dp y ds Hy Hn Hb) single_both single_name
    ts rs rr Hs Ps (added_apart _ _ _ _ Hs A1)) as (t' & rs' & Em & Hs' & Ps' & Pz).
  { intros z Hz. split; [exact (rules_known _ _ _ _ Hr range_known Hz)|]. by eapply all_apart. }
  { exact Psr. }
  rewrite Em. cbn [exn_bind]. intros [= <-]. exists t', tr, rs', rr. done.
Qed.

Lemma add_range_separate p p' : range_form (fw_doc p) → page_separate p → addPortfRangeRule UI prtS p = Ret p' → page_separate p'.
Proof.
  intros Hf (ts & tr & rs & rr & Ets & Etr & Hs & Hr & Ps & Pr & Psr). unfold addPortfRangeRule.
  destruct (proofreadForwardRange UI prtS p None) as [[errs d]|] eqn:E; [|done]. cbn [exn_bind fst snd].
  destruct errs as [|e errs]; [|intros [= <-]; exists ts, tr, rs, rr; done]. cbn [length Nat.eqb negb].
  destruct (range_checked p ts tr None d Hf Ets Etr E) as (epr & es & ee & S & Hpr & _ & Hk & Hes & Hee & Ns & Ne & Hle & A1 & A2).
  destruct Hf as [Hff (edesc & Hdesc) _].
  destruct (own_fields_input _ (js "addr_ip") validateIP _ Hff) as (eip & Hip); [set_solver|].
  destruct (same_value _ _ _ _ S Hdesc) as (edesc' & Hdesc' & _), (same_value _ _ _ _ S Hip) as (eip' & Hip' & _).
  destruct (read_fields_spec [] d [js "addr_desc"; js "addr_prot"; js "addr_sp"; js "addr_ep"; js "addr_ip"]) as (vs & d' & Ev & HF).
  { by apply (bool_decide_eq_true_1 (NoDup _)). }
  { intros id Hin. rewrite !elem_of_cons, elem_of_nil in Hin. destruct Hin as [->|[->|[->|[->|[->|[]]]]]]; eauto. }
  rewrite Ev. cbn [exn_bind fst snd]. rewrite Etr. cbn [exn_of_option exn_bind].
  destruct vs as [|v0 [|v1 [|v2 [|v3 [|v4 [|]]]]]]; try (by apply Forall2_length in HF). rewrite !Forall2_cons in HF.
  destruct HF as ((x0 & _ & _) & (x1 & Hx1 & ->) & (x2 & Hx2 & ->) & (x3 & Hx3 & ->) & _). rewrite Hpr in Hx1. injection Hx1 as <-.
  rewrite Hes in Hx2. injection Hx2 as <-. rewrite Hee in Hx3. injection Hx3 as <-.
  replace (js "addr_prot" =s []) with false by done. replace (js "addr_sp" =s []) with false by done. replace (js "addr_ep" =s []) with false by done.
  destruct (known_text _ Hk) as (_ & _ & ->), (numeral_text _ Ns) as [_ ->], (numeral_text _ Ne) as [_ ->].
  destruct (merge_or_add_separate range_row [2%nat; 3%nat; 4%nat] [v0; value epr; value es; value ee; v4]
    (mkRule (value epr) (dec_val (value es)) (dec_val (value ee)))
    both_tcp both_udp range_known (range_new v0 _ _ _ v4 Hk Ns Ne Hle) (λ y ds Hy Hb, range_same v0 _ _ _ v4 y ds Hy Hb) range_both range_name
    tr rr rs Hr Pr (added_apart _ _ _ _ Hr A2)) as (t' & rr' & Em & Hr' & Pr' & Pz).
  { intros z Hz. split; [exact (rules_known _ _ _ _ Hs single_known Hz)|]. exact (all_apart _ _ _ _ Hs A1 z Hz). }
  { intros y z Hy Hz. symmetry. auto. }
  rewrite Em. cbn [exn_bind]. intros [= <-]. exists ts, t', rs, rr'. split_and!; try done. intros x y Hx Hy. symmetry. auto.
Qed.

(** ** Editing *)
Lemma edit_separate row t (rs ro : list rule) x id l t' : table_rules row t rs → pairwise separate rs →
  (∀ y ds, row y ds → Forall (λ cv, ∃ s, ds !! fst cv = Some (DStr s)) l ∧ row x (fold_left (λ ds cv, <[fst cv := DStr (snd cv)]> ds) l ds)) →
  apart_from x t row (Some (Some id)) → (∀ z, z ∈ ro → separate z x) → (∀ y z, y ∈ rs → z ∈ ro → separate y z) →
  set_datas t id l = Ret t' → ∃ rs', table_rules row t' rs' ∧ pairwise separate rs' ∧ (∀ y z, y ∈ rs' → z ∈ ro → separate y z).
Proof.
  intros (Hwf & D & HD & HF) Hpw Hl Ha Hro Hz E. destruct (decide (id ∈ map r_id (t_body t))) as [Hin|Hnin].
  - apply list_elem_of_fmap in Hin as (r & -> & (i & Hi)%list_elem_of_lookup).
    assert (Hlen : length (t_body t) = length D).
    { pose proof HD as HD'. apply table_data_rows in HD'; [|done]. apply (f_equal length) in HD'. by rewrite !length_map in HD'. }
    destruct (lookup_lt_is_Some_2 D i) as [ds Hds]; [rewrite <- Hlen; by eapply lookup_lt_Some|].
    destruct (Forall2_lookup_r _ _ _ _ _ HF Hds) as (y & Hy & Hrow). destruct (Hl y ds Hrow) as [Hcols Hx].
    destruct (set_datas_effect true false t D i r ds l Hwf HD Hi Hds) as (t1 & E1' & W1 & _ & D1); [done|].
    rewrite E in E1'. injection E1' as <-. exists (<[i := x]> rs). split_and!.
    + split; [done|]. eexists. split; [exact D1|]. by apply Forall2_insert.
    + apply pairwise_insert; [apply _|done|]. intros j y' Hj Hji. destruct (Forall2_lookup_l _ _ _ _ _ HF Hj) as (ds' & Hds' & Hy').
      eapply Ha; [done..|]. destruct (lookup_lt_is_Some_2 (t_body t) j) as [r' Hr']; [rewrite Hlen; by eapply lookup_lt_Some|].
      by eapply not_excluded_edit.
    + intros y' z [j Hj]%list_elem_of_lookup Hzo. apply list_lookup_insert_Some in Hj as [(_ & <- & _)|[_ Hj]]; [symmetry; auto|].
      apply Hz; [by eapply list_elem_of_lookup_2|done].
  - rewrite set_datas_absent in E.
    + injection E as <-. exists rs. split_and!; [|done..]. split; [done|]. eauto.
    + intros r Hr Eid. apply Hnin. subst. by apply list_elem_of_fmap_2.
Qed.

Lemma selected_known d id e : elements d !! id = Some e → is_select e = true → known (value e) →
  getSelectedValue UI d id = Ret (Some (value e), d).
Proof.
  intros He Hs Hk. destruct (known_text _ Hk) as [Hn _]. unfold getSelectedValue, getElementById. rewrite He.
  unfold value in *. rewrite Hs in *. unfold selected_option in *. destruct (0 <=? e_selectedIndex e); [|done].
  by destruct (e_options e !! Z.to_nat (e_selectedIndex e)).
Qed.

Lemma edit_single_separate p p' id : single_form (fw_doc p) → page_separate p → editForward UI prtS p true id = Ret p' → page_separate p'.
Proof.
  intros Hf (ts & tr & rs & rr & Ets & Etr & Hs & Hr & Ps & Pr & Psr). unfold editForward.
  destruct (proofreadForwardSingle UI prtS p (Some id)) as [[errs d]|] eqn:E; [|done]. cbn [exn_bind fst snd].
  destruct errs as [|e errs]; [|intros [= <-]; exists ts, tr, rs, rr; done]. cbn [length Nat.eqb negb].
  destruct (single_checked p ts tr (Some id) d Hf Ets Etr E) as (epr & efp & n & S & Hpr & Spr & Hk & Hfp & Vfp & Hn & A1 & A2).
  destruct (edit_values UI d false true) as [[l d']|] eqn:Ev; [|done]. cbn [exn_bind fst snd].
  assert (∃ name ip dp, l = [(0%nat, name); (1%nat, value epr); (2%nat, str_of_Z n); (3%nat, ip); (4%nat, dp)]) as (name & ip & dp & ->).
  { unfold edit_values in Ev. rewrite (selected_known d _ epr) in Ev by done.
    destruct (el d (field_id _ _ (js "desc"))); [|done]. cbn [exn_bind fst snd columns_of exn_map] in Ev.
    replace (el d (field_id _ _ (js "fp"))) with (Ret efp) in Ev by (symmetry; exact (f_equal (exn_of_option TypeError) Hfp)).
    cbn [exn_bind] in Ev. do 2 (destruct (el d _); cbn [exn_bind] in Ev; [|done]). cbn [default] in Ev.
    injection Ev as <- _. rewrite Vfp. by eexists _, _, _. }
  rewrite Ets. cbn [edit_cells]. destruct (set_datas ts id _) as [t'|] eqn:Et; [|done]. cbn [exn_bind]. intros [= <-].
  destruct (edit_separate single_row ts rs rr (mkRule (value epr) n n) id
    [(0%nat, name); (1%nat, value epr); (2%nat, str_of_Z n); (3%nat, ip); (4%nat, dp)] t' Hs Ps) as (rs' & Hs' & Ps' & Pz); try done.
  - intros y ds []. split; [repeat (constructor; [by eexists|]); constructor|]. cbn. by constructor.
  - intros z Hz. exact (all_apart _ _ _ _ Hr A2 z Hz).
  - by exists t', tr, rs', rr.
Qed.

Lemma edit_range_separate p p' id : range_form (fw_doc p) → page_separate p → editForward UI prtS p false id = Ret p' → page_separate p'.
Proof.
  intros Hf (ts & tr & rs & rr & Ets & Etr & Hs & Hr & Ps & Pr & Psr). unfold editForward.
  destruct (proofreadForwardRange UI prtS p (Some id)) as [[errs d]|] eqn:E; [|done]. cbn [exn_bind fst snd].
  destruct errs as [|e errs]; [|intros [= <-]; exists ts, tr, rs, rr; done]. cbn [length Nat.eqb negb].
  destruct (range_checked p ts tr (Some id) d Hf Ets Etr E) as (epr & es & ee & S & Hpr & Spr & Hk & Hes & Hee & Ns & Ne & Hle & A1 & A2).
  destruct (edit_values UI d false false) as [[l d']|] eqn:Ev; [|done]. cbn [exn_bind fst snd].
  assert (∃ name ip, l = [(0%nat, name); (1%nat, value epr); (2%nat, value es); (3%nat, value ee); (4%nat, ip)]) as (name & ip & ->).
  { unfold edit_values in Ev. rewrite (selected_known d _ epr) in Ev by done.
    destruct (el d (field_id _ _ (js "desc"))); [|done]. cbn [exn_bind fst snd columns_of exn_map] in Ev.
    replace (el d (field_id _ _ (js "sp"))) with (Ret es) in Ev by (symmetry; exact (f_equal (exn_of_option TypeError) Hes)).
    replace (el d (field_id _ _ (js "ep"))) with (Ret ee) in Ev by (symmetry; exact (f_equal (exn_of_option TypeError) Hee)).
    cbn [exn_bind] in Ev. destruct (el d _); cbn [exn_bind] in Ev; [|done]. cbn [default] in Ev.
    injection Ev as <- _. by eexists _, _. }
  rewrite Etr. cbn [edit_cells]. destruct (set_datas tr id _) as [t'|] eqn:Et; [|done]. cbn [exn_bind]. intros [= <-].
  destruct (edit_separate range_row tr rr rs (mkRule (value epr) (dec_val (value es)) (dec_val (value ee))) id
    [(0%nat, name); (1%nat, value epr); (2%nat, value es); (3%nat, value ee); (4%nat, ip)] t' Hr Pr) as (rr' & Hr' & Pr' & Pz); try done.
  - intros y ds []. split; [repeat (constructor; [by eexists|]); constructor|]. cbn. by constructor.
  - intros z Hz. exact (all_apart _ _ _ _ Hs A1 z Hz).
  - intros y z Hy Hz. symmetry. auto.
  - exists ts, t', rs, rr'. split_and!; try done. intros x y Hx Hy. symmetry. auto.
Qed.

(** ** Use of the page *)
Lemma remove_rules row t rs i r t' : table_rules row t rs → t_body t !! i = Some r → removeThisCellsRow t (r_id r) = Ret t' →
  (∀ y ds, row y ds → row y (map enabled_datum ds)) → table_rules row t' (delete i rs).
Proof.
  intros (Hwf & D & HD & HF) Hi Er Hset.
  destruct (removeRow_data true false t D i r Hwf HD Hi) as (t1 & E1 & W1 & D1). rewrite Er in E1. injection E1 as <-.
  split; [done|]. eexists. split; [exact D1|]. apply Forall2_fmap_r. apply (Forall2_impl row); [by apply Forall2_delete|auto].
Qed.

Lemma single_enabled y ds : single_row y ds → single_row y (map enabled_datum ds).
Proof. intros []. cbn. by constructor. Qed.
Lemma range_enabled y ds : range_row y ds → range_row y (map enabled_datum ds).
Proof. intros []. cbn. by constructor. Qed.

Lemma elem_of_delete {A} (l : list A) i x : x ∈ delete i l → x ∈ l.
Proof. intros H. eapply elem_of_submseteq; [exact H|]. apply sublist_submseteq, sublist_delete. Qed.

(** *** The opened ports *)

(** The fields of an opened range are those of an opened range of the other protocol. *)
Definition opens_twin (p : forward_page) : bool :=
  match (let! r := proofreadOpenRange UI prtS p None in
         let! v := read_fields (js "addor_ip") (snd r) [js "addor_desc"; js "addor_prot"; js "addor_sp"; js "addor_ep"; js "addor_ip"] in
         let! t := exn_of_option TypeError (fw_open_range p) in
         let! D := getTableDataArray t true false in
         Ret (existsb (same_rule [2%nat; 3%nat; 4%nat] (fst v)) D)) with
  | Ret b => b
  | Raise _ => false
  end.

(** A call that merges two opened ranges writes into the table of forwarded ranges,
    when the global variable refers to it. *)
Definition open_range_harmless (p : forward_page) : Prop := fw_ref p ≠ Current ∨ opens_twin p = false.

Lemma merge_open_keeps values range ref t D range' ref' t' m : getTableDataArray t true false = Ret D →
  ref ≠ Current ∨ existsb (same_rule [2%nat; 3%nat; 4%nat] values) D = false →
  merge_open_range UI values range ref t = Ret (range', ref', t', m) → range' = range.
Proof.
  intros HD Hg. unfold merge_open_range. rewrite HD. cbn [exn_bind].
  assert (Hall : ∀ i r, (i, r) ∈ imap (λ i r, (i, r)) D → ref ≠ Current ∨ same_rule [2%nat; 3%nat; 4%nat] values r = false).
  { intros i r (j & Hj)%list_elem_of_lookup. rewrite list_lookup_imap in Hj. destruct (D !! j) as [x|] eqn:Ex; [|done]. injection Hj as <- <-.
    destruct Hg as [?|Hg]; [by left|right]. apply not_true_iff_false. intros Hs. apply not_true_iff_false in Hg. apply Hg, existsb_exists.
    exists x. split; [|done]. by apply list_elem_of_In, (list_elem_of_lookup_2 _ j). }
  intros E. eapply (exn_fold_inv (λ st, st.1.1.1 = range ∧ (ref ≠ Current → st.1.1.2 ≠ Current))) in E; [by destruct E|..|done].
  intros [[[ra re] ta] ma] [i r] [[[rb rf] tb] mb] Hin [H1 H2]. cbn [fst snd] in *. subst ra. destruct (same_rule _ _ r) eqn:Es; [|by intros [= <- <- <- <-]].
  destruct (Hall i r Hin) as [Hr|]; [|congruence]. specialize (H2 Hr). intros Ei. apply exn_bind_Ret in Ei as ([r1 r2] & Er & Ei).
  apply exn_bind_Ret in Ei as (t1 & _ & Ei). injection Ei as <- <- _ _.
  destruct re; cbn [set_ref_both] in Er; [done|done|]. apply exn_bind_Ret in Er as (t2 & _ & Er). by injection Er as <- <-.
Qed.

Lemma open_range_keeps p p' : open_range_harmless p → addPortoRangeRule UI prtS p = Ret p' → fw_single p' = fw_single p ∧ fw_range p' = fw_range p.
Proof.
  unfold open_range_harmless, opens_twin, addPortoRangeRule. intros Hg E. binds E. rewrite E0 in Hg. cbn [exn_bind] in Hg.
  destruct (negb _); [by injection E as <-|]. binds E. rewrite E1, E2 in Hg. cbn [exn_bind] in Hg. destruct a2 as [[[range ref] t] merged].
  injection E as <-. split; [done|]. cbn. unfold merge_open_range in E3. destruct (getTableDataArray a1 true false) as [D|] eqn:HD; [|done].
  apply (merge_open_keeps (fst a0) (fw_range p) (fw_ref p) a1 D range ref t merged HD); [exact Hg|]. unfold merge_open_range. by rewrite HD.
Qed.

Lemma add_open_keeps p p' : addPortoRule UI prtS p = Ret p' → fw_single p' = fw_single p ∧ fw_range p' = fw_range p.
Proof. unfold addPortoRule. intros E. binds E. destruct (negb _); [|binds E]; by injection E as <-. Qed.

Lemma edit_open_keeps p p' b id : editOpen UI prtS p b id = Ret p' → fw_single p' = fw_single p ∧ fw_range p' = fw_range p.
Proof. unfold editOpen. intros E. binds E. destruct (negb _); [by injection E as <-|]. binds E. destruct b; binds E; by injection E as <-. Qed.

Lemma separate_kept p p' : fw_single p' = fw_single p ∧ fw_range p' = fw_range p → page_separate p → page_separate p'.
Proof. intros [E1 E2]. unfold page_separate. by rewrite E1, E2. Qed.

(** What a user can do on the page between two loads: fill the fields, open the
    windows, add, edit and remove rules of the four tables, with the UPnP table
    refreshed.  Of the forwarded ports, a protocol is chosen ([single_form],
    [range_form]); of the opened ranges, a call that would write into the table
    of forwarded ranges is left out. *)
Inductive forward_step : forward_page → forward_page → Prop :=
| fs_fields p d : forward_step p (with_doc p d)
| fs_add p p' : single_form (fw_doc p) → addPortfRule UI prtS p = Ret p' → forward_step p p'
| fs_add_range p p' : range_form (fw_doc p) → addPortfRangeRule UI prtS p = Ret p' → forward_step p p'
| fs_edit p p' id : single_form (fw_doc p) → editForward UI prtS p true id = Ret p' → forward_step p p'
| fs_edit_range p p' id : range_form (fw_doc p) → editForward UI prtS p false id = Ret p' → forward_step p p'
| fs_remove p t t' i r : fw_single p = Some t → t_body t !! i = Some r → removeThisCellsRow t (r_id r) = Ret t' →
    forward_step p (with_single p (Some t'))
| fs_remove_range p t t' i r : fw_range p = Some t → t_body t !! i = Some r → removeThisCellsRow t (r_id r) = Ret t' →
    forward_step p (with_range p (Some t') (fw_ref p))
| fs_add_open p p' : addPortoRule UI prtS p = Ret p' → forward_step p p'
| fs_add_open_range p p' : open_range_harmless p → addPortoRangeRule UI prtS p = Ret p' → forward_step p p'
| fs_edit_open p p' b id : editOpen UI prtS p b id = Ret p' → forward_step p p'
| fs_remove_open p t t' id : fw_open p = Some t → removeThisCellsRow t id = Ret t' → forward_step p (with_open p (Some t'))
| fs_remove_open_range p t t' id : fw_open_range p = Some t → removeThisCellsRow t id = Ret t' → forward_step p (with_open_range p (Some t'))
| fs_upnp p p' text : upnp_answer UI prtS text p = Ret p' → forward_step p p'.

Lemma forward_step_separate p p' : page_separate p → forward_step p p' → page_separate p'.
Proof.
  intros Hp Hs. destruct Hs as [p d|p p' Hf E|p p' Hf E|p p' id Hf E|p p' id Hf E|p t t' i r Ht Hi Er|p t t' i r Ht Hi Er
    |p p' E|p p' Hg E|p p' b id E|p t t' id Ht E|p t t' id Ht E|p p' text E].
  - exact Hp.
  - by eapply add_single_separate.
  - by eapply add_range_separate.
  - by eapply edit_single_separate.
  - by eapply edit_range_separate.
  - destruct Hp as (ts & tr & rs & rr & Ets & Etr & Hs & Hr & Ps & Pr & Psr). rewrite Ht in Ets. injection Ets as <-.
    exists t', tr, (delete i rs), rr. split_and!; try done; [by eapply remove_rules, single_enabled|by apply pairwise_delete|].
    intros x y Hx. apply Psr. by eapply elem_of_delete.
  - destruct Hp as (ts & tr & rs & rr & Ets & Etr & Hs & Hr & Ps & Pr & Psr). rewrite Ht in Etr. injection Etr as <-.
    exists ts, t', rs, (delete i rr). split_and!; try done; [by eapply remove_rules, range_enabled|by apply pairwise_delete|].
    intros x y Hx Hy. apply Psr; [done|]. by eapply elem_of_delete.
  - by eapply separate_kept; [eapply add_open_keeps|].
  - by eapply separate_kept; [eapply open_range_keeps|].
  - by eapply separate_kept; [eapply edit_open_keeps|].
  - by apply (separate_kept p).
  - by apply (separate_kept p).
  - apply (separate_kept p); [|done]. unfold upnp_answer in E. binds E. by injection E as <-.
Qed.

End rules.

(** C6: forwarded ports.  From a page whose rules forward no port of a protocol
    twice, until it is loaded again: whatever the user fills in, adds, edits and
    removes in the tables of forwarded and of opened ports, no two rules of the
    two tables of forwarded ports forward the same port of the same protocol.
    The checks compare a new or edited rule with every other one, and a rule that
    differs from an existing one in its protocol only is merged with it.  It is
    required that one of the three protocols is chosen for a forwarded rule, that
    the port of a single rule is written without leading zeros, and that no
    opened range is added that only differs from another one in its protocol
    while the global variable [portfRangeTable] is the table of the page: that
    call writes into the table of forwarded ranges. *)
Theorem forwards_stay_separate UI prtS p p' :
  both UI ∉ [js "TCP"; js "UDP"; []] → 10 ∉ both UI → page_separate UI p → rtc (forward_step UI prtS) p p' → page_separate UI p'.
Proof.
  intros Hb Hl Hp Hs. rewrite !not_elem_of_cons in Hb. destruct Hb as (? & ? & ? & _).
  induction Hs as [|p p1 p2 Hs _ IH]; [done|]. by eapply IH, forward_step_separate.
Qed.

(** ** A page to use *)
Definition prot_el (l : list jstr) (i : Z) : element := set_selectedIndex i (select_el l).
Definition sample_doc (both port range_end : jstr) : document := mkDoc (list_to_map
  [(js "add_desc", input_el (js "web")); (js "add_prot", prot_el [both; js "TCP"; js "UDP"] 1);
   (js "add_fp", input_el port); (js "add_fp_label", label_el (js "Port:")); (js "add_ip", input_el (js "192.168.1.20"));
   (js "add_ip_label", label_el (js "IP:")); (js "add_dp", input_el []); (js "add_dp_label", label_el (js "Port:"));
   (js "addor_desc", input_el []); (js "addor_prot", prot_el [both; js "TCP"; js "UDP"] 1); (js "addor_sp", input_el (js "1000"));
   (js "addor_sp_label", label_el (js "Start:")); (js "addor_ep", input_el range_end); (js "addor_ep_label", label_el (js "End:"));
   (js "addor_ip", input_el (js "fd00::20")); (js "addor_ip_label", label_el (js "IP:"))]) [].

Definition cell_row (l : list jstr) : list datum := map DStr l ++ [DObj (checkbox true); DObj (createEditButton (λ s, s))].
Definition rule_table (rows : list (list jstr)) : table := createTable (js "Remove") [] (map cell_row rows) (js "t") true false.

(** A rule for UDP, a range, and an opened range for UDP. *)
Definition sample_page (port : jstr) (ref : table_ref) : forward_page :=
  mkForward (sample_doc (js "both") port (js "2000")) Uci.new
    (Some (rule_table [[js "-"; js "UDP"; js "80"; js "192.168.1.20"; js "80"]]))
    (Some (rule_table [[js "-"; js "TCP"; js "1000"; js "2000"; js "192.168.1.30"]]))
    (Some (rule_table [])) (Some (rule_table [[js "-"; js "UDP"; js "1000"; js "2000"; js "fd00::20"]])) None ref.

Lemma forwards_stay_separate_witness : ∃ p', addPortfRule (λ s, s) (λ s, s) (sample_page (js "80") Unassigned) = Ret p' ∧ page_separate (λ s, s) p'.
Proof.
  eexists. split; [vm_compute; reflexivity|].
  apply (forwards_stay_separate (λ s, s) (λ s, s) (sample_page (js "80") Unassigned)).
  - by apply (bool_decide_eq_true_1 (both (λ s, s) ∉ [js "TCP"; js "UDP"; []])).
  - by apply (bool_decide_eq_true_1 (10 ∉ both (λ s, s))).
  - eexists _, _, [mkRule (js "UDP") 80 80], [mkRule (js "TCP") 1000 2000]. split; [reflexivity|]. split; [reflexivity|]. split_and!.
    + split; [unfold rule_table, createTable; apply createTable_rows; by repeat constructor|]. eexists. split; [vm_compute; reflexivity|].
      constructor; [|constructor]. apply (single_row_intro (λ s, s) _ (js "UDP") 80); [right; left; reflexivity|done].
    + split; [unfold rule_table, createTable; apply createTable_rows; by repeat constructor|]. eexists. split; [vm_compute; reflexivity|].
      constructor; [|constructor]. apply (range_row_intro (λ s, s) _ (js "TCP") (js "1000") (js "2000")); [by left|by split; [done|repeat constructor]..|done].
    + intros i j h h' Hi%list_lookup_singleton_Some Hj%list_lookup_singleton_Some Hij. lia.
    + intros i j h h' Hi%list_lookup_singleton_Some Hj%list_lookup_singleton_Some Hij. lia.
    + intros x y ->%list_elem_of_singleton ->%list_elem_of_singleton (_ & _ & H). cbn in H. lia.
  - apply rtc_once, fs_add; [|vm_compute; reflexivity]. split.
    + repeat (constructor; [split; [split_and!; try (eexists; vm_compute; reflexivity); eexists _, _; split; vm_compute; reflexivity|vm_compute; reflexivity]|]). constructor.
    + eexists. vm_compute. reflexivity.
    + eexists. split; [vm_compute; reflexivity|]. split; [reflexivity|]. left. reflexivity.
    + eexists _, 80. split; [vm_compute; reflexivity|]. split; [reflexivity|lia].
Defined.

(** ** Where the page does not do what it means to *)

(** The texts of a table, without its controls. *)
Definition texts (t : option table) : exn (list (list jstr)) :=
  let! t := exn_of_option TypeError t in
  let! D := getTableDataArray t true false in
  Ret (map (omap (λ d, match d with DStr s => Some s | DObj _ => None end)) D).

(** Single ports are compared as text: the port 80 written with a leading zero is
    accepted beside the rule for both protocols, and is forwarded twice. *)
Theorem leading_zero_accepted :
  let p port := mkForward (sample_doc (js "both") port (js "2000")) Uci.new
    (Some (rule_table [[js "-"; js "both"; js "80"; js "192.168.1.20"; js "80"]])) (Some (rule_table [])) None None None Unassigned in
  let result port := let! p := addPortfRule (λ s, s) (λ s, s) (p port) in texts (fw_single p) in
  result (js "80") = Ret [[js "-"; js "both"; js "80"; js "192.168.1.20"; js "80"]] ∧
  result (js "080") = Ret [[js "-"; js "both"; js "80"; js "192.168.1.20"; js "80"]; [js "web"; js "TCP"; js "080"; js "192.168.1.20"; js "080"]].
Proof. cbn zeta. split; vm_compute; reflexivity. Qed.

(** An opened range that should be merged with the same one of the other protocol
    writes to the table of forwarded ranges: it throws when no range was added
    before, and otherwise changes the protocol of a rule that it does not concern. *)
Theorem open_range_merge_wrong_table :
  addPortoRangeRule (λ s, s) (λ s, s) (sample_page (js "80") Unassigned) = Raise ReferenceError ∧
  (let! p := addPortoRangeRule (λ s, s) (λ s, s) (sample_page (js "80") Current) in
   let! r := texts (fw_range p) in let! o := texts (fw_open_range p) in Ret (r, o)) =
  Ret ([[js "-"; js "both"; js "1000"; js "2000"; js "192.168.1.30"]], [[js "-"; js "UDP"; js "1000"; js "2000"; js "fd00::20"]]).
Proof. split; vm_compute; reflexivity. Qed.

(** In another language than English, the window for a new rule opens with no
    protocol chosen; a rule added then has the protocol "-". *)
Theorem new_rule_without_protocol :
  let UI s := if s =s js "both" then js "beide" else s in
  let p := mkForward (sample_doc (js "beide") (js "443") (js "2000")) Uci.new (Some (rule_table [])) (Some (rule_table [])) None None None Unassigned in
  let opened := addPortFModal p true in
  (value <$> elements (fw_doc p) !! js "add_prot") = Some (js "TCP") ∧ (value <$> elements (fw_doc opened) !! js "add_prot") = Some [] ∧
  (let! d := update (fw_doc opened) (js "add_fp") (set_value (js "443")) in
   let! d := update d (js "add_ip") (set_value (js "192.168.1.20")) in
   let! p := addPortfRule UI (λ s, s) (with_doc opened d) in texts (fw_single p)) =
  Ret [[js "-"; js "-"; js "443"; js "192.168.1.20"; js "443"]].
Proof. cbn zeta. split_and!; vm_compute; reflexivity. Qed.

(** A rule that is on for TCP and off for UDP is shown as on for both. *)
Theorem disabled_rule_is_merged :
  let opts proto := forward_opts (js "web") (js "80") [(js "dest_ip", js "192.168.1.20"); (js "dest_port", js "80")] proto in
  let u := Sections.write_sections (js "firewall") Uci.new
    [(js "redirect_enabled_number_0", js "redirect", opts (js "tcp")); (js "redirect_disabled_number_0", js "redirect_disabled", opts (js "udp"))] in
  (let! r := load_forwards (λ s, s) u in Ret (sc_rows (fst r))) = Ret [cell_row [js "web"; js "both"; js "80"; js "192.168.1.20"; js "80"]].
Proof. vm_compute. reflexivity. Qed.
