(* ===== verification/PortForwardSave.v ===== *)
(** * Saving the forwarded ports and reading them back *)
From S2P Require Import Prelude JsNum JsString JsRegex Uci UciFacts Backend UciScript Sections Ip4 Validate Ip4Facts Ip6 Table TableFacts TableEdit Dom Modal Ports PortForward.
Import Uci Table TableEdit Sections PortForward.
Import Ip4(nth_str).
Open Scope Z_scope.

Abbreviation fw := (js "firewall").

(** A rule of one of the tables. *)
Inductive protocol := Tcp | Udp | TcpUdp.
Inductive ports := Single (fp dp : jstr) | Range (sp ep : jstr).
Record frule := mkFrule { fr_name : jstr; fr_protocol : protocol; fr_ports : ports; fr_ip : jstr; fr_on : bool }.

(** A rule for one protocol: what a section holds. *)
Definition atom : Type := frule * jstr.
Definition protos (p : protocol) : list jstr := match p with Tcp => [js "tcp"] | Udp => [js "udp"] | TcpUdp => [js "tcp"; js "udp"] end.
Definition atoms (r : frule) : list atom := map (λ p, (r, p)) (protos (fr_protocol r)).

Definition src_port (r : frule) : jstr := match fr_ports r with Single fp _ => fp | Range sp ep => sp ++ js "-" ++ ep end.
Definition dest_port (r : frule) : jstr := match fr_ports r with Single _ dp => dp | Range sp ep => sp ++ js "-" ++ ep end.
Definition rule_opts (r : frule) (proto : jstr) : list (jstr * jstr) :=
  forward_opts (fr_name r) (src_port r)
    (match fr_ports r with
     | Single _ dp => [(js "dest_ip", fr_ip r); (js "dest_port", dp)]
     | Range sp ep => [(js "dest_port", sp ++ js "-" ++ ep); (js "dest_ip", fr_ip r)]
     end) proto.
Definition hash_of (r : frule) : jstr := fr_name r ++ js "-" ++ src_port r ++ js "-" ++ fr_ip r ++ js "-" ++ dest_port r.

(** What the checks of the page require of the ports that are forwarded. *)
Definition valid_rule (r : frule) : Prop :=
  match fr_ports r with Single fp _ => numeral fp | Range sp ep => numeral sp ∧ numeral ep end.

(** A rule as it is read back: a blank description is a dash, and a blank port of
    the target is the forwarded port. *)
Definition normal (r : frule) : frule :=
  mkFrule (or_dash (fr_name r)) (fr_protocol r)
    (match fr_ports r with Single fp dp => Single fp (if dp =s [] then fp else dp) | Range sp ep => Range sp ep end) (fr_ip r) (fr_on r).

(** The section of an atom, and those of a list: the numbers of the rules that
    are on and off count separately. *)
Definition sec_id (on : bool) (n : Z) : jstr := js "redirect_" ++ (if on then js "enabled" else js "disabled") ++ js "_number_" ++ str_of_Z n.
Definition atom_rec (n : Z) (a : atom) : section_rec :=
  (sec_id (fr_on (fst a)) n, rule_type (js "redirect") (fr_on (fst a)), rule_opts (fst a) (snd a)).
Fixpoint recs (e d : Z) (l : list atom) : list section_rec :=
  match l with
  | [] => []
  | a :: l' => if fr_on (fst a) then atom_rec e a :: recs (e + 1) d l' else atom_rec d a :: recs e (d + 1) l'
  end.

(** ** Saving *)
Section saving.
Context (UI : jstr → jstr).
Hypothesis both_lower : toLowerCase (both UI) ∉ [js "tcp"; js "udp"].

Definition proto_text (p : protocol) : jstr := match p with Tcp => js "TCP" | Udp => js "UDP" | TcpUdp => both UI end.

(** The row that shows a rule. *)
Definition rule_data (w w' : widget) (r : frule) : list datum :=
  match fr_ports r with
  | Single fp dp => [DStr (fr_name r); DStr (proto_text (fr_protocol r)); DStr fp; DStr (fr_ip r); DStr dp; DObj w; DObj w']
  | Range sp ep => [DStr (fr_name r); DStr (proto_text (fr_protocol r)); DStr sp; DStr ep; DStr (fr_ip r); DObj w; DObj w']
  end.
Definition is_single (r : frule) : bool := match fr_ports r with Single _ _ => true | Range _ _ => false end.
Definition shows_rule (single : bool) (r : frule) (ds : list datum) : Prop :=
  is_single r = single ∧ ∃ w w', w_checked w = fr_on r ∧ ds = rule_data w w' r.

Definition save_atom (st : save_state) (a : atom) : save_state :=
  save_rule (js "redirect_") (js "redirect") (fr_on (fst a)) (rule_opts (fst a)) st (snd a).

Lemma protos_of_text p : protos_of UI (proto_text p) = protos p.
Proof.
  rewrite !not_elem_of_cons in both_lower. destruct both_lower as (Ht & Hu & _). unfold protos_of.
  destruct p; cbn [proto_text protos].
  - rewrite (proj2 (str_eqb_neq _ _)); [done|]. intros E. apply Ht. by rewrite <- E.
  - rewrite (proj2 (str_eqb_neq _ _)); [done|]. intros E. apply Hu. by rewrite <- E.
  - by rewrite (proj2 (str_eqb_eq _ _)).
Qed.

Lemma fold_atoms r opts st : (∀ p, opts p = rule_opts r p) →
  fold_left (save_rule (js "redirect_") (js "redirect") (fr_on r) opts) (protos (fr_protocol r)) st = fold_left save_atom (atoms r) st.
Proof.
  intros Ho. unfold atoms. generalize (protos (fr_protocol r)). intros l. revert st. induction l as [|p l IH]; intros st; [done|].
  cbn [map fold_left]. rewrite IH. unfold save_atom at 3, save_rule. cbn [fst snd]. by rewrite Ho.
Qed.

Lemma save_shown single r ds st : shows_rule single r ds →
  (if single then save_single UI else save_range UI) st ds = Ret (fold_left save_atom (atoms r) st).
Proof.
  intros (Hs & w & w' & Hw & ->). unfold rule_data, is_single in *. destruct single, (fr_ports r) as [fp dp|sp ep] eqn:Ep; try done.
  - unfold save_single, datum_checked, datum_str. cbn [lookup list_lookup exn_bind]. rewrite protos_of_text, Hw. f_equal.
    apply fold_atoms. intros p. unfold rule_opts, src_port. by rewrite Ep.
  - unfold save_range, datum_checked, datum_str. cbn [lookup list_lookup exn_bind]. rewrite protos_of_text, Hw. f_equal.
    apply fold_atoms. intros p. unfold rule_opts, src_port. by rewrite Ep.
Qed.

Lemma save_all_shown single rs D st : Forall2 (shows_rule single) rs D →
  exn_fold (if single then save_single UI else save_range UI) D st = Ret (fold_left save_atom (flat_map atoms rs) st).
Proof.
  intros HF. revert st. induction HF as [|r ds rs D Hr _ IH]; intros st; [done|]. cbn [exn_fold flat_map].
  rewrite (save_shown single r ds st Hr). cbn [exn_bind]. by rewrite IH, fold_left_app.
Qed.

Lemma fold_save_atom l u c e d : ∃ c' e' d', fold_left save_atom l (mkSave u c e d) = mkSave (write_sections fw u (recs e d l)) c' e' d'.
Proof.
  revert u c e d. induction l as [|a l IH]; intros u c e d; [by eexists _, _, _|]. cbn [fold_left recs].
  unfold save_atom at 2, save_rule, rule_id. cbn [sv_uci sv_commands sv_enabled sv_disabled]. destruct (fr_on (fst a)) eqn:Ea.
  - replace (d + 0) with d by lia. destruct (IH (write_section fw u (sec_id true e) (rule_type (js "redirect") true) (rule_opts (fst a) (snd a)))
      (c ++ [js "uci set firewall." ++ sec_id true e ++ js "=" ++ rule_type (js "redirect") true]) (e + 1) d) as (c' & e' & d' & E).
    eexists _, _, _. etrans; [exact E|]. unfold write_sections. cbn [fold_left]. unfold atom_rec. by rewrite Ea.
  - replace (e + 0) with e by lia. destruct (IH (write_section fw u (sec_id false d) (rule_type (js "redirect") false) (rule_opts (fst a) (snd a)))
      (c ++ [js "uci set firewall." ++ sec_id false d ++ js "=" ++ rule_type (js "redirect") false]) e (d + 1)) as (c' & e' & d' & E).
    eexists _, _, _. etrans; [exact E|]. unfold write_sections. cbn [fold_left]. unfold atom_rec. by rewrite Ea.
Qed.

End saving.

(** ** The sections *)
Section sections.

Lemma word_sec on n : 0 <= n → word (sec_id on n).
Proof.
  intros Hn. unfold sec_id. rewrite !app_assoc. apply word_numbered; [|done]. destruct on; (split; [done|repeat constructor]).
Qed.

Lemma sec_id_inj on on' n n' : 0 <= n → 0 <= n' → sec_id on n = sec_id on' n' → on = on' ∧ n = n'.
Proof.
  intros Hn Hn' E. unfold sec_id in E. apply app_inv_head in E. destruct on, on'; try done.
  - apply app_inv_head, app_inv_head in E. apply str_of_Z_inj in E; done.
  - apply app_inv_head, app_inv_head in E. apply str_of_Z_inj in E; done.
Qed.

Lemma rule_opts_ok r p : Forall word (map fst (rule_opts r p)) ∧ NoDup (map fst (rule_opts r p)).
Proof. unfold rule_opts, forward_opts. destruct (fr_ports r); simpl; split; by_eval. Qed.

Lemma rec_name_atom n a : rec_name (atom_rec n a) = sec_id (fr_on (fst a)) n.
Proof. done. Qed.

Lemma recs_names e d l x : 0 <= e → 0 <= d → x ∈ recs e d l →
  ∃ on n, rec_name x = sec_id on n ∧ (if on then e else d) <= n ∧ rec_ok x.
Proof.
  revert e d. induction l as [|a l IH]; intros e d He Hd Hx; [set_solver|]. cbn [recs] in Hx.
  assert (Hok : ∀ n, 0 <= n → rec_ok (atom_rec n a)).
  { intros n Hn. split_and!; [by apply word_sec|unfold rec_type, atom_rec; simpl; by destruct (fr_on (fst a))|apply rule_opts_ok..]. }
  destruct (fr_on (fst a)) eqn:Ea; apply elem_of_cons in Hx as [->|Hx].
  - exists true, e. split_and!; [by rewrite rec_name_atom, Ea|lia|by apply Hok].
  - apply IH in Hx as (on & n & E & Hn & Hr); [|lia..]. exists on, n. split_and!; [done|destruct on; lia|done].
  - exists false, d. split_and!; [by rewrite rec_name_atom, Ea|lia|by apply Hok].
  - apply IH in Hx as (on & n & E & Hn & Hr); [|lia..]. exists on, n. split_and!; [done|destruct on; lia|done].
Qed.

Lemma recs_nodup e d l : 0 <= e → 0 <= d → NoDup (map rec_name (recs e d l)).
Proof.
  revert e d. induction l as [|a l IH]; intros e d He Hd; [constructor|]. cbn [recs]. destruct (fr_on (fst a)) eqn:Ea; cbn [map]; apply NoDup_cons; (split; [|apply IH; lia]).
  - intros (x & E & Hx)%list_elem_of_fmap. apply recs_names in Hx as (on & n & E' & Hn & _); [|lia..]. rewrite E' in E.
    rewrite rec_name_atom, Ea in E. apply sec_id_inj in E as [<- <-]; [lia|lia|destruct on; lia].
  - intros (x & E & Hx)%list_elem_of_fmap. apply recs_names in Hx as (on & n & E' & Hn & _); [|lia..]. rewrite E' in E.
    rewrite rec_name_atom, Ea in E. apply sec_id_inj in E as [<- <-]; [lia|lia|destruct on; lia].
Qed.

End sections.

(** ** Reading back *)
Section reading.
Context (UI : jstr → jstr).

Definition controls (on : bool) : list datum := [DObj (checkbox on); DObj (createEditButton UI)].

(** The row made of an atom. *)
Definition atom_row (a : atom) : list datum :=
  let r := fst a in
  match fr_ports r with
  | Single fp dp => [DStr (fr_name r); DStr (toUpperCase (snd a)); DStr fp; DStr (fr_ip r); DStr dp] ++ controls (fr_on r)
  | Range sp ep => [DStr (fr_name r); DStr (toUpperCase (snd a)); DStr sp; DStr ep; DStr (fr_ip r)] ++ controls (fr_on r)
  end.
Definition scan_list (sc : scan) (a : atom) : scan := scan_rule UI sc (snd a) (hash_of (fst a)) (atom_row a).
Definition scan_atom (st : scan * scan) (a : atom) : scan * scan :=
  let a' := (normal (fst a), snd a) in
  if is_single (fst a) then (scan_list (fst st) a', snd st) else (fst st, scan_list (snd st) a').

Lemma scan_redirect_holds u n a st : valid_rule (fst a) → snd a ∈ [js "tcp"; js "udp"] → holds_rec fw u (atom_rec n a) →
  scan_redirect UI u (rule_type (js "redirect") (fr_on (fst a))) st (rec_name (atom_rec n a)) = Ret (scan_atom st a).
Proof.
  destruct a as [[name prot [fp dp|sp ep] ip on] proto]; intros Hp Hproto [Hv _]; unfold scan_redirect, str_opt;
    unfold rec_name, rec_opts, atom_rec, rule_opts, forward_opts, src_port, valid_rule in *; cbn [fst snd fr_name fr_protocol fr_ports fr_ip fr_on] in *.
  - rewrite (Hv (js "name") name), (Hv (js "proto") proto), (Hv (js "src_dport") fp), (Hv (js "dest_ip") ip), (Hv (js "dest_port") dp) by set_solver.
    cbn [exn_bind]. f_equal. assert (fp =s [] = false) as -> by (by apply str_eqb_neq, Hp).
    assert (test Ip4.re_dash fp = false) as -> by (apply (test_chr_false 45); by apply numeral_no_dash). cbn [andb].
    rewrite !elem_of_cons, elem_of_nil in Hproto. destruct Hproto as [->|[->|[]]]; destruct on; reflexivity.
  - rewrite (Hv (js "name") name), (Hv (js "proto") proto), (Hv (js "src_dport") (sp ++ js "-" ++ ep)), (Hv (js "dest_ip") ip),
      (Hv (js "dest_port") (sp ++ js "-" ++ ep)) by set_solver.
    cbn [exn_bind]. destruct Hp as [Hsp Hep]. f_equal.
    assert ((sp ++ js "-" ++ ep) =s [] = false) as -> by (apply str_eqb_neq; by destruct sp).
    assert (test Ip4.re_dash (sp ++ js "-" ++ ep) = true) as -> by (apply (test_chr 45); set_solver).
    assert (split_re Ip4.re_dash (sp ++ js "-" ++ ep) = [sp; ep]) as ->.
    { change Ip4.re_dash with (RSet false [(45, 45)]). rewrite split_re_chr. change (js "-" ++ ep) with (45 :: ep).
      rewrite split_char_app by (by apply numeral_no_dash). by rewrite split_char_none by (by apply numeral_no_dash). }
    cbn [andb]. rewrite !elem_of_cons, elem_of_nil in Hproto. destruct Hproto as [->|[->|[]]]; destruct on; reflexivity.
Qed.

(** Reading the sections of the rules that are on, or off. *)
Lemma scan_recs u on e d l st : Forall (λ a, valid_rule (fst a) ∧ snd a ∈ [js "tcp"; js "udp"]) l → Forall (holds_rec fw u) (recs e d l) →
  exn_fold (scan_redirect UI u (rule_type (js "redirect") on)) (names_of_type (rule_type (js "redirect") on) (recs e d l)) st =
  Ret (fold_left scan_atom (List.filter (λ a : atom, Bool.eqb (fr_on (fst a)) on) l) st).
Proof.
  unfold names_of_type. revert e d st. induction l as [|a l IH]; intros e d st Hl Hh; [done|].
  apply Forall_cons in Hl as [[Hva Hpa] Hl]. cbn [recs] in *.
  assert (Hstep : ∀ n e' d' , holds_rec fw u (atom_rec n a) → Forall (holds_rec fw u) (recs e' d' l) →
    exn_fold (scan_redirect UI u (rule_type (js "redirect") on))
      (map rec_name (List.filter (λ r, rec_type r =s rule_type (js "redirect") on) (atom_rec n a :: recs e' d' l))) st =
    Ret (fold_left scan_atom (List.filter (λ a : atom, Bool.eqb (fr_on (fst a)) on) (a :: l)) st)).
  { intros n e' d' Ha Hr. cbn [List.filter]. change (rec_type (atom_rec n a)) with (rule_type (js "redirect") (fr_on (fst a))).
    destruct (Bool.eqb (fr_on (fst a)) on) eqn:Eo.
    - apply eqb_prop in Eo. rewrite <- Eo, (proj2 (str_eqb_eq _ _)) by done. cbn [map exn_fold fold_left].
      rewrite scan_redirect_holds by done. cbn [exn_bind]. rewrite Eo. by apply IH.
    - rewrite (proj2 (str_eqb_neq _ _)); [by apply IH|]. intros E. apply eqb_false_iff in Eo. apply Eo. by destruct (fr_on (fst a)), on. }
  destruct (fr_on (fst a)); apply Forall_cons in Hh as [Ha Hr]; by apply Hstep.
Qed.

(** ** Rows of rules *)

(** The row a rule is shown with after a reload. *)
Definition shown_rule (r : frule) : list datum := rule_data UI (checkbox (fr_on r)) (createEditButton UI) r.

Definition as_both (r : frule) : frule := mkFrule (fr_name r) TcpUdp (fr_ports r) (fr_ip r) (fr_on r).

(** A rule that only differs from an earlier one in its protocol makes that one a
    rule for both. *)
Definition add_twin (acc : list frule) (r : frule) : list frule :=
  match list_find (λ x, hash_of x = hash_of r) acc with
  | Some (i, x) => <[i := as_both x]> acc
  | None => acc ++ [r]
  end.
Definition merge_twins (rs : list frule) : list frule := fold_left add_twin rs [].

(** What an atom says: the texts of its rule and its protocol. *)
Definition key (a : atom) : jstr * jstr := (hash_of (fst a), snd a).
Definition keys_of (rs : list frule) : list (jstr * jstr) := map key (flat_map atoms rs).

Definition registered (sc : scan) (i : nat) (x : frule) : Prop :=
  match fr_protocol x with
  | Tcp => find_hash (sc_hash sc) (js "tcp") (hash_of x) = Some i
  | Udp => find_hash (sc_hash sc) (js "udp") (hash_of x) = Some i
  | TcpUdp => True
  end.

(** The rows of the rules so far, and where their texts are remembered. *)
Record scans (sc : scan) (acc : list frule) : Prop := {
  ss_rows : sc_rows sc = map shown_rule acc;
  ss_hash : ∀ i x, acc !! i = Some x → registered sc i x;
  ss_new : ∀ h p, Forall (λ x, hash_of x ≠ h) acc → find_hash (sc_hash sc) p h = None
}.

Lemma scan_rule_new sc p h row : (∀ q, find_hash (sc_hash sc) q h = None) →
  scan_rule UI sc p h row = mkScan (sc_rows sc ++ [row]) ((p, h, length (sc_rows sc)) :: sc_hash sc).
Proof. intros Hn. unfold scan_rule. by rewrite Hn. Qed.

Lemma scan_rule_again rows l h row row' :
  scan_rule UI (mkScan (rows ++ [row]) ((js "tcp", h, length rows) :: l)) (js "udp") h row' =
  mkScan (rows ++ [<[1%nat := DStr (both UI)]> row]) ((js "tcp", h, length rows) :: l).
Proof.
  unfold scan_rule. replace (js "udp" =s js "tcp") with false by done. cbn [sc_hash sc_rows find_hash].
  rewrite !(proj2 (str_eqb_eq _ _)) by done. cbn [andb]. f_equal. rewrite alter_app_r_alt by lia. by rewrite Nat.sub_diag.
Qed.

Lemma shown_as_both x : shown_rule (as_both x) = <[1%nat := DStr (both UI)]> (shown_rule x).
Proof. unfold shown_rule, rule_data, as_both. cbn [fr_name fr_protocol fr_ports fr_ip fr_on]. by destruct (fr_ports x). Qed.

(** A rule without a twin is added with its protocol. *)
Lemma scan_added sc acc r : scans sc acc → Forall (λ x, hash_of x ≠ hash_of r) acc → scans (fold_left scan_list (atoms r) sc) (acc ++ [r]).
Proof.
  intros [Hr Hh Hn] Hf. assert (Hlen : length (sc_rows sc) = length acc) by (by rewrite Hr, length_map).
  assert (Hrow : ∀ p, fr_protocol r = (if p =s js "tcp" then Tcp else Udp) → p ∈ [js "tcp"; js "udp"] → atom_row (r, p) = shown_rule r).
  { intros p Ep Hp. unfold atom_row, shown_rule, rule_data. cbn [fst snd]. rewrite Ep, !elem_of_cons, elem_of_nil in *. destruct Hp as [->|[->|[]]]; by destruct (fr_ports r). }
  assert (Hone : ∀ p row, row = shown_rule r → (∀ sc', sc_hash sc' = (p, hash_of r, length acc) :: sc_hash sc → registered sc' (length acc) r) →
    scans (mkScan (sc_rows sc ++ [row]) ((p, hash_of r, length (sc_rows sc)) :: sc_hash sc)) (acc ++ [r])).
  { intros p row -> Hreg. rewrite Hlen. split; cbn [sc_rows sc_hash].
    - by rewrite Hr, map_app.
    - intros i x [Hi|[Hi Hx]]%lookup_app_Some.
      + specialize (Hh i x Hi). rewrite Forall_forall in Hf. pose proof (Hf x (list_elem_of_lookup_2 _ _ _ Hi)) as Hne. unfold registered in *.
        destruct (fr_protocol x); [| |done]; cbn [sc_hash find_hash]; by rewrite (proj2 (str_eqb_neq _ _) (not_eq_sym Hne)), andb_false_r.
      + apply list_lookup_singleton_Some in Hx as [Hx <-]. replace i with (length acc) by lia. by apply Hreg.
    - intros h q [Ha Hq]%Forall_app. rewrite Forall_singleton in Hq. cbn [find_hash]. rewrite (proj2 (str_eqb_neq _ _) Hq), andb_false_r. by apply Hn. }
  unfold atoms, scan_list. destruct (fr_protocol r) eqn:Ep; cbn [protos map fold_left fst snd]; rewrite (scan_rule_new sc) by (intros q; by apply Hn).
  - apply Hone; [by apply Hrow; [first [done|exact Ep|by rewrite Ep]|set_solver]|]. intros sc' E. unfold registered. rewrite Ep, E. cbn [find_hash]. by rewrite !str_eqb_refl.
  - apply Hone; [by apply Hrow; [first [done|exact Ep|by rewrite Ep]|set_solver]|]. intros sc' E. unfold registered. rewrite Ep, E. cbn [find_hash]. by rewrite !str_eqb_refl.
  - rewrite scan_rule_again. apply Hone; [|intros sc' _; unfold registered; by rewrite Ep].
    unfold atom_row, shown_rule, rule_data. cbn [fst snd]. rewrite Ep. by destruct (fr_ports r).
Qed.

(** A rule whose twin is there is merged with it. *)
Lemma scan_merged sc acc r i x : scans sc acc → acc !! i = Some x → hash_of x = hash_of r →
  (fr_protocol x = Tcp ∧ fr_protocol r = Udp ∨ fr_protocol x = Udp ∧ fr_protocol r = Tcp) →
  scans (fold_left scan_list (atoms r) sc) (<[i := as_both x]> acc).
Proof.
  intros [Hr Hh Hn] Hi Hx Hp. pose proof (Hh i x Hi) as Hreg. unfold registered in Hreg.
  assert (E : fold_left scan_list (atoms r) sc = mkScan (alter (λ r, <[1%nat := DStr (both UI)]> r) i (sc_rows sc)) (sc_hash sc)).
  { unfold atoms, scan_list. destruct Hp as [[Ex Er]|[Ex Er]]; rewrite Er, Ex in *; cbn [protos map fold_left fst snd]; unfold scan_rule.
    - replace (js "udp" =s js "tcp") with false by done. by rewrite <- Hx, Hreg.
    - replace (js "tcp" =s js "tcp") with true by done. by rewrite <- Hx, Hreg. }
  rewrite E. split; cbn [sc_rows sc_hash].
  - rewrite Hr. apply list_eq. intros j. rewrite list_lookup_fmap. destruct (decide (j = i)) as [->|Hji].
    + assert (Hl : (i < length acc)%nat) by (by eapply lookup_lt_Some).
      rewrite list_lookup_alter_eq, list_lookup_fmap, list_lookup_insert_eq, Hi by done. cbn. by rewrite shown_as_both.
    + rewrite list_lookup_alter_ne, list_lookup_fmap, list_lookup_insert_ne by done. done.
  - intros j y [(<- & <- & _)|[Hji Hj]]%list_lookup_insert_Some; [done|]. exact (Hh j y Hj).
  - intros h p Hf. apply Hn, Forall_lookup. intros j y Hj. rewrite Forall_lookup in Hf. destruct (decide (j = i)) as [->|Hji].
    + rewrite Hi in Hj. injection Hj as <-. by apply (Hf i (as_both x)), list_lookup_insert_eq; eapply lookup_lt_Some.
    + apply (Hf j y). by rewrite list_lookup_insert_ne.
Qed.

Lemma keys_of_app rs rs' : keys_of (rs ++ rs') = keys_of rs ++ keys_of rs'.
Proof. unfold keys_of. by rewrite flat_map_app, map_app. Qed.

Lemma keys_of_elem rs r p : r ∈ rs → p ∈ protos (fr_protocol r) → (hash_of r, p) ∈ keys_of rs.
Proof.
  intros Hr Hp. unfold keys_of. apply list_elem_of_fmap. exists (r, p). split; [done|]. apply list_elem_of_In, in_flat_map. exists r.
  split; [by apply list_elem_of_In|]. apply list_elem_of_In, list_elem_of_fmap. by exists p.
Qed.

(** Two rules with the same texts have different protocols. *)
Lemma twin_protocols acc rs r x : NoDup (keys_of (acc ++ r :: rs)) → x ∈ acc → hash_of x = hash_of r →
  fr_protocol x = Tcp ∧ fr_protocol r = Udp ∨ fr_protocol x = Udp ∧ fr_protocol r = Tcp.
Proof.
  rewrite keys_of_app. intros (_ & Hd & _)%NoDup_app Hx E.
  assert (H : ∀ p, p ∈ protos (fr_protocol x) → p ∈ protos (fr_protocol r) → False).
  { intros p Hp Hp'. apply (Hd (hash_of r, p)); [rewrite <- E|]; (apply keys_of_elem; [done || by left|done]). }
  destruct (fr_protocol x), (fr_protocol r); auto; exfalso; first [by apply (H (js "tcp")); set_solver|by apply (H (js "udp")); set_solver].
Qed.

(** Merging keeps what the rules say. *)
Lemma keys_of_merge acc i x r rs : acc !! i = Some x → hash_of x = hash_of r →
  (fr_protocol x = Tcp ∧ fr_protocol r = Udp ∨ fr_protocol x = Udp ∧ fr_protocol r = Tcp) →
  keys_of (<[i := as_both x]> acc ++ rs) ≡ₚ keys_of (acc ++ r :: rs).
Proof.
  intros Hi Hx Hp. pose proof (take_drop_middle acc i x Hi) as Ea.
  rewrite insert_take_drop by (by eapply lookup_lt_Some). rewrite <- Ea at 3. rewrite !keys_of_app.
  change (as_both x :: drop (S i) acc) with ([as_both x] ++ drop (S i) acc). change (x :: drop (S i) acc) with ([x] ++ drop (S i) acc).
  change (r :: rs) with ([r] ++ rs). rewrite !keys_of_app, <- !app_assoc. apply Permutation_app_head.
  assert (E : keys_of [as_both x] ≡ₚ keys_of [x] ++ keys_of [r]).
  { unfold keys_of, atoms, key. cbn [flat_map as_both fr_protocol protos]. rewrite !app_nil_r.
    destruct Hp as [[-> ->]|[-> ->]]; cbn [protos map app fst snd]; change (hash_of (as_both x)) with (hash_of x); rewrite Hx; [done|apply perm_swap]. }
  rewrite E, <- !app_assoc. apply Permutation_app_head. rewrite !app_assoc. apply Permutation_app_tail, Permutation_app_comm.
Qed.

Lemma scan_many rs sc acc : scans sc acc → NoDup (keys_of (acc ++ rs)) → scans (fold_left scan_list (flat_map atoms rs) sc) (fold_left add_twin rs acc).
Proof.
  revert sc acc. induction rs as [|r rs IH]; intros sc acc Hs Hnd; [done|]. cbn [flat_map fold_left]. rewrite fold_left_app. unfold add_twin at 2.
  destruct (list_find _ acc) as [[i x]|] eqn:Ef.
  - apply list_find_Some in Ef as (Hi & Hx & _). pose proof (twin_protocols acc rs r x Hnd (list_elem_of_lookup_2 _ _ _ Hi) Hx) as Hp.
    apply IH; [by apply scan_merged|]. eapply NoDup_Permutation_proper; [by apply keys_of_merge|done].
  - apply list_find_None in Ef. apply IH; [by apply scan_added|]. by rewrite <- app_assoc.
Qed.

(** Without twins nothing is merged. *)
Lemma merge_twins_distinct rs : NoDup (map hash_of rs) → merge_twins rs = rs.
Proof.
  unfold merge_twins. intros Hnd. assert (Hgen : ∀ acc, NoDup (map hash_of (acc ++ rs)) → fold_left add_twin rs acc = acc ++ rs); [|by apply (Hgen [])].
  clear Hnd. induction rs as [|r rs IH]; intros acc Hnd; [by rewrite app_nil_r|]. cbn [fold_left]. unfold add_twin at 2.
  rewrite (proj2 (list_find_None _ _)); [rewrite IH by (by rewrite <- app_assoc); by rewrite <- app_assoc|].
  rewrite map_app in Hnd. apply NoDup_app in Hnd as (_ & Hd & _). apply Forall_forall. intros x Hx E. apply (Hd (hash_of x)); [by apply list_elem_of_fmap_2|].
  cbn [map]. rewrite E. by left.
Qed.

(** The two tables are filled independently. *)
Definition normal_atom (a : atom) : atom := (normal (fst a), snd a).

Lemma scan_pair l st : fold_left scan_atom l st =
  (fold_left scan_list (map normal_atom (List.filter (λ a : atom, is_single (fst a)) l)) (fst st),
   fold_left scan_list (map normal_atom (List.filter (λ a : atom, negb (is_single (fst a))) l)) (snd st)).
Proof.
  revert st. induction l as [|a l IH]; intros [s1 s2]; [done|]. cbn [fold_left List.filter]. rewrite IH. unfold scan_atom. by destruct (is_single (fst a)).
Qed.

Lemma normal_atoms rs : map normal_atom (flat_map atoms rs) = flat_map atoms (map normal rs).
Proof.
  induction rs as [|r rs IH]; [done|]. cbn [flat_map map]. rewrite map_app, IH. f_equal. unfold atoms. by rewrite map_map.
Qed.

Lemma filter_atoms (f : frule → bool) rs : List.filter (λ a : atom, f (fst a)) (flat_map atoms rs) = flat_map atoms (List.filter f rs).
Proof.
  induction rs as [|r rs IH]; [done|]. cbn [flat_map List.filter]. rewrite List.filter_app, IH.
  assert (E : List.filter (λ a : atom, f (fst a)) (atoms r) = if f r then atoms r else []).
  { unfold atoms. destruct (fr_protocol r); cbn; by destruct (f r). }
  rewrite E. by destruct (f r).
Qed.

End reading.

(** The rules that are on, then those that are off. *)
Definition on_first (rs : list frule) : list frule := List.filter (λ r, Bool.eqb (fr_on r) true) rs ++ List.filter (λ r, Bool.eqb (fr_on r) false) rs.

Section reload.

Lemma on_first_perm rs : on_first rs ≡ₚ rs.
Proof.
  unfold on_first. induction rs as [|r rs IH]; [done|]. cbn [List.filter]. destruct (fr_on r); cbn [Bool.eqb app]; [by constructor|].
  rewrite <- Permutation_middle. by constructor.
Qed.

Lemma Forall_on_first (P : frule → Prop) rs : Forall P rs → Forall P (on_first rs).
Proof. intros H. by rewrite on_first_perm. Qed.

Lemma filter_on_first (f : frule → bool) l : List.filter f (on_first l) = on_first (List.filter f l).
Proof.
  unfold on_first. rewrite List.filter_app. f_equal.
  - induction l as [|r l IH]; [done|]. cbn [List.filter]. destruct (Bool.eqb (fr_on r) true) eqn:E1, (f r) eqn:E2; cbn [List.filter]; rewrite ?E1, ?E2, IH; done.
  - induction l as [|r l IH]; [done|]. cbn [List.filter]. destruct (Bool.eqb (fr_on r) false) eqn:E1, (f r) eqn:E2; cbn [List.filter]; rewrite ?E1, ?E2, IH; done.
Qed.

Lemma nodup_on_first rs : NoDup (keys_of (map normal rs)) → NoDup (keys_of (map normal (on_first rs))).
Proof.
  intros H. eapply NoDup_Permutation_proper; [|exact H]. apply (fmap_Permutation key), Permutation_flat_map, (fmap_Permutation normal), on_first_perm.
Qed.

Lemma scans_new UI : scans UI (mkScan [] []) [].
Proof. by split. Qed.

Lemma atoms_valid rs : Forall valid_rule rs → Forall (λ a : atom, valid_rule (fst a) ∧ snd a ∈ [js "tcp"; js "udp"]) (flat_map atoms rs).
Proof.
  intros Hv. apply Forall_forall. intros a Ha. apply list_elem_of_In, in_flat_map in Ha as (r & Hr & Ha). apply list_elem_of_In in Hr, Ha.
  rewrite Forall_forall in Hv. unfold atoms in Ha. apply list_elem_of_fmap in Ha as (p & -> & Hp). split; [by apply Hv|].
  cbn [snd]. destruct (fr_protocol r); set_solver.
Qed.

End reload.

(** C7: the forwarded ports are written and read back.  Into settings without
    redirections (the page has removed them), the loops of [saveChanges] write
    the rules of the two tables, one section for each protocol, and every other
    setting is untouched.  A page loaded from the result shows the rules again,
    first the ones that are on, each table in its order, as follows: a blank
    description is shown as a dash and a blank port of the target as the
    forwarded port; and two rules that then only differ in their protocol, TCP
    and UDP, are shown in one row for both, in the place of the first and on or
    off as the first ([merge_twins], which changes nothing where the texts of the
    rules differ).  The forwarded ports are digits and no two rules of a table
    have the same texts and a protocol in common. *)
Theorem forwards_roundtrip UI u c rs rr Ds Dr :
  toLowerCase (both UI) ∉ [js "tcp"; js "udp"] → wf u → sectioned u →
  getAllSectionsOfType u fw (js "redirect") = Ret [] → getAllSectionsOfType u fw (js "redirect_disabled") = Ret [] →
  (∀ on n, 0 <= n → section_key fw (sec_id on n) ∉ keys u) →
  Forall2 (shows_rule UI true) rs Ds → Forall2 (shows_rule UI false) rr Dr → Forall valid_rule rs → Forall valid_rule rr →
  NoDup (keys_of (map normal rs)) → NoDup (keys_of (map normal rr)) →
  ∃ st s1 s2, (let! st := exn_fold (save_single UI) Ds (mkSave u c 0 0) in exn_fold (save_range UI) Dr st) = Ret st ∧
    wf (sv_uci st) ∧ sectioned (sv_uci st) ∧ load_forwards UI (sv_uci st) = Ret (s1, s2) ∧
    sc_rows s1 = map (shown_rule UI) (merge_twins (map normal (on_first rs))) ∧
    sc_rows s2 = map (shown_rule UI) (merge_twins (map normal (on_first rr))) ∧
    (∀ p s o, name p → name s → o = [] ∨ name o → (p = fw → ∀ on n, s ≠ sec_id on n) → get (sv_uci st) p s o = get u p s o).
Proof.
  intros Hb Hu Hs Hq1 Hq2 Hfr Hrs Hrr Vs Vr Ns Nr. set (L := flat_map atoms (rs ++ rr)).
  destruct (fold_save_atom L u c 0 0) as (c' & e' & d' & E).
  assert (Esave : (let! st := exn_fold (save_single UI) Ds (mkSave u c 0 0) in exn_fold (save_range UI) Dr st) = Ret (fold_left save_atom L (mkSave u c 0 0))).
  { rewrite (save_all_shown UI Hb true rs Ds) by done. cbn [exn_bind]. rewrite (save_all_shown UI Hb false rr Dr) by done. unfold L. by rewrite flat_map_app, fold_left_app. }
  rewrite E in Esave. assert (Hfw : word fw) by by_eval.
  destruct (write_sections_spec fw Hfw (recs 0 0 L) u) as (Wf & Ws & Wq & Wh & Wn); [|by apply recs_nodup|done|done| |].
  { apply Forall_forall. intros x Hx. by apply recs_names in Hx as (? & ? & _ & _ & ?). }
  { apply Forall_forall. intros x Hx. apply recs_names in Hx as (on & n & -> & Hn & _); [|lia..]. apply Hfr. destruct on; lia. }
  set (u' := write_sections fw u (recs 0 0 L)) in *.
  set (sc1 := fold_left (scan_list UI) (flat_map atoms (map normal (on_first rs))) (mkScan [] [])).
  set (sc2 := fold_left (scan_list UI) (flat_map atoms (map normal (on_first rr))) (mkScan [] [])).
  exists (mkSave u' c' e' d'), sc1, sc2. split; [exact Esave|]. cbn [sv_uci]. split_and!; [done|done| | | |].
  - assert (HL : Forall (λ a : atom, valid_rule (fst a) ∧ snd a ∈ [js "tcp"; js "udp"]) L) by (apply atoms_valid, Forall_app; done).
    unfold load_forwards, scan_sections. cbn [exn_fold].
    rewrite (Wq _ _ Hq1). cbn [exn_bind app]. pose proof (scan_recs UI u' true 0 0 L (mkScan [] [], mkScan [] []) HL Wh) as E1. cbn [rule_type] in E1.
    rewrite E1. cbn [exn_bind]. rewrite (Wq _ _ Hq2). cbn [exn_bind app].
    match goal with |- exn_bind (exn_fold _ _ ?st) _ = _ => pose proof (scan_recs UI u' false 0 0 L st HL Wh) as E2 end.
    change (rule_type (js "redirect") false) with (js "redirect_disabled") in E2. rewrite E2. cbn [exn_bind]. f_equal.
    rewrite <- fold_left_app. unfold L. rewrite !(filter_atoms (λ r, Bool.eqb (fr_on r) _)), <- flat_map_app. fold (on_first (rs ++ rr)).
    rewrite scan_pair, (filter_atoms is_single), (filter_atoms (λ r, negb (is_single r))). cbn [fst snd].
    assert (S1 : Forall (λ r, is_single r = true) rs) by (eapply Forall2_Forall_l; [exact Hrs|]; apply Forall_forall; intros ? _ ? []; done).
    assert (S2 : Forall (λ r, is_single r = false) rr) by (eapply Forall2_Forall_l; [exact Hrr|]; apply Forall_forall; intros ? _ ? []; done).
    rewrite !filter_on_first, !List.filter_app, (filter_all is_single rs), (filter_none is_single rr) by done.
    rewrite (filter_none (λ r, negb (is_single r)) rs), (filter_all (λ r, negb (is_single r)) rr), app_nil_r; [by rewrite !normal_atoms|..].
    + eapply Forall_impl; [exact S2|]. by intros r ->.
    + eapply Forall_impl; [exact S1|]. by intros r ->.
  - by apply (scan_many UI _ (mkScan [] []) []); [apply scans_new|apply nodup_on_first].
  - by apply (scan_many UI _ (mkScan [] []) []); [apply scans_new|apply nodup_on_first].
  - intros p s o Hp Hsn Ho Hne. apply Wn; [done..|]. intros ->. intros (x & -> & Hx)%list_elem_of_fmap.
    apply recs_names in Hx as (on & n & Ex & _); [|lia..]. by eapply Hne.
Qed.

(** ** An example *)
Definition sample_firewall : UCIContainer := write_sections fw new [(js "wan", js "zone", [(js "name", js "wan"); (js "masq", js "1")])].
Definition sample_singles : list frule :=
  [mkFrule [] Tcp (Single (js "2222") []) (js "192.168.1.10") false;
   mkFrule (js "dns") TcpUdp (Single (js "53") (js "53")) (js "192.168.1.20") true;
   mkFrule (js "-") Udp (Single (js "2222") (js "2222")) (js "192.168.1.10") false].
Definition sample_reloaded : list frule :=
  [mkFrule (js "dns") TcpUdp (Single (js "53") (js "53")) (js "192.168.1.20") true;
   mkFrule (js "-") TcpUdp (Single (js "2222") (js "2222")) (js "192.168.1.10") false].
Definition sample_ranges : list frule := [mkFrule (js "-") Udp (Range (js "5000") (js "5010")) (js "192.168.1.30") true].
Definition sample_data (l : list frule) : list (list datum) := map (λ r, rule_data (λ s, s) (checkbox (fr_on r)) (checkbox false) r) l.

Lemma sample_shown b l : Forall (λ r, is_single r = b) l → Forall2 (shows_rule (λ s, s) b) l (sample_data l).
Proof. intros H. apply Forall2_fmap_r, Forall_Forall2_diag. eapply Forall_impl; [exact H|]. intros r Hr. split; [done|]. by exists (checkbox (fr_on r)), (checkbox false). Qed.

Lemma forwards_roundtrip_witness : ∃ st s1 s2,
  (let! st := exn_fold (save_single (λ s, s)) (sample_data sample_singles) (mkSave sample_firewall [] 0 0) in
   exn_fold (save_range (λ s, s)) (sample_data sample_ranges) st) = Ret st ∧
  load_forwards (λ s, s) (sv_uci st) = Ret (s1, s2) ∧
  sc_rows s1 = map (shown_rule (λ s, s)) sample_reloaded ∧ sc_rows s2 = map (shown_rule (λ s, s)) sample_ranges.
Proof.
  assert (Hwf : wf sample_firewall) by (apply write_sections_wf, new_wf).
  assert (Hnum : ∀ s, forallb is_digit s && negb (bool_decide (s = [])) = true → numeral s).
  { intros s [Hd Hn]%andb_true_iff. split; [by apply negb_true_iff, bool_decide_eq_false in Hn|by apply forallb_Forall]. }
  destruct (forwards_roundtrip (λ s, s) sample_firewall [] sample_singles sample_ranges (sample_data sample_singles) (sample_data sample_ranges))
    as (st & s1 & s2 & E & _ & _ & L & R1 & R2 & _).
  - by_eval.
  - exact Hwf.
  - by apply check_sectioned.
  - vm_compute. reflexivity.
  - vm_compute. reflexivity.
  - intros on n Hn Hk. assert (Hp : Forall (λ k, is_prefix (js "firewall.wan") k = true) (keys sample_firewall)) by by_eval.
    rewrite Forall_forall in Hp. apply Hp in Hk. discriminate Hk.
  - apply sample_shown. by repeat constructor.
  - apply sample_shown. by repeat constructor.
  - repeat (apply Forall_cons; split; [apply Hnum; vm_compute; reflexivity|]). by apply Forall_nil.
  - repeat (apply Forall_cons; split; [split; apply Hnum; vm_compute; reflexivity|]). by apply Forall_nil.
  - by_eval.
  - by_eval.
  - exists st, s1, s2. split; [exact E|]. split; [exact L|]. rewrite R1, R2. split; reflexivity.
Defined.
