(* ===== verification/Dhcp.v ===== *)
(** * The DHCP page (dhcp.js)

    The page edits the DHCP server of the LAN and a table of static leases.  The
    state holds the document, the saved configuration and the table in its
    container.  What the back end prints into the page (the leases and the tables
    from addresses to hosts, MACs and DUIDs) and the language packs are
    parameters, and so are the addresses of the LAN. *)
From S2P Require Import Prelude JsNum JsString JsRegex JsFloat Uci UciFacts Backend UciScript Sections Ip4 Validate Ip6 Table TableFacts TableEdit Dom Modal Forms Ports.
Import Uci Validate Ip6 Table TableEdit Dom Modal Sections Ports.
Open Scope Z_scope.

Record dhcp_page := mkDhcp {
  dh_doc : document;
  dh_uci : UCIContainer;              (** [uciOriginal] *)
  dh_table : option table;            (** the table in [staticip_table_container] *)
  dh_value : option jstr              (** the global [value] the setters assign *)
}.

(** An entry of [leaseData]: MAC, IP, host. *)
Record lease := mkLease { ls_mac : jstr; ls_ip : jstr; ls_host : jstr }.

Module Dhcp.

Definition with_doc (p : dhcp_page) (d : document) : dhcp_page := mkDhcp d (dh_uci p) (dh_table p) (dh_value p).
Definition with_table (p : dhcp_page) (t : option table) : dhcp_page := mkDhcp (dh_doc p) (dh_uci p) t (dh_value p).

Fixpoint assoc (l : list (jstr * jstr)) (k : jstr) : option jstr :=
  match l with [] => None | (k', v) :: l' => if k' =s k then Some v else assoc l' k end.

(** [slice(-n)] *)
Definition slice_last (n : Z) (s : jstr) : jstr := substr_from s (- n).

(** ** Validation *)
Definition re_hostname : re := Eval vm_compute in rx "^[a-zA-Z0-9-]+$".
Definition re_suffix : re := Eval vm_compute in rx "^::([0-9a-f]{0,4}:)?[0-9a-f]{0,4}".
Definition re_duid : re := Eval vm_compute in ignore_case (rx "^[0-9a-f]{0,130}$").

Definition validateDHCPHostName (hostname : jstr) : Z :=
  if hostname =s [] then 0 else if negb (test re_hostname hostname) then 1 else 0.

Definition proofreadDHCPHostName input := proofreadText input validateDHCPHostName 0.

Definition proofreadIP6Suffix (s : jstr) : Z :=
  if (zlen s =? 0) || (s =s js "-") then 0 else if negb (test re_suffix s) then 1 else 0.

Definition proofreadDUID (s : jstr) : Z :=
  if s =s js "-" then 0 else if negb (test re_duid s) then 1 else 0.

Definition static_fields : list field :=
  [mkField (js "add_host") (js "add_host_label") validateDHCPHostName 0 (Some (js "add_host"));
   mkField (js "add_mac") (js "add_mac_label") validateMac 0 (Some (js "add_mac"));
   mkField (js "add_ip") (js "add_ip_label") validateIP 0 (Some (js "add_ip"));
   mkField (js "add_hostid") (js "add_hostid_label") proofreadIP6Suffix 0 (Some (js "add_hostid"));
   mkField (js "add_duid") (js "add_duid_label") proofreadDUID 0 (Some (js "add_duid"))].

Definition range_fields : list field :=
  [mkField (js "dhcp_start") (js "dhcp_start_label") validateNumeric 0 (Some (js "dhcp_start"));
   mkField (js "dhcp_end") (js "dhcp_end_label") validateNumeric 0 (Some (js "dhcp_end"));
   mkField (js "dhcp_lease") (js "dhcp_lease_label") validateNumeric 0 (Some (js "dhcp_lease"))].

(** [rangeInSubnet] on the results of [parseInt]: a comparison with NaN fails. *)
Definition num_in_subnet (mask ip : jstr) (start end_ : num) : bool :=
  match start, end_ with Dec s _, Dec e _ => Ip4.rangeInSubnet mask ip s e | _, _ => false end.

Definition last_octet (ip : jstr) : num := parseInt (Ip4.nth_str (split_char 46 ip) 3).

Section dhcp.
Variables UI dhcpS : jstr → jstr.
Variable dhcpSection : jstr.
Variable leaseData : list lease.
Variables ipHostHash ipMacHash ipDUIDHash : list (jstr * jstr).
Variable currentLan6 : list (jstr * jstr).

(** The errors of one row against the fields. *)
Definition row_errors (rowData : list datum) (host mac ip hostid duid : jstr) : list jstr :=
  (if negb (datum_is rowData 0 []) && negb (datum_is rowData 0 (js "-")) && datum_is rowData 0 host then [dhcpS (js "dHErr")] else [])
  ++ (if datum_is rowData 1 mac then [dhcpS (js "dMErr")] else [])
  ++ (if datum_is rowData 2 ip then [dhcpS (js "dIPErr")] else [])
  ++ (if negb (datum_is rowData 3 (js "-")) && datum_is rowData 3 hostid then [dhcpS (js "dHIDErr")] else [])
  ++ (if negb (datum_is rowData 4 (js "-")) && datum_is rowData 4 duid then [dhcpS (js "dDUIDErr")] else []).

(** The three later checks, each made when there was no error before. *)
Definition duplicate_errors (t : table) (d : document) (excludeRow : option nat) : exn (list jstr) :=
  let! currentData := getTableDataArray t true false in
  let! host := el d (js "add_host") in
  let! mac := el d (js "add_mac") in
  let! ip := el d (js "add_ip") in
  let! hostid := el d (js "add_hostid") in
  let! duid := el d (js "add_duid") in
  Ret (concat (imap (fun i rowData =>
    if not_excluded t i excludeRow
    then row_errors rowData (value host) (value mac) (value ip) (value hostid) (value duid) else []) currentData)).

Definition duid_errors (d : document) : exn (list jstr) :=
  let! hostid := el d (js "add_hostid") in
  let! duid := el d (js "add_duid") in
  Ret (if (negb (value hostid =s []) && negb (value hostid =s js "-")) && ((value duid =s []) || (value duid =s js "-"))
       then [dhcpS (js "NoDUID")] else []).

Definition subnet_errors (uciOriginal : UCIContainer) (d : document) : exn (list jstr) :=
  let mask := gets uciOriginal (js "network") (js "lan") (js "netmask") in
  let ip := gets uciOriginal (js "network") (js "lan") (js "ipaddr") in
  let! add_ip := el d (js "add_ip") in
  let testIp := value add_ip in
  let testEnd := last_octet testIp in
  Ret ((if negb (num_in_subnet mask ip testEnd testEnd) then [dhcpS (js "subErr")] else [])
       ++ (if ip =s testIp then [dhcpS (js "ipErr")] else [])).

Definition proofreadStatic (p : dhcp_page) (excludeRow : option nat) : exn (list jstr * document) :=
  let! r := proofreadFields UI (dh_doc p) static_fields in
  let d := snd r in
  if negb (length (fst r) =? 0)%nat then Ret r
  else
    let! t := exn_of_option TypeError (dh_table p) in
    let! errors := duplicate_errors t d excludeRow in
    if negb (length errors =? 0)%nat then Ret (errors, d)
    else
      let! errors := duid_errors d in
      if negb (length errors =? 0)%nat then Ret (errors, d)
      else
        let! errors := subnet_errors (dh_uci p) d in
        Ret (errors, d).

Definition proofreadAll (p : dhcp_page) : exn (list jstr * document) :=
  let! r := proofreadFields UI (dh_doc p) range_fields in
  let d := snd r in
  let! check := (if (length (fst r) =? 0)%nat then let! e := el d (js "dhcp_enabled") in Ret (e_checked e) else Ret false) in
  if check then
    let mask := gets (dh_uci p) (js "network") (js "lan") (js "netmask") in
    let ip := gets (dh_uci p) (js "network") (js "lan") (js "ipaddr") in
    let! start_el := el d (js "dhcp_start") in
    let! end_el := el d (js "dhcp_end") in
    let start := parseInt (value start_el) in
    let end_ := parseInt (value end_el) in
    let ipEnd := last_octet ip in
    Ret ((if negb (num_in_subnet mask ip start end_) then [dhcpS (js "dsubErr")] else [])
         ++ (if Num.geb ipEnd start && Num.leb ipEnd end_ then [dhcpS (js "dipErr")] else []), d)
  else Ret r.

(** ** The list of connected hosts *)

(** The loops over the addresses of a host, then of a MAC; the last value
    assigned is undefined unless the loop stopped. *)
Definition find_duid (matches : jstr → bool) (hash : list (jstr * jstr)) : option jstr :=
  fold_left (fun duid '(ipIndex, v) =>
    match duid with Some _ => duid | None => if matches v then assoc ipDUIDHash ipIndex else None end) hash None.

Definition lease_duid (mac host : jstr) : option jstr :=
  match find_duid (fun h => h =s host) ipHostHash with
  | Some duid => Some duid
  | None => find_duid (fun m => mac =s toUpperCase m) ipMacHash
  end.

Definition static_macs (container : option table) : exn (list jstr) :=
  match container with
  | None => Ret []
  | Some t => let! data := getTableDataArray t true false in
              exn_map (fun r => let! mac := datum_str r 1 in Ret (toUpperCase mac)) data
  end.

(** The values and the texts of the list. *)
Definition host_choices (staticMacs : list jstr) : list (jstr * jstr) :=
  (js "none", dhcpS (js "SelH")) ::
  omap (fun l =>
    let mac := toUpperCase (ls_mac l) in
    if bool_decide (mac ∈ staticMacs) then None
    else Some (ls_host l ++ js "," ++ mac ++ js "," ++ default (js "-") (lease_duid mac (ls_host l)),
               (if (ls_host l =s []) || (ls_host l =s js "*") then ls_ip l else ls_host l) ++ js " (" ++ mac ++ js ")")) leaseData.

Definition resetHostnameMacList (p : dhcp_page) : exn dhcp_page :=
  let! staticMacs := static_macs (dh_table p) in
  let choices := host_choices staticMacs in
  let! d := setAllowableSelections UI (dh_doc p) (js "static_from_connected") (Some (map fst choices)) (Some (map snd choices)) in
  let! hmEnabled := (if (1 <? length choices)%nat then let! e := el d (js "dhcp_enabled") in Ret (e_checked e) else Ret false) in
  let! d := setElementEnabled d (js "static_from_connected") hmEnabled (js "none") in
  Ret (with_doc p d).

(** [removeStaticIp], called when a row was removed. *)
Definition removeStaticIp (p : dhcp_page) (r : row) : exn dhcp_page :=
  let! _removedIp := get_data r 2 in resetHostnameMacList p.

Definition enabled_ids : list jstr :=
  [js "dhcp_start"; js "dhcp_end"; js "dhcp_lease"; js "block_mismatches"; js "add_host"; js "add_mac"; js "add_ip";
   js "add_hostid"; js "add_duid"; js "dhcpv6"; js "ra"; js "add_button"].

Definition setEnabled (p : dhcp_page) (enabled : bool) : exn dhcp_page :=
  let! d := exn_fold (fun d id => setElementEnabled d id enabled []) enabled_ids (dh_doc p) in
  let! t := exn_of_option TypeError (dh_table p) in
  let! t := setRowClasses t enabled in
  resetHostnameMacList (with_table (with_doc p d) (Some t)).

(** ** Rows *)
Definition createEditButton : widget := mkWidget (js "button") (UI (js "Edit")) false (js "btn btn-default btn-edit") false.

Definition add_ids : list jstr := [js "add_host"; js "add_mac"; js "add_ip"; js "add_hostid"; js "add_duid"].

(** The loop that reads the fields and empties them. *)
Definition take_fields (d : document) : exn (list datum * document) :=
  exn_fold (fun '(values, d) id =>
    let! e := el d id in
    Ret (values ++ [DStr (or_dash (value e))], put d id (set_value [] e))) add_ids ([], d).

Definition addStatic (p : dhcp_page) : exn dhcp_page :=
  let! r := proofreadStatic p None in
  if negb (length (fst r) =? 0)%nat then
    Ret (with_doc p (alert (snd r) (join newline (fst r) ++ newline ++ newline ++ dhcpS (js "AErr"))))
  else
    let! v := take_fields (snd r) in
    let! t := exn_of_option TypeError (dh_table p) in
    let t := addTableRow (UI (js "Remove")) t (fst v ++ [DObj createEditButton]) true false in
    resetHostnameMacList (with_table (with_doc p (snd v)) (Some t)).

Definition editStatic (p : dhcp_page) (editRow : nat) : exn dhcp_page :=
  let! r := proofreadStatic p (Some editRow) in
  let d := snd r in
  if negb (length (fst r) =? 0)%nat then
    Ret (with_doc p (alert d (join newline (fst r) ++ newline ++ dhcpS (js "upErr"))))
  else
    let! host := el d (js "add_host") in
    let! hostid := el d (js "add_hostid") in
    let! duid := el d (js "add_duid") in
    let! mac := el d (js "add_mac") in
    let! ip := el d (js "add_ip") in
    let! t := edit_cells (dh_table p) editRow
                [(0%nat, or_dash (value host)); (1%nat, value mac); (2%nat, value ip);
                 (3%nat, or_dash (value hostid)); (4%nat, or_dash (value duid))] in
    resetHostnameMacList (with_table (with_doc p d) t).

Definition addStaticModal (p : dhcp_page) : exn dhcp_page :=
  let! sel := getSelectedValue UI (dh_doc p) (js "static_from_connected") in
  let! selectedVal := exn_of_option TypeError (fst sel) in
  let! filled := (if negb (selectedVal =s js "none") then
                    let parts := split_char 44 selectedVal in
                    let! d := setSelectedValue (snd sel) (js "static_from_connected") (js "none") in
                    Ret (parts !! 0%nat, parts !! 1%nat, parts !! 2%nat, d)
                  else Ret (Some [], Some [], Some [], snd sel)) in
  let '(host, mac, duid, d) := filled in
  Ret (with_doc p (modalPrepare d
    [m_optional (js "add_host") host; m_optional (js "add_mac") mac; m_value (js "add_ip") []; m_value (js "add_hostid") [];
     m_optional (js "add_duid") duid])).

Definition editStaticModal (p : dhcp_page) (editRow : row) : exn dhcp_page :=
  let! host := get_data editRow 0 in
  let! mac := get_data editRow 1 in
  let! ip := get_data editRow 2 in
  let! hostid := get_data editRow 3 in
  let! duid := get_data editRow 4 in
  Ret (with_doc p (modalPrepare (dh_doc p)
    [m_optional (js "add_host") host; m_optional (js "add_mac") mac; m_optional (js "add_ip") ip;
     m_optional (js "add_hostid") hostid; m_optional (js "add_duid") duid])).

(** ** Loading *)
Definition re_hostid : re := Eval vm_compute in ignore_case (rx "([0-9a-f]{4})([0-9a-f]{4})").

Definition uval_datum (v : uval) : exn datum := match v with UStr s => Ret (DStr s) | UArr _ => Raise TypeError end.

(** The address of a host identifier. *)
Definition hostid_text (hostid : jstr) : jstr :=
  let ipv6 := if hostid =s [] then []
              else replace_with re_hostid (fun m => js "::" ++ group 1 m ++ js ":" ++ group 2 m) (slice_last 8 (js "00000000" ++ hostid)) in
  if validateIP6 ipv6 =? 0 then ip6_canonical ipv6 else js "-".

(** The row of a host; a section without a MAC has none. *)
Definition host_row (u : UCIContainer) (hostSection : jstr) : exn (option (list datum)) :=
  let get_ := get u (js "dhcp") hostSection in
  if uval_str (get_ (js "mac")) =s [] then Ret None
  else
    let duid := get_ (js "duid") in
    let! host := uval_datum (get_ (js "name")) in
    let! mac := uval_datum (get_ (js "mac")) in
    let! ipv4 := uval_datum (get_ (js "ip")) in
    let! duid := uval_datum (if uval_str duid =s [] then UStr (js "-") else duid) in
    Ret (Some [host; mac; ipv4; DStr (hostid_text (uval_str (get_ (js "hostid")))); duid; DObj createEditButton]).

Definition host_rows (u : UCIContainer) : exn (list (list datum)) :=
  let! hostSections := getAllSectionsOfType u (js "dhcp") (js "host") in
  let! rows := exn_map (host_row u) hostSections in Ret (omap id rows).

Definition columnNames : list datum :=
  [DStr (UI (js "HsNm")); DStr (js "MAC"); DStr (js "IPv4"); DStr (dhcpS (js "Suff")); DStr (js "DUID"); DStr []].

(** The first part of [resetData]: the table. *)
Definition reset_table (p : dhcp_page) : exn dhcp_page :=
  let! data := host_rows (dh_uci p) in
  Ret (with_table p (Some (createTable (UI (js "Remove")) columnNames data (js "static_ip_table") true false))).

(** [endCombineFunc]; the number 0 counts as blank. *)
Definition endCombineFunc (values : list uval) : jstr :=
  let v i := match values !! i with Some v => parseInt (uval_str v) | None => NaN end in
  let n := Num.sub (Num.add (v 0%nat) (v 1%nat)) (Int 1) in
  if Num.eqb n (Int 0) then [] else int_toString 10 n.

(** A number of hours; the number 0 and [undefined] count as blank. *)
Definition re_h : re := Eval vm_compute in rx ".*h".
Definition re_m : re := Eval vm_compute in rx ".*m".
Definition re_s : re := Eval vm_compute in rx ".*s".
Definition leaseModFunc (value : jstr) : jstr :=
  let number := substr value 0 (zlen value - 1) in
  let divided b := if Num.eqb (toNumber number) (Int 0) then [] else JsFloat.num_quotient_text (toNumber number) b in
  if test re_h value then number
  else if test re_m value then divided 60
  else if test re_s value then divided (60 * 60)
  else [].

(** [match] is a method of strings: the lease time is not a list. *)
Definition load_range (p : dhcp_page) : exn dhcp_page :=
  let! d := Forms.loadValueFromVariable (dh_doc p) (dh_uci p) (js "dhcp_start") (js "dhcp") dhcpSection (js "start") (Some (js "100")) in
  let! d := Forms.loadValueFromMultipleVariables d (dh_uci p) (js "dhcp_end")
              [(js "dhcp", dhcpSection, js "start"); (js "dhcp", dhcpSection, js "limit")] endCombineFunc (Some (js "150")) in
  let! leasetime := (match get (dh_uci p) (js "dhcp") dhcpSection (js "leasetime") with UStr v => Ret v | UArr _ => Raise TypeError end) in
  let! d := Forms.loadValueFromModifiedVariable d (dh_uci p) (js "dhcp_lease") (js "dhcp") dhcpSection (js "leasetime")
              (Some (js "12")) (fun _ => leaseModFunc leasetime) in
  Ret (with_doc p d).

(** The check boxes and the IPv6 options. *)
Definition first_section (l : list jstr) : jstr := default (js "undefined") (head l).

Definition load_options (p : dhcp_page) : exn dhcp_page :=
  let u := dh_uci p in
  let dhcpEnabled := negb (gets u (js "dhcp") (js "lan") (js "ignore") =s js "1") in
  let! d := update (dh_doc p) (js "dhcp_enabled") (set_checked dhcpEnabled) in
  let! p := setEnabled (with_doc p d) dhcpEnabled in
  let! firewallDefaultSections := getAllSectionsOfType u (js "firewall") (js "defaults") in
  let blockMismatches := gets u (js "firewall") (first_section firewallDefaultSections) (js "enforce_dhcp_assignments") =s js "1" in
  let! d := update (dh_doc p) (js "block_mismatches") (set_checked blockMismatches) in
  let show d opt dflt := update d opt (set_value (let v := gets u (js "dhcp") (js "lan") opt in if v =s [] then dflt else v)) in
  let! d := show d (js "dhcpv6") (js "disabled") in
  let! d := show d (js "ra") (js "disabled") in
  let! d := show d (js "ra_slaac") (js "0") in
  Ret (with_doc p d).

(** The prefixes of the global addresses of the LAN, one a line. *)
Definition prefix_text : exn jstr :=
  exn_fold (fun ip6txt '(x, (ip, mask)) =>
    let! scope := ip6_scope ip in
    if bool_decide (fst <$> scope = Some (js "Global")) then
      let! prefix := ip6_mask ip (MaskStr mask) in
      Ret (ip6txt ++ (if (x =? 0)%nat then [] else newline) ++ prefix ++ js "/" ++ mask)
    else Ret ip6txt) (imap (fun i x => (i, x)) currentLan6) [].

Definition resetData (p : dhcp_page) : exn dhcp_page :=
  let! p := reset_table p in
  let! p := load_range p in
  let! p := load_options p in
  let! ip6txt := prefix_text in
  resetHostnameMacList (with_doc p (setChildText (dh_doc p) (js "ip6prefix") ip6txt)).

(** ** Saving *)
Definition store_hostid (hostid : jstr) : jstr :=
  let splitHostId := split_char 58 hostid in
  let splitHostId := if (length splitHostId =? 4)%nat
    then alter (fun s => slice_last 4 (js "0000" ++ s)) 3%nat splitHostId else splitHostId in
  join [] splitHostId.

(** One row: its section and its command. *)
Definition save_host (st : UCIContainer * list jstr) (ir : nat * list datum) : exn (UCIContainer * list jstr) :=
  let '(uci, commands) := st in
  let '(hostIdx, row) := ir in
  let! mac := datum_str row 1 in
  if (mac =s []) || (mac =s js "-") then Ret st
  else
    let cfgid := js "static_host_" ++ str_of_Z (Z.of_nat hostIdx + 1) in
    let uci := set uci (js "dhcp") cfgid [] (UStr (js "host")) false in
    let! hostname := datum_str row 0 in
    let uci := if negb (hostname =s []) && negb (hostname =s js "-")
               then set uci (js "dhcp") cfgid (js "name") (UStr hostname) false else uci in
    let uci := set uci (js "dhcp") cfgid (js "mac") (UStr mac) false in
    let! ip := datum_str row 2 in
    let uci := set uci (js "dhcp") cfgid (js "ip") (UStr ip) false in
    let! hostid := datum_str row 3 in
    let uci := if negb (hostid =s js "-")
               then set uci (js "dhcp") cfgid (js "hostid") (UStr (store_hostid hostid)) false else uci in
    let! duid := datum_str row 4 in
    let uci := if negb (duid =s js "-") then set uci (js "dhcp") cfgid (js "duid") (UStr duid) false else uci in
    Ret (uci, commands ++ [js "uci set dhcp." ++ cfgid ++ js "=host"]).

Definition limit_of (values : list jstr) : jstr :=
  int_toString 10 (Num.add (Num.sub (parseInt (Ip4.nth_str values 1)) (parseInt (Ip4.nth_str values 0))) (Int 1)).

Definition range_rows : list set_row :=
  [mkSetRow (js "dhcp_start") (Some (js "dhcp_start")) (js "dhcp") dhcpSection (js "start") (FromValue false);
   mkSetRow [] (Some (js "dhcp_end")) (js "dhcp") dhcpSection (js "limit") (FromCombined [js "dhcp_start"; js "dhcp_end"] false limit_of);
   mkSetRow (js "dhcp_lease") (Some (js "dhcp_lease")) (js "dhcp") dhcpSection (js "leasetime") (FromModifiedValue false (fun v => v ++ js "h"))].

(** The options of the server. *)
Definition save_server (p : dhcp_page) (uci : UCIContainer) : exn page :=
  let uci := fst (remove uci (js "dhcp") dhcpSection (js "ignore")) in
  let uci := set uci (js "dhcp") dhcpSection (js "interface") (UStr (js "lan")) false in
  let! pg := Forms.setVariables (mkPage (dh_doc p) uci (dh_value p)) range_rows in
  let uci := p_uci pg in
  let d := dh_doc p in
  let put_ uci opt v := set uci (js "dhcp") (js "lan") opt (UStr v) false in
  let! dhcp_enabled := el d (js "dhcp_enabled") in
  let! uci := (if e_checked dhcp_enabled then
                 let uci := fst (remove uci (js "dhcp") (js "lan") (js "ignore")) in
                 let! dhcpv6 := el d (js "dhcpv6") in
                 let! ra := el d (js "ra") in
                 let! ra_slaac := el d (js "ra_slaac") in
                 Ret (put_ (put_ (put_ uci (js "dhcpv6") (value dhcpv6)) (js "ra") (value ra)) (js "ra_slaac") (value ra_slaac))
               else
                 Ret (put_ (put_ (put_ (put_ uci (js "ignore") (js "1")) (js "dhcpv6") (js "disabled")) (js "ra") (js "disabled"))
                        (js "ra_slaac") (js "0"))) in
  Ret (mkPage d uci (p_value pg)).

(** The firewall's option, and its commands. *)
Definition save_mismatches (uciOriginal uci : UCIContainer) (newBlockMismatches : bool) : exn (UCIContainer * list jstr) :=
  let! firewallDefaultSections := getAllSectionsOfType uci (js "firewall") (js "defaults") in
  let section := first_section firewallDefaultSections in
  let opt := js "enforce_dhcp_assignments" in
  let oldBlockMismatches := gets uciOriginal (js "firewall") section opt =s js "1" in
  if Bool.eqb newBlockMismatches oldBlockMismatches then Ret (uci, [])
  else if newBlockMismatches then
    Ret (set uci (js "firewall") section opt (UStr (js "1")) false,
         [js "uci set firewall.@defaults[0].enforce_dhcp_assignments=1"; js "uci commit"])
  else
    Ret (fst (remove uci (js "firewall") section opt),
         [js "uci del firewall.@defaults[0].enforce_dhcp_assignments"; js "uci commit"]).

Definition createEtherCommands : list jstr := [js "touch /etc/ethers"; js "rm /etc/ethers"].
(** A tab and the double quotes of the [echo] commands. *)
Definition quoted (a b : jstr) : jstr := [34] ++ a ++ [9] ++ b ++ [34].
Definition createHostCommands : list jstr :=
  [js "touch /etc/hosts"; js "rm /etc/hosts";
   js "echo " ++ quoted (js "127.0.0.1") (js "localhost localhost4") ++ js " >> /etc/hosts";
   js "echo " ++ quoted (js "::1") (js "localhost localhost6") ++ js " >> /etc/hosts"].
Definition restartDhcpCommand : jstr :=
  newline ++ js "/etc/init.d/dnsmasq restart ; " ++ newline ++ js "/etc/init.d/odhcpd restart ; " ++ newline
  ++ js "sh /usr/lib/gargoyle/restart_firewall.sh" ++ newline.

(** Errors keep the page; otherwise the page with the new settings, the old ones
    without their hosts, and the commands. *)
Inductive save_result :=
| SaveErrors (p : dhcp_page)
| SaveSent (p : dhcp_page) (uci : UCIContainer) (commands : jstr).

Definition saveChanges (p : dhcp_page) : exn save_result :=
  let! r := proofreadAll p in
  let p := with_doc p (snd r) in
  if negb (length (fst r) =? 0)%nat then
    Ret (SaveErrors (with_doc p (alert (dh_doc p) (join newline (fst r) ++ newline ++ newline ++ UI (js "ErrChanges")))))
  else
    let! old := pop_sections (js "dhcp") (js "host") (dh_uci p) in
    let uciOriginal := fst old in
    let! uci := clone uciOriginal in
    let! pg := save_server p uci in
    let! t := exn_of_option TypeError (dh_table p) in
    let! tableData := getTableDataArray t true false in
    let! hosts := exn_fold save_host (imap (fun i x => (i, x)) tableData) (p_uci pg, snd old) in
    let uci := fst hosts in
    let! dnsmasqsec := getAllSectionsOfType uci (js "dhcp") (js "dnsmasq") in
    let uci := match dnsmasqsec with
               | s :: _ => set uci (js "dhcp") s (js "readethers") (UStr (js "0")) false
               | [] => uci
               end in
    let! block := el (dh_doc p) (js "block_mismatches") in
    let! fw := save_mismatches uciOriginal uci (e_checked block) in
    let uci := fst fw in
    let commands := join newline (snd hosts) ++ newline ++ getScriptCommands uci uciOriginal ++ newline
      ++ join newline createEtherCommands ++ newline ++ join newline createHostCommands ++ newline
      ++ join newline (snd fw) ++ newline ++ restartDhcpCommand in
    Ret (SaveSent (mkDhcp (dh_doc p) uciOriginal (dh_table p) (p_value pg)) uci commands).

(** The answer: the page is loaded from the new settings. *)
Definition saved (p : dhcp_page) (uci : UCIContainer) : exn dhcp_page :=
  let! uciOriginal := clone uci in resetData (mkDhcp (dh_doc p) uciOriginal (dh_table p) (dh_value p)).

End dhcp.

End Dhcp.
