(* ===== verification/DhcpFacts.v ===== *)
(** * Properties of the DHCP page *)
From S2P Require Import Prelude JsNum JsString JsRegex Uci Ip4 Validate Ip4Facts ValidateFacts Ip6 Table TableFacts TableEdit Dom FormFacts Modal Dhcp.
Import Validate Table TableEdit Dom Modal Dhcp.
Open Scope Z_scope.

(** ** Static leases *)

(** A row: host name, MAC, IP, IPv6 suffix, DUID. *)
Record host := mkHost { h_name : jstr; h_mac : jstr; h_ip : jstr; h_id : jstr; h_duid : jstr }.

Definition host_data (button : widget) (h : host) : list datum :=
  [DStr (h_name h); DStr (h_mac h); DStr (h_ip h); DStr (h_id h); DStr (h_duid h); DObj button].
Definition shows_host (h : host) (ds : list datum) : Prop := ∃ button, ds = host_data button h.

(** Two leases that must not be in the table together. *)
Definition clash (h h' : host) : Prop :=
  (h_name h ≠ [] ∧ h_name h ≠ js "-" ∧ h_name h = h_name h') ∨ h_mac h = h_mac h' ∨ h_ip h = h_ip h' ∨
  (h_id h ≠ js "-" ∧ h_id h = h_id h') ∨ (h_duid h ≠ js "-" ∧ h_duid h = h_duid h').

Definition no_clash (h h' : host) : Prop := ¬ clash h h'.

#[export] Instance no_clash_sym : Symmetric no_clash.
Proof. intros h h'. unfold no_clash, clash. intuition congruence. Qed.

Definition apart (hs : list host) : Prop := pairwise no_clash hs.

(** The page's table holds leases that are apart. *)
Definition leases_apart (t : table) : Prop :=
  table_wf t ∧ ∃ D hs, getTableDataArray t true false = Ret D ∧ Forall2 shows_host hs D ∧ apart hs.
Definition page_apart (p : dhcp_page) : Prop := ∃ t, dh_table p = Some t ∧ leases_apart t.

(** The window's fields are shown and enabled text inputs; the value of a text
    input has no line break. *)
Definition lease_form (d : document) : Prop :=
  Forall (λ f, field_ready d f ∧ field_visible d f = Ret true) static_fields ∧
  ∀ id, id ∈ add_ids → ∃ e, elements d !! id = Some e ∧ is_select e = false ∧ 10 ∉ value e.

Section errors.
Context (dhcpS : jstr → jstr).

Lemma datum_is_host b h i v : datum_is (host_data b h) i v = bool_decide (host_data b h !! i = Some (DStr v)).
Proof. done. Qed.

(** No error means no clash with what will be stored. *)
Lemma row_errors_clash b h name mac ip hostid duid :
  row_errors dhcpS (host_data b h) name mac ip hostid duid = [] →
  ¬ clash h (mkHost (or_dash name) mac ip (or_dash hostid) (or_dash duid)).
Proof.
  unfold row_errors. intros E. apply app_nil in E as [E0 E]. apply app_nil in E as [E1 E]. apply app_nil in E as [E2 E].
  apply app_nil in E as [E3 E4].
  assert (Hd : ∀ v, or_dash v ≠ js "-" → or_dash v = v) by (intros v; unfold or_dash; by destruct (v =s [])).
  assert (Hi : ∀ i s v, host_data b h !! i = Some (DStr s) → datum_is (host_data b h) i v = bool_decide (s = v)).
  { intros i s v Hs. unfold datum_is. rewrite Hs. apply bool_decide_ext. naive_solver. }
  rewrite !(Hi 0%nat (h_name h)) in E0 by done. rewrite (Hi 1%nat (h_mac h)) in E1 by done. rewrite (Hi 2%nat (h_ip h)) in E2 by done.
  rewrite !(Hi 3%nat (h_id h)) in E3 by done. rewrite !(Hi 4%nat (h_duid h)) in E4 by done.
  unfold clash. cbn [h_name h_mac h_ip h_id h_duid]. intros [(Hn0 & Hn & Hc)|[Hc|[Hc|[[Hn Hc]|[Hn Hc]]]]].
  - pose proof Hn as Hn'. rewrite Hc in Hn'. apply Hd in Hn'. rewrite Hn' in Hc.
    rewrite (bool_decide_eq_false_2 _ Hn0), (bool_decide_eq_false_2 _ Hn), (bool_decide_eq_true_2 _ Hc) in E0. done.
  - by rewrite (bool_decide_eq_true_2 _ Hc) in E1.
  - by rewrite (bool_decide_eq_true_2 _ Hc) in E2.
  - pose proof Hn as Hn'. rewrite Hc in Hn'. apply Hd in Hn'. rewrite Hn' in Hc.
    rewrite (bool_decide_eq_false_2 _ Hn), (bool_decide_eq_true_2 _ Hc) in E3. done.
  - pose proof Hn as Hn'. rewrite Hc in Hn'. apply Hd in Hn'. rewrite Hn' in Hc.
    rewrite (bool_decide_eq_false_2 _ Hn), (bool_decide_eq_true_2 _ Hc) in E4. done.
Qed.

End errors.

(** What a table has when the check of a lease finds no error: the texts of the
    fields, and no row that clashes with them. *)
Record checked (d : document) (t : table) (excludeRow : option nat) (h : host) : Prop := {
  ck_host : ∃ e, elements d !! js "add_host" = Some e ∧ or_dash (value e) = h_name h ∧ 10 ∉ h_name h;
  ck_mac : ∃ e, elements d !! js "add_mac" = Some e ∧ value e = h_mac h ∧ h_mac h ≠ [] ∧ 10 ∉ h_mac h;
  ck_ip : ∃ e, elements d !! js "add_ip" = Some e ∧ value e = h_ip h ∧ h_ip h ≠ [] ∧ 10 ∉ h_ip h;
  ck_id : ∃ e, elements d !! js "add_hostid" = Some e ∧ or_dash (value e) = h_id h ∧ 10 ∉ h_id h;
  ck_duid : ∃ e, elements d !! js "add_duid" = Some e ∧ or_dash (value e) = h_duid h ∧ 10 ∉ h_duid h;
  ck_rows : ∀ D hs j h', getTableDataArray t true false = Ret D → Forall2 shows_host hs D → hs !! j = Some h' →
    not_excluded t j excludeRow = true → ¬ clash h' h
}.

Section steps.
Context (UI dhcpS : jstr → jstr) (leaseData : list lease) (hosts macs duids : list (jstr * jstr)).

Lemma or_dash_line v : 10 ∉ v → 10 ∉ or_dash v.
Proof. intros H. unfold or_dash. destruct (v =s []); [by apply (bool_decide_eq_false_1 (10 ∈ js "-"))|done]. Qed.

Lemma concat_nil {A} (l : list (list A)) : concat l = [] → Forall (λ x, x = []) l.
Proof. induction l as [|x l IH]; simpl; [done|]. intros [? ?]%app_nil. constructor; auto. Qed.

Lemma proofreadStatic_checked p t excludeRow d : lease_form (dh_doc p) → dh_table p = Some t →
  proofreadStatic UI dhcpS p excludeRow = Ret ([], d) → same_but_color (dh_doc p) d ∧ ∃ h, checked d t excludeRow h.
Proof.
  intros [Hf Hid] Ht. unfold proofreadStatic. destruct (proofread_valid UI static_fields (dh_doc p) Hf) as (errs & d' & -> & S & V).
  cbn [exn_bind fst snd]. destruct errs as [|x errs]; [|done]. cbn [length Nat.eqb negb]. rewrite Ht. cbn [exn_of_option exn_bind].
  specialize (V eq_refl).
  assert (Hv : ∀ id, id ∈ add_ids → ∃ e, elements d' !! id = Some e ∧ 10 ∉ value e).
  { intros id Hin. destruct (Hid id Hin) as (e & He & _ & Hl). destruct (same_lookup _ _ _ _ S He) as [c Hc].
    eexists. split; [exact Hc|]. by rewrite value_color. }
  destruct (Hv (js "add_host")) as (e0 & E0 & L0); [set_solver|]. destruct (Hv (js "add_mac")) as (e1 & E1 & L1); [set_solver|].
  destruct (Hv (js "add_ip")) as (e2 & E2 & L2); [set_solver|]. destruct (Hv (js "add_hostid")) as (e3 & E3 & L3); [set_solver|].
  destruct (Hv (js "add_duid")) as (e4 & E4 & L4); [set_solver|].
  unfold duplicate_errors. destruct (getTableDataArray t true false) as [D|] eqn:ED; [|done]. cbn [exn_bind].
  unfold el, getElementById. rewrite E0, E1, E2, E3, E4. cbn [exn_of_option exn_bind].
  destruct (concat _) as [|x errs] eqn:Ec; [|done]. cbn [length Nat.eqb negb].
  destruct (duid_errors dhcpS d') as [errs|]; [|done]. cbn [exn_bind]. destruct errs; [|done]. cbn [length Nat.eqb negb].
  destruct (subnet_errors dhcpS (dh_uci p) d') as [errs|]; [|done]. cbn [exn_bind]. intros [= -> <-]. split; [done|].
  exists (mkHost (or_dash (value e0)) (value e1) (value e2) (or_dash (value e3)) (or_dash (value e4))).
  apply concat_nil in Ec. rewrite Forall_lookup in Ec.
  split; cbn [h_name h_mac h_ip h_id h_duid].
  - eauto using or_dash_line.
  - exists e1. split_and!; [done|done| |done]. intros E.
    assert (Hc := V (mkField (js "add_mac") (js "add_mac_label") validateMac 0 (Some (js "add_mac"))) e1). cbn in Hc. rewrite E in Hc.
    discriminate Hc; [set_solver|done].
  - exists e2. split_and!; [done|done| |done]. intros E.
    assert (Hc := V (mkField (js "add_ip") (js "add_ip_label") validateIP 0 (Some (js "add_ip"))) e2). cbn in Hc. rewrite E in Hc.
    discriminate Hc; [set_solver|done].
  - eauto using or_dash_line.
  - eauto using or_dash_line.
  - intros D' hs j h' HD Hs Hj Hne. rewrite ED in HD. injection HD as <-. destruct (Forall2_lookup_l _ _ _ _ _ Hs Hj) as (ds & Hds & b & ->).
    specialize (Ec j (row_errors dhcpS (host_data b h') (value e0) (value e1) (value e2) (value e3) (value e4))).
    rewrite list_lookup_imap, Hds in Ec. cbn [fmap option_fmap option_map] in Ec. rewrite Hne in Ec.
    by eapply row_errors_clash, Ec.
Qed.

Abbreviation reset_list := (resetHostnameMacList UI dhcpS leaseData hosts macs duids).

Lemma reset_list_table p p' : reset_list p = Ret p' → dh_table p' = dh_table p.
Proof.
  unfold resetHostnameMacList, exn_bind.
  repeat match goal with |- context [match ?x with Ret _ => _ | Raise _ => _ end] => destruct x; [|done] end. by intros [= <-].
Qed.

Lemma take_fields_spec d e0 e1 e2 e3 e4 :
  elements d !! js "add_host" = Some e0 → elements d !! js "add_mac" = Some e1 → elements d !! js "add_ip" = Some e2 →
  elements d !! js "add_hostid" = Some e3 → elements d !! js "add_duid" = Some e4 →
  ∃ d', take_fields d = Ret (map (λ e, DStr (or_dash (value e))) [e0; e1; e2; e3; e4], d').
Proof.
  intros E0 E1 E2 E3 E4. unfold take_fields, add_ids, el, getElementById. cbn [exn_fold].
  repeat (rewrite ?put_ne by done; (rewrite E0 || rewrite E1 || rewrite E2 || rewrite E3 || rewrite E4); cbn [exn_of_option exn_bind]).
  eexists. reflexivity.
Qed.

Lemma add_apart p p' : lease_form (dh_doc p) → page_apart p → addStatic UI dhcpS leaseData hosts macs duids p = Ret p' → page_apart p'.
Proof.
  intros Hf (t & Ht & Hwf & D & hs & HD & Hs & Ha). unfold addStatic.
  destruct (proofreadStatic UI dhcpS p None) as [[errs d]|] eqn:Ep; [|done]. cbn [exn_bind fst snd].
  destruct errs as [|x errs]; [|intros [= <-]; exists t; split; [done|]; split; eauto]. cbn [length Nat.eqb negb].
  destruct (proofreadStatic_checked p t None d Hf Ht Ep) as (_ & h & Hck).
  destruct Hck as [(e0 & E0 & V0 & L0) (e1 & E1 & V1 & N1 & L1) (e2 & E2 & V2 & N2 & L2) (e3 & E3 & V3 & L3) (e4 & E4 & V4 & L4) Hrows].
  destruct (take_fields_spec d e0 e1 e2 e3 e4 E0 E1 E2 E3 E4) as [d' ->]. cbn [exn_bind fst snd]. rewrite Ht. cbn [exn_of_option exn_bind].
  intros Er%reset_list_table. cbn [dh_table with_table] in Er. eexists. split; [exact Er|]. clear Er.
  assert (Hne : ∀ v, v ≠ [] → or_dash v = v) by (intros v Hv; unfold or_dash; by rewrite (proj2 (str_eqb_neq v [])) by done).
  assert (Erow : map (λ e, DStr (or_dash (value e))) [e0; e1; e2; e3; e4] ++ [DObj (createEditButton UI)] = host_data (createEditButton UI) h).
  { unfold host_data. cbn [map app]. rewrite V0, V1, V2, V3, V4, (Hne (h_mac h)), (Hne (h_ip h)) by done. done. }
  rewrite Erow. destruct (addTableRow_data true false (UI (js "Remove")) t (host_data (createEditButton UI) h) D) as [Hwf' HD']; [done..|].
  split; [done|]. eexists _, (hs ++ [h]). split; [exact HD'|]. split.
  - apply Forall2_app; [done|]. constructor; [|constructor]. exists (createEditButton UI). unfold host_data. cbn [map].
    by rewrite !first_line_one.
  - apply pairwise_snoc; [apply _|done|]. intros h' (j & Hj)%list_elem_of_lookup. eapply Hrows; [done..|].
    eapply not_excluded_add; [done..|]. rewrite <- (Forall2_length _ _ _ Hs). by eapply lookup_lt_Some.
Qed.

Lemma edit_apart p p' id : lease_form (dh_doc p) → page_apart p →
  editStatic UI dhcpS leaseData hosts macs duids p id = Ret p' → page_apart p'.
Proof.
  intros Hf (t & Ht & Hwf & D & hs & HD & Hs & Ha). unfold editStatic.
  destruct (proofreadStatic UI dhcpS p (Some id)) as [[errs d]|] eqn:Ep; [|done]. cbn [exn_bind fst snd].
  destruct errs as [|x errs]; [|intros [= <-]; exists t; split; [done|]; split; eauto]. cbn [length Nat.eqb negb].
  destruct (proofreadStatic_checked p t (Some id) d Hf Ht Ep) as (_ & h & Hck).
  destruct Hck as [(e0 & E0 & V0 & L0) (e1 & E1 & V1 & N1 & L1) (e2 & E2 & V2 & N2 & L2) (e3 & E3 & V3 & L3) (e4 & E4 & V4 & L4) Hrows].
  unfold el, getElementById. rewrite E0, E1, E2, E3, E4. cbn [exn_of_option exn_bind]. rewrite Ht, V0, V1, V2, V3, V4. cbn [edit_cells].
  destruct (set_datas t id _) as [t'|] eqn:E; [|done]. cbn [exn_bind]. intros Er%reset_list_table. cbn [dh_table with_table] in Er.
  exists t'. split; [done|]. clear Er. destruct (decide (id ∈ map r_id (t_body t))) as [Hin|Hnin].
  - apply list_elem_of_fmap in Hin as (r & -> & (i & Hi)%list_elem_of_lookup).
    assert (Hlen : length (t_body t) = length D).
    { pose proof HD as HD'. apply table_data_rows in HD'; [|done]. apply (f_equal length) in HD'. by rewrite !length_map in HD'. }
    destruct (lookup_lt_is_Some_2 D i) as [ds Hds]; [rewrite <- Hlen; by eapply lookup_lt_Some|].
    destruct (Forall2_lookup_r _ _ _ _ _ Hs Hds) as (h0 & Hh0 & b & ->).
    destruct (set_datas_effect true false t D i r (host_data b h0)
      [(0%nat, h_name h); (1%nat, h_mac h); (2%nat, h_ip h); (3%nat, h_id h); (4%nat, h_duid h)] Hwf HD Hi Hds) as (t1 & E1' & W1 & _ & D1);
      [repeat (constructor; [by eexists|]); constructor|].
    rewrite E in E1'. injection E1' as <-. split; [done|]. eexists _, (<[i := h]> hs). split; [exact D1|]. split.
    + apply Forall2_insert; [done|]. exists b. by destruct h.
    + apply pairwise_insert; [apply _|done|]. intros j h' Hj Hji. eapply Hrows; [done..|].
      destruct (lookup_lt_is_Some_2 (t_body t) j) as [r' Hr']; [rewrite Hlen, <- (Forall2_length _ _ _ Hs); by eapply lookup_lt_Some|].
      by eapply not_excluded_edit.
  - rewrite set_datas_absent in E.
    + injection E as <-. split; [done|]. eauto 10.
    + intros r Hr Eid. apply Hnin. subst. by apply list_elem_of_fmap_2.
Qed.

(** What a user can do with the leases. *)
Inductive lease_step : dhcp_page → dhcp_page → Prop :=
| ls_fields p d : lease_step p (with_doc p d)
| ls_add p p' : lease_form (dh_doc p) → addStatic UI dhcpS leaseData hosts macs duids p = Ret p' → lease_step p p'
| ls_edit p p' id : lease_form (dh_doc p) → editStatic UI dhcpS leaseData hosts macs duids p id = Ret p' → lease_step p p'
| ls_remove p p' t t' i r : dh_table p = Some t → t_body t !! i = Some r → removeThisCellsRow t (r_id r) = Ret t' →
    removeStaticIp UI dhcpS leaseData hosts macs duids (with_table p (Some t')) r = Ret p' → lease_step p p'
| ls_enable p p' b : setEnabled UI dhcpS leaseData hosts macs duids p b = Ret p' → lease_step p p'.

Lemma shows_host_set b h ds : shows_host h ds → shows_host h (map (set_datum b) ds).
Proof. intros [w ->]. by eexists. Qed.

Lemma lease_step_apart p p' : page_apart p → lease_step p p' → page_apart p'.
Proof.
  intros Hok Hs. destruct Hs as [p d|p p' Hf E|p p' id Hf E|p p' t t' i r Ht Hr E E'|p p' b E].
  - done.
  - by eapply add_apart.
  - by eapply edit_apart.
  - destruct Hok as (t0 & Ht0 & Hwf & D & hs & HD & Hs & Ha). rewrite Ht in Ht0. injection Ht0 as <-.
    destruct (removeRow_data true false t D i r Hwf HD Hr) as (t1 & E1 & W1 & D1). rewrite E in E1. injection E1 as <-.
    unfold removeStaticIp in E'. destruct (get_data r 2); [|done]. cbn [exn_bind] in E'. apply reset_list_table in E'.
    exists t'. split; [done|]. split; [done|]. eexists _, (delete i hs). split; [exact D1|]. split; [|by apply pairwise_delete].
    apply Forall2_fmap_r. eapply Forall2_impl; [by apply Forall2_delete|]. intros x y. apply shows_host_set.
  - destruct Hok as (t & Ht & Hwf & D & hs & HD & Hs & Ha). unfold setEnabled in E.
    destruct (exn_fold _ enabled_ids (dh_doc p)) as [d|]; [|done]. cbn [exn_bind] in E. rewrite Ht in E. cbn [exn_of_option exn_bind] in E.
    destruct (setRowClasses_data true false t D b Hwf HD) as (t' & E1 & W1 & D1). rewrite E1 in E. cbn [exn_bind] in E.
    apply reset_list_table in E. exists t'. split; [done|]. split; [done|]. eexists _, hs. split; [exact D1|]. split; [|done].
    apply Forall2_fmap_r. eapply Forall2_impl; [done|]. intros x y. apply shows_host_set.
Qed.

End steps.

(** C19: however a table of static leases that are apart is used - leases added
    and edited through the checked fields, removed, the server switched on or
    off - they stay apart: no two rows show the same text for the MAC or for the
    IP, nor for the host name, the IPv6 suffix or the DUID unless it is blank or
    a dash.  Equality is that of the texts, as in the checks of the page: the same
    MAC in other letters is another text ([lease_checks_miss]). *)
Theorem static_leases_apart UI dhcpS leaseData hosts macs duids p p' :
  page_apart p → rtc (lease_step UI dhcpS leaseData hosts macs duids) p p' → page_apart p'.
Proof. intros Hok. induction 1 as [|p p1 p2 Hs _ IH]; [done|]. by eapply IH, lease_step_apart. Qed.

(** ** A page to use *)
Definition sample_doc : document := mkDoc (list_to_map
  [(js "add_host", input_el (js "printer")); (js "add_host_label", label_el (js "Host:"));
   (js "add_mac", input_el (js "aa:bb:cc:00:11:22")); (js "add_mac_label", label_el (js "MAC:"));
   (js "add_ip", input_el (js "10.9.9.5")); (js "add_ip_label", label_el (js "IP:"));
   (js "add_hostid", input_el []); (js "add_hostid_label", label_el (js "Suffix:"));
   (js "add_duid", input_el []); (js "add_duid_label", label_el (js "DUID:"));
   (js "dhcp_start", input_el (js "150")); (js "dhcp_start_label", label_el (js "Start:"));
   (js "dhcp_end", input_el (js "100")); (js "dhcp_end_label", label_el (js "End:"));
   (js "dhcp_lease", input_el (js "12")); (js "dhcp_lease_label", label_el (js "Lease:"));
   (js "dhcp_enabled", check_el true); (js "static_from_connected", select_el [js "none"])]) [].

Definition sample_uci : UCIContainer :=
  Uci.set (Uci.set (Uci.set Uci.new (js "network") (js "lan") [] (UStr (js "interface")) false)
    (js "network") (js "lan") (js "ipaddr") (UStr (js "192.168.1.1")) false)
    (js "network") (js "lan") (js "netmask") (UStr (js "255.255.255.0")) false.

Definition sample_host : host := mkHost (js "nas") (js "AA:BB:CC:00:11:22") (js "192.168.1.20") (js "-") (js "-").
Definition one_host : table := createTable (js "Remove") [] [host_data (mkWidget (js "button") [] false [] false) sample_host] (js "t") true false.
Definition sample_page : dhcp_page := mkDhcp sample_doc sample_uci (Some one_host) None.

Lemma static_leases_apart_witness :
  ∃ p, addStatic (λ s, s) (λ s, s) [] [] [] [] sample_page = Ret p ∧ page_apart p.
Proof.
  eexists. split; [vm_compute; reflexivity|]. apply (static_leases_apart (λ s, s) (λ s, s) [] [] [] [] sample_page).
  - exists one_host. split; [reflexivity|]. split.
    + unfold one_host, createTable. apply createTable_rows. constructor; [by left|constructor].
    + eexists _, [sample_host]. split; [vm_compute; reflexivity|]. split; [constructor; [by eexists|constructor]|].
      intros i j h h' Hi%list_lookup_singleton_Some Hj%list_lookup_singleton_Some Hij. lia.
  - apply rtc_once, ls_add; [|vm_compute; reflexivity]. split.
    + repeat (constructor; [split; [split_and!; try (eexists; vm_compute; reflexivity); eexists _, _; split; vm_compute; reflexivity|vm_compute; reflexivity]|]). constructor.
    + intros id Hid. unfold add_ids in Hid. rewrite !elem_of_cons, elem_of_nil in Hid.
      destruct Hid as [-> |[-> |[-> |[-> |[-> |[]]]]]]; (eexists; split; [vm_compute; reflexivity|]; split; [vm_compute; reflexivity|]);
        apply (bool_decide_unpack _); vm_compute; exact I.
Defined.

(** What the checks let through: a MAC that another lease writes in capitals
    (the comparison is textual) and an address of another network (only the last
    octet is compared with the range of the subnet). *)
Theorem lease_checks_miss :
  ∃ p t, addStatic (λ s, s) (λ s, s) [] [] [] [] sample_page = Ret p ∧ dh_table p = Some t ∧
    (λ D, map (λ ds, (ds !! 1%nat, ds !! 2%nat)) D) <$> (match getTableDataArray t true false with Ret D => Some D | Raise _ => None end) =
    Some [(Some (DStr (js "AA:BB:CC:00:11:22")), Some (DStr (js "192.168.1.20")));
          (Some (DStr (js "aa:bb:cc:00:11:22")), Some (DStr (js "10.9.9.5")))].
Proof. eexists _, _. split; [vm_compute; reflexivity|]. split; [reflexivity|]. vm_compute. reflexivity. Qed.

(** A range of addresses whose start is above its end is accepted; the number
    of leases that is stored is then negative. *)
Theorem reversed_range_accepted :
  (fst <$> match proofreadAll (λ s, s) (λ s, s) sample_page with Ret r => Some r | Raise _ => None end) = Some [] ∧
  limit_of [js "150"; js "100"] = js "-49".
Proof. split; vm_compute; reflexivity. Qed.

(** Only the start of an IPv6 suffix is checked. *)
Theorem suffix_not_anchored : proofreadIP6Suffix (js "::1 and more") = 0.
Proof. vm_compute. reflexivity. Qed.

(** A lease time in minutes becomes a fraction of hours, which the test of the field
    refuses; one in days and an infinite one are shown as the default of 12 hours. *)
Theorem lease_times_shown :
  leaseModFunc (js "12h") = js "12" ∧
  leaseModFunc (js "90m") = js "1.5" ∧ validateNumeric (js "1.5") = 1 ∧ leaseModFunc (js "50m") = js "0.8333333333333334" ∧
  leaseModFunc (js "2d") = [] ∧ leaseModFunc (js "infinite") = [].
Proof. split_and!; vm_compute; reflexivity. Qed.
