(* ===== verification/DhcpSave.v ===== *)
(** * Saving the static leases and reading them back *)
From S2P Require Import Prelude JsNum JsString JsRegex Uci UciFacts Backend UciScript Sections Ip4 Validate Ip4Facts Ip6 Table TableFacts TableEdit Dom Modal Forms Ports Dhcp DhcpFacts.
Import Uci Table TableEdit Sections Dhcp.
Open Scope Z_scope.

Abbreviation dhcp := (js "dhcp").

Definition host_sec (n : Z) : jstr := js "static_host_" ++ str_of_Z n.

Definition opt_if (b : bool) (o v : jstr) : list (jstr * jstr) := if b then [(o, v)] else [].

(** The options written for a lease. *)
Definition host_opts (h : host) : list (jstr * jstr) :=
  opt_if (negb (h_name h =s []) && negb (h_name h =s js "-")) (js "name") (h_name h)
  ++ [(js "mac", h_mac h); (js "ip", h_ip h)]
  ++ opt_if (negb (h_id h =s js "-")) (js "hostid") (store_hostid (h_id h))
  ++ opt_if (negb (h_duid h =s js "-")) (js "duid") (h_duid h).

(** What the page shows of a saved lease. *)
Definition shown_host (h : host) : host :=
  mkHost (if negb (h_name h =s []) && negb (h_name h =s js "-") then h_name h else [])
    (h_mac h) (h_ip h)
    (hostid_text (if negb (h_id h =s js "-") then store_hostid (h_id h) else []))
    (or_dash (if negb (h_duid h =s js "-") then h_duid h else [])).

(** A lease without a MAC is not saved. *)
Definition has_mac (h : host) : bool := negb ((h_mac h =s []) || (h_mac h =s js "-")).

Definition host_rec (ih : nat * host) : section_rec := (host_sec (Z.of_nat (fst ih) + 1), js "host", host_opts (snd ih)).
Definition saved_hosts (k : nat) (hs : list host) : list (nat * host) := List.filter (λ ih, has_mac (snd ih)) (imap (λ i h, (k + i, h)%nat) hs).

Section saving.

Lemma word_host_sec n : 0 <= n → word (host_sec n).
Proof.
  intros Hn. apply word_numbered; [|done]. split; [done|repeat constructor].
Qed.

Lemma host_sec_inj a b : 0 <= a → 0 <= b → host_sec a = host_sec b → a = b.
Proof. intros Ha Hb E. unfold host_sec in E. apply app_inv_head in E. by apply str_of_Z_inj. Qed.

Lemma host_opts_ok h : Forall word (map fst (host_opts h)) ∧ NoDup (map fst (host_opts h)).
Proof.
  unfold host_opts, opt_if. destruct (negb (h_name h =s []) && negb (h_name h =s js "-")), (negb (h_id h =s js "-")), (negb (h_duid h =s js "-"));
    simpl; split; by_eval.
Qed.

Lemma save_host_write b u c i h : save_host (u, c) (i, host_data b h) =
  Ret (if has_mac h then (write_section dhcp u (host_sec (Z.of_nat i + 1)) (js "host") (host_opts h),
                          c ++ [js "uci set dhcp." ++ host_sec (Z.of_nat i + 1) ++ js "=host"])
       else (u, c)).
Proof.
  unfold save_host, host_data, datum_str, has_mac. cbn [lookup list_lookup exn_bind]. destruct ((h_mac h =s []) || (h_mac h =s js "-")); [done|].
  cbn [negb]. unfold host_opts, opt_if.
  by destruct (negb (h_name h =s []) && negb (h_name h =s js "-")), (negb (h_id h =s js "-")), (negb (h_duid h =s js "-")).
Qed.

Lemma save_hosts_write hs D k u c : Forall2 shows_host hs D →
  exn_fold save_host (imap (λ i x, (k + i, x)%nat) D) (u, c) =
  Ret (write_sections dhcp u (map host_rec (saved_hosts k hs)),
       c ++ map (λ r, js "uci set dhcp." ++ rec_name r ++ js "=host") (map host_rec (saved_hosts k hs))).
Proof.
  intros HD. revert k u c. induction HD as [|h ds hs D [b ->] _ IH]; intros k u c; [by rewrite app_nil_r|].
  unfold saved_hosts. cbn [imap exn_fold List.filter]. rewrite Nat.add_0_r. rewrite save_host_write. cbn [exn_bind snd].
  assert (Ei : ∀ (A : Type) (l : list A), imap (λ i x, (k + S i, x)%nat) l = imap (λ i x, (S k + i, x)%nat) l).
  { intros A l. apply imap_ext. intros i x _. f_equal. lia. }
  change (imap ((λ i x, (k + i, x)%nat) ∘ S) D) with (imap (λ i x, (k + S i, x)%nat) D).
  change (imap ((λ i h, (k + i, h)%nat) ∘ S) hs) with (imap (λ i x, (k + S i, x)%nat) hs). rewrite !Ei.
  fold (saved_hosts (S k) hs). destruct (has_mac h); rewrite IH; [|done]. cbn [map]. by rewrite <- app_assoc.
Qed.

Lemma saved_hosts_ge k hs : Forall (λ ih, k ≤ ih.1)%nat (saved_hosts k hs) ∧ NoDup (map fst (saved_hosts k hs)).
Proof.
  assert (Hf : map fst (saved_hosts k hs) `sublist_of` seq k (length hs)).
  { unfold saved_hosts. revert k. induction hs as [|h hs IH]; intros k; [done|]. cbn [imap List.filter length seq]. rewrite Nat.add_0_r.
    change (imap ((λ i h, (k + i, h)%nat) ∘ S) hs) with (imap (λ i x, (k + S i, x)%nat) hs).
    rewrite (imap_ext (λ i x, (k + S i, x)%nat) (λ i x, (S k + i, x)%nat)) by (intros; f_equal; lia).
    destruct (has_mac (k, h).2); [by apply sublist_skip|by apply sublist_cons]. }
  split.
  - apply Forall_forall. intros ih Hin. assert (Hs : ih.1 ∈ seq k (length hs)).
    { eapply elem_of_submseteq; [by apply list_elem_of_fmap_2|]. by apply sublist_submseteq. }
    apply elem_of_seq in Hs. lia.
  - eapply sublist_NoDup; [apply NoDup_seq|exact Hf].
Qed.

Lemma host_recs_ok hs : Forall rec_ok (map host_rec (saved_hosts 0 hs)) ∧ NoDup (map rec_name (map host_rec (saved_hosts 0 hs))).
Proof.
  split.
  - apply Forall_map, Forall_forall. intros [i h] _. split_and!; [apply word_host_sec; simpl; lia|done|apply host_opts_ok..].
  - rewrite map_map. destruct (saved_hosts_ge 0 hs) as [_ Hnd]. revert Hnd. generalize (saved_hosts 0 hs). intros l Hnd.
    apply (NoDup_fmap_2_strong (λ n, host_sec (Z.of_nat n + 1))) in Hnd.
    + by rewrite <- list_fmap_compose in Hnd.
    + intros x y _ _ E. apply host_sec_inj in E; lia.
Qed.

End saving.

Lemma omap_some {A B} (f : A → B) l : omap id (map (λ x, Some (f x)) l) = map f l.
Proof. induction l as [|x l IH]; [done|]. simpl. by f_equal. Qed.

Section reading.
Context (UI : jstr → jstr).

Lemma host_row_holds u i h : has_mac h = true → holds_rec dhcp u (host_rec (i, h)) →
  host_row UI u (rec_name (host_rec (i, h))) = Ret (Some (host_data (createEditButton UI) (shown_host h))).
Proof.
  intros Hm [Hv Hn]. unfold host_row. cbn [rec_opts host_rec rec_name fst snd] in *.
  assert (Ho : ∀ b o v, opt_if b o v ⊆ host_opts h → name o → (b = false → o ∉ map fst (host_opts h)) →
    get u dhcp (host_sec (Z.of_nat i + 1)) o = UStr (if b then v else [])).
  { intros b o v Hin Hno Hb. destruct b; [apply Hv, Hin; by left|by apply Hn, Hb]. }
  assert (E1 : get u dhcp (host_sec (Z.of_nat i + 1)) (js "mac") = UStr (h_mac h)) by (apply Hv; unfold host_opts; set_solver).
  assert (E2 : get u dhcp (host_sec (Z.of_nat i + 1)) (js "ip") = UStr (h_ip h)) by (apply Hv; unfold host_opts; set_solver).
  rewrite (Ho (negb (h_name h =s []) && negb (h_name h =s js "-")) (js "name") (h_name h)), E1, E2,
    (Ho (negb (h_id h =s js "-")) (js "hostid") (store_hostid (h_id h))), (Ho (negb (h_duid h =s js "-")) (js "duid") (h_duid h)).
  - cbn [uval_str]. unfold has_mac in Hm. destruct (h_mac h =s []); [done|]. cbn [uval_datum exn_bind].
    unfold shown_host, host_data, or_dash. cbn [h_name h_mac h_ip h_id h_duid].
    by destruct ((if negb (h_duid h =s js "-") then h_duid h else []) =s []).
  - unfold host_opts. set_solver.
  - by_eval.
  - intros E. unfold host_opts. rewrite E. unfold opt_if. destruct (negb (h_name h =s []) && _), (negb (h_id h =s _)); simpl; set_solver.
  - unfold host_opts. set_solver.
  - by_eval.
  - intros E. unfold host_opts. rewrite E. unfold opt_if. destruct (negb (h_name h =s []) && _), (negb (h_duid h =s _)); simpl; set_solver.
  - unfold host_opts. set_solver.
  - by_eval.
  - intros E. unfold host_opts. rewrite E. unfold opt_if. destruct (negb (h_id h =s _)), (negb (h_duid h =s _)); simpl; set_solver.
Qed.

Lemma saved_hosts_snd k hs : map snd (saved_hosts k hs) = List.filter has_mac hs.
Proof.
  unfold saved_hosts. revert k. induction hs as [|h hs IH]; intros k; [done|]. cbn [imap List.filter].
  change (imap ((λ i h, (k + i, h)%nat) ∘ S) hs) with (imap (λ i x, (k + S i, x)%nat) hs).
  rewrite (imap_ext (λ i x, (k + S i, x)%nat) (λ i x, (S k + i, x)%nat)) by (intros; f_equal; lia).
  cbn [snd]. destruct (has_mac h); cbn [map snd]; by rewrite IH.
Qed.

End reading.

(** C20: the static leases are written and read back.  Into settings that have no
    host section (the page has removed them), the loop of [saveChanges] writes
    every row that has a MAC; a page loaded from the result shows exactly these
    leases, in the same order, each as [shown_host] says; every other setting is
    untouched. *)
Theorem leases_roundtrip UI u c hs D :
  wf u → sectioned u → getAllSectionsOfType u (js "dhcp") (js "host") = Ret [] →
  (∀ n, 0 <= n → section_key (js "dhcp") (host_sec n) ∉ keys u) → Forall2 shows_host hs D →
  ∃ u' c', exn_fold save_host (imap (λ i x, (i, x)) D) (u, c) = Ret (u', c') ∧ wf u' ∧ sectioned u' ∧
    host_rows UI u' = Ret (map (host_data (createEditButton UI)) (map shown_host (List.filter has_mac hs))) ∧
    (∀ p s o, name p → name s → o = [] ∨ name o → (p = js "dhcp" → ∀ n, s ≠ host_sec n) → get u' p s o = get u p s o).
Proof.
  intros Hu Hs Hq Hfr HD. pose proof (save_hosts_write hs D 0 u c HD) as E. cbn [Nat.add] in E.
  change (imap (λ i x, ((λ n, n) i, x)) D) with (imap (λ i x, (i, x)) D) in E.
  set (recs := map host_rec (saved_hosts 0 hs)) in *. destruct (host_recs_ok hs) as [Hok Hnd]. fold recs in Hok, Hnd.
  assert (Hdw : word dhcp) by by_eval.
  destruct (write_sections_spec dhcp Hdw recs u Hok Hnd Hu Hs) as (Wf & Ws & Wq & Wh & Wn).
  { unfold recs. apply Forall_map, Forall_forall. intros [i h] _. apply Hfr. simpl. lia. }
  eexists _, _. split; [exact E|]. split_and!; [done|done| |].
  - unfold host_rows. rewrite (Wq _ _ Hq). cbn [exn_bind app].
    assert (Hn : names_of_type (js "host") recs = map rec_name recs).
    { unfold names_of_type, recs. f_equal. generalize (saved_hosts 0 hs). intros l. induction l as [|x l IH]; simpl; [done|]. by rewrite IH. }
    rewrite Hn. rewrite <- (saved_hosts_snd 0 hs). unfold recs in *. rewrite map_map in *.
    assert (Hm : Forall (λ ih, has_mac ih.2 = true) (saved_hosts 0 hs)).
    { apply Forall_forall. intros ih. unfold saved_hosts. rewrite list_elem_of_In, filter_In. by intros [_ ?]. }
    revert Wh Hm. generalize (write_sections dhcp u (map host_rec (saved_hosts 0 hs))). intros u' Wh Hm. rewrite Forall_map in Wh.
    replace (exn_map _ _) with (Ret (map (λ h, Some (host_data (createEditButton UI) (shown_host h))) (map snd (saved_hosts 0 hs)))).
    + cbn [exn_bind]. f_equal. rewrite omap_some. by rewrite !map_map.
    + symmetry. rewrite map_map. apply exn_map_Forall2, Forall2_fmap_2, Forall_Forall2_diag. rewrite Forall_forall in *. 
      intros [i h] Hin. apply host_row_holds; [by apply (Hm (i, h))|by apply (Wh (i, h))].
  - intros p s o Hp Hsn Ho Hne. apply Wn; [done..|]. intros ->. unfold recs. rewrite map_map, list_elem_of_fmap.
    intros ([i h] & -> & _). by eapply Hne.
Qed.

(** ** An example *)
Definition sample_dhcp : UCIContainer :=
  write_sections dhcp new [(js "lan", js "dhcp", [(js "interface", js "lan"); (js "start", js "100")])].
Definition sample_hosts : list host :=
  [mkHost (js "nas") (js "AA:BB:CC:00:11:22") (js "192.168.1.20") (js "::a:1") (js "0001");
   mkHost (js "ghost") (js "-") (js "192.168.1.21") (js "-") (js "-");
   mkHost (js "-") (js "AA:BB:CC:00:11:33") (js "192.168.1.22") (js "-") (js "-")].

Lemma leases_roundtrip_witness : ∃ u' c',
  exn_fold save_host (imap (λ i x, (i, x)) (map (host_data (mkWidget [] [] false [] false)) sample_hosts)) (sample_dhcp, []) = Ret (u', c') ∧
  host_rows (λ s, s) u' = Ret (map (host_data (createEditButton (λ s, s)))
    [mkHost (js "nas") (js "AA:BB:CC:00:11:22") (js "192.168.1.20") (js "::a:1") (js "0001");
     mkHost [] (js "AA:BB:CC:00:11:33") (js "192.168.1.22") (js "-") (js "-")]).
Proof.
  assert (Hwf : wf sample_dhcp) by (apply write_sections_wf, new_wf).
  destruct (leases_roundtrip (λ s, s) sample_dhcp [] sample_hosts (map (host_data (mkWidget [] [] false [] false)) sample_hosts) Hwf
    (check_sectioned _ Hwf eq_refl)) as (u' & c' & E & _ & _ & R & _).
  - vm_compute. reflexivity.
  - intros n Hn Hk. assert (Hp : Forall (λ k, is_prefix (js "dhcp.lan") k = true) (keys sample_dhcp)) by by_eval.
    rewrite Forall_forall in Hp. apply Hp in Hk. discriminate Hk.
  - repeat (constructor; [by eexists|]). constructor.
  - exists u', c'. split; [exact E|]. rewrite R. vm_compute. reflexivity.
Defined.
