(* ===== verification/Vpn.v ===== *)
(** * VPN clients (openvpn.js and wireguard.js)

    The two plugins keep their clients in the sections [allowed_client] of a
    package of their own.  The functions they share word for word (the clients
    that are defined, the next free address, the identifier of a new client, the
    remote names) are defined once, for a package, and instantiated in [OpenVpn]
    and [WireGuard]. *)
From S2P Require Import Prelude JsNum JsString JsRegex Uci Ip4 Validate Table TableEdit Dom Modal Ports.
Import Uci Validate Table TableEdit Dom Modal Ports Ip4.
Open Scope Z_scope.

(** A row of the table of clients. *)
Record ac_row := mkAcRow {
  ar_id : jstr; ar_name : jstr; ar_ip : jstr; ar_subnet : jstr; ar_pubkey : jstr; ar_enabled : bool
}.

Record vpn_page := mkVpn {
  vp_doc : document;
  vp_uci : UCIContainer;           (** [uci], being edited *)
  vp_orig : UCIContainer;          (** [uciOriginal] *)
  vp_rows : list ac_row;           (** the table of clients *)
  vp_extra : option table          (** OpenVPN's table of additional subnets *)
}.

Module Vpn.

Definition with_doc (p : vpn_page) (d : document) : vpn_page := mkVpn d (vp_uci p) (vp_orig p) (vp_rows p) (vp_extra p).
Definition with_uci (p : vpn_page) (u : UCIContainer) : vpn_page := mkVpn (vp_doc p) u (vp_orig p) (vp_rows p) (vp_extra p).
Definition with_rows (p : vpn_page) (l : list ac_row) : vpn_page := mkVpn (vp_doc p) (vp_uci p) (vp_orig p) l (vp_extra p).
Definition with_extra (p : vpn_page) (t : option table) : vpn_page := mkVpn (vp_doc p) (vp_uci p) (vp_orig p) (vp_rows p) t.

Definition validateHaveText (txt : jstr) : Z := if 0 <? zlen txt then 0 else 1.

(** [getSelectedValue(id) == v] *)
Definition selected_is (UI : jstr → jstr) (d : document) (id v : jstr) : exn (bool * document) :=
  let! s := getSelectedValue UI d id in Ret (bool_decide (fst s = Some v), snd s).

Definition hidden (d : document) (id : jstr) : exn bool :=
  let! e := el d id in Ret (e_display e =s js "none").

Section package.
Variable pkg : jstr.

Definition getDefinedAcIds (uci : UCIContainer) : exn (list jstr) :=
  let! allowedClients := getAllSectionsOfType uci pkg (js "allowed_client") in
  Ret (List.filter (fun id =>
    let enabled := gets uci pkg id (js "enabled") in negb (enabled =s js "0") && negb (enabled =s js "false")) allowedClients).

Definition getDefinedAcIps (uci : UCIContainer) : exn (list jstr) :=
  let! allowedClients := getDefinedAcIds uci in
  Ret (List.filter (fun ip => negb (ip =s [])) (map (fun id => gets uci pkg id (js "ip")) allowedClients)).

(** The three counters and the candidate of [getUnusedAcIp]. *)
Definition octet_text (n : num) : jstr := match n with Dec z _ => str_of_Z z | _ => js "NaN" end.
Definition candidate (firstIpPart : jstr) (second third fourth : num) : jstr :=
  firstIpPart ++ js "." ++ octet_text second ++ js "." ++ octet_text third ++ js "." ++ octet_text fourth.

(** The body of the loop; the candidate is kept when the second part is 255. *)
Definition next_candidate (firstIpPart : jstr) (st : num * num * num * jstr) : num * num * num * jstr :=
  let '(second, third, fourth, cand) := st in
  let fourth := Num.add fourth (Int 1) in
  let '(third, fourth) := if Num.eqb fourth (Int 255) then (Num.add third (Int 1), Int 1) else (third, fourth) in
  let '(second, third) := if Num.eqb third (Int 255) then (Num.add second (Int 1), Int 0) else (second, third) in
  (second, third, fourth, if negb (Num.eqb second (Int 255)) then candidate firstIpPart second third fourth else cand).

(** [None]: the loop did not end within the fuel. *)
Fixpoint find_unused (fuel : nat) (definedIps : list jstr) (firstIpPart : jstr) (st : num * num * num * jstr) : option jstr :=
  let '(second, third, fourth, cand) := st in
  if (Num.ltb fourth (Int 255) || Num.ltb third (Int 255) || Num.ltb second (Int 255)) && bool_decide (cand ∈ definedIps)
  then match fuel with
       | O => None
       | S f => find_unused f definedIps firstIpPart (next_candidate firstIpPart st)
       end
  else Some cand.

(** A part of the address, from the end: [pop()] of an empty array is undefined. *)
Definition pop_part (ipParts : list jstr) (i : nat) : option jstr := rev ipParts !! i.
Definition pop_int (ipParts : list jstr) (i : nat) : num := match pop_part ipParts i with Some s => parseInt s | None => NaN end.

Definition getUnusedAcIp (fuel : nat) (uci : UCIContainer) (serverInternalIp : jstr) : exn (option jstr) :=
  let ipParts := split_re re_dot serverInternalIp in
  let fourth := Num.add (pop_int ipParts 0) (Int 1) in
  let third := pop_int ipParts 1 in
  let second := pop_int ipParts 2 in
  let firstIpPart := default (js "undefined") (pop_part ipParts 3) in
  let! definedIps := getDefinedAcIps uci in
  Ret (find_unused fuel (serverInternalIp :: definedIps) firstIpPart
        (second, third, fourth, candidate firstIpPart second third fourth)).

(** The loop of [addAc] that looks for a free identifier, from a count. *)
Fixpoint free_id (fuel : nat) (uci : UCIContainer) (id testId : jstr) (idCount : Z) : option jstr :=
  if negb (gets uci pkg testId [] =s []) then
    match fuel with O => None | S f => free_id f uci id (id ++ js "_" ++ str_of_Z idCount) (idCount + 1) end
  else Some testId.

(** The name and the identifier proposed for a new client. *)
Fixpoint free_client (fuel : nat) (allIds : list jstr) (clientCount : Z) : option Z :=
  if bool_decide ((js "client" ++ str_of_Z clientCount) ∈ allIds) then
    match fuel with O => None | S f => free_client f allIds (clientCount + 1) end
  else Some clientCount.

End package.

(** ** Remote names *)
Section remote.
Variable UI : jstr → jstr.
Variable ddns_label : jstr.

(** The domains of the enabled services, without repetition. *)
Definition ddns_domains (uciOriginal : UCIContainer) : exn (list jstr) :=
  let! definedDdns := getAllSectionsOfType uciOriginal (js "ddns_gargoyle") (js "service") in
  Ret (fold_left (fun values s =>
    let get_ := gets uciOriginal (js "ddns_gargoyle") s in
    let enabled := get_ (js "enabled") in
    let domain := if get_ (js "test_domain") =s [] then get_ (js "domain") else get_ (js "test_domain") in
    if (negb (enabled =s js "0") && negb (enabled =s js "false")) && negb (domain =s []) && negb (bool_decide (domain ∈ values))
    then values ++ [domain] else values) definedDdns []).

(** [wan_rows] are the entries for the address of the WAN, [custom] the last one. *)
Definition set_remote_names (d : document) (prefix : jstr) (domains : list jstr) (wan_rows : list (jstr * jstr)) (custom : jstr)
    (wanIp selectedRemote : jstr) : exn document :=
  let values := domains ++ map fst wan_rows ++ [js "custom"] in
  let names := map (fun v => ddns_label ++ js ": " ++ v) domains ++ map snd wan_rows ++ [custom] in
  let selectedFound := (selectedRemote =s wanIp) || bool_decide (selectedRemote ∈ domains) in
  let selectId := prefix ++ js "remote" in
  let! d := setAllowableSelections UI d selectId (Some values) (Some names) in
  let chosen := if negb selectedFound && negb (selectedRemote =s []) then js "custom" else selectedRemote in
  let! d := setSelectedValue d selectId chosen in
  if chosen =s js "custom" then update d (prefix ++ js "remote_custom") (set_value selectedRemote) else Ret d.
End remote.

End Vpn.
