(* ===== verification/OpenVpn.v ===== *)
(** * OpenVPN (openvpn.js)

    The numeric form of addresses, the subnets in use, the clients and the
    additional subnets of the server. *)
From S2P Require Import Prelude JsNum JsString JsRegex Uci Ip4 Validate Table TableEdit Dom Modal Ports Vpn.
Import Uci Validate Table TableEdit Dom Modal Ports Ip4 Vpn.
Open Scope Z_scope.
Module OpenVpn.

Definition pkg : jstr := js "openvpn_gargoyle".
Definition getDefinedAcIds := Vpn.getDefinedAcIds pkg.
Definition getDefinedAcIps := Vpn.getDefinedAcIps pkg.
Definition getUnusedAcIp := Vpn.getUnusedAcIp pkg.

(** [null] is [None]. *)
Definition getNumericIp (ip : jstr) : option num :=
  match exec re_quad ip with
  | Some i =>
      Some (Num.add (Num.add (Num.add
        (Int (Num.shl (toNumber (group 1 i)) (Int 24)))
        (Int (Num.shl (toNumber (group 2 i)) (Int 16))))
        (Int (Num.shl (toNumber (group 3 i)) (Int 8))))
        (toNumber (group 4 i)))
  | None => None
  end.

Definition getNumericMask (mask : jstr) : option num :=
  if test re_quad mask then getNumericIp mask
  else Some (Int (Num.shl (Int (-1)) (Num.sub (Int 32) (toNumber mask)))).

(** The operand of [&]: [null] counts as 0. *)
Definition int32_of (n : option num) : Z := match n with Some n => Num.toInt32 n | None => 0 end.

Definition numericIpToStr (numIp : num) : jstr :=
  str_of_Z (Num.shr numIp (Int 24)) ++ js "." ++ str_of_Z (Num.band (Num.sar numIp (Int 16)) 255) ++ js "."
  ++ str_of_Z (Num.band (Num.sar numIp (Int 8)) 255) ++ js "." ++ str_of_Z (Num.band (Num.toInt32 numIp) 255).

Definition adjustSubnetIp (ip mask : jstr) : jstr :=
  numericIpToStr (Int (Num.band (int32_of (getNumericIp ip)) (int32_of (getNumericMask mask)))).

Section page.
Variables UI ovpnS : jstr → jstr.
Variables currentLanIp currentLanMask currentWanIp : jstr.

(** The addresses of the subnets in use. *)
Definition used_subnets (p : vpn_page) : exn (list jstr) :=
  let! ovpnIp := el (vp_doc p) (js "openvpn_server_ip") in
  let! ovpnMask := el (vp_doc p) (js "openvpn_server_mask") in
  let! clientIds := getAllSectionsOfType (vp_uci p) pkg (js "allowed_client") in
  let clients := omap (fun id =>
    let clientIp := gets (vp_uci p) pkg id (js "subnet_ip") in
    let clientMask := gets (vp_uci p) pkg id (js "subnet_mask") in
    if negb (clientIp =s []) && negb (clientMask =s []) then Some (adjustSubnetIp clientIp clientMask) else None) clientIds in
  let! t := exn_of_option TypeError (vp_extra p) in
  let! extraSubnets := getTableDataArray t true false in
  let! extra := exn_map (fun r => let! ip := datum_str r 0 in let! mask := datum_str r 1 in Ret (adjustSubnetIp ip mask)) extraSubnets in
  Ret ((if negb (currentLanIp =s []) && negb (currentLanMask =s []) then [adjustSubnetIp currentLanIp currentLanMask] else [])
       ++ [adjustSubnetIp (value ovpnIp) (value ovpnMask)] ++ clients ++ extra).

Definition checkSubnetConflict (p : vpn_page) (ip mask : jstr) : exn bool :=
  let! ipList := used_subnets p in Ret (bool_decide (adjustSubnetIp ip mask ∈ ipList)).

Definition ac (s : jstr) : jstr := js "openvpn_allowed_client_" ++ s.

Definition ac_fields : list field :=
  [mkField (ac (js "name")) (ac (js "name_label")) validateHaveText 0 (Some (ac (js "name_container")));
   mkField (ac (js "ip")) (ac (js "ip_label")) validateIP 0 (Some (ac (js "ip_container")));
   mkField (ac (js "remote_custom")) (ac (js "remote_label")) validateHaveText 0 (Some (ac (js "remote_custom_container")));
   mkField (ac (js "subnet_ip")) (ac (js "have_subnet_label")) validateIP 0 (Some (ac (js "subnet_ip_container")));
   mkField (ac (js "subnet_mask")) (ac (js "have_subnet_label")) validateNetMask 0 (Some (ac (js "subnet_mask_container")))].

Definition validateAc (p : vpn_page) (internalServerIp internalServerMask : jstr) : exn (list jstr * vpn_page) :=
  let! r := proofreadFields UI (vp_doc p) ac_fields in
  let errors := fst r in
  let d := snd r in
  let! ip_hidden := (if (length errors =? 0)%nat then hidden d (ac (js "ip_container")) else Ret true) in
  let! errors := (if negb ip_hidden then
                    let! ip_el := el d (ac (js "ip")) in
                    let vpnMask := int32_of (getNumericMask internalServerMask) in
                    Ret (if negb (Num.band (int32_of (getNumericIp (value ip_el))) vpnMask =? Num.band (int32_of (getNumericIp internalServerIp)) vpnMask)
                         then errors ++ [ovpnS (js "ClntIntIP") ++ js " " ++ value ip_el ++ js " " ++ ovpnS (js "OSubErr")] else errors)
                  else Ret errors) in
  let! subnet_hidden := (if (length errors =? 0)%nat then hidden d (ac (js "subnet_ip_container")) else Ret true) in
  if negb subnet_hidden then
    let! ip_el := el d (ac (js "subnet_ip")) in
    let! mask_el := el d (ac (js "subnet_mask")) in
    let adjusted := adjustSubnetIp (value ip_el) (value mask_el) in
    let p := with_doc p (put d (ac (js "subnet_ip")) (set_value adjusted ip_el)) in
    let! conflict := checkSubnetConflict p adjusted (value mask_el) in
    Ret (if conflict then errors ++ [ovpnS (js "SubDup")] else errors, p)
  else Ret (errors, with_doc p d).

Definition setAcUciFromDocument (p : vpn_page) (id : jstr) : exn vpn_page :=
  let d := vp_doc p in
  let! name := el d (ac (js "name")) in
  let! ip_hidden := hidden d (ac (js "ip_container")) in
  let! ip_el := el d (ac (js "ip")) in
  let ip := if ip_hidden then [] else value ip_el in
  let! sel := getSelectedValue UI d (ac (js "remote")) in
  let! custom := el (snd sel) (ac (js "remote_custom")) in
  let remote := if bool_decide (fst sel = Some (js "custom")) then value custom else default (js "undefined") (fst sel) in
  let! have := selected_is UI (snd sel) (ac (js "have_subnet")) (js "true") in
  let d := snd have in
  let haveSubnet := if ip_hidden then false else fst have in
  let! subnetIp := el d (ac (js "subnet_ip")) in
  let! subnetMask := el d (ac (js "subnet_mask")) in
  let! prefer := el d (ac (js "prefer_vpngateway")) in
  let put_ uci opt v := set uci pkg id opt (UStr v) false in
  let del uci opt := fst (remove uci pkg id opt) in
  let uci := put_ (put_ (put_ (vp_uci p) [] (js "allowed_client")) (js "id") id) (js "name") (value name) in
  let uci := if negb (ip =s []) then put_ uci (js "ip") ip else del uci (js "ip") in
  let uci := put_ uci (js "remote") remote in
  let uci := if haveSubnet then put_ (put_ uci (js "subnet_ip") (value subnetIp)) (js "subnet_mask") (value subnetMask)
             else del (del uci (js "subnet_ip")) (js "subnet_mask") in
  Ret (with_uci (with_doc p d) (put_ uci (js "prefer_vpngateway") (if e_checked prefer then js "1" else js "0"))).

(** [toggleAcEnabled] and [removeAcCallback], for the row of a client. *)
Definition toggleAcEnabled (p : vpn_page) (id : jstr) (checked : bool) : vpn_page :=
  with_uci p (set (vp_uci p) pkg id (js "enabled") (UStr (if checked then js "true" else js "false")) false).
Definition removeAcCallback (p : vpn_page) (id : jstr) : exn vpn_page :=
  let! u := removeSection (vp_uci p) pkg id in Ret (with_uci p u).

Definition setRemoteNames (p : vpn_page) (selectedRemote : jstr) : exn vpn_page :=
  let! domains := ddns_domains (vp_orig p) in
  let! d := set_remote_names UI (ovpnS (js "DDNS")) (vp_doc p) (js "openvpn_allowed_client_") domains
              [(currentWanIp, ovpnS (js "WANIP") ++ js ": " ++ currentWanIp)] (ovpnS (js "OthIPD")) currentWanIp selectedRemote in
  Ret (with_doc p d).

(** *** Additional subnets *)
Definition es_fields : list field :=
  [mkField (js "openvpn_extra_subnet_ip") (js "openvpn_extra_subnet_ip_label") validateIP 0 (Some (js "openvpn_extra_subnet_ip"));
   mkField (js "openvpn_extra_subnet_mask") (js "openvpn_extra_subnet_mask_label") validateNetMask 0 (Some (js "openvpn_extra_subnet_mask"))].

Definition edit_button : widget := mkWidget (js "button") (UI (js "Edit")) false (js "btn btn-default btn-edit") false.

(** The part [addEs] and [editEs] share: an error message, or the new subnet. *)
Definition checked_subnet (p : vpn_page) : exn (vpn_page * option (jstr * jstr)) :=
  let! ip_el := el (vp_doc p) (js "openvpn_extra_subnet_ip") in
  let! mask_el := el (vp_doc p) (js "openvpn_extra_subnet_mask") in
  let! r := proofreadFields UI (vp_doc p) es_fields in
  let p := with_doc p (snd r) in
  if negb (length (fst r) =? 0)%nat then
    Ret (with_doc p (alert (vp_doc p) (join newline (fst r) ++ newline ++ ovpnS (js "AddESnetErr"))), None)
  else
    let! conflict := checkSubnetConflict p (value ip_el) (value mask_el) in
    if conflict then
      Ret (with_doc p (alert (vp_doc p) (ovpnS (js "SubDup") ++ newline ++ newline ++ ovpnS (js "AddESnetErr"))), None)
    else Ret (p, Some (adjustSubnetIp (value ip_el) (value mask_el), value mask_el)).

Definition addEs (p : vpn_page) : exn vpn_page :=
  let! r := checked_subnet p in
  match snd r with
  | Some (adjIp, subnetMask) =>
      let! t := exn_of_option TypeError (vp_extra p) in
      Ret (with_extra (fst r) (Some (addTableRow (UI (js "Remove")) t [DStr adjIp; DStr subnetMask; DObj edit_button] true false)))
  | None => Ret (fst r)
  end.

Definition editEs (p : vpn_page) (editRow : nat) : exn vpn_page :=
  let! r := checked_subnet p in
  match snd r with
  | Some (adjNewIp, newMask) =>
      let! t := edit_cells (vp_extra p) editRow [(0%nat, adjNewIp); (1%nat, newMask)] in
      Ret (with_extra (fst r) t)
  | None => Ret (fst r)
  end.

Definition editOvpnServerExtraSubnetsModal (p : vpn_page) (editRow : row) : exn vpn_page :=
  let! ip := get_data editRow 0 in
  let! mask := get_data editRow 1 in
  Ret (with_doc p (modalPrepare (vp_doc p)
    [mkModal (js "openvpn_extra_subnet_ip") None ip None None; mkModal (js "openvpn_extra_subnet_mask") None mask None None])).

Definition addOvpnServerExtraSubnetsModal (p : vpn_page) : vpn_page :=
  with_doc p (modalPrepare (vp_doc p) [m_value (js "openvpn_extra_subnet_ip") []; m_value (js "openvpn_extra_subnet_mask") []]).

End page.
End OpenVpn.
