(* ===== verification/WireGuard.v ===== *)
(** * WireGuard (wireguard.js)

    Overlap of subnets, the clients (checks, storing, adding, editing), the
    visible fields, and the reading of a configuration file. *)
From S2P Require Import Prelude JsNum JsString JsRegex Uci Ip4 Validate Table TableEdit Dom Modal Ports Vpn.
Import Uci Validate Table TableEdit Dom Modal Ports Ip4 Vpn.
Open Scope Z_scope.
Module WireGuard.

Definition pkg : jstr := js "wireguard_gargoyle".
Definition getDefinedAcIds := Vpn.getDefinedAcIds pkg.
Definition getDefinedAcIps := Vpn.getDefinedAcIps pkg.
Definition getUnusedAcIp := Vpn.getUnusedAcIp pkg.

Definition parseMask (mask : jstr) : num :=
  if test re_quad mask then parseIp mask else Int (Num.shl (Int (-1)) (Num.sub (Int 32) (toNumber mask))).

Definition applyMask (ip mask : jstr) : jstr := ipToStr (Int (Num.band (Num.toInt32 (parseIp ip)) (Num.toInt32 (parseMask mask)))).

Definition wgSubnetsOverlap (ipA maskA ipB maskB : jstr) : bool :=
  let m := Num.band (Num.toInt32 (parseMask maskA)) (Num.toInt32 (parseMask maskB)) in
  Num.band (Num.toInt32 (parseIp ipA)) m =? Num.band (Num.toInt32 (parseIp ipB)) m.

Section page.
Variables UI wgStr : jstr → jstr.
Variable currentWanIp : jstr.

(** A list of addresses gives its first one; a prefix length is split off. *)
Definition wgControlledSubnets (uciOriginal : UCIContainer) (serverIp serverMask : jstr) : list (jstr * jstr * jstr) :=
  let lanIp := match get uciOriginal (js "network") (js "lan") (js "ipaddr") with
               | UArr l => default [] (head l)
               | UStr s => s
               end in
  let lanMask := gets uciOriginal (js "network") (js "lan") (js "netmask") in
  let '(lanIp, lanMask) :=
    if contains lanIp (js "/") then
      let parts := split_char 47 lanIp in
      (nth_str parts 0, if lanMask =s [] then nth_str parts 1 else lanMask)
    else (lanIp, lanMask) in
  (if negb (lanIp =s []) && negb (lanMask =s []) then [(lanIp, lanMask, wgStr (js "OvlpLan"))] else [])
  ++ (if negb (serverIp =s []) && negb (serverMask =s []) then [(serverIp, serverMask, wgStr (js "OvlpWg"))] else []).

Definition re_dotted : re := Eval vm_compute in rx "^\d+\.\d+\.\d+\.\d+$".

Definition checkWgClientSubnetOverlap (p : vpn_page) : exn vpn_page :=
  let d := vp_doc p in
  match getElementById d (js "wireguard_allowed_client_subnet_warn") with
  | None => Ret p
  | Some _ =>
      let! ip := el d (js "wireguard_allowed_client_subnet_ip") in
      let! mask := el d (js "wireguard_allowed_client_subnet_mask") in
      let! hit := (if test re_dotted (value ip) && negb (value mask =s []) then
                     let! srvIp := el d (js "wireguard_server_ip") in
                     let! srvMask := el d (js "wireguard_server_mask") in
                     Ret (existsb (fun '(cip, cmask, _) => wgSubnetsOverlap (value ip) (value mask) cip cmask)
                            (wgControlledSubnets (vp_orig p) (value srvIp) (value srvMask)))
                   else Ret false) in
      let! d := update d (js "wireguard_allowed_client_subnet_warn") (set_display (if hit then [] else js "none")) in
      Ret (with_doc p d)
  end.

Definition ac (s : jstr) : jstr := js "wireguard_allowed_client_" ++ s.

Definition ac_fields : list field :=
  [mkField (ac (js "name")) (ac (js "name_label")) validateHaveText 0 (Some (ac (js "name_container")));
   mkField (ac (js "pubkey")) (ac (js "pubkey_label")) validateHaveText 0 (Some (ac (js "pubkey_container")));
   mkField (ac (js "privkey")) (ac (js "privkey")) validateHaveText 0 (Some (ac (js "privkey_container")));
   mkField (ac (js "ip")) (ac (js "ip_label")) validateIP 0 (Some (ac (js "ip_container")));
   mkField (ac (js "remote_custom")) (ac (js "remote_label")) validateHaveText 0 (Some (ac (js "remote_custom_container")));
   mkField (ac (js "subnet_ip")) (ac (js "have_subnet_label")) validateIP 0 (Some (ac (js "subnet_ip_container")));
   mkField (ac (js "subnet_mask")) (ac (js "have_subnet_label")) validateNetMask 0 (Some (ac (js "subnet_mask_container")))].

Definition re_ws : re := Eval vm_compute in rx "[\t\r\n ]+".
Definition re_not_id : re := Eval vm_compute in rx "[^a-z0-9_-]".
Definition re_ws_dash : re := Eval vm_compute in rx "[\t\r\n -]+".
Definition re_not_word : re := Eval vm_compute in rx "[^a-z0-9_]".

(** The identifier the check makes of a name, and the one that is stored. *)
Definition checked_id (name : jstr) : jstr := replace_all re_not_id [] (toLowerCase (replace_all re_ws (js "_") name)).
Definition stored_id (name : jstr) : jstr := replace_all re_not_word [] (toLowerCase (replace_all re_ws_dash (js "_") name)).

Definition reserved_ids : list jstr := [js "lan"; js "wan"; js "tun0"; js "wg0"; js "wgserver"].

Definition validateAc (p : vpn_page) (internalServerIp internalServerMask : jstr) : exn (list jstr * vpn_page) :=
  let! r := proofreadFields UI (vp_doc p) ac_fields in
  let errors := fst r in
  let d := snd r in
  let! ip_hidden := (if (length errors =? 0)%nat then hidden d (ac (js "ip_container")) else Ret true) in
  let! errors := (if negb ip_hidden then
                    let! ip_el := el d (ac (js "ip")) in
                    let wgMask := Num.toInt32 (parseMask internalServerMask) in
                    Ret (if negb (Num.band (Num.toInt32 (parseIp (value ip_el))) wgMask =? Num.band (Num.toInt32 (parseIp internalServerIp)) wgMask)
                         then errors ++ [wgStr (js "ClntIntIP") ++ js " " ++ value ip_el ++ js " " ++ wgStr (js "OSubErr")] else errors)
                  else Ret errors) in
  let! errors := (if (length errors =? 0)%nat then
                    let! name_el := el d (ac (js "name")) in
                    Ret (if bool_decide (checked_id (value name_el) ∈ reserved_ids) then errors ++ [wgStr (js "ClntNotAllow")] else errors)
                  else Ret errors) in
  let! subnet_hidden := (if (length errors =? 0)%nat then hidden d (ac (js "subnet_ip_container")) else Ret true) in
  if negb subnet_hidden then
    let! ip_el := el d (ac (js "subnet_ip")) in
    let! mask_el := el d (ac (js "subnet_mask")) in
    let subnetIp := applyMask (value ip_el) (value mask_el) in
    let overlaps := omap (fun '(cip, cmask, msg) =>
      if wgSubnetsOverlap subnetIp (value mask_el) cip cmask then Some msg else None)
      (wgControlledSubnets (vp_orig p) internalServerIp internalServerMask) in
    Ret (errors ++ overlaps, with_doc p (put d (ac (js "subnet_ip")) (set_value subnetIp ip_el)))
  else Ret (errors, with_doc p d).

Definition setAcUciFromDocument (p : vpn_page) (id : jstr) : exn vpn_page :=
  let d := vp_doc p in
  let! name := el d (ac (js "name")) in
  let! ip_hidden := hidden d (ac (js "ip_container")) in
  let! ip_el := el d (ac (js "ip")) in
  let ip := if ip_hidden then [] else value ip_el in
  let! sel := getSelectedValue UI d (ac (js "remote")) in
  let! custom := el (snd sel) (ac (js "remote_custom")) in
  let remote := if bool_decide (fst sel = Some (js "custom")) then value custom else default (js "undefined") (fst sel) in
  let! have := selected_is UI (snd sel) (ac (js "have_subnet")) (js "true") in
  let haveSubnet := if ip_hidden then false else fst have in
  let! subnetIp := el (snd have) (ac (js "subnet_ip")) in
  let! subnetMask := el (snd have) (ac (js "subnet_mask")) in
  let! key := selected_is UI (snd have) (ac (js "have_privkey")) (js "true") in
  let d := snd key in
  let! privkey := el d (ac (js "privkey")) in
  let! pubkey := el d (ac (js "pubkey")) in
  let put_ uci opt v := set uci pkg id opt (UStr v) false in
  let del uci opt := fst (remove uci pkg id opt) in
  let uci := put_ (put_ (put_ (vp_uci p) [] (js "allowed_client")) (js "id") id) (js "name") (value name) in
  let uci := if negb (ip =s []) then put_ uci (js "ip") ip else del uci (js "ip") in
  let uci := put_ uci (js "remote") remote in
  let uci := if haveSubnet then put_ (put_ uci (js "subnet_ip") (value subnetIp)) (js "subnet_mask") (value subnetMask)
             else del (del uci (js "subnet_ip")) (js "subnet_mask") in
  let uci := put_ uci (js "public_key") (value pubkey) in
  let uci := if fst key then put_ uci (js "private_key") (value privkey) else del uci (js "private_key") in
  Ret (with_uci (with_doc p d) uci).

Definition toggleAcEnabled (p : vpn_page) (id : jstr) (checked : bool) : vpn_page :=
  with_uci p (set (vp_uci p) pkg id (js "enabled") (UStr (if checked then js "1" else js "0")) false).
Definition removeAcCallback (p : vpn_page) (id : jstr) : exn vpn_page :=
  let! u := removeSection (vp_uci p) pkg id in Ret (with_uci p u).

Definition setRemoteNames (p : vpn_page) (selectedRemote : jstr) : exn vpn_page :=
  let! domains := ddns_domains (vp_orig p) in
  let wan_rows := if currentWanIp =s [] then [] else [(currentWanIp, js "WAN IP: " ++ currentWanIp)] in
  let! d := set_remote_names UI (wgStr (js "DDNS")) (vp_doc p) (js "wireguard_allowed_client_") domains wan_rows (wgStr (js "OthIPD"))
              currentWanIp selectedRemote in
  Ret (with_doc p d).

(** The display of a container: that of [outer], or none. *)
Definition shown_if (d : document) (outer : jstr) (b : bool) : exn jstr :=
  let! h := hidden d outer in Ret (if b then (if h then js "none" else js "block") else js "none").

Definition setAllowedClientVisibility (p : vpn_page) : exn vpn_page :=
  let! r := selected_is UI (vp_doc p) (ac (js "remote")) (js "custom") in
  let! v := shown_if (snd r) (ac (js "remote_container")) (fst r) in
  let! d := update (snd r) (ac (js "remote_custom_container")) (set_display v) in
  let! r := selected_is UI d (ac (js "have_subnet")) (js "true") in
  let! v := shown_if (snd r) (ac (js "have_subnet_container")) (fst r) in
  let! d := update (snd r) (ac (js "subnet_ip_container")) (set_display v) in
  let! d := update d (ac (js "subnet_mask_container")) (set_display v) in
  let! r := selected_is UI d (ac (js "have_privkey")) (js "true") in
  let! v := shown_if (snd r) (ac (js "have_privkey_container")) (fst r) in
  let! d := update (snd r) (ac (js "privkey_container")) (set_display v) in
  let! d := update d (js "generate_allowed_client_keys_button") (set_disabled (negb (fst r))) in
  let! d := update d (ac (js "pubkey")) (set_readOnly (fst r)) in
  checkWgClientSubnetOverlap (with_doc p d).

(** [None]: a loop did not end within the fuel. *)
Definition setAcDocumentFromUci (fuel : nat) (p : vpn_page) (srcUci : UCIContainer) (id serverInternalIp : jstr) : exn (option vpn_page) :=
  let get_ id opt := gets srcUci pkg id opt in
  let! allIds := getDefinedAcIds (vp_uci p) in
  match (if get_ id (js "remote") =s [] then
           match free_client fuel allIds (zlen allIds + 1) with
           | Some n => Some (wgStr (js "Clnt") ++ str_of_Z n, js "client" ++ str_of_Z n, ac (js "default_id"))
           | None => None
           end
         else Some (get_ id (js "name"), id, ac (js "initial_id"))) with
  | None => Ret None
  | Some (name, id, id_field) =>
      let! d := update (vp_doc p) id_field (set_value id) in
      let! d := update d (ac (js "name")) (set_value name) in
      let! ip := (if get_ id (js "ip") =s [] then getUnusedAcIp fuel (vp_uci p) serverInternalIp else Ret (Some (get_ id (js "ip")))) in
      match ip with
      | None => Ret None
      | Some ip =>
          let! d := update d (ac (js "ip")) (set_value ip) in
          let! p := setRemoteNames (with_doc p d) (get_ id (js "remote")) in
          let subnetIp := get_ id (js "subnet_ip") in
          let subnetMask := get_ id (js "subnet_mask") in
          let! d := setSelectedValue (vp_doc p) (ac (js "have_subnet"))
                      (if negb (subnetIp =s []) && negb (subnetMask =s []) then js "true" else js "false") in
          let! d := update d (ac (js "subnet_ip")) (set_value (if subnetIp =s [] then js "192.168.2.1" else subnetIp)) in
          let! d := update d (ac (js "subnet_mask")) (set_value (if subnetMask =s [] then js "255.255.255.0" else subnetMask)) in
          let privkey := get_ id (js "private_key") in
          let! d := setSelectedValue d (ac (js "have_privkey")) (if negb (privkey =s []) then js "true" else js "false") in
          let! d := update d (ac (js "pubkey")) (set_value (get_ id (js "public_key"))) in
          let! d := update d (ac (js "privkey")) (set_value privkey) in
          let! p := setAllowedClientVisibility (with_doc p d) in
          Ret (Some p)
      end
  end.

(** The texts of a row: name, address, subnet, key. *)
Definition row_texts (d : document) : exn (jstr * jstr * jstr * jstr * document) :=
  let! name := el d (ac (js "name")) in
  let! ip := el d (ac (js "ip")) in
  let! have := selected_is UI d (ac (js "have_subnet")) (js "true") in
  let d := snd have in
  let! subnet := (if fst have then
                    let! subnetIp := el d (ac (js "subnet_ip")) in
                    let! subnetMask := el d (ac (js "subnet_mask")) in
                    Ret (if negb (value subnetIp =s []) && negb (value subnetMask =s [])
                         then value subnetIp ++ js "/" ++ value subnetMask else [])
                  else Ret []) in
  let! pubkey := el d (ac (js "pubkey")) in
  Ret (value name, value ip, subnet, value pubkey, d).

Definition addAc (fuel : nat) (p : vpn_page) : exn (option vpn_page) :=
  let! srvIp := el (vp_doc p) (js "wireguard_server_ip") in
  let! srvMask := el (vp_doc p) (js "wireguard_server_mask") in
  let! r := validateAc p (value srvIp) (value srvMask) in
  let p := snd r in
  if negb (length (fst r) =? 0)%nat then
    Ret (Some (with_doc p (alert (vp_doc p) (join newline (fst r) ++ newline ++ wgStr (js "AddCErr")))))
  else
    let! texts := row_texts (vp_doc p) in
    let '(name, ip, subnet, pubkey, d) := texts in
    match free_id pkg fuel (vp_uci p) (stored_id name) (stored_id name) 1 with
    | None => Ret None
    | Some id =>
        let! p := setAcUciFromDocument (with_doc p d) id in
        let p := with_uci p (set (vp_uci p) pkg id (js "enabled") (UStr (js "1")) false) in
        let p := with_rows p (vp_rows p ++ [mkAcRow id name ip subnet pubkey true]) in
        let! srvIp := el (vp_doc p) (js "wireguard_server_ip") in
        setAcDocumentFromUci fuel p new (js "dummy") (value srvIp)
    end.

(** [editRow] is the index of the row. *)
Definition editAc (p : vpn_page) (editRow : nat) (editId serverInternalIp serverInternalMask : jstr) : exn vpn_page :=
  let! r := validateAc p serverInternalIp serverInternalMask in
  let p := snd r in
  if negb (length (fst r) =? 0)%nat then
    Ret (with_doc p (alert (vp_doc p) (join newline (fst r) ++ newline ++ wgStr (js "UpCErr"))))
  else
    let! texts := row_texts (vp_doc p) in
    let '(name, ip, subnet, pubkey, d) := texts in
    let! p := setAcUciFromDocument (with_doc p d) editId in
    Ret (with_rows p (alter (fun r => mkAcRow editId name ip subnet pubkey (ar_enabled r)) editRow (vp_rows p))).

Definition setClientVisibility (d : document) : exn document :=
  let! up := el d (js "wireguard_client_config_upload") in
  let! man := el d (js "wireguard_client_config_manual") in
  let checked := e_checked up || negb (e_checked man) in
  let! d := (if negb (e_checked up) && negb (e_checked man) then update d (js "wireguard_client_config_upload") (set_checked true) else Ret d) in
  let! d := update d (js "wireguard_client_manual_config") (set_display (if checked then js "none" else js "block")) in
  update d (js "wireguard_client_upload_config") (set_display (if checked then js "block" else js "none")).

(** *** Reading a configuration file *)
Definition re_open : re := Eval vm_compute in rx "^\[".

(** [indexOf] in an array of lines. *)
Fixpoint line_index (l : list jstr) (s : jstr) (i : nat) : option nat :=
  match l with [] => None | x :: l' => if x =s s then Some i else line_index l' s (S i) end.

(** The end of a section: a blank line, the next section or the last line. *)
Fixpoint section_stop (l : list jstr) (i : nat) (stop : nat) : nat :=
  match l with
  | [] => stop
  | x :: l' => if (x =s []) || test re_open x then i
               else match l' with [] => i | _ => section_stop l' (S i) stop end
  end.

(** The lines from [start + 1] to [stop]. *)
Definition section_lines (cfgdata : list jstr) (start : nat) : list jstr :=
  let stop := section_stop (drop (S start) cfgdata) (S start) start in
  take (stop - start) (drop (S start) cfgdata).

(** A line [key = value]. *)
Definition key_value (line : jstr) : option (jstr * jstr * jstr) :=
  match split_char 61 line with
  | k :: v :: rest => Some (trim k, trim (join (js "=") (v :: rest)), v)
  | _ => None
  end.

(** The settings of a file: fields and their new values.  The public key that
    belongs to a private key is asked from the router. *)
Definition interface_line (line : jstr) : list (jstr * jstr) :=
  match key_value line with
  | Some (key, val, _) =>
      if key =s js "Address" then [(js "wireguard_client_ip", nth_str (split_char 47 val) 0)]
      else if key =s js "PrivateKey" then [(js "wireguard_client_privkey", val)] else []
  | None => []
  end.

Definition peer_line (line : jstr) : list (jstr * jstr) :=
  match key_value line with
  | Some (key, val, part1) =>
      if key =s js "AllowedIPs" then [(js "wireguard_client_allowed_ips", part1)]
      else if key =s js "Endpoint" then
        match split_char 58 val with
        | h :: port :: _ => [(js "wireguard_client_server_host", h); (js "wireguard_client_server_port", port)]
        | _ => []
        end
      else if key =s js "PublicKey" then [(js "wireguard_client_server_pubkey", val)] else []
  | None => []
  end.

Definition cfg_values (cfgdata : list jstr) : option (list (jstr * jstr)) :=
  match line_index cfgdata (js "[Interface]") 0, line_index cfgdata (js "[Peer]") 0 with
  | Some i, Some j => Some (concat (map interface_line (section_lines cfgdata i)) ++ concat (map peer_line (section_lines cfgdata j)))
  | _, _ => None
  end.

Definition parseCfg (d : document) (cfgdata : list jstr) : exn document :=
  match cfg_values cfgdata with
  | Some vals =>
      let! d := exn_fold (fun d '(id, v) => update d id (set_value v)) vals d in
      let! d := update d (js "wireguard_client_config_manual") (set_checked true) in
      let! d := update d (js "wireguard_client_config_upload") (set_checked false) in
      setClientVisibility d
  | None => Ret (alert d (wgStr (js "BadCfg")))
  end.

(** *** Validation of the page *)
Definition sv (s : jstr) : jstr := js "wireguard_server_" ++ s.
Definition cl (s : jstr) : jstr := js "wireguard_client_" ++ s.
Definition own_field (id label : jstr) (check : jstr → Z) : field := mkField id label check 0 (Some id).

Definition server_fields : list field :=
  [own_field (sv (js "privkey")) (sv (js "privkey_label")) validateHaveText; own_field (sv (js "pubkey")) (sv (js "pubkey_label")) validateHaveText;
   own_field (sv (js "ip")) (sv (js "ip_label")) validateIP; own_field (sv (js "mask")) (sv (js "mask_label")) validateNetMask;
   own_field (sv (js "port")) (sv (js "port_label")) validatePort].
Definition client_fields : list field :=
  [own_field (cl (js "server_pubkey")) (cl (js "server_pubkey_label")) validateHaveText; own_field (cl (js "server_host")) (cl (js "server_host_label")) validateHaveText;
   own_field (cl (js "server_port")) (cl (js "server_port_label")) validatePort; own_field (cl (js "privkey")) (cl (js "privkey_label")) validateHaveText;
   own_field (cl (js "pubkey")) (cl (js "pubkey_label")) validateHaveText; own_field (cl (js "ip")) (cl (js "ip_label")) validateIP].

Definition proofreadAll (d : document) : exn (list jstr * document) :=
  let! server := selected_is UI d (js "wireguard_config") (js "server") in
  let! r := (if fst server then proofreadFields UI (snd server) server_fields else Ret ([], snd server)) in
  let! client := selected_is UI (snd r) (js "wireguard_config") (js "client") in
  let d := snd client in
  if fst client then
    let! h := hidden d (cl (js "manual_config")) in
    if negb h then proofreadFields UI d client_fields else Ret (fst r ++ [wgStr (js "noClientCfg")], d)
  else Ret (fst r, d).

End page.
End WireGuard.
