(* ===== verification/VpnFacts.v ===== *)
(** * Properties of the VPN plugins *)
From S2P Require Import Prelude JsNum JsString JsRegex Uci UciFacts Ip4 Validate Ip4Facts ValidateFacts Table TableFacts TableEdit Dom FormFacts Modal Ports RoutingFacts Vpn OpenVpn WireGuard.
Import Ip4 Table TableEdit Dom Modal Ports Vpn.
Open Scope Z_scope.

(** ** The next free address *)
Section unused.
Context (first : jstr).

Abbreviation cand s t f := (candidate first (Int s) (Int t) (Int f)).

(** The addresses tried count up. *)
Definition rank (s t f : Z) : Z := (s * 255 + t) * 254 + f.

Lemma cand_inj s t f s' t' f' : 0 <= s → 0 <= t → 0 <= f → 0 <= s' → 0 <= t' → 0 <= f' →
  cand s t f = cand s' t' f' → s = s' ∧ t = t' ∧ f = f'.
Proof.
  intros Hs Ht Hf Hs' Ht' Hf' E. unfold candidate, octet_text in E. apply app_inv_head, app_inv_head in E.
  apply numeral_dot_inj in E as [E1 E]; [|by apply str_of_Z_numeral..].
  apply numeral_dot_inj in E as [E2 E3]; [|by apply str_of_Z_numeral..].
  by apply str_of_Z_inj in E1, E2, E3.
Qed.

Record counters (s t f : Z) : Prop := { ct_s : 0 <= s; ct_t : 0 <= t <= 254; ct_f : 1 <= f <= 254 }.

Lemma next_counters s t f c : counters s t f → ∃ s' t' f',
  next_candidate first (Int s, Int t, Int f, c) = (Int s', Int t', Int f', if s' =? 255 then c else cand s' t' f') ∧
  counters s' t' f' ∧ rank s' t' f' = rank s t f + 1.
Proof.
  intros [Hs Ht Hf]. unfold next_candidate. rewrite add_int, eqb_int. unfold rank.
  destruct (Z.eqb_spec (f + 1) 255).
  - rewrite add_int, eqb_int. destruct (Z.eqb_spec (t + 1) 255).
    + rewrite add_int, eqb_int. exists (s + 1), 0, 1. split; [by destruct (s + 1 =? 255)|]. split; [split; lia|lia].
    + rewrite eqb_int. exists s, (t + 1), 1. split; [by destruct (s =? 255)|]. split; [split; lia|lia].
  - rewrite eqb_int. destruct (Z.eqb_spec t 255); [lia|]. rewrite eqb_int. exists s, t, (f + 1).
    split; [by destruct (s =? 255)|]. split; [split; lia|lia].
Qed.

Lemma counters_bound s t f : counters s t f → rank s t f <= 255 * 64770 → s < 255.
Proof. intros [Hs Ht Hf]. unfold rank. lia. Qed.

(** The addresses tried in [n] turns, all different. *)
Lemma tried n l s t f : counters s t f → rank s t f + Z.of_nat n <= 255 * 64770 →
  ∃ tries : list (Z * Z * Z), length tries = S n ∧
    Forall (λ x, counters x.1.1 x.1.2 x.2 ∧ x.1.1 < 255 ∧ rank s t f <= rank x.1.1 x.1.2 x.2) tries ∧
    NoDup tries ∧
    ((∃ x, x ∈ tries ∧ cand x.1.1 x.1.2 x.2 ∉ l) →
     ∃ x, x ∈ tries ∧ cand x.1.1 x.1.2 x.2 ∉ l ∧ find_unused n l first (Int s, Int t, Int f, cand s t f) = Some (cand x.1.1 x.1.2 x.2)).
Proof.
  revert s t f. induction n as [|n IH]; intros s t f Hc Hb.
  - exists [(s, t, f)]. split_and!; [done| | |].
    + constructor; [|constructor]. simpl. split_and!; [done|apply (counters_bound s t f); [done|lia]|lia].
    + apply NoDup_singleton.
    + intros (x & Hx & Hn). apply list_elem_of_singleton in Hx as ->. exists (s, t, f). simpl in *. split_and!; [set_solver|done|].
      rewrite bool_decide_eq_false_2 by done. by rewrite andb_false_r.
  - destruct (next_counters s t f (cand s t f) Hc) as (s' & t' & f' & En & Hc' & Hr).
    destruct (IH s' t' f' Hc') as (tries & Hl & Hall & Hnd & Hfind); [lia|].
    assert (Hs' : s' < 255) by (apply (counters_bound s' t' f'); [done|lia]).
    exists ((s, t, f) :: tries). split_and!.
    + simpl. lia.
    + constructor; [simpl; split_and!; [done|apply (counters_bound s t f); [done|lia]|lia]|].
      eapply Forall_impl; [exact Hall|]. intros x (? & ? & ?). split_and!; [done|done|lia].
    + apply NoDup_cons. split; [|done]. intros Hin. rewrite Forall_forall in Hall. destruct (Hall _ Hin) as (_ & _ & Hx). simpl in Hx. lia.
    + intros (x & Hx & Hn). cbn [find_unused]. rewrite !ltb_int. destruct Hc as [? ? Hf]. rewrite (proj2 (Z.ltb_lt f 255)) by lia.
      cbn [orb andb]. destruct (decide (cand s t f ∈ l)) as [Hin|Hnin].
      * rewrite bool_decide_eq_true_2 by done. rewrite En. rewrite (proj2 (Z.eqb_neq s' 255)) by lia.
        apply elem_of_cons in Hx as [->|Hx]; [done|]. destruct Hfind as (y & Hy & Hny & E); [by exists x|].
        exists y. split_and!; [by right|done|done].
      * rewrite bool_decide_eq_false_2 by done. exists (s, t, f). split_and!; [by left|done|done].
Qed.

Lemma find_unused_more n m l st c : (n ≤ m)%nat → find_unused n l first st = Some c → find_unused m l first st = Some c.
Proof.
  revert m st. induction n as [|n IH]; intros m [[[s t] f] k] Hm.
  - destruct m; cbn [find_unused]; [done|]. by destruct (_ && _).
  - destruct m as [|m]; [lia|]. cbn [find_unused]. destruct (_ && _); [|done]. apply IH. lia.
Qed.

Lemma find_unused_fresh n l s t f : counters s t f → (length l ≤ n)%nat → rank s t f + Z.of_nat (length l) <= 255 * 64770 →
  ∃ s' t' f', find_unused n l first (Int s, Int t, Int f, cand s t f) = Some (cand s' t' f') ∧ cand s' t' f' ∉ l ∧
    counters s' t' f' ∧ s' < 255 ∧ rank s t f <= rank s' t' f'.
Proof.
  intros Hc Hn Hb. destruct (tried (length l) l s t f Hc Hb) as (tries & Hlen & Hall & Hnd & Hfind).
  destruct (decide (Exists (λ x, cand x.1.1 x.1.2 x.2 ∉ l) tries)) as [He|He].
  - apply Exists_exists in He. destruct (Hfind He) as ([[s' t'] f'] & Hx & Hnx & E). simpl in *.
    exists s', t', f'. rewrite Forall_forall in Hall. destruct (Hall _ Hx) as (? & ? & ?).
    split_and!; [by eapply find_unused_more|done..].
  - exfalso. rewrite <- Forall_Exists_neg in He.
    assert (Hsub : map (λ x, cand x.1.1 x.1.2 x.2) tries ⊆+ l).
    { apply NoDup_submseteq.
      - apply NoDup_fmap_2_strong; [|done]. rewrite Forall_forall in Hall. intros [[a b] c] [[a' b'] c'] Hx Hy E. simpl in E.
        destruct (Hall _ Hx) as ([? ? ?] & _), (Hall _ Hy) as ([? ? ?] & _). simpl in *.
        apply cand_inj in E as (-> & -> & ->); (done || lia).
      - intros c (x & -> & Hx)%list_elem_of_fmap. rewrite Forall_forall in He. specialize (He x Hx).
        destruct (decide (cand x.1.1 x.1.2 x.2 ∈ l)); done. }
    apply submseteq_length in Hsub. rewrite length_map in Hsub. lia.
Qed.

End unused.

(** C25: the address proposed for a new client.  Of a server whose address a.b.c.d
    has c at most 254 and d at most 253, and where more addresses follow, with a
    second octet of at most 254, than clients are enabled (the search counts 254
    addresses for a third octet and 255 third octets for a second one): the search
    of [getUnusedAcIp] ends after at most one turn more than there are enabled
    clients, and its result is a proper address, above the server's, that is
    neither the server's nor that of an enabled client. *)
Theorem unused_ip_fresh pkg uci ips a b c d fuel :
  octet a → octet b → octet c → octet d → getDefinedAcIps pkg uci = Ret ips →
  dec_val d <= 253 → dec_val c <= 254 →
  (dec_val b * 255 + dec_val c) * 254 + dec_val d + Z.of_nat (length ips) + 2 <= 255 * 64770 →
  (S (length ips) ≤ fuel)%nat →
  ∃ ip n, getUnusedAcIp pkg fuel uci (dotted a b c d) = Ret (Some ip) ∧ ip ∉ ips ∧ ip ≠ dotted a b c d ∧
    addr_text ip n ∧ quad_val (dec_val a) (dec_val b) (dec_val c) (dec_val d) < n.
Proof.
  intros Ha Hb Hc Hd Hips Hd253 Hc254 Hroom Hfuel. unfold getUnusedAcIp.
  change re_dot with (RSet false [(46, 46)]). rewrite split_re_chr, split_dotted by (apply Ha || apply Hb || apply Hc || apply Hd).
  unfold pop_int, pop_part. cbn [rev app lookup list_lookup]. rewrite Hips. cbn [exn_bind].
  change (default (js "undefined") (Some a)) with a.
  rewrite !parseInt_digits by (apply Hb || apply Hc || apply Hd). rewrite add_int.
  apply octet_range in Hb as Rb, Hc as Rc, Hd as Rd, Ha as Ra.
  destruct (find_unused_fresh a fuel (dotted a b c d :: ips) (dec_val b) (dec_val c) (dec_val d + 1)) as (s & t & f & E & Hn & [Cs Ct Cf] & Hs & Hr).
  - split; lia.
  - simpl. lia.
  - unfold rank. simpl length. lia.
  - unfold rank in Hr. eexists _, (quad_val (dec_val a) s t f). split; [by rewrite E|]. apply not_elem_of_cons in Hn as [Hn1 Hn2].
    split_and!; [done|done| |unfold quad_val; lia].
    exists a, (str_of_Z s), (str_of_Z t), (str_of_Z f). split_and!; [done|done|apply octet_str_of_Z; lia..|].
    by rewrite !dec_val_str_of_Z by lia.
Qed.

Definition sample_clients : UCIContainer :=
  let w id opt v u := Uci.set u (js "wireguard_gargoyle") id opt (UStr v) false in
  w (js "c2") (js "ip") (js "10.64.0.3") (w (js "c2") (js "enabled") (js "0") (w (js "c2") [] (js "allowed_client")
    (w (js "c1") (js "ip") (js "10.64.0.2") (w (js "c1") (js "enabled") (js "1") (w (js "c1") [] (js "allowed_client") Uci.new))))).

Lemma unused_ip_fresh_witness :
  ∃ ip n, getUnusedAcIp (js "wireguard_gargoyle") 2 sample_clients (dotted (js "10") (js "64") (js "0") (js "1")) = Ret (Some ip) ∧
    ip ∉ [js "10.64.0.2"] ∧ ip ≠ dotted (js "10") (js "64") (js "0") (js "1") ∧ addr_text ip n ∧ 171966465 < n.
Proof.
  apply (unused_ip_fresh (js "wireguard_gargoyle") sample_clients [js "10.64.0.2"] (js "10") (js "64") (js "0") (js "1") 2);
    try (by apply octet_eval); vm_compute; try reflexivity; try (intros E; discriminate E); lia.
Defined.

(** The search starts after the server's last octet without a check, and does
    not see the clients that are switched off: a server at .254 gets the
    broadcast address, and a disabled client's address is given again. *)
Theorem unused_ip_limits :
  getUnusedAcIp (js "wireguard_gargoyle") 2 Uci.new (js "10.64.0.254") = Ret (Some (js "10.64.0.255")) ∧
  getUnusedAcIp (js "wireguard_gargoyle") 2 sample_clients (js "10.64.0.1") = Ret (Some (js "10.64.0.3")) ∧
  Ports.gets sample_clients (js "wireguard_gargoyle") (js "c2") (js "ip") = js "10.64.0.3".
Proof. split_and!; vm_compute; reflexivity. Qed.

(** ** Masks *)
Section masks.

Lemma test_quad a b c d : octet a → octet b → octet c → octet d → test re_quad (dotted a b c d) = true.
Proof.
  intros Ha Hb Hc Hd. destruct (exec_quad None a b c d) as (m & E & _); [done|by repeat (constructor; [split; [apply Ha || apply Hb || apply Hc || apply Hd|done]|])|].
  unfold test. change re_quad with (quad_re None). by rewrite E.
Qed.

Lemma test_quad_false m : 46 ∉ m → test re_quad m = false.
Proof.
  intros Hm. unfold test. change re_quad with (quad_re None). destruct (exec (quad_re None) m) as [i|] eqn:E; [|done].
  apply exec_quad_Some in E as (a & b & c & d & -> & _); [|done]. exfalso. apply Hm. unfold dotted. set_solver.
Qed.

Lemma pow_mask p : 1 <= p <= 32 → 0 < 2 ^ (32 - p) <= 2 ^ 31.
Proof. intros Hp. split; [apply Z.pow_pos_nonneg; lia|apply Z.pow_le_mono_r; lia]. Qed.

Lemma numeral_mask m : numeral m → 1 <= dec_val m <= 32 →
  Num.shl (Int (-1)) (Num.sub (Int 32) (toNumber m)) = - 2 ^ (32 - dec_val m).
Proof.
  intros Hm Hp. pose proof (pow_mask _ Hp). rewrite toNumber_numeral by done. numsimpl. rewrite shl_int by lia.
  rewrite signed32_small by lia. lia.
Qed.

Lemma parseMask_int m p : 1 <= p <= 32 → mask_text m p → Num.toInt32 (WireGuard.parseMask m) = - 2 ^ (32 - p).
Proof.
  intros Hp H. pose proof (pow_mask p Hp). unfold WireGuard.parseMask.
  destruct H as [[Hm <-]|(a & b & c & d & -> & Ha & Hb & Hc & Hd & E)].
  - rewrite test_quad_false by (by apply numeral_no_dot). rewrite numeral_mask by done. rewrite toInt32_int. apply signed32_small. lia.
  - rewrite test_quad by done. erewrite addr_text_parseIp by (by apply addr_text_dotted). rewrite E, toInt32_int, signed32_high by lia. lia.
Qed.

Lemma getNumericIp_num s n : addr_text s n → OpenVpn.getNumericIp s = Some (Int (Num.signed32 n)).
Proof.
  intros Hs. rewrite <- (addr_text_getIpInteger s n) by done.
  destruct Hs as (a & b & c & d & -> & Ha & Hb & Hc & Hd & ->). unfold OpenVpn.getNumericIp, getIpInteger.
  destruct (exec_quad None a b c d) as (m & E & E1 & E2 & E3 & E4);
    [done|by repeat (constructor; [split; [apply Ha || apply Hb || apply Hc || apply Hd|done]|])|].
  change re_quad with (quad_re None). rewrite E, E1, E2, E3, E4.
  by rewrite !parsePaddedInt_numeral, !toNumber_numeral by (apply Ha || apply Hb || apply Hc || apply Hd).
Qed.

Lemma getNumericIp_addr s n : addr_text s n → OpenVpn.int32_of (OpenVpn.getNumericIp s) = Num.signed32 n.
Proof.
  intros Hs. unfold OpenVpn.int32_of. rewrite (getNumericIp_num s n) by done. rewrite toInt32_int. apply signed32_small, signed32_range.
Qed.

Lemma getNumericMask_int m p : 1 <= p <= 32 → mask_text m p → OpenVpn.int32_of (OpenVpn.getNumericMask m) = - 2 ^ (32 - p).
Proof.
  intros Hp H. pose proof (pow_mask p Hp). unfold OpenVpn.getNumericMask.
  destruct H as [[Hm <-]|(a & b & c & d & -> & Ha & Hb & Hc & Hd & E)].
  - rewrite test_quad_false by (by apply numeral_no_dot). rewrite numeral_mask by done. unfold OpenVpn.int32_of. rewrite toInt32_int. apply signed32_small. lia.
  - rewrite test_quad by done. erewrite getNumericIp_addr by (by apply addr_text_dotted). rewrite E, signed32_high by lia. lia.
Qed.

(** The network of an address under a mask of [h] host bits. *)
Definition network (h n : Z) : Z := n / 2 ^ h * 2 ^ h.

Lemma network_range h n : 0 <= h < 32 → 0 <= n < 2 ^ 32 → 0 <= network h n < 2 ^ 32.
Proof.
  intros Hh Hn. unfold network. assert (0 < 2 ^ h) by (apply Z.pow_pos_nonneg; lia).
  pose proof (Z.div_mod n (2 ^ h) ltac:(lia)). pose proof (Z.mod_pos_bound n (2 ^ h) ltac:(lia)).
  assert (0 <= n / 2 ^ h) by (apply Z.div_pos; lia). nia.
Qed.

Lemma signed_network h n : 0 <= h < 32 → 0 <= n < 2 ^ 32 → Num.band (Num.signed32 n) (- 2 ^ h) = Num.signed32 (network h n).
Proof.
  intros Hh Hn. destruct (subnet_bounds (Num.signed32 n) h Hh (signed32_range n)) as [-> _]. unfold network.
  assert (Hp : 0 < 2 ^ h) by (apply Z.pow_pos_nonneg; lia).
  assert (E : 2 ^ 32 = 2 ^ (32 - h) * 2 ^ h) by (rewrite <- Z.pow_add_r by lia; f_equal; lia).
  pose proof (network_range h n Hh Hn) as Hr. unfold network in Hr.
  assert (Hdiv : n < 2 ^ 31 ↔ n / 2 ^ h * 2 ^ h < 2 ^ 31).
  { pose proof (Z.div_mod n (2 ^ h) ltac:(lia)). pose proof (Z.mod_pos_bound n (2 ^ h) ltac:(lia)).
    assert (E' : 2 ^ 31 = 2 ^ (31 - h) * 2 ^ h) by (rewrite <- Z.pow_add_r by lia; f_equal; lia). split; [lia|]. rewrite E'. intros Hq.
    apply Z.mul_lt_mono_pos_r in Hq; [|lia]. assert ((n / 2 ^ h + 1) * 2 ^ h <= 2 ^ (31 - h) * 2 ^ h) by (apply Z.mul_le_mono_nonneg_r; lia). lia. }
  rewrite !signed32_cases by done.
  destruct (Z.ltb_spec n (2 ^ 31)), (Z.ltb_spec (n / 2 ^ h * 2 ^ h) (2 ^ 31)); try lia.
  rewrite E. replace (n - _) with (n + - 2 ^ (32 - h) * 2 ^ h) by lia. rewrite Z.div_add by lia. lia.
Qed.

Lemma ipToStr_signed n : ipToStr (Int (Num.signed32 n)) = ipToStr (Int n).
Proof.
  unfold ipToStr, Num.shr, Num.sar. rewrite !toInt32_int. rewrite (signed32_small (Num.signed32 n)) by apply signed32_range.
  numsimpl. by rewrite wrap32_signed32.
Qed.

Lemma ipToStr_network h n : 0 <= h < 32 → 0 <= n < 2 ^ 32 →
  addr_text (ipToStr (Int (Num.band (Num.signed32 n) (- 2 ^ h)))) (network h n).
Proof. intros Hh Hn. rewrite signed_network, ipToStr_signed by done. by apply addr_text_ipToStr, network_range. Qed.

Lemma addr_text_signed s n : addr_text s n → Num.toInt32 (parseIp s) = Num.signed32 n.
Proof. intros H. rewrite (addr_text_parseIp s n) by done. apply toInt32_int. Qed.

Lemma masks_meet h k : 0 <= h < 32 → 0 <= k < 32 → Num.band (- 2 ^ h) (- 2 ^ k) = - 2 ^ Z.max h k.
Proof.
  intros Hh Hk. unfold Num.band. rewrite ldiff_low by lia.
  assert (0 < 2 ^ Z.max h k <= 2 ^ 31) by (split; [apply Z.pow_pos_nonneg; lia|apply Z.pow_le_mono_r; lia]).
  assert (0 < 2 ^ k) by (apply Z.pow_pos_nonneg; lia). assert (0 < 2 ^ h) by (apply Z.pow_pos_nonneg; lia).
  assert (E : - 2 ^ h / 2 ^ k * 2 ^ k = - 2 ^ Z.max h k); [|rewrite E; apply signed32_small; lia].
  destruct (Z.le_ge_cases h k) as [Hle|Hle].
  - rewrite Z.max_r by lia. assert (2 ^ h <= 2 ^ k) by (apply Z.pow_le_mono_r; lia).
    replace (- 2 ^ h / 2 ^ k) with (-1); [lia|]. apply (Z.div_unique _ _ _ (2 ^ k - 2 ^ h)); lia.
  - rewrite Z.max_l by lia. replace (- 2 ^ h) with ((- 2 ^ (h - k)) * 2 ^ k); [by rewrite Z.div_mul by lia|].
    replace (2 ^ h) with (2 ^ (h - k) * 2 ^ k); [lia|]. rewrite <- Z.pow_add_r by lia. f_equal. lia.
Qed.

(** Two subnets share an address exactly when the coarser mask does not tell
    their addresses apart. *)
Lemma common_address x y h k : 0 <= h → 0 <= k → 0 <= x < 2 ^ 32 → 0 <= y < 2 ^ 32 →
  (∃ z, 0 <= z < 2 ^ 32 ∧ network h z = network h x ∧ network k z = network k y) ↔ network (Z.max h k) x = network (Z.max h k) y.
Proof.
  assert (Hpow : ∀ h, 0 <= h → 0 < 2 ^ h) by (intros; apply Z.pow_pos_nonneg; lia).
  assert (Hcancel : ∀ h x y, 0 <= h → network h x = network h y ↔ x / 2 ^ h = y / 2 ^ h).
  { intros h' a b Hh'. unfold network. specialize (Hpow h' Hh'). rewrite Z.mul_cancel_r by lia. done. }
  assert (Hcoarse : ∀ h g x y, 0 <= h <= g → x / 2 ^ h = y / 2 ^ h → x / 2 ^ g = y / 2 ^ g).
  { intros h' g a b Hg E. replace g with (h' + (g - h')) by lia. specialize (Hpow h' ltac:(lia)) as H1. specialize (Hpow (g - h') ltac:(lia)).
    rewrite Z.pow_add_r, <- !Z.div_div by lia. by rewrite E. }
  intros Hh Hk Hx Hy. rewrite Hcancel by lia. setoid_rewrite Hcancel; [|done..]. split.
  - intros (z & _ & E1 & E2). rewrite <- (Hcoarse h (Z.max h k) z x), <- (Hcoarse k (Z.max h k) z y) by (lia || done). done.
  - intros E. destruct (Z.le_ge_cases h k) as [Hle|Hle].
    + exists x. rewrite Z.max_r in E by lia. done.
    + exists y. rewrite Z.max_l in E by lia. done.
Qed.

End masks.

(** C26: the overlap check of WireGuard.  Two subnets, each an address and a mask
    of 1 to 32 bits written as a number or as a dotted quad, are reported as
    overlapping exactly when some address belongs to both. *)
Theorem wg_overlap_iff ipA maskA ipB maskB x p y q :
  addr_text ipA x → mask_text maskA p → 1 <= p <= 32 → addr_text ipB y → mask_text maskB q → 1 <= q <= 32 →
  WireGuard.wgSubnetsOverlap ipA maskA ipB maskB = true ↔
  ∃ z, 0 <= z < 2 ^ 32 ∧ network (32 - p) z = network (32 - p) x ∧ network (32 - q) z = network (32 - q) y.
Proof.
  intros Hx Hp Hpr Hy Hq Hqr. unfold WireGuard.wgSubnetsOverlap. rewrite !(parseMask_int _ p), !(parseMask_int _ q) by done.
  rewrite (addr_text_signed ipA x), (addr_text_signed ipB y), masks_meet by (done || lia).
  apply addr_text_range in Hx, Hy. rewrite common_address by lia. rewrite Z.eqb_eq, !signed_network by lia.
  split; [|by intros ->]. intros E. apply signed32_inj in E; [done|apply network_range; lia..].
Qed.

Lemma wg_overlap_iff_witness :
  WireGuard.wgSubnetsOverlap (js "192.168.1.77") (js "26") (js "192.168.1.77") (js "255.255.255.192") = true ↔
  ∃ z, 0 <= z < 2 ^ 32 ∧ network (32 - 26) z = network (32 - 26) 3232235853 ∧ network (32 - 26) z = network (32 - 26) 3232235853.
Proof. apply wg_overlap_iff; first [apply addr_sample|apply mask_sample|lia]. Defined.

(** C27: the network of a client's subnet.  OpenVPN's [adjustSubnetIp] and
    WireGuard's [applyMask] give the same text, the address with its host bits
    cleared, and applying them again changes nothing. *)
Theorem adjust_is_network s n m p : addr_text s n → mask_text m p → 1 <= p <= 32 →
  OpenVpn.adjustSubnetIp s m = WireGuard.applyMask s m ∧ addr_text (WireGuard.applyMask s m) (network (32 - p) n) ∧
  WireGuard.applyMask (WireGuard.applyMask s m) m = WireGuard.applyMask s m.
Proof.
  intros Hs Hm Hp. assert (Happ : ∀ t k, addr_text t k → WireGuard.applyMask t m = ipToStr (Int (Num.band (Num.signed32 k) (- 2 ^ (32 - p))))).
  { intros t k Ht. unfold WireGuard.applyMask. by rewrite (parseMask_int m p), (addr_text_signed t k) by done. }
  pose proof (addr_text_range s n Hs) as Hr. rewrite (Happ s n) by done.
  assert (Hnet : addr_text (ipToStr (Int (Num.band (Num.signed32 n) (- 2 ^ (32 - p))))) (network (32 - p) n)) by (apply ipToStr_network; lia).
  split_and!; [|done|].
  - unfold OpenVpn.adjustSubnetIp. by rewrite (getNumericIp_addr s n), (getNumericMask_int m p) by done.
  - rewrite (Happ _ _ Hnet), !signed_network by (lia || by apply network_range; lia). unfold network at 1.
    f_equal. unfold network. rewrite Z.div_mul; [done|]. apply Z.pow_nonzero; lia.
Qed.

Lemma adjust_is_network_witness :
  OpenVpn.adjustSubnetIp (js "192.168.1.77") (js "255.255.255.192") = WireGuard.applyMask (js "192.168.1.77") (js "255.255.255.192") ∧
  addr_text (WireGuard.applyMask (js "192.168.1.77") (js "255.255.255.192")) (network (32 - 26) 3232235853) ∧
  WireGuard.applyMask (WireGuard.applyMask (js "192.168.1.77") (js "255.255.255.192")) (js "255.255.255.192")
  = WireGuard.applyMask (js "192.168.1.77") (js "255.255.255.192").
Proof. apply adjust_is_network; first [apply addr_sample|apply mask_sample|lia]. Defined.

(** ** Limits of the checks *)
Definition subnet_doc (ip mask : jstr) : document := mkDoc (list_to_map
  [(js "openvpn_server_ip", input_el (js "10.8.0.1")); (js "openvpn_server_mask", input_el (js "255.255.0.0"));
   (js "openvpn_extra_subnet_ip", input_el ip); (js "openvpn_extra_subnet_mask", input_el mask);
   (js "openvpn_extra_subnet_ip_label", label_el (js "ip")); (js "openvpn_extra_subnet_mask_label", label_el (js "mask"))]) [].

Definition one_subnet : table :=
  createTable (js "Remove") [] [[DStr (js "172.16.4.0"); DStr (js "255.255.255.0"); DObj (OpenVpn.edit_button (λ s, s))]] (js "t") true false.

Definition subnet_page (ip mask : jstr) : vpn_page := mkVpn (subnet_doc ip mask) Uci.new Uci.new [] (Some one_subnet).

(** [checkSubnetConflict] compares network addresses only: a subnet inside that
    of the server, one that contains the server's, and one that contains an
    additional subnet are all accepted, where the overlap check of WireGuard
    reports them. *)
Theorem nested_subnets_accepted :
  let conflict ip mask := OpenVpn.checkSubnetConflict [] [] (subnet_page ip mask) ip mask in
  conflict (js "10.8.5.0") (js "255.255.255.0") = Ret false ∧
  WireGuard.wgSubnetsOverlap (js "10.8.5.0") (js "255.255.255.0") (js "10.8.0.1") (js "255.255.0.0") = true ∧
  conflict (js "172.16.0.0") (js "255.240.0.0") = Ret false ∧
  WireGuard.wgSubnetsOverlap (js "172.16.0.0") (js "255.240.0.0") (js "172.16.4.0") (js "255.255.255.0") = true ∧
  conflict (js "172.16.4.9") (js "255.255.255.0") = Ret true.
Proof. cbn zeta. split_and!; vm_compute; reflexivity. Qed.

(** An additional subnet that is edited conflicts with itself: the window opened
    on a row and confirmed without a change is refused. *)
Theorem edit_subnet_conflicts_with_itself : ∃ p,
  OpenVpn.editEs (λ s, s) (λ s, s) [] [] (subnet_page (js "172.16.4.0") (js "255.255.255.0")) 0 = Ret p ∧
  vp_extra p = Some one_subnet ∧ alerts (vp_doc p) = [js "SubDup" ++ [10; 10] ++ js "AddESnetErr"].
Proof. eexists. split; [vm_compute; reflexivity|]. split; vm_compute; reflexivity. Qed.

(** A client whose name has no Latin letter, digit or underscore (here two
    letters of another alphabet) is stored under the empty identifier, which
    [free_id] takes for a free one. *)
Theorem client_id_may_be_empty :
  WireGuard.stored_id [1044; 1086] = [] ∧ Vpn.free_id WireGuard.pkg 0 Uci.new [] [] 1 = Some [] ∧
  WireGuard.stored_id (js "Home-PC 2") = js "home_pc_2".
Proof. split_and!; vm_compute; reflexivity. Qed.
