(* ===== verification/VpnText.v ===== *)
(** * The client configuration text of OpenVPN (plugin-gargoyle-openvpn, openvpn.js)

    The page of an OpenVPN client shows the configuration file as a text and some of
    its directives as controls.  [updateClientConfigTextFromControls] writes the
    controls into the text and [updateClientControlsFromConfigText] reads the text
    into the controls; both go through the lines of the text.

    The boxes of the ciphers are numbered from 1; the loops over them end at the first
    number without an element, which is reached after at most as many turns as the
    document has elements. *)
From S2P Require Import Prelude JsNum JsString JsRegex Uci Validate Dom.
Import Validate Dom.
Open Scope Z_scope.

Module VpnText.

Definition client (s : string) : jstr := js "openvpn_client_" ++ js s.

(** ** Ciphers *)
Definition cipher_id (prefix : jstr) (n : Z) : jstr := js "openvpn_" ++ prefix ++ js "_cipher_" ++ str_of_Z n.

(** The identifiers of the boxes from a number on. *)
Fixpoint cipher_boxes (fuel : nat) (d : document) (prefix : jstr) (n : Z) : list jstr :=
  match fuel with
  | O => []
  | S f => match getElementById d (cipher_id prefix n) with
           | Some _ => cipher_id prefix n :: cipher_boxes f d prefix (n + 1)
           | None => []
           end
  end.
Definition all_boxes (d : document) (prefix : jstr) : list jstr := cipher_boxes (S (size (elements d))) d prefix 1.

Definition setSelectedCiphers (d : document) (cipherStr prefix : jstr) : exn document :=
  let ciphers := split_char 58 cipherStr in
  exn_fold (fun d id => update d id (fun e => set_checked (bool_decide (value e ∈ ciphers)) e)) (all_boxes d prefix) d.

Definition default_cipher : jstr := js "AES-256-GCM".

Definition getSelectedCiphers (d : document) (prefix : jstr) : exn jstr :=
  let! ciphers := exn_fold (fun l id => let! e := el d id in Ret (if e_checked e then l ++ [value e] else l)) (all_boxes d prefix) [] in
  Ret (match ciphers with [] => default_cipher | _ => join (js ":") ciphers end).

(** ** Lines *)
Definition re_line_ends : re := Eval vm_compute in rx "[\r\n]+".
Definition re_lead : re := Eval vm_compute in rx "^[\t ]+".
Definition re_blank_run : re := Eval vm_compute in rx "[\t ]+".

Definition conf_lines (text : jstr) : list jstr := split_re re_line_ends text.
Definition line_parts (line : jstr) : list jstr := split_re re_blank_run (replace re_lead [] line).
Definition directive (parts : list jstr) : jstr := toLowerCase (default [] (head parts)).

(** ** Reading the text *)
Inductive port_from := PortUndefined | PortRemote | PortRport | PortPort.

Record conf := mkConf {
  c_remote : option jstr; c_port : option jstr; c_proto : option jstr; c_cipher : option jstr;
  c_ta : option jstr; c_from : port_from
}.

Definition read_line (c : conf) (line : jstr) : conf :=
  let lineParts := line_parts line in
  let key := directive lineParts in
  let part i := lineParts !! i in
  let has i := bool_decide (is_Some (part i)) in
  if key =s js "remote" then
    mkConf (if has 1%nat then part 1%nat else c_remote c) (if has 2%nat then part 2%nat else c_port c) (c_proto c) (c_cipher c) (c_ta c)
      (if has 2%nat then PortRemote else c_from c)
  else if (key =s js "rport") && negb (match c_from c with PortRemote => true | _ => false end) then
    mkConf (c_remote c) (if has 1%nat then part 2%nat else c_port c) (c_proto c) (c_cipher c) (c_ta c)
      (if has 1%nat then PortRport else c_from c)
  else if (key =s js "port") && negb (match c_from c with PortRemote | PortRport => true | _ => false end) then
    mkConf (c_remote c) (if has 1%nat then part 2%nat else c_port c) (c_proto c) (c_cipher c) (c_ta c)
      (if has 1%nat then PortPort else c_from c)
  else if key =s js "proto" then
    mkConf (c_remote c) (c_port c)
      (match part 1%nat with Some p => Some (if p =s js "udp" then js "udp" else js "tcp") | None => c_proto c end)
      (c_cipher c) (c_ta c) (c_from c)
  else if key =s js "data-ciphers" then
    mkConf (c_remote c) (c_port c) (c_proto c) (if has 1%nat then part 1%nat else c_cipher c) (c_ta c) (c_from c)
  else if key =s js "tls-auth" then
    mkConf (c_remote c) (c_port c) (c_proto c) (c_cipher c) (Some (default [] (part 2%nat))) (c_from c)
  else c.

Definition read_conf (lines : list jstr) : conf := fold_left read_line lines (mkConf None None None None None PortUndefined).

(** A value that was read goes to its field. *)
Definition show_opt (d : document) (v : option jstr) (show : document → jstr → exn document) : exn document :=
  match v with Some v => show d v | None => Ret d end.

Definition show_conf (d : document) (c : conf) : exn document :=
  let! d := show_opt d (c_remote c) (fun d v => update d (client "remote") (set_value v)) in
  let! d := show_opt d (c_port c) (fun d v => update d (client "port") (set_value v)) in
  let! d := show_opt d (c_proto c) (fun d v => setSelectedValue d (client "protocol") v) in
  let! d := show_opt d (c_cipher c) (fun d v => setSelectedCiphers d v (js "client")) in
  let! d := show_opt d (c_ta c) (fun d v =>
    let! d := setSelectedValue d (client "ta_direction") (if v =s js "1" then js "1" else js "omitted") in
    let! d := update d (client "use_ta_key_text") (set_checked true) in
    let! d := enableAssociatedField d (client "use_ta_key_text") (client "ta_key_text") [] in
    enableAssociatedField d (client "use_ta_key_text") (client "ta_direction") (js "1")) in
  update d (client "port") (proofread_el validatePort 0).

Definition updateClientControlsFromConfigText (d : document) : exn document :=
  let! text := el d (client "conf_text") in
  show_conf d (read_conf (conf_lines (value text))).

(** ** Writing the text *)

(** The controls as the text has them. *)
Record controls := mkControls { k_remote : jstr; k_port : jstr; k_proto : jstr; k_cipher : jstr; k_ta : jstr; k_use_ta : bool }.

Definition remote_line (k : controls) : jstr := js "remote " ++ k_remote k ++ js " " ++ k_port k.
Definition proto_line (k : controls) : jstr := js "proto " ++ (if k_proto k =s js "tcp" then js "tcp-client" else js "udp").
Definition cipher_line (k : controls) : jstr := js "data-ciphers " ++ k_cipher k.

(** [foundVars] *)
Record found := mkFound { f_remote : bool; f_proto : bool; f_cipher : bool; f_tls : bool }.

(** One line: the new line and what was found. *)
Definition write_line (k : controls) (st : list jstr * found) (line : jstr) : list jstr * found :=
  let '(newLines, f) := st in
  let lineParts := line_parts line in
  let key := directive lineParts in
  if key =s js "remote" then (newLines ++ [remote_line k], mkFound true (f_proto f) (f_cipher f) (f_tls f))
  else if key =s js "proto" then (newLines ++ [proto_line k], mkFound (f_remote f) true (f_cipher f) (f_tls f))
  else if key =s js "data-ciphers" then (newLines ++ [cipher_line k], mkFound (f_remote f) (f_proto f) true (f_tls f))
  else if (key =s js "rport") || (key =s js "port") then (newLines ++ [[]], f)
  else if key =s js "tls-auth" then
    if k_use_ta k then
      (newLines ++ [default [] (head lineParts) ++ js " " ++ default (js "ta.key") (lineParts !! 1%nat) ++ k_ta k],
       mkFound (f_remote f) (f_proto f) (f_cipher f) true)
    else (newLines ++ [[]], f)
  else (newLines ++ [line], f).

(** The directives that were not found go before the lines. *)
Definition new_lines (k : controls) (lines : list jstr) : list jstr :=
  let '(newLines, f) := fold_left (write_line k) lines ([], mkFound false false false false) in
  let newLines := if negb (f_cipher f) && negb (k_cipher k =s default_cipher) then cipher_line k :: newLines else newLines in
  let newLines := if negb (f_proto f) then proto_line k :: newLines else newLines in
  let newLines := if negb (f_remote f) then remote_line k :: newLines else newLines in
  if negb (f_tls f) && k_use_ta k then (js "tls-auth ta.key" ++ k_ta k) :: newLines else newLines.

Section page.
Context (UI : jstr → jstr).

(** A missing list gives [undefined]. *)
Definition read_controls (d : document) : exn (controls * document) :=
  let! remote := el d (client "remote") in
  let! port := el d (client "port") in
  let! proto := getSelectedValue UI d (client "protocol") in
  let d := snd proto in
  let! cipher := getSelectedCiphers d (js "client") in
  let! ta := getSelectedValue UI d (client "ta_direction") in
  let d := snd ta in
  let! use := el d (client "use_ta_key_text") in
  Ret (mkControls (value remote) (value port) (default (js "undefined") (fst proto)) cipher
         (if bool_decide (fst ta = Some (js "1")) then js " 1" else []) (e_checked use), d).

Definition updateClientConfigTextFromControls (d : document) : exn document :=
  let! r := read_controls d in
  let '(k, d) := r in
  let! text := el d (client "conf_text") in
  update d (client "conf_text") (set_value (join Uci.newline (new_lines k (conf_lines (value text))))).

End page.

(** ** The files of a manual configuration *)
Definition re_ca : re := Eval vm_compute in ignore_case (rx "^[\t ]*ca[\t ].*$").
Definition re_cert : re := Eval vm_compute in ignore_case (rx "^[\t ]*cert[\t ].*$").
Definition re_key : re := Eval vm_compute in ignore_case (rx "^[\t ]*key[\t ].*$").
Definition re_line_end : re := Eval vm_compute in rx "[\r\n]".

(** An expression with the flag [m] matches a line. *)
Definition has_line (r : re) (text : jstr) : bool := existsb (test r) (split_re re_line_end text).

Definition clientManualCheckCaCertKey (d : document) : exn document :=
  let! elem := el d (client "conf_text") in
  let add id r line := let! e := el d (client id) in
                       Ret (if negb (value e =s []) && negb (has_line r (value elem)) then Uci.newline ++ js line else []) in
  let! ca := add "ca_text"%string re_ca "ca ca.crt"%string in
  let! cert := add "cert_text"%string re_cert "cert cert.crt"%string in
  let! key := add "key_text"%string re_key "key key.key"%string in
  let toAdd := ca ++ cert ++ key in
  if toAdd =s [] then Ret d else update d (client "conf_text") (set_value (value elem ++ toAdd)).

End VpnText.
