(* ===== verification/VpnTextFacts.v ===== *)
(** * The controls of an OpenVPN client and its configuration text

    The text that [updateClientConfigTextFromControls] writes is read back by
    [updateClientControlsFromConfigText] to controls that are read the same, for every
    text before whose directives tls-auth name a file. *)
From S2P Require Import Prelude JsNum JsString JsRegex JsSplit Uci UciFacts Validate Table Dom FormFacts VpnText.
Import Validate Dom VpnText.
Open Scope Z_scope.

Definition ends : list (Z * Z) := [(13, 13); (10, 10)].
Definition blanks : list (Z * Z) := [(9, 9); (32, 32)].
Definition on_line (s : jstr) : Prop := Forall (λ c, in_set false ends c = false) s.
(** A part of a line. *)
Definition token (s : jstr) : Prop := s ≠ [] ∧ on_line s ∧ Forall (λ c, in_set false blanks c = false) s.

(** ** Lines *)
Section lines.

Lemma conf_lines_cut s : conf_lines s = cut ends s.
Proof. apply split_re_cut. Qed.

Lemma replace_lead s : replace re_lead [] s = after_run blanks s.
Proof.
  change re_lead with (RSeq RBol (RRep 1 None (RSet false blanks))). unfold replace, replace_with. rewrite exec_bol.
  destruct s as [|c s]; [done|]. cbn [after_run]. destruct (in_set false blanks c) eqn:E.
  - by destruct (exec_run blanks [] c s E) as [pre' ->].
  - by rewrite exec_no_run.
Qed.

Lemma line_parts_cut s : line_parts s = cut blanks (after_run blanks s).
Proof. unfold line_parts. rewrite replace_lead. apply split_re_cut. Qed.

Lemma after_run_sub rs s : ∃ w, s = w ++ after_run rs s.
Proof.
  induction s as [|c s [w E]]; [by exists []|]. cbn [after_run]. destruct (in_set false rs c); [|by exists []].
  exists (c :: w). simpl. by rewrite <- E.
Qed.

Lemma cut_chars rs (P : Z → Prop) s : Forall P s → Forall (Forall P) (cut rs s).
Proof.
  intros Hs. induction Hs as [|c s Hc Hs IH]; [by repeat constructor|]. destruct (in_set false rs c) eqn:E.
  - destruct s as [|y s]; [cbn [cut]; rewrite E; by repeat constructor|]. rewrite cut_two by done.
    destruct (in_set false rs y); [done|]. by constructor.
  - cbn [cut]. rewrite E. destruct IH as [|p ps Hp Hps]; repeat constructor; done.
Qed.

Lemma line_parts_on_line s : on_line s → Forall on_line (line_parts s).
Proof.
  intros Hs. rewrite line_parts_cut. apply cut_chars. destruct (after_run_sub blanks s) as [w E]. rewrite E in Hs.
  by apply Forall_app in Hs as [_ ?].
Qed.

Lemma line_parts_ne s : ∃ p ps, line_parts s = p :: ps.
Proof. rewrite line_parts_cut. pose proof (cut_ne blanks (after_run blanks s)). destruct (cut _ _); [done|eauto]. Qed.

Lemma line_parts_join w ws : Forall token (w :: ws) → line_parts (join [32] (w :: ws)) = w :: ws.
Proof.
  intros H. rewrite line_parts_cut. rewrite <- split_re_cut.
  replace (after_run blanks (join [32] (w :: ws))) with (join [32] (w :: ws)).
  - apply split_re_class; [done..|]. eapply Forall_impl; [done|]. by intros ? (? & _ & ?).
  - inversion H as [|? ? (Hne & _ & Hb) _]; subst. destruct w as [|c w]; [done|]. inversion Hb as [|? ? Hc _]; subst.
    destruct ws; cbn [join app after_run]; by rewrite Hc.
Qed.

(** Blank lines do not count. *)
Lemma read_filled l c : fold_left read_line l c = fold_left read_line (filled l) c.
Proof.
  revert c. induction l as [|s l IH]; intros c; [done|]. unfold filled. cbn [List.filter fold_left].
  destruct (s =s []) eqn:E; cbn [negb fold_left]; [|apply IH]. apply str_eqb_eq in E as ->. by rewrite <- IH.
Qed.

Lemma read_joined l : Forall on_line l → read_conf (conf_lines (join Uci.newline l)) = read_conf l.
Proof.
  intros Hl. unfold read_conf. rewrite conf_lines_cut, read_filled, (read_filled l). by rewrite (cut_join ends 10).
Qed.

End lines.

(** ** What a new line says *)
Inductive kind := KRemote | KProto | KCipher | KTls | KOther.
#[export] Instance kind_eq_dec : EqDecision kind.
Proof. solve_decision. Defined.

(** The controls in their range: parts of a line, a protocol of the list. *)
Record controls_ok (k : controls) : Prop := {
  ok_remote : token (k_remote k);
  ok_port : token (k_port k);
  ok_cipher : token (k_cipher k);
  ok_proto : k_proto k = js "udp" ∨ k_proto k = js "tcp";
  ok_ta : k_ta k = [] ∨ k_ta k = js " 1"
}.

Definition ta_text (k : controls) : jstr := if k_ta k =s js " 1" then js "1" else [].

Definition says (k : controls) (c : conf) (x : kind) : conf :=
  match x with
  | KRemote => mkConf (Some (k_remote k)) (Some (k_port k)) (c_proto c) (c_cipher c) (c_ta c) PortRemote
  | KProto => mkConf (c_remote c) (c_port c) (Some (k_proto k)) (c_cipher c) (c_ta c) (c_from c)
  | KCipher => mkConf (c_remote c) (c_port c) (c_proto c) (Some (k_cipher k)) (c_ta c) (c_from c)
  | KTls => mkConf (c_remote c) (c_port c) (c_proto c) (c_cipher c) (Some (ta_text k)) (c_from c)
  | KOther => c
  end.

(** The kind of an old line, which decides the new one. *)
Definition kind_of (line : jstr) : kind :=
  let key := directive (line_parts line) in
  if key =s js "remote" then KRemote
  else if key =s js "proto" then KProto
  else if key =s js "data-ciphers" then KCipher
  else if key =s js "tls-auth" then KTls
  else KOther.

Definition is_kind (k : controls) (x : kind) (line : jstr) : Prop :=
  on_line line ∧ kind_of line = x ∧ ∀ c, read_line c line = says k c x.

Definition is_port (line : jstr) : bool :=
  let key := directive (line_parts line) in (key =s js "rport") || (key =s js "port").

Definition tls_line (k : controls) (line : jstr) : jstr :=
  default [] (head (line_parts line)) ++ js " " ++ default (js "ta.key") (line_parts line !! 1%nat) ++ k_ta k.

Definition new_line (k : controls) (line : jstr) : jstr :=
  match kind_of line with
  | KRemote => remote_line k
  | KProto => proto_line k
  | KCipher => cipher_line k
  | KTls => if k_use_ta k then tls_line k line else []
  | KOther => if is_port line then [] else line
  end.

(** The kind of the new line. *)
Definition new_kind (k : controls) (x : kind) : kind := match x with KTls => if k_use_ta k then KTls else KOther | _ => x end.

Definition has (x : kind) (lines : list jstr) : bool := existsb (λ l, bool_decide (kind_of l = x)) lines.

(** A [tls-auth] line names its file. *)
Definition named (line : jstr) : Prop := kind_of line = KTls → line_parts line !! 1%nat ≠ Some [].

Section writing.
Context (k : controls).

Lemma write_fold lines acc f :
  fold_left (write_line k) lines (acc, f) =
  (acc ++ map (new_line k) lines,
   mkFound (f_remote f || has KRemote lines) (f_proto f || has KProto lines) (f_cipher f || has KCipher lines)
     (f_tls f || (k_use_ta k && has KTls lines))).
Proof.
  revert acc f. induction lines as [|l lines IH]; intros acc f.
  - cbn [fold_left map has existsb]. rewrite app_nil_r, andb_false_r, !orb_false_r. by destruct f.
  - cbn [fold_left map].
    assert (E : write_line k (acc, f) l = (acc ++ [new_line k l],
      mkFound (f_remote f || bool_decide (kind_of l = KRemote)) (f_proto f || bool_decide (kind_of l = KProto))
        (f_cipher f || bool_decide (kind_of l = KCipher)) (f_tls f || (k_use_ta k && bool_decide (kind_of l = KTls))))).
    { unfold write_line, new_line, kind_of, is_port. set (key := directive (line_parts l)).
      destruct (key =s js "remote"), (key =s js "proto"), (key =s js "data-ciphers"), (key =s js "tls-auth") eqn:Et,
        ((key =s js "rport") || (key =s js "port")) eqn:Ep, (k_use_ta k), f; try reflexivity;
      (apply str_eqb_eq in Et; rewrite Et in Ep; discriminate Ep) || (cbn; by rewrite ?orb_true_r, ?orb_false_r). }
    rewrite E, IH. rewrite <- app_assoc. cbn [f_remote f_proto f_cipher f_tls app]. unfold has. cbn [existsb].
    by rewrite !orb_assoc, andb_orb_distrib_r, !orb_assoc.
Qed.

End writing.

(** Comparisons of two literals. *)
Ltac literals :=
  repeat match goal with |- context[js ?a =s js ?b] => let v := eval vm_compute in (js a =s js b) in change (js a =s js b) with v end;
  cbn [andb orb negb].

Section reading.
Context (k : controls).
Hypothesis (Hk : controls_ok k).

Lemma token_literal s : forallb (λ c, negb (in_set false ends c) && negb (in_set false blanks c)) s = true → s ≠ [] → token s.
Proof.
  intros H Hs. split_and!; [done|..]; apply Forall_forall; intros c Hc; rewrite forallb_forall in H;
    apply list_elem_of_In, H in Hc; by destruct (in_set false ends c), (in_set false blanks c).
Qed.

Lemma tokens_on_line ws : Forall token ws → on_line (join [32] ws).
Proof.
  induction 1 as [|w ws (_ & Hw & _) _ IH]; [constructor|]. destruct ws as [|w' ws]; [done|].
  apply Forall_app. split; [done|]. by constructor.
Qed.

Lemma is_kind_tokens x w ws : Forall token (w :: ws) → kind_of (join [32] (w :: ws)) = x →
  (∀ c, read_line c (join [32] (w :: ws)) = says k c x) → is_kind k x (join [32] (w :: ws)).
Proof. intros Hw Hx Hr. split; [by apply tokens_on_line|done]. Qed.

(** The kind of a line is that of its first part. *)
Lemma kind_of_tokens (v : string) w ws : Forall token (w :: ws) → toLowerCase w = js v → kind_of (join [32] (w :: ws)) =
  if js v =s js "remote" then KRemote else if js v =s js "proto" then KProto else if js v =s js "data-ciphers" then KCipher
  else if js v =s js "tls-auth" then KTls else KOther.
Proof. intros Hw E. unfold kind_of. rewrite line_parts_join by done. change (directive (w :: ws)) with (toLowerCase w). by rewrite E. Qed.

Lemma remote_kind : is_kind k KRemote (remote_line k).
Proof.
  assert (Hw : Forall token [js "remote"; k_remote k; k_port k]).
  { repeat constructor; try apply Hk; try (by apply token_literal). }
  change (remote_line k) with (join [32] [js "remote"; k_remote k; k_port k]). apply is_kind_tokens; [done|by rewrite (kind_of_tokens "remote")|]. intros c.
  unfold read_line. rewrite line_parts_join by done. change (directive _) with (js "remote"). by literals.
Qed.

Lemma proto_kind : is_kind k KProto (proto_line k).
Proof.
  set (v := if k_proto k =s js "tcp" then js "tcp-client" else js "udp").
  assert (Hv : token v) by (unfold v; destruct (k_proto k =s js "tcp"); by apply token_literal).
  assert (Hw : Forall token [js "proto"; v]) by (repeat constructor; try apply Hv; by apply token_literal).
  change (proto_line k) with (join [32] [js "proto"; v]). apply is_kind_tokens; [done|by rewrite (kind_of_tokens "proto")|]. intros c.
  unfold read_line. rewrite line_parts_join by done. change (directive _) with (js "proto"). literals.
  cbn [lookup list_lookup says]. do 2 f_equal. unfold v. destruct (ok_proto k Hk) as [-> | ->]; literals; by literals.
Qed.

Lemma cipher_kind : is_kind k KCipher (cipher_line k).
Proof.
  assert (Hw : Forall token [js "data-ciphers"; k_cipher k]) by (repeat constructor; try apply Hk; by apply token_literal).
  change (cipher_line k) with (join [32] [js "data-ciphers"; k_cipher k]). apply is_kind_tokens; [done|by rewrite (kind_of_tokens "data-ciphers")|]. intros c.
  unfold read_line. rewrite line_parts_join by done. change (directive _) with (js "data-ciphers"). by literals.
Qed.

(** A [tls-auth] line in any case of its letters. *)
Lemma tls_kind t f : token t → token f → toLowerCase t = js "tls-auth" → is_kind k KTls (t ++ js " " ++ f ++ k_ta k).
Proof.
  intros Ht Hf Hl. assert (H1 : token (js "1")) by (by apply token_literal).
  destruct (ok_ta k Hk) as [E|E].
  - rewrite E. change (t ++ js " " ++ f ++ []) with (join [32] [t; f ++ []]). rewrite app_nil_r.
    apply is_kind_tokens; [by rewrite ?Forall_cons, Forall_nil|by rewrite (kind_of_tokens "tls-auth") by (done || by rewrite ?Forall_cons, Forall_nil)|]. intros c. unfold read_line. rewrite line_parts_join by (by rewrite ?Forall_cons, Forall_nil).
    change (directive (t :: _)) with (toLowerCase t). rewrite Hl. literals. unfold says, ta_text. by rewrite E.
  - rewrite E. change (t ++ js " " ++ f ++ js " 1") with (join [32] [t; f; js "1"]).
    apply is_kind_tokens; [by rewrite ?Forall_cons, Forall_nil|by rewrite (kind_of_tokens "tls-auth") by (done || by rewrite ?Forall_cons, Forall_nil)|]. intros c. unfold read_line. rewrite line_parts_join by (by rewrite ?Forall_cons, Forall_nil).
    change (directive (t :: _)) with (toLowerCase t). rewrite Hl. literals. unfold says, ta_text. by rewrite E.
Qed.

Lemma blank_kind : is_kind k KOther [].
Proof. split; [constructor|]. done. Qed.

Lemma other_kind line : on_line line → kind_of line = KOther → is_port line = false → is_kind k KOther line.
Proof.
  intros Hl Hk' Hp. split; [done|]. split; [done|]. intros c. unfold read_line, kind_of, is_port in *. set (key := directive (line_parts line)) in *.
  destruct (key =s js "remote"), (key =s js "proto"), (key =s js "data-ciphers"), (key =s js "tls-auth"); try done.
  apply orb_false_iff in Hp as [-> ->]. done.
Qed.

Lemma kind_of_tls line : kind_of line = KTls → ∃ t ps, line_parts line = t :: ps ∧ toLowerCase t = js "tls-auth".
Proof.
  unfold kind_of. destruct (line_parts_ne line) as (t & ps & Ep). rewrite Ep. change (directive (t :: ps)) with (toLowerCase t).
  intros H. exists t, ps. split; [done|]. apply str_eqb_eq. revert H.
  by destruct (toLowerCase t =s js "remote"), (toLowerCase t =s js "proto"), (toLowerCase t =s js "data-ciphers"), (toLowerCase t =s js "tls-auth").
Qed.

Lemma new_line_kind line : on_line line → named line → is_kind k (new_kind k (kind_of line)) (new_line k line).
Proof.
  intros Hl Hn. unfold new_line, new_kind. destruct (kind_of line) eqn:E; [apply remote_kind|apply proto_kind|apply cipher_kind| |].
  - destruct (k_use_ta k); [|apply blank_kind]. destruct (kind_of_tls line E) as (t & ps & Ep & Ht). unfold tls_line. rewrite Ep. change (default [] (head (t :: ps))) with t.
    pose proof (line_parts_on_line line Hl) as Ho. pose proof (cut_outside blanks (after_run blanks line)) as Hb.
    rewrite <- line_parts_cut in Hb. rewrite Ep in Ho, Hb. inversion Ho; subst. inversion Hb; subst.
    apply tls_kind; [|destruct ps as [|f ps]; [change (token (js "ta.key"))|change (token f)]|done].
    + split; [|done]. intros ->. discriminate Ht.
    + by apply token_literal.
    + inversion Ho as [|? ? ? Hps]; inversion Hps; subst. inversion Hb as [|? ? ? Hbs]; inversion Hbs; subst.
      split; [|done]. intros ->. specialize (Hn E). rewrite Ep in Hn. done.
  - destruct (is_port line) eqn:Ep; [apply blank_kind|by apply other_kind].
Qed.

End reading.

Section text.
Context (k : controls).
Hypothesis (Hk : controls_ok k).

Lemma elem_cons_dec (x y : kind) l : bool_decide (x ∈ y :: l) = bool_decide (x = y) || bool_decide (x ∈ l).
Proof. rewrite <- bool_decide_or. apply bool_decide_ext, elem_of_cons. Qed.

Lemma says_fold xs c : fold_left (says k) xs c =
  mkConf (if bool_decide (KRemote ∈ xs) then Some (k_remote k) else c_remote c)
    (if bool_decide (KRemote ∈ xs) then Some (k_port k) else c_port c)
    (if bool_decide (KProto ∈ xs) then Some (k_proto k) else c_proto c)
    (if bool_decide (KCipher ∈ xs) then Some (k_cipher k) else c_cipher c)
    (if bool_decide (KTls ∈ xs) then Some (ta_text k) else c_ta c)
    (if bool_decide (KRemote ∈ xs) then PortRemote else c_from c).
Proof.
  revert c. induction xs as [|x xs IH]; intros c.
  - rewrite !bool_decide_eq_false_2 by apply not_elem_of_nil. by destruct c.
  - cbn [fold_left]. rewrite IH.
    rewrite !elem_cons_dec. destruct x; cbn; repeat case_bool_decide; done.
Qed.

Lemma read_kinds xs L c : Forall2 (is_kind k) xs L → fold_left read_line L c = fold_left (says k) xs c.
Proof. intros H. revert c. induction H as [|x l xs L (_ & _ & Hx) _ IH]; intros c; [done|]. cbn [fold_left]. by rewrite Hx, IH. Qed.

(** The lines before the old ones, with their kinds. *)
Definition added (lines : list jstr) : list (kind * jstr) :=
  (if negb (has KTls lines) && k_use_ta k then [(KTls, js "tls-auth ta.key" ++ k_ta k)] else [])
  ++ (if negb (has KRemote lines) then [(KRemote, remote_line k)] else [])
  ++ (if negb (has KProto lines) then [(KProto, proto_line k)] else [])
  ++ (if negb (has KCipher lines) && negb (k_cipher k =s default_cipher) then [(KCipher, cipher_line k)] else []).

Lemma new_lines_added lines : new_lines k lines = map snd (added lines) ++ map (new_line k) lines.
Proof.
  unfold new_lines, added. rewrite write_fold. cbn [f_remote f_proto f_cipher f_tls app orb].
  destruct (has KTls lines), (k_use_ta k), (has KRemote lines), (has KProto lines), (has KCipher lines), (k_cipher k =s default_cipher);
    reflexivity.
Qed.

Lemma added_kinds lines : Forall2 (is_kind k) (map fst (added lines)) (map snd (added lines)).
Proof.
  assert (Ht : is_kind k KTls (js "tls-auth ta.key" ++ k_ta k)).
  { apply (tls_kind k Hk (js "tls-auth") (js "ta.key")); by (apply token_literal || done). }
  pose proof (remote_kind k Hk). pose proof (proto_kind k Hk). pose proof (cipher_kind k Hk).
  unfold added. rewrite !map_app. repeat apply Forall2_app; match goal with |- context[if ?b then _ else _] => destruct b end;
    (constructor; [done|constructor]) || constructor.
Qed.

Lemma new_has x lines : x ≠ KOther →
  bool_decide (x ∈ map (new_kind k ∘ kind_of) lines) = has x lines && (negb (bool_decide (x = KTls)) || k_use_ta k).
Proof.
  intros Hx. induction lines as [|l lines IH]; [done|]. cbn [map]. rewrite elem_cons_dec, IH. unfold has. cbn [existsb compose].
  destruct (kind_of l), x; try done; cbn; destruct (k_use_ta k); cbn; by rewrite ?andb_true_r, ?andb_false_r.
Qed.

Lemma new_lines_read lines : Forall on_line lines → Forall named lines →
  Forall on_line (new_lines k lines) ∧
  read_conf (new_lines k lines) =
    mkConf (Some (k_remote k)) (Some (k_port k)) (Some (k_proto k))
      (if has KCipher lines || negb (k_cipher k =s default_cipher) then Some (k_cipher k) else None)
      (if k_use_ta k then Some (ta_text k) else None) PortRemote.
Proof.
  intros Hl Hn. set (xs := map fst (added lines) ++ map (new_kind k ∘ kind_of) lines).
  assert (HL : Forall2 (is_kind k) xs (new_lines k lines)).
  { rewrite new_lines_added. apply Forall2_app; [apply added_kinds|]. clear xs. induction lines as [|l lines IH]; [constructor|].
    inversion Hl; inversion Hn; subst. constructor; [by apply new_line_kind|auto]. }
  split.
  - clear -HL. induction HL as [|? ? ? ? [? _]]; by constructor.
  - unfold read_conf. rewrite (read_kinds xs) by done. rewrite says_fold. cbn [c_remote c_port c_proto c_cipher c_ta c_from].
    assert (E : ∀ x, x ≠ KOther → bool_decide (x ∈ xs) = bool_decide (x ∈ map fst (added lines)) || (has x lines && (negb (bool_decide (x = KTls)) || k_use_ta k))).
    { intros x Hx. rewrite <- new_has by done. unfold xs. rewrite <- bool_decide_or. apply bool_decide_ext, elem_of_app. }
    rewrite !E by done. unfold added. clear.
    destruct (has KTls lines), (k_use_ta k), (has KRemote lines), (has KProto lines), (has KCipher lines), (k_cipher k =s default_cipher);
      reflexivity.
Qed.

End text.

(** ** The other lines *)

(** A line that no control shows. *)
Definition foreign (line : jstr) : bool := bool_decide (kind_of line = KOther) && negb (is_port line) && negb (line =s []).

Section other_lines.
Context (k : controls).
Hypothesis (Hk : controls_ok k).

Lemma foreign_filled l : List.filter foreign l = List.filter foreign (filled l).
Proof.
  induction l as [|s l IH]; [done|]. unfold filled. cbn [List.filter]. destruct (s =s []) eqn:E; cbn [negb List.filter].
  - unfold foreign at 1. rewrite E. cbn [negb]. by rewrite andb_false_r, IH.
  - by rewrite IH.
Qed.

Lemma foreign_joined l : Forall on_line l → List.filter foreign (conf_lines (join Uci.newline l)) = List.filter foreign l.
Proof. intros Hl. rewrite conf_lines_cut, foreign_filled, (foreign_filled l). by rewrite (cut_join ends 10). Qed.

Lemma added_not_foreign lines : List.filter foreign (map snd (added k lines)) = [].
Proof.
  pose proof (added_kinds k Hk lines) as H. assert (Ho : Forall (λ x, x ≠ KOther) (map fst (added k lines))).
  { unfold added. rewrite !map_app, !Forall_app. split_and!; match goal with |- context[if ?b then _ else _] => destruct b end; by repeat constructor. }
  revert Ho. induction H as [|x l xs L (_ & Hx & _) _ IH]; [done|]. intros [Hne Ho]%Forall_cons. cbn [List.filter].
  unfold foreign at 1. rewrite bool_decide_eq_false_2 by congruence. cbn [andb]. auto.
Qed.

Lemma foreign_new line : on_line line → named line →
  List.filter foreign [new_line k line] = List.filter foreign [line].
Proof.
  intros Hl Hn. destruct (new_line_kind k Hk line Hl Hn) as (_ & Hx & _). cbn [List.filter]. unfold foreign. rewrite Hx.
  destruct (kind_of line) eqn:E; cbn [new_kind]; try (by rewrite !bool_decide_eq_false_2 by done).
  - unfold new_line. rewrite E. rewrite (bool_decide_eq_false_2 (KTls = KOther)) by done.
    destruct (k_use_ta k); [by rewrite bool_decide_eq_false_2|by rewrite str_eqb_refl, andb_false_r].
  - unfold new_line. rewrite E. destruct (is_port line) eqn:Ep; [by rewrite !andb_false_r|by rewrite Ep].
Qed.

Lemma foreign_kept lines : Forall on_line lines → Forall named lines →
  List.filter foreign (conf_lines (join Uci.newline (new_lines k lines))) = List.filter foreign lines.
Proof.
  intros Hl Hn. rewrite foreign_joined by (by apply new_lines_read). rewrite new_lines_added, List.filter_app, added_not_foreign. cbn [app].
  induction lines as [|l lines IH]; [done|]. inversion Hl; inversion Hn; subst. cbn [map].
  change (new_line k l :: map (new_line k) lines) with ([new_line k l] ++ map (new_line k) lines).
  change (l :: lines) with ([l] ++ lines). rewrite !List.filter_app, foreign_new, IH by done. done.
Qed.

End other_lines.

(** ** The boxes of the ciphers *)
Section ciphers.
Context (prefix : jstr).

Lemma cipher_boxes_spec f d n id : id ∈ cipher_boxes f d prefix n →
  (∃ m, n <= m ∧ id = cipher_id prefix m) ∧ is_Some (elements d !! id).
Proof.
  revert n. induction f as [|f IH]; intros n; cbn [cipher_boxes]; [by intros ?%not_elem_of_nil|].
  unfold getElementById. destruct (elements d !! cipher_id prefix n) eqn:E; [|by intros ?%not_elem_of_nil].
  intros [->|H]%elem_of_cons; [split; [by exists n|by eexists]|]. apply IH in H as [(m & Hm & ->) He]. split; [exists m; split; [lia|done]|done].
Qed.

Lemma all_boxes_there d id : id ∈ all_boxes d prefix → is_Some (elements d !! id).
Proof. by intros [_ ?]%cipher_boxes_spec. Qed.

Lemma cipher_id_inj a b : 0 <= a → 0 <= b → cipher_id prefix a = cipher_id prefix b → a = b.
Proof. intros Ha Hb E. unfold cipher_id in E. do 3 apply app_inv_head in E. by apply str_of_Z_inj. Qed.

Lemma cipher_boxes_nodup f d n : 0 <= n → NoDup (cipher_boxes f d prefix n).
Proof.
  revert n. induction f as [|f IH]; intros n Hn; cbn [cipher_boxes]; [constructor|].
  destruct (getElementById d (cipher_id prefix n)); [|constructor]. constructor; [|apply IH; lia].
  intros ((m & Hm & E) & _)%cipher_boxes_spec. apply cipher_id_inj in E; lia.
Qed.

Lemma cipher_boxes_dom f d d' n : dom (elements d) = dom (elements d') → cipher_boxes f d prefix n = cipher_boxes f d' prefix n.
Proof.
  intros Hd. revert n. induction f as [|f IH]; intros n; [done|]. cbn [cipher_boxes]. rewrite IH. unfold getElementById.
  assert (E : is_Some (elements d !! cipher_id prefix n) ↔ is_Some (elements d' !! cipher_id prefix n)).
  { by rewrite <- !elem_of_dom, Hd. }
  destruct (elements d !! _), (elements d' !! _); try done; by destruct (proj1 E ltac:(by eexists)) || by destruct (proj2 E ltac:(by eexists)).
Qed.

Lemma all_boxes_dom d d' : dom (elements d) = dom (elements d') → all_boxes d prefix = all_boxes d' prefix.
Proof.
  intros Hd. unfold all_boxes. rewrite <- (size_dom (elements d)), <- (size_dom (elements d')), Hd. by apply cipher_boxes_dom.
Qed.

(** The loops end at a number without a box. *)
Lemma all_boxes_end d : getElementById d (cipher_id prefix (1 + Z.of_nat (length (all_boxes d prefix)))) = None.
Proof.
  assert (H : ∀ f n, (length (cipher_boxes f d prefix n) < f)%nat →
    getElementById d (cipher_id prefix (n + Z.of_nat (length (cipher_boxes f d prefix n)))) = None).
  { induction f as [|f IH]; intros n Hf; [simpl in Hf; lia|]. cbn [cipher_boxes] in *.
    destruct (getElementById d (cipher_id prefix n)) eqn:E; [|by rewrite Z.add_0_r]. cbn [length] in *.
    rewrite <- (IH (n + 1)) by lia. do 2 f_equal. lia. }
  apply H. unfold all_boxes. set (B := cipher_boxes _ _ _ _). rewrite <- (size_dom (elements d)).
  rewrite <- (size_list_to_set (C := gset jstr) B) by (apply cipher_boxes_nodup; lia).
  apply Nat.lt_succ_r, subseteq_size. intros id. rewrite elem_of_list_to_set, elem_of_dom. intros [_ ?]%cipher_boxes_spec. done.
Qed.

Definition box_values (es : list element) : list jstr := map value (List.filter e_checked es).
Definition cipher_text (l : list jstr) : jstr := match l with [] => default_cipher | _ => join (js ":") l end.
Definition boxes (d : document) : list element := omap (λ id, elements d !! id) (all_boxes d prefix).

Lemma get_ciphers_spec d : getSelectedCiphers d prefix = Ret (cipher_text (box_values (boxes d))).
Proof.
  unfold getSelectedCiphers, boxes. assert (H : ∀ B l, (∀ id, id ∈ B → is_Some (elements d !! id)) →
    exn_fold (λ l id, let! e := el d id in Ret (if e_checked e then l ++ [value e] else l)) B l =
    Ret (l ++ box_values (omap (λ id, elements d !! id) B))).
  { induction B as [|id B IH]; intros l HB; [by rewrite app_nil_r|]. cbn [exn_fold omap list_omap].
    destruct (HB id) as [e He]; [by left|]. unfold el, getElementById at 1. rewrite He. cbn [exn_of_option exn_bind].
    rewrite IH by (intros; apply HB; by right). unfold box_values. cbn [List.filter]. destruct (e_checked e); [|done].
    cbn [map]. by rewrite <- app_assoc. }
  rewrite H by apply all_boxes_there. cbn [exn_bind]. done.
Qed.

Definition mark (ciphers : list jstr) (e : element) : element := set_checked (bool_decide (value e ∈ ciphers)) e.

Lemma set_ciphers_spec d s : ∃ d', setSelectedCiphers d s prefix = Ret d' ∧
  ∀ id, elements d' !! id = if bool_decide (id ∈ all_boxes d prefix) then mark (split_char 58 s) <$> elements d !! id else elements d !! id.
Proof.
  unfold setSelectedCiphers. pose proof (cipher_boxes_nodup (S (size (elements d))) d 1 ltac:(lia)) as Hnd.
  assert (HB : ∀ id, id ∈ all_boxes d prefix → is_Some (elements d !! id)) by apply all_boxes_there.
  fold (all_boxes d prefix) in Hnd. revert Hnd HB. generalize (all_boxes d prefix). intros B. revert d.
  induction B as [|id B IH]; intros d Hnd HB; [by exists d|]. inversion Hnd; subst.
  destruct (HB id) as [e He]; [by left|]. cbn [exn_fold]. unfold update at 1, el, getElementById. rewrite He. cbn [exn_of_option exn_bind].
  destruct (IH (put d id (mark (split_char 58 s) e))) as (d' & E & Hd').
  - done.
  - intros id' Hid'. cbn. rewrite lookup_insert_is_Some. destruct (decide (id = id')); [by left|]. right. split; [done|]. apply HB. by right.
  - exists d'. split; [exact E|]. intros id'. rewrite Hd'. cbn. destruct (decide (id' = id)) as [->|Hne].
    + rewrite bool_decide_eq_false_2 by done. rewrite bool_decide_eq_true_2 by (by left). by rewrite lookup_insert_eq, He.
    + rewrite lookup_insert_ne by done. replace (bool_decide (id' ∈ id :: B)) with (bool_decide (id' ∈ B)); [done|].
      apply bool_decide_ext. rewrite elem_of_cons. split; [by right|by intros [?|?]].
Qed.

End ciphers.

Section marks.

Lemma nodup_map_inj {A B} (f : A → B) l x y : NoDup (map f l) → x ∈ l → y ∈ l → f x = f y → x = y.
Proof.
  induction l as [|a l IH]; [by intros _ ?%not_elem_of_nil|]. cbn [map]. rewrite NoDup_cons, !elem_of_cons. intros [Ha Hn] Hx Hy E.
  assert (Hin : ∀ z, z ∈ l → f z ∈ map f l) by (intros z Hz; by apply list_elem_of_fmap_2).
  destruct Hx as [->|Hx], Hy as [->|Hy]; [done| | |by apply IH]; exfalso; apply Ha; [rewrite E|rewrite <- E]; by apply Hin.
Qed.

Lemma marked_values l es : box_values (map (mark l) es) = map value (List.filter (λ e, bool_decide (value e ∈ l)) es).
Proof.
  unfold box_values. induction es as [|e es IH]; [done|]. cbn [map List.filter].
  change (e_checked (mark l e)) with (bool_decide (value e ∈ l)). destruct (bool_decide (value e ∈ l)); [|done].
  cbn [map]. by rewrite IH.
Qed.

Lemma checked_again es : NoDup (map value es) →
  List.filter (λ e, bool_decide (value e ∈ box_values es)) es = List.filter e_checked es.
Proof.
  intros Hn. apply filter_ext_mem. intros e He. apply eq_true_iff_eq. rewrite bool_decide_eq_true. unfold box_values.
  rewrite list_elem_of_fmap. split.
  - intros (e' & Ev & He'). rewrite list_elem_of_In, filter_In, <- list_elem_of_In in He'.
    destruct He' as [He' Hc]. by rewrite (nodup_map_inj value es e e').
  - intros Hc. exists e. split; [done|]. by rewrite list_elem_of_In, filter_In, <- list_elem_of_In.
Qed.

Lemma one_cipher c es : NoDup (map value es) →
  let l := map value (List.filter (λ e, bool_decide (value e ∈ [c])) es) in l = [] ∨ l = [c].
Proof.
  intros Hn l. assert (Hl : NoDup l).
  { eapply sublist_NoDup; [exact Hn|]. unfold l. clear. induction es as [|e es IH]; [constructor|]. cbn [List.filter map].
    destruct (bool_decide _); cbn [map]; by constructor. }
  assert (Hc : Forall (λ x, x = c) l).
  { unfold l. apply Forall_map, Forall_forall. intros e. rewrite list_elem_of_In, filter_In, bool_decide_eq_true, list_elem_of_singleton. by intros [_ ?]. }
  destruct Hc as [|x xs -> Hxs]; [by left|]. right. destruct Hxs as [|y ys -> _]; [done|]. inversion Hl as [|? ? Hx _]. exfalso. apply Hx. by left.
Qed.

(** The text of the checked boxes checks the same ciphers again. *)
Lemma marks_back es : NoDup (map value es) → Forall (λ e, 58 ∉ value e) es →
  cipher_text (box_values (map (mark (split_char 58 (cipher_text (box_values es)))) es)) = cipher_text (box_values es).
Proof.
  intros Hn Hv. rewrite marked_values. destruct (box_values es) as [|v vs] eqn:E.
  - change (split_char 58 (cipher_text [])) with [default_cipher]. by destruct (one_cipher default_cipher es Hn) as [-> | ->].
  - change (cipher_text (v :: vs)) with (join [58] (v :: vs)). rewrite split_char_join; [|done|].
    + rewrite <- E, checked_again by done. change (map value (List.filter e_checked es)) with (box_values es). rewrite E. reflexivity.
    + rewrite <- E. unfold box_values. apply Forall_map, Forall_forall. intros e He. rewrite list_elem_of_In, filter_In, <- list_elem_of_In in He.
      rewrite Forall_forall in Hv. by apply Hv, He.
Qed.

End marks.

(** ** The page *)
Definition at_ (d : document) (id : string) (P : element → Prop) : Prop := ∃ e, elements d !! client id = Some e ∧ P e.

(** The page of a client: its fields and lists are there, the texts of the remote
    host and of its port are parts of a line, the boxes have different ciphers. *)
Record client_page (d : document) : Prop := {
  cp_text : at_ d "conf_text" (λ e, is_select e = false ∧ Forall named (conf_lines (value e)));
  cp_remote : at_ d "remote" (λ e, is_select e = false ∧ token (value e));
  cp_port : at_ d "port" (λ e, is_select e = false ∧ token (value e));
  cp_proto : at_ d "protocol" (λ e, select_ok e ∧ (value e = js "udp" ∨ value e = js "tcp"));
  cp_direction : at_ d "ta_direction" (λ e, select_ok e ∧ (value e = js "1" ∨ value e = js "omitted"));
  cp_use : at_ d "use_ta_key_text" (λ _, True);
  cp_key : at_ d "ta_key_text" (λ _, True);
  cp_boxes : Forall (λ e, token (value e) ∧ 58 ∉ value e) (boxes (js "client") d);
  cp_distinct : NoDup (map value (boxes (js "client") d))
}.

Section page.
Context (UI : jstr → jstr).

Lemma set_value_same e : is_select e = false → set_value (value e) e = e.
Proof. intros H. unfold set_value, value. rewrite H. by destruct e. Qed.

Lemma put_same d id e : elements d !! id = Some e → put d id e = d.
Proof. intros H. unfold put. rewrite insert_id by done. by destruct d. Qed.

Lemma select_again v e : select_ok e → value e = v → v ≠ [] → select_ok (select_first (λ o, o_value o =s v) e) ∧
  value (select_first (λ o, o_value o =s v) e) = v.
Proof.
  intros Hok Hv Hne. destruct (select_first_ok (λ o, o_value o =s v) e Hok) as [Hok' Ho]. split; [done|].
  assert (Hopt : e_options e ≠ []).
  { intros E. apply Hne. rewrite <- Hv. unfold value, selected_option. rewrite (proj1 Hok), E. by destruct (0 <=? e_selectedIndex e). }
  destruct (selected_value e Hok Hopt) as (o & Hs & Hin).
  assert (Hov : o_value o = v) by (rewrite <- Hv; unfold value; by rewrite (proj1 Hok), Hs).
  unfold select_first. destruct (find_option (λ o, o_value o =s v) (e_options e) 0) as [i|] eqn:E.
  - apply find_option_Some in E as (o' & Hi & Hl & Hp & _). unfold value. change (is_select (set_selectedIndex i e)) with (is_select e).
    rewrite (proj1 Hok). unfold selected_option. change (e_selectedIndex (set_selectedIndex i e)) with i.
    change (e_options (set_selectedIndex i e)) with (e_options e). rewrite (proj2 (Z.leb_le 0 i)) by lia.
    rewrite Z.sub_0_r in Hl. rewrite Hl. by apply str_eqb_eq in Hp.
  - apply find_option_None in E. rewrite Forall_forall in E. specialize (E o Hin). cbn beta in E. by rewrite Hov, str_eqb_refl in E.
Qed.

(** The controls as the elements show them. *)
Lemma read_controls_spec d e1 e2 e3 e4 e5 :
  elements d !! client "remote" = Some e1 → elements d !! client "port" = Some e2 →
  elements d !! client "protocol" = Some e3 → select_ok e3 → elements d !! client "ta_direction" = Some e4 → select_ok e4 →
  elements d !! client "use_ta_key_text" = Some e5 →
  read_controls UI d = Ret (mkControls (value e1) (value e2) (value e3) (cipher_text (box_values (boxes (js "client") d)))
    (if bool_decide (Some (value e4) = Some (js "1")) then js " 1" else []) (e_checked e5), d).
Proof.
  intros H1 H2 H3 O3 H4 O4 H5. unfold read_controls. unfold el, getElementById at 1 2. rewrite H1, H2. cbn [exn_of_option exn_bind].
  rewrite (getSelectedValue_ok UI d _ e3) by done. cbn [exn_bind snd fst]. rewrite get_ciphers_spec. cbn [exn_bind].
  rewrite (getSelectedValue_ok UI d _ e4) by done. cbn [exn_bind snd fst]. unfold getElementById. rewrite H5. done.
Qed.


Definition ids : list string := ["conf_text"; "remote"; "port"; "protocol"; "ta_direction"; "use_ta_key_text"; "ta_key_text"].

Lemma not_box d s : In s ids → client s ∉ all_boxes d (js "client").
Proof.
  intros Hs ((m & _ & E) & _)%cipher_boxes_spec. apply (f_equal (λ l : jstr, l !! 16%nat)) in E.
  cbn [ids In] in Hs. repeat destruct Hs as [<-|Hs]; [vm_compute in E; discriminate E..|done].
Qed.

(** A change of elements that are not boxes. *)
Definition aside (d d' : document) : Prop :=
  dom (elements d) = dom (elements d') ∧ ∀ id, (∀ s, In s ids → id ≠ client s) → elements d' !! id = elements d !! id.

Lemma aside_same d : aside d d.
Proof. done. Qed.

Lemma aside_put d d' s e e' : aside d d' → In s ids → elements d' !! client s = Some e → aside d (put d' (client s) e').
Proof.
  intros [Hd Ha] Hs He. split.
  - cbn. rewrite dom_insert_L, <- Hd. rewrite subseteq_union_1_L; [done|]. apply singleton_subseteq_l. rewrite Hd. by apply elem_of_dom_2 in He.
  - intros id Hid. cbn. rewrite lookup_insert_ne by (intros <-; by apply (Hid s)). by apply Ha.
Qed.

Lemma boxes_aside d d' : aside d d' → boxes (js "client") d' = boxes (js "client") d.
Proof.
  intros [Hd Ha]. unfold boxes. rewrite <- (all_boxes_dom _ d d' Hd). assert (Hb : ∀ id, id ∈ all_boxes d (js "client") → elements d' !! id = elements d !! id).
  { intros id Hid. apply Ha. intros s Hs ->. by apply (not_box d s). }
  revert Hb. generalize (all_boxes d (js "client")). intros B Hb. induction B as [|id B IH]; [done|]. cbn [omap list_omap].
  rewrite Hb by (by left). rewrite IH by (intros; apply Hb; by right). done.
Qed.

Lemma join_token l : l ≠ [] → Forall token l → token (join (js ":") l).
Proof.
  intros Hne Hl. destruct Hl as [|w l Hw Hl]; [done|]. clear Hne. revert w Hw. induction Hl as [|w' l Hw' Hl IH]; intros w Hw; [done|].
  change (join (js ":") (w :: w' :: l)) with (w ++ [58] ++ join (js ":") (w' :: l)). destruct (IH w' Hw') as (_ & Ho & Hb), Hw as (Hw1 & Hw2 & Hw3).
  split; [by destruct w|]. split; [apply Forall_app; split; [done|by constructor]|]. apply Forall_app. split; [done|]. by constructor.
Qed.

Lemma cipher_token es : Forall (λ e, token (value e) ∧ 58 ∉ value e) es → token (cipher_text (box_values es)).
Proof.
  intros H. unfold cipher_text. destruct (box_values es) eqn:E; [by apply token_literal|]. rewrite <- E. apply join_token; [by rewrite E|].
  unfold box_values. apply Forall_map, Forall_forall. intros e He. rewrite list_elem_of_In, filter_In, <- list_elem_of_In in He.
  rewrite Forall_forall in H. by apply H, He.
Qed.

(** Enabling a list keeps its value. *)
Lemma select_not_text e : is_select e = true → is_text e = false.
Proof.
  unfold is_text, is_select. intros Hs. destruct (e_type e =s js "text") eqn:E1; [apply str_eqb_eq in E1; rewrite E1 in Hs; discriminate Hs|].
  destruct (e_type e =s js "textarea") eqn:E2; [apply str_eqb_eq in E2; rewrite E2 in Hs; discriminate Hs|]. done.
Qed.

Definition enabled_el (e : element) : element :=
  let e := set_disabled false e in
  if is_text e then set_class (js "form-control") (set_color [] e)
  else if is_select e then set_class (js "form-control") e
  else if e_type e =s js "button" then set_class (Table.class_remove (js "disabled") (e_class e)) e
  else e.

Lemma enabled_select e v : select_ok e → value e = v → select_ok (enabled_el e) ∧ value (enabled_el e) = v.
Proof.
  intros Hok <-. unfold enabled_el. cbv zeta. change (is_text (set_disabled false e)) with (is_text e).
  change (is_select (set_disabled false e)) with (is_select e). by rewrite (select_not_text e (proj1 Hok)), (proj1 Hok).
Qed.

(** A document that shows controls. *)
Definition field_ok (k : controls) (s : string) (e : element) : Prop :=
  (s = "remote"%string → is_select e = false ∧ value e = k_remote k) ∧
  (s = "port"%string → is_select e = false ∧ value e = k_port k) ∧
  (s = "protocol"%string → select_ok e ∧ value e = k_proto k) ∧
  (s = "ta_direction"%string → select_ok e ∧ value e = if k_ta k =s js " 1" then js "1" else js "omitted") ∧
  (s = "use_ta_key_text"%string → e_checked e = k_use_ta k).

Record shows (d : document) (k : controls) : Prop := {
  sh_fields : ∀ s, In s ids → at_ d s (field_ok k s);
  sh_cipher : cipher_text (box_values (boxes (js "client") d)) = k_cipher k;
  sh_marks : NoDup (map value (boxes (js "client") d)) ∧ Forall (λ e, 58 ∉ value e) (boxes (js "client") d)
}.

Lemma shows_read d k : controls_ok k → shows d k → read_controls UI d = Ret (k, d).
Proof.
  intros Hk Hs. destruct (sh_fields _ _ Hs "remote") as (e1 & H1 & F1 & _); [by cbn; auto|].
  destruct (sh_fields _ _ Hs "port") as (e2 & H2 & _ & F2 & _); [by cbn; auto|].
  destruct (sh_fields _ _ Hs "protocol") as (e3 & H3 & _ & _ & F3 & _); [by cbn; auto|].
  destruct (sh_fields _ _ Hs "ta_direction") as (e4 & H4 & _ & _ & _ & F4 & _); [by cbn; auto 10|].
  destruct (sh_fields _ _ Hs "use_ta_key_text") as (e5 & H5 & _ & _ & _ & _ & F5); [by cbn; auto 10|].
  destruct F1 as [_ F1], F2 as [_ F2], F3 as [O3 F3], F4 as [O4 F4]; [done..|]. specialize (F5 eq_refl).
  rewrite (read_controls_spec d e1 e2 e3 e4 e5) by done. rewrite F1, F2, F3, F4, F5, (sh_cipher _ _ Hs).
  destruct k as [r p pr c ta use]. cbn in *. do 3 f_equal. destruct (ok_ta _ Hk) as [E|E]; cbn in E; subst ta; reflexivity.
Qed.

Lemma client_inj s s' : client s = client s' → In s ids → In s' ids → s = s'.
Proof.
  intros E Hs Hs'. cbn [ids In] in *.
  repeat destruct Hs as [<-|Hs]; repeat destruct Hs' as [<-|Hs']; try done; vm_compute in E; discriminate E.
Qed.

Lemma shows_put d k s e : shows d k → In s ids → field_ok k s e → shows (put d (client s) e) k.
Proof.
  intros Hs Hin He. destruct (sh_fields _ _ Hs s Hin) as (e0 & H0 & _).
  assert (Hb : boxes (js "client") (put d (client s) e) = boxes (js "client") d).
  { apply boxes_aside. by eapply aside_put; [apply aside_same|..]. }
  split; [|by rewrite Hb; apply Hs..]. intros s' Hin'. destruct (decide (s' = s)) as [->|Hne].
  - exists e. split; [|done]. cbn. by rewrite lookup_insert_eq.
  - destruct (sh_fields _ _ Hs s' Hin') as (e' & H' & F'). exists e'. split; [|done]. cbn.
    rewrite lookup_insert_ne; [done|]. intros E. by apply Hne, client_inj.
Qed.

(** What a step of the reading keeps. *)
Definition keeps (k : controls) (d : document) (r : exn document) : Prop :=
  ∃ d', r = Ret d' ∧ shows d' k ∧ elements d' !! client "conf_text" = elements d !! client "conf_text".

Lemma keeps_bind k d r f : keeps k d r → (∀ d', shows d' k → keeps k d' (f d')) → keeps k d (exn_bind r f).
Proof.
  intros (d' & -> & Hs & Ht) Hf. destruct (Hf d' Hs) as (d'' & E & Hs' & Ht'). exists d''. split; [exact E|]. split; [done|]. by rewrite Ht'.
Qed.

Lemma keeps_field k d s e : shows d k → In s ids → s ≠ "conf_text"%string → field_ok k s e → keeps k d (Ret (put d (client s) e)).
Proof.
  intros Hs Hin Hne He. eexists. split; [done|]. split; [by apply shows_put|]. cbn. rewrite lookup_insert_ne; [done|].
  intros E. apply Hne, client_inj; [done..|]. by left.
Qed.

Lemma keeps_update k d s f : shows d k → In s ids → s ≠ "conf_text"%string → (∀ e, field_ok k s e → field_ok k s (f e)) →
  keeps k d (update d (client s) f).
Proof.
  intros Hs Hin Hne Hf. destruct (sh_fields _ _ Hs s Hin) as (e & He & F). rewrite (update_put d _ e) by done. apply keeps_field; auto.
Qed.

Lemma keeps_set_value k d s v : shows d k → (s = "remote"%string ∧ v = k_remote k ∨ s = "port"%string ∧ v = k_port k) →
  keeps k d (update d (client s) (set_value v)).
Proof.
  intros Hs Hv. assert (E : ∀ e, is_select e = false → is_select (set_value v e) = false ∧ value (set_value v e) = v).
  { intros e H. unfold set_value, value. rewrite H. change (is_select (set_text_value v e)) with (is_select e). by rewrite H. }
  apply keeps_update; [done|by destruct Hv as [[-> _]|[-> _]]; cbn; auto|by destruct Hv as [[-> _]|[-> _]]|].
  intros e (F1 & F2 & F3 & F4 & F5). destruct Hv as [[-> ->]|[-> ->]]; split_and!; try done; intros _; apply E; first [by apply F1|by apply F2].
Qed.

Lemma keeps_select k d s v : shows d k → v ≠ [] →
  (s = "protocol"%string ∧ v = k_proto k ∨ s = "ta_direction"%string ∧ v = if k_ta k =s js " 1" then js "1" else js "omitted") →
  keeps k d (setSelectedValue d (client s) v).
Proof.
  intros Hs Hne Hv. apply keeps_update; [done|by destruct Hv as [[-> _]|[-> _]]; cbn; auto 10|by destruct Hv as [[-> _]|[-> _]]|].
  intros e (F1 & F2 & F3 & F4 & F5). destruct Hv as [[-> ->]|[-> ->]]; split_and!; try done; intros _.
  - destruct F3 as [Ho Hv]; [done|]. by apply select_again.
  - destruct F4 as [Ho Hv]; [done|]. by apply select_again.
Qed.

Lemma mark_boxes d d' l B : (∀ id, id ∈ B → elements d' !! id = mark l <$> elements d !! id) →
  omap (λ id, elements d' !! id) B = map (mark l) (omap (λ id, elements d !! id) B).
Proof.
  induction B as [|id B IH]; intros H; [done|]. cbn [omap list_omap]. rewrite H by (by left). rewrite IH by (intros; apply H; by right).
  by destruct (elements d !! id).
Qed.

Lemma keeps_ciphers k d : shows d k → keeps k d (setSelectedCiphers d (k_cipher k) (js "client")).
Proof.
  intros Hs. destruct (set_ciphers_spec (js "client") d (k_cipher k)) as (d' & -> & Hd'). exists d'. split; [done|].
  assert (Hc : ∀ s, In s ids → elements d' !! client s = elements d !! client s).
  { intros s Hin. rewrite Hd'. rewrite bool_decide_eq_false_2 by (by apply not_box). done. }
  assert (Hb : boxes (js "client") d' = map (mark (split_char 58 (k_cipher k))) (boxes (js "client") d)).
  { unfold boxes. rewrite <- (all_boxes_dom _ d d').
    - apply mark_boxes. intros id Hid. rewrite Hd'. by rewrite bool_decide_eq_true_2.
    - apply set_eq. intros id. rewrite !elem_of_dom, Hd'. case_bool_decide; [by rewrite fmap_is_Some|done]. }
  split; [|apply Hc; by left]. split.
  - intros s Hin. destruct (sh_fields _ _ Hs s Hin) as (e & He & F). exists e. by rewrite Hc.
  - rewrite Hb, <- (sh_cipher _ _ Hs). apply marks_back; apply Hs.
  - rewrite Hb, map_map. destruct (sh_marks _ _ Hs) as [H1 H2]. split; [exact H1|]. by apply Forall_map.
Qed.

Lemma keeps_enable k d s v : shows d k → k_use_ta k = true → s = "ta_key_text"%string ∨ s = "ta_direction"%string →
  keeps k d (enableAssociatedField d (client "use_ta_key_text") (client s) v).
Proof.
  intros Hs Hu Hid. unfold enableAssociatedField. destruct (sh_fields _ _ Hs "use_ta_key_text") as (e & He & _ & _ & _ & _ & F); [by cbn; auto 10|].
  unfold el, getElementById. rewrite He. cbn [exn_of_option exn_bind]. rewrite (F eq_refl), Hu. destruct Hid as [-> | ->].
  - apply keeps_update; [done|by cbn; auto 10|done|]. intros e' _. by split_and!.
  - apply keeps_update; [done|by cbn; auto 10|done|]. intros e' (_ & _ & _ & F' & _). split_and!; try done. intros _.
    destruct (F' eq_refl) as [Ho Hv]. by apply enabled_select.
Qed.

Lemma keeps_shown k d c : controls_ok k → shows d k →
  c_remote c = Some (k_remote k) → c_port c = Some (k_port k) → c_proto c = Some (k_proto k) →
  (c_cipher c = None ∨ c_cipher c = Some (k_cipher k)) → c_ta c = (if k_use_ta k then Some (ta_text k) else None) →
  keeps k d (show_conf d c).
Proof.
  intros Hk Hs E1 E2 E3 E4 E5. unfold show_conf. rewrite E1, E2, E3, E5. cbn [show_opt].
  apply keeps_bind; [apply keeps_set_value; auto|]. clear d Hs. intros d Hs.
  apply keeps_bind; [apply keeps_set_value; auto|]. clear d Hs. intros d Hs.
  apply keeps_bind; [apply keeps_select; [done| |by auto]; by destruct (ok_proto k Hk) as [-> | ->]|]. clear d Hs. intros d Hs.
  apply keeps_bind; [destruct E4 as [-> | ->]; [by exists d|by apply keeps_ciphers]|]. clear d Hs. intros d Hs.
  apply keeps_bind.
  - destruct (k_use_ta k) eqn:Hu; [|by exists d]. cbn [show_opt].
    replace (if ta_text k =s js "1" then js "1" else js "omitted") with (if k_ta k =s js " 1" then js "1" else js "omitted").
    2:{ unfold ta_text. by destruct (k_ta k =s js " 1"). }
    apply keeps_bind; [apply keeps_select; [done|by destruct (_ =s _)|by auto]|]. clear d Hs. intros d Hs.
    apply keeps_bind; [apply keeps_update; [done|by cbn; auto 10|done|intros e _; unfold field_ok; rewrite Hu; by split_and!]|]. clear d Hs. intros d Hs.
    apply keeps_bind; [apply keeps_enable; auto|]. clear d Hs. intros d Hs. apply keeps_enable; auto.
  - clear d Hs. intros d Hs. apply keeps_update; [done|by cbn; auto 10|done|]. intros e (_ & F & _). by split_and!.
Qed.

(** The controls of a page. *)
Lemma page_shows d : client_page d → ∃ k e, controls_ok k ∧ shows d k ∧ elements d !! client "conf_text" = Some e ∧
  is_select e = false ∧ Forall named (conf_lines (value e)).
Proof.
  intros [(e0 & H0 & S0 & N0) (e1 & H1 & S1 & T1) (e2 & H2 & S2 & T2) (e3 & H3 & S3 & T3) (e4 & H4 & S4 & T4) (e5 & H5 & _) (e6 & H6 & _) Hb Hd].
  exists (mkControls (value e1) (value e2) (value e3) (cipher_text (box_values (boxes (js "client") d)))
    (if value e4 =s js "1" then js " 1" else []) (e_checked e5)), e0.
  split_and!; [|split|done..].
  - split; [done|done|by apply cipher_token|done|]. cbn [k_ta]. destruct (value e4 =s js "1"); [by right|by left].
  - intros s Hs. cbn [ids In] in Hs. repeat destruct Hs as [<-|Hs]; [..|done]; eexists; (split; [eassumption|]); split_and!; try done.
    intros _. split; [done|]. by destruct T4 as [-> | ->].
  - done.
  - split; [done|]. eapply Forall_impl; [exact Hb|]. by intros ? [_ ?].
Qed.

End page.

(** C24: The controls of an OpenVPN client and its configuration text agree.  On a page whose
    fields are there, whose remote host and port are single parts of a line, whose cipher boxes
    have different texts, and whose configuration text has no directive tls-auth that ends in
    blanks instead of a file: [updateClientConfigTextFromControls] rewrites the text, and
    [updateClientControlsFromConfigText] on the new text leaves controls that are read
    ([read_controls]) as before - the host, the port, the protocol, the list of ciphers, where no
    checked box is read as AES-256-GCM, the use of the TLS key and its direction; and the lines
    of directives without a control stay in the text, in their order. *)
Theorem client_text_roundtrip UI d : client_page d → ∃ k d1 d2 text text2,
  read_controls UI d = Ret (k, d) ∧
  updateClientConfigTextFromControls UI d = Ret d1 ∧ updateClientControlsFromConfigText d1 = Ret d2 ∧
  read_controls UI d2 = Ret (k, d2) ∧
  value <$> elements d !! client "conf_text" = Some text ∧ value <$> elements d2 !! client "conf_text" = Some text2 ∧
  List.filter foreign (conf_lines text2) = List.filter foreign (conf_lines text).
Proof.
  intros (k & e & Hk & Hs & He & Hsel & Hn)%page_shows. pose proof (shows_read UI d k Hk Hs) as Hr.
  set (lines := conf_lines (value e)). assert (Hl : Forall on_line lines) by (unfold lines; rewrite conf_lines_cut; apply cut_outside).
  destruct (new_lines_read k Hk lines Hl Hn) as [Ho Hc]. set (text2 := join Uci.newline (new_lines k lines)).
  set (e' := set_value text2 e). assert (Hv : value e' = text2).
  { unfold e', set_value. rewrite Hsel. unfold value. change (is_select (set_text_value text2 e)) with (is_select e). by rewrite Hsel. }
  assert (Hs1 : shows (put d (client "conf_text") e') k) by (apply shows_put; [done|by left|by split_and!]).
  destruct (keeps_shown k _ (read_conf (conf_lines text2)) Hk Hs1) as (d2 & E2 & Hs2 & Ht);
    try (unfold text2; rewrite read_joined, Hc by done; done || by destruct (_ || _); auto).
  exists k, (put d (client "conf_text") e'), d2, (value e), text2. split_and!.
  - done.
  - unfold updateClientConfigTextFromControls. rewrite Hr. cbn [exn_bind]. unfold el, getElementById. rewrite He. cbn [exn_of_option exn_bind].
    by rewrite (update_put d _ e).
  - unfold updateClientControlsFromConfigText, el, getElementById. cbn [put elements]. rewrite lookup_insert_eq. cbn [exn_of_option exn_bind].
    by rewrite Hv.
  - by apply shows_read.
  - by rewrite He.
  - rewrite Ht. cbn. by rewrite lookup_insert_eq, <- Hv.
  - by apply foreign_kept.
Qed.

(** ** An example *)
Definition text_el (v : jstr) : element := mkEl (js "text") v false false false [] (-1) [] [] [] None.
Definition box_el (v : jstr) (checked : bool) : element := mkEl (js "checkbox") v checked false false [] (-1) [] [] [] None.
Definition list_el (l : list jstr) (i : Z) : element := mkEl (js "select-one") [] false false false (map (λ v, mkOpt v v) l) i [] [] [] None.

Definition old_text : jstr :=
  join Uci.newline [js "client"; js "rport 1195"; js "  Remote old.example.org"; js "TLS-auth my.key 0"; js "verb 3"].

Definition sample_client : document :=
  mkDoc (list_to_map
    [(client "conf_text", text_el old_text); (client "remote", text_el (js "vpn.example.org")); (client "port", text_el (js "1194"));
     (client "protocol", list_el [js "udp"; js "tcp"] 1); (client "ta_direction", list_el [js "1"; js "omitted"] 0);
     (client "use_ta_key_text", box_el (js "on") true); (client "ta_key_text", text_el []);
     (cipher_id (js "client") 1, box_el (js "CHACHA20-POLY1305") true); (cipher_id (js "client") 2, box_el (js "AES-256-GCM") true)]) [].

Lemma client_text_roundtrip_witness : ∃ k d1 d2 text text2,
  read_controls (λ s, s) sample_client = Ret (k, sample_client) ∧
  updateClientConfigTextFromControls (λ s, s) sample_client = Ret d1 ∧ updateClientControlsFromConfigText d1 = Ret d2 ∧
  read_controls (λ s, s) d2 = Ret (k, d2) ∧
  value <$> elements sample_client !! client "conf_text" = Some text ∧ value <$> elements d2 !! client "conf_text" = Some text2 ∧
  List.filter foreign (conf_lines text2) = List.filter foreign (conf_lines text).
Proof.
  apply (client_text_roundtrip (λ s, s) sample_client). split.
  1-5: eexists; split; [vm_compute; reflexivity|]; unfold named, token, on_line, select_ok; by_eval.
  1-2: eexists; split; [vm_compute; reflexivity|done].
  - unfold token, on_line. by_eval.
  - by_eval.
Defined.

(** The text that is written: the line of the port is gone, the others are replaced
    in their places, and what was missing is put before them. *)
Example new_text :
  (value <$> match updateClientConfigTextFromControls (λ s, s) sample_client with Ret d => elements d !! client "conf_text" | Raise _ => None end) =
  Some (join Uci.newline
    [js "proto tcp-client"; js "data-ciphers CHACHA20-POLY1305:AES-256-GCM"; js "client"; []; js "remote vpn.example.org 1194";
     js "TLS-auth my.key 1"; js "verb 3"]).
Proof. vm_compute. reflexivity. Qed.

(** The directives [rport] and [port] are read at the wrong part: the port of such a
    line is not shown. *)
Theorem rport_not_read : c_port (read_conf [js "remote vpn.example.org"; js "rport 1195"]) = None ∧
  c_port (read_conf [js "remote vpn.example.org 1195"]) = Some (js "1195").
Proof. split; vm_compute; reflexivity. Qed.

(** A [tls-auth] line that ends with a blank and names no file loses its direction. *)
Theorem unnamed_key_loses_direction :
  let k := mkControls (js "h") (js "1194") (js "udp") (js "AES-256-GCM") (js " 1") true in
  c_ta (read_conf (conf_lines (join Uci.newline (new_lines k [js "tls-auth "])))) = Some [].
Proof. vm_compute. reflexivity. Qed.
