(* ===== verification/OvpnPage.v ===== *)
(** * The page of OpenVPN (openvpn.js)

    The server and the clients it allows: validation and saving with the zones of the
    firewall, loading, the table of clients and its window.  A row of the table shows
    a name, a container of three spans (no address; address and subnet; gateway), of
    which some are visible, a box and three buttons.

    What the back end prints into the page (the addresses of the router, the state of
    the daemon, the files of the client, the certificates) and the texts of the
    language pack are parameters; so are the local time of the browser and the answer
    of the user to a question.  The loops that search a free name or address take
    their fuel as an argument. *)
From S2P Require Import Prelude JsNum JsString JsRegex Uci Sections Ip4 Validate Text Table TableEdit Dom Modal Ports Vpn OpenVpn VpnText Ddns.
Import Uci Sections Validate Table TableEdit Dom Modal Ports Vpn OpenVpn VpnText.
Open Scope Z_scope.

(** A row of the table of clients; [or_shown] are the displays of the three spans. *)
Record ov_row := mkOvRow {
  or_id : jstr; or_name : jstr; or_ip : jstr; or_subnet : jstr; or_gateway : jstr;
  or_shown : list jstr; or_enabled : bool; or_download : bool
}.

Record ovpn_page := mkOvpn { ov_vpn : vpn_page; ov_rows : list ov_row }.

Module OvpnPage.

Definition with_vpn (p : ovpn_page) (v : vpn_page) : ovpn_page := mkOvpn v (ov_rows p).
Definition with_rows (p : ovpn_page) (l : list ov_row) : ovpn_page := mkOvpn (ov_vpn p) l.
Definition ov_doc (p : ovpn_page) : document := vp_doc (ov_vpn p).
Definition put_doc (p : ovpn_page) (d : document) : ovpn_page := with_vpn p (with_doc (ov_vpn p) d).

Definition firewall : jstr := js "firewall".
Definition server (s : string) : jstr := js "openvpn_server_" ++ js s.

(** [x == "true" || x == "1"] *)
Definition is_true (s : jstr) : bool := (s =s js "true") || (s =s js "1").

(** ** The zones of the firewall *)
Definition zone_opts : list (jstr * jstr) :=
  [(js "name", js "vpn"); (js "device", js "tun0"); (js "input", js "ACCEPT"); (js "output", js "ACCEPT");
   (js "forward", js "ACCEPT"); (js "mtu_fix", js "1"); (js "masq", js "1")].

Definition forwarding (u : UCIContainer) (section src dest : string) : UCIContainer :=
  write_section firewall u (js section) (js "forwarding") [(js "src", js src); (js "dest", js dest)].

Definition drop_sections (u : UCIContainer) (sections : list jstr) : exn UCIContainer :=
  exn_fold (fun u s => removeSection u firewall s) sections u.

(** [remote]: the port and the protocol of a server, [None] for a client. *)
Definition configureFirewall (u : UCIContainer) (enabled : bool) (remote : option (jstr * jstr)) (subnet_access : bool) : exn UCIContainer :=
  if enabled then
    let u := write_section firewall u (js "vpn_zone") (js "zone") zone_opts in
    let u := forwarding u "vpn_lan_forwarding" "lan" "vpn" in
    let u := forwarding u "lan_vpn_forwarding" "vpn" "lan" in
    match remote with
    | Some (vpnPort, vpnProto) =>
        let u := write_section firewall u (js "ra_openvpn") (js "remote_accept")
                   [(js "zone", js "wan"); (js "local_port", vpnPort); (js "remote_port", vpnPort); (js "proto", vpnProto)] in
        let u := forwarding u "vpn_wan_forwarding" "vpn" "wan" in
        if negb subnet_access then removeSection u firewall (js "lan_vpn_forwarding") else Ret u
    | None => removeSection u firewall (js "vpn_wan_forwarding")
    end
  else drop_sections u [js "vpn_zone"; js "lan_vpn_forwarding"; js "vpn_lan_forwarding"; js "vpn_wan_forwarding"; js "ra_openvpn"].

(** ** The pool of addresses of a certificate that several clients share *)
Definition num_of (n : option num) : num := default (Int 0) n.

Definition server_pool (vpnIp vpnMask : jstr) : jstr :=
  let numericVpnIp := num_of (getNumericIp vpnIp) in
  let mask := int32_of (getNumericMask vpnMask) in
  let minIp := Num.band (int32_of (getNumericIp vpnIp)) mask in
  let maxIp := Num.bor (Num.bnot mask) minIp in
  if Num.ltb (Num.sub numericVpnIp (Int minIp)) (Num.sub (Int maxIp) numericVpnIp)
  then numericIpToStr (Num.add numericVpnIp (Int 1)) ++ js " " ++ numericIpToStr (Num.sub (Int maxIp) (Int 1)) ++ js " " ++ vpnMask
  else numericIpToStr (Num.add (Int minIp) (Int 1)) ++ js " " ++ numericIpToStr (Num.sub numericVpnIp (Int 1)) ++ js " " ++ vpnMask.

Section page.
Context (UI ovpnS : jstr → jstr) (currentLanIp currentLanMask currentWanIp : jstr).
Context (tunIp openvpnProc remotePing : jstr) (haveDh : bool).

(** The value of a list; [None] is [undefined]. *)
Definition selected (d : document) (id : jstr) : exn (option jstr * document) := getSelectedValue UI d id.
Definition selected_true (d : document) (id : jstr) : exn (bool * document) :=
  let! s := selected d id in Ret (is_true (default [] (fst s)), snd s).

(** ** Validation *)
Definition server_fields : list field :=
  [mkField (server "ip") (server "ip_label") validateIP 0 (Some (server "ip"));
   mkField (server "mask") (server "mask_label") validateNetMask 0 (Some (server "mask"));
   mkField (server "port") (server "port_label") validatePort 0 (Some (server "port"))].

(** The port of the server that runs does not conflict with itself. *)
Definition old_ports (orig : UCIContainer) : list (jstr * list jstr) :=
  let oldServerEnabled := toLowerCase (gets orig pkg (js "server") (js "enabled")) in
  if (oldServerEnabled =s js "true") || Num.eqb (toNumber oldServerEnabled) (Int 1)
  then [(gets orig pkg (js "server") (js "proto"), [gets orig pkg (js "server") (js "port")])] else [].

Definition proofread_server (p : vpn_page) (d : document) : exn (list jstr * document) :=
  let! r := proofreadFields UI d server_fields in
  let d := snd r in
  if negb (length (fst r) =? 0)%nat then Ret r
  else
    let! port := el d (server "port") in
    let! proto := selected d (server "protocol") in
    let! conflict := checkForPortConflict UI (vp_orig p) (value port) (default (js "undefined") (fst proto)) (Some (old_ports (vp_orig p))) in
    Ret (if negb (conflict =s []) then [ovpnS (js "SrvPrtErr") ++ js " " ++ conflict] else [], snd proto).

Definition re_tap : re := Eval vm_compute in ignore_case (rx "^[\t ]*dev[\t ]+tap.*$").

Definition proofread_client (d : document) : exn (list jstr) :=
  let! h := hidden d (client "manual_controls") in
  if h then Ret []
  else
    let! remote := el d (client "remote") in
    let! port := el d (client "port") in
    let! conf := el d (client "conf_text") in
    let clientPort := toNumber (value port) in
    Ret ((if value remote =s [] then [ovpnS (js "SrvAddErr")] else [])
         ++ (if Num.ltb clientPort (Int 1) || Num.gtb clientPort (Int 65535) then [ovpnS (js "OPrtErr")] else [])
         ++ (if test re_tap (value conf) then [ovpnS (js "GTAPErr")] else [])).

Definition proofreadAll (p : vpn_page) : exn (list jstr * document) :=
  let! config := selected (vp_doc p) (js "openvpn_config") in
  let d := snd config in
  if bool_decide (fst config = Some (js "server")) then proofread_server p d
  else if bool_decide (fst config = Some (js "client")) then let! errors := proofread_client d in Ret (errors, d)
  else Ret ([], d).

(** ** Saving *)
Definition put_opts (u : UCIContainer) (package section : jstr) (opts : list (jstr * jstr)) : UCIContainer :=
  fold_left (fun u ov => set u package section (fst ov) (UStr (snd ov)) false) opts u.
Definition del_opts (u : UCIContainer) (package section : jstr) (opts : list jstr) : UCIContainer :=
  fold_left (fun u o => fst (remove u package section o)) opts u.

Definition custom (u : UCIContainer) (opts : list (jstr * jstr)) : UCIContainer := put_opts u (js "openvpn") (js "custom_config") opts.

Definition save_disabled (u : UCIContainer) : exn UCIContainer :=
  let! u := configureFirewall u false None false in
  let u := fst (remove u (js "gargoyle") (js "status") (js "openvpn_connections")) in
  let u := put_opts u pkg (js "server") [(js "enabled", js "false")] in
  let u := put_opts u pkg (js "client") [(js "enabled", js "false")] in
  Ret (custom u [(js "enabled", js "0")]).

(** The additional subnets; a list replaces the option that was removed. *)
Definition save_extra (p : vpn_page) (u : UCIContainer) : exn UCIContainer :=
  let! t := exn_of_option TypeError (vp_extra p) in
  let! data := getTableDataArray t true false in
  let! subnets := exn_map (fun r => let! ip := datum_str r 0 in let! mask := datum_str r 1 in Ret (ip ++ js "_" ++ mask)) data in
  Ret (match subnets with [] => u | _ => set u pkg (js "server") (js "extra_subnet") (UArr subnets) false end).

Definition list_value (d : document) (id : string) : exn jstr :=
  let! s := selected d (server id) in Ret (default (js "undefined") (fst s)).

Definition save_server (p : vpn_page) (u : UCIContainer) : exn UCIContainer :=
  let d := vp_doc p in
  let! port := el d (server "port") in
  let! proto := list_value d "protocol" in
  let! subnet_access := list_value d "subnet_access" in
  let! u := configureFirewall u true (Some (value port, proto)) (subnet_access =s js "true") in
  let u := put_opts u (js "gargoyle") (js "status") [(js "openvpn_connections", js "500")] in
  let u := custom u
    [(js "enabled", js "1"); (js "config", js "/etc/openvpn/server.conf"); (js "script_security", js "2"); (js "up", js "/etc/openvpn.up");
     (js "down", js "/etc/openvpn.down"); (js "tls_verify", js "/usr/lib/gargoyle/ovpn-cn-check.sh /etc/openvpn/verified-userlist");
     (js "crl_verify", js "/etc/openvpn/crl.pem")] in
  let u := put_opts u pkg (js "server") [(js "enabled", js "true")] in
  let u := put_opts u pkg (js "client") [(js "enabled", js "false")] in
  let! ip := el d (server "ip") in
  let! mask := el d (server "mask") in
  let! c2c := list_value d "client_to_client" in
  let! duplicate := list_value d "duplicate_cn" in
  let! redirect := list_value d "redirect_gateway" in
  let u := put_opts u pkg (js "server")
    [(js "internal_ip", value ip); (js "internal_mask", value mask); (js "port", value port); (js "proto", proto);
     (js "client_to_client", c2c); (js "subnet_access", subnet_access); (js "duplicate_cn", duplicate); (js "redirect_gateway", redirect)] in
  let u := del_opts u pkg (js "server") [js "extra_subnet"] in
  let! u := (if subnet_access =s js "true" then
               save_extra p (put_opts u pkg (js "server")
                 [(js "subnet_ip", adjustSubnetIp currentLanIp currentLanMask); (js "subnet_mask", currentLanMask)])
             else Ret (del_opts u pkg (js "server") [js "subnet_ip"; js "subnet_mask"])) in
  let u := if duplicate =s js "true" then put_opts u pkg (js "server") [(js "pool", server_pool (value ip) (value mask))]
           else del_opts u pkg (js "server") [js "pool"] in
  let! cipher := getSelectedCiphers d (js "server") in
  Ret (put_opts u pkg (js "server") [(js "cipher", cipher)]).

(** The document has the certificates in its text.  The option [block_non_openvpn]
    is a boolean: [false] is blank, and [true] differs from every text; the third
    component says that it was set to [true]. *)
Definition save_client (p : vpn_page) (u : UCIContainer) : exn (UCIContainer * document * bool) :=
  let! u := configureFirewall u true None false in
  let u := fst (remove u (js "gargoyle") (js "status") (js "openvpn_connections")) in
  let u := custom u [(js "script_security", js "2"); (js "up", js "/etc/openvpn.up"); (js "down", js "/etc/openvpn.down")] in
  let u := del_opts u (js "openvpn") (js "custom_config") [js "tls_verify"; js "crl_verify"] in
  let! h := hidden (vp_doc p) (client "manual_controls") in
  if h then Ret (u, vp_doc p, false)
  else
    let! d := clientManualCheckCaCertKey (vp_doc p) in
    let! block := selected d (client "block_nonovpn") in
    let blocked := bool_decide (fst block = Some (js "block")) in
    Ret (put_opts u pkg (js "client") [(js "block_non_openvpn", if blocked then js "true" else [])], snd block, blocked).

Definition re_vpn_zone : re := Eval vm_compute in rx "uci.*firewall\.vpn_zone\.".
Definition re_lan_fwd : re := Eval vm_compute in rx "uci.*firewall\.vpn_lan_forwarding\.".
Definition re_wan_fwd : re := Eval vm_compute in rx "uci.*firewall\.vpn_wan_forwarding\.".
Definition re_ra : re := Eval vm_compute in rx "uci.*firewall\.ra_openvpn\.".
Definition re_server : re := Eval vm_compute in rx "uci.*openvpn_gargoyle\.server\.".
Definition re_subnet_ip : re := Eval vm_compute in rx "uci.*openvpn_gargoyle.*subnet_ip".

(** The commands around the script. *)
Definition all_commands (config script : jstr) : jstr :=
  let commands := script ++ newline in
  let commands := if config =s js "server"
    then commands ++ newline ++ js ". /usr/lib/gargoyle/openvpn.sh ; regenerate_server_and_allowed_clients_from_uci ;" ++ newline else commands in
  let commands := if test re_vpn_zone commands || test re_lan_fwd commands || test re_wan_fwd commands || test re_ra commands
    then commands ++ newline ++ js "/usr/lib/gargoyle/restart_network.sh ;" ++ newline
    else commands ++ newline ++ js "/etc/openvpn.firewall update_enabled ;" ++ newline in
  let running := negb (tunIp =s []) && negb (openvpnProc =s []) && (negb (remotePing =s []) || (config =s js "server")) in
  if config =s js "disabled" then js "/etc/init.d/openvpn stop ; " ++ commands
  else if test re_server commands || test re_subnet_ip commands || (config =s js "client") || negb running
  then commands ++ js "/etc/init.d/openvpn restart ; sleep 3 ; " else commands.

Inductive ov_result :=
| OvErrors (d : document)
| OvCancelled
| OvSent (p : vpn_page) (config commands : jstr).

(** [doSave] is the answer to the question that is asked without Diffie-Hellman
    parameters. *)
Definition saveChanges (p : vpn_page) (doSave : bool) : exn ov_result :=
  let! r := proofreadAll p in
  let '(errorList, d) := r in
  if negb (length errorList =? 0)%nat then
    Ret (OvErrors (alert d (join newline errorList ++ newline ++ newline ++ UI (js "ErrChanges"))))
  else
    let p := with_doc p d in
    let! config := selected d (js "openvpn_config") in
    let openvpnConfig := default (js "undefined") (fst config) in
    let u := set (vp_uci p) (js "openvpn") (js "custom_config") [] (UStr (js "openvpn")) false in
    let u := set u (js "openvpn") (js "globals") [] (UStr (js "globals")) false in
    let u := set u (js "openvpn") (js "globals") (js "autostart") (UStr (js "0")) false in
    if (openvpnConfig =s js "server") && negb haveDh && negb doSave then Ret OvCancelled
    else
      let! saved := (if openvpnConfig =s js "disabled" then let! u := save_disabled u in Ret (u, d, false)
                     else if openvpnConfig =s js "server" then let! u := save_server p u in Ret (u, d, false)
                     else if openvpnConfig =s js "client" then save_client p u
                     else Ret (u, d, false)) in
      let '(u, d, blocked) := saved in
      let old := if (blocked : bool) then fst (remove (vp_orig p) pkg (js "client") (js "block_non_openvpn")) else vp_orig p in
      Ret (OvSent (with_uci (with_doc p d) u) openvpnConfig (all_commands openvpnConfig (getScriptCommands u old))).

(** ** What is visible *)
Definition show (d : document) (id : jstr) (b : bool) : exn document := update d id (set_display (if b then js "block" else js "none")).

(** The display of a container: that of [outer], or none. *)
Definition shown_if (d : document) (outer : jstr) (b : bool) : exn bool := let! h := hidden d outer in Ret (b && negb h).

Definition setAllowedClientVisibility (d : document) : exn document :=
  let! r := selected_is UI d (ac (js "remote")) (js "custom") in
  let! v := shown_if (snd r) (ac (js "remote_container")) (fst r) in
  let! d := show (snd r) (ac (js "remote_custom_container")) v in
  let! r := selected_is UI d (ac (js "have_subnet")) (js "true") in
  let! v := shown_if (snd r) (ac (js "have_subnet_container")) (fst r) in
  let! d := show (snd r) (ac (js "subnet_ip_container")) v in
  show d (ac (js "subnet_mask_container")) v.

Definition initializeAllowedClientVisibility (d : document) (dupeCn : bool) : exn document :=
  let! d := exn_fold (fun d id => show d (ac id) (negb dupeCn))
              [js "ip_container"; js "have_subnet_container"; js "subnet_ip_container"; js "subnet_mask_container"] d in
  setAllowedClientVisibility d.

Definition bool_to_int (b : bool) : Z := if b then 1 else 0.

Definition setClientVisibility (d : document) : exn document :=
  let! up := el d (client "config_upload") in
  let! man := el d (client "config_manual") in
  let! d := (if negb (e_checked up) && negb (e_checked man) then update d (client "config_upload") (set_checked true) else Ret d) in
  let! d := exn_fold (fun d '(check, id, dflt) => enableAssociatedField d (client check) (client id) dflt)
    [("use_ta_key_file", "ta_key_file", []); ("use_ta_key_text", "ta_key_text", []); ("use_ta_key_text", "ta_direction", js "1");
     ("use_auth_user_pass", "auth_user_pass_user", []); ("use_auth_user_pass", "auth_user_pass_pass", []);
     ("use_auth_user_pass_text", "auth_user_pass_text_user", []); ("use_auth_user_pass_text", "auth_user_pass_text_pass", [])]%string d in
  let! type := selected d (client "file_type") in
  let chosen v := bool_decide (fst type = Some (js v)) in
  let multi := bool_to_int (chosen "multi"%string) in
  let! d := setVisibility (snd type)
    [client "zip_file_container"; client "conf_file_container"; client "ca_file_container"; client "cert_file_container";
     client "key_file_container"; client "ta_key_file_container"; client "auth_user_pass_container"]
    [bool_to_int (chosen "zip"%string); bool_to_int (chosen "multi"%string || chosen "single"%string); multi; multi; multi; multi; bool_to_int (chosen "single"%string)]
    (Some (replicate 7 (js "block"))) in
  let! up := el d (client "config_upload") in
  let! man := el d (client "config_manual") in
  setVisibility d [client "file_controls"; client "manual_controls"] [bool_to_int (e_checked up); bool_to_int (e_checked man)]
    (Some [js "block"; js "block"]).

(** The spans of a row: no address, the address, the gateway. *)
Definition span_displays (dupeCn : bool) : list jstr :=
  map (fun i => if (((i =? 0) || (i =? 2)) && dupeCn) || ((0 <? i) && negb dupeCn) then js "inline" else js "none") [0; 1; 2].
Definition set_shown (l : list jstr) (r : ov_row) : ov_row :=
  mkOvRow (or_id r) (or_name r) (or_ip r) (or_subnet r) (or_gateway r) l (or_enabled r) (or_download r).

Definition setOpenvpnVisibility (p : ovpn_page) : exn ovpn_page :=
  let orig := vp_orig (ov_vpn p) in
  let originalEnabled := is_true (gets orig pkg (js "server") (js "enabled")) || is_true (gets orig pkg (js "client") (js "enabled")) in
  let! mode := selected (ov_doc p) (js "openvpn_config") in
  let chosen v := bool_decide (fst mode = Some (js v)) in
  let! d := show (snd mode) (js "openvpn_clear_keys_container") (chosen "disabled"%string && negb originalEnabled) in
  let! d := show d (js "openvpn_server_fieldset") (chosen "server"%string) in
  let! d := show d (js "openvpn_allowed_client_fieldset") (chosen "server"%string) in
  let! d := show d (js "openvpn_client_fieldset") (chosen "client"%string) in
  let! access := selected_is UI d (server "subnet_access") (js "true") in
  let! d := show (snd access) (server "extra_subnet_container") (fst access) in
  let! dupe := selected_true d (server "duplicate_cn") in
  let dupeCn := fst dupe in
  let! d := initializeAllowedClientVisibility (snd dupe) dupeCn in
  let! d := setClientVisibility d in
  Ret (with_rows (put_doc p d) (map (set_shown (span_displays dupeCn)) (ov_rows p))).

(** ** The table of clients and its window *)

(** Searches that do not end within the fuel give [None]. *)
Definition bind_opt {A B} (m : exn (option A)) (f : A → exn (option B)) : exn (option B) :=
  let! r := m in match r with Some a => f a | None => Ret None end.
Notation "'letopt' x ':=' m 'in' k" := (bind_opt m (fun x => k)) (at level 10, x name, m at level 100, k at level 200).

Definition setAcDocumentFromUci (fuel : nat) (p : vpn_page) (srcUci : UCIContainer) (id : jstr) (dupeCn : bool) (serverInternalIp : jstr)
    : exn (option vpn_page) :=
  let get_ id opt := gets srcUci pkg id (js opt) in
  let! allIds := getDefinedAcIds (vp_uci p) in
  letopt ids := Ret (if get_ id "remote"%string =s [] then
      match free_client fuel allIds (zlen allIds + 1) with
      | Some n => Some (ovpnS (js "Clnt") ++ str_of_Z n, js "client" ++ str_of_Z n, ac (js "default_id"))
      | None => None
      end
    else Some (get_ id "name"%string, id, ac (js "initial_id"))) in
  let '(name, id, id_field) := ids in
  let! d := update (vp_doc p) id_field (set_value id) in
  let! d := update d (ac (js "name")) (set_value name) in
  letopt ip := (if get_ id "ip"%string =s [] then getUnusedAcIp fuel (vp_uci p) serverInternalIp else Ret (Some (get_ id "ip"%string))) in
  let! d := update d (ac (js "ip")) (set_value ip) in
  let! p := setRemoteNames UI ovpnS currentWanIp (with_doc p d) (get_ id "remote"%string) in
  let subnetIp := get_ id "subnet_ip"%string in
  let subnetMask := get_ id "subnet_mask"%string in
  let! d := setSelectedValue (vp_doc p) (ac (js "have_subnet"))
              (if negb (subnetIp =s []) && negb (subnetMask =s []) then js "true" else js "false") in
  let! d := update d (ac (js "subnet_ip")) (set_value (if subnetIp =s [] then js "192.168.2.1" else subnetIp)) in
  let! d := update d (ac (js "subnet_mask")) (set_value (if subnetMask =s [] then js "255.255.255.0" else subnetMask)) in
  let! d := update d (ac (js "prefer_vpngateway")) (set_checked (Num.eqb (toNumber (get_ id "prefer_vpngateway"%string)) (Int 1))) in
  let! d := initializeAllowedClientVisibility d dupeCn in
  Ret (Some (with_doc p d)).

(** The texts of a row: name, address, subnet, gateway. *)
Definition row_texts (p : vpn_page) : exn (jstr * jstr * jstr * jstr * document) :=
  let d := vp_doc p in
  let! name := el d (ac (js "name")) in
  let! ip := el d (ac (js "ip")) in
  let! have := selected_is UI d (ac (js "have_subnet")) (js "true") in
  let d := snd have in
  let! subnet := (if fst have then
                    let! subnetIp := el d (ac (js "subnet_ip")) in
                    let! subnetMask := el d (ac (js "subnet_mask")) in
                    Ret (if negb (value subnetIp =s []) && negb (value subnetMask =s [])
                         then value subnetIp ++ js "/" ++ value subnetMask else [])
                  else Ret []) in
  let! prefer := el d (ac (js "prefer_vpngateway")) in
  let gateway := if e_checked prefer then js "vpn_gateway" else gets (vp_orig p) pkg (js "server") (js "internal_ip") in
  Ret (value name, value ip, subnet, gateway, d).

Definition re_ws : re := Eval vm_compute in rx "[\t\r\n ]+".
Definition re_not_id : re := Eval vm_compute in rx "[^a-z0-9_-]".
Definition client_id (name : jstr) : jstr := replace_all re_not_id [] (toLowerCase (replace_all re_ws (js "_") name)).

(** A new row: the displays of the spans are not set yet. *)
Definition no_displays : list jstr := [[]; []; []].

Definition addAc (fuel : nat) (p : ovpn_page) : exn (option ovpn_page) :=
  let! srvIp := el (ov_doc p) (server "ip") in
  let! srvMask := el (ov_doc p) (server "mask") in
  let! r := validateAc UI ovpnS currentLanIp currentLanMask (ov_vpn p) (value srvIp) (value srvMask) in
  let '(errors, v) := r in
  if negb (length errors =? 0)%nat then
    Ret (Some (with_vpn p (with_doc v (alert (vp_doc v) (join newline errors ++ newline ++ ovpnS (js "AddCErr"))))))
  else
    let! texts := row_texts v in
    let '(name, ip, subnet, gateway, d) := texts in
    letopt id := Ret (free_id pkg fuel (vp_uci v) (client_id name) (client_id name) 1) in
    let! v := setAcUciFromDocument UI (with_doc v d) id in
    let v := with_uci v (set (vp_uci v) pkg id (js "enabled") (UStr (js "true")) false) in
    let p := with_rows (with_vpn p v) (ov_rows p ++ [mkOvRow id name ip subnet gateway no_displays true false]) in
    let! dupe := selected_true (ov_doc p) (server "duplicate_cn") in
    let! srvIp := el (snd dupe) (server "ip") in
    letopt v := setAcDocumentFromUci fuel (with_doc (ov_vpn p) (snd dupe)) new (js "dummy") (fst dupe) (value srvIp) in
    let! p := setOpenvpnVisibility (with_vpn p v) in
    Ret (Some p).

Definition editAc (p : ovpn_page) (editRow : nat) (editId serverInternalIp serverInternalMask : jstr) : exn ovpn_page :=
  let! r := validateAc UI ovpnS currentLanIp currentLanMask (ov_vpn p) serverInternalIp serverInternalMask in
  let '(errors, v) := r in
  if negb (length errors =? 0)%nat then
    Ret (with_vpn p (with_doc v (alert (vp_doc v) (join newline errors ++ newline ++ ovpnS (js "UpCErr")))))
  else
    let! texts := row_texts v in
    let '(name, ip, subnet, gateway, d) := texts in
    let! v := setAcUciFromDocument UI (with_doc v d) editId in
    setOpenvpnVisibility (with_rows (with_vpn p v)
      (alter (fun r => mkOvRow editId name ip subnet gateway no_displays (or_enabled r) (or_download r)) editRow (ov_rows p))).

(** The rows of clients without an address get one when certificates are not shared. *)
Definition give_ip (fuel : nat) (serverInternalIp : jstr) (dupeCn : bool) (u : UCIContainer) (r : ov_row) : exn (option (UCIContainer * ov_row * bool)) :=
  if negb dupeCn && (gets u pkg (or_id r) (js "ip") =s []) then
    letopt ip := getUnusedAcIp fuel u serverInternalIp in
    Ret (Some (set u pkg (or_id r) (js "ip") (UStr ip) false,
               mkOvRow (or_id r) (or_name r) ip [] (or_gateway r) (or_shown r) (or_enabled r) (or_download r), true))
  else Ret (Some (u, r, false)).

Fixpoint give_ips (fuel : nat) (serverInternalIp : jstr) (dupeCn : bool) (u : UCIContainer) (rows : list ov_row)
    : exn (option (UCIContainer * list ov_row * bool)) :=
  match rows with
  | [] => Ret (Some (u, [], false))
  | r :: rows =>
      letopt x := give_ip fuel serverInternalIp dupeCn u r in
      let '(u, r, new) := x in
      letopt y := give_ips fuel serverInternalIp dupeCn u rows in
      let '(u, rows, news) := y in
      Ret (Some (u, r :: rows, new || news))
  end.

Definition updateDupeCn (fuel : nat) (p : ovpn_page) : exn (option ovpn_page) :=
  let! srvIp := el (ov_doc p) (server "ip") in
  let serverInternalIp := value srvIp in
  let! dupe := selected_true (ov_doc p) (server "duplicate_cn") in
  let d := snd dupe in
  letopt given := give_ips fuel serverInternalIp (fst dupe) (vp_uci (ov_vpn p)) (ov_rows p) in
  let '(u, rows, setNewIp) := given in
  letopt d := (if (setNewIp : bool) then
      let! definedIps := getDefinedAcIps u in
      let! ip_el := el d (ac (js "ip")) in
      if bool_decide (value ip_el ∈ serverInternalIp :: definedIps) then
        letopt ip := getUnusedAcIp fuel u serverInternalIp in
        let! d := update d (ac (js "ip")) (set_value ip) in Ret (Some d)
      else Ret (Some d)
    else Ret (Some d)) in
  let! p := setOpenvpnVisibility (mkOvpn (with_uci (with_doc (ov_vpn p) d) u) rows) in
  Ret (Some p).

(** [toggleAcEnabled] and [removeAcCallback] on a row; the button has removed it. *)
Definition toggle_row (p : ovpn_page) (row : nat) : exn ovpn_page :=
  let! r := exn_of_option TypeError (ov_rows p !! row) in
  let checked := negb (or_enabled r) in
  let rows := <[row := mkOvRow (or_id r) (or_name r) (or_ip r) (or_subnet r) (or_gateway r) (or_shown r) checked (or_download r)]> (ov_rows p) in
  Ret (mkOvpn (toggleAcEnabled (ov_vpn p) (or_id r) checked) rows).
Definition remove_row (p : ovpn_page) (row : nat) : exn ovpn_page :=
  let! r := exn_of_option TypeError (ov_rows p !! row) in
  let! v := removeAcCallback (ov_vpn p) (or_id r) in
  Ret (mkOvpn v (delete row (ov_rows p))).

Definition download_url (id : jstr) (confType : string) : jstr :=
  js "/utility/openvpn_download_credentials.sh?id=" ++ id ++ js "&configtype=" ++ js confType.

Definition addOvpnClientModal (fuel : nat) (p : ovpn_page) : exn (option ovpn_page) :=
  let! dupe := selected_true (ov_doc p) (server "duplicate_cn") in
  let! srvIp := el (snd dupe) (server "ip") in
  letopt v := setAcDocumentFromUci fuel (with_doc (ov_vpn p) (snd dupe)) new (js "dummy") (fst dupe) (value srvIp) in
  Ret (Some (with_vpn p v)).

(** The page and what the window remembers: the identifier, the address and the mask. *)
Definition editOvpnClientModal (fuel : nat) (p : ovpn_page) (row : nat) : exn (option (ovpn_page * (jstr * jstr * jstr))) :=
  let! r := exn_of_option TypeError (ov_rows p !! row) in
  let! dupe := selected_true (ov_doc p) (server "duplicate_cn") in
  let! srvIp := el (snd dupe) (server "ip") in
  let! srvMask := el (snd dupe) (server "mask") in
  letopt v := setAcDocumentFromUci fuel (with_doc (ov_vpn p) (snd dupe)) (vp_uci (ov_vpn p)) (or_id r) (fst dupe) (value srvIp) in
  Ret (Some (with_vpn p v, (or_id r, value srvIp, value srvMask))).

(** ** Loading *)

(** The time when a certificate expires, in local time: year and date; [None] where
    the text is not a date. *)
Context (local_expiry : jstr → option (Z * date)) (haveServerCert haveCrl : bool) (serverCertExpiry crlExpiry : jstr).

Definition expiry_date (dateformat : jstr) (year : Z) (t : date) : jstr :=
  let y := str_of_Z year in
  let m := Ddns.twod (d_month t + 1) in
  let d := Ddns.twod (d_date t) in
  if dateformat =s js "iso8601" then y ++ js "-" ++ m ++ js "-" ++ d
  else if dateformat =s js "hungary" then y ++ js "." ++ m ++ js "." ++ d
  else if dateformat =s js "russia" then d ++ js "." ++ m ++ js "." ++ y
  else if (dateformat =s []) || (dateformat =s js "usa") || (dateformat =s js "iso") then m ++ js "/" ++ d ++ js "/" ++ y
  else d ++ js "/" ++ m ++ js "/" ++ y.

Definition formatExpiryTime (orig : UCIContainer) (expiryIso : jstr) : exn jstr :=
  match local_expiry expiryIso with
  | None => Ret expiryIso
  | Some (year, t) =>
      let! time := Text.cnv24hToLocal UI orig (Ddns.twod (d_hours t) ++ js ":" ++ Ddns.twod (d_minutes t)) in
      Ret (expiry_date (gets orig (js "gargoyle") (js "global") (js "dateformat")) year t ++ js " " ++ time)
  end.

Definition updateCertStatus (orig : UCIContainer) (d : document) : exn document :=
  let shown have t := if (have : bool) then formatExpiryTime orig t else Ret (ovpnS (js "NotConf")) in
  let! cert := shown haveServerCert serverCertExpiry in
  let! d := update d (server "cert_expiry") (set_first_data cert) in
  let! crl := shown haveCrl crlExpiry in
  let! d := update d (js "openvpn_crl_expiry") (set_first_data crl) in
  update d (js "openvpn_renew_crl_button") (set_disabled (negb haveServerCert)).

Definition renew_command : jstr := js ". /usr/lib/gargoyle/openvpn.sh ; generate_crl ;".
Definition clear_command : jstr := js "rm -rf /etc/openvpn/* ; ln -s /var/run/openvpn_status /etc/openvpn/current_status ;".

(** The files of the client, as lines. *)
Record client_files := mkFiles { cf_conf : list jstr; cf_ca : list jstr; cf_cert : list jstr; cf_key : list jstr; cf_ta : list jstr; cf_secret : list jstr }.

(** A status with its colour; a missing element is left. *)
Definition set_status (d : document) (text color : jstr) : document :=
  let id := js "openvpn_config_status" in
  let d := setChildText d id text in
  match getElementById d id with Some e => put d id (set_color color e) | None => d end.

Definition load_status (d : document) (mode : jstr) : exn document :=
  let! d := update d (js "openvpn_config_status_container") (set_display (if mode =s js "disabled" then js "none" else js "block")) in
  Ret (if mode =s js "disabled" then d
       else if negb (tunIp =s []) && negb (openvpnProc =s []) && (negb (remotePing =s []) || (mode =s js "server"))
       then set_status d (ovpnS (js "RunC") ++ js ", IP: " ++ tunIp) (js "#008800")
       else if negb (openvpnProc =s []) then set_status d (ovpnS (js "RunNC")) (js "#880000")
       else set_status d (ovpnS (js "RunNot")) (js "#880000")).

Definition getServerVarWithDefault (orig : UCIContainer) (variable dflt : string) : jstr :=
  let def := gets orig pkg (js "server") (js variable) in if def =s [] then js dflt else def.

Definition load_server (orig : UCIContainer) (d : document) : exn document :=
  let var := getServerVarWithDefault orig in
  let! d := updateCertStatus orig d in
  let! d := update d (server "ip") (set_value (var "internal_ip"%string "10.8.0.1"%string)) in
  let! d := update d (server "mask") (set_value (var "internal_mask"%string "255.255.255.0"%string)) in
  let! d := update d (server "port") (set_value (var "port"%string "1194"%string)) in
  let! d := setSelectedValue d (server "protocol") (var "proto"%string "udp"%string) in
  let! d := setSelectedCiphers d (var "cipher"%string "AES-256-GCM"%string) (js "server") in
  let! d := setSelectedValue d (server "client_to_client") (var "client_to_client"%string "false"%string) in
  let! d := setSelectedValue d (server "subnet_access") (var "subnet_access"%string "false"%string) in
  let! d := setSelectedValue d (server "duplicate_cn") (var "duplicate_cn"%string "false"%string) in
  setSelectedValue d (server "redirect_gateway") (var "redirect_gateway"%string "true"%string).

(** The entries of a list; a text is gone through by its characters. *)
Definition entries (v : uval) : list jstr := match v with UArr l => l | UStr s => map (fun c => [c]) s end.

Definition load_extra (orig : UCIContainer) : table :=
  let data := omap (fun s => match split_char 95 s with
                             | [ip; mask] => Some [DStr ip; DStr mask; DObj (edit_button UI)]
                             | _ => None
                             end) (entries (get orig pkg (js "server") (js "extra_subnet"))) in
  createTable (UI (js "Remove")) [DStr (ovpnS (js "SubIP")); DStr (ovpnS (js "SubM")); DStr []] data
    (js "openvpn_server_extra_subnets_table") true false.

Definition load_client_row (orig : UCIContainer) (id : jstr) : ov_row :=
  let get_ opt := gets orig pkg id (js opt) in
  let subnetIp := get_ "subnet_ip"%string in
  let subnetMask := get_ "subnet_mask"%string in
  let subnet := if negb (subnetIp =s []) && negb (subnetMask =s []) then subnetIp ++ js "/" ++ subnetMask else [] in
  let gateway := if get_ "prefer_vpngateway"%string =s js "1" then js "vpn_gateway" else gets orig pkg (js "server") (js "internal_ip") in
  let enabled := get_ "enabled"%string in
  mkOvRow id (get_ "name"%string ++ newline ++ js " ") (get_ "ip"%string) subnet gateway no_displays
    (negb (enabled =s js "false") && negb (enabled =s js "0")) true.

(** The texts of the client, when there is a configuration. *)
Definition load_client (orig : UCIContainer) (f : client_files) (d : document) : exn document :=
  let lines l := set_value (join newline l) in
  if (0 <? length (cf_conf f))%nat then
    let! d := update d (client "config_manual") (set_checked true) in
    let! d := update d (client "config_upload") (set_checked false) in
    let! d := update d (client "conf_text") (lines (cf_conf f)) in
    let! d := (if (0 <? length (cf_ca f))%nat && (0 <? length (cf_cert f))%nat && (0 <? length (cf_key f))%nat then
                 let! d := update d (client "ca_text") (lines (cf_ca f)) in
                 let! d := update d (client "cert_text") (lines (cf_cert f)) in
                 let! d := update d (client "key_text") (lines (cf_key f)) in
                 let! d := update d (client "ta_key_text") (lines (cf_ta f)) in
                 update d (client "use_ta_key_text") (set_checked (0 <? length (cf_ta f))%nat)
               else Ret d) in
    let! d := (match cf_secret f with
               | user :: rest =>
                   let! d := update d (client "auth_user_pass_text_user") (set_value user) in
                   update d (client "auth_user_pass_text_pass") (set_value (default (js "undefined") (head rest)))
               | [] => Ret d
               end) in
    let! d := update d (client "use_auth_user_pass_text") (set_checked (0 <? length (cf_secret f))%nat) in
    let! d := setSelectedValue d (client "block_nonovpn")
                (if is_true (gets orig pkg (js "client") (js "block_non_openvpn")) then js "block" else js "allowed") in
    updateClientControlsFromConfigText d
  else
    let! d := update d (client "config_upload") (set_checked true) in
    update d (client "config_manual") (set_checked false).

Definition resetData (fuel : nat) (files : client_files) (p : ovpn_page) : exn (option ovpn_page) :=
  let v := ov_vpn p in
  let orig := vp_orig v in
  let mode := if is_true (gets orig pkg (js "client") (js "enabled")) then js "client"
              else if is_true (gets orig pkg (js "server") (js "enabled")) then js "server" else js "disabled" in
  let! d := setSelectedValue (vp_doc v) (js "openvpn_config") mode in
  let! d := load_status d mode in
  let! d := load_server orig d in
  let v := with_extra (with_doc v d) (Some (load_extra orig)) in
  let! allowedClients := getAllSectionsOfType orig pkg (js "allowed_client") in
  let rows := map (load_client_row orig) allowedClients in
  let! dupe := selected_true d (server "duplicate_cn") in
  let! srvIp := el (snd dupe) (server "ip") in
  letopt v := setAcDocumentFromUci fuel (with_doc v (snd dupe)) new (js "dummy") (fst dupe) (value srvIp) in
  let! d := load_client orig files (vp_doc v) in
  let! p := setOpenvpnVisibility (mkOvpn (with_doc v d) rows) in
  Ret (Some p).

End page.

End OvpnPage.
