(* ===== verification/OvpnFacts.v ===== *)
(** * The server of OpenVPN

    The pool of addresses for a certificate that several clients share, and the
    sections of the firewall that belong to each mode of the page. *)
From S2P Require Import Prelude JsNum JsString JsRegex Uci UciFacts UciScript Sections Ip4 Validate Ip4Facts ValidateFacts Dom Modal Vpn OpenVpn WireGuard VpnFacts VpnText OvpnPage.
Import Uci Sections Ip4 Validate Dom Modal Vpn OpenVpn OvpnPage.
Open Scope Z_scope.

(** ** The pool *)
Section pool.

Lemma addr_signed z n : 0 <= n < 2 ^ 32 → z = Num.signed32 n → addr_text (numericIpToStr (Int z)) n.
Proof. intros Hn ->. change numericIpToStr with ipToStr. rewrite ipToStr_signed. by apply addr_text_ipToStr. Qed.

(** An address and the bounds of its network as signed numbers. *)
Lemma network_signed h n : 0 <= h < 32 → 0 <= n < 2 ^ 32 →
  ∃ k, Num.signed32 n = n - k ∧ Num.signed32 (network h n) = network h n - k ∧
    ∀ x, network h n <= x < network h n + 2 ^ h → 0 <= x < 2 ^ 32 ∧ Num.signed32 x = x - k.
Proof.
  intros Hh Hn. assert (Hp : 0 < 2 ^ h) by (apply Z.pow_pos_nonneg; lia).
  assert (E : 2 ^ 31 = 2 ^ (31 - h) * 2 ^ h) by (rewrite <- Z.pow_add_r by lia; f_equal; lia).
  pose proof (Z.div_mod n (2 ^ h) ltac:(lia)) as Hdm. pose proof (Z.mod_pos_bound n (2 ^ h) ltac:(lia)) as Hm.
  set (q := n / 2 ^ h) in *. assert (Hq : 0 <= q) by (apply Z.div_pos; lia).
  assert (Hside : ∀ x, q * 2 ^ h <= x < q * 2 ^ h + 2 ^ h → 0 <= x < 2 ^ 32 ∧ (x < 2 ^ 31 ↔ n < 2 ^ 31)).
  { assert (E32 : 2 ^ 32 = 2 * 2 ^ 31) by lia. assert (Hq1 : q + 1 <= 2 * 2 ^ (31 - h)) by nia. intros x Hx. split; [nia|].
    assert (Hc : q < 2 ^ (31 - h) ∨ 2 ^ (31 - h) <= q) by lia. nia. }
  exists (if n <? 2 ^ 31 then 0 else 2 ^ 32). assert (Hx : ∀ x, network h n <= x < network h n + 2 ^ h →
    0 <= x < 2 ^ 32 ∧ Num.signed32 x = x - (if n <? 2 ^ 31 then 0 else 2 ^ 32)).
  { intros x Hx. destruct (Hside x Hx) as [Hr Hs]. split; [done|]. rewrite signed32_cases by done.
    destruct (Z.ltb_spec x (2 ^ 31)), (Z.ltb_spec n (2 ^ 31)); lia. }
  split_and!; [apply Hx; unfold network; fold q; lia..|done].
Qed.

End pool.

(** The pool of addresses of a server whose certificate several clients share.  For an
    address of the server inside a subnet of 1 to 30 bits, [server_pool] is a range of
    addresses of the subnet, without its first and last address and without the address of
    the server, and it is the longer one of the two ranges at the sides of the server: at
    least one address, and no more are free on either side.  The arithmetic is that of signed
    32-bit numbers. *)
Theorem server_pool_inside s n m p : addr_text s n → mask_text m p → 1 <= p <= 30 →
  let lo := network (32 - p) n in let hi := lo + 2 ^ (32 - p) - 1 in lo < n < hi →
  ∃ tx x ty y, server_pool s m = tx ++ js " " ++ ty ++ js " " ++ m ∧ addr_text tx x ∧ addr_text ty y ∧
    lo < x <= y ∧ y < hi ∧ (y < n ∨ n < x) ∧ y - x + 1 = Z.max (n - lo - 1) (hi - n - 1).
Proof.
  intros Hs Hm Hp lo hi Hin. pose proof (addr_text_range s n Hs) as Hr. set (h := 32 - p) in *.
  assert (Hp2 : 4 <= 2 ^ h) by (change 4 with (2 ^ 2); apply Z.pow_le_mono_r; lia).
  destruct (network_signed h n) as (k & En & El & Ex); [lia|done|]. fold lo in El, Ex.
  assert (Enum : num_of (getNumericIp s) = Int (n - k)).
  { rewrite <- En. rewrite (getNumericIp_num s n) by done. done. }
  assert (Emin : Num.band (int32_of (getNumericIp s)) (int32_of (getNumericMask m)) = lo - k).
  { rewrite (getNumericIp_addr s n), (getNumericMask_int m p) by (done || lia). fold h. rewrite signed_network by lia. done. }
  assert (Emax : Num.bor (Num.bnot (int32_of (getNumericMask m))) (lo - k) = hi - k).
  { rewrite <- El. rewrite (getNumericMask_int m p) by (done || lia). fold h.
    destruct (subnet_bounds (Num.signed32 n) h ltac:(lia) (signed32_range n)) as [B1 B2]. rewrite signed_network in B1 by lia. fold lo in B1.
    rewrite <- B1 in B2. unfold Num.bor in *. rewrite Z.lor_comm, B2. rewrite El. unfold hi. lia. }
  unfold server_pool. rewrite Emin, Emax, Enum. numsimpl.
  destruct (Z.ltb_spec (n - k - (lo - k)) (hi - k - (n - k))) as [Hlt|Hge].
  - eexists _, (n + 1), _, (hi - 1). split; [reflexivity|]. split_and!; try lia.
    + destruct (Ex (n + 1)) as [H1 H2]; [unfold hi in *; lia|]. apply addr_signed; [done|lia].
    + destruct (Ex (hi - 1)) as [H1 H2]; [unfold hi in *; lia|]. apply addr_signed; [done|lia].
  - eexists _, (lo + 1), _, (n - 1). split; [reflexivity|]. split_and!; try (unfold hi in *; lia).
    + destruct (Ex (lo + 1)) as [H1 H2]; [unfold hi in *; lia|]. apply addr_signed; [done|lia].
    + destruct (Ex (n - 1)) as [H1 H2]; [unfold hi in *; lia|]. apply addr_signed; [done|lia].
Qed.

Lemma server_pool_inside_witness :
  server_pool (js "192.168.1.77") (js "255.255.255.192") = js "192.168.1.78 192.168.1.126 255.255.255.192" ∧
  ∃ tx x ty y, server_pool (js "192.168.1.77") (js "255.255.255.192") = tx ++ js " " ++ ty ++ js " " ++ js "255.255.255.192" ∧
    addr_text tx x ∧ addr_text ty y ∧ 3232235840 < x <= y ∧ y < 3232235903 ∧ (y < 3232235853 ∨ 3232235853 < x) ∧ y - x + 1 = Z.max 12 49.
Proof.
  split; [vm_compute; reflexivity|].
  apply (server_pool_inside (js "192.168.1.77") 3232235853 (js "255.255.255.192") 26); [exact addr_sample|apply mask_sample|lia|vm_compute; split; reflexivity].
Defined.

(** ** The firewall *)
Definition fw_sections : list jstr :=
  [js "vpn_zone"; js "lan_vpn_forwarding"; js "vpn_lan_forwarding"; js "vpn_wan_forwarding"; js "ra_openvpn"].

(** The state of a container between two steps: the sections of the page hold no lists. *)
Record fw_ok (u : UCIContainer) : Prop := {
  fo_wf : wf u;
  fo_shaped : shaped u;
  fo_lists : ∀ s o, s ∈ fw_sections → next_key firewall s o ∉ listOptions u
}.

(** A section of the firewall with its options. *)
Definition section_is (u : UCIContainer) (s t : jstr) (opts : list (jstr * jstr)) : Prop :=
  get u firewall s [] = UStr t ∧ ∀ o v, (o, v) ∈ opts → get u firewall s o = UStr v.
Definition section_gone (u : UCIContainer) (s : jstr) : Prop := ∀ o, o = [] ∨ name o → get u firewall s o = UStr [].

(** Two containers whose firewalls agree outside of a list of sections. *)
Definition agree_but (ss : list jstr) (u u' : UCIContainer) : Prop :=
  ∀ s o, name s → o = [] ∨ name o → s ∉ ss → get u' firewall s o = get u firewall s o.

(** One step of saving: it stays well formed and changes only the sections [ss] of the firewall. *)
Definition fw_step (ss : list jstr) (u u' : UCIContainer) : Prop := fw_ok u → fw_ok u' ∧ agree_but ss u u'.

Section firewall.

Lemma fw_name : name firewall.
Proof. apply word_name. by_eval. Qed.

Lemma fw_word s : s ∈ fw_sections → word s.
Proof. intros H. assert (Hall : Forall word fw_sections) by by_eval. rewrite Forall_forall in Hall. by apply Hall. Qed.

Lemma agree_trans ss u1 u2 u3 : agree_but ss u1 u2 → agree_but ss u2 u3 → agree_but ss u1 u3.
Proof. intros H1 H2 s o Hs Ho Hn. by rewrite H2, H1. Qed.

Lemma agree_weaken ss ss' u u' : ss ⊆ ss' → agree_but ss u u' → agree_but ss' u u'.
Proof. intros Hss H s o Hs Ho Hn. apply H; [done..|]. intros Hin. by apply Hn, Hss. Qed.

Lemma fw_refl u : fw_step [] u u.
Proof. by intros Hu. Qed.

Lemma fw_trans ss u1 u2 u3 : fw_step ss u1 u2 → fw_step ss u2 u3 → fw_step ss u1 u3.
Proof. intros H1 H2 [Hu2 A1]%H1. destruct (H2 Hu2) as [Hu3 A2]. split; [done|]. by apply (agree_trans ss u1 u2 u3). Qed.

Lemma section_kept ss u u' s t opts : agree_but ss u u' → s ∉ ss → name s → Forall (λ ov, name ov.1) opts →
  section_is u s t opts → section_is u' s t opts.
Proof.
  intros Ha Hs Hn Ho [H1 H2]. rewrite Forall_forall in Ho. split.
  - rewrite Ha; auto.
  - intros o v Hov. rewrite Ha; [by apply H2|done|right; by apply (Ho (o, v))|done].
Qed.

Lemma gone_kept ss u u' s : agree_but ss u u' → s ∉ ss → name s → section_gone u s → section_gone u' s.
Proof. intros Ha Hs Hn H o Ho. rewrite Ha; [by apply H|done..]. Qed.

(** *** Steps on other packages *)
Lemma fw_set_step p s o v : name p → p ≠ firewall → name s → o = [] ∨ name o → ∀ u, fw_step [] u (set u p s o v false).
Proof.
  intros Hp Hne Hs Ho u [Hw Hsh Hl]. split; [split; [by apply set_wf|by apply set_shaped|by rewrite set_listOptions]|].
  intros s' o' Hs' Ho' _. rewrite get_set_key, bool_decide_eq_false_2; [done|].
  intros E. apply next_key_inj in E as (E & _); auto using fw_name.
Qed.

Lemma remove_step p s o : name p → p ≠ firewall → name s → o = [] ∨ name o → ∀ u, fw_step [] u (fst (remove u p s o)).
Proof.
  intros Hp Hne Hs Ho u [Hw Hsh Hl]. rewrite remove_spec by done. split.
  - split; [by apply remove_key_wf|by apply remove_key_shaped|]. intros s' o' Hs'. specialize (Hl s' o' Hs'). simpl. set_solver.
  - intros s' o' Hs' Ho' _. unfold get. simpl. rewrite lookup_delete_ne; [done|].
    intros E. apply next_key_inj in E as (E & _); auto using fw_name.
Qed.

Lemma put_step p s opts : name p → p ≠ firewall → name s → Forall (λ ov, name ov.1) opts → ∀ u, fw_step [] u (put_opts u p s opts).
Proof.
  intros Hp Hne Hs Ho. unfold put_opts. induction Ho as [|ov opts Ho _ IH]; intros u; [apply fw_refl|].
  cbn [fold_left]. eapply fw_trans; [|apply IH]. apply fw_set_step; auto.
Qed.

Lemma del_step p s opts : name p → p ≠ firewall → name s → Forall name opts → ∀ u, fw_step [] u (del_opts u p s opts).
Proof.
  intros Hp Hne Hs Ho. unfold del_opts. induction Ho as [|o opts Ho _ IH]; intros u; [apply fw_refl|].
  cbn [fold_left]. eapply fw_trans; [|apply IH]. apply remove_step; auto.
Qed.

(** *** The sections of the firewall *)
Lemma set_fw_ok u s o v : fw_ok u → s ∈ fw_sections → o = [] ∨ name o → fw_ok (set u firewall s o (UStr v) false).
Proof.
  intros [Hw Hsh Hl] Hs Ho. split; [by apply set_wf| |by rewrite set_listOptions].
  apply set_shaped; [apply fw_name|by apply word_name, fw_word|done|done].
Qed.

Lemma set_other u s o v s' o' : name s → o = [] ∨ name o → name s' → o' = [] ∨ name o' → (s, o) ≠ (s', o') →
  get (set u firewall s o (UStr v) false) firewall s' o' = get u firewall s' o'.
Proof.
  intros Hs Ho Hs' Ho' Hne. rewrite get_set_key, bool_decide_eq_false_2; [done|].
  intros E. apply next_key_inj in E as (_ & -> & ->); auto using fw_name.
Qed.

Lemma opts_written s opts : s ∈ fw_sections → Forall (λ ov, name ov.1) opts → NoDup (map fst opts) → ∀ u, fw_ok u →
  let u' := fold_left (λ u ov, set u firewall s ov.1 (UStr ov.2) false) opts u in
  fw_ok u' ∧ (∀ o v, (o, v) ∈ opts → get u' firewall s o = UStr v) ∧
  (∀ s' o, name s' → o = [] ∨ name o → (s' = s → o ∉ map fst opts) → get u' firewall s' o = get u firewall s' o).
Proof.
  intros Hs Hn. induction Hn as [|[o v] opts Ho Hn IH]; intros Hnd u Hu; [split_and!; [done|by intros ? ? ?%not_elem_of_nil|done]|].
  cbn [fold_left fst snd map] in *. apply NoDup_cons in Hnd as [Hnin Hnd]. pose proof (word_name _ (fw_word s Hs)) as Hsn.
  destruct (IH Hnd (set u firewall s o (UStr v) false)) as (Hok & Hget & Hother); [apply set_fw_ok; auto|].
  split_and!; [done| |].
  - intros o' v' [[= -> ->]|Hin]%elem_of_cons; [|by apply Hget].
    rewrite Hother; [|done|by right|done]. by apply set_get_same, Hu.
  - intros s' o' Hs' Ho' Hn'. rewrite Hother; [|done..|].
    + apply set_other; auto. intros [= -> ->]. apply (Hn' eq_refl). by left.
    + intros E2 Hin. apply (Hn' E2). by right.
Qed.

Lemma section_written u s t opts : fw_ok u → s ∈ fw_sections → Forall (λ ov, name ov.1) opts → NoDup (map fst opts) →
  let u' := write_section firewall u s t opts in fw_ok u' ∧ section_is u' s t opts ∧ agree_but [s] u u'.
Proof.
  intros Hu Hs Hn Hnd. unfold write_section. pose proof (word_name _ (fw_word s Hs)) as Hsn.
  destruct (opts_written s opts Hs Hn Hnd (set u firewall s [] (UStr t) false)) as (Hok & Hget & Hother); [apply set_fw_ok; auto|].
  split_and!; [done| |].
  - split; [|done]. rewrite Hother; [by apply set_get_same, Hu|done|by left|].
    intros _ Hin. apply list_elem_of_fmap in Hin as (ov & E & Hov). rewrite Forall_forall in Hn. specialize (Hn ov Hov). rewrite <- E in Hn. by destruct Hn.
  - intros s' o Hs' Ho Hne. rewrite Hother; [|done..|intros ->; set_solver]. apply set_other; auto. set_solver.
Qed.

Lemma section_removed u s : fw_ok u → s ∈ fw_sections → ∃ u', removeSection u firewall s = Ret u' ∧
  fw_ok u' ∧ section_gone u' s ∧ agree_but [s] u u'.
Proof.
  intros Hu Hs. pose proof (fw_word s Hs) as Hw. assert (Hf : word firewall) by by_eval.
  exists (without_section u firewall s). split; [apply removeSection_without; try done; apply Hu|]. split_and!.
  - split; [apply without_section_wf, Hu|apply without_section_shaped, Hu|]. intros s' o Hs'. pose proof (fo_lists u Hu s' o Hs'). simpl. set_solver.
  - intros o Ho. rewrite (without_get firewall fw_name) by auto using word_name. by rewrite decide_True.
  - intros s' o Hs' Ho Hne. rewrite (without_get firewall fw_name) by auto using word_name. rewrite decide_False; [done|]. set_solver.
Qed.

End firewall.

(** ** What each mode has *)
Definition forwards (u : UCIContainer) (s src dest : string) : Prop :=
  section_is u (js s) (js "forwarding") [(js "src", js src); (js "dest", js dest)].

(** The zone of the tunnel, and the way from the local network into it. *)
Definition tunnel_on (u : UCIContainer) : Prop :=
  section_is u (js "vpn_zone") (js "zone") zone_opts ∧ forwards u "vpn_lan_forwarding" "lan" "vpn".

(** A server accepts connections from outside and lets clients out; they reach the
    local network when they are given access to it. *)
Definition fw_server (u : UCIContainer) (port proto : jstr) (access : bool) : Prop :=
  tunnel_on u ∧
  section_is u (js "ra_openvpn") (js "remote_accept")
    [(js "zone", js "wan"); (js "local_port", port); (js "remote_port", port); (js "proto", proto)] ∧
  forwards u "vpn_wan_forwarding" "vpn" "wan" ∧
  (if access then forwards u "lan_vpn_forwarding" "vpn" "lan" else section_gone u (js "lan_vpn_forwarding")).

(** A client lets the network behind the tunnel in and not out again. *)
Definition fw_client (u : UCIContainer) : Prop :=
  tunnel_on u ∧ forwards u "lan_vpn_forwarding" "vpn" "lan" ∧ section_gone u (js "vpn_wan_forwarding").

Section configure.

Ltac carry := first
  [ eapply gone_kept; [eassumption|by_eval|apply word_name; by_eval|eassumption]
  | eapply section_kept; [eassumption|by_eval|apply word_name; by_eval|by_eval|eassumption] ].

Lemma kept_by ss u u' : agree_but ss u u' → ss ⊆ fw_sections → agree_but fw_sections u u'.
Proof. intros Ha Hs. by apply (agree_weaken ss). Qed.

Lemma dropped_all u : fw_ok u → ∃ u', configureFirewall u false None false = Ret u' ∧ fw_ok u' ∧
  Forall (section_gone u') fw_sections ∧ agree_but fw_sections u u'.
Proof.
  intros Hu. unfold configureFirewall, drop_sections. 
  assert (Hgen : ∀ l done u0, fw_ok u0 → l ⊆ fw_sections → Forall word done → Forall (section_gone u0) done → ∃ u', exn_fold (fun u s => removeSection u firewall s) l u0 = Ret u' ∧ fw_ok u' ∧
    Forall (section_gone u') (l ++ done) ∧ agree_but fw_sections u0 u').
  { induction l as [|s l IH]; intros dn u0 Hu0 Hl Hw Hd; [by exists u0|].
    destruct (section_removed u0 s) as (u1 & E & Hu1 & Hg & Ha); [done|set_solver|]. cbn [exn_fold]. rewrite E. cbn [exn_bind].
    destruct (IH (s :: dn) u1) as (u2 & E2 & Hu2 & Hall & Ha2); [done|set_solver|constructor; [apply fw_word; set_solver|done]| |].
    - constructor; [done|]. rewrite Forall_forall in Hd, Hw |- *. intros x Hx. destruct (decide (x = s)) as [->|Hne]; [done|].
      apply (gone_kept [s] u0 u1); [done|set_solver|by apply word_name, Hw|by apply Hd].
    - exists u2. split_and!; [done..| |].
      + rewrite !Forall_app, Forall_cons in *. naive_solver.
      + apply (agree_trans _ _ u1); [|done]. apply (agree_weaken [s]); [set_solver|done]. }
  destruct (Hgen fw_sections [] u) as (u' & E & Hok & Hall & Ha); [done..|constructor|constructor|].
  exists u'. rewrite app_nil_r in Hall. done.
Qed.

Lemma tunnel_opened u : fw_ok u →
  let u' := forwarding (forwarding (write_section firewall u (js "vpn_zone") (js "zone") zone_opts)
              "vpn_lan_forwarding" "lan" "vpn") "lan_vpn_forwarding" "vpn" "lan" in
  fw_ok u' ∧ tunnel_on u' ∧ forwards u' "lan_vpn_forwarding" "vpn" "lan" ∧
  agree_but [js "vpn_zone"; js "vpn_lan_forwarding"; js "lan_vpn_forwarding"] u u'.
Proof.
  intros Hu u'. unfold forwarding in u'. set (u1 := write_section firewall u _ _ _) in u'. set (u2 := write_section firewall u1 _ _ _) in u'.
  destruct (section_written u (js "vpn_zone") (js "zone") zone_opts) as (H1 & S1 & A1); [done|by_eval..|].
  destruct (section_written u1 (js "vpn_lan_forwarding") (js "forwarding") [(js "src", js "lan"); (js "dest", js "vpn")]) as (H2 & S2 & A2); [done|by_eval..|].
  destruct (section_written u2 (js "lan_vpn_forwarding") (js "forwarding") [(js "src", js "vpn"); (js "dest", js "lan")]) as (H3 & S3 & A3); [done|by_eval..|].
  fold u1 u2 u' in H1, S1, A1, H2, S2, A2, H3, S3, A3. split_and!; [done| |done|].
  - split; [|carry]. eapply section_kept; [exact A3|by_eval|apply word_name; by_eval|by_eval|]. carry.
  - apply (agree_trans _ _ u2); [apply (agree_trans _ _ u1)|]; eapply agree_weaken; [|exact A1| |exact A2| |exact A3]; set_solver.
Qed.

Lemma tunnel_kept ss u u' : agree_but ss u u' → js "vpn_zone" ∉ ss → js "vpn_lan_forwarding" ∉ ss → tunnel_on u → tunnel_on u'.
Proof.
  intros Ha H1 H2 [S1 S2]. split; [eapply section_kept; [exact Ha|done|apply word_name; by_eval|by_eval|exact S1]|].
  eapply section_kept; [exact Ha|done|apply word_name; by_eval|by_eval|exact S2].
Qed.

Lemma server_configured u port proto access : fw_ok u → ∃ u', configureFirewall u true (Some (port, proto)) access = Ret u' ∧ fw_ok u' ∧
  fw_server u' port proto access ∧ agree_but fw_sections u u'.
Proof.
  intros Hu. unfold configureFirewall. destruct (tunnel_opened u Hu) as (H1 & T1 & F1 & A1).
  set (u1 := forwarding (forwarding _ _ _ _) _ _ _) in *. clearbody u1.
  set (ra := [(js "zone", js "wan"); (js "local_port", port); (js "remote_port", port); (js "proto", proto)]).
  destruct (section_written u1 (js "ra_openvpn") (js "remote_accept") ra) as (H2 & S2 & A2); [done|by_eval|subst ra; repeat (constructor; [by_eval|]); constructor|by_eval|].
  set (u2 := write_section firewall u1 _ _ _) in *. clearbody u2.
  destruct (section_written u2 (js "vpn_wan_forwarding") (js "forwarding") [(js "src", js "vpn"); (js "dest", js "wan")]) as (H3 & S3 & A3); [done|by_eval..|].
  unfold forwarding. set (u3 := write_section firewall u2 _ _ _) in *. clearbody u3.
  assert (A : agree_but fw_sections u u3).
  { apply (agree_trans _ _ u2); [apply (agree_trans _ _ u1)|]; eapply agree_weaken; [|exact A1| |exact A2| |exact A3]; by_eval. }
  assert (Hra : Forall (λ ov, name ov.1) ra) by (subst ra; repeat (constructor; [by_eval|]); constructor).
  assert (T3 : tunnel_on u3) by (eapply tunnel_kept; [exact A3|by_eval..|]; eapply tunnel_kept; [exact A2|by_eval..|done]).
  assert (S3' : section_is u3 (js "ra_openvpn") (js "remote_accept") ra) by (eapply section_kept; [exact A3|by_eval|apply word_name; by_eval|done|done]).
  assert (F3 : forwards u3 "lan_vpn_forwarding" "vpn" "lan").
  { eapply section_kept; [exact A3|by_eval|apply word_name; by_eval|by_eval|]. carry. }
  destruct access; cbn [negb]; [by exists u3|].
  destruct (section_removed u3 (js "lan_vpn_forwarding")) as (u4 & E & H4 & G & A4); [done|by_eval|]. exists u4. split_and!; [done..| |].
  - split_and!; [eapply tunnel_kept; [exact A4|by_eval..|done]| |carry|done]. eapply section_kept; [exact A4|by_eval|apply word_name; by_eval|done|done].
  - apply (agree_trans _ _ u3); [done|]. eapply agree_weaken; [|exact A4]. by_eval.
Qed.

Lemma client_configured u access : fw_ok u → ∃ u', configureFirewall u true None access = Ret u' ∧ fw_ok u' ∧
  fw_client u' ∧ agree_but (filter (λ s, s ≠ js "ra_openvpn") fw_sections) u u'.
Proof.
  intros Hu. unfold configureFirewall. destruct (tunnel_opened u Hu) as (H1 & T1 & F1 & A1).
  set (u1 := forwarding (forwarding _ _ _ _) _ _ _) in *. clearbody u1.
  destruct (section_removed u1 (js "vpn_wan_forwarding")) as (u2 & E & H2 & G & A2); [done|by_eval|]. exists u2. split_and!; [done..| |].
  - split_and!; [eapply tunnel_kept; [exact A2|by_eval..|done]| |done]. carry.
  - apply (agree_trans _ _ u1); eapply agree_weaken; [|exact A1| |exact A2]; by_eval.
Qed.

End configure.

Section save.
Context (UI ovpnS : jstr → jstr) (currentLanIp currentLanMask tunIp openvpnProc remotePing : jstr) (haveDh : bool).

(** The firewall that a saved mode has; [d] is the document of the page. *)
Definition fw_of_mode (d : document) (config : jstr) (u u' : UCIContainer) : Prop :=
  if config =s js "disabled" then Forall (section_gone u') fw_sections ∧ agree_but fw_sections u u'
  else if config =s js "server" then ∃ port proto access,
    el d (server "port") = Ret port ∧ list_value UI d "protocol" = Ret proto ∧ list_value UI d "subnet_access" = Ret access ∧
    fw_server u' (value port) proto (access =s js "true") ∧ agree_but fw_sections u u'
  else if config =s js "client" then fw_client u' ∧ agree_but (filter (λ s, s ≠ js "ra_openvpn") fw_sections) u u'
  else agree_but [] u u'.

(** What the options of other packages leave. *)
Lemma gone_all ss u u' : agree_but [] u u' → Forall word ss → Forall (section_gone u) ss → Forall (section_gone u') ss.
Proof.
  intros Ha Hw Hg. rewrite Forall_forall in *. intros s Hs. apply (gone_kept [] u); [done|by apply not_elem_of_nil|by apply word_name, Hw|by apply Hg].
Qed.

Lemma fw_server_kept u u' port proto access : agree_but [] u u' → fw_server u port proto access → fw_server u' port proto access.
Proof.
  intros Ha (T & R & W & L). split_and!.
  - by eapply tunnel_kept; [exact Ha|apply not_elem_of_nil..|].
  - eapply section_kept; [exact Ha|by_eval|apply word_name; by_eval|repeat (constructor; [by_eval|]); constructor|done].
  - eapply section_kept; [exact Ha|by_eval|apply word_name; by_eval|by_eval|exact W].
  - destruct access; [eapply section_kept; [exact Ha|by_eval|apply word_name; by_eval|by_eval|exact L]|].
    eapply gone_kept; [exact Ha|by_eval|apply word_name; by_eval|exact L].
Qed.

Lemma fw_client_kept u u' : agree_but [] u u' → fw_client u → fw_client u'.
Proof.
  intros Ha (T & L & W). split_and!; [by eapply tunnel_kept; [exact Ha|apply not_elem_of_nil..|]| |].
  - eapply section_kept; [exact Ha|by_eval|apply word_name; by_eval|by_eval|exact L].
  - eapply gone_kept; [exact Ha|by_eval|apply word_name; by_eval|exact W].
Qed.

Lemma agree_after ss u u1 u2 : agree_but ss u u1 → agree_but [] u1 u2 → agree_but ss u u2.
Proof. intros H1 H2. apply (agree_trans _ _ u1); [done|]. apply (agree_weaken []); [set_solver|done]. Qed.

Lemma agree_before ss u u1 u2 : agree_but [] u u1 → agree_but ss u1 u2 → agree_but ss u u2.
Proof. intros H1 H2. apply (agree_trans _ _ u1); [|done]. apply (agree_weaken []); [set_solver|done]. Qed.

Ltac step_args := [> apply word_name; by_eval | by_eval | apply word_name; by_eval | first [by left|right; by_eval|repeat (constructor; [by_eval|]); constructor] ].
Ltac steps :=
  lazymatch goal with
  | |- fw_step _ ?u ?u => apply fw_refl
  | |- fw_step _ _ (put_opts ?v ?p ?s ?l) => apply (fw_trans _ _ v); [|apply (put_step p s l); step_args]; steps
  | |- fw_step _ _ (del_opts ?v ?p ?s ?l) => apply (fw_trans _ _ v); [|apply (del_step p s l); step_args]; steps
  | |- fw_step _ _ (custom ?v ?l) => apply (fw_trans _ _ v); [|apply (put_step (js "openvpn") (js "custom_config") l); step_args]; steps
  | |- fw_step _ _ (fst (remove ?v ?p ?s ?o)) => apply (fw_trans _ _ v); [|apply (remove_step p s o); step_args]; steps
  | |- fw_step _ _ (set ?v ?p ?s ?o ?x false) => apply (fw_trans _ _ v); [|apply (fw_set_step p s o x); step_args]; steps
  | |- _ => idtac
  end.

#[local] Opaque configureFirewall.

Lemma disabled_saved u u' : fw_ok u → save_disabled u = Ret u' → fw_ok u' ∧ Forall (section_gone u') fw_sections ∧ agree_but fw_sections u u'.
Proof.
  intros Hu. unfold save_disabled. destruct (dropped_all u Hu) as (u1 & -> & H1 & G & A). cbn [exn_bind]. intros [= <-].
  match goal with |- fw_ok ?v ∧ _ => assert (fw_step [] u1 v) as S by steps end.
  destruct (S H1) as [H2 A2]. split_and!; [done| |by eapply agree_after]. eapply gone_all; [done| |done]. by_eval.
Qed.

Lemma extra_step p u u' : save_extra p u = Ret u' → fw_step [] u u'.
Proof.
  unfold save_extra. intros H. binds H. destruct a1; injection H as <-; [apply fw_refl|].
  apply fw_set_step; [apply word_name; by_eval|by_eval|apply word_name; by_eval|right; by_eval].
Qed.

(** The last two steps of saving a server depend on its settings. *)
Lemma server_rest (p : vpn_page) (access duplicate ip mask : jstr) u u' :
  (if access =s js "true" then
     save_extra p (put_opts u pkg (js "server") [(js "subnet_ip", adjustSubnetIp currentLanIp currentLanMask); (js "subnet_mask", currentLanMask)])
   else Ret (del_opts u pkg (js "server") [js "subnet_ip"; js "subnet_mask"])) = Ret u' →
  fw_step [] u (if duplicate =s js "true" then put_opts u' pkg (js "server") [(js "pool", server_pool ip mask)] else del_opts u' pkg (js "server") [js "pool"]).
Proof.
  intros H. assert (S : fw_step [] u u').
  { destruct (access =s js "true"); [|injection H as <-; steps]. eapply fw_trans; [|by eapply extra_step]. steps. }
  destruct (duplicate =s js "true"); (eapply fw_trans; [exact S|]); steps.
Qed.

Lemma server_saved p u u' : fw_ok u → save_server UI currentLanIp currentLanMask p u = Ret u' → ∃ port proto access,
  el (vp_doc p) (server "port") = Ret port ∧ list_value UI (vp_doc p) "protocol" = Ret proto ∧ list_value UI (vp_doc p) "subnet_access" = Ret access ∧
  fw_ok u' ∧ fw_server u' (value port) proto (access =s js "true") ∧ agree_but fw_sections u u'.
Proof.
  intros Hu H. unfold save_server in H. binds H.
  match type of H with Ret ?v = _ => assert (Hv : v = u') by congruence end. clear H. subst u'.
  destruct (server_configured u (value a) a0 (a1 =s js "true") Hu) as (u1 & Ec & H1 & S1 & A1). rewrite Ec in E2. injection E2 as <-.
  exists a, a0, a1.
  match goal with H : (if _ then save_extra _ (put_opts ?v _ _ _) else _) = _ |- _ => assert (fw_step [] u1 v) as S2 by steps end.
  match goal with |- context [fw_ok ?v] => assert (fw_step [] u1 v) as S3 end.
  { eapply fw_trans; [|apply put_step; [apply word_name; by_eval|by_eval|apply word_name; by_eval|repeat (constructor; [by_eval|]); constructor]].
    eapply fw_trans; [exact S2|]. by eapply server_rest. }
  destruct (S3 H1) as [H2 A2]. split_and!; [done..|by eapply fw_server_kept|by eapply agree_after].
Qed.

Lemma ret_triple {A B C} (a a' : A) (b b' : B) (c c' : C) : Ret (a, b, c) = Ret (a', b', c') → a' = a ∧ b' = b ∧ c' = c.
Proof. by intros [= -> -> ->]. Qed.

Lemma client_saved p u u' d b : fw_ok u → save_client UI p u = Ret (u', d, b) →
  fw_ok u' ∧ fw_client u' ∧ agree_but (filter (λ s, s ≠ js "ra_openvpn") fw_sections) u u'.
Proof.
  intros Hu H. unfold save_client in H. binds H.
  destruct (client_configured u false Hu) as (u1 & Ec & H1 & S1 & A1). rewrite Ec in E. injection E as <-.
  assert (S : fw_step [] u1 u').
  { destruct a0; [|binds H]; apply ret_triple in H as (-> & _ & _); steps. }
  destruct (S H1) as [H2 A2]. split_and!; [done|by eapply fw_client_kept|by eapply agree_after].
Qed.

Lemma start_step u :
  fw_step [] u (set (set (set u (js "openvpn") (js "custom_config") [] (UStr (js "openvpn")) false)
    (js "openvpn") (js "globals") [] (UStr (js "globals")) false) (js "openvpn") (js "globals") (js "autostart") (UStr (js "0")) false).
Proof. steps. Qed.

End save.

(** C40: The firewall follows the mode that the page saves.  When [saveChanges] sends its commands, the
    firewall of the container has, for a server, the zone of the tunnel, the ways from the local network
    into it and from it to the internet, an open port with the port and the protocol of the form, and the
    way from the tunnel to the local network exactly when clients are given access to it; for a client, the
    zone, both ways to the local network and none to the internet; and none of the five sections when it
    is disabled.  No other section of the firewall changes, and a client leaves the section of the open port.
    The settings are well formed before and have no list option in the five sections ([fw_ok]), and so they are after. *)
Theorem saved_firewall UI ovpnS lanIp lanMask tunIp proc ping dh p doSave p' config commands :
  fw_ok (vp_uci p) → saveChanges UI ovpnS lanIp lanMask tunIp proc ping dh p doSave = Ret (OvSent p' config commands) →
  fw_ok (vp_uci p') ∧ fw_of_mode UI (vp_doc p') config (vp_uci p) (vp_uci p').
Proof.
  intros Hu H. unfold saveChanges in H. binds H. destruct a as [errors d]. destruct (negb _); [done|]. binds H.
  match type of H with (if ?b then _ else _) = _ => destruct b; [done|] end. binds H. destruct a0 as [[u' d'] blocked].
  match type of E1 with (if _ then let! u := save_disabled ?v in _ else _) = _ => set (u0 := v) in *; assert (S0 : fw_step [] (vp_uci p) u0) by apply start_step end.
  destruct (S0 Hu) as [H0 A0]. clearbody u0. injection H as <- <- _. unfold fw_of_mode. cbn [vp_uci vp_doc with_uci with_doc].
  destruct (default (js "undefined") a.1 =s js "disabled").
  { binds E1. apply ret_triple in E1 as (-> & -> & _). destruct (disabled_saved u0 _ H0 E2) as (H1 & G & A). split_and!; [done..|]. by eapply agree_before. }
  destruct (default (js "undefined") a.1 =s js "server").
  { binds E1. apply ret_triple in E1 as (-> & -> & _). destruct (server_saved _ _ _ _ _ _ H0 E2) as (port & proto & access & P1 & P2 & P3 & H1 & F & A).
    split; [done|]. exists port, proto, access. split_and!; [done..|]. by eapply agree_before. }
  destruct (default (js "undefined") a.1 =s js "client").
  { destruct (client_saved _ _ _ _ _ _ H0 E1) as (H1 & F & A). split_and!; [done..|]. by eapply agree_before. }
  by apply ret_triple in E1 as (-> & -> & _).
Qed.

(** ** A server that is saved *)
Definition list_el (v : string) : element := mkEl (js "select-one") [] false false false [mkOpt (js v) (js v)] 0 [] [] [] None.
Definition sample_server_doc : document := mkDoc (list_to_map
  [(js "openvpn_config", list_el "server"); (server "ip", input_el (js "10.8.0.1")); (server "ip_label", label_el (js "IP:"));
   (server "mask", input_el (js "255.255.255.0")); (server "mask_label", label_el (js "Mask:")); (server "port", input_el (js "1194"));
   (server "port_label", label_el (js "Port:")); (server "protocol", list_el "udp"); (server "subnet_access", list_el "false");
   (server "client_to_client", list_el "false"); (server "duplicate_cn", list_el "true"); (server "redirect_gateway", list_el "true")]) [].
Definition sample_router : UCIContainer :=
  set (set new (js "dropbear") (js "d1") [] (UStr (js "dropbear")) false) (js "dropbear") (js "d1") (js "Port") (UStr (js "22")) false.
Definition sample_server : vpn_page := mkVpn sample_server_doc sample_router sample_router [] None.

Definition sent (r : exn ov_result) : vpn_page * jstr := match r with Ret (OvSent p _ c) => (p, c) | _ => (sample_server, []) end.
Definition sample_sent : vpn_page * jstr := Eval vm_compute in
  sent (saveChanges (λ s, s) (λ s, s) (js "192.168.1.1") (js "255.255.255.0") [] [] [] true sample_server true).

Lemma sample_fw_ok : fw_ok (vp_uci sample_server).
Proof.
  assert (Hw : wf sample_router) by (unfold sample_router; repeat apply set_wf; apply new_wf).
  split; [exact Hw|apply sectioned_shaped, check_sectioned; [exact Hw|vm_compute; reflexivity]|].
  intros s o Hs. change (listOptions (vp_uci sample_server)) with (listOptions sample_router).
  unfold sample_router. rewrite !set_listOptions. apply not_elem_of_empty.
Qed.

Lemma sample_saves :
  saveChanges (λ s, s) (λ s, s) (js "192.168.1.1") (js "255.255.255.0") [] [] [] true sample_server true =
  Ret (OvSent (fst sample_sent) (js "server") (snd sample_sent)).
Proof. vm_cast_no_check (eq_refl (Ret (OvSent (fst sample_sent) (js "server") (snd sample_sent)))). Qed.

Lemma saved_firewall_witness :
  fw_ok (vp_uci (fst sample_sent)) ∧
  fw_of_mode (λ s, s) (vp_doc (fst sample_sent)) (js "server") (vp_uci sample_server) (vp_uci (fst sample_sent)).
Proof. exact (saved_firewall _ _ _ _ _ _ _ _ _ _ _ _ _ sample_fw_ok sample_saves). Defined.
