(* ===== verification/Restrictions.v ===== *)
(** * Access restrictions (restrictions.js)

    The page keeps two tables of rules, restrictions and exceptions, whose rows
    hold the section's name in the [id] of their check box, and two forms of
    the same shape, told apart by a prefix.  A form has containers with tables
    of addresses and of URLs.  The strings of the language pack ([UI],
    [restStr]) are parameters. *)
From S2P Require Import Prelude JsNum JsString JsRegex Uci Ip4 Validate Ip6 Overlap Table TableEdit Dom Modal Ports AddrTable TimeRanges Quotas.
Import Uci Validate Ip6 Table TableEdit Dom Modal Ports.
Open Scope Z_scope.

(** The page: the document, the containers of tables by identifier ([None] is an
    empty one), the edited settings and the original ones. *)
Record rest_page := mkRest {
  rp_doc : document;
  rp_boxes : gmap jstr (option table);
  rp_uci : UCIContainer;
  rp_orig : UCIContainer
}.

Module Restrictions.

Definition pkg : jstr := js "firewall".
Definition newline : jstr := [10].

Definition with_doc (p : rest_page) (d : document) : rest_page := mkRest d (rp_boxes p) (rp_uci p) (rp_orig p).
Definition with_uci (p : rest_page) (u : UCIContainer) : rest_page := mkRest (rp_doc p) (rp_boxes p) u (rp_orig p).
(** [tableContainer.firstChild]; a missing container is [null]. *)
Definition box (p : rest_page) (id : jstr) : exn (option table) := exn_of_option TypeError (rp_boxes p !! id).
Definition with_box (p : rest_page) (id : jstr) (t : option table) : rest_page :=
  mkRest (rp_doc p) (<[id := t]> (rp_boxes p)) (rp_uci p) (rp_orig p).
Definition in_doc (p : rest_page) (f : document → exn document) : exn rest_page :=
  let! d := f (rp_doc p) in Ret (with_doc p d).

Definition set_opt (u : UCIContainer) (sectionId optionId v : jstr) : UCIContainer :=
  set u pkg sectionId optionId (UStr v) false.

(** ** Lists of ports *)
Definition re_lead1 : re := Eval vm_compute in rx "^[\t ]+".
Definition re_trail1 : re := Eval vm_compute in rx "[\t ]+$".
Definition re_comma0 : re := Eval vm_compute in rx ",".
Definition re_comma_blanks : re := Eval vm_compute in rx "[\t ]*,[\t ]*".

(** The blanks of the single ports are replaced in copies that are dropped. *)
Definition validateMultiplePorts (portStr : jstr) : Z :=
  let portStr := replace_all re_lead1 [] portStr in
  let portStr := replace_all re_trail1 [] portStr in
  let splitStr := if test re_comma0 portStr then split_re re_comma_blanks portStr else [portStr] in
  if forallb (fun s => validatePortOrPortRange s =? 0) splitStr then 0 else 1.

(** ** URLs *)
Definition re_url_bad : re := Eval vm_compute in rx "[\n\r\x22']".

Definition validateUrl (url : jstr) : Z := if test re_url_bad url || (zlen url =? 0) then 1 else 0.

(** [while(urlStr.length > 0)]: as many turns as there are code units. *)
Fixpoint url_pieces (fuel : nat) (urlStr : jstr) : list jstr :=
  match fuel with
  | O => []
  | S f =>
      if 0 <? zlen urlStr then
        let next := substr urlStr 0 30 in
        let urlStr := substr_from urlStr 30 in
        (if 0 <? zlen urlStr then next ++ js "-" else next) :: url_pieces f urlStr
      else []
  end.

Definition createUrlSpan (urlStr : jstr) : widget :=
  MkWidget [] [] false [] false [] (url_pieces (length urlStr) urlStr).

(** The children at even places are texts. *)
Definition parseUrlSpan (urlSpan : widget) : exn jstr :=
  let children := line_nodes (w_lines urlSpan) in
  exn_fold (fun parsedUrl '(childIndex, child) =>
    if Nat.even childIndex then
      match child with
      | Text nextStr =>
          Ret (parsedUrl ++ (if (childIndex <? length children - 1)%nat then substr nextStr 0 (zlen nextStr - 1) else nextStr))
      | _ => Raise TypeError
      end
    else Ret parsedUrl) (imap (fun i c => (i, c)) children) [].

Section page.
Variables UI restStr : jstr → jstr.

Definition strings : quota_strings := mkQuotaStrings UI restStr.

(** The same text as the function of the quota page. *)
Definition weekly_i18n (weekly_schd source : jstr) : jstr := Quotas.weekly_i18n strings weekly_schd (source =s js "uci").

(** [getSelectedValue]; [None] is the [undefined] of a missing list. *)
Definition selected (d : document) (id : jstr) : exn (option jstr) :=
  let! r := getSelectedValue UI d id in Ret (fst r).
Definition selected_is (d : document) (id v : jstr) : exn bool :=
  let! s := selected d id in Ret (bool_decide (s = Some v)).
(** Its text, as [uci.set] stores it. *)
Definition selected_text (d : document) (id : jstr) : exn jstr :=
  let! s := selected d id in Ret (default (js "undefined") s).

(** ** Visibility *)
Definition setInvisibleIfAnyChecked (d : document) (checkIds : list jstr) (associatedElementId defaultDisplayMode : jstr) : document :=
  let isChecked := existsb (fun id => match getElementById d id with Some e => e_checked e | None => false end) checkIds in
  match getElementById d associatedElementId with
  | Some e => put d associatedElementId (set_display (if isChecked then js "none" else defaultDisplayMode) e)
  | None => d
  end.

Definition setInvisibleIfIdMatches (d : document) (selectId invisibleOptionValue associatedElementId defaultDisplayMode : jstr) : exn document :=
  let! hidden := selected_is d selectId invisibleOptionValue in
  Ret (match getElementById d associatedElementId with
       | Some e => put d associatedElementId (set_display (if hidden then js "none" else defaultDisplayMode) e)
       | None => d
       end).

(** [innerHTML = v], for a text without markup. *)
Definition set_inner (v : jstr) (e : element) : element :=
  mkEl (e_type e) (e_text_value e) (e_checked e) (e_disabled e) (e_readOnly e) (e_options e) (e_selectedIndex e)
    (e_color e) (e_display e) (e_class e) (Some v).
Definition set_hint (d : document) (id v : jstr) : document :=
  match getElementById d id with Some e => put d id (set_inner v e) | None => d end.

(** The text of an array of data. *)
Definition row_text (r : list datum) : jstr :=
  join (js ",") (map (fun c => match c with DStr s => s | DObj _ => js "[object HTMLElement]" end) r).

(** A row of the table of addresses is added again when it is a MAC address. *)
Definition keep_mac (rulePrefix : jstr) (p : rest_page) (r : list datum) : exn rest_page :=
  let! addr := datum_str r 0 in
  match getIPFamily addr with
  | None =>
      let text := rulePrefix ++ js "applies_to_addr" in
      let container := rulePrefix ++ js "applies_to_table_container" in
      let! t := box p container in
      let! a := AddrTable.addAddressesToTable (UI (js "Remove")) (row_text r) t (rulePrefix ++ js "applies_to_table") true 0 in
      let '(_, rest, t) := a in
      let! d := update (rp_doc p) text (set_value rest) in
      Ret (with_box (with_doc p d) container t)
  | Some _ => Ret p
  end.

Definition updateIPControls (p : rest_page) (rulePrefix : jstr) : exn rest_page :=
  let d := rp_doc p in
  let! selectedVal := selected d (rulePrefix ++ js "ip_family") in
  if bool_decide (selectedVal = Some (js "any")) then
    let! d := setSelectedValue d (rulePrefix ++ js "remote_ip_type") (js "all") in
    let! d := update d (rulePrefix ++ js "remote_ip_type") (set_disabled true) in
    let! d := update d (rulePrefix ++ js "applies_to_4_container") (set_display (js "block")) in
    let! d := update d (rulePrefix ++ js "applies_to_6_container") (set_display (js "none")) in
    let d := set_hint d (rulePrefix ++ js "applies_to_hint") (restStr (js "HstAddrAny")) in
    let p := with_doc p d in
    let container := rulePrefix ++ js "applies_to_table_container" in
    let! t := box p container in
    match t with
    | None => Ret p
    | Some t =>
        let! tabData := getTableDataArray t true false in
        exn_fold (keep_mac rulePrefix) tabData (with_box p container None)
    end
  else
    let ipv4 := bool_decide (selectedVal = Some (js "ipv4")) in
    let d := set_hint d (rulePrefix ++ js "applies_to_hint") (restStr (js "HstAddr")) in
    let! d := update d (rulePrefix ++ js "remote_ip_type") (set_disabled false) in
    let show d id b := update d (rulePrefix ++ id) (set_display (if (b : bool) then js "block" else js "none")) in
    let! d := show d (js "applies_to_4_container") ipv4 in
    let! d := show d (js "applies_to_6_container") (negb ipv4) in
    let! d := show d (js "remote_ip_4_container") ipv4 in
    let! d := show d (js "remote_ip_6_container") (negb ipv4) in
    Ret (with_doc p d).

Definition setVisibility (p : rest_page) (rulePrefix : jstr) : exn rest_page :=
  let! p := updateIPControls p rulePrefix in
  let id s := rulePrefix ++ s in
  let block := js "block" in
  let both := [id (js "all_day"); id (js "every_day")] in
  let d := setInvisibleIfAnyChecked (rp_doc p) [id (js "all_access")] (id (js "resources")) block in
  let d := setInvisibleIfAnyChecked d [id (js "all_day")] (id (js "hours_active_container")) block in
  let d := setInvisibleIfAnyChecked d [id (js "every_day")] (id (js "days_active")) block in
  let d := setInvisibleIfAnyChecked d both (id (js "days_and_hours_active_container")) block in
  let d := setInvisibleIfAnyChecked d both (id (js "schedule_repeats")) (js "inline") in
  let! scheduleRepeats := el d (id (js "schedule_repeats")) in
  let! d := (if negb (e_display scheduleRepeats =s js "none") then
    let! d := setInvisibleIfIdMatches d (id (js "schedule_repeats")) (js "daily") (id (js "days_and_hours_active_container")) block in
    let! d := setInvisibleIfIdMatches d (id (js "schedule_repeats")) (js "weekly") (id (js "days_active")) block in
    setInvisibleIfIdMatches d (id (js "schedule_repeats")) (js "weekly") (id (js "hours_active_container")) block
    else Ret d) in
  let all d sel el mode := setInvisibleIfIdMatches d (id sel) (js "all") (id el) mode in
  let! d := all d (js "applies_to") (js "applies_to_container") block in
  let! d := all d (js "remote_ip_type") (js "remote_ip_container") block in
  let! d := all d (js "remote_port_type") (js "remote_port") (js "inline") in
  let! d := all d (js "local_port_type") (js "local_port") (js "inline") in
  let! d := all d (js "app_protocol_type") (js "app_protocol") (js "inline") in
  let! d := all d (js "url_type") (js "url_match_list") block in
  Ret (with_doc p d).

(** ** From the settings to the form *)

(** The value of an option or of its opposite, and the choice that tells which. *)
Definition option_or_not (sourceUci : UCIContainer) (sectionId optionId : jstr) : jstr * jstr :=
  let optionValue := gets sourceUci pkg sectionId optionId in
  if optionValue =s [] then
    let optionValue := gets sourceUci pkg sectionId (js "not_" ++ optionId) in
    (optionValue, if negb (optionValue =s []) then js "except" else js "all")
  else (optionValue, js "only").

Definition addr_rows (tableId : jstr) (optionValue : jstr) : table :=
  let optionValue := replace AddrTable.re_lead_blanks0 [] optionValue in
  let optionValue := replace AddrTable.re_trail_blanks0 [] optionValue in
  fold_left (fun t ip => addTableRow (UI (js "Remove")) t [DStr ip] true false)
    (split_re re_comma_blanks optionValue) (createTable (UI (js "Remove")) [DStr []] [] tableId true false).

Definition setIpTableAndSelectFromUci (p : rest_page) (sourceUci : UCIContainer)
    (sectionId optionId tableContainerId tableId prefixSelectId textId : jstr) : exn rest_page :=
  let '(optionValue, type) := option_or_not sourceUci sectionId optionId in
  let! d := setSelectedValue (rp_doc p) prefixSelectId type in
  let p := with_doc p d in
  let! _t := box p tableContainerId in
  if negb (optionValue =s []) then
    let p := with_box p tableContainerId (Some (addr_rows tableId optionValue)) in
    in_doc p (fun d => update d textId (set_value []))
  else Ret (with_box p tableContainerId None).

Definition setTextAndSelectFromUci (d : document) (sourceUci : UCIContainer) (sectionId optionId textId prefixSelectId : jstr) : exn document :=
  let '(optionValue, type) := option_or_not sourceUci sectionId optionId in
  let! d := setSelectedValue d prefixSelectId type in
  update d textId (set_value optionValue).

Definition allDays : list jstr := [js "sun"; js "mon"; js "tue"; js "wed"; js "thu"; js "fri"; js "sat"].

(** The check boxes of the days; all of them are found, and there are no weekly
    ranges: every day. *)
Definition set_days (rulePrefix daysAndHours dayStr : jstr) (d : document) : exn document :=
  let days := if dayStr =s [] then allDays else split_re re_comma0 dayStr in
  let! r := exn_fold (fun '(everyDay, d) nextDay =>
    let dayFound := bool_decide (nextDay ∈ days) in
    let! d := update d (rulePrefix ++ nextDay) (set_checked dayFound) in
    Ret ((everyDay : bool) && dayFound, d)) allDays (daysAndHours =s [], d) in
  update (snd r) (rulePrefix ++ js "every_day") (set_checked (fst r)).

(** Expression, part and option of the six kinds of URL. *)
Definition urlTypes : list (jstr * jstr * jstr) :=
  [(js "url_contains", js "contains", js "full"); (js "url_regex", js "regex", js "full"); (js "url_exact", js "exact", js "full");
   (js "url_domain_contains", js "contains", js "domain"); (js "url_domain_regex", js "regex", js "domain");
   (js "url_domain_exact", js "exact", js "domain")].

Definition url_options (sourceUci : UCIContainer) (sectionId urlPrefix : jstr) : list jstr :=
  map (fun '(t, _, _) => gets sourceUci pkg sectionId (urlPrefix ++ t)) urlTypes.

(** The definitions, and the choice that tells their meaning. *)
Definition urlDefinitions (sourceUci : UCIContainer) (sectionId : jstr) : list jstr * jstr :=
  let only := url_options sourceUci sectionId [] in
  if existsb (fun s => negb (s =s [])) only then (only, js "only")
  else
    let except := url_options sourceUci sectionId (js "not_") in
    (except, if existsb (fun s => negb (s =s [])) except then js "except" else js "all").

Definition re_open_quote : re := Eval vm_compute in rx "^[\t ]*\x22".
Definition re_close_quote : re := Eval vm_compute in rx "\x22[\t ]*$".
Definition re_two_quotes : re := Eval vm_compute in rx "\x22.*\x22".
Definition re_between : re := Eval vm_compute in rx "\x22[\t, ]*\x22".

Definition url_list (defStr : jstr) : list jstr :=
  let defStr := replace re_open_quote [] defStr in
  let defStr := replace re_close_quote [] defStr in
  if test re_two_quotes defStr then split_re re_between defStr else [defStr].

Definition url_row (part expr url : jstr) : list datum := [DStr part; DStr expr; DObj (createUrlSpan url)].

Definition url_columns : list datum := [DStr (restStr (js "UPrt")); DStr (restStr (js "MTyp")); DStr (restStr (js "MTExp"))].

Definition url_rows (defs : list jstr) : list (list datum) :=
  concat (zip_with (fun '(_, expr, part) defStr =>
    if negb (defStr =s []) then map (url_row part expr) (url_list defStr) else []) urlTypes defs).

Definition url_table (tableId : jstr) (defs : list jstr) : table :=
  fold_left (fun t r => addTableRow (UI (js "Remove")) t r true false) (url_rows defs)
    (createTable (UI (js "Remove")) url_columns [] tableId true false).

Definition resourceTypeIds : list jstr :=
  [js "remote_ip_type"; js "remote_port_type"; js "local_port_type"; js "transport_protocol"; js "app_protocol_type"; js "url_type"].

Definition setDocumentFromUci (p : rest_page) (sourceUci : UCIContainer) (sectionId rulePrefix : jstr) : exn rest_page :=
  let id s := rulePrefix ++ s in
  let opt o := gets sourceUci pkg sectionId o in
  let description := opt (js "description") in
  let! d := update (rp_doc p) (id (js "name")) (set_value (if description =s [] then sectionId else description)) in
  let ipfam := if opt (js "family") =s [] then js "any" else opt (js "family") in
  let! d := setSelectedValue d (id (js "ip_family")) ipfam in
  let six := if ipfam =s js "ipv6" then js "6" else [] in
  let! p := setIpTableAndSelectFromUci (with_doc p d) sourceUci sectionId (js "local_addr")
              (id (js "applies_to" ++ six ++ js "_table_container")) (id (js "applies_to" ++ six ++ js "_table"))
              (id (js "applies_to")) (id (js "applies_to" ++ six ++ js "_addr")) in
  let daysAndHours := opt (js "active_weekly_ranges") in
  let hours := opt (js "active_hours") in
  let! d := update (rp_doc p) (id (js "hours_active")) (set_value hours) in
  let! d := update d (id (js "all_day")) (set_checked ((daysAndHours =s []) && (hours =s []))) in
  let! d := update d (id (js "days_and_hours_active")) (set_value (weekly_i18n daysAndHours (js "uci"))) in
  let! d := setSelectedValue d (id (js "schedule_repeats")) (if daysAndHours =s [] then js "daily" else js "weekly") in
  let! d := set_days rulePrefix daysAndHours (opt (js "active_weekdays")) d in
  let! p := setIpTableAndSelectFromUci (with_doc p d) sourceUci sectionId (js "remote_addr")
              (id (js "remote_ip" ++ six ++ js "_table_container")) (id (js "remote_ip" ++ six ++ js "_table"))
              (id (js "remote_ip_type")) (id (js "remote_ip" ++ six)) in
  let! d := setTextAndSelectFromUci (rp_doc p) sourceUci sectionId (js "remote_port") (id (js "remote_port")) (id (js "remote_port_type")) in
  let! d := setTextAndSelectFromUci d sourceUci sectionId (js "local_port") (id (js "local_port")) (id (js "local_port_type")) in
  let proto := opt (js "proto") in
  let! d := setSelectedValue d (id (js "transport_protocol"))
              (if negb (proto =s js "tcp") && negb (proto =s js "udp") then js "both" else proto) in
  let '(app_proto, app_proto_type) := option_or_not sourceUci sectionId (js "app_proto") in
  let! d := setSelectedValue d (id (js "app_protocol_type")) app_proto_type in
  let! d := setSelectedValue d (id (js "app_protocol")) app_proto in
  let '(defs, urlMatchType) := urlDefinitions sourceUci sectionId in
  let! d := setSelectedValue d (id (js "url_type")) urlMatchType in
  let p := with_doc p d in
  let! _t := box p (id (js "url_match_table_container")) in
  let p := with_box p (id (js "url_match_table_container"))
             (if urlMatchType =s js "all" then None else Some (url_table (id (js "url_match_table")) defs)) in
  let! d := update (rp_doc p) (id (js "url_match")) (set_value []) in
  let! allResourcesBlocked := exn_fold (fun (b : bool) typeId =>
    let! type := selected d (id typeId) in
    Ret (b && (bool_decide (type = Some (js "all")) || bool_decide (type = Some (js "both"))))) resourceTypeIds true in
  let! d := update d (id (js "all_access")) (set_checked allResourcesBlocked) in
  setVisibility (with_doc p d) rulePrefix.

(** ** From the form to the settings *)
Definition setIfVisible (u : UCIContainer) (d : document) (sectionId optionId textId visId : jstr) (prefixSelectId : option jstr)
    : exn UCIContainer :=
  let! visElement := el d visId in
  if negb (e_display visElement =s js "none") then
    let! textElement := el d textId in
    let! except := match prefixSelectId with Some s => selected_is d s (js "except") | None => Ret false end in
    Ret (set_opt u sectionId (if except then js "not_" ++ optionId else optionId) (value textElement))
  else Ret u.

Definition re_last_comma : re := Eval vm_compute in rx ",$".

Definition setFromIpTable (u : UCIContainer) (p : rest_page) (sectionId optionId containerId prefixSelectId : jstr) : exn UCIContainer :=
  let! localAddrType := selected (rp_doc p) prefixSelectId in
  let! t := box p containerId in
  match t with
  | None => Ret u
  | Some t =>
      if bool_decide (localAddrType = Some (js "all")) then Ret u
      else
        let! ipData := getTableDataArray t true false in
        let ipStr := concat (map (fun r => row_text (take 1 r) ++ js ",") ipData) in
        let ipStr := replace re_last_comma [] ipStr in
        Ret (if 0 <? zlen ipStr
             then set_opt u sectionId ((if bool_decide (localAddrType = Some (js "except")) then js "not_" else []) ++ optionId) ipStr
             else u)
  end.

Definition quote : jstr := [34].

(** The strings by kind of URL, in the order of the rows. *)
Definition add_url (defs : gmap jstr jstr) (r : list datum) : exn (gmap jstr jstr) :=
  let! part := datum_str r 0 in
  let! expr := datum_str r 1 in
  let! span := match r !! 2%nat with Some (DObj w) => Ret w | _ => Raise TypeError end in
  let urlId := (if contains part (js "domain") then js "url_domain_" else js "url_") ++ expr in
  let! urlStr := parseUrlSpan span in
  Ret (<[urlId := match defs !! urlId with
                  | Some s => s ++ js "," ++ quote ++ urlStr ++ quote
                  | None => quote ++ urlStr ++ quote
                  end]> defs).

Definition url_ids : list jstr :=
  [js "url_exact"; js "url_contains"; js "url_regex"; js "url_domain_exact"; js "url_domain_contains"; js "url_domain_regex"].

Definition set_urls (u : UCIContainer) (sectionId urlPrefix : jstr) (defs : gmap jstr jstr) : UCIContainer :=
  fold_left (fun u id => match defs !! id with Some s => set_opt u sectionId (urlPrefix ++ id) s | None => u end) url_ids u.

Definition store_urls (u : UCIContainer) (p : rest_page) (sectionId rulePrefix : jstr) : exn UCIContainer :=
  let! urlMatchType := selected (rp_doc p) (rulePrefix ++ js "url_type") in
  let! urlTable := box p (rulePrefix ++ js "url_match_table_container") in
  match urlTable with
  | None => Ret u
  | Some t =>
      if bool_decide (urlMatchType = Some (js "all")) then Ret u
      else
        let! urlData := getTableDataArray t true false in
        let! defs := exn_fold add_url urlData ∅ in
        Ret (set_urls u sectionId (if bool_decide (urlMatchType = Some (js "except")) then js "not_" else []) defs)
  end.

Definition checked_days (d : document) (rulePrefix : jstr) : exn (list jstr) :=
  exn_fold (fun l day => let! e := el d (rulePrefix ++ day) in Ret (if e_checked e then l ++ [day] else l)) allDays [].

Definition store_resources (u : UCIContainer) (p : rest_page) (sectionId rulePrefix six : jstr) : exn UCIContainer :=
  let d := rp_doc p in
  let id s := rulePrefix ++ s in
  let! u := setFromIpTable u p sectionId (js "remote_addr") (id (js "remote_ip" ++ six ++ js "_table_container")) (id (js "remote_ip_type")) in
  let! u := setIfVisible u d sectionId (js "remote_port") (id (js "remote_port")) (id (js "remote_port")) (Some (id (js "remote_port_type"))) in
  let! u := setIfVisible u d sectionId (js "local_port") (id (js "local_port")) (id (js "local_port")) (Some (id (js "local_port_type"))) in
  let! proto := selected_text d (id (js "transport_protocol")) in
  let u := set_opt u sectionId (js "proto") proto in
  let! appProtocolType := selected d (id (js "app_protocol_type")) in
  let! u := (if bool_decide (appProtocolType = Some (js "all")) then Ret u
             else let! v := selected_text d (id (js "app_protocol")) in
                  Ret (set_opt u sectionId ((if bool_decide (appProtocolType = Some (js "except")) then js "not_" else []) ++ js "app_proto") v)) in
  store_urls u p sectionId rulePrefix.

Definition setUciFromDocument (p : rest_page) (sectionId ruleType rulePrefix : jstr) : exn rest_page :=
  let id s := rulePrefix ++ s in
  let! u := removeSection (rp_uci p) pkg sectionId in
  let u := set_opt u sectionId [] ruleType in
  let u := set_opt u sectionId (js "is_ingress") (js "0") in
  let u := set_opt u sectionId [] ruleType in
  let! name := el (rp_doc p) (id (js "name")) in
  let u := set_opt u sectionId (js "description") (value name) in
  let! ipfam := selected_text (rp_doc p) (id (js "ip_family")) in
  let u := set_opt u sectionId (js "family") ipfam in
  let six := if ipfam =s js "ipv6" then js "6" else [] in
  let! u := setFromIpTable u p sectionId (js "local_addr") (id (js "applies_to" ++ six ++ js "_table_container")) (id (js "applies_to")) in
  let! daysActive := el (rp_doc p) (id (js "days_active")) in
  let! u := (if negb (e_display daysActive =s js "none")
             then let! l := checked_days (rp_doc p) rulePrefix in Ret (set_opt u sectionId (js "active_weekdays") (join (js ",") l))
             else Ret u) in
  let! u := setIfVisible u (rp_doc p) sectionId (js "active_hours") (id (js "hours_active")) (id (js "hours_active_container")) None in
  let! d := update (rp_doc p) (id (js "days_and_hours_active")) (fun e => set_value (weekly_i18n (value e) (js "table")) e) in
  let p := with_doc p d in
  let! u := setIfVisible u d sectionId (js "active_weekly_ranges") (id (js "days_and_hours_active")) (id (js "days_and_hours_active_container")) None in
  let! all_access := el d (id (js "all_access")) in
  let! u := (if negb (e_checked all_access) then store_resources u p sectionId rulePrefix six else Ret u) in
  Ret (with_uci p u).

(** ** Rows of the tables of rules *)
Definition createEnabledCheckbox (enabled : bool) : widget := mkWidget (js "checkbox") [] false [] enabled.
(** [enabledCheck.id = sectionId] *)
Definition rule_check (enabled : bool) (sectionId : jstr) : widget :=
  MkWidget (js "checkbox") [] false [] enabled sectionId [].

Definition createEditButton (enabled : bool) : widget :=
  enable_button enabled (mkWidget (js "button") (UI (js "Edit")) false (js "btn btn-default btn-edit") false).

Definition rule_row (description : jstr) (enabled : bool) (sectionId : jstr) : list datum :=
  [DStr description; DObj (rule_check enabled sectionId); DObj (createEditButton enabled)].

Definition table_box (rulePrefix : jstr) : jstr := rulePrefix ++ js "table_container".

(** A click changes the box of the row, then [setRowEnabled] runs: the string
    "0" counts as true, and the button is enabled in either case. *)
Definition click_row (r : row) : exn (row * jstr * bool) :=
  let! w := cell_widget r 1 in
  let checked := negb (w_checked w) in
  let! r := set_widget 1 (check_widget checked) r in
  let! r := set_widget 2 (enable_button true) r in
  Ret (r, w_id w, checked).

Definition setRowEnabled (p : rest_page) (rulePrefix : jstr) (row : nat) : exn rest_page :=
  let! t := box p (table_box rulePrefix) in
  let! t := exn_of_option TypeError t in
  let! r := body_row t row in
  let! c := click_row r in
  let '(r', id, checked) := c in
  let t := set_body_row t row r' in
  Ret (with_box (with_uci p (set_opt (rp_uci p) id (js "enabled") (if (checked : bool) then js "1" else js "0")))
         (table_box rulePrefix) (Some t)).

Definition removeRuleCallback (p : rest_page) (r : row) : exn rest_page :=
  let! w := cell_widget r 1 in
  let! u := removeSection (rp_uci p) pkg (w_id w) in
  Ret (with_uci p u).

(** The button that removes a row: the row leaves the table, then the callback. *)
Definition remove_rule (p : rest_page) (rulePrefix : jstr) (row : nat) : exn rest_page :=
  let! t := box p (table_box rulePrefix) in
  let! t := exn_of_option TypeError t in
  let! r := body_row t row in
  let! t := removeThisCellsRow t row in
  removeRuleCallback (with_box p (table_box rulePrefix) (Some t)) r.

(** ** Validation *)
Definition weekly_code (s : jstr) : Z :=
  match validateWeeklyRange (Quotas.local_days strings) s with Ret z => z | Raise _ => 1 end.

Definition validateRule (p : rest_page) (rulePrefix : jstr) : exn (list jstr * document) :=
  let id s := rulePrefix ++ s in
  let! all_access := el (rp_doc p) (id (js "all_access")) in
  let resources s := if e_checked all_access then id (js "resources") else id s in
  proofreadFields UI (rp_doc p)
    [mkField (id (js "hours_active")) (id (js "hours_active_label")) validateHours 0 (Some (id (js "hours_active_container")));
     mkField (id (js "days_and_hours_active")) (id (js "days_and_hours_active_label")) weekly_code 0
       (Some (id (js "days_and_hours_active_container")));
     mkField (id (js "remote_port")) (id (js "remote_port_label")) validateMultiplePorts 0 (Some (resources (js "remote_port")));
     mkField (id (js "local_port")) (id (js "local_port_label")) validateMultiplePorts 0 (Some (resources (js "local_port")))].

(** [proofreadMultiplePorts] and [proofreadUrl] on a field. *)
Definition proofreadMultiplePorts (d : document) (id : jstr) : exn document := update d id (proofread_el validateMultiplePorts 0).
Definition proofreadUrl (d : document) (id : jstr) : exn document := update d id (proofread_el validateUrl 0).

Definition restriction_proofreadMultipleIpsOrMacs (d : document) (rulePrefix callingEl : jstr) : exn document :=
  let! any := selected_is d (rulePrefix ++ js "ip_family") (js "any") in
  update d callingEl (proofread_el (if any then validateMac else validateMultipleIpsOrMacs) 0).

(** [addAddressesToTable] on the page, with its alert. *)
Definition restriction_addAddressesToTable (p : rest_page) (rulePrefix textId tableContainerId tableId : jstr)
    (macsValid : bool) (ipValidType : Z) (alertOnError : bool) : exn rest_page :=
  let! any := selected_is (rp_doc p) (rulePrefix ++ js "ip_family") (js "any") in
  let! text := el (rp_doc p) textId in
  let! t := box p tableContainerId in
  let! a := AddrTable.addAddressesToTable (UI (js "Remove")) (value text) t tableId macsValid (if any then 0 else ipValidType) in
  let '(valid, rest, t) := a in
  let! d := update (rp_doc p) textId (set_value rest) in
  let d := if negb valid && alertOnError then alert d (UI (js "InvAdd") ++ newline) else d in
  Ret (with_box (with_doc p d) tableContainerId t).

Definition addUrlToTable (p : rest_page) (textId selectId tableContainerId tableId : jstr) : exn rest_page :=
  let! text := el (rp_doc p) textId in
  let newUrl := value text in
  let! urlType := selected (rp_doc p) selectId in
  if validateUrl newUrl =? 0 then
    let! b := box p tableContainerId in
    let t := default (createTable (UI (js "Remove")) url_columns [] tableId true false) b in
    let! urlType := exn_of_option TypeError urlType in
    let t := addTableRow (UI (js "Remove")) t
      (url_row (if contains urlType (js "domain") then js "domain" else js "full") (substring_from urlType (lastIndexOf urlType 95 + 1)) newUrl)
      true false in
    in_doc (with_box p tableContainerId (Some t)) (fun d => update d textId (set_value []))
  else
    Ret (with_doc p (alert (rp_doc p) (if zlen newUrl =? 0 then restStr (js "UMZErr") else restStr (js "UChErr") ++ newline))).

(** ** Rules *)

(** [while(uci.get(pkg, newId, "") != "")]: one turn for each key and one more. *)
Fixpoint free_rule (fuel : nat) (u : UCIContainer) (rulePrefix : jstr) (newIndex : Z) : option jstr :=
  let newId := rulePrefix ++ str_of_Z newIndex in
  match fuel with
  | O => None
  | S f => if gets u pkg newId [] =s [] then Some newId else free_rule f u rulePrefix (newIndex + 1)
  end.

Definition alert_rule (p : rest_page) (d : document) (errors : list jstr) : rest_page :=
  with_doc p (alert d (join newline errors ++ newline ++ restStr (js "ARErr"))).

Definition addNewRule (p : rest_page) (ruleType rulePrefix : jstr) : exn rest_page :=
  let! r := validateRule p rulePrefix in
  if negb (length (fst r) =? 0)%nat then Ret (alert_rule p (snd r) (fst r))
  else
    let p := with_doc p (snd r) in
    let! t := box p (table_box rulePrefix) in
    let! t := exn_of_option TypeError t in
    let! tableData := getTableDataArray t false false in
    let! newId := exn_of_option RangeError
      (free_rule (S (length (keys (rp_uci p)))) (rp_uci p) rulePrefix (zlen tableData + 1)) in
    let! p := setUciFromDocument p newId ruleType rulePrefix in
    let description := gets (rp_uci p) pkg newId (js "description") in
    let t := addTableRow (UI (js "Remove")) t (rule_row (if description =s [] then newId else description) true newId) true false in
    setDocumentFromUci (with_box p (table_box rulePrefix) (Some t)) new [] rulePrefix.

Definition editRule (p : rest_page) (editRuleType editRulePrefix : jstr) (editRow : row) : exn rest_page :=
  let! w := cell_widget editRow 1 in
  let editRuleSectionId := w_id w in
  let! r := validateRule p editRulePrefix in
  if negb (length (fst r) =? 0)%nat then Ret (alert_rule p (snd r) (fst r))
  else
    let! p := setUciFromDocument (with_doc p (snd r)) editRuleSectionId editRuleType editRulePrefix in
    let description := gets (rp_uci p) pkg editRuleSectionId (js "description") in
    if negb (description =s []) then
      let! t := box p (table_box editRulePrefix) in
      let! t := edit_cells t (r_id editRow) [(0%nat, description)] in
      Ret (with_box p (table_box editRulePrefix) t)
    else Ret p.

(** ** Loading and saving *)
Definition rules : list (jstr * jstr) := [(js "restriction_rule", js "rule_"); (js "whitelist_rule", js "exception_")].

Definition is_enabled (enabledStr : jstr) : bool :=
  (enabledStr =s []) || (enabledStr =s js "1") || (enabledStr =s js "true").

Definition load_row (u : UCIContainer) (section : jstr) : list datum :=
  let description := gets u pkg section (js "description") in
  rule_row (if description =s [] then section else description) (is_enabled (gets u pkg section (js "enabled"))) section.

Definition is_ingress (u : UCIContainer) (section : jstr) : bool := gets u pkg section (js "is_ingress") =s js "1".

Definition load_rules (p : rest_page) (tp : jstr * jstr) : exn rest_page :=
  let '(ruleType, rulePrefix) := tp in
  let! sections := getAllSectionsOfType (rp_orig p) pkg ruleType in
  let ruleTableData := map (load_row (rp_orig p)) (List.filter (fun s => negb (is_ingress (rp_orig p) s)) sections) in
  let firstColumn := if ruleType =s js "restriction_rule" then restStr (js "RDesc") else restStr (js "ESect") in
  let ruleTable := createTable (UI (js "Remove")) [DStr firstColumn; DStr (UI (js "Enabled")); DStr []] ruleTableData
                     (rulePrefix ++ js "table") true false in
  let! _t := box p (table_box rulePrefix) in
  let! p := setDocumentFromUci (with_box p (table_box rulePrefix) (Some ruleTable)) new [] rulePrefix in
  setVisibility p rulePrefix.

Definition resetData (p : rest_page) : exn rest_page := exn_fold load_rules rules p.

(** The states of the boxes of a table, written to the settings. *)
Definition store_enabled (u : UCIContainer) (ruleData : list (list datum)) : exn UCIContainer :=
  exn_fold (fun u r =>
    match r !! 1%nat with
    | Some (DObj check) => Ret (set_opt u (w_id check) (js "enabled") (if w_checked check then js "1" else js "0"))
    | _ => Raise TypeError
    end) ruleData u.

(** One type of rules: the settings, the original ones without its rules, the
    two lists of commands. *)
Definition save_rules (boxes : gmap jstr (option table)) (st : UCIContainer * UCIContainer * list jstr * list jstr) (tp : jstr * jstr)
    : exn (UCIContainer * UCIContainer * list jstr * list jstr) :=
  let '(uci, uciOriginal, deletes, creates) := st in
  let '(ruleType, rulePrefix) := tp in
  let! t := exn_of_option TypeError (boxes !! table_box rulePrefix) in
  let! t := exn_of_option TypeError t in
  let! ruleData := getTableDataArray t false false in
  let! uci := store_enabled uci ruleData in
  let! originalSections := getAllSectionsOfType uciOriginal pkg ruleType in
  let! o := exn_fold (fun '(u, deletes) s =>
    if is_ingress u s then Ret (u, deletes)
    else let! u := removeSection u pkg s in Ret (u, deletes ++ [js "uci del " ++ pkg ++ js "." ++ s]))
    originalSections (uciOriginal, deletes) in
  let! newSections := getAllSectionsOfType uci pkg ruleType in
  Ret (uci, fst o, snd o,
       creates ++ map (fun s => js "uci set " ++ pkg ++ js "." ++ s ++ js "='" ++ ruleType ++ js "'") newSections).

(** The page and the commands that are sent. *)
Definition saveChanges (p : rest_page) : exn (rest_page * jstr) :=
  let! st := exn_fold (save_rules (rp_boxes p)) rules (rp_uci p, rp_orig p, [], []) in
  let '(uci, uciOriginal, deletes, creates) := st in
  let commit := js "uci commit" in
  let commands := join newline (deletes ++ [commit]) ++ newline ++ join newline (creates ++ [commit]) ++ newline
    ++ getScriptCommands uci uciOriginal ++ newline ++ [] ++ newline ++ js "sh /usr/lib/gargoyle/restart_firewall.sh" in
  Ret (mkRest (rp_doc p) (rp_boxes p) uci uciOriginal, commands).

(** The answer: the settings are the original ones now. *)
Definition saved (p : rest_page) : exn rest_page :=
  let! u := clone (rp_uci p) in resetData (mkRest (rp_doc p) (rp_boxes p) (rp_uci p) u).

(** ** Windows *)
Definition rule_type (isRestriction : bool) : jstr := if isRestriction then js "restriction_rule" else js "whitelist_rule".
Definition rule_prefix (isRestriction : bool) : jstr := if isRestriction then js "rule_" else js "exception_".

Definition addRestrictionModal (p : rest_page) (isRestriction : bool) : exn rest_page :=
  let! p := setDocumentFromUci p new [] (rule_prefix isRestriction) in
  Ret (with_doc p (modalPrepare (rp_doc p) [])).

Definition editRestrictionModal (p : rest_page) (isRestriction : bool) (editRow : row) : exn rest_page :=
  let! w := cell_widget editRow 1 in
  let! p := setDocumentFromUci p (rp_uci p) (w_id w) (rule_prefix isRestriction) in
  let! p := setVisibility p (rule_prefix isRestriction) in
  Ret (with_doc p (modalPrepare (rp_doc p) [])).

End page.

End Restrictions.
