(* ===== verification/RestrictionUse.v ===== *)
(** * The tables of rules follow the settings

    Whatever rules the user adds, edits, switches and removes, the rows of the
    two tables are exactly the rules of the settings. *)
From S2P Require Import Prelude JsNum JsString JsRegex Uci UciFacts UciScript Sections Ip4 Validate Ip6 Table TableFacts TableEdit Dom Modal Ports AddrTable Restrictions.
Import Uci Table TableEdit Dom Modal Ports Restrictions.
Open Scope Z_scope.

(** ** One section rewritten *)

(** The settings [u'] after the section [sec] of [u] was written as a rule. *)
Record stored (sec type : jstr) (u u' : UCIContainer) : Prop := {
  st_wf : wf u';
  st_shaped : shaped u';
  st_frame : ∀ s o, name s → o = [] ∨ name o → s ≠ sec → get u' pkg s o = get u pkg s o;
  st_nolist : ∀ o, o = [] ∨ name o → next_key pkg sec o ∉ listOptions u';
  st_type : get u' pkg sec [] = UStr type;
  st_ingress : get u' pkg sec (js "is_ingress") = UStr (js "0")
}.

Section storing.

Lemma word_pkg : word pkg.
Proof. by_eval. Qed.

Lemma get_set_other u s o v s' o' : name s → o = [] ∨ name o → name s' → o' = [] ∨ name o' → (s, o) ≠ (s', o') →
  get (set u pkg s o v false) pkg s' o' = get u pkg s' o'.
Proof. apply set_get_other, word_name, word_pkg. Qed.

Lemma get_set_same u s o v : next_key pkg s o ∉ listOptions u → get (set u pkg s o (UStr v) false) pkg s o = UStr v.
Proof. apply set_get_same. Qed.

Lemma get_without u s x o : name s → name x → o = [] ∨ name o →
  get (without_section u pkg s) pkg x o = if decide (x = s) then UStr [] else get u pkg x o.
Proof. apply without_get, word_name, word_pkg. Qed.

Context (sec type : jstr) (u : UCIContainer).
Hypothesis Hsec : word sec.

(** The names of the options are words other than [is_ingress]. *)
Definition plain_opt (o : jstr) : bool := bool_decide (name o) && negb (o =s js "is_ingress").

Lemma stored_set o v u' : plain_opt o = true → stored sec type u u' → stored sec type u (set_opt u' sec o v).
Proof using Hsec.
  intros [Ho Hi]%andb_true_iff [H1 H2 H3 H4 H5 H6]. apply bool_decide_eq_true in Ho. apply negb_true_iff, str_eqb_neq in Hi. unfold set_opt. pose proof (word_name _ Hsec) as Hn. split.
  - by apply set_wf.
  - apply set_shaped; auto using word_name, word_pkg.
  - intros s o' Hs Ho' Hne. rewrite get_set_other; auto. congruence.
  - intros o' Ho'. rewrite set_listOptions. auto.
  - rewrite get_set_other; auto. intros [= ->]. by destruct Ho.
  - rewrite get_set_other; auto; [right; by_eval|]. congruence.
Qed.

Lemma stored_start u0 : wf u → shaped u → removeSection u pkg sec = Ret u0 →
  stored sec type u (set_opt (set_opt (set_opt u0 sec [] type) sec (js "is_ingress") (js "0")) sec [] type).
Proof using Hsec.
  intros Hwf Hsh E. rewrite removeSection_without in E by auto using word_pkg. injection E as <-.
  pose proof (word_name _ Hsec) as Hn. unfold set_opt.
  assert (Hl : ∀ o, o = [] ∨ name o → next_key pkg sec o ∉ listOptions (without_section u pkg sec)).
  { intros o Ho. simpl. rewrite elem_of_filter. intros [Hk _]. apply not_true_iff_false in Hk. apply Hk.
    destruct Ho as [->|Ho]; [by apply in_section_section; auto using word_name, word_pkg|].
    rewrite next_key_option by apply Ho. by apply in_section_option; auto using word_name, word_pkg. }
  split.
  - by repeat apply set_wf; apply without_section_wf.
  - repeat (apply set_shaped; [auto using word_name, word_pkg|done|first [by left|right; by_eval]|]). by apply without_section_shaped.
  - intros s o Hs Ho Hne. rewrite !get_set_other; auto; try congruence; [|right; by_eval]. rewrite get_without by done. by rewrite decide_False.
  - intros o Ho. rewrite !set_listOptions. auto.
  - apply get_set_same. rewrite !set_listOptions. auto.
  - rewrite get_set_other; [|done|by left|done|right; by_eval|intros [=]%(f_equal snd)]. apply get_set_same. rewrite !set_listOptions. apply Hl. right; by_eval.
Qed.

Section page.
Context (UI restStr : jstr → jstr).

Lemma setIfVisible_stored u0 d o textId visId sel u' : plain_opt o = true → plain_opt (js "not_" ++ o) = true →
  stored sec type u u0 → setIfVisible UI u0 d sec o textId visId sel = Ret u' → stored sec type u u'.
Proof using Hsec.
  intros Ho Hn Hu H. unfold setIfVisible in H. binds H. destruct (negb _); [|by injection H as <-]. binds H.
  injection H as <-. apply stored_set; [by destruct a1|done].
Qed.

Lemma setFromIpTable_stored u0 p o box sel u' : plain_opt o = true → plain_opt (js "not_" ++ o) = true →
  stored sec type u u0 → setFromIpTable UI u0 p sec o box sel = Ret u' → stored sec type u u'.
Proof using Hsec.
  intros Ho Hn Hu H. unfold setFromIpTable in H. binds H. destruct a0 as [t|]; [|by injection H as <-].
  destruct (bool_decide _); [by injection H as <-|]. binds H. injection H as <-.
  destruct (0 <? _); [|done]. apply stored_set; [by case_bool_decide|done].
Qed.

Lemma set_urls_stored u0 pre defs : Forall (λ id, plain_opt (pre ++ id) = true) url_ids →
  stored sec type u u0 → stored sec type u (set_urls u0 sec pre defs).
Proof using Hsec.
  unfold set_urls. generalize url_ids. intros l Hl. revert u0. induction Hl as [|id l Hid Hl IH]; intros u0 Hu; simpl; [done|].
  apply IH. destruct (defs !! id); [by apply stored_set|done].
Qed.

Lemma store_urls_stored u0 p pre u' : stored sec type u u0 → store_urls UI u0 p sec pre = Ret u' → stored sec type u u'.
Proof using Hsec.
  intros Hu H. unfold store_urls in H. binds H. destruct a0 as [t|]; [|by injection H as <-].
  destruct (bool_decide _); [by injection H as <-|]. binds H. injection H as <-.
  apply set_urls_stored; [|done]. case_bool_decide; repeat constructor.
Qed.

Lemma store_resources_stored u0 p pre six u' : stored sec type u u0 → store_resources UI u0 p sec pre six = Ret u' → stored sec type u u'.
Proof using Hsec.
  intros Hu H. unfold store_resources in H. binds H.
  apply setFromIpTable_stored in E; [|done..]. apply setIfVisible_stored in E0; [|done..]. apply setIfVisible_stored in E1; [|done..].
  apply store_urls_stored in H; [done|]. apply (stored_set (js "proto") a2) in E1; [|done].
  destruct (bool_decide (a3 = _)); [by injection E4 as <-|]. binds E4. injection E4 as <-.
  apply stored_set; [by case_bool_decide|done].
Qed.

End page.

End storing.

Lemma setUci_stored UI restStr sec type p pre p' : word sec → wf (rp_uci p) → shaped (rp_uci p) →
  setUciFromDocument UI restStr p sec type pre = Ret p' →
  stored sec type (rp_uci p) (rp_uci p') ∧ rp_boxes p' = rp_boxes p ∧ rp_orig p' = rp_orig p.
Proof.
  intros Hsec Hwf Hsh H. unfold setUciFromDocument in H. binds H. injection H as <-. split; [|done]. cbn [with_uci rp_uci].
  pose proof (stored_start sec type (rp_uci p) Hsec a Hwf Hsh E) as Hs.
  apply (stored_set _ _ _ Hsec (js "description") (value a0)) in Hs; [|done].
  apply (stored_set _ _ _ Hsec (js "family") a1) in Hs; [|done].
  apply (setFromIpTable_stored sec type (rp_uci p) Hsec) in E2; [|done..].
  assert (H4 : stored sec type (rp_uci p) a4).
  { destruct (negb _) in E4; [|by injection E4 as <-]. binds E4. injection E4 as <-. by apply stored_set. }
  apply (setIfVisible_stored sec type (rp_uci p) Hsec) in E5; [|done..].
  apply (setIfVisible_stored sec type (rp_uci p) Hsec) in E7; [|done..].
  destruct (negb _) in E9; [|by injection E9 as <-]. by apply (store_resources_stored sec type (rp_uci p) Hsec) in E9.
Qed.


(** ** The form leaves the settings and the tables of rules alone *)

(** A prefix of the two forms. *)
Definition prefix (pre : jstr) : Prop := pre = js "rule_" ∨ pre = js "exception_".

Record aside (p p' : rest_page) : Prop := {
  as_uci : rp_uci p' = rp_uci p;
  as_orig : rp_orig p' = rp_orig p;
  as_boxes : ∀ pre, prefix pre → rp_boxes p' !! table_box pre = rp_boxes p !! table_box pre
}.

Section aside.
Context (UI restStr : jstr → jstr).

Lemma aside_refl p : aside p p.
Proof. done. Qed.
Lemma aside_trans p1 p2 p3 : aside p1 p2 → aside p2 p3 → aside p1 p3.
Proof. intros [H1 H2 H3] [H4 H5 H6]. split; [congruence..|]. intros pre Hp. by rewrite H6, H3. Qed.
Lemma aside_doc p d : aside p (with_doc p d).
Proof. done. Qed.

(** The identifiers of the other containers. *)
Definition other_box (id : jstr) : Prop := ∀ pre, prefix pre → id ≠ table_box pre.

Lemma aside_box p id t : other_box id → aside p (with_box p id t).
Proof. intros H. split; [done..|]. intros pre Hp. simpl. apply lookup_insert_ne. by apply H. Qed.

Lemma other_box_suffix pre s : prefix pre → forallb (λ q, negb (pre ++ s =s table_box q)) [js "rule_"; js "exception_"] = true →
  other_box (pre ++ s).
Proof.
  intros _ H q Hq E. rewrite forallb_forall in H. specialize (H q). rewrite E, str_eqb_refl in H.
  destruct Hq as [->| ->]; discriminate H; simpl; auto.
Qed.

Local Ltac other := apply other_box_suffix; [done|match goal with H : prefix _ |- _ => by destruct H as [->| ->] end].

Lemma keep_mac_aside pre p r p' : prefix pre → keep_mac UI pre p r = Ret p' → aside p p'.
Proof.
  intros Hp H. unfold keep_mac in H. binds H. destruct (Ip6.getIPFamily a); [by injection H as <-|]. binds H.
  destruct a1 as [[valid rest] t]. binds H. injection H as <-. eapply aside_trans; [apply aside_doc|]. apply aside_box. other.
Qed.

Lemma updateIPControls_aside pre p p' : prefix pre → updateIPControls UI restStr p pre = Ret p' → aside p p'.
Proof.
  intros Hp H. unfold updateIPControls in H. binds H. destruct (bool_decide _); binds H.
  - destruct a4 as [t|]; [|injection H as <-; apply aside_doc]. binds H.
    eapply (exn_fold_inv (aside p)); [| |exact H].
    + intros q r q' _ Hq Hk. eapply aside_trans; [exact Hq|]. by apply (keep_mac_aside pre) in Hk.
    + eapply aside_trans; [apply aside_doc|]. apply aside_box. other.
  - injection H as <-. apply aside_doc.
Qed.

Lemma setVisibility_aside pre p p' : prefix pre → setVisibility UI restStr p pre = Ret p' → aside p p'.
Proof.
  intros Hp H. unfold setVisibility in H. binds H. injection H as <-.
  eapply aside_trans; [by eapply updateIPControls_aside|apply aside_doc].
Qed.

Lemma setIpTable_aside p u sec o box tab sel text p' : other_box box →
  setIpTableAndSelectFromUci UI p u sec o box tab sel text = Ret p' → aside p p'.
Proof.
  intros Hb H. unfold setIpTableAndSelectFromUci in H. destruct (option_or_not _ _ _) as [v type]. binds H.
  eapply aside_trans; [apply (aside_doc _ a)|]. destruct (negb _).
  - unfold in_doc in H. binds H. injection H as <-. eapply aside_trans; [by apply aside_box|apply aside_doc].
  - injection H as <-. by apply aside_box.
Qed.

Lemma setDocument_aside p u sec pre p' : prefix pre → setDocumentFromUci UI restStr p u sec pre = Ret p' → aside p p'.
Proof.
  intros Hp H. unfold setDocumentFromUci in H. binds H. destruct (option_or_not _ _ _) as [v type]. binds H.
  destruct (urlDefinitions _ _) as [defs match_type]. binds H.
  apply setIpTable_aside in E1; [|destruct (_ =s js "ipv6"); other]. apply setIpTable_aside in E7; [|destruct (_ =s js "ipv6"); other].
  apply setVisibility_aside in H; [|done].
  eapply aside_trans; [apply (aside_doc p a0)|]. eapply aside_trans; [exact E1|].
  eapply aside_trans; [apply (aside_doc _ a6)|]. eapply aside_trans; [exact E7|].
  eapply aside_trans; [|exact H]. eapply aside_trans; [|apply aside_doc].
  eapply aside_trans; [apply aside_doc|]. apply aside_box. other.
Qed.

End aside.

(** ** The invariant *)

(** A row with the box of the section [s]. *)
Definition shows_id (s : jstr) (ds : list datum) : Prop :=
  ∃ desc w b, ds = [DStr desc; DObj w; DObj b] ∧ w_id w = s.

(** A rule of a type among the settings, which is not an ingress rule. *)
Definition is_rule (u : UCIContainer) (type s : jstr) : Prop := gets u pkg s [] = type ∧ is_ingress u s = false.

(** The table in a container has one row for each rule of a type. *)
Definition tracked (u : UCIContainer) (type : jstr) (b : option (option table)) : Prop :=
  ∃ t D ids, b = Some (Some t) ∧ table_wf t ∧ getTableDataArray t true false = Ret D ∧ Forall2 shows_id ids D ∧
    NoDup ids ∧ Forall word ids ∧ ∀ s, word s → s ∈ ids ↔ is_rule u type s.

Record follows (p : rest_page) : Prop := {
  fo_wf : wf (rp_uci p);
  fo_shaped : shaped (rp_uci p);
  fo_tables : ∀ type pre, (type, pre) ∈ rules → tracked (rp_uci p) type (rp_boxes p !! table_box pre)
}.

Section tracking.

Lemma rules_prefix type pre : (type, pre) ∈ rules → prefix pre.
Proof. unfold rules. rewrite !elem_of_cons. unfold prefix. intros [[= -> ->]|[[= -> ->]|H]]; [auto..|by apply elem_of_nil in H]. Qed.

Lemma rules_inj type type' pre : (type, pre) ∈ rules → (type', pre) ∈ rules → type = type'.
Proof.
  unfold rules. rewrite !elem_of_cons. intros [[= -> ->]|[[= -> ->]|H]]; [..|by apply elem_of_nil in H];
    (intros [[= ->]|[[= ->]|H]]; [done..|by apply elem_of_nil in H]).
Qed.

Lemma rules_ne type type' pre pre' : (type, pre) ∈ rules → (type', pre') ∈ rules → pre ≠ pre' → type ≠ type'.
Proof.
  unfold rules. rewrite !elem_of_cons. intros [[= -> ->]|[[= -> ->]|H]]; [..|by apply elem_of_nil in H];
    (intros [[= -> ->]|[[= -> ->]|H]]; [..|by apply elem_of_nil in H]); done.
Qed.

Lemma rules_named type pre : (type, pre) ∈ rules → type ≠ [].
Proof. unfold rules. rewrite !elem_of_cons. intros [[= ->]|[[= ->]|H]]; [done..|by apply elem_of_nil in H]. Qed.

Lemma table_box_inj pre pre' : table_box pre = table_box pre' → pre = pre'.
Proof. apply app_inv_tail. Qed.

(** Settings in which the rules of the type are the same. *)
Lemma tracked_same u u' type b : (∀ s, word s → is_rule u' type s ↔ is_rule u type s) → tracked u type b → tracked u' type b.
Proof. intros H (t & D & ids & H1 & H2 & H3 & H4 & H5 & H6 & H7). exists t, D, ids. split_and!; try done. intros s Hs. by rewrite H7, H. Qed.

Lemma follows_aside p p' : follows p → aside p p' → follows p'.
Proof.
  intros [H1 H2 H3] [A1 A2 A3]. split; [by rewrite A1..|]. intros type pre Hr. rewrite A1, A3 by (by eapply rules_prefix). by apply H3.
Qed.

(** A rule was stored: the rules of its type are the others and itself. *)
Lemma stored_rules sec type u u' : word sec → stored sec type u u' →
  (∀ s, word s → is_rule u' type s ↔ s = sec ∨ s ≠ sec ∧ is_rule u type s) ∧
  ∀ type' s, word s → type' ≠ type → is_rule u' type' s ↔ s ≠ sec ∧ is_rule u type' s.
Proof.
  intros Hsec [H1 H2 H3 H4 H5 H6].
  assert (Hf : ∀ t s, word s → s ≠ sec → is_rule u' t s ↔ is_rule u t s).
  { intros t s Hs Hne. unfold is_rule, is_ingress, gets. rewrite !H3; auto using word_name. right; by_eval. }
  assert (Hi : is_ingress u' sec = false) by (unfold is_ingress, gets; by rewrite H6).
  split; intros; (destruct (decide (s = sec)) as [->|Hne]; [|by rewrite Hf by done; naive_solver]).
  - split; [auto|]. intros _. split; [|done]. unfold gets. by rewrite H5.
  - split; [|naive_solver]. intros [E _]. unfold gets in E. rewrite H5 in E. done.
Qed.

(** A section was removed: the rules are the others. *)
Lemma without_rules u s ty x : name s → name x → ty ≠ [] →
  is_rule (without_section u pkg s) ty x ↔ x ≠ s ∧ is_rule u ty x.
Proof.
  intros Hs Hx Hty. unfold is_rule, is_ingress, gets. rewrite !get_without by (auto; right; by_eval). destruct (decide (x = s)); naive_solver.
Qed.

Lemma tracked_row u type t i r : tracked u type (Some (Some t)) → t_body t !! i = Some r →
  ∃ D ids s desc w b, table_wf t ∧ getTableDataArray t true false = Ret D ∧ Forall2 shows_id ids D ∧
    NoDup ids ∧ Forall word ids ∧ (∀ s, word s → s ∈ ids ↔ is_rule u type s) ∧
    ids !! i = Some s ∧ D !! i = Some [DStr desc; DObj w; DObj b] ∧ w_id w = s ∧ cells_ok r ∧
    row_data 1 r = Some [DStr desc; DObj w; DObj b] ∧ cell_widget r 1 = Ret w.
Proof.
  intros (t' & D & ids & [= <-] & Hwf & HD & HF & Hnd & Hw & Hiff) Hr.
  assert (Hlen : length (t_body t) = length D).
  { apply table_data_rows in HD; [|done]. apply (f_equal length) in HD. by rewrite !length_map in HD. }
  destruct (lookup_lt_is_Some_2 D i) as [ds Hds]; [rewrite <- Hlen; by eapply lookup_lt_Some|].
  destruct (Forall2_lookup_r _ _ _ _ _ HF Hds) as (s & Hs & desc & w & b & -> & Hid).
  assert (Hok : cells_ok r) by (pose proof (wf_cells _ Hwf) as Hc; rewrite Forall_forall in Hc; apply Hc; by eapply list_elem_of_lookup_2).
  pose proof (data_row true false t D i r _ Hwf HD Hr Hds) as Hrd. simpl in Hrd.
  exists D, ids, s, desc, w, b. split_and!; try done.
  by apply (set_widget_effect true false r 1 (λ w, w) _ w Hok Hrd).
Qed.

End tracking.

(** ** The steps of the user *)
Section use.
Context (UI restStr : jstr → jstr).

Lemma free_rule_spec fuel u pre n id : free_rule fuel u pre n = Some id → 0 <= n →
  gets u pkg id [] = [] ∧ ∃ m, 0 <= m ∧ id = pre ++ str_of_Z m.
Proof.
  revert n. induction fuel as [|f IH]; intros n; simpl; [done|]. destruct (gets _ _ _ _ =s []) eqn:E.
  - intros [= <-] Hn. apply str_eqb_eq in E. eauto.
  - intros H Hn. apply (IH (n + 1)); [done|lia].
Qed.

(** The search ends: not all the names that are tried can be in use. *)
Lemma free_rule_None fuel u pre n : free_rule fuel u pre n = None →
  ∀ k, (k < fuel)%nat → gets u pkg (pre ++ str_of_Z (n + Z.of_nat k)) [] ≠ [].
Proof.
  revert n. induction fuel as [|f IH]; intros n H k Hk; [lia|]. simpl in H. destruct (gets _ _ _ _ =s []) eqn:E; [done|].
  destruct k as [|k]; [rewrite Z.add_0_r; by apply str_eqb_neq|].
  replace (n + Z.of_nat (S k)) with (n + 1 + Z.of_nat k) by lia. apply IH; [done|lia].
Qed.

Lemma free_rule_total u pre n : wf u → 0 <= n → ∃ id, free_rule (S (length (keys u))) u pre n = Some id.
Proof.
  intros Hu Hn. destruct (free_rule _ u pre n) as [id|] eqn:E; [by exists id|]. pose proof (free_rule_None _ _ _ _ E) as H.
  destruct (names_run_out pkg u pre n Hu Hn) as (k & Hk & Eg). destruct (H k); [lia|]. unfold gets. by rewrite Eg.
Qed.

(** After an operation on one table: that table, the other one, the settings. *)
Lemma follows_step p p' type pre : follows p → (type, pre) ∈ rules → wf (rp_uci p') → shaped (rp_uci p') →
  tracked (rp_uci p') type (rp_boxes p' !! table_box pre) →
  (∀ pre', pre' ≠ pre → rp_boxes p' !! table_box pre' = rp_boxes p !! table_box pre') →
  (∀ type' s, type' ≠ [] → type' ≠ type → word s → is_rule (rp_uci p') type' s ↔ is_rule (rp_uci p) type' s) → follows p'.
Proof.
  intros [_ _ Hf] Hr H1 H2 H3 H4 H5. split; [done..|]. intros type' pre' Hr'. destruct (decide (pre' = pre)) as [->|Hne].
  - by rewrite (rules_inj type' type pre).
  - rewrite H4 by done. eapply tracked_same; [|by apply Hf]. intros s Hs. apply H5; [by eapply rules_named|by eapply rules_ne|done].
Qed.

Lemma add_follows p p' type pre : follows p → (type, pre) ∈ rules → addNewRule UI restStr p type pre = Ret p' → follows p'.
Proof.
  intros Hfo Hr H. pose proof (rules_prefix _ _ Hr) as Hpre. unfold addNewRule in H. binds H.
  destruct (negb _); [injection H as <-; by apply (follows_aside p), aside_doc|]. binds H.
  cbn [with_doc rp_uci rp_boxes] in *. unfold box in E0. cbn [with_doc rp_boxes] in E0.
  destruct (rp_boxes p !! table_box pre) as [b|] eqn:Eb; [|done]. injection E0 as ->. destruct a0 as [t|]; [|done]. injection E1 as <-.
  destruct (free_rule _ _ _ _) as [id|] eqn:Efree in E3; [|done]. injection E3 as <-.
  apply free_rule_spec in Efree as (Hfree & m & Hm & Eid); [|unfold zlen; lia].
  assert (Hid : word id) by (rewrite Eid; apply word_numbered; [destruct Hpre as [->| ->]; by_eval|done]).
  apply setUci_stored in E4 as (Hst & Hb & _); [|done|apply Hfo..]. cbn [with_doc rp_uci rp_boxes] in Hst, Hb.
  apply setDocument_aside in H; [|done]. eapply follows_aside; [|exact H]. clear H.
  pose proof (fo_tables _ Hfo type pre Hr) as (t' & D & ids & Et & Hwf & HD & HF & Hnd & Hw & Hiff).
  rewrite Eb in Et. injection Et as <-. destruct (stored_rules id type _ _ Hid Hst) as [Hnew Hother].
  assert (Hnone : ∀ ty, ty ≠ [] → ¬ is_rule (rp_uci p) ty id) by (intros ty Hty [E1 _]; congruence).
  pose proof (rules_named _ _ Hr) as Htne.
  eapply (follows_step p _ type pre Hfo Hr); cbn [with_box rp_uci rp_boxes]; [apply Hst|apply Hst| | |].
  - rewrite lookup_insert_eq. set (row := rule_row _ _ _ _).
    destruct (addTableRow_data true false (UI (js "Remove")) t row D Hwf) as [Hwf' HD']; [done|done|].
    exists (addTableRow (UI (js "Remove")) t row true false), (D ++ [map first_line row]), (ids ++ [id]). split_and!; [done..| | | |].
    + apply Forall2_app; [done|]. constructor; [|done]. by eexists _, _, _.
    + apply NoDup_app. split_and!; [done| |apply NoDup_singleton]. intros x Hin ->%list_elem_of_singleton.
      apply Hiff in Hin; [|done]. by apply (Hnone type).
    + apply Forall_app. auto.
    + intros s Hs. rewrite elem_of_app, list_elem_of_singleton, Hiff, Hnew by done. specialize (Hnone type Htne). destruct (decide (s = id)) as [->|]; naive_solver.
  - intros pre' Hne. rewrite lookup_insert_ne by (by intros ->%table_box_inj). by rewrite Hb.
  - intros ty s Hty Hne Hs. rewrite Hother by done. destruct (decide (s = id)) as [->|]; [|naive_solver]. specialize (Hnone ty Hty). naive_solver.
Qed.

Lemma edit_follows p p' type pre t i r : follows p → (type, pre) ∈ rules → rp_boxes p !! table_box pre = Some (Some t) →
  t_body t !! i = Some r → editRule UI restStr p type pre r = Ret p' → follows p'.
Proof.
  intros Hfo Hr Eb Hi H. unfold editRule in H. binds H.
  pose proof (fo_tables _ Hfo type pre Hr) as Ht. rewrite Eb in Ht.
  destruct (tracked_row _ _ _ _ _ Ht Hi) as (D & ids & s & desc & w & b & Hwf & HD & HF & Hnd & Hw & Hiff & Hs & Hds & Hid & Hok & Hrd & Ew).
  rewrite Ew in E. injection E as <-. rewrite Hid in H.
  destruct (negb _); [injection H as <-; by apply (follows_aside p), aside_doc|]. binds H.
  assert (Hsw : word s) by (rewrite Forall_forall in Hw; apply Hw; by eapply list_elem_of_lookup_2).
  apply setUci_stored in E as (Hst & Hb & _); [|done|apply Hfo..]. cbn [with_doc rp_uci rp_boxes] in Hst, Hb.
  destruct (stored_rules s type _ _ Hsw Hst) as [Hnew Hother].
  assert (Hrule : is_rule (rp_uci p) type s) by (apply Hiff; [done|by eapply list_elem_of_lookup_2]).
  assert (Hsame : ∀ x, word x → x ∈ ids ↔ is_rule (rp_uci a) type x).
  { intros x Hx. rewrite Hnew, Hiff by done. destruct (decide (x = s)) as [->|]; naive_solver. }
  assert (Hothers : ∀ type' x, type' ≠ [] → type' ≠ type → word x → is_rule (rp_uci a) type' x ↔ is_rule (rp_uci p) type' x).
  { intros ty x _ Hne Hx. rewrite Hother by done. split; [naive_solver|]. intros Hru. split; [|done]. intros ->.
    destruct Hrule as [E1 _], Hru as [E2 _]. congruence. }
  destruct (negb (_ =s [])).
  - binds H. injection H as <-. unfold box in E. rewrite Hb, Eb in E. injection E as <-. unfold edit_cells in E1. binds E1. injection E1 as <-.
    match type of E with set_datas _ _ [(0%nat, ?v)] = _ => set (d0 := v) in * end.
    destruct (set_datas_effect true false t D i r [DStr desc; DObj w; DObj b] [(0%nat, d0)]) as (t' & Et & Hwf' & _ & HD'); [done..|by repeat constructor; eexists|].
    rewrite Et in E. injection E as <-. simpl in HD'.
    apply (follows_step p _ type pre Hfo Hr); cbn [with_box rp_uci rp_boxes]; [apply Hst..| |intros pre' Hne; rewrite lookup_insert_ne by (by intros ->%table_box_inj); by rewrite Hb|done].
    rewrite lookup_insert_eq. eexists t', _, ids. split_and!; [done..| | | |done]; [|done..].
    rewrite <- (list_insert_id ids i s) by done. apply Forall2_insert; [done|]. by eexists _, _, _.
  - injection H as <-. apply (follows_step p _ type pre Hfo Hr); [apply Hst..| |intros; by rewrite Hb|done].
    rewrite Hb, Eb. by exists t, D, ids.
Qed.

Lemma remove_follows p p' type pre t i r : follows p → (type, pre) ∈ rules → rp_boxes p !! table_box pre = Some (Some t) →
  t_body t !! i = Some r → remove_rule p pre (r_id r) = Ret p' → follows p'.
Proof.
  intros Hfo Hr Eb Hi H. unfold remove_rule, box in H. rewrite Eb in H. cbn [exn_of_option exn_bind] in H.
  pose proof (fo_tables _ Hfo type pre Hr) as Ht. rewrite Eb in Ht.
  destruct (tracked_row _ _ _ _ _ Ht Hi) as (D & ids & s & desc & w & b & Hwf & HD & HF & Hnd & Hw & Hiff & Hs & Hds & Hid & Hok & Hrd & Ew).
  rewrite (body_row_find t i r) in H by done. cbn [exn_bind] in H. binds H.
  destruct (removeRow_data true false t D i r Hwf HD Hi) as (t' & Et & Hwf' & HD'). rewrite Et in E. injection E as <-.
  unfold removeRuleCallback in H. rewrite Ew in H. cbn [exn_bind] in H. binds H. injection H as <-. rewrite Hid in E.
  assert (Hsw : word s) by (rewrite Forall_forall in Hw; apply Hw; by eapply list_elem_of_lookup_2).
  cbn [with_box rp_uci] in E. rewrite removeSection_without in E by (apply word_pkg || apply Hfo || done). injection E as <-.
  assert (Hru : ∀ ty x, word x → ty ≠ [] → is_rule (without_section (rp_uci p) pkg s) ty x ↔ x ≠ s ∧ is_rule (rp_uci p) ty x).
  { intros ty x Hx Hty. apply without_rules; auto using word_name. }
  assert (Hrule : is_rule (rp_uci p) type s) by (apply Hiff; [done|by eapply list_elem_of_lookup_2]).
  apply (follows_step p _ type pre Hfo Hr); cbn [with_box with_uci rp_uci rp_boxes].
  - apply without_section_wf, Hfo.
  - apply without_section_shaped, Hfo.
  - rewrite lookup_insert_eq. eexists t', _, (delete i ids). split_and!; [done..| | | |].
    + apply Forall2_fmap_r. apply (Forall2_impl shows_id).
      * apply Forall2_delete. exact HF.
      * intros x ds (d & wx & bx & -> & Hx). eexists _, _, _. split; [done|]. by destruct (w_type wx =s js "button").
    + by eapply sublist_NoDup; [|apply sublist_delete].
    + by apply Forall_delete.
    + intros x Hx. rewrite (delete_elem ids i s x), Hiff, Hru by (done || by eapply rules_named). done.
  - intros pre' Hne. apply lookup_insert_ne. by intros ->%table_box_inj.
  - intros ty x Hty Hne Hx. rewrite Hru by done. split; [naive_solver|]. intros Hx'. split; [|done]. intros ->.
    destruct Hrule as [E1 _], Hx' as [E2 _]. congruence.
Qed.

(** A click on the box of a row. *)
Lemma click_follows p p' type pre t i r : follows p → (type, pre) ∈ rules → rp_boxes p !! table_box pre = Some (Some t) →
  t_body t !! i = Some r → setRowEnabled p pre (r_id r) = Ret p' → follows p'.
Proof.
  intros Hfo Hr Eb Hi H. unfold setRowEnabled, box in H. rewrite Eb in H. cbn [exn_of_option exn_bind] in H.
  pose proof (fo_tables _ Hfo type pre Hr) as Ht. rewrite Eb in Ht.
  destruct (tracked_row _ _ _ _ _ Ht Hi) as (D & ids & s & desc & w & b & Hwf & HD & HF & Hnd & Hw & Hiff & Hs & Hds & Hid & Hok & Hrd & Ew).
  rewrite (body_row_find t i r) in H by done. cbn [exn_bind] in H. unfold click_row in H. rewrite Ew in H. cbn [exn_bind] in H.
  destruct (set_widget_effect true false r 1 (check_widget (negb (w_checked w))) _ w Hok Hrd) as [_ (r1 & E1 & I1 & O1 & R1)]; [done|].
  destruct (set_widget_effect true false r1 2 (enable_button true) _ b O1 R1) as [_ (r2 & E2 & I2 & O2 & R2)]; [done|].
  rewrite E1 in H. cbn [exn_bind] in H. rewrite E2 in H. cbn [exn_bind] in H. injection H as <-.
  rewrite (set_body_row_insert t i r) by done.
  destruct (replace_row_effect true false t D i r r2 _ Hwf HD Hi ltac:(congruence) O2 R2) as [Hwf' HD'].
  assert (Hsw : word s) by (rewrite Forall_forall in Hw; apply Hw; by eapply list_elem_of_lookup_2).
  assert (Hsame : ∀ ty x v, word x → is_rule (set_opt (rp_uci p) s (js "enabled") v) ty x ↔ is_rule (rp_uci p) ty x).
  { intros ty x v Hx. unfold is_rule, is_ingress, gets, set_opt.
    rewrite !get_set_other; auto using word_name; try (by right; by_eval); try (by intros [=]%(f_equal snd)). }
  rewrite Hid. apply (follows_step p _ type pre Hfo Hr); cbn [with_box with_uci rp_uci rp_boxes].
  - apply set_wf, Hfo.
  - apply set_shaped; [apply word_name, word_pkg|by apply word_name|right; by_eval|apply Hfo].
  - rewrite lookup_insert_eq. eexists _, _, ids. split_and!; [done|exact Hwf'|exact HD'| |done..|].
    + rewrite <- (list_insert_id ids i s) by done. apply Forall2_insert; [done|]. by eexists _, _, _.
    + intros x Hx. by rewrite Hsame, Hiff.
  - intros pre' Hne. apply lookup_insert_ne. by intros ->%table_box_inj.
  - intros ty x _ _ Hx. by apply Hsame.
Qed.

(** What a user can do: fill the forms and their tables, open the windows; add
    a rule; edit, switch and remove the rule of a row. *)
Inductive rest_step : rest_page → rest_page → Prop :=
| rs_form p p' : aside p p' → rest_step p p'
| rs_add p p' type pre : (type, pre) ∈ rules → addNewRule UI restStr p type pre = Ret p' → rest_step p p'
| rs_edit p p' type pre t i r : (type, pre) ∈ rules → rp_boxes p !! table_box pre = Some (Some t) → t_body t !! i = Some r →
    editRule UI restStr p type pre r = Ret p' → rest_step p p'
| rs_click p p' type pre t i r : (type, pre) ∈ rules → rp_boxes p !! table_box pre = Some (Some t) → t_body t !! i = Some r →
    setRowEnabled p pre (r_id r) = Ret p' → rest_step p p'
| rs_remove p p' type pre t i r : (type, pre) ∈ rules → rp_boxes p !! table_box pre = Some (Some t) → t_body t !! i = Some r →
    remove_rule p pre (r_id r) = Ret p' → rest_step p p'.

Lemma step_follows p p' : rest_step p p' → follows p → follows p'.
Proof.
  intros H Hfo. destruct H.
  - by eapply follows_aside.
  - by eapply add_follows.
  - by eapply edit_follows.
  - by eapply click_follows.
  - by eapply remove_follows.
Qed.

(** *** Loading *)
Lemma loaded_tracked u type pre cols id sections : (type, pre) ∈ rules → wf u → sectioned u → pkg_unambiguous u pkg →
  getAllSectionsOfType u pkg type = Ret sections →
  tracked u type (Some (Some (createTable (UI (js "Remove")) cols
    (map (load_row UI u) (List.filter (λ s, negb (is_ingress u s)) sections)) id true false))).
Proof.
  intros Hr Hwf Hse Ha E. pose proof (sectioned_shaped _ Hse) as Hsh. set (ids := List.filter _ sections) in *.
  match goal with |- context [createTable ?l ?c ?rows ?i true false] => destruct (createTable_data true false l c rows i) as [Hw HD] end.
  { apply Forall_map, Forall_forall. done. }
  eexists _, _, ids. split_and!; [done|exact Hw|exact HD| | | |].
  - rewrite map_map. apply Forall2_fmap_r, Forall_Forall2_diag, Forall_forall. intros s _. unfold load_row, rule_row. eexists _, _, _. split; reflexivity.
  - apply NoDup_ListNoDup, List.NoDup_filter, NoDup_ListNoDup. by eapply (query_nodup pkg u type); [apply word_pkg|..].
  - apply Forall_forall. intros s Hs. unfold ids in Hs. rewrite list_elem_of_In, filter_In, <- list_elem_of_In in Hs.
    pose proof (query_names pkg word_pkg type _ _ Hsh (sec_words _ Hse) E Ha) as Hn. rewrite Forall_forall in Hn. apply Hn, Hs.
  - intros s Hs. unfold ids. rewrite list_elem_of_In, filter_In, <- list_elem_of_In, negb_true_iff.
    rewrite (query_elem pkg u type sections s) by auto using word_pkg, word_name. unfold is_rule. apply and_iff_compat_r.
    unfold value_is, gets, get. rewrite next_key_section. rewrite (wf_dom _ Hwf).
    pose proof (rules_named _ _ Hr) as Hty. destruct (values u !! section_key pkg s) as [v|]; simpl.
    + rewrite str_eqb_eq. naive_solver.
    + split; [naive_solver|]. intros E1. by rewrite <- E1 in Hty.
Qed.

Lemma load_rules_follow p p' type pre : (type, pre) ∈ rules → wf (rp_orig p) → sectioned (rp_orig p) → pkg_unambiguous (rp_orig p) pkg →
  load_rules UI restStr p (type, pre) = Ret p' →
  rp_uci p' = rp_uci p ∧ rp_orig p' = rp_orig p ∧ tracked (rp_orig p) type (rp_boxes p' !! table_box pre) ∧
  ∀ pre', prefix pre' → pre' ≠ pre → rp_boxes p' !! table_box pre' = rp_boxes p !! table_box pre'.
Proof.
  intros Hr Hwf Hse Ha H. pose proof (rules_prefix _ _ Hr) as Hpre. unfold load_rules in H. binds H.
  apply setDocument_aside in E1; [|done]. apply setVisibility_aside in H; [|done].
  pose proof (aside_trans _ _ _ E1 H) as [A1 A2 A3]. clear E1 H. split; [by rewrite A1|]. split; [by rewrite A2|]. split.
  - rewrite A3 by done. simpl. rewrite lookup_insert_eq. by eapply loaded_tracked.
  - intros pre' Hp Hne. rewrite A3 by done. apply lookup_insert_ne. by intros ->%table_box_inj.
Qed.

(** A page that was loaded from the settings. *)
Lemma load_follows p p' : rp_uci p = rp_orig p → wf (rp_orig p) → sectioned (rp_orig p) → pkg_unambiguous (rp_orig p) pkg →
  resetData UI restStr p = Ret p' → follows p'.
Proof.
  intros Hu Hwf Hse Ha H. unfold resetData, rules in H. cbn [exn_fold] in H. binds H. injection H as <-.
  apply load_rules_follow in E as (U1 & O1 & T1 & F1); [|by left|done..].
  apply load_rules_follow in E0 as (U2 & O2 & T2 & F2); [|by right; left|by rewrite O1..].
  rewrite O1 in T2. assert (Eu : rp_uci a0 = rp_orig p) by congruence. split; [by rewrite Eu|rewrite Eu; by apply sectioned_shaped|]. rewrite Eu.
  intros type pre. unfold rules. rewrite !elem_of_cons. intros [[= -> ->]|[[= -> ->]|H]]; [|done|by apply elem_of_nil in H].
  rewrite F2; [done|by left|done].
Qed.

(** C10: In a page that was loaded from the settings ([load_follows]), whatever
    the user does with the forms and with rules (adding, editing, switching,
    removing), each table keeps exactly one row for each of the rules of its type
    in the settings. *)
Theorem rule_tables_follow_settings p p' : follows p → rtc rest_step p p' → follows p'.
Proof. intros H0 Hs. induction Hs as [|? ? ? Hstep _ IH]; [done|]. apply IH. by eapply step_follows. Qed.

End use.

(** ** A small page: one rule, and an ingress rule that the page leaves alone *)
Definition sample_rules : UCIContainer :=
  let u := set_opt new (js "rule_1") [] (js "restriction_rule") in
  let u := set_opt u (js "rule_1") (js "description") (js "night") in
  let u := set_opt u (js "in_1") [] (js "whitelist_rule") in
  set_opt u (js "in_1") (js "is_ingress") (js "1").

Definition sample_rule_table (sections : list jstr) (id : jstr) : table :=
  createTable (js "Remove") [] (map (load_row (λ s, s) sample_rules) (List.filter (λ s, negb (is_ingress sample_rules s)) sections)) id true false.

Definition sample_page : rest_page :=
  mkRest (mkDoc ∅ [])
    {[ js "rule_table_container" := Some (sample_rule_table [js "rule_1"] (js "rule_table"));
       js "exception_table_container" := Some (sample_rule_table [js "in_1"] (js "exception_table")) ]} sample_rules sample_rules.

Definition sample_removed : rest_page :=
  match remove_rule sample_page (js "rule_") 0 with Ret p => p | Raise _ => sample_page end.

Lemma sample_rules_wf : wf sample_rules.
Proof. unfold sample_rules, set_opt. repeat apply set_wf. apply new_wf. Qed.

Lemma sample_follows : follows sample_page.
Proof.
  pose proof sample_rules_wf as Hwf. pose proof (check_sectioned _ Hwf eq_refl) as Hse.
  assert (Ha : pkg_unambiguous sample_rules pkg) by (apply one_package_unambiguous; by_eval).
  split; [done|by apply sectioned_shaped|]. intros type pre Hr. pose proof Hr as Hr'. revert Hr.
  unfold rules. rewrite !elem_of_cons. intros [[= -> ->]|[[= -> ->]|H]]; [| |by apply elem_of_nil in H].
  - replace (rp_boxes sample_page !! table_box (js "rule_")) with (Some (Some (sample_rule_table [js "rule_1"] (js "rule_table")))) by done.
    by eapply (loaded_tracked (λ s, s)).
  - replace (rp_boxes sample_page !! table_box (js "exception_")) with (Some (Some (sample_rule_table [js "in_1"] (js "exception_table")))) by done.
    by eapply (loaded_tracked (λ s, s)).
Qed.

Lemma rule_tables_follow_settings_witness :
  getAllSectionsOfType (rp_uci sample_page) pkg (js "restriction_rule") = Ret [js "rule_1"] ∧
  getAllSectionsOfType (rp_uci sample_removed) pkg (js "restriction_rule") = Ret [] ∧ follows sample_removed.
Proof.
  split; [vm_compute; reflexivity|]. split; [vm_compute; reflexivity|].
  apply (rule_tables_follow_settings (λ s, s) (λ s, s) sample_page); [exact sample_follows|]. apply rtc_once.
  apply (rs_remove _ _ _ _ (js "restriction_rule") (js "rule_") (sample_rule_table [js "rule_1"] (js "rule_table")) 0
    (default (mkRow 0 [] [] []) (t_body (sample_rule_table [js "rule_1"] (js "rule_table")) !! 0%nat))).
  - by left.
  - reflexivity.
  - vm_compute. reflexivity.
  - vm_compute. reflexivity.
Defined.
