(* ===== verification/RestrictionFacts.v ===== *)
(** * Facts on the access restrictions page *)
From S2P Require Import Prelude JsNum JsString JsRegex Uci UciFacts Sections Ip4 Validate Ip4Facts ValidateFacts Ip6 Overlap Table TableFacts TableEdit Dom FormFacts Modal Ports PortFacts AddrTable TimeRanges Quotas QuotaFacts Restrictions RestrictionUse.
Import Uci Validate Ip6 Table TableEdit Dom Modal Ports Restrictions.
Open Scope Z_scope.

(** ** URLs *)
Section urls.

Lemma length_line_nodes x y l : length (line_nodes (x :: y :: l)) = S (S (length (line_nodes (y :: l)))).
Proof. done. Qed.

(** The lines without the hyphens that break them. *)
Fixpoint unbroken (l : list jstr) : jstr :=
  match l with
  | [] => []
  | [x] => x
  | x :: l' => take (length x - 1) x ++ unbroken l'
  end.

Lemma unbroken_cons x l : l ≠ [] → unbroken (x :: l) = take (length x - 1) x ++ unbroken l.
Proof. by destruct l. Qed.

Lemma parse_lines k n l parsed : (n = 2 * k + length (line_nodes l))%nat → l ≠ [] →
  exn_fold (λ parsedUrl '(childIndex, child),
    if Nat.even childIndex then
      match child with
      | Text nextStr =>
          Ret (parsedUrl ++ (if (childIndex <? n - 1)%nat then substr nextStr 0 (zlen nextStr - 1) else nextStr))
      | _ => Raise TypeError
      end
    else Ret parsedUrl) (imap (λ i c, ((2 * k + i)%nat, c)) (line_nodes l)) parsed = Ret (parsed ++ unbroken l).
Proof.
  revert k parsed. induction l as [|x [|y l] IH]; intros k parsed Hn Hl; [done| |].
  - simpl in Hn. cbn [line_nodes imap exn_fold]. rewrite Nat.add_0_r, Nat.even_even. cbn [exn_bind].
    rewrite (proj2 (Nat.ltb_ge _ _)) by lia. done.
  - rewrite length_line_nodes in Hn. change (line_nodes (x :: y :: l)) with (Text x :: Br :: line_nodes (y :: l)).
    rewrite !imap_cons. unfold compose. cbv beta. cbn [exn_fold]. rewrite Nat.add_0_r, Nat.even_even.
    replace (Nat.even (2 * k + 1)) with false by (symmetry; by rewrite Nat.even_odd).
    rewrite (proj2 (Nat.ltb_lt _ _)) by lia. cbn [exn_bind].
    erewrite (imap_ext _ (λ i c, ((2 * S k + i)%nat, c)) (line_nodes (y :: l))) by (intros i c _; simpl; f_equal; lia).
    rewrite IH by (done || lia). unfold substr. simpl (0 <? 0). rewrite drop_0, <- app_assoc.
    rewrite (unbroken_cons x) by done.
    do 4 f_equal. unfold zlen. lia.
Qed.

Lemma unbroken_pieces n s : (length s <= n)%nat → unbroken (url_pieces n s) = s.
Proof.
  revert s. induction n as [|n IH]; intros s Hn; [destruct s; [done|simpl in Hn; lia]|]. cbn [url_pieces]. unfold zlen at 1.
  destruct s as [|c s]; [done|]. rewrite (proj2 (Z.ltb_lt _ _)) by (simpl; lia).
  unfold substr_from, substr. cbn [Z.ltb Z.compare]. change (Z.to_nat 0) with O. rewrite drop_0. set (u := c :: s) in *.
  rewrite (take_ge (drop _ u)) by (rewrite length_drop; unfold zlen; lia).
  set (rest := drop _ u). set (next := take _ u). unfold zlen. destruct (Z.ltb_spec 0 (Z.of_nat (length rest))) as [Hr|Hr].
  - assert (Hrn : url_pieces n rest ≠ []).
    { destruct n as [|n']; [unfold rest in Hr; rewrite length_drop in Hr; simpl in Hr, Hn; lia|].
      cbn [url_pieces]. unfold zlen. by rewrite (proj2 (Z.ltb_lt _ _)) by done. }
    rewrite unbroken_cons, IH by (try done; unfold rest; rewrite length_drop; simpl in Hn |- *; lia).
    rewrite length_app, take_app_le, take_ge by (simpl; lia). apply take_drop.
  - assert (rest = []) as Hr0 by (destruct rest; [done|simpl in Hr; lia]).
    assert (url_pieces n rest = []) as -> by (rewrite Hr0; by destruct n). cbn [unbroken].
    pose proof (take_drop (Z.to_nat 30) u) as E. fold rest next in E. by rewrite Hr0, app_nil_r in E.
Qed.

(** A URL that is broken into lines for the table is read back whole. *)
Lemma url_span_text s : parseUrlSpan (createUrlSpan s) = Ret s.
Proof.
  unfold parseUrlSpan, createUrlSpan. cbn [w_lines]. pose proof (unbroken_pieces (length s) s (le_n _)) as E.
  destruct (url_pieces (length s) s) as [|x l] eqn:El; [simpl in *; by rewrite <- E|].
  pose proof (parse_lines 0 (length (line_nodes (x :: l))) (x :: l) [] eq_refl ltac:(done)) as H.
  cbv zeta. rewrite E in H. exact H.
Qed.

(** *** The stored lists *)
Definition quoted (url : jstr) : jstr := quote ++ url ++ quote.
Definition url_string (urls : list jstr) : jstr := join (js ",") (map quoted urls).

Lemma between_other pre y s : y ≠ 34 → exec_at re_between pre (y :: s) = None.
Proof. intros Hy. unfold exec_at, re_between. cbn -[in_set]. by rewrite in_set_chr_eqb, (proj2 (Z.eqb_neq _ _)). Qed.

Lemma between_here pre s : exec_at re_between pre (34 :: 44 :: 34 :: s) = Some (34 :: 44 :: 34 :: pre, s, []).
Proof. unfold exec_at, re_between. cbn -[bool_decide]. rewrite bool_decide_eq_true_2 by lia. done. Qed.

Lemma split_between_last f pre acc u : 34 ∉ u → (length u < f)%nat → split_from f re_between pre acc u = [rev acc ++ u].
Proof.
  revert f pre acc. induction u as [|y u IH]; intros f pre acc Hu Hf; (destruct f as [|f]; [simpl in Hf; lia|]).
  - simpl. by rewrite app_nil_r.
  - cbn [split_from]. rewrite between_other by set_solver. rewrite IH; [|set_solver|simpl in Hf; lia]. simpl. by rewrite <- app_assoc.
Qed.

Lemma split_between f pre acc u s : 34 ∉ u → (length u < f)%nat →
  ∃ pre', split_from f re_between pre acc (u ++ 34 :: 44 :: 34 :: s) = (rev acc ++ u) :: split_from (f - S (length u)) re_between pre' [] s.
Proof.
  revert f pre acc. induction u as [|y u IH]; intros f pre acc Hu Hf; (destruct f as [|f]; [simpl in Hf; lia|]).
  - exists (34 :: 44 :: 34 :: pre). cbn [split_from app]. rewrite between_here.
    rewrite bool_decide_eq_false_2 by (simpl; intros [_ ?]; lia). by rewrite app_nil_r, Nat.sub_1_r.
  - cbn [split_from app]. rewrite between_other by set_solver.
    destruct (IH f (y :: pre) (y :: acc)) as [pre' ->]; [set_solver|simpl in Hf; lia|]. exists pre'. simpl. by rewrite <- app_assoc.
Qed.

(** The list without its first and its last quote. *)
Fixpoint url_inside (u : jstr) (urls : list jstr) : jstr :=
  match urls with [] => u | v :: urls' => u ++ 34 :: 44 :: 34 :: url_inside v urls' end.

Lemma url_string_inside u urls : url_string (u :: urls) = 34 :: url_inside u urls ++ [34].
Proof.
  revert u. induction urls as [|v urls IH]; intros u; [done|].
  unfold url_string in *. cbn [map] in *. change (join (js ",") (quoted u :: quoted v :: map quoted urls))
    with (quoted u ++ js "," ++ join (js ",") (quoted v :: map quoted urls)).
  rewrite IH. unfold quoted, quote. cbn [url_inside]. simpl. rewrite <- ?app_assoc. simpl. by rewrite <- ?app_assoc.
Qed.

Lemma split_inside u urls f pre : 34 ∉ u → Forall (λ v, 34 ∉ v) urls → (length (url_inside u urls) < f)%nat →
  split_from f re_between pre [] (url_inside u urls) = u :: urls.
Proof.
  revert u f pre. induction urls as [|v urls IH]; intros u f pre Hu Hv Hf.
  - cbn [url_inside] in *. by rewrite split_between_last.
  - inversion Hv; subst. cbn [url_inside] in *. rewrite length_app in Hf. simpl in Hf.
    destruct (split_between f pre [] u (url_inside v urls)) as [pre' ->]; [done|lia|]. simpl. f_equal. apply IH; [done..|lia].
Qed.

Lemma replace_open s : replace re_open_quote [] (34 :: s) = s.
Proof. unfold replace, replace_with. done. Qed.

Lemma search_close pre s : search re_close_quote pre (s ++ [34]) =
  Some {| m_pre := rev s ++ pre; m_str := [34]; m_post := []; m_caps := [] |}.
Proof.
  revert pre. induction s as [|y s IH]; intros pre; [done|].
  cbn [search app]. assert (exec_at re_close_quote pre (y :: s ++ [34]) = None) as ->.
  { apply exec_at_None. intros w suf c E Hm. unfold re_close_quote in Hm.
    apply mt_seq_iff in Hm as (w1 & w2 & c1 & -> & H1 & H2). apply mt_set_iff in H1 as (x & -> & Hx & ->).
    apply mt_seq_iff in H2 as (w3 & w4 & c2 & -> & H3 & H4). apply mt_eol_iff in H4 as (-> & -> & ->).
    apply mt_rep_set_iff in H3 as (Hb & _); [|done]. rewrite !app_nil_r in E. simpl in E. injection E as _ E.
    subst w3. apply Forall_app in Hb as [_ Hb]. inversion Hb as [|? ? Hq _]; subst. by vm_compute in Hq. }
  rewrite IH. simpl. by rewrite <- app_assoc.
Qed.

Lemma replace_close s : replace re_close_quote [] (s ++ [34]) = s.
Proof. unfold replace, replace_with, exec. rewrite search_close. simpl. by rewrite !app_nil_r, rev_involutive. Qed.

Lemma two_quotes_none u : 34 ∉ u → test re_two_quotes u = false.
Proof.
  intros Hu. apply not_true_iff_false. rewrite test_search. intros (gap & w & suf & c & -> & Hm). unfold re_two_quotes in Hm.
  apply mt_seq_iff in Hm as (w1 & w2 & c1 & -> & H1 & _). apply mt_set_iff in H1 as (x & -> & Hx & _).
  apply in_set_chr in Hx as ->. set_solver.
Qed.

Lemma two_quotes_inside u v urls : test re_two_quotes (url_inside u (v :: urls)) = true.
Proof.
  apply test_search. exists u, [34; 44; 34], (url_inside v urls), []. split; [done|]. unfold re_two_quotes.
  apply mt_seq_iff. exists [34], [44; 34], []. split_and!; [done|by apply mt_set_iff; exists 34|].
  apply mt_seq_iff. exists [44], [34], []. split_and!; [done| |by apply mt_set_iff; exists 34].
  apply mt_rep_set_iff; [done|]. split_and!; [|simpl; lia|done|done]. by repeat constructor.
Qed.

(** The URLs of one kind are stored as a list of quoted texts, which is read back. *)
Lemma url_list_string urls : urls ≠ [] → Forall (λ u, 34 ∉ u) urls → url_list (url_string urls) = urls.
Proof.
  destruct urls as [|u urls]; [done|]. intros _ H. inversion H; subst. rewrite url_string_inside.
  unfold url_list. rewrite replace_open, replace_close. destruct urls as [|v urls].
  - by rewrite two_quotes_none.
  - rewrite two_quotes_inside. unfold split_re. destruct (url_inside u (v :: urls)) as [|x s] eqn:E.
    { by destruct u. }
    rewrite <- E at 2. apply split_inside; [done..|]. rewrite E. simpl. lia.
Qed.

Lemma url_string_snoc l u : url_string (l ++ [u]) = match l with [] => quoted u | _ => url_string l ++ js "," ++ quoted u end.
Proof.
  unfold url_string. rewrite map_app. induction l as [|x l IH]; [done|]. cbn [map app]. destruct l as [|y l]; [done|].
  cbn [map app] in *. change (join (js ",") (?a :: ?b :: ?c)) with (a ++ js "," ++ join (js ",") (b :: c)). rewrite IH, <- !app_assoc. done.
Qed.

(** *** The table of URLs *)

(** Part, expression and URL of a row. *)
Definition url_entry : Type := jstr * jstr * jstr.
Definition entry_row (r : url_entry) : list datum := let '(part, expr, url) := r in url_row part expr url.
Definition entry_id (r : url_entry) : jstr :=
  let '(part, expr, _) := r in (if contains part (js "domain") then js "url_domain_" else js "url_") ++ expr.
(** One of the six kinds, and a URL without quotes. *)
Definition entry_ok (r : url_entry) : Prop :=
  let '(part, expr, url) := r in (∃ t, (t, expr, part) ∈ urlTypes) ∧ 34 ∉ url.
Definition urls_of (id : jstr) (rows : list url_entry) : list jstr := map snd (List.filter (λ r, entry_id r =s id) rows).

Lemma urls_of_snoc id rows r : urls_of id (rows ++ [r]) = if entry_id r =s id then urls_of id rows ++ [r.2] else urls_of id rows.
Proof. unfold urls_of. rewrite List.filter_app, map_app. cbn [List.filter]. destruct (entry_id r =s id); [done|apply app_nil_r]. Qed.

Lemma add_url_entry defs part expr url (id := entry_id (part, expr, url)) :
  add_url defs (url_row part expr url) = Ret (<[id := match defs !! id with
    | Some s => s ++ js "," ++ quoted url | None => quoted url end]> defs).
Proof.
  unfold add_url. change (datum_str (url_row part expr url) 0) with (@Ret jstr part).
  change (datum_str (url_row part expr url) 1) with (@Ret jstr expr). cbn [exn_bind].
  change (url_row part expr url !! 2%nat) with (Some (DObj (createUrlSpan url))). cbv iota. cbn [exn_bind]. by rewrite url_span_text.
Qed.

Lemma add_urls_spec rows seen defs : (∀ id, defs !! id = match urls_of id seen with [] => None | l => Some (url_string l) end) →
  ∃ defs', exn_fold add_url (map entry_row rows) defs = Ret defs' ∧
    ∀ id, defs' !! id = match urls_of id (seen ++ rows) with [] => None | l => Some (url_string l) end.
Proof.
  revert seen defs. induction rows as [|[[part expr] url] rows IH]; intros seen defs Hd; [exists defs; by rewrite app_nil_r|].
  cbn [map exn_fold]. change (entry_row (part, expr, url)) with (url_row part expr url). rewrite add_url_entry. cbn [exn_bind].
  set (id0 := entry_id (part, expr, url)).
  match goal with |- context [exn_fold add_url _ ?d1] => destruct (IH (seen ++ [(part, expr, url)]) d1) as (defs' & E & H) end.
  - intros id. rewrite urls_of_snoc. fold id0. cbn [snd]. destruct (decide (id0 = id)) as [<-|Hne].
    + rewrite lookup_insert_eq, Hd, str_eqb_refl. pose proof (url_string_snoc (urls_of id0 seen) url) as Hs.
      destruct (urls_of id0 seen) as [|x l]; cbn [app] in *; by rewrite Hs.
    + rewrite lookup_insert_ne by done. by rewrite (proj2 (str_eqb_neq id0 id)), Hd by done.
  - exists defs'. split; [done|]. by rewrite <- app_assoc in H.
Qed.

(** The rows of one kind, as the page shows them. *)
Lemma entry_kind t expr part r : (t, expr, part) ∈ urlTypes → entry_ok r → (entry_id r =s t) = true ↔ r.1 = (part, expr).
Proof.
  destruct r as [[p e] url]. intros Ht [[t' Ht'] _]. rewrite str_eqb_eq. unfold entry_id. cbn [fst]. unfold urlTypes in *. rewrite !elem_of_cons in Ht, Ht'.
  repeat match goal with H : _ ∨ _ |- _ => destruct H as [H|H] end; try (by apply elem_of_nil in Ht); try (by apply elem_of_nil in Ht');
    simplify_eq; (split; intros H; first [reflexivity|by vm_compute in H]).
Qed.

(** The rows that the page shows for the stored lists: by kind. *)
Definition by_kind (rows : list url_entry) : list url_entry :=
  concat (map (λ '(_, expr, part), List.filter (λ r, bool_decide (r.1 = (part, expr))) rows) urlTypes).

Lemma urls_by_kind t expr part (rows : list url_entry) : (t, expr, part) ∈ urlTypes → Forall entry_ok rows →
  map (url_row part expr) (urls_of t rows) = map entry_row (List.filter (λ r, bool_decide (r.1 = (part, expr))) rows).
Proof.
  intros Ht Hok. unfold urls_of. induction Hok as [|r rows Hr Hok IH]; [done|]. cbn [List.filter].
  pose proof (entry_kind t expr part r Ht Hr) as Hk. destruct (entry_id r =s t).
  - pose proof (proj1 Hk eq_refl) as E. rewrite bool_decide_eq_true_2 by done. destruct r as [[p e] url]. injection E as -> ->. cbn [map snd]. by rewrite IH.
  - rewrite bool_decide_eq_false_2 by naive_solver. exact IH.
Qed.

Lemma url_rows_strings (rows : list url_entry) (defs : gmap jstr jstr) : Forall entry_ok rows →
  (∀ id, defs !! id = match urls_of id rows with [] => None | l => Some (url_string l) end) →
  url_rows (map (λ '(t, _, _), default [] (defs !! t)) urlTypes) = map entry_row (by_kind rows).
Proof.
  intros Hok Hd. unfold url_rows, by_kind. rewrite concat_map, map_map.
  assert (Hone : ∀ t expr part, (t, expr, part) ∈ urlTypes →
    (if negb (default [] (defs !! t) =s []) then map (url_row part expr) (url_list (default [] (defs !! t))) else []) =
    map entry_row (List.filter (λ r, bool_decide (r.1 = (part, expr))) rows)).
  { intros t expr part Ht. rewrite <- (urls_by_kind t expr part rows) by done. rewrite Hd. destruct (urls_of t rows) as [|u l] eqn:El; [done|].
    change (default [] (Some ?x)) with x. rewrite (proj2 (str_eqb_neq _ _)) by (rewrite url_string_inside; done). cbn [negb]. rewrite url_list_string; [done|done|].
    rewrite <- El. unfold urls_of. apply Forall_map, Forall_forall. intros r Hr. rewrite list_elem_of_In, filter_In, <- list_elem_of_In in Hr.
    rewrite Forall_forall in Hok. destruct r as [[p e] url]. by destruct (Hok (p, e, url) (proj1 Hr)). }
  f_equal. revert Hone. generalize urlTypes as L. induction L as [|[[t e] p] L IH]; intros Hone; [done|]. cbn [map zip_with].
  rewrite (Hone t e p) by (by left). rewrite IH; [done|]. intros t' e' p' H. apply Hone. by right.
Qed.

Context (u : UCIContainer) (sec : jstr).
Hypothesis Hsec : word sec.
(** No list of URLs is among the settings of the rule, as after the removal of its section. *)
Hypothesis Hfree : ∀ q id, q = [] ∨ q = js "not_" → id ∈ url_ids →
  gets u pkg sec (q ++ id) = [] ∧ next_key pkg sec (q ++ id) ∉ listOptions u.

Lemma url_opt_inj q q' i id : q = [] ∨ q = js "not_" → q' = [] ∨ q' = js "not_" → i ∈ url_ids → id ∈ url_ids →
  q ++ i = q' ++ id → q = q' ∧ i = id.
Proof.
  intros Hq Hq' Hi Hid E.
  assert (H : forallb (λ q, forallb (λ q', forallb (λ i, forallb (λ id, implb (q ++ i =s q' ++ id) ((q =s q') && (i =s id))) url_ids) url_ids)
    [[]; js "not_"]) [[]; js "not_"] = true) by (vm_compute; reflexivity).
  rewrite forallb_forall in H. specialize (H q ltac:(destruct Hq as [->| ->]; simpl; auto)).
  rewrite forallb_forall in H. specialize (H q' ltac:(destruct Hq' as [->| ->]; simpl; auto)).
  rewrite forallb_forall in H. specialize (H i (proj1 (list_elem_of_In _ _) Hi)).
  rewrite forallb_forall in H. specialize (H id (proj1 (list_elem_of_In _ _) Hid)).
  rewrite E, str_eqb_refl in H. cbn [implb] in H. apply andb_true_iff in H as [H1%str_eqb_eq H2%str_eqb_eq]. done.
Qed.

Lemma url_opt_name q i : q = [] ∨ q = js "not_" → i ∈ url_ids → name (q ++ i).
Proof.
  intros Hq Hi. assert (H : Forall (λ i, name ([] ++ i) ∧ name (js "not_" ++ i)) url_ids) by by_eval.
  rewrite Forall_forall in H. destruct (H i Hi). by destruct Hq as [->| ->].
Qed.

Lemma set_urls_get q q' defs id : q = [] ∨ q = js "not_" → q' = [] ∨ q' = js "not_" → id ∈ url_ids →
  gets (set_urls u sec q defs) pkg sec (q' ++ id) = if decide (q' = q) then default [] (defs !! id) else [].
Proof using Hsec Hfree.
  intros Hq Hq' Hid.
  assert (H : ∀ l u0, NoDup l → Forall (λ i, i ∈ url_ids) l → listOptions u0 = listOptions u →
    gets (fold_left (λ u id, match defs !! id with Some s => set_opt u sec (q ++ id) s | None => u end) l u0) pkg sec (q' ++ id) =
    if decide (q' = q ∧ id ∈ l) then default (gets u0 pkg sec (q' ++ id)) (defs !! id) else gets u0 pkg sec (q' ++ id)).
  { intros l. induction l as [|i l IH]; intros u0 Hnd Hl Ho; cbn [fold_left].
    { rewrite decide_False; [done|]. intros [_ H]. by apply elem_of_nil in H. }
    apply NoDup_cons in Hnd as [Hi Hnd]. apply Forall_cons in Hl as [Hu Hl]. rewrite IH; [|done|done|].
    2:{ destruct (defs !! i); [|done]. unfold set_opt. by rewrite set_listOptions. }
    destruct (decide (q' = q ∧ id = i)) as [[-> ->]|Hne].
    - rewrite decide_False by naive_solver. rewrite decide_True by (split; [done|by left]).
      destruct (defs !! i) as [s|]; [|done]. change (default ?d (Some ?x)) with x. unfold gets, set_opt. rewrite get_set_same; [done|]. rewrite Ho. by apply Hfree.
    - assert (E : gets (match defs !! i with Some s => set_opt u0 sec (q ++ i) s | None => u0 end) pkg sec (q' ++ id) = gets u0 pkg sec (q' ++ id)).
      { destruct (defs !! i) as [s|]; [|done]. unfold gets, set_opt. rewrite get_set_other; auto using word_name, url_opt_name.
        intros [= E]. apply Hne. by apply url_opt_inj in E as [-> ->]. }
      rewrite E. destruct (decide (q' = q ∧ id ∈ l)) as [[-> Hl']|Hn].
      + rewrite decide_True; [done|]. split; [done|by right].
      + rewrite decide_False; [done|]. rewrite elem_of_cons. naive_solver. }
  unfold set_urls. rewrite H; [|by_eval|by apply Forall_forall|done]. destruct (Hfree q' id) as [-> _]; [done..|].
  destruct (decide (q' = q)) as [->|]; [rewrite decide_True by done; by destruct (defs !! id)|by rewrite decide_False by naive_solver].
Qed.

End urls.

(** C22: The URLs of a rule, stored in the settings by kind as lists of quoted
    texts, are loaded again as the same rows of the table, grouped by kind, with
    the same choice between "only these" and "all but these". *)
Theorem url_table_roundtrip UI u p sec pre t rows type : word sec → rows ≠ [] → Forall entry_ok rows →
  (∀ q id, q = [] ∨ q = js "not_" → id ∈ url_ids → gets u pkg sec (q ++ id) = [] ∧ next_key pkg sec (q ++ id) ∉ listOptions u) →
  box p (pre ++ js "url_match_table_container") = Ret (Some t) → getTableDataArray t true false = Ret (map entry_row rows) →
  selected UI (rp_doc p) (pre ++ js "url_type") = Ret (Some type) → type = js "only" ∨ type = js "except" →
  ∃ u' defs, store_urls UI u p sec pre = Ret u' ∧ urlDefinitions u' sec = (defs, type) ∧ url_rows defs = map entry_row (by_kind rows).
Proof.
  intros Hsec Hne Hok Hfree Hb Hd Hs Ht. destruct (add_urls_spec rows [] ∅) as (defs & Ed & Hdefs); [done|]. cbn [app] in Hdefs.
  set (q := if bool_decide (Some type = Some (js "except")) then js "not_" else []).
  assert (Hq : q = [] ∨ q = js "not_") by (unfold q; destruct (bool_decide _); auto).
  exists (set_urls u sec q defs), (map (λ '(t, _, _), default [] (defs !! t)) urlTypes). split_and!.
  - unfold store_urls. rewrite Hs, Hb. cbn [exn_bind]. rewrite bool_decide_eq_false_2 by (by destruct Ht as [->| ->]).
    rewrite Hd. cbn [exn_bind]. by rewrite Ed.
  - assert (Hopt : ∀ q', q' = [] ∨ q' = js "not_" → url_options (set_urls u sec q defs) sec q' =
      if decide (q' = q) then map (λ '(t, _, _), default [] (defs !! t)) urlTypes else map (λ _, []) urlTypes).
    { intros q' Hq'. unfold url_options. assert (Hall : Forall (λ x, x.1.1 ∈ url_ids) urlTypes) by by_eval. rewrite Forall_forall in Hall.
      destruct (decide (q' = q)) as [E|E]; apply map_ext_in; intros [[t' e'] p'] Hin%list_elem_of_In; rewrite set_urls_get by (done || apply (Hall _ Hin));
        [by rewrite decide_True|by rewrite decide_False]. }
    assert (Hex : existsb (λ s, negb (s =s [])) (map (λ '(t, _, _), default [] (defs !! t)) urlTypes) = true).
    { destruct rows as [|[[p0 e0] url] rows]; [done|]. inversion Hok as [|? ? Hr _]; subst. pose proof Hr as [[t0 Ht0] _].
      apply existsb_exists. exists (default [] (defs !! t0)). split; [apply in_map_iff; exists (t0, e0, p0); split; [done|by apply list_elem_of_In]|].
      rewrite Hdefs. unfold urls_of. cbn [List.filter]. rewrite (proj2 (entry_kind t0 e0 p0 _ Ht0 Hr)) by done. cbn [map].
      rewrite (proj2 (str_eqb_neq _ _)); [done|]. change (default [] (Some ?x)) with x. by rewrite url_string_inside. }
    assert (Hno : existsb (λ s, negb (s =s [])) (map (λ _ : jstr * jstr * jstr, ([] : jstr)) urlTypes) = false) by done.
    unfold urlDefinitions. rewrite !Hopt by auto. destruct Ht as [->| ->].
    + assert (q = []) as -> by done. rewrite decide_True by done. by rewrite Hex.
    + assert (q = js "not_") as -> by done. rewrite decide_False, decide_True by done. by rewrite Hno, Hex.
  - by apply url_rows_strings.
Qed.

Definition sample_urls : list url_entry :=
  [(js "domain", js "exact", js "example.com"); (js "full", js "contains", js "a-path-of-more-than-thirty-characters/x"); (js "domain", js "exact", js "example.org")].
Definition sample_url_page : rest_page :=
  mkRest (mkDoc {[ js "rule_url_type" := set_selectedIndex 2 (select_el [js "all"; js "only"; js "except"]) ]} [])
    {[ js "rule_url_match_table_container" := Some (createTable (js "Remove") [] (map entry_row sample_urls) (js "t") true false) ]} new new.

Lemma url_table_roundtrip_witness : ∃ u' defs, store_urls (λ s, s) new sample_url_page (js "rule_1") (js "rule_") = Ret u' ∧
  urlDefinitions u' (js "rule_1") = (defs, js "except") ∧
  url_rows defs = map entry_row [(js "full", js "contains", js "a-path-of-more-than-thirty-characters/x");
    (js "domain", js "exact", js "example.com"); (js "domain", js "exact", js "example.org")].
Proof.
  apply (url_table_roundtrip (λ s, s) new sample_url_page (js "rule_1") (js "rule_")
    (createTable (js "Remove") [] (map entry_row sample_urls) (js "t") true false) sample_urls (js "except")).
  - by_eval.
  - done.
  - repeat constructor; try (by_eval); [exists (js "url_domain_exact")|exists (js "url_contains")|exists (js "url_domain_exact")]; by_eval.
  - intros q id _ _. split; [reflexivity|set_solver].
  - reflexivity.
  - vm_compute. reflexivity.
  - reflexivity.
  - by right.
Defined.

(** A rule that is set to no day at all is stored with the empty list of days,
    which is read as every day. *)
Theorem no_day_becomes_every_day :
  let d := mkDoc (list_to_map (map (λ s, (js "rule_" ++ s, check_el false)) (allDays ++ [js "every_day"]))) [] in
  checked_days d (js "rule_") = Ret [] ∧
  (let! d' := set_days (js "rule_") [] (join (js ",") []) d in checked_days d' (js "rule_")) = Ret allDays.
Proof. split; vm_compute; reflexivity. Qed.
