(* ===== verification/WifiEvents.v ===== *)
(** * Schedules as events

    An abstract reading of the wireless schedule, on which the facts about the
    crontab rest: the hours of the period in one row, the events of an hour, a
    list of events as a state over time, and the removal of events that change
    nothing.  No text of a crontab occurs here. *)
From stdpp Require Import sorting.
From S2P Require Import Prelude.
Open Scope Z_scope.

(** A change of the radio: the hour in the period, the minute, the new state, and
    the mark of an event that is always written. *)
Record event := mkEvent { ev_hour : nat; ev_min : Z; ev_up : bool; ev_mark : option Z }.

Module WifiEvents.

(** ** Events over time *)
Definition ev_time (e : event) : Z := 60 * Z.of_nat (ev_hour e) + ev_min e.

(** The state at a time of the period, from a state before the first event. *)
Definition state_at (s : bool) (es : list event) (t : Z) : bool :=
  fold_left (fun s e => if ev_time e <=? t then ev_up e else s) es s.

(** The events that change the state or are marked. *)
Fixpoint cull (s : bool) (es : list event) : list event :=
  match es with
  | [] => []
  | e :: es' => if negb (Bool.eqb (ev_up e) s) || bool_decide (is_Some (ev_mark e)) then e :: cull (ev_up e) es' else cull s es'
  end.

(** The state after all events. *)
Definition final (s : bool) (es : list event) : bool := fold_left (fun _ e => ev_up e) es s.

Definition in_order (es : list event) : Prop := StronglySorted (fun a b => ev_time a <= ev_time b) es.

Lemma cull_app s es fs : cull s (es ++ fs) = cull s es ++ cull (final s es) fs.
Proof.
  revert s. induction es as [|e es IH]; intros s; [done|]. cbn -[is_Some].
  destruct (negb _ || _) eqn:E; rewrite IH; [done|].
  apply orb_false_iff in E as [E _]. apply negb_false_iff, Bool.eqb_prop in E. by subst s.
Qed.

Lemma cull_marked s e es n : ev_mark e = Some n → cull s (e :: es) = e :: cull (ev_up e) es.
Proof. intros H. unfold cull at 1. by rewrite H, bool_decide_true, orb_true_r by done. Qed.

Lemma cull_plain s e es : ev_mark e = None →
  cull s (e :: es) = if Bool.eqb (ev_up e) s then cull s es else e :: cull (ev_up e) es.
Proof.
  intros H. unfold cull at 1. rewrite H, bool_decide_false by (by intros [? ?]). by destruct (Bool.eqb (ev_up e) s).
Qed.

Lemma final_app s es fs : final s (es ++ fs) = final (final s es) fs.
Proof. apply fold_left_app. Qed.

Lemma final_cull s es : final s (cull s es) = final s es.
Proof.
  revert s. induction es as [|e es IH]; intros s; [done|]. cbn -[is_Some].
  destruct (negb _ || _) eqn:E; [apply IH|].
  apply orb_false_iff in E as [E _]. apply negb_false_iff, Bool.eqb_prop in E. subst s. apply IH.
Qed.

Lemma final_last s es : final s es = match last es with Some e => ev_up e | None => s end.
Proof. induction es as [|e es _] using rev_ind; [done|]. by rewrite final_app, last_snoc. Qed.

Lemma cull_sublist s es : cull s es `sublist_of` es.
Proof.
  revert s. induction es as [|e es IH]; intros s; [constructor|]. cbn -[is_Some].
  destruct (negb _ || _); [by apply sublist_skip|by apply sublist_cons].
Qed.

Lemma state_at_app s es fs t : state_at s (es ++ fs) t = state_at (state_at s es t) fs t.
Proof. apply fold_left_app. Qed.

Lemma state_at_later s es t : Forall (fun e => t < ev_time e) es → state_at s es t = s.
Proof.
  revert s. induction es as [|e es IH]; intros s H; [done|]. inversion_clear H as [|?? He Hes]. cbn.
  destruct (Z.leb_spec (ev_time e) t); [lia|]. by apply IH.
Qed.

Lemma state_at_earlier s es t : Forall (fun e => ev_time e <= t) es → state_at s es t = final s es.
Proof.
  revert s. induction es as [|e es IH]; intros s H; [done|]. inversion_clear H as [|?? He Hes]. cbn.
  destruct (Z.leb_spec (ev_time e) t); [|lia]. by apply IH.
Qed.

(** The events that are removed do not change the state at any time. *)
Lemma state_at_cull s es t : in_order es → state_at s (cull s es) t = state_at s es t.
Proof.
  intros H. revert s. induction H as [|e es _ IH Hall]; intros s; [done|].
  destruct (Z.leb_spec (ev_time e) t) as [Ht|Ht].
  - cbn -[is_Some]. destruct (Z.leb_spec (ev_time e) t); [|lia].
    destruct (negb _ || _) eqn:E; cbn.
    + destruct (Z.leb_spec (ev_time e) t); [|lia]. apply IH.
    + apply orb_false_iff in E as [E _]. apply negb_false_iff, Bool.eqb_prop in E. subst s. apply IH.
  - assert (HF : Forall (fun e => t < ev_time e) (e :: es)).
    { constructor; [done|]. eapply Forall_impl; [exact Hall|]. cbn. intros. lia. }
    rewrite !state_at_later; [done|exact HF|]. rewrite Forall_forall in HF |- *.
    intros a Ha. apply HF. eapply elem_of_sublist; [exact Ha|apply cull_sublist].
Qed.

(** Nothing is left only of a state that never changes. *)
Lemma cull_nil s es e : cull s es = [] → e ∈ es → ev_up e = s ∧ ev_mark e = None.
Proof.
  revert s. induction es as [|a es IH]; intros s H He; [by apply not_elem_of_nil in He|].
  cbn -[is_Some] in H. destruct (negb _ || _) eqn:E; [done|].
  apply orb_false_iff in E as [E1 E2]. apply negb_false_iff, Bool.eqb_prop in E1. apply bool_decide_eq_false in E2.
  apply elem_of_cons in He as [->|He]; [|by apply (IH s)].
  split; [done|]. by apply eq_None_not_Some.
Qed.

(** ** The last event before a time, in a cycle *)

(** The latest event up to a time, or the last of all, from the cycle before. *)
Definition latest_event (es : list event) (t : Z) : option event :=
  match last (filter (fun e => ev_time e <= t) es) with Some e => Some e | None => last es end.

Lemma last_filter_up_to s es t :
  in_order es → state_at s es t = match last (filter (fun e => ev_time e <= t) es) with Some e => ev_up e | None => s end.
Proof.
  intros H. revert s. induction H as [|e es _ IH Hall]; intros s; [done|].
  change (state_at s (e :: es) t) with (state_at (if ev_time e <=? t then ev_up e else s) es t).
  destruct (Z.leb_spec (ev_time e) t) as [Ht|Ht].
  - rewrite filter_cons_True by done. rewrite IH, last_cons. by destruct (last _).
  - rewrite filter_cons_False by lia. apply IH.
Qed.

(** The state of a cycle is the one of the latest event. *)
Lemma latest_event_state s es t : in_order es → es ≠ [] →
  ∃ e, latest_event es t = Some e ∧ ev_up e = state_at (final s es) es t.
Proof.
  intros Ho Hne. unfold latest_event. rewrite (last_filter_up_to (final s es)) by done.
  destruct (last (filter _ es)) as [e|]; [by exists e|].
  rewrite final_last. destruct (last es) as [e|] eqn:E; [by exists e|]. by apply last_None in E.
Qed.

Lemma in_order_last es e : in_order es → last es = Some e → ∀ a, a ∈ es → ev_time a <= ev_time e.
Proof.
  intros H. induction H as [|x es Hs IH Hall]; [done|]. intros He a Ha.
  destruct es as [|y es']; [cbn in He; simplify_eq; apply elem_of_cons in Ha as [->|Ha]; [done|by apply not_elem_of_nil in Ha]|].
  cbn in He. apply elem_of_cons in Ha as [->|Ha]; [|by apply IH].
  rewrite Forall_forall in Hall. apply Hall. by apply last_Some_elem_of.
Qed.

Lemma last_filter {A} (P : A → Prop) `{∀ x, Decision (P x)} (l : list A) x : last l = Some x → P x → last (filter P l) = Some x.
Proof.
  intros [l' ->]%last_Some Hx. rewrite filter_app, filter_cons_True, filter_nil by done. by rewrite last_snoc.
Qed.

Lemma in_order_sublist es fs : es `sublist_of` fs → in_order fs → in_order es.
Proof.
  unfold in_order. induction 1 as [|e es fs Hs IH|e es fs Hs IH]; intros Ho; [done| |]; inversion_clear Ho as [|?? Hf Hall]; [|by apply IH].
  constructor; [by apply IH|]. rewrite Forall_forall in Hall |- *. intros a Ha. apply Hall. by eapply elem_of_sublist.
Qed.

Lemma in_order_filter (P : event → Prop) `{∀ x, Decision (P x)} es : in_order es → in_order (filter P es).
Proof.
  intros H1. induction H1 as [|e es _ IH Hall]; [constructor|]. rewrite filter_cons. case_decide; [|done].
  constructor; [done|]. apply Forall_forall. intros a [_ Ha]%list_elem_of_filter. by apply (proj1 (Forall_forall _ _) Hall).
Qed.

(** ** The events of a row of hours *)

(** What the value of an hour says of its minutes. *)
Definition on_at (v m : Z) : bool := (v =? 60) || ((0 <? v) && (m <? v)) || ((v <? 0) && (Z.abs v <=? m)).

(** The state at the end of the hour. *)
Definition ends (v : Z) : bool := (v =? 60) || (v <? 0).

Definition own (H : nat) (v : Z) : event :=
  if v =? 0 then mkEvent H 0 false None
  else if v =? 60 then mkEvent H 0 true None
  else mkEvent H (Z.abs v) (negb (0 <? v)) None.

Definition cell (cs : list Z) (H : nat) : Z := nth H cs 0.
Definition prev (cs : list Z) (H : nat) : Z := cell cs (if (H =? 0)%nat then length cs - 1 else H - 1)%nat.

(** The marked event before the one of an hour: its state and its number. *)
Definition mark (mode : Z) (cs : list Z) (H : nat) : option (bool * Z) :=
  let v := cell cs H in
  let pre := prev cs H in
  if (0 <=? pre) && (pre <? 60) && (0 <? v) && (v <? 60) then Some (true, 1)
  else if (pre <? 0) && (-60 <? pre) && (v <? 0) && (-60 <? v) then Some (false, 2)
  else if (mode =? 3) && (H =? 24)%nat then
    let last := cell cs 47 in
    if (last =? 60) && (v =? 0) then
      if (pre <? 60) && (0 <? pre) then Some (false, 3) else if pre =? 0 then Some (false, 4) else None
    else if (last <? 0) && (v =? 0) then Some (false, 5)
    else if (pre =? 60) && (v =? 60) && (last =? 0) then Some (true, 6)
    else None
  else None.

Definition hour_events (mode : Z) (cs : list Z) (H : nat) : list event :=
  match mark mode cs H with Some (up, n) => [mkEvent H 0 up (Some n)] | None => [] end ++ [own H (cell cs H)].

Definition all_events (mode : Z) (cs : list Z) : list event := concat (map (hour_events mode cs) (seq 0 (length cs))).

(** Hours as the page makes them, where none that begins with the radio off follows
    one that has it on to the end. *)
Definition good (cs : list Z) : Prop :=
  Forall (fun v => -60 < v <= 60) cs ∧ ∀ H, (H < length cs)%nat → cell cs H < 0 → prev cs H ≠ 60.

(** Decides the comparisons of a goal. *)
Ltac zcases :=
  repeat match goal with
  | |- context [?a =? ?b] => destruct (Z.eqb_spec a b)
  | |- context [?a <? ?b] => destruct (Z.ltb_spec a b)
  | |- context [?a <=? ?b] => destruct (Z.leb_spec a b)
  end.

Lemma cell_range (cs : list Z) H : Forall (fun v => -60 < v <= 60) cs → (H < length cs)%nat → -60 < cell cs H <= 60.
Proof. intros Hf Hl. destruct (lookup_lt_is_Some_2 cs H Hl) as [v Hv]. rewrite Forall_lookup in Hf. unfold cell. erewrite nth_lookup_Some by done. by eapply Hf. Qed.

Lemma prev_lt (cs : list Z) H : (H < length cs)%nat → ((if (H =? 0)%nat then length cs - 1 else H - 1) < length cs)%nat.
Proof. destruct (Nat.eqb_spec H 0); lia. Qed.

Lemma prev_range (cs : list Z) H : Forall (fun v => -60 < v <= 60) cs → (H < length cs)%nat → -60 < prev cs H <= 60.
Proof. intros. apply cell_range; [done|]. by apply prev_lt. Qed.

Lemma own_props H v : -60 < v <= 60 →
  ev_hour (own H v) = H ∧ 0 <= ev_min (own H v) < 60 ∧ ev_up (own H v) = ends v ∧ ev_mark (own H v) = None.
Proof. intros. unfold own, ends. zcases; cbn; lia || (repeat split; try lia; done). Qed.

(** An hour has its own event, after a marked one at its start: of the other state
    when its own comes later, of the same one otherwise. *)
Inductive hour_shape (H : nat) (pre v : Z) : list event → Prop :=
| Shape_own : (v < 0 → ends pre = false) → (0 < v < 60 → ends pre = true) → hour_shape H pre v [own H v]
| Shape_later n : v ≠ 0 → v ≠ 60 → hour_shape H pre v [mkEvent H 0 (negb (ends v)) (Some n); own H v]
| Shape_same n : v = 0 ∨ v = 60 → hour_shape H pre v [mkEvent H 0 (ends v) (Some n); own H v].

Lemma hour_events_shape mode cs H : good cs → (H < length cs)%nat → hour_shape H (prev cs H) (cell cs H) (hour_events mode cs H).
Proof.
  intros [Hf Hg] Hl. pose proof (cell_range cs H Hf Hl) as Hv. pose proof (prev_range cs H Hf Hl) as Hp. specialize (Hg H Hl).
  unfold hour_events, mark. set (v := cell cs H) in *. set (pre := prev cs H) in *.
  destruct ((0 <=? pre) && (pre <? 60) && (0 <? v) && (v <? 60)) eqn:E1.
  { rewrite !andb_true_iff, !Z.leb_le, !Z.ltb_lt in E1. cbn [app]. replace true with (negb (ends v)); [constructor; lia|]. unfold ends. zcases; lia || done. }
  destruct ((pre <? 0) && (-60 <? pre) && (v <? 0) && (-60 <? v)) eqn:E2.
  { rewrite !andb_true_iff, !Z.ltb_lt in E2. cbn [app]. replace false with (negb (ends v)); [constructor; lia|]. unfold ends. zcases; lia || done. }
  rewrite !andb_false_iff, ?Z.leb_gt, ?Z.ltb_ge in E1, E2.
  assert (Hown : hour_shape H pre v ([] ++ [own H v])).
  { apply Shape_own; intros; unfold ends; zcases; lia || done. }
  destruct ((mode =? 3) && (H =? 24)%nat); [|exact Hown].
  assert (Hsame : ∀ up n, (v = 0 ∧ up = false) ∨ (v = 60 ∧ up = true) →
    hour_shape H pre v ([mkEvent H 0 up (Some n)] ++ [own H v])).
  { intros up n Hup. replace up with (ends v); [apply Shape_same; tauto|]. destruct Hup as [[-> ->]|[-> ->]]; done. }
  set (lst := cell cs 47).
  destruct (Z.eqb_spec v 0) as [Hv0|Hv0]; rewrite ?andb_false_r, ?andb_true_r.
  - destruct (lst =? 60); [destruct ((pre <? 60) && (0 <? pre)); [|destruct (pre =? 0)]|destruct (lst <? 0)];
      try apply Hsame; try apply Hown; try (by left).
    replace (v =? 60) with false by lia. rewrite andb_false_r. exact Hown.
  - destruct ((pre =? 60) && (v =? 60) && (lst =? 0)) eqn:E3; [|exact Hown].
    rewrite !andb_true_iff, !Z.eqb_eq in E3. apply Hsame. right. tauto.
Qed.

Section Hour.
Context (H : nat) (pre v : Z) (es : list event) (Hv : -60 < v <= 60) (Hes : hour_shape H pre v es).

Lemma hour_times : Forall (fun e => ev_hour e = H ∧ 0 <= ev_min e < 60) es.
Proof using Hv Hes. destruct (own_props H v Hv) as (? & ? & _). destruct Hes; repeat constructor; cbn; lia. Qed.

Lemma hour_order : in_order es.
Proof using Hv Hes.
  destruct (own_props H v Hv) as (Ht & Hm & _). unfold in_order. destruct Hes; repeat constructor; unfold ev_time; rewrite Ht; cbn; lia.
Qed.

Lemma hour_final s : final s es = ends v.
Proof using Hv Hes. destruct (own_props H v Hv) as (_ & _ & Hu & _). by destruct Hes; cbn; rewrite Hu. Qed.

Lemma hour_nonempty : es ≠ [].
Proof using Hes. by destruct Hes. Qed.

(** Through the hour the state is what its value says. *)
Lemma hour_state m : 0 <= m < 60 → state_at (ends pre) es (60 * Z.of_nat H + m) = on_at v m.
Proof using Hv Hes.
  intros Hm. destruct (own_props H v Hv) as (Ht & _ & Hu & _).
  assert (Ho : ∀ s, (v < 0 → s = false) → (0 < v < 60 → s = true) →
    (if ev_time (own H v) <=? 60 * Z.of_nat H + m then ev_up (own H v) else s) = on_at v m).
  { intros s H1 H2. unfold ev_time. rewrite Ht, Hu. unfold ends, on_at, own. zcases; cbn [ev_min] in *; cbn; lia || (rewrite ?H1, ?H2 by lia; done). }
  unfold state_at. destruct Hes as [H1 H2|n H1 H2|n H1]; cbn [fold_left].
  - by apply Ho.
  - apply Ho; intros; unfold ev_time; cbn; unfold ends; zcases; lia || done.
  - apply Ho; lia.
Qed.

(** What is left of the hour: its own event when that comes later or changes the
    state. *)
Lemma hour_cull :
  (v ≠ 0 → v ≠ 60 → ∃ l, cull (ends pre) es = l ++ [own H v] ∧ (l = [] ∨ ∃ e, l = [e] ∧ ev_hour e = H ∧ ev_min e = 0)) ∧
  (v = 0 ∨ v = 60 →
    (cull (ends pre) es = [] ∧ ends v = ends pre) ∨
    (∃ e, cull (ends pre) es = [e] ∧ ev_hour e = H ∧ ev_min e = 0 ∧ ev_up e = ends v)).
Proof using Hv Hes.
  destruct (own_props H v Hv) as (Ht & _ & Hu & Hm). split.
  - intros H0 H60. destruct Hes as [H1 H2|n H1 H2|n H1]; [exists []|exists [mkEvent H 0 (negb (ends v)) (Some n)]|tauto].
    + split; [|by left]. rewrite cull_plain, Hu by done. replace (Bool.eqb _ _) with false; [done|].
      destruct (decide (v < 0)); [rewrite H1 by done|rewrite H2 by lia]; unfold ends; zcases; lia || done.
    + split; [|right; by eexists]. rewrite (cull_marked _ _ _ n), cull_plain, Hu by done. cbn [ev_up app]. by destruct (ends v).
  - intros H0. assert (Hmin : ev_min (own H v) = 0) by (unfold own; destruct H0 as [->| ->]; done).
    destruct Hes as [H1 H2|n H1 H2|n H1]; [|tauto|].
    + rewrite cull_plain, Hu by done. destruct (Bool.eqb (ends v) (ends pre)) eqn:E; [left; split; [done|by apply Bool.eqb_prop]|right].
      by eexists.
    + right. exists (mkEvent H 0 (ends v) (Some n)). split; [|done].
      rewrite (cull_marked _ _ _ n), cull_plain, Hu by done. cbn [ev_up]. by rewrite Bool.eqb_reflx.
Qed.

End Hour.

(** ** The events of the period *)
Section Row.
Context (mode : Z) (cs : list Z) (Hg : good cs).

Let events := hour_events mode cs.

Lemma row_shape H : (H < length cs)%nat → -60 < cell cs H <= 60 ∧ hour_shape H (prev cs H) (cell cs H) (events H).
Proof using Hg. intros Hl. split; [apply cell_range; [apply Hg|done]|by apply hour_events_shape]. Qed.

Lemma row_times a k : (a + k <= length cs)%nat →
  Forall (fun e => (a <= ev_hour e < a + k)%nat ∧ 0 <= ev_min e < 60) (concat (map events (seq a k))).
Proof using Hg.
  intros Hl. apply Forall_concat, Forall_map, Forall_forall. intros H HH%elem_of_seq.
  destruct (row_shape H) as [Hv Hs]; [lia|]. eapply Forall_impl; [by apply (hour_times _ _ _ _ Hv Hs)|]. cbn. intros e ?. lia.
Qed.

Lemma row_order_from a k : (a + k <= length cs)%nat → in_order (concat (map events (seq a k))).
Proof using Hg.
  revert a. induction k as [|k IH]; intros a Hl; [constructor|]. cbn [seq map concat].
  destruct (row_shape a) as [Hv Hs]; [lia|]. apply StronglySorted_app_2.
  - intros e e' He He'. pose proof (row_times (S a) k ltac:(lia)) as Ht.
    pose proof (hour_times _ _ _ _ Hv Hs) as Hh. rewrite Forall_forall in Ht, Hh. specialize (Ht _ He'). specialize (Hh _ He).
    unfold ev_time. lia.
  - by apply (hour_order _ _ _ _ Hv Hs).
  - apply IH. lia.
Qed.

Lemma row_order : in_order (all_events mode cs).
Proof using Hg. apply row_order_from. lia. Qed.

Lemma row_final_upto s k : (k <= length cs)%nat →
  final s (concat (map events (seq 0 k))) = if (k =? 0)%nat then s else ends (cell cs (k - 1)).
Proof using Hg.
  destruct k as [|k]; intros Hl; [done|]. rewrite seq_S, map_app, concat_app, final_app. cbn [map concat plus Nat.eqb Nat.sub].
  rewrite app_nil_r, Nat.sub_0_r. destruct (row_shape k) as [Hv Hs]; [lia|]. by apply (hour_final _ _ _ _ Hv Hs).
Qed.

(** The state that the period begins and ends with. *)
Definition row_start : bool := ends (cell cs (length cs - 1)).

Lemma row_final s : (0 < length cs)%nat → final s (all_events mode cs) = row_start.
Proof using Hg. intros Hl. unfold all_events. rewrite row_final_upto by lia. by destruct (Nat.eqb_spec (length cs) 0); [lia|]. Qed.

Lemma row_final_prev H : (H < length cs)%nat → final row_start (concat (map events (seq 0 H))) = ends (prev cs H).
Proof using Hg. intros Hl. rewrite row_final_upto by lia. unfold prev. by destruct (Nat.eqb_spec H 0). Qed.

(** At every minute the events give the state that the row says. *)
Lemma row_state H m : (H < length cs)%nat → 0 <= m < 60 →
  state_at row_start (all_events mode cs) (60 * Z.of_nat H + m) = on_at (cell cs H) m.
Proof using Hg.
  intros Hl Hm. destruct (row_shape H Hl) as [Hv Hs]. unfold all_events.
  replace (length cs) with (H + (1 + (length cs - H - 1)))%nat by lia.
  rewrite !seq_app, !map_app, !concat_app, !state_at_app. cbn [map seq concat]. rewrite app_nil_r, Nat.add_0_l.
  rewrite (state_at_later _ (concat (map _ (seq (H + 1) _)))), (state_at_earlier _ (concat (map _ (seq 0 H)))).
  - fold events. rewrite row_final_prev by done. by apply (hour_state H (prev cs H)).
  - eapply Forall_impl; [apply row_times; lia|]. cbn. unfold ev_time. intros e ?. lia.
  - eapply Forall_impl; [apply row_times; lia|]. cbn. unfold ev_time. intros e ?. lia.
Qed.

(** The hours keep their events each for itself. *)
Lemma row_cull : cull row_start (all_events mode cs) =
  concat (map (fun H => cull (ends (prev cs H)) (events H)) (seq 0 (length cs))).
Proof using Hg.
  unfold all_events. fold events. enough (Hk : ∀ k, (k <= length cs)%nat →
    cull row_start (concat (map events (seq 0 k))) = concat (map (fun H => cull (ends (prev cs H)) (events H)) (seq 0 k)))
    by by apply Hk.
  induction k as [|k IH]; intros Hl; [done|]. rewrite seq_S, !map_app, !concat_app, cull_app, IH by lia. cbn [map concat plus].
  by rewrite !app_nil_r, row_final_prev by lia.
Qed.

(** No event is left only of a radio that is always on or always off. *)
Lemma row_constant : (0 < length cs)%nat → cull row_start (all_events mode cs) = [] →
  ∀ H, (H < length cs)%nat → cell cs H = if row_start then 60 else 0.
Proof using Hg.
  intros Hn Hc H Hl. destruct (row_shape H Hl) as [Hv Hs].
  assert (Hin : ∀ e, e ∈ events H → ev_up e = row_start ∧ ev_mark e = None).
  { intros e He. apply (cull_nil _ _ _ Hc). unfold all_events. apply list_elem_of_In, in_concat. exists (events H).
    split; [|by apply list_elem_of_In]. apply in_map, list_elem_of_In, elem_of_seq. lia. }
  assert (Hr : row_start = ends (cell cs H)).
  { rewrite <-(hour_final _ _ _ _ Hv Hs row_start), final_last. pose proof (hour_nonempty _ _ _ _ Hs) as Hne.
    destruct (last (events H)) as [e|] eqn:E; [|done]. symmetry. by apply Hin, last_Some_elem_of. }
  assert (Hpr : ends (prev cs H) = row_start).
  { rewrite <-row_final_prev by done. assert (Hk : ∀ k, (k <= length cs)%nat → final row_start (concat (map events (seq 0 k))) = row_start); [|apply Hk; lia].
    intros k Hk. rewrite final_last. destruct (last _) as [e|] eqn:E; [|done]. apply (cull_nil _ _ _ Hc).
    apply last_Some_elem_of in E. unfold all_events. replace (length cs) with (k + (length cs - k))%nat by lia.
    rewrite seq_app, map_app, concat_app. apply elem_of_app. by left. }
  destruct Hs as [H1 H2|n H1 H2|n H1].
  - rewrite Hr in Hpr |- *. rewrite Hpr in H1, H2. revert H1 H2. unfold ends. zcases; intros; lia || naive_solver lia.
  - destruct (Hin (mkEvent H 0 (negb (ends (cell cs H))) (Some n))) as [_ ?]; [by left|done].
  - destruct (Hin (mkEvent H 0 (ends (cell cs H)) (Some n))) as [_ ?]; [by left|done].
Qed.

End Row.

(** ** Looking back in time *)

(** The last thing that happened, within so many minutes. *)
Fixpoint latest {A} (f : Z → option A) (back : nat) (t : Z) : option A :=
  match back with
  | O => None
  | S back' => match f t with Some a => Some a | None => latest f back' (t - 1) end
  end.

Lemma latest_at {A} (f : Z → option A) back t k a :
  0 <= k < Z.of_nat back → f (t - k) = Some a → (∀ i, 0 <= i < k → f (t - i) = None) → latest f back t = Some a.
Proof.
  revert t k. induction back as [|back IH]; intros t k Hk Ha Hn; [lia|]. cbn.
  destruct (decide (k = 0)) as [->|Hk0]; [by rewrite Z.sub_0_r in Ha; rewrite Ha|].
  specialize (Hn 0 ltac:(lia)) as H0. rewrite Z.sub_0_r in H0. rewrite H0.
  apply (IH (t - 1) (k - 1)); [lia|by replace (t - 1 - (k - 1)) with (t - k) by lia|].
  intros i Hi. replace (t - 1 - i) with (t - (i + 1)) by lia. apply Hn. lia.
Qed.

Lemma mod_back t P k : 0 < P → 0 <= k <= t mod P → (t - k) mod P = t mod P - k.
Proof. intros. pose proof (Z.mod_pos_bound t P). symmetry. apply (Z.mod_unique_pos _ _ (t / P)); [lia|]. pose proof (Z.div_mod t P). lia. Qed.

Lemma mod_back_cycle t P k : 0 < P → t mod P < k <= P → (t - k) mod P = P + t mod P - k.
Proof. intros. pose proof (Z.mod_pos_bound t P). symmetry. apply (Z.mod_unique_pos _ _ (t / P - 1)); [lia|]. pose proof (Z.div_mod t P). lia. Qed.

(** Events that come back every [P] minutes: the last one of a cycle holds until the
    first one of the next. *)
Lemma latest_cycle es P back t e : in_order es → 0 < P <= Z.of_nat back → Forall (fun e => 0 <= ev_time e < P) es →
  latest_event es (t mod P) = Some e →
  latest (fun t => last (filter (fun e => ev_time e = t mod P) es)) back t = Some e.
Proof.
  intros Ho HP Ht. unfold latest_event. pose proof (Z.mod_pos_bound t P). rewrite Forall_forall in Ht.
  assert (Hno : ∀ u, (∀ a, a ∈ es → ev_time a ≠ u) → last (filter (fun e => ev_time e = u) es) = None).
  { intros u Hu. destruct (last _) as [a|] eqn:Ha; [|done].
    apply last_Some_elem_of, list_elem_of_filter in Ha as [Ha1 Ha2]. by destruct (Hu a). }
  destruct (last (filter _ es)) as [x|] eqn:E; intros Hx; simplify_eq.
  - pose proof (in_order_last _ _ (in_order_filter _ _ Ho) E) as Hmax.
    pose proof E as [Hle He]%last_Some_elem_of%list_elem_of_filter. pose proof (Ht _ He) as Hr.
    apply (latest_at _ _ _ (t mod P - ev_time e)); [lia| |].
    + rewrite mod_back by lia. replace (t mod P - _) with (ev_time e) by lia.
      pose proof (last_filter (fun a => ev_time a = ev_time e) _ _ E eq_refl) as Hl. by rewrite list_filter_filter_l in Hl by (intros; lia).
    + intros i Hi. rewrite mod_back by lia. apply Hno. intros a Ha Hu.
      specialize (Hmax a ltac:(apply list_elem_of_filter; split; [lia|done])). lia.
  - apply last_None in E. pose proof Hx as He%last_Some_elem_of. pose proof (Ht _ He) as Hr.
    assert (Hgt : ∀ a, a ∈ es → t mod P < ev_time a).
    { intros a Ha. destruct (decide (ev_time a <= t mod P)) as [Hle|]; [|lia].
      assert (a ∈ filter (fun e => ev_time e <= t mod P) es) as Hin by (apply list_elem_of_filter; done). by rewrite E in Hin; apply not_elem_of_nil in Hin. }
    specialize (Hgt e He) as Hge. apply (latest_at _ _ _ (t mod P + P - ev_time e)); [lia| |].
    + rewrite mod_back_cycle by lia. replace (P + _ - _) with (ev_time e) by lia. by apply last_filter.
    + intros i Hi. apply Hno. intros a Ha Hu. specialize (Hgt a Ha). pose proof (in_order_last _ _ Ho Hx a Ha).
      destruct (decide (i <= t mod P)); [rewrite mod_back in Hu by lia|rewrite mod_back_cycle in Hu by lia]; lia.
Qed.

End WifiEvents.
