(* ===== verification/WifiSchedule.v ===== *)
(** * The wireless schedule (wifi_schedule.js)

    The page shows one, three or seven tables of 24 hours (one for every day;
    Sunday, weekdays and Saturday; the days of the week).  The value of an hour is
    60 when the radio is on, 0 when it is off, [m] when it goes off and [-m]
    when it comes on at minute [m].  The schedule is kept as lines of a crontab,
    one for each change of the radio.

    Of a cell only its value is represented, not its text and colour.  The
    strings of the language pack ([Wsch], [UI]) are parameters. *)
From S2P Require Import Prelude JsNum JsString JsRegex Ip4 Table Dom.
Import Table Dom Ip4.
Open Scope Z_scope.

(** The globals of the script, with the tables of hours (the seven tabs; one that
    is not set up is empty) and the tab that is shown. *)
Record wifi_page := mkWifi {
  ws_doc : document;
  ws_mode : Z;                       (** [timerMode] *)
  ws_increment : Z;
  ws_tables : list (list Z);
  ws_shown : nat;
  ws_new : list jstr;                (** [new_cron_tabs] *)
  ws_stripped : list jstr;
  ws_found : list jstr;
  ws_time : list Z;                  (** [current_time] *)
  ws_wifi : Z;                       (** [Wi_Fi] *)
  ws_clone : list (list Z);          (** [cloned_crontab_table] *)
  ws_summary : jstr;
  ws_status : jstr
}.

Module WifiSchedule.

Definition with_doc (p : wifi_page) (d : document) : wifi_page :=
  mkWifi d (ws_mode p) (ws_increment p) (ws_tables p) (ws_shown p) (ws_new p) (ws_stripped p) (ws_found p) (ws_time p) (ws_wifi p) (ws_clone p) (ws_summary p) (ws_status p).
Definition with_mode (p : wifi_page) (m : Z) : wifi_page :=
  mkWifi (ws_doc p) m (ws_increment p) (ws_tables p) (ws_shown p) (ws_new p) (ws_stripped p) (ws_found p) (ws_time p) (ws_wifi p) (ws_clone p) (ws_summary p) (ws_status p).
Definition with_tables (p : wifi_page) (t : list (list Z)) : wifi_page :=
  mkWifi (ws_doc p) (ws_mode p) (ws_increment p) t (ws_shown p) (ws_new p) (ws_stripped p) (ws_found p) (ws_time p) (ws_wifi p) (ws_clone p) (ws_summary p) (ws_status p).
Definition with_shown (p : wifi_page) (n : nat) : wifi_page :=
  mkWifi (ws_doc p) (ws_mode p) (ws_increment p) (ws_tables p) n (ws_new p) (ws_stripped p) (ws_found p) (ws_time p) (ws_wifi p) (ws_clone p) (ws_summary p) (ws_status p).
Definition with_new (p : wifi_page) (l : list jstr) : wifi_page :=
  mkWifi (ws_doc p) (ws_mode p) (ws_increment p) (ws_tables p) (ws_shown p) l (ws_stripped p) (ws_found p) (ws_time p) (ws_wifi p) (ws_clone p) (ws_summary p) (ws_status p).
Definition with_tabs (p : wifi_page) (stripped found : list jstr) : wifi_page :=
  mkWifi (ws_doc p) (ws_mode p) (ws_increment p) (ws_tables p) (ws_shown p) (ws_new p) stripped found (ws_time p) (ws_wifi p) (ws_clone p) (ws_summary p) (ws_status p).
Definition with_time (p : wifi_page) (l : list Z) : wifi_page :=
  mkWifi (ws_doc p) (ws_mode p) (ws_increment p) (ws_tables p) (ws_shown p) (ws_new p) (ws_stripped p) (ws_found p) l (ws_wifi p) (ws_clone p) (ws_summary p) (ws_status p).
Definition with_status (p : wifi_page) (wifi : Z) (s : jstr) : wifi_page :=
  mkWifi (ws_doc p) (ws_mode p) (ws_increment p) (ws_tables p) (ws_shown p) (ws_new p) (ws_stripped p) (ws_found p) (ws_time p) wifi (ws_clone p) (ws_summary p) s.
Definition with_clone (p : wifi_page) (l : list (list Z)) : wifi_page :=
  mkWifi (ws_doc p) (ws_mode p) (ws_increment p) (ws_tables p) (ws_shown p) (ws_new p) (ws_stripped p) (ws_found p) (ws_time p) (ws_wifi p) l (ws_summary p) (ws_status p).
Definition with_summary (p : wifi_page) (s : jstr) : wifi_page :=
  mkWifi (ws_doc p) (ws_mode p) (ws_increment p) (ws_tables p) (ws_shown p) (ws_new p) (ws_stripped p) (ws_found p) (ws_time p) (ws_wifi p) (ws_clone p) s (ws_status p).

Definition garCronWIFI : jstr := js "/usr/lib/gargoyle/scheduled_wifi.sh".

(** ** Cells *)

(** The cell of a day and an hour; one that is missing has no value. *)
Definition ThisCell (p : wifi_page) (aday ahour : Z) : exn Z :=
  if (aday <? 0) || (ahour <? 0) then Raise TypeError
  else let! t := exn_of_option TypeError (ws_tables p !! Z.to_nat aday) in exn_of_option TypeError (t !! Z.to_nat ahour).

Definition PreviousCell (p : wifi_page) (aday ahour : Z) : exn Z :=
  if ahour =? 0 then ThisCell p (if aday =? 0 then ws_mode p - 1 else aday - 1) 23 else ThisCell p aday (ahour - 1).

(** [cell.value = v] *)
Definition SetCell (p : wifi_page) (aday ahour v : Z) : exn wifi_page :=
  let! _c := ThisCell p aday ahour in
  Ret (with_tables p (alter (<[Z.to_nat ahour := v]>) (Z.to_nat aday) (ws_tables p))).

(** ** The crontab of the tables *)
Definition day_string (mode day : Z) : option jstr :=
  if mode =? 1 then Some (js "*")
  else if mode =? 3 then Some (if day =? 0 then js "0" else if day =? 1 then js "1-5" else if day =? 2 then js "6" else [])
  else if mode =? 7 then Some (str_of_Z day)
  else None.

(** One line, which is appended to [new_cron_tabs]; none in another mode. *)
Definition generateCronTabStr (mode min hour day : Z) (extra : jstr) : list jstr :=
  match day_string mode day with
  | None => []
  | Some ds =>
      let rest cmd := js " " ++ str_of_Z hour ++ js " * * " ++ ds ++ js " " ++ garCronWIFI ++ js " " ++ cmd ++ extra in
      [if min =? 0 then js "0" ++ rest (js "down")
       else if min =? 60 then js "0" ++ rest (js "up")
       else str_of_Z (Z.abs min) ++ rest (if 0 <? min then js "down" else js "up")]
  end.

(** [tab.split(" ")[i]]; only a use of a missing field throws. *)
Definition tab_field (tab : jstr) (i : nat) : exn jstr := exn_of_option TypeError (split_char 32 tab !! i).

(** [tab.split("keep")[0]]: the text before the first occurrence. *)
Definition before_keep (tab : jstr) : jstr :=
  let i := indexOf tab (js "keep") in if i <? 0 then tab else take (Z.to_nat i) tab.
Definition has_keep (tab : jstr) : bool := 0 <? indexOf tab (js "keep").

(** The loop of [CronTabCull]: a line stays when it changes the state, or is
    marked.  [match] with a text looks for it. *)
Definition cull_step (st : list jstr * jstr) (tab : jstr) : exn (list jstr * jstr) :=
  let '(culledTabs, previous) := st in
  let! state := tab_field tab 6 in
  Ret (if negb (contains state previous) then (culledTabs ++ [tab], state)
       else if has_keep tab then (culledTabs ++ [before_keep tab], state)
       else st).

Definition CronTabCull (tabs : list jstr) : exn (list jstr) :=
  let! final := exn_of_option TypeError (last tabs) in
  let! previous := tab_field final 6 in
  let! r := exn_fold cull_step tabs ([], previous) in
  Ret (map (fun tab => if has_keep tab then before_keep tab else tab) (fst r)).

(** The marked line before the first hour of the weekdays, which follow a Sunday
    and each other. *)
Definition weekday_tabs (p : wifi_page) (pre v : Z) : exn (list jstr) :=
  let gen min extra := generateCronTabStr (ws_mode p) min 0 1 extra in
  let! final := ThisCell p 1 23 in
  Ret (if (final =? 60) && (v =? 0) then
         if (pre <? 60) && (0 <? pre) then gen 0 (js " keep3") else if pre =? 0 then gen 0 (js " keep4") else []
       else if (final <? 0) && (v =? 0) then gen 0 (js " keep5")
       else if (pre =? 60) && (v =? 60) && (final =? 0) then gen 60 (js " keep6")
       else []).

(** The lines of one hour. *)
Definition hour_tabs (p : wifi_page) (i j : Z) : exn (list jstr) :=
  let gen min extra := generateCronTabStr (ws_mode p) min j i extra in
  let! v := ThisCell p i j in
  let! pre := PreviousCell p i j in
  let! extra :=
    (if (0 <=? pre) && (pre <? 60) && (0 <? v) && (v <? 60) then Ret (gen 60 (js " keep1"))
     else if (pre <? 0) && (-60 <? pre) && (v <? 0) && (-60 <? v) then Ret (gen 0 (js " keep2"))
     else if (ws_mode p =? 3) && (i =? 1) && (j =? 0) then weekday_tabs p pre v
     else Ret []) in
  Ret (extra ++ gen v []).

(** The hours of the tabs in turn. *)
Definition hours (mode : Z) : list (Z * Z) :=
  concat (map (fun i => map (fun j => (Z.of_nat i, Z.of_nat j)) (seq 0 24)) (seq 0 (Z.to_nat mode))).

Definition scanSettings (p : wifi_page) : exn wifi_page :=
  let! tabs := exn_fold (fun tabs '(i, j) => let! l := hour_tabs p i j in Ret (tabs ++ l)) (hours (ws_mode p)) [] in
  let! tabs := CronTabCull tabs in
  Ret (with_new p tabs).

(** ** The tables of a crontab *)

(** [eval] of a text of digits, dashes and commas: a number (octal, when a zero
    precedes octal digits), a difference, which may start with a sign, or a list,
    of which the last element is the result.  Every other text of these characters
    but the empty one throws, and so does one that starts with a star; these are
    the texts that [eval_known] admits. *)
Definition eval_digits (s : jstr) : option Z :=
  if forallb is_digit s && negb (s =s []) then
    Some (if (1 <? zlen s) && (nth 0 s 0 =? 48) && forallb (fun c => c <? 56) s
          then digits_val 8 (map (fun c => c - 48) s) else dec_val s)
  else None.
Definition eval_difference (s : jstr) : option Z :=
  match split_char 45 s with
  | first :: rest =>
      first ← (if (first =s []) && (0 <? length rest)%nat then Some 0 else eval_digits first);
      rest ← mapM eval_digits rest;
      Some (fold_left Z.sub rest first)
  | [] => None
  end.
Definition eval (s : jstr) : exn Z :=
  let! l := exn_map (fun x => exn_of_option SyntaxError (eval_difference x)) (split_char 44 s) in
  exn_of_option SyntaxError (last l).

Definition eval_known (s : jstr) : bool :=
  match s with
  | [] => false
  | c :: _ => (c =? 42) || forallb (fun c => is_digit c || (c =? 45) || (c =? 44)) s
  end.

Definition SeatCronData (p : wifi_page) (minute hour day cron_cmd : jstr) : exn wifi_page :=
  let! m := eval minute in
  let! h := eval hour in
  let! d := eval day in
  let! _c := ThisCell p d h in
  if (0 <? m) && (m <? 60) then SetCell p d h (if contains cron_cmd (js "up") then - m else m)
  else if contains cron_cmd (js "up") then SetCell p d h 1000
  else if contains cron_cmd (js "down") then SetCell p d h (-1000)
  else Ret p.

(** The first loop of [FinalizeTables]: the first hour with an event, and the
    state of the radio after the last one. *)
Definition finalize_step (st : wifi_page * option (Z * Z) * Z) (ij : Z * Z) : exn (wifi_page * option (Z * Z) * Z) :=
  let '(p, initial, previous) := st in
  let '(i, j) := ij in
  let! v := ThisCell p i j in
  let '(initial, previous) :=
    match initial with
    | None => if negb (v =? 60) then (Some (i, j), if 0 <? v then 1 else -1) else (initial, previous)
    | Some _ => (initial, previous)
    end in
  if v =? 1000 then let! p := SetCell p i j 60 in Ret (p, initial, 1)
  else if v =? -1000 then let! p := SetCell p i j 0 in Ret (p, initial, -1)
  else if v =? 60 then
    if negb (previous =? 0) && bool_decide (is_Some initial) then
      if 0 <? previous then let! p := SetCell p i j 60 in Ret (p, initial, 1)
      else let! p := SetCell p i j 0 in Ret (p, initial, -1)
    else Ret (p, initial, previous)
  else Ret (p, initial, if 0 <? v then -1 else 1).

(** The hours before the first event have the state at the end of the period. *)
Definition fill_state (initial_state : Z) : option Z :=
  if initial_state =? 60 then Some 60
  else if initial_state =? 0 then Some 0
  else if 0 <? initial_state then Some 0
  else if initial_state <? 0 then Some 60
  else None.

Fixpoint fill_hours (p : wifi_page) (first : Z * Z) (v : option Z) (l : list (Z * Z)) : exn wifi_page :=
  match l with
  | [] => Ret p
  | (k, m) :: l' =>
      if (k =? fst first) && (m =? snd first) then Ret p
      else
        let! p := (match v with Some v => SetCell p k m v | None => Ret p end) in
        fill_hours p first v l'
  end.

Definition FinalizeTables (p : wifi_page) : exn wifi_page :=
  let! st := exn_fold finalize_step (hours (ws_mode p)) (p, None, 0) in
  let '(p, initial, _) := st in
  match initial with
  | None => Ret p
  | Some first =>
      let! initial_state := PreviousCell p 0 0 in
      fill_hours p first (fill_state initial_state) (hours (ws_mode p))
  end.

(** Tables that were emptied before get 24 hours with the radio on. *)
Definition SetupTimeTable (p : wifi_page) (targetTable : nat) : wifi_page :=
  with_tables p (<[targetTable := replicate 24 60]> (ws_tables p)).

Definition ShowTab (p : wifi_page) (n : nat) : wifi_page := with_shown p n.

Definition SetupTabs (p : wifi_page) (timer_style : Z) : wifi_page :=
  ShowTab (fold_left SetupTimeTable (seq 0 (Z.to_nat timer_style)) p) 0.

(** The day of a line, as the number of its table. *)
Definition tab_day (mode : Z) (aCronDay : jstr) : jstr :=
  if mode =? 3 then (if aCronDay =s js "1-5" then js "1" else if aCronDay =s js "6" then js "2" else aCronDay)
  else aCronDay.

(** An hour out of range becomes the number 0, which has no [split]. *)
Definition seat_tab (p : wifi_page) (tab : jstr) : exn wifi_page :=
  let! minute := tab_field tab 0 in
  let! hour := tab_field tab 1 in
  let! day := (if ws_mode p =? 1 then Ret (js "0") else let! d := tab_field tab 4 in Ret (tab_day (ws_mode p) d)) in
  let! cmd := tab_field tab 6 in
  let! h := eval hour in
  let! m := eval minute in
  let minute := if (59 <? m) || (m <? 0) then js "0" else minute in
  if (23 <? h) || (h <? 0) then Raise TypeError
  else exn_fold (fun p d => exn_fold (fun p h => SeatCronData p minute h d cmd) (split_char 44 hour) p) (split_char 44 day) p.

Definition CronTabsToTables (p : wifi_page) : exn wifi_page :=
  let p := SetupTabs p (ws_mode p) in
  let! p := exn_fold seat_tab (ws_found p) p in
  FinalizeTables p.


(** ** Summary and status *)
Section Strings.
Context (Wsch UI : jstr → jstr).

Definition newline : jstr := [10].
Definition br : jstr := js "<br />" ++ newline.
Definition br1 : jstr := js "<br/>" ++ newline.

Definition AddSummaryText (p : wifi_page) (more_text : jstr) : wifi_page := with_summary p (ws_summary p ++ more_text).

Definition InitSummaryText (p : wifi_page) : exn wifi_page :=
  let! d := update (ws_doc p) (js "summary_container") (set_class (js "tabField")) in
  Ret (with_summary (with_doc p d) (js "<strong>" ++ Wsch (js "Smmy") ++ js ":</strong>" ++ br)).

Definition ToggleWifiButtons (p : wifi_page) : exn wifi_page :=
  let set up down :=
    let! d := setElementEnabled (ws_doc p) (js "wifi_up_button") up [] in
    let! d := setElementEnabled d (js "wifi_down_button") down [] in
    Ret (with_doc p d) in
  if ws_wifi p =? 1 then set false true else if ws_wifi p =? -1 then set true false else Ret p.

(** [current_time[i]]; the element that is missing is [undefined]. *)
Definition time_at (p : wifi_page) (i : nat) : exn Z := exn_of_option TypeError (ws_time p !! i).

Definition CronWarning (p : wifi_page) : exn wifi_page :=
  let! day := time_at p 3 in
  let! hour := time_at p 1 in
  let! minute := time_at p 2 in
  let! v := ThisCell p day hour in
  let warn := AddSummaryText (AddSummaryText p (br1 ++ js "<strong>" ++ Wsch (js "Warn") ++ js ":</strong>" ++ br1))
                (Wsch (js "NextEv") ++ br1) in
  let w := ws_wifi p in
  Ret (if ((w =? 1) && (v =? 0)) || ((w =? -1) && (v =? 60)) then warn
       else if (0 <? v) && (v <? 60) && (v <? minute) && (w =? 1) then warn
       else if (v <? 0) && (minute <? Z.abs v) && (w =? 1) then warn
       else p).

Definition mode_text (mode : Z) : jstr :=
  if mode =? 0 then Wsch (js "SumDis") ++ br
  else if mode =? 1 then Wsch (js "SumDly") ++ br
  else if mode =? 3 then Wsch (js "SumSwS") ++ br
  else if mode =? 7 then Wsch (js "SumWky") ++ br
  else [].

Definition day_texts : list (jstr * jstr) :=
  [(js "*", js "STDly"); (js "0", js "STSunday"); (js "1", js "STMonday"); (js "2", js "STTuesday");
   (js "3", js "STWednesday"); (js "4", js "STThursday"); (js "5", js "STFriday"); (js "6", js "STSaturday");
   (js "1-5", js "STMonFri")].
Definition day_text (day : jstr) : jstr :=
  match find (fun x => day =s fst x) day_texts with Some x => Wsch (snd x) | None => [] end.

(** [x < 10 ? "0" + x : x] of a text. *)
Definition two_digits (s : jstr) : jstr := if Num.ltb (toNumber s) (Int 10) then js "0" ++ s else s.

Definition summary_line (tab : jstr) : exn jstr :=
  let! minute := tab_field tab 0 in
  let! hour := tab_field tab 1 in
  let! day := tab_field tab 4 in
  let! cmd := tab_field tab 6 in
  let minuteStr := if Num.ltb (toNumber minute) (Int 10) then js "0" ++ minute
                   else if Num.eqb (toNumber minute) (Int 60) then js "00" else minute in
  Ret (Wsch (js "SumGo") ++ js " " ++ Wsch (if contains cmd (js "up") then js "SumUp" else js "SumDn") ++ js " - "
       ++ day_text day ++ js " " ++ Wsch (js "SumAt") ++ js " " ++ two_digits hour ++ js ":" ++ minuteStr ++ br).

(** [showCronTabs] is false. *)
Definition UpdateSummary (p : wifi_page) : exn wifi_page :=
  let! p := (if 0 <? ws_mode p then scanSettings p else Ret p) in
  let p := AddSummaryText p (Wsch (js "SelTM") ++ js ": ") in
  let p := AddSummaryText p (mode_text (ws_mode p)) in
  let! p := exn_fold (fun p tab => let! l := summary_line tab in Ret (AddSummaryText p l)) (ws_new p) p in
  if 0 <? ws_mode p then CronWarning p else Ret p.

(** The text of the status, by the hour of the saved schedule. *)
Definition status_text (on scheduled : bool) : jstr :=
  (if on then Wsch (js "actv") else UI (js "disabled")) ++ js " (" ++ Wsch (if scheduled then js "schd" else js "nscd") ++ js ")".

Definition SetWifiStatus (p : wifi_page) (iwconfig : list jstr) : exn wifi_page :=
  let wifi := if 0 <? zlen (join (js ",") iwconfig) then 1 else -1 in
  let on := 0 <? wifi in
  if (0 <? zlen (ws_found p)) && (0 <? ws_mode p) then
    let! day := time_at p 3 in
    let! hour := time_at p 1 in
    let! minute := time_at p 2 in
    let! row := exn_of_option TypeError (if day <? 0 then None else ws_clone p !! Z.to_nat day) in
    let! v := exn_of_option TypeError (if hour <? 0 then None else row !! Z.to_nat hour) in
    let scheduled :=
      if (v =? 60) || (v =? 0) then Bool.eqb on (v =? 60)
      else if 0 <? v then Bool.eqb on (minute <? v)
      else negb (Z.abs v <? minute) in
    Ret (with_status p wifi (status_text on scheduled))
  else Ret (with_status p wifi (if on then Wsch (js "actv") else UI (js "disabled"))).

(** ** Times *)

Definition time_day (mode day : Z) : Z :=
  if mode =? 1 then 0
  else if mode =? 3 then (if (0 <? day) && (day <? 6) then 1 else if day =? 6 then 2 else 0)
  else day.

(** [globbed_time] is "day-hour-minute", as [date] writes it. *)
Definition ParseCurrentTime (p : wifi_page) (globbed_time : jstr) : exn wifi_page :=
  let l := split_char 45 globbed_time in
  let! t := exn_map (fun i => let! s := exn_of_option TypeError (l !! i) in eval s) (seq 0 3) in
  Ret (with_time p (t ++ [time_day (ws_mode p) (nth 0 t 0)])).

Definition CloneTable (p : wifi_page) : exn wifi_page :=
  let! l := exn_map (fun i => exn_map (fun j => ThisCell p (Z.of_nat i) (Z.of_nat j)) (seq 0 24))
              (seq 0 (Z.to_nat (ws_mode p))) in
  Ret (with_clone p l).

(** ** Actions of the user *)

(** A click on an hour of the tab that is shown. *)
Definition toggled (increment previous_state v : Z) : Z :=
  if (previous_state =? 60) || ((-60 <? previous_state) && (previous_state <? 0)) then
    if 60 <? v + increment then 0 else v + increment
  else
    let v := if v =? 60 then 0 else v - increment in
    if v <=? -60 then 60 else v.

Definition toggle_cell (p : wifi_page) (hour_cell : Z) : exn wifi_page :=
  if ws_mode p <=? Z.of_nat (ws_shown p) then Raise TypeError
  else
    let day := Z.of_nat (ws_shown p) in
    let! previous_state := PreviousCell p day hour_cell in
    let! v := ThisCell p day hour_cell in
    SetCell p day hour_cell (toggled (ws_increment p) previous_state v).

(** The summary is made anew. *)
Definition show_summary (p : wifi_page) : exn wifi_page := let! p := InitSummaryText p in UpdateSummary p.

Definition ToggleTime (p : wifi_page) (hour_cell : Z) : exn wifi_page :=
  let! p := toggle_cell p hour_cell in show_summary p.

Definition PurgeTables (p : wifi_page) : wifi_page := with_tables p (replicate 7 []).

Definition SetTimerIncrement (p : wifi_page) (timer_option : jstr) : exn wifi_page :=
  let! n := eval timer_option in
  Ret (mkWifi (ws_doc p) (ws_mode p) n (ws_tables p) (ws_shown p) (ws_new p) (ws_stripped p) (ws_found p) (ws_time p)
         (ws_wifi p) (ws_clone p) (ws_summary p) (ws_status p)).

(** The anchors of the tabs are made and removed with the tables. *)
Definition change_mode (p : wifi_page) (mode_option : Z) : exn wifi_page :=
  let p := with_new (with_mode p mode_option) [] in
  let! p := (if mode_option =? 0 then
               let! d := update (ws_doc p) (js "timer_mode") (set_selectedIndex 0) in Ret (with_doc p d)
             else Ret p) in
  let p := PurgeTables p in
  let p := if 0 <? mode_option then SetupTabs p (ws_mode p) else p in
  let! d := update (ws_doc p) (js "div_timer_increment") (set_display (if 0 <? mode_option then js "block" else js "none")) in
  Ret (with_doc p d).

Definition SetTimerMode (p : wifi_page) (mode_option : Z) : exn wifi_page :=
  let! p := change_mode p mode_option in show_summary p.

(** ** Loading *)

(** [search] with a text takes it for a pattern: its dot stands for any
    character. *)
Definition re_garCronWIFI : re := Eval vm_compute in rx "/usr/lib/gargoyle/scheduled_wifi.sh".
Definition wifi_line (line : jstr) : bool :=
  match exec re_garCronWIFI line with Some m => 0 <? zlen (m_pre m) | None => false end.

Definition split_tabs (p : wifi_page) (raw_cron_data : list jstr) : wifi_page :=
  with_tabs p (List.filter (fun l => negb (wifi_line l) && (0 <? zlen l)) raw_cron_data)
    (ws_found p ++ List.filter wifi_line raw_cron_data).

Definition re_1_5 : re := Eval vm_compute in rx "[1-5]".
Definition re_0_6 : re := Eval vm_compute in rx "[0,6]".

(** [s.match(r) >= 0]: no match is [null], which counts as 0; one match is a list
    that counts as its text; several count as no number. *)
Definition match_ge0 (r : re) (s : jstr) : bool :=
  match match_all r s with
  | [] => true
  | l => Num.geb (toNumber (join (js ",") l)) (Int 0)
  end.

Record found_days := mkFound { f_daily : Z; f_511 : Z; f_weekend : Z; f_weekday : Z; f_weekly : Z }.

Definition count_day (f : found_days) (tab : jstr) : exn found_days :=
  let! day := tab_field tab 4 in
  Ret (if day =s js "*" then mkFound (f_daily f + 1) (f_511 f) (f_weekend f) (f_weekday f) (f_weekly f)
       else if day =s js "1-5" then mkFound (f_daily f) (f_511 f + 1) (f_weekend f) (f_weekday f + 1) (f_weekly f)
       else if match_ge0 re_1_5 day then mkFound (f_daily f) (f_511 f) (f_weekend f) (f_weekday f) (f_weekly f + 1)
       else if match_ge0 re_0_6 day then mkFound (f_daily f) (f_511 f) (f_weekend f + 1) (f_weekday f) (f_weekly f)
       else f).

(** The mode and the option of its list; the mode stays when no day is known. *)
Definition mode_of (f : found_days) : option (Z * Z) :=
  let nz x := negb (x =? 0) in
  if nz (f_daily f) && (f_511 f =? 0) && (f_weekend f =? 0) && (f_weekly f =? 0) then Some (1, 1)
  else if nz (f_weekday f) || ((nz (f_weekend f) || nz (f_511 f)) && (f_weekly f =? 0)) then Some (3, 2)
  else if nz (f_weekly f) || nz (f_weekend f) then Some (7, 3)
  else None.

Definition find_mode (p : wifi_page) : exn wifi_page :=
  let! f := exn_fold count_day (ws_found p) (mkFound 0 0 0 0 0) in
  match mode_of f with
  | Some (mode, i) =>
      let! d := update (ws_doc p) (js "timer_mode") (set_selectedIndex i) in Ret (with_mode (with_doc p d) mode)
  | None => Ret p
  end.

(** The lines of the crontab up to the tables they fill. *)
Definition load_tables (p : wifi_page) (raw_cron_data : list jstr) : exn wifi_page :=
  let! p := find_mode (split_tabs p raw_cron_data) in
  if 0 <? ws_mode p then
    let! d := update (ws_doc p) (js "div_timer_increment") (set_display (js "block")) in
    CronTabsToTables (with_doc p d)
  else Ret p.

Definition LoadCrontabs (p : wifi_page) (raw_cron_data : list jstr) (weekly_time : jstr) (wifi_status : list jstr)
    : exn wifi_page :=
  let! p := InitSummaryText p in
  let! p := load_tables p raw_cron_data in
  let! p := CloneTable p in
  let! p := ParseCurrentTime p weekly_time in
  let! p := SetWifiStatus p wifi_status in
  let! p := ToggleWifiButtons p in
  let! p := (if 0 <? ws_mode p then let! day := time_at p 3 in Ret (ShowTab p (Z.to_nat day)) else Ret p) in
  UpdateSummary p.

(** ** Saving *)

(** The commands that are sent, and the page with the schedule that is kept. *)
Definition saveChanges (p : wifi_page) : exn (wifi_page * jstr) :=
  let echo tab := js "echo '" ++ tab ++ js "' >> /tmp/cron.tmp" in
  let commands :=
    [js "mkdir -p /etc/crontabs"; js "touch /etc/crontabs/root";
     js "cat /etc/crontabs/root | grep -v -e '" ++ garCronWIFI ++ js "' > /tmp/cron.backup";
     js "cat /dev/null > /tmp/cron.tmp"]
    ++ map echo (ws_stripped p) ++ map echo (ws_new p)
    ++ [js "mv /tmp/cron.tmp /etc/crontabs/root"; js "/etc/init.d/cron restart"] in
  let! p := CloneTable p in
  Ret (p, join newline commands).

(** The answer to the request for the state of the radio: the time and the lines of
    [iwinfo]. *)
Definition wifi_answer (p : wifi_page) (weekly_time : jstr) (wifi_status : list jstr) : exn wifi_page :=
  let! p := ParseCurrentTime p weekly_time in
  let! p := SetWifiStatus p wifi_status in
  ToggleWifiButtons p.

End Strings.
End WifiSchedule.
