(* ===== verification/WifiFacts.v ===== *)
(** * The crontab of the wireless schedule

    The lines that [scanSettings] makes, run by a cron daemon, keep the radio in
    the state that the tables say; and the lines, loaded again, fill the same
    tables.  The daemon is a parameter with the documented reading of a line. *)
From S2P Require Import Prelude JsNum JsString JsRegex Ip4 Table Dom WifiSchedule WifiEvents.
Import Table Dom Ip4 WifiSchedule WifiEvents.
Open Scope Z_scope.

(** ** Pages and rows *)

(** The modes of the page: every day, three kinds of days, the days of the week. *)
Definition is_mode (mode : Z) : Prop := mode = 1 ∨ mode = 3 ∨ mode = 7.

(** The tables of the mode have 24 hours each, the others are empty. *)
Definition tables_of_mode (p : wifi_page) : Prop :=
  is_mode (ws_mode p) ∧ length (ws_tables p) = 7%nat ∧
  ∀ i t, ws_tables p !! i = Some t → length t = if (i <? Z.to_nat (ws_mode p))%nat then 24%nat else 0%nat.

(** The hours of a page in one row. *)
Definition row (p : wifi_page) : list Z := concat (take (Z.to_nat (ws_mode p)) (ws_tables p)).

Record page_row (p : wifi_page) (cs : list Z) : Prop := {
  pr_tables : tables_of_mode p;
  pr_length : length cs = (24 * Z.to_nat (ws_mode p))%nat;
  pr_cell : ∀ i j, (i < Z.to_nat (ws_mode p))%nat → (j < 24)%nat → (ws_tables p !! i ≫= (fun t => t !! j)) = cs !! (24 * i + j)%nat
}.

(** The day and the hour of a place in the row. *)
Definition day_of (H : nat) : Z := Z.of_nat (H / 24).
Definition hour_of (H : nat) : Z := Z.of_nat (H mod 24).

Lemma hours_row mode : is_mode mode → hours mode = map (fun H => (day_of H, hour_of H)) (seq 0 (24 * Z.to_nat mode)).
Proof. intros [->|[->| ->]]; vm_compute; reflexivity. Qed.

Lemma lookup_concat_24 (ls : list (list Z)) i j : Forall (fun t => length t = 24%nat) ls → (j < 24)%nat →
  concat ls !! (24 * i + j)%nat = ls !! i ≫= (fun t => t !! j).
Proof.
  intros Hl Hj. revert i. induction Hl as [|t ls Ht _ IH]; intros i; [by destruct i|]. cbn [concat].
  destruct i as [|i].
  - rewrite lookup_app_l by lia. done.
  - rewrite lookup_app_r by lia. change ((t :: ls) !! S i) with (ls !! i). rewrite <-IH. f_equal. lia.
Qed.

Lemma row_of_page p : tables_of_mode p → page_row p (row p).
Proof.
  intros Hp. pose proof Hp as (Hm & Hl & Ht).
  assert (HF : Forall (fun t => length t = 24%nat) (take (Z.to_nat (ws_mode p)) (ws_tables p))).
  { apply Forall_lookup. intros i t [Hit Hi]%lookup_take_Some. specialize (Ht _ _ Hit). by destruct (Nat.ltb_spec i (Z.to_nat (ws_mode p))); [|lia]. }
  split; [done| |].
  - unfold row. assert (Hc : length (concat (take (Z.to_nat (ws_mode p)) (ws_tables p))) = (24 * length (take (Z.to_nat (ws_mode p)) (ws_tables p)))%nat).
    { clear -HF. induction HF as [|t ls Ht _ IH]; [done|]. cbn [concat length]. rewrite length_app, Ht, IH. lia. }
    rewrite Hc, length_take, Hl. destruct Hm as [->|[->| ->]]; done.
  - intros i j Hi Hj. unfold row. rewrite lookup_concat_24 by done. by rewrite lookup_take_lt.
Qed.

Section Page.
Context (p : wifi_page) (cs : list Z) (Hp : page_row p cs).

Lemma place_split (H : nat) : H = (24 * (H / 24) + H mod 24)%nat ∧ (H mod 24 < 24)%nat.
Proof. split; [apply Nat.div_mod_eq|apply Nat.mod_upper_bound; lia]. Qed.

Lemma place_day H : (H < length cs)%nat → (H / 24 < Z.to_nat (ws_mode p))%nat.
Proof using Hp. rewrite (pr_length _ _ Hp). intros Hl. apply Nat.Div0.div_lt_upper_bound. lia. Qed.

Lemma this_cell H : (H < length cs)%nat → ThisCell p (day_of H) (hour_of H) = Ret (cell cs H).
Proof using Hp.
  intros Hl. destruct (place_split H) as [HH Hm]. pose proof (place_day H Hl) as Hd.
  pose proof (pr_cell _ _ Hp _ _ Hd Hm) as Hc. rewrite <-HH in Hc.
  unfold ThisCell, day_of, hour_of. replace ((_ <? 0) || (_ <? 0)) with false by lia. rewrite !Nat2Z.id.
  destruct (lookup_lt_is_Some_2 cs H Hl) as [v Hv]. rewrite Hv in Hc.
  destruct (ws_tables p !! (H / 24)%nat) as [t|]; cbn in Hc |- *; [|done]. rewrite Hc. cbn. unfold cell. by erewrite nth_lookup_Some.
Qed.

Lemma previous_cell H : (H < length cs)%nat → PreviousCell p (day_of H) (hour_of H) = Ret (prev cs H).
Proof using Hp.
  intros Hl. destruct (place_split H) as [HH Hm]. pose proof (pr_length _ _ Hp) as Hlen.
  destruct (pr_tables _ _ Hp) as [Hmode _]. assert (Hpos : 0 < ws_mode p) by (destruct Hmode as [->|[->| ->]]; lia).
  unfold PreviousCell, prev. set (K := (if (H =? 0)%nat then length cs - 1 else H - 1)%nat).
  rewrite <-this_cell by (unfold K; destruct (Nat.eqb_spec H 0); lia).
  assert (Hdiv : ∀ a b, (b < 24)%nat → ((24 * a + b) / 24 = a ∧ (24 * a + b) mod 24 = b)%nat).
  { intros a b Hb. split; symmetry; [apply (Nat.div_unique _ 24 a b)|apply (Nat.mod_unique _ 24 a b)]; lia. }
  unfold hour_of, day_of in *. destruct (Z.eqb_spec (Z.of_nat (H mod 24)) 0) as [Hz|Hz].
  - destruct (Z.eqb_spec (Z.of_nat (H / 24)) 0) as [Hd|Hd].
    + assert (HK : K = (24 * (Z.to_nat (ws_mode p) - 1) + 23)%nat) by (unfold K; destruct (Nat.eqb_spec H 0); lia).
      rewrite HK. destruct (Hdiv (Z.to_nat (ws_mode p) - 1)%nat 23%nat) as [-> ->]; [lia|]. f_equal; lia.
    + assert (HK : K = (24 * (H / 24 - 1) + 23)%nat) by (unfold K; destruct (Nat.eqb_spec H 0); lia).
      rewrite HK. destruct (Hdiv (H / 24 - 1)%nat 23%nat) as [-> ->]; [lia|]. f_equal; lia.
  - assert (HK : K = (24 * (H / 24) + (H mod 24 - 1))%nat) by (unfold K; destruct (Nat.eqb_spec H 0); lia).
    rewrite HK. destruct (Hdiv (H / 24)%nat (H mod 24 - 1)%nat) as [-> ->]; [lia|]. f_equal; lia.
Qed.

End Page.

(** Storing a value in a cell. *)
Lemma set_cell p cs H v : page_row p cs → (H < length cs)%nat →
  ∃ t, SetCell p (day_of H) (hour_of H) v = Ret (with_tables p t) ∧ page_row (with_tables p t) (<[H := v]> cs).
Proof.
  intros Hp Hl. destruct (place_split H) as [HH Hm]. pose proof (place_day p cs Hp H Hl) as Hd.
  unfold SetCell. rewrite (this_cell p cs Hp H Hl). unfold day_of, hour_of. rewrite !Nat2Z.id. eexists. split; [reflexivity|].
  destruct (pr_tables _ _ Hp) as (Hmode & Hlen & Ht). split.
  - split_and!; [done|cbn -[Nat.div Nat.modulo Nat.mul Nat.add]; by rewrite length_alter|]. cbn -[Nat.div Nat.modulo Nat.mul Nat.add]. intros i t Hi.
    destruct (decide (i = (H / 24)%nat)) as [->|Hne]; [|rewrite list_lookup_alter_ne in Hi by done; by apply Ht].
    rewrite list_lookup_alter_eq in Hi. apply fmap_Some in Hi as (t' & Ht' & ->). rewrite length_insert. by apply Ht.
  - rewrite length_insert. apply Hp.
  - cbn -[Nat.div Nat.modulo Nat.mul Nat.add]. intros i j Hi Hj. destruct (decide (i = (H / 24)%nat)) as [->|Hne].
    + rewrite list_lookup_alter_eq. pose proof (pr_cell _ _ Hp _ _ Hi Hj) as Hc.
      destruct (lookup_lt_is_Some_2 (ws_tables p) (H / 24)) as [t Ht']; [destruct Hmode as [E|[E|E]]; rewrite E in Hi; lia|].
      rewrite Ht' in Hc |- *. specialize (Ht _ _ Ht'). destruct (Nat.ltb_spec (H / 24) (Z.to_nat (ws_mode p))); [|lia].
      cbn -[Nat.div Nat.modulo Nat.mul Nat.add] in Hc |- *. destruct (decide (j = (H mod 24)%nat)) as [->|Hne].
      * rewrite <-HH, !list_lookup_insert_eq by lia. done.
      * rewrite !list_lookup_insert_ne by lia. done.
    + rewrite list_lookup_alter_ne by done. rewrite list_lookup_insert_ne by lia. by apply (pr_cell _ _ Hp).
Qed.

(** A page is known by its mode and its row. *)
Lemma tables_of_row p q cs : page_row p cs → page_row q cs → ws_mode p = ws_mode q → ws_tables p = ws_tables q.
Proof.
  intros Hp Hq Hm. destruct (pr_tables _ _ Hp) as (Hmode & Hlp & Htp), (pr_tables _ _ Hq) as (_ & Hlq & Htq).
  apply list_eq. intros i. destruct (decide (i < 7)%nat) as [Hi|Hi].
  2:{ by rewrite !lookup_ge_None_2 by lia. }
  destruct (lookup_lt_is_Some_2 (ws_tables p) i) as [t Ht]; [lia|]. destruct (lookup_lt_is_Some_2 (ws_tables q) i) as [u Hu]; [lia|].
  rewrite Ht, Hu. f_equal. specialize (Htp _ _ Ht). specialize (Htq _ _ Hu). rewrite <-Hm in Htq.
  destruct (Nat.ltb_spec i (Z.to_nat (ws_mode p))) as [Hlt|Hlt].
  - apply list_eq. intros j. destruct (decide (j < 24)%nat) as [Hj|Hj].
    + pose proof (pr_cell _ _ Hp i j Hlt Hj) as H1. rewrite Hm in Hlt. pose proof (pr_cell _ _ Hq i j Hlt Hj) as H2.
      rewrite Ht in H1. rewrite Hu in H2. cbn in H1, H2. congruence.
    + by rewrite !lookup_ge_None_2 by lia.
  - destruct t, u; done.
Qed.

(** ** The text of an event *)
Definition day_field (mode : Z) (H : nat) : jstr := default [] (day_string mode (day_of H)).
Definition command (up : bool) : jstr := if up then js "up" else js "down".

Definition event_line (mode : Z) (e : event) : jstr :=
  str_of_Z (ev_min e) ++ js " " ++ str_of_Z (hour_of (ev_hour e)) ++ js " * * " ++ day_field mode (ev_hour e) ++ js " "
  ++ garCronWIFI ++ js " " ++ command (ev_up e).

(** As it is generated, and as it is saved. *)
Definition event_tab (mode : Z) (e : event) : jstr :=
  event_line mode e ++ match ev_mark e with Some n => js " keep" ++ str_of_Z n | None => [] end.
Definition event_saved (mode : Z) (e : event) : jstr :=
  event_line mode e ++ match ev_mark e with Some _ => js " " | None => [] end.

(** The events of a period of 24 hours for each day of the mode. *)
Definition event_ok (mode : Z) (e : event) : Prop :=
  (ev_hour e < 24 * Z.to_nat mode)%nat ∧ 0 <= ev_min e < 60 ∧ (∀ n, ev_mark e = Some n → 0 <= n).

Lemma digits_not c n : 0 <= n → is_digit c = false → c ∉ str_of_Z n.
Proof. intros Hn Hc Hin. destruct (str_of_Z_digits n Hn) as [Hf _]. rewrite Forall_forall in Hf. specialize (Hf _ Hin). congruence. Qed.

Lemma day_field_cases mode H : is_mode mode → (H < 24 * Z.to_nat mode)%nat →
  day_string mode (day_of H) = Some (day_field mode H) ∧
  (day_field mode H = js "*" ∨ day_field mode H = js "1-5" ∨ ∃ d, 0 <= d <= 6 ∧ day_field mode H = str_of_Z d).
Proof.
  intros Hm Hl. assert (Hd : 0 <= day_of H < mode).
  { unfold day_of. split; [lia|]. apply Nat.Div0.div_lt_upper_bound in Hl. lia. }
  unfold day_field, day_string. destruct Hm as [->|[->| ->]]; cbn [Z.eqb Z.compare Pos.compare Pos.compare_cont Pos.eqb]; cbn [default].
  - split; [done|by left].
  - assert (day_of H = 0 ∨ day_of H = 1 ∨ day_of H = 2) as [->|[->| ->]] by lia; (split; [done|]); right; [right|left|right];
      [exists 0|done|exists 6]; (split; [lia|done]).
  - split; [done|]. do 2 right. exists (day_of H). split; [lia|done].
Qed.

(** A character of none of the fields. *)
Lemma day_field_not c mode H : is_mode mode → (H < 24 * Z.to_nat mode)%nat → is_digit c = false → c ≠ 42 → c ≠ 45 → c ∉ day_field mode H.
Proof.
  intros Hm Hl Hc H1 H2. destruct (day_field_cases mode H Hm Hl) as [_ [->|[->|(d & Hd & ->)]]].
  - intros Hin. apply list_elem_of_singleton in Hin. done.
  - intros Hin. repeat (apply elem_of_cons in Hin as [->|Hin]; [done|]). by apply not_elem_of_nil in Hin.
  - apply digits_not; [lia|done].
Qed.

Ltac closed_not := let H := fresh in intros H; vm_compute in H; repeat (apply elem_of_cons in H as [H|H]; [discriminate H|]); by apply not_elem_of_nil in H.

Lemma blank s : js " " ++ s = 32 :: s.
Proof. reflexivity. Qed.
Lemma stars s : js " * * " ++ s = 32 :: js "*" ++ 32 :: js "*" ++ 32 :: s.
Proof. reflexivity. Qed.

Section Line.
Context (mode : Z) (e : event) (Hm : is_mode mode) (He : event_ok mode e).

Lemma hour_nonneg : 0 <= hour_of (ev_hour e) < 24.
Proof. unfold hour_of. destruct (place_split (ev_hour e)). lia. Qed.

(** The fields of a line, whatever follows a blank after it. *)
Lemma line_fields rest :
  split_char 32 (event_line mode e ++ match rest with Some r => 32 :: r | None => [] end) =
  [str_of_Z (ev_min e); str_of_Z (hour_of (ev_hour e)); js "*"; js "*"; day_field mode (ev_hour e); garCronWIFI; command (ev_up e)]
  ++ match rest with Some r => split_char 32 r | None => [] end.
Proof using Hm He.
  destruct He as (Hh & Hmin & _). pose proof hour_nonneg as Hhour. unfold event_line. rewrite <-!app_assoc.
  rewrite !blank, stars. rewrite split_char_app by (apply digits_not; [lia|done]).
  rewrite split_char_app by (apply digits_not; [lia|done]).
  rewrite split_char_app by closed_not. rewrite split_char_app by closed_not.
  rewrite split_char_app by (by apply day_field_not). rewrite split_char_app by closed_not.
  cbn [app]. do 6 f_equal. destruct rest as [r|].
  - rewrite split_char_app; [done|]. destruct (ev_up e); closed_not.
  - rewrite app_nil_r, split_char_none; [done|]. destruct (ev_up e); closed_not.
Qed.

(** No letter k before the mark. *)
Lemma line_no_k : 107 ∉ event_line mode e.
Proof using Hm He.
  destruct He as (Hh & Hmin & _). pose proof hour_nonneg as Hhour. unfold event_line. rewrite !not_elem_of_app.
  split_and!; try closed_not; try (apply digits_not; [lia|done]); [by apply day_field_not|]. destruct (ev_up e); closed_not.
Qed.

Lemma tab_rest : event_tab mode e = event_line mode e ++ match (n ← ev_mark e; Some (js "keep" ++ str_of_Z n)) with Some r => 32 :: r | None => [] end.
Proof. unfold event_tab. by destruct (ev_mark e). Qed.

Lemma saved_rest : event_saved mode e = event_line mode e ++ match (n ← ev_mark e; Some []) with Some r => 32 :: r | None => [] end.
Proof. unfold event_saved. by destruct (ev_mark e). Qed.

Lemma tab_state : tab_field (event_tab mode e) 6 = Ret (command (ev_up e)).
Proof using Hm He. unfold tab_field. rewrite tab_rest, line_fields. done. Qed.

Lemma saved_field i : (i < 7)%nat → tab_field (event_saved mode e) i =
  exn_of_option TypeError ([str_of_Z (ev_min e); str_of_Z (hour_of (ev_hour e)); js "*"; js "*"; day_field mode (ev_hour e); garCronWIFI; command (ev_up e)] !! i).
Proof using Hm He. intros Hi. unfold tab_field. rewrite saved_rest, line_fields. rewrite lookup_app_l by (cbn; lia). done. Qed.

End Line.

(** ** Marks and culling *)
Lemma indexOf_absent c p s i : c ∉ s → indexOf_from i s (c :: p) = -1.
Proof.
  revert i. induction s as [|x s IH]; intros i Hs; [done|]. cbn [indexOf_from is_prefix].
  destruct (Z.eqb_spec c x) as [->|]; [set_solver|]. cbn [andb]. apply IH. set_solver.
Qed.

Lemma indexOf_at c p r s i : c ∉ s → indexOf_from i (s ++ c :: p ++ r) (c :: p) = i + zlen s.
Proof.
  revert i. induction s as [|x s IH]; intros i Hs.
  - cbn [app indexOf_from]. assert (is_prefix (c :: p) (c :: p ++ r) = true) as -> by (apply is_prefix_iff; by exists r). unfold zlen. cbn [length]. lia.
  - cbn [app indexOf_from is_prefix]. destruct (Z.eqb_spec c x) as [->|]; [set_solver|]. cbn [andb].
    rewrite IH by set_solver. unfold zlen. cbn [length]. lia.
Qed.

Lemma keep_text : js "keep" = 107 :: js "eep".
Proof. reflexivity. Qed.

Lemma marked_tab s r : 107 ∉ s → s ≠ [] → has_keep (s ++ js "keep" ++ r) = true ∧ before_keep (s ++ js "keep" ++ r) = s.
Proof.
  intros Hs Hne. unfold has_keep, before_keep, indexOf. rewrite !keep_text. cbn [app].
  rewrite indexOf_at by done. assert (0 < zlen s) by (destruct s; [done|unfold zlen; cbn; lia]).
  replace (0 <? 0 + zlen s) with true by lia. replace (0 + zlen s <? 0) with false by lia. split; [done|].
  rewrite Z.add_0_l. unfold zlen. rewrite Nat2Z.id. apply take_app_length.
Qed.

Lemma plain_tab s : 107 ∉ s → has_keep s = false.
Proof. intros Hs. unfold has_keep, indexOf. rewrite keep_text, indexOf_absent by done. done. Qed.

Lemma contains_command a b : contains (command a) (command b) = Bool.eqb a b.
Proof. by destruct a, b. Qed.

Section Culling.
Context (mode : Z) (Hm : is_mode mode).

(** The loop of [CronTabCull] keeps the events that [cull] keeps; a mark may be gone
    already. *)
Lemma tab_marked e : event_ok mode e → has_keep (event_tab mode e) = bool_decide (is_Some (ev_mark e)) ∧
  (is_Some (ev_mark e) → before_keep (event_tab mode e) = event_saved mode e).
Proof using Hm.
  intros He. pose proof (line_no_k mode e Hm He) as Hk. unfold event_tab, event_saved. destruct (ev_mark e) as [n|].
  - destruct (marked_tab (event_line mode e ++ js " ") (str_of_Z n)) as [H1 H2].
    + rewrite not_elem_of_app. split; [done|closed_not].
    + intros E. by apply app_eq_nil in E as [_ ?].
    + rewrite <-app_assoc in H1, H2. change (js " " ++ js "keep" ++ str_of_Z n) with (js " keep" ++ str_of_Z n) in H1, H2.
      rewrite H1, bool_decide_true by done. done.
  - rewrite app_nil_r. rewrite plain_tab, bool_decide_false by (done || by intros [? ?]). split; [done|]. by intros [? ?].
Qed.

Lemma saved_plain e : event_ok mode e → has_keep (event_saved mode e) = false.
Proof using Hm.
  intros He. apply plain_tab. unfold event_saved. rewrite not_elem_of_app. split; [by apply line_no_k|].
  destruct (ev_mark e); [closed_not|apply not_elem_of_nil].
Qed.

(** The lines that the loop collects, with or without the mark. *)
Definition tab_of (e : event) (t : jstr) : Prop := t = event_tab mode e ∨ t = event_saved mode e.

Lemma cull_fold es s acc : Forall (event_ok mode) es →
  ∃ l, exn_fold cull_step (map (event_tab mode) es) (acc, command s) = Ret (acc ++ l, command (final s es)) ∧
    Forall2 tab_of (cull s es) l.
Proof using Hm.
  intros Hes. revert s acc. induction Hes as [|e es He _ IH]; intros s acc.
  { exists []. rewrite app_nil_r. split; [done|constructor]. }
  cbn [map exn_fold]. unfold cull_step at 1. rewrite (tab_state mode e Hm He). cbn [exn_bind].
  rewrite contains_command. destruct (tab_marked e He) as [Hk Hb]. rewrite Hk.
  destruct (Bool.eqb (ev_up e) s) eqn:E; cbn [negb].
  - apply Bool.eqb_prop in E. destruct (ev_mark e) as [n|] eqn:Emark.
    + rewrite bool_decide_true by done. rewrite Hb by done. cbn [exn_bind].
      destruct (IH (ev_up e) (acc ++ [event_saved mode e])) as (l & Hl & HF). exists (event_saved mode e :: l).
      rewrite (cull_marked _ _ _ n) by done. rewrite <-app_assoc in Hl. split; [exact Hl|]. constructor; [by right|done].
    + rewrite bool_decide_false by (by intros [? ?]). destruct (IH s acc) as (l & Hl & HF). exists l.
      rewrite cull_plain, E, Bool.eqb_reflx by done. cbn [exn_bind]. rewrite Hl. split; [|done]. do 2 f_equal. cbn. by rewrite E.
  - destruct (IH (ev_up e) (acc ++ [event_tab mode e])) as (l & Hl & HF). exists (event_tab mode e :: l).
    replace (cull s (e :: es)) with (e :: cull (ev_up e) es) by (cbn -[is_Some]; by rewrite E).
    rewrite <-app_assoc in Hl. split; [exact Hl|]. constructor; [by left|done].
Qed.

Lemma cull_texts es : Forall (event_ok mode) es → es ≠ [] →
  CronTabCull (map (event_tab mode) es) = Ret (map (event_saved mode) (cull (final false es) es)).
Proof using Hm.
  intros Hes Hne. unfold CronTabCull. rewrite final_last. destruct (last es) as [e|] eqn:El; [|by apply last_None in El].
  assert (Hml : last (map (event_tab mode) es) = Some (event_tab mode e)).
  { apply last_Some in El as [l ->]. rewrite map_app. apply last_snoc. }
  rewrite Hml. cbn [exn_of_option exn_bind]. pose proof Hes as Hes'. rewrite Forall_forall in Hes'.
  rewrite (tab_state mode e Hm) by (by apply Hes', last_Some_elem_of). cbn [exn_bind].
  destruct (cull_fold es (ev_up e) [] Hes) as (l & -> & HF). cbn [exn_bind fst app]. f_equal.
  assert (HC : Forall (event_ok mode) (cull (ev_up e) es)).
  { apply Forall_forall. intros a Ha. apply Hes'. eapply elem_of_sublist; [exact Ha|apply cull_sublist]. }
  induction HF as [|a t as' ts Hat _ IH]; [done|]. inversion_clear HC. cbn [map]. rewrite IH by done. f_equal.
  destruct (tab_marked a) as [Hk Hb]; [done|]. destruct Hat as [-> | ->].
  - rewrite Hk. case_bool_decide as Hmk; [by apply Hb|]. unfold event_tab, event_saved. by destruct (ev_mark a); [destruct Hmk|].
  - by rewrite saved_plain.
Qed.

End Culling.

(** ** The lines of a page *)
Lemma generated_own mode H v : is_mode mode → (H < 24 * Z.to_nat mode)%nat →
  generateCronTabStr mode v (hour_of H) (day_of H) [] = [event_tab mode (own H v)].
Proof.
  intros Hm Hl. unfold generateCronTabStr. destruct (day_field_cases mode H Hm Hl) as [-> _].
  unfold event_tab, own. destruct (v =? 0); [|destruct (v =? 60); [|destruct (0 <? v)]];
    unfold event_line; cbn [ev_min ev_hour ev_up ev_mark command negb]; by rewrite <-!app_assoc.
Qed.

Lemma generated_mark mode H n (up : bool) : is_mode mode → (H < 24 * Z.to_nat mode)%nat →
  generateCronTabStr mode (if up then 60 else 0) (hour_of H) (day_of H) (js " keep" ++ str_of_Z n) = [event_tab mode (mkEvent H 0 up (Some n))].
Proof.
  intros Hm Hl. unfold generateCronTabStr. destruct (day_field_cases mode H Hm Hl) as [-> _].
  unfold event_tab, event_line. cbn [ev_min ev_hour ev_up ev_mark]. rewrite <-!app_assoc. by destruct up.
Qed.

Lemma hour_texts p cs H : page_row p cs → (H < length cs)%nat →
  hour_tabs p (day_of H) (hour_of H) = Ret (map (event_tab (ws_mode p)) (hour_events (ws_mode p) cs H)).
Proof.
  intros Hp Hl. pose proof (proj1 (pr_tables _ _ Hp)) as Hm. pose proof Hl as Hl'. rewrite (pr_length _ _ Hp) in Hl'.
  unfold hour_tabs. rewrite (this_cell p cs Hp H Hl), (previous_cell p cs Hp H Hl). cbn [exn_bind].
  unfold hour_events. rewrite map_app. cbn [map]. rewrite <-(generated_own _ _ _ Hm Hl').
  assert (Hmark : ∀ up n, map (event_tab (ws_mode p)) [mkEvent H 0 up (Some n)] =
    generateCronTabStr (ws_mode p) (if up then 60 else 0) (hour_of H) (day_of H) (js " keep" ++ str_of_Z n))
    by (intros; by rewrite generated_mark).
  unfold mark. set (v := cell cs H). set (pre := prev cs H).
  destruct ((0 <=? pre) && _ && _ && _); [by rewrite Hmark|].
  destruct ((pre <? 0) && _ && _ && _); [by rewrite Hmark|].
  assert (Hplace : (ws_mode p =? 3) && (day_of H =? 1) && (hour_of H =? 0) = (ws_mode p =? 3) && (H =? 24)%nat).
  { rewrite <-andb_assoc. f_equal. unfold day_of, hour_of. destruct (place_split H) as [HH ?].
    destruct (Nat.eqb_spec H 24) as [->|]; [done|]. apply andb_false_iff. rewrite !Z.eqb_neq. lia. }
  rewrite Hplace. destruct ((ws_mode p =? 3) && (H =? 24)%nat) eqn:E; [|done].
  apply andb_prop in E as [E3 E24]. apply Z.eqb_eq in E3. apply Nat.eqb_eq in E24.
  unfold weekday_tabs. change (ThisCell p 1 23) with (ThisCell p (day_of 47) (hour_of 47)).
  rewrite (this_cell p cs Hp 47) by (rewrite (pr_length _ _ Hp), E3; lia). cbn [exn_bind].
  assert (H0 : hour_of H = 0 ∧ day_of H = 1) by (by rewrite E24). destruct H0 as [H0 H1]. rewrite H0, H1 in Hmark |- *.
  set (lst := cell cs 47).
  destruct ((lst =? 60) && (v =? 0)); [destruct ((pre <? 60) && (0 <? pre)); [|destruct (pre =? 0)]|
    destruct ((lst <? 0) && (v =? 0)); [|destruct ((pre =? 60) && (v =? 60) && (lst =? 0))]]; cbn [exn_bind]; by rewrite ?Hmark.
Qed.

Lemma events_ok p cs : page_row p cs → good cs → Forall (event_ok (ws_mode p)) (all_events (ws_mode p) cs).
Proof.
  intros Hp Hg. unfold all_events. apply Forall_concat, Forall_map, Forall_forall. intros H [_ Hl]%elem_of_seq.
  destruct (row_shape (ws_mode p) cs Hg H) as [Hv _]; [lia|]. destruct (own_props H _ Hv) as (Hh & Hmin & _ & Hmk).
  rewrite (pr_length _ _ Hp) in Hl. unfold hour_events. apply Forall_app. split.
  - unfold mark. destruct (_ && _); [|destruct (_ && _); [|destruct (_ && _); [|constructor]]];
      [..|destruct (_ && _); [destruct (_ && _); [|destruct (_ =? _); [|constructor]]|destruct (_ && _); [|destruct (_ && _); [|constructor]]]];
      (constructor; [|constructor]); unfold event_ok; cbn [ev_hour ev_min ev_mark]; (split_and!; [lia..|intros n [= <-]; lia]).
  - constructor; [|constructor]. unfold event_ok. rewrite Hh, Hmk. split_and!; [lia..|done].
Qed.

(** The lines that are saved, event by event. *)
Lemma scan_texts p cs : page_row p cs → good cs →
  scanSettings p = Ret (with_new p (map (event_saved (ws_mode p)) (cull (row_start cs) (all_events (ws_mode p) cs)))).
Proof.
  intros Hp Hg. pose proof (proj1 (pr_tables _ _ Hp)) as Hm. unfold scanSettings. rewrite hours_row, <-(pr_length _ _ Hp) by done.
  assert (Hfold : ∀ k a acc, (a + k <= length cs)%nat →
    exn_fold (fun tabs '(i, j) => let! l := hour_tabs p i j in Ret (tabs ++ l)) (map (fun H => (day_of H, hour_of H)) (seq a k)) acc
    = Ret (acc ++ map (event_tab (ws_mode p)) (concat (map (hour_events (ws_mode p) cs) (seq a k))))).
  { induction k as [|k IH]; intros a acc Hak; [cbn; by rewrite app_nil_r|]. cbn [seq map exn_fold concat].
    rewrite (hour_texts p cs a Hp) by lia. cbn [exn_bind]. rewrite IH by lia. by rewrite map_app, app_assoc. }
  rewrite Hfold by lia. cbn [exn_bind app].
  assert (Hpos : (0 < length cs)%nat) by (rewrite (pr_length _ _ Hp); destruct Hm as [->|[->| ->]]; lia).
  fold (all_events (ws_mode p) cs). rewrite (cull_texts _ Hm).
  - cbn [exn_bind]. by rewrite (row_final (ws_mode p) cs Hg false Hpos).
  - by apply events_ok.
  - unfold all_events. destruct (length cs) as [|n] eqn:E; [lia|]. cbn [seq map concat]. intros Hnil.
    apply app_eq_nil in Hnil as [Hnil _]. by apply app_eq_nil in Hnil as [_ ?].
Qed.

(** ** The daemon that runs the lines *)

(** What a line runs at a day of the week, an hour and a minute: a line
    "minute hour * * day command" runs its command when the minute, the hour and
    the day are those of the fields, a star being every day. *)
Class Cron (runs : jstr → Z → Z → Z → option jstr) := {
  cron_line : ∀ m h (d : option Z) c cmd day hour minute,
    0 <= m < 60 → 0 <= h < 24 → (∀ d', d = Some d' → 0 <= d' <= 6) → c ≠ 32 →
    0 <= day <= 6 → 0 <= hour < 24 → 0 <= minute < 60 →
    runs (str_of_Z m ++ js " " ++ str_of_Z h ++ js " * * " ++ match d with Some d => str_of_Z d | None => js "*" end ++ js " " ++ c :: cmd)
      day hour minute
    = if (m =? minute) && (h =? hour) && match d with Some d => d =? day | None => true end then Some (c :: cmd) else None
}.

(** The last command that was run, at a minute of the week, looking back one week.
    Of two lines at one minute the later one runs last. *)
Definition last_command (runs : jstr → Z → Z → Z → option jstr) (lines : list jstr) (t : Z) : option jstr :=
  latest (fun t => let t := t mod 10080 in last (omap (fun l => runs l (t / 1440) (t / 60 mod 24) (t mod 60)) lines)) (Z.to_nat 10080) t.

(** A call of the script with the state, and perhaps a blank after it. *)
Definition sets_radio (up : bool) (cmd : jstr) : Prop :=
  ∃ rest, cmd = garCronWIFI ++ js " " ++ command up ++ rest ∧ (rest = [] ∨ rest = js " ").

Definition saved_command (e : event) : jstr :=
  garCronWIFI ++ js " " ++ command (ev_up e) ++ match ev_mark e with Some _ => js " " | None => [] end.

Lemma latest_map {A B} (g : A → B) (f : Z → option A) back t : latest (fun t => g <$> f t) back t = g <$> latest f back t.
Proof. revert t. induction back as [|back IH]; intros t; [done|]. cbn. destruct (f t); [done|apply IH]. Qed.

Lemma latest_ext {A} (f g : Z → option A) back t : (∀ t, f t = g t) → latest f back t = latest g back t.
Proof. intros H. revert t. induction back as [|back IH]; intros t; [done|]. cbn. by rewrite H, IH. Qed.

Lemma last_omap {A B C} (P : A → Prop) `{∀ x, Decision (P x)} (g : A → C) (h : A → B) (f : B → option C) (l : list A) :
  (∀ x, x ∈ l → f (h x) = if decide (P x) then Some (g x) else None) → last (omap f (map h l)) = g <$> last (filter P l).
Proof.
  intros Hf. assert (Ho : omap f (map h l) = g <$> filter P l).
  { induction l as [|x l IH]; [done|]. rewrite filter_cons. cbn. rewrite Hf by left. rewrite IH by (intros; apply Hf; by right). by case_decide. }
  rewrite Ho. apply fmap_last.
Qed.

Section Daemon.
Context (runs : jstr → Z → Z → Z → option jstr) `{!Cron runs} (mode : Z) (Hm : mode = 1 ∨ mode = 7).

Lemma day_number H : (H < 24 * Z.to_nat mode)%nat →
  day_field mode H = match (if mode =? 1 then None else Some (day_of H)) with Some d => str_of_Z d | None => js "*" end.
Proof using Hm. intros Hl. unfold day_field, day_string. by destruct Hm as [-> | ->]. Qed.

Lemma runs_event e u : event_ok mode e → 0 <= u < 10080 →
  runs (event_saved mode e) (u / 1440) (u / 60 mod 24) (u mod 60) =
  if decide (ev_time e = u mod (1440 * mode)) then Some (saved_command e) else None.
Proof using All.
  intros (Hh & Hmin & _) Hu. unfold event_saved, event_line. rewrite <-!app_assoc. fold (saved_command e).
  rewrite (day_number _ Hh). pose proof (cron_line (ev_min e) (hour_of (ev_hour e)) (if mode =? 1 then None else Some (day_of (ev_hour e)))
    47 (tail (saved_command e)) (u / 1440) (u / 60 mod 24) (u mod 60)) as Hc.
  change (47 :: tail (saved_command e)) with (saved_command e) in Hc. unfold hour_of, day_of, ev_time in *.
  destruct (place_split (ev_hour e)) as [HH HH2]. rewrite Hc; clear Hc.
  - case_decide as Ht; [rewrite (proj2 (andb_true_iff _ _)); [done|]|rewrite (proj2 (andb_false_iff _ _)); [done|]].
    + rewrite andb_true_iff, !Z.eqb_eq. destruct Hm as [-> | ->]; cbn [Z.eqb Pos.eqb]; rewrite ?Z.eqb_eq; Z.div_mod_to_equations; lia.
    + rewrite andb_false_iff, !Z.eqb_neq. destruct Hm as [-> | ->]; cbn [Z.eqb Pos.eqb]; rewrite ?Z.eqb_neq; Z.div_mod_to_equations; lia.
  - done.
  - lia.
  - intros d' Hd'. destruct Hm as [-> | ->]; [done|]. cbn [Z.eqb Pos.eqb] in Hd'. apply (inj Some) in Hd'. lia.
  - done.
  - Z.div_mod_to_equations; lia.
  - Z.div_mod_to_equations; lia.
  - Z.div_mod_to_equations; lia.
Qed.

Lemma last_command_events es t e : Forall (event_ok mode) es → in_order es →
  latest_event es (t mod (1440 * mode)) = Some e → last_command runs (map (event_saved mode) es) t = Some (saved_command e).
Proof using All.
  intros Hok Ho He. unfold last_command.
  rewrite (latest_ext _ (fun t => saved_command <$> last (filter (fun e => ev_time e = t mod (1440 * mode)) es))).
  - rewrite latest_map, (latest_cycle es (1440 * mode) _ t e Ho); [done|destruct Hm; lia| |done].
    eapply Forall_impl; [exact Hok|]. intros a (Ha & Hmin & _). unfold ev_time. destruct Hm; subst mode; lia.
  - intros u. cbn zeta. apply (last_omap (fun e => ev_time e = u mod (1440 * mode))).
    intros a Ha. cbn. rewrite runs_event; [|by eapply Forall_forall in Hok|apply Z.mod_pos_bound; lia].
    replace ((u mod 10080) mod (1440 * mode)) with (u mod (1440 * mode)); [done|].
    symmetry. apply Z.mod_mod_divide. destruct Hm as [-> | ->]; [by exists 7|by exists 1].
Qed.

End Daemon.

(** C8: The wireless schedule is kept by its crontab.  Take a page in the daily or
    the weekly mode whose hours are as the page makes them and where no hour that
    begins with the radio off follows one that has it on to the end.  Making the
    lines succeeds; either the radio is always on or always off and there is no line,
    or at every minute of the week the last command that the lines have run sets
    the radio to the state that the table says of that day, hour and minute: the
    lines that were culled or marked make no difference. *)
Theorem cron_keeps_schedule (runs : jstr → Z → Z → Z → option jstr) (Hcron : Cron runs) p :
  tables_of_mode p → ws_mode p ≠ 3 → good (row p) →
  ∃ p', scanSettings p = Ret p' ∧
    ((ws_new p' = [] ∧ ∃ up : bool, Forall (fun v => v = if up then 60 else 0) (row p)) ∨
     ∀ day hour minute, 0 <= day <= 6 → 0 <= hour < 24 → 0 <= minute < 60 →
       ∃ v cmd, ThisCell p (if ws_mode p =? 1 then 0 else day) hour = Ret v ∧
         last_command runs (ws_new p') (60 * (24 * day + hour) + minute) = Some cmd ∧ sets_radio (on_at v minute) cmd).
Proof.
  intros Ht H3 Hg. pose proof (row_of_page p Ht) as Hp. set (cs := row p) in *. rewrite (scan_texts p cs Hp Hg).
  destruct (pr_tables _ _ Hp) as (Hmode & _). assert (Hm : ws_mode p = 1 ∨ ws_mode p = 7) by (destruct Hmode as [?|[?|?]]; tauto).
  pose proof (pr_length _ _ Hp) as Hlen. eexists. split; [reflexivity|]. cbn [ws_new with_new].
  destruct (cull _ _) as [|a es'] eqn:E; [left; split; [done|]|right].
  { exists (row_start cs). apply Forall_lookup. intros H v Hv. pose proof (lookup_lt_Some _ _ _ Hv) as Hl.
    rewrite <-(row_constant (ws_mode p) cs Hg ltac:(lia) E H Hl). unfold cell. by erewrite nth_lookup_Some. }
  set (es := a :: es') in *. intros day hour minute Hday Hhour Hminute.
  pose proof (row_order (ws_mode p) cs Hg) as Ho. pose proof (events_ok p cs Hp Hg) as Hok.
  assert (Hes : in_order es ∧ Forall (event_ok (ws_mode p)) es).
  { rewrite <-E. split; [eapply in_order_sublist; [apply cull_sublist|done]|].
    rewrite Forall_forall in Hok |- *. intros x Hx. apply Hok. eapply elem_of_sublist; [exact Hx|apply cull_sublist]. }
  destruct Hes as [Ho' Hok']. set (d := if ws_mode p =? 1 then 0 else day). set (H := Z.to_nat (24 * d + hour)).
  assert (Hd : 0 <= d < ws_mode p) by (unfold d; destruct Hm as [-> | ->]; cbn; lia).
  assert (HH : (H < length cs)%nat) by (rewrite Hlen; unfold H; lia).
  assert (Hdh : day_of H = d ∧ hour_of H = hour).
  { unfold day_of, hour_of, H. rewrite Nat2Z.inj_div, Nat2Z.inj_mod, Z2Nat.id by lia. Z.div_mod_to_equations. lia. }
  pose proof (this_cell p cs Hp H HH) as Hcell. rewrite (proj1 Hdh), (proj2 Hdh) in Hcell.
  destruct (latest_event_state (row_start cs) es (60 * Z.of_nat H + minute) Ho') as (e & He & Hup); [done|].
  exists (cell cs H), (saved_command e). split; [done|]. split.
  - apply (last_command_events runs (ws_mode p) Hm); [done..|]. rewrite <-He. f_equal.
    unfold H. rewrite Z2Nat.id by lia. revert Hd. unfold d. destruct Hm as [-> | ->]; cbn [Z.eqb Pos.eqb]; intros; Z.div_mod_to_equations; lia.
  - eexists. split; [unfold saved_command; rewrite Hup; do 3 f_equal|by destruct (ev_mark e); [right|left]].
    rewrite <-E, final_cull, (row_final (ws_mode p) cs Hg) by lia. rewrite state_at_cull by done. by rewrite row_state.
Qed.

(** A daemon that reads the fields. *)
Definition cron_runs (line : jstr) (day hour minute : Z) : option jstr :=
  match split_char 32 line with
  | m :: h :: _ :: _ :: d :: cmd =>
      if (m =s str_of_Z minute) && (h =s str_of_Z hour) && ((d =s js "*") || (d =s str_of_Z day)) then Some (join (js " ") cmd) else None
  | _ => None
  end.

Lemma numeral_eqb a b : 0 <= a → 0 <= b → (str_of_Z a =s str_of_Z b) = (a =? b).
Proof.
  intros Ha Hb. destruct (Z.eqb_spec a b) as [->|Hne]; [apply str_eqb_refl|]. apply str_eqb_neq. intros E. apply Hne. by apply str_of_Z_inj.
Qed.

#[export] Instance cron_runs_cron : Cron cron_runs.
Proof.
  split. intros m h d c cmd day hour minute Hm Hh Hd Hc Hday Hhour Hminute. unfold cron_runs. rewrite blank, stars, split_char_app by (apply digits_not; [lia|done]).
  rewrite split_char_app by (apply digits_not; [lia|done]). rewrite split_char_app by closed_not. rewrite split_char_app by closed_not.
  assert (Hdf : 32 ∉ match d with Some d => str_of_Z d | None => js "*" end).
  { destruct d as [d|]; [apply digits_not; [by apply Hd|done]|closed_not]. }
  rewrite blank, split_char_app by done. change (join (js " ")) with (join [32]). rewrite join_split_char, !numeral_eqb by lia. destruct d as [d|].
  - specialize (Hd d eq_refl). rewrite numeral_eqb by lia. assert (str_of_Z d =s js "*" = false) as ->; [|done].
    apply str_eqb_neq. intros E. apply (digits_not 42 d); [lia|done|rewrite E; by left].
  - done.
Qed.

(** A decision for [good]. *)
Definition goodb (cs : list Z) : bool :=
  forallb (fun v => (-60 <? v) && (v <=? 60)) cs &&
  forallb (fun H => negb ((cell cs H <? 0) && (prev cs H =? 60))) (seq 0 (length cs)).

Lemma goodb_good cs : goodb cs = true → good cs.
Proof.
  unfold goodb. rewrite andb_true_iff, !forallb_Forall, !Forall_forall. intros [H1 H2]. split.
  - apply Forall_forall. intros v Hv. specialize (H1 v Hv). lia.
  - intros H Hl. specialize (H2 H ltac:(apply elem_of_seq; lia)). lia.
Qed.

(** A daily schedule with changes at the hour and within hours. *)
Definition sample_hours : list Z := replicate 5 60 ++ [30; 0; -20; 60; 60; 15; 10; 0; -30; -10] ++ replicate 9 60.
Definition sample_page : wifi_page :=
  mkWifi (mkDoc {[ js "timer_mode" := mkEl (js "select-one") [] false false false [] 0 [] [] [] None; js "div_timer_increment" := mkEl [] [] false false false [] 0 [] [] [] None ]} [])
    1 15 (sample_hours :: replicate 6 []) 0 [] [] [] [] 0 [] [] [].

Lemma sample_page_tables : tables_of_mode sample_page.
Proof.
  split_and!; [by left|done|]. intros i t Hi. do 7 (destruct i as [|i]; [by inversion Hi|]). done.
Qed.

Lemma cron_keeps_schedule_witness :
  ∃ p', scanSettings sample_page = Ret p' ∧
    ((ws_new p' = [] ∧ ∃ up : bool, Forall (fun v => v = if up then 60 else 0) (row sample_page)) ∨
     ∀ day hour minute, 0 <= day <= 6 → 0 <= hour < 24 → 0 <= minute < 60 →
       ∃ v cmd, ThisCell sample_page 0 hour = Ret v ∧
         last_command cron_runs (ws_new p') (60 * (24 * day + hour) + minute) = Some cmd ∧ sets_radio (on_at v minute) cmd).
Proof. apply (cron_keeps_schedule cron_runs cron_runs_cron sample_page sample_page_tables); [done|apply goodb_good; reflexivity]. Defined.
