(* ===== verification/WifiLoad.v ===== *)
(** * Loading the wireless schedule

    [CronTabsToTables] and [FinalizeTables] fill the tables that the lines of a
    saved schedule came from. *)
From S2P Require Import Prelude JsNum JsString JsRegex Ip4 Table Dom WifiSchedule WifiEvents WifiFacts.
Import Table Dom Ip4 WifiSchedule WifiEvents.
Open Scope Z_scope.

(** ** Fields *)
Lemma eval_numeral n : 0 <= n < 60 → eval (str_of_Z n) = Ret n.
Proof.
  intros Hn. assert (Hall : forallb (fun k => match eval (str_of_Z (Z.of_nat k)) with Ret z => z =? Z.of_nat k | _ => false end) (seq 0 60) = true)
    by (vm_compute; reflexivity).
  rewrite forallb_Forall, Forall_forall in Hall. specialize (Hall (Z.to_nat n) ltac:(apply elem_of_seq; lia)).
  cbn beta in Hall. rewrite Z2Nat.id in Hall by lia. destruct (eval _) as [z|]; [|done]. f_equal. lia.
Qed.

(** The number of the table of a line. *)
Definition table_number (mode : Z) (H : nat) : jstr := if mode =? 1 then js "0" else tab_day mode (day_field mode H).

Lemma table_number_eval mode H : is_mode mode → (H < 24 * Z.to_nat mode)%nat →
  table_number mode H = str_of_Z (day_of H) ∧ 0 <= day_of H < 60.
Proof.
  intros Hm Hl. assert (Hd : 0 <= day_of H < mode).
  { unfold day_of. split; [lia|]. apply Nat.Div0.div_lt_upper_bound in Hl. lia. }
  split; [|destruct Hm as [->|[->| ->]]; lia]. unfold table_number, day_field, day_string, tab_day.
  destruct Hm as [->|[->| ->]]; cbn [Z.eqb Pos.eqb default].
  - by replace (day_of H) with 0 by lia.
  - assert (day_of H = 0 ∨ day_of H = 1 ∨ day_of H = 2) as [->|[->| ->]] by lia; reflexivity.
  - done.
Qed.

(** ** Seating *)

(** The value that an event leaves in its cell. *)
Definition seat_value (e : event) : Z :=
  if 0 <? ev_min e then (if ev_up e then - ev_min e else ev_min e) else if ev_up e then 1000 else -1000.

Lemma split_comma n : 0 <= n → split_char 44 (str_of_Z n) = [str_of_Z n].
Proof. intros Hn. apply split_char_none. by apply digits_not. Qed.

Lemma seat_event p cs e : page_row p cs → event_ok (ws_mode p) e →
  ∃ t, seat_tab p (event_saved (ws_mode p) e) = Ret (with_tables p t) ∧ page_row (with_tables p t) (<[ev_hour e := seat_value e]> cs).
Proof.
  intros Hp He. pose proof (proj1 (pr_tables _ _ Hp)) as Hm. pose proof He as (Hh & Hmin & _).
  destruct (table_number_eval _ _ Hm Hh) as [Hnum Hday]. pose proof (hour_nonneg e) as Hhour.
  assert (Hl : (ev_hour e < length cs)%nat) by (rewrite (pr_length _ _ Hp); lia).
  unfold seat_tab. rewrite !(saved_field _ _ Hm He) by lia. cbn [lookup list_lookup exn_of_option exn_bind].
  assert (Hd : (if ws_mode p =? 1 then Ret (js "0") else Ret (tab_day (ws_mode p) (day_field (ws_mode p) (ev_hour e)))) = Ret (str_of_Z (day_of (ev_hour e)))).
  { rewrite <-Hnum. unfold table_number. by destruct (ws_mode p =? 1). }
  rewrite Hd. cbn [exn_bind]. rewrite !eval_numeral by lia. cbn [exn_bind].
  replace ((59 <? ev_min e) || (ev_min e <? 0)) with false by lia.
  replace ((23 <? hour_of (ev_hour e)) || (hour_of (ev_hour e) <? 0)) with false by lia.
  rewrite !split_comma by lia. cbn [exn_fold]. unfold SeatCronData. rewrite !eval_numeral by lia. cbn [exn_bind].
  rewrite (this_cell p cs Hp _ Hl). cbn [exn_bind]. destruct (set_cell p cs (ev_hour e) (seat_value e) Hp Hl) as (t & Ht & Hr).
  exists t. split; [|done]. unfold seat_value in Ht. replace ((0 <? ev_min e) && (ev_min e <? 60)) with (0 <? ev_min e) by lia.
  assert (Hup : contains (command (ev_up e)) (js "up") = ev_up e) by (by destruct (ev_up e)).
  assert (Hdown : contains (command (ev_up e)) (js "down") = negb (ev_up e)) by (by destruct (ev_up e)).
  rewrite Hup, Hdown. destruct (0 <? ev_min e); [by rewrite Ht|]. by destruct (ev_up e); rewrite Ht.
Qed.

Definition seat (cs : list Z) (es : list event) : list Z := fold_left (fun cs e => <[ev_hour e := seat_value e]> cs) es cs.

Lemma seat_events es p cs : page_row p cs → Forall (event_ok (ws_mode p)) es →
  ∃ t, exn_fold seat_tab (map (event_saved (ws_mode p)) es) p = Ret (with_tables p t) ∧ page_row (with_tables p t) (seat cs es).
Proof.
  intros Hp Hes. revert p cs Hp Hes. induction es as [|e es IH]; intros p cs Hp Hes.
  { exists (ws_tables p). split; [by destruct p|]. by destruct p. }
  inversion_clear Hes as [|?? He Hes']. cbn [map exn_fold]. destruct (seat_event p cs e Hp He) as (t & -> & Hr). cbn [exn_bind].
  destruct (IH (with_tables p t) _ Hr Hes') as (t' & Ht' & Hr'). exists t'. split; [exact Ht'|exact Hr'].
Qed.

(** ** The seated row *)
Section Seated.
Context (mode : Z) (cs : list Z) (Hg : good cs).

Let kept (H : nat) : list event := cull (ends (prev cs H)) (hour_events mode cs H).

Definition seated (H : nat) : Z := match last (kept H) with Some e => seat_value e | None => 60 end.

Lemma kept_hours H : (H < length cs)%nat → Forall (fun e => ev_hour e = H) (kept H).
Proof using Hg.
  intros Hl. destruct (row_shape mode cs Hg H Hl) as [Hv Hs]. pose proof (hour_times _ _ _ _ Hv Hs) as Ht.
  rewrite Forall_forall in Ht |- *. intros e He. apply Ht. eapply elem_of_sublist; [exact He|apply cull_sublist].
Qed.

Lemma seat_hour es l1 x l2 : Forall (fun e => ev_hour e = length l1) es →
  seat (l1 ++ x :: l2) es = l1 ++ match last es with Some e => seat_value e | None => x end :: l2.
Proof.
  revert x. induction es as [|e es IH]; intros x Hes; [done|]. inversion_clear Hes as [|?? He Hes']. cbn [seat fold_left].
  rewrite He. rewrite insert_app_r_alt, Nat.sub_diag by lia. cbn [insert list_insert]. unfold seat in IH. rewrite IH by done.
  rewrite last_cons. by destruct (last es).
Qed.

Lemma seat_row : seat (replicate (length cs) 60) (cull (row_start cs) (all_events mode cs)) = map seated (seq 0 (length cs)).
Proof using Hg.
  rewrite row_cull by done. enough (Hk : ∀ k, (k <= length cs)%nat →
    seat (replicate (length cs) 60) (concat (map kept (seq 0 k))) = map seated (seq 0 k) ++ replicate (length cs - k) 60).
  { etrans; [exact (Hk (length cs) (le_n _))|]. by rewrite Nat.sub_diag, app_nil_r. }
  induction k as [|k IH]; intros Hl; [cbn; by rewrite Nat.sub_0_r|].
  rewrite seq_S, !map_app, concat_app. unfold seat in *. rewrite fold_left_app, IH by lia. cbn [map concat plus]. rewrite app_nil_r.
  replace (length cs - k)%nat with (S (length cs - S k)) by lia. cbn [replicate].
  pose proof (seat_hour (kept k) (map seated (seq 0 k)) 60 (replicate (length cs - S k) 60)) as Hs. unfold seat in Hs. rewrite Hs; [by rewrite <-app_assoc|].
  rewrite length_map, length_seq. apply kept_hours. lia.
Qed.

(** What is seated in an hour: its minutes, or a change at its start, or nothing. *)
Lemma seated_cases H : (H < length cs)%nat →
  (cell cs H ≠ 0 ∧ cell cs H ≠ 60 ∧ seated H = cell cs H) ∨
  ((cell cs H = 0 ∨ cell cs H = 60) ∧
    ((seated H = 60 ∧ kept H = [] ∧ ends (cell cs H) = ends (prev cs H)) ∨ seated H = if ends (cell cs H) then 1000 else -1000)).
Proof using Hg.
  intros Hl. destruct (row_shape mode cs Hg H Hl) as [Hv Hs]. destruct (hour_cull _ _ _ _ Hv Hs) as [H1 H2].
  fold (kept H) in H1, H2. unfold seated. destruct (decide (cell cs H = 0 ∨ cell cs H = 60)) as [Hc|Hc].
  - right. split; [done|]. destruct (H2 Hc) as [[-> He]|(e & -> & _ & Hmin & Hup)]; [by left|right].
    cbn. unfold seat_value. by rewrite Hmin, Hup.
  - left. split_and!; [tauto..|]. destruct (H1 ltac:(tauto) ltac:(tauto)) as (l & -> & _). rewrite last_snoc.
    unfold seat_value, own. destruct (Z.eqb_spec (cell cs H) 0); [tauto|]. destruct (Z.eqb_spec (cell cs H) 60); [tauto|].
    cbn [ev_min ev_up]. destruct (Z.ltb_spec 0 (Z.abs (cell cs H))); [|lia]. destruct (Z.ltb_spec 0 (cell cs H)); cbn; lia.
Qed.

End Seated.

(** ** Finalising *)

Lemma place_inj H K : day_of H = day_of K → hour_of H = hour_of K → H = K.
Proof. unfold day_of, hour_of. destruct (place_split H), (place_split K). lia. Qed.

Lemma place_eqb H K : (day_of H =? day_of K) && (hour_of H =? hour_of K) = (H =? K)%nat.
Proof.
  destruct (Nat.eqb_spec H K) as [->|Hne]; [by rewrite !Z.eqb_refl|]. apply andb_false_iff. rewrite !Z.eqb_neq.
  destruct (decide (day_of H = day_of K)); [|by left]. right. intros E. by apply Hne, place_inj.
Qed.

Lemma cell_lookup r H v : r !! H = Some v → cell r H = v.
Proof. intros Hv. unfold cell. by erewrite nth_lookup_Some. Qed.

Ltac ncases :=
  repeat match goal with
  | |- context [(?a <=? ?b)%nat] => destruct (Nat.leb_spec a b)
  | |- context [(?a <? ?b)%nat] => destruct (Nat.ltb_spec a b)
  end; cbn [andb]; try lia.

Section Finalize.
Context (mode : Z) (cs : list Z) (Hg : good cs).

(** The row on the way: the hours from the first change to [k] are done. *)
Definition on_the_way (f k : nat) (r : list Z) : Prop :=
  ∀ H, (H < length cs)%nat → r !! H = Some (if (f <=? H)%nat && (H <? k)%nat then cell cs H else seated mode cs H).

(** The loop at hour [k]. *)
Definition finalized (p0 : wifi_page) (k : nat) (st : wifi_page * option (Z * Z) * Z) : Prop :=
  let '(p, initial, previous) := st in
  ∃ t r, p = with_tables p0 t ∧ page_row p r ∧ length r = length cs ∧
    ((initial = None ∧ previous = 0 ∧ on_the_way k k r ∧ ∀ H, (H < k)%nat → seated mode cs H = 60) ∨
     (∃ f, initial = Some (day_of f, hour_of f) ∧ (f < k)%nat ∧ on_the_way f k r ∧ seated mode cs f ≠ 60 ∧
       (∀ H, (H < f)%nat → seated mode cs H = 60) ∧ previous = if ends (cell cs (k - 1)) then 1 else -1)).

(** Storing the value of hour [k]. *)
Lemma on_the_way_set f k r : (f <= k)%nat → (k < length cs)%nat → length r = length cs → on_the_way f k r → on_the_way f (S k) (<[k := cell cs k]> r).
Proof.
  intros Hf Hk Hl Hr H HH. destruct (decide (H = k)) as [->|Hne].
  - rewrite list_lookup_insert_eq by lia. by ncases.
  - rewrite list_lookup_insert_ne by done. rewrite (Hr H HH). by ncases.
Qed.

Lemma on_the_way_keep f k r : seated mode cs k = cell cs k → on_the_way f k r → on_the_way f (S k) r.
Proof.
  intros Hs Hr H HH. rewrite (Hr H HH). destruct (decide (H = k)) as [->|Hne]; [by rewrite Hs; destruct (_ && _), (_ && _)|]. by ncases.
Qed.

(** The value of hour [k] becomes the one of the row, once there has been a change. *)
Lemma finalize_after p f k previous r : page_row p r → length r = length cs → (f <= k)%nat → (k < length cs)%nat → on_the_way f k r →
  (seated mode cs k = 60 → previous = if ends (prev cs k) then 1 else -1) →
  ∃ t r', finalize_step (p, Some (day_of f, hour_of f), previous) (day_of k, hour_of k)
      = Ret (with_tables p t, Some (day_of f, hour_of f), if ends (cell cs k) then 1 else -1) ∧
    page_row (with_tables p t) r' ∧ length r' = length cs ∧ on_the_way f (S k) r'.
Proof using Hg.
  intros Hp Hl Hf Hk Hr Hprev. unfold finalize_step. rewrite (this_cell p r Hp k) by lia.
  rewrite (cell_lookup r k (seated mode cs k)) by (rewrite (Hr k Hk); by ncases).
  cbn [exn_bind]. destruct (row_shape mode cs Hg k Hk) as [Hv _].
  destruct (set_cell p r k (cell cs k) Hp ltac:(lia)) as (t & Ht & Hpt).
  assert (Hset : ∀ v b, v = cell cs k → b = (if ends v then 1 else -1) → ∃ t r',
    (let! p0 := SetCell p (day_of k) (hour_of k) v in Ret (p0, Some (day_of f, hour_of f), b))
      = Ret (with_tables p t, Some (day_of f, hour_of f), if ends (cell cs k) then 1 else -1) ∧
    page_row (with_tables p t) r' ∧ length r' = length cs ∧ on_the_way f (S k) r').
  { intros v b -> ->. exists t, (<[k := cell cs k]> r). rewrite Ht. split; [done|]. split; [done|].
    rewrite length_insert. split; [done|]. by apply on_the_way_set. }
  destruct (seated_cases mode cs Hg k Hk) as [(H0 & H60 & Hs)|([Hc|Hc] & [(Hs & _ & He)|Hs])]; rewrite Hs in *.
  - replace (cell cs k =? 1000) with false by lia. replace (cell cs k =? -1000) with false by lia. replace (cell cs k =? 60) with false by lia.
    exists (ws_tables p), r. split; [|split; [by destruct p|split; [done|by apply on_the_way_keep]]].
    replace (with_tables p (ws_tables p)) with p by (by destruct p). do 2 f_equal. unfold ends. zcases; cbn; lia || done.
  - specialize (Hset 0 (-1) (eq_sym Hc) eq_refl). rewrite Hprev, <-He by done. rewrite Hc in Hset |- *. cbn -[SetCell] in Hset |- *. exact Hset.
  - specialize (Hset 0 (-1) (eq_sym Hc) eq_refl). rewrite Hc in Hset |- *. cbn -[SetCell] in Hset |- *. exact Hset.
  - specialize (Hset 60 1 (eq_sym Hc) eq_refl). rewrite Hprev, <-He by done. rewrite Hc in Hset |- *. cbn -[SetCell] in Hset |- *. exact Hset.
  - specialize (Hset 60 1 (eq_sym Hc) eq_refl). rewrite Hc in Hset |- *. cbn -[SetCell] in Hset |- *. exact Hset.
Qed.

Lemma finalize_first p i j v previous : ThisCell p i j = Ret v → v ≠ 60 →
  finalize_step (p, None, previous) (i, j) = finalize_step (p, Some (i, j), if 0 <? v then 1 else -1) (i, j).
Proof. intros Hc Hv. unfold finalize_step. rewrite Hc. cbn [exn_bind]. by replace (v =? 60) with false by lia. Qed.

Lemma finalize_hour p0 k st : finalized p0 k st → (k < length cs)%nat →
  ∃ st', finalize_step st (day_of k, hour_of k) = Ret st' ∧ finalized p0 (S k) st'.
Proof using Hg.
  destruct st as [[p initial] previous]. intros (t & r & -> & Hp & Hl & [(-> & -> & Hr & Hno)|(f & -> & Hf & Hr & Hne & Hno & ->)]) Hk.
  - pose proof (this_cell _ r Hp k ltac:(lia)) as Hc. rewrite (cell_lookup r k (seated mode cs k)) in Hc by (rewrite (Hr k Hk); by ncases).
    destruct (decide (seated mode cs k = 60)) as [H60|H60].
    + unfold finalize_step. rewrite Hc, H60. cbn [exn_bind]. eexists. split; [reflexivity|]. exists t, r. split_and!; [done..|]. left.
      split_and!; [done..| |].
      * intros H HH. rewrite (Hr H HH). by ncases.
      * intros H HH. destruct (decide (H = k)) as [->|]; [done|]. apply Hno. lia.
    + rewrite (finalize_first _ _ _ _ _ Hc H60).
      destruct (finalize_after (with_tables p0 t) k k (if 0 <? seated mode cs k then 1 else -1) r) as (t' & r' & Hs & Hp' & Hl' & Hr'); try done.
      eexists. split; [exact Hs|]. exists t', r'. split_and!; [done..|]. right. exists k. rewrite Nat.sub_succ, Nat.sub_0_r.
      split_and!; [done|lia|done..].
  - destruct (finalize_after (with_tables p0 t) f k (if ends (cell cs (k - 1)) then 1 else -1) r) as (t' & r' & Hs & Hp' & Hl' & Hr'); [done..|lia|done|done| |].
    { intros _. unfold prev. by destruct (Nat.eqb_spec k 0); [lia|]. }
    eexists. split; [exact Hs|]. exists t', r'. split_and!; [done..|]. right. exists f. rewrite Nat.sub_succ, Nat.sub_0_r. split_and!; [done|lia|done..].
Qed.

Lemma finalize_loop p0 m k st : finalized p0 k st → (k + m <= length cs)%nat →
  ∃ st', exn_fold finalize_step (map (fun H => (day_of H, hour_of H)) (seq k m)) st = Ret st' ∧ finalized p0 (k + m) st'.
Proof using Hg.
  revert k st. induction m as [|m IH]; intros k st Hst Hk; [exists st; by rewrite Nat.add_0_r|].
  cbn [seq map exn_fold]. destruct (finalize_hour p0 k st Hst) as (st1 & -> & H1); [lia|]. cbn [exn_bind].
  destruct (IH (S k) st1 H1) as (st2 & H2 & H3); [lia|]. exists st2. rewrite <-Nat.add_succ_comm. done.
Qed.

(** The hours before the first change have the state of the last hour. *)
Lemma before_first f : (f <= length cs)%nat → (∀ H, (H < f)%nat → seated mode cs H = 60) →
  ∀ H, (H < f)%nat → cell cs H = if row_start cs then 60 else 0.
Proof using Hg.
  intros Hf Hno. induction H as [H IH] using lt_wf_ind. intros HH. specialize (Hno H HH) as Hs.
  destruct (seated_cases mode cs Hg H ltac:(lia)) as [(H0 & H60 & Hs')|(Hc & [(_ & _ & He)|Hs'])].
  - congruence.
  - assert (Hst : ends (prev cs H) = row_start cs).
    { unfold prev. destruct (Nat.eqb_spec H 0) as [->|Hne]; [done|]. rewrite (IH (H - 1)%nat) by lia. by destruct (row_start cs). }
    rewrite <-Hst, <-He. by destruct Hc as [-> | ->].
  - rewrite Hs' in Hs. by destruct (ends _).
Qed.

Lemma fill_row p0 v f m a p r : page_row p r → (a <= f < a + m)%nat → (f < length r)%nat → (∃ t, p = with_tables p0 t) →
  ∃ t r', fill_hours p (day_of f, hour_of f) (Some v) (map (fun H => (day_of H, hour_of H)) (seq a m)) = Ret (with_tables p0 t) ∧
    page_row (with_tables p0 t) r' ∧ length r' = length r ∧ ∀ H, r' !! H = if (a <=? H)%nat && (H <? f)%nat then Some v else r !! H.
Proof.
  revert a p r. induction m as [|m IH]; intros a p r Hp Ha Hf [t ->]; [lia|]. cbn [seq map fill_hours fst snd]. rewrite place_eqb.
  destruct (Nat.eqb_spec a f) as [->|Hne].
  - exists t, r. split_and!; [done..|]. intros H. by ncases.
  - destruct (set_cell _ r a v Hp ltac:(lia)) as (t' & -> & Hp'). cbn [exn_bind].
    destruct (IH (S a) _ _ Hp') as (t2 & r2 & H1 & H2 & H3 & H4); [lia|by rewrite length_insert|by exists t'|].
    exists t2, r2. rewrite length_insert in H3. split_and!; [done..|]. intros H. rewrite H4.
    destruct (decide (H = a)) as [->|]; [|rewrite list_lookup_insert_ne by done; by ncases].
    rewrite list_lookup_insert_eq by lia. by ncases.
Qed.

Lemma fill_state_ends v : fill_state v = Some (if ends v then 60 else 0).
Proof. unfold fill_state, ends. zcases; cbn; lia || done. Qed.

(** From the seated row, the tables are those of the row. *)
Lemma finalize_row p : page_row p (map (seated mode cs) (seq 0 (length cs))) → length cs = (24 * Z.to_nat (ws_mode p))%nat →
  (∃ H, (H < length cs)%nat ∧ seated mode cs H ≠ 60) →
  ∃ t, FinalizeTables p = Ret (with_tables p t) ∧ page_row (with_tables p t) cs.
Proof using Hg.
  intros Hp Hlen [K [HK HKs]]. pose proof (proj1 (pr_tables _ _ Hp)) as Hm. unfold FinalizeTables. rewrite hours_row, <-Hlen by done.
  assert (Hpp : p = with_tables p (ws_tables p)) by (by destruct p).
  assert (H0 : finalized p 0 (p, None, 0)).
  { exists (ws_tables p), (map (seated mode cs) (seq 0 (length cs))). rewrite length_map, length_seq. split_and!; [done..|]. left. split_and!; [done|done| |lia].
    intros H HH. ncases. rewrite list_lookup_fmap, lookup_seq_lt by done. done. }
  destruct (finalize_loop p (length cs) 0 _ H0 (le_n _)) as ([[q initial] previous] & -> & t & r & -> & Hq & Hl & Hcase). cbn [exn_bind].
  rewrite Nat.add_0_l in Hcase. destruct Hcase as [(-> & _ & _ & Hno)|(f & -> & Hf & Hr & _ & Hno & _)]; [by destruct HKs; apply Hno|].
  change (PreviousCell (with_tables p t) 0 0) with (PreviousCell (with_tables p t) (day_of 0) (hour_of 0)).
  rewrite (previous_cell _ r Hq 0) by lia. cbn [exn_bind]. rewrite fill_state_ends.
  assert (Hlast : ends (prev r 0) = row_start cs).
  { unfold prev, row_start. cbn [Nat.eqb]. rewrite Hl. f_equal. apply cell_lookup. rewrite Hr by lia. by ncases. }
  rewrite Hlast. change (ws_mode (with_tables p t)) with (ws_mode p). rewrite hours_row, <-Hlen by done.
  destruct (fill_row p (if row_start cs then 60 else 0) f (length cs) 0 _ r Hq) as (t' & r' & -> & Hp' & Hl' & Hr'); [lia..|by exists t|].
  exists t'. split; [done|]. replace cs with r'; [done|]. apply list_eq. intros H. rewrite Hr'. destruct (decide (H < length cs)%nat) as [HH|HH].
  - rewrite (Hr H HH). destruct (lookup_lt_is_Some_2 cs H HH) as [v Hv]. rewrite Hv. rewrite <-(cell_lookup _ _ _ Hv).
    destruct (decide (H < f)%nat) as [Hlt|Hge]; [rewrite <-(before_first f ltac:(lia) Hno H Hlt)|]; by ncases.
  - rewrite !lookup_ge_None_2 by lia. by ncases.
Qed.

End Finalize.

(** ** Whole schedules *)

(** Emptied tables are set up with the radio on. *)
Lemma setup_row p : is_mode (ws_mode p) → ws_tables p = replicate 7 [] →
  ∃ t, SetupTabs p (ws_mode p) = with_shown (with_tables p t) 0 ∧
    page_row (with_shown (with_tables p t) 0) (replicate (24 * Z.to_nat (ws_mode p)) 60).
Proof.
  intros Hm Ht. destruct p as [doc mode inc tbl shown new str fnd time wifi clone sum stat]. cbn in Hm, Ht. subst tbl.
  exists (replicate (Z.to_nat mode) (replicate 24 60) ++ replicate (7 - Z.to_nat mode) []).
  split; [by destruct Hm as [->|[->| ->]]|]. set (q := with_shown _ _).
  assert (Hq : tables_of_mode q).
  { split_and!; [done|by destruct Hm as [->|[->| ->]]|]. intros i t Hi. cbn in Hi.
    destruct Hm as [->|[->| ->]]; do 7 (destruct i as [|i]; [injection Hi as <-; reflexivity|]); discriminate Hi. }
  cbn [ws_mode with_tables with_shown q]. replace (replicate (24 * Z.to_nat mode) 60) with (row q); [by apply row_of_page|].
  by destruct Hm as [->|[->| ->]].
Qed.

Definition saved_lines (p : wifi_page) : list jstr :=
  map (event_saved (ws_mode p)) (cull (row_start (row p)) (all_events (ws_mode p) (row p))).

(** A row with a change has an hour that is seated. *)
Lemma some_seated mode cs : good cs → cull (row_start cs) (all_events mode cs) ≠ [] → ∃ H, (H < length cs)%nat ∧ seated mode cs H ≠ 60.
Proof.
  intros Hg Hne. rewrite row_cull in Hne by done.
  assert (Hex : ∃ H, (H < length cs)%nat ∧ cull (ends (prev cs H)) (hour_events mode cs H) ≠ []).
  { destruct (concat _) as [|e l] eqn:E; [done|]. assert (Hin : e ∈ e :: l) by left. rewrite <-E in Hin.
    apply list_elem_of_In, in_concat in Hin as (x & Hx & Hex). apply in_map_iff in Hx as (H & <- & HH).
    apply list_elem_of_In, elem_of_seq in HH. exists H. split; [lia|]. by intros E'; rewrite E' in Hex. }
  destruct Hex as (H & HH & Hk). exists H. split; [done|].
  destruct (seated_cases mode cs Hg H HH) as [(H0 & H60 & ->)|(_ & [(_ & Hnil & _)| ->])]; [done|done|destruct (ends (cell cs H)); lia].
Qed.

(** The lines of a page fill its tables again. *)
Lemma tables_of_lines p q : tables_of_mode p → good (row p) → saved_lines p ≠ [] →
  ws_mode q = ws_mode p → ws_tables q = replicate 7 [] → ws_found q = saved_lines p →
  ∃ q', CronTabsToTables q = Ret q' ∧ ws_mode q' = ws_mode p ∧ ws_tables q' = ws_tables p ∧ ws_stripped q' = ws_stripped q.
Proof.
  intros Ht Hg Hne Hmode Hempty Hfound. pose proof (row_of_page p Ht) as Hp. set (cs := row p) in *. pose proof (proj1 Ht) as Hm.
  pose proof (pr_length _ _ Hp) as Hlen. unfold CronTabsToTables.
  destruct (setup_row q) as (t & -> & Hq); [by rewrite Hmode|done|]. set (q1 := with_shown (with_tables q t) 0) in *.
  change (ws_found q1) with (ws_found q). rewrite Hfound. unfold saved_lines. replace (event_saved (ws_mode p)) with (event_saved (ws_mode q1)) by (cbn; by rewrite Hmode).
  assert (Hok : Forall (event_ok (ws_mode q1)) (cull (row_start (row p)) (all_events (ws_mode p) (row p)))).
  { change (ws_mode q1) with (ws_mode q). rewrite Hmode. pose proof (events_ok p cs Hp Hg) as Hok. rewrite Forall_forall in Hok |- *.
    intros x Hx. apply Hok. eapply elem_of_sublist; [exact Hx|apply cull_sublist]. }
  destruct (seat_events _ q1 _ Hq Hok) as (t1 & -> & Hr). cbn [exn_bind]. rewrite Hmode, <-Hlen in Hr. fold cs in Hr. rewrite seat_row in Hr by done.
  destruct (finalize_row (ws_mode p) cs Hg (with_tables q1 t1)) as (t2 & -> & Hp2).
  - done.
  - cbn. by rewrite Hmode.
  - apply some_seated; [done|]. intros E. apply Hne. unfold saved_lines. fold cs. by rewrite E.
  - eexists. split; [reflexivity|]. split; [cbn; done|]. split; [by apply (tables_of_row _ p cs)|done].
Qed.

(** ** Recognising the lines *)
Lemma search_path_skip a pre s : 47 ∉ a → search re_garCronWIFI pre (a ++ s) = search re_garCronWIFI (rev a ++ pre) s.
Proof.
  revert pre. induction a as [|x a IH]; intros pre Ha; [done|]. cbn [app rev].
  assert (Hno : exec_at re_garCronWIFI pre (x :: a ++ s) = None).
  { unfold exec_at, re_garCronWIFI. cbn [rmatch]. rewrite in_set_chr_eqb. destruct (Z.eqb_spec x 47) as [->|]; [set_solver|done]. }
  change (search re_garCronWIFI pre (x :: a ++ s)) with
    (match exec_at re_garCronWIFI pre (x :: a ++ s) with
     | Some (_, suf', c) => Some {| m_pre := pre; m_str := take (length (x :: a ++ s) - length suf')%nat (x :: a ++ s); m_post := suf'; m_caps := c |}
     | None => search re_garCronWIFI (x :: pre) (a ++ s) end).
  rewrite Hno, IH by set_solver. by rewrite <-app_assoc.
Qed.

Lemma saved_wifi_line mode e : is_mode mode → event_ok mode e → wifi_line (event_saved mode e) = true.
Proof.
  intros Hm He. pose proof He as (Hh & Hmin & _). pose proof (hour_nonneg e) as Hhour. unfold event_saved, event_line. rewrite <-!app_assoc.
  set (rest := command _ ++ _). set (a := str_of_Z (ev_min e) ++ js " " ++ str_of_Z (hour_of (ev_hour e)) ++ js " * * " ++ day_field mode (ev_hour e) ++ js " ").
  assert (Ha : str_of_Z (ev_min e) ++ js " " ++ str_of_Z (hour_of (ev_hour e)) ++ js " * * " ++ day_field mode (ev_hour e) ++ js " " ++ garCronWIFI ++ js " " ++ rest
    = a ++ garCronWIFI ++ js " " ++ rest) by (unfold a; by rewrite <-!app_assoc).
  rewrite Ha. assert (Hno : 47 ∉ a).
  { unfold a. rewrite !not_elem_of_app. split_and!; try closed_not; try (apply digits_not; [lia|done]). by apply day_field_not. }
  assert (Hne : rev a ≠ []).
  { unfold a. destruct (str_of_Z_digits (ev_min e)) as (_ & Hn & _); [lia|]. intros E. apply (f_equal (@length Z)) in E.
    rewrite length_rev, length_app in E. destruct (str_of_Z (ev_min e)); [done|cbn in E; lia]. }
  unfold wifi_line, exec. rewrite search_path_skip by done. rewrite app_nil_r.
  assert (Hs : ∀ pre r, ∃ m, search re_garCronWIFI pre (garCronWIFI ++ r) = Some m ∧ m_pre m = pre).
  { intros pre r. eexists. split; [cbn; reflexivity|reflexivity]. }
  destruct (Hs (rev a) (js " " ++ rest)) as (m & -> & ->). apply Z.ltb_lt. unfold zlen. destruct (rev a); [done|]. rewrite length_cons. lia.
Qed.

(** The kind of day of a line. *)
Lemma count_weekly d f : 0 <= d <= 6 →
  (if str_of_Z d =s js "*" then mkFound (f_daily f + 1) (f_511 f) (f_weekend f) (f_weekday f) (f_weekly f)
   else if str_of_Z d =s js "1-5" then mkFound (f_daily f) (f_511 f + 1) (f_weekend f) (f_weekday f + 1) (f_weekly f)
   else if match_ge0 re_1_5 (str_of_Z d) then mkFound (f_daily f) (f_511 f) (f_weekend f) (f_weekday f) (f_weekly f + 1)
   else if match_ge0 re_0_6 (str_of_Z d) then mkFound (f_daily f) (f_511 f) (f_weekend f + 1) (f_weekday f) (f_weekly f)
   else f) = mkFound (f_daily f) (f_511 f) (f_weekend f) (f_weekday f) (f_weekly f + 1).
Proof.
  intros Hd. assert (d = 0 ∨ d = 1 ∨ d = 2 ∨ d = 3 ∨ d = 4 ∨ d = 5 ∨ d = 6) as Hc by lia.
  destruct Hc as [->|[->|[->|[->|[->|[->| ->]]]]]]; vm_compute; reflexivity.
Qed.

(** The counts of a list of lines: those of every day, of the weekdays and of a day
    of the week. *)
Definition weekday_lines (mode : Z) (es : list event) : nat :=
  length (List.filter (fun e => day_field mode (ev_hour e) =s js "1-5") es).

Lemma count_lines mode es : is_mode mode → Forall (event_ok mode) es → ∀ f,
  exn_fold count_day (map (event_saved mode) es) f =
  Ret (if mode =? 1 then mkFound (f_daily f + zlen es) (f_511 f) (f_weekend f) (f_weekday f) (f_weekly f)
       else let n := Z.of_nat (weekday_lines mode es) in
         mkFound (f_daily f) (f_511 f + n) (f_weekend f) (f_weekday f + n) (f_weekly f + (zlen es - n))).
Proof.
  intros Hm Hes. induction Hes as [|e es He _ IH]; intros f.
  { cbn. destruct f as [a b c d e]. cbn. unfold zlen. cbn [length]. destruct (mode =? 1); do 2 f_equal; lia. }
  cbn [map exn_fold]. unfold count_day at 1. rewrite (saved_field _ _ Hm He) by lia. cbn [lookup list_lookup exn_of_option exn_bind].
  destruct (day_field_cases mode (ev_hour e) Hm (proj1 He)) as [Hds Hc]. unfold weekday_lines, zlen in *. cbn [List.filter length].
  assert (Hday : mode = 1 → day_field mode (ev_hour e) = js "*") by (by intros ->).
  assert (Hno : mode ≠ 1 → day_field mode (ev_hour e) ≠ js "*").
  { intros H1. assert (0 <= day_of (ev_hour e)) by (unfold day_of; lia). destruct Hm as [?|[-> | ->]]; [done| |]; unfold day_field, day_string.
    - change (3 =? 1) with false. change (3 =? 3) with true. cbn [default].
      destruct (day_of (ev_hour e) =? 0); [|destruct (day_of (ev_hour e) =? 1); [|destruct (day_of (ev_hour e) =? 2)]]; intros E; vm_compute in E; discriminate E.
    - change (7 =? 1) with false. change (7 =? 3) with false. change (7 =? 7) with true.
      change (str_of_Z (day_of (ev_hour e)) ≠ js "*"). intros E. apply (digits_not 42 (day_of (ev_hour e))); [done|done|rewrite E; by left]. }
  destruct (Z.eqb_spec mode 1) as [H1|H1].
  - rewrite (Hday H1), str_eqb_refl, IH. cbn [f_daily f_511 f_weekend f_weekday f_weekly length]. do 2 f_equal. lia.
  - destruct Hc as [Hc|[Hc|(d & Hd & Hc)]]; [by destruct (Hno H1)| |]; rewrite Hc.
    + change (js "1-5" =s js "*") with false. rewrite str_eqb_refl. cbn match. rewrite IH. cbn [f_daily f_511 f_weekend f_weekday f_weekly length].
      do 2 f_equal; lia.
    + rewrite count_weekly by done. rewrite IH. cbn [f_daily f_511 f_weekend f_weekday f_weekly].
      assert (str_of_Z d =s js "1-5" = false) as ->.
      { apply str_eqb_neq. intros E. apply (digits_not 45 d); [lia|done|rewrite E; right; by left]. }
      do 2 f_equal; lia.
Qed.

(** The mode of the lines: the weekdays are known by a line of theirs. *)
Lemma mode_of_lines mode es : is_mode mode → Forall (event_ok mode) es → es ≠ [] → (mode = 3 → weekday_lines mode es ≠ 0%nat) →
  ∃ f i, exn_fold count_day (map (event_saved mode) es) (mkFound 0 0 0 0 0) = Ret f ∧ mode_of f = Some (mode, i).
Proof.
  intros Hm Hes Hne H3. rewrite count_lines by done. assert (Hz : 0 < zlen es) by (destruct es; [done|unfold zlen; rewrite length_cons; lia]).
  cbn [f_daily f_511 f_weekend f_weekday f_weekly]. destruct Hm as [->|[->| ->]]; cbn [Z.eqb Pos.eqb]; eexists; cbn zeta.
  - exists 1. split; [reflexivity|]. unfold mode_of. cbn [f_daily f_511 f_weekend f_weekday f_weekly].
    by replace (0 + zlen es =? 0) with false by lia.
  - exists 2. split; [reflexivity|]. unfold mode_of. cbn [f_daily f_511 f_weekend f_weekday f_weekly]. specialize (H3 eq_refl).
    replace (0 + Z.of_nat (weekday_lines 3 es) =? 0) with false by lia. done.
  - exists 3. split; [reflexivity|]. unfold mode_of. cbn [f_daily f_511 f_weekend f_weekday f_weekly].
    assert (weekday_lines 7 es = 0%nat) as ->.
    { clear -Hes. unfold weekday_lines. induction Hes as [|e es He _ IH]; [done|]. cbn [List.filter].
      assert (day_field 7 (ev_hour e) =s js "1-5" = false) as ->; [|done]. apply str_eqb_neq.
      change (str_of_Z (day_of (ev_hour e)) ≠ js "1-5"). intros E. apply (digits_not 45 (day_of (ev_hour e))); [unfold day_of; lia|done|rewrite E; right; by left]. }
    change (Z.of_nat 0) with 0. rewrite Z.sub_0_r. by replace (0 + zlen es =? 0) with false by lia.
Qed.

(** A page before it is loaded, in a document with the elements that loading sets. *)
Definition fresh_page (q : wifi_page) : Prop :=
  ws_tables q = replicate 7 [] ∧ ws_found q = [] ∧
  is_Some (getElementById (ws_doc q) (js "timer_mode")) ∧ is_Some (getElementById (ws_doc q) (js "div_timer_increment")).

(** C9: A schedule that is saved is loaded again.  Take a page whose hours are as
    the page makes them, where no hour that begins with the radio off follows one
    that has it on to the end.  Making its lines succeeds, and when there is any (and in
    the mode of three tables, one for the weekdays), a fresh page that loads a crontab
    with these lines after others finds the same mode and fills the same tables, and keeps
    the other lines that are not empty as they are. *)
Theorem schedule_roundtrip p : tables_of_mode p → good (row p) →
  ∃ p', scanSettings p = Ret p' ∧
    (ws_new p' ≠ [] → (ws_mode p = 3 → Exists (fun l => tab_field l 4 = Ret (js "1-5")) (ws_new p')) →
     ∀ q others, fresh_page q → Forall (fun l => wifi_line l = false) others →
     ∃ q', load_tables q (others ++ ws_new p') = Ret q' ∧ ws_mode q' = ws_mode p ∧ ws_tables q' = ws_tables p ∧
       ws_stripped q' = List.filter (fun l => 0 <? zlen l) others).
Proof.
  intros Ht Hg. pose proof (row_of_page p Ht) as Hp. pose proof (proj1 Ht) as Hm. rewrite (scan_texts p (row p) Hp Hg). fold (saved_lines p).
  eexists. split; [reflexivity|]. cbn [ws_new with_new]. intros Hne H3 q others (Hq1 & Hq2 & [e1 He1] & [e2 He2]) Hoth.
  set (es := cull (row_start (row p)) (all_events (ws_mode p) (row p))) in *.
  assert (Hok : Forall (event_ok (ws_mode p)) es).
  { pose proof (events_ok p (row p) Hp Hg) as Hok. rewrite Forall_forall in Hok |- *. intros x Hx. apply Hok. eapply elem_of_sublist; [exact Hx|apply cull_sublist]. }
  assert (Hlines : Forall (fun l => wifi_line l = true) (saved_lines p)).
  { unfold saved_lines. fold es. apply Forall_map. eapply Forall_impl; [exact Hok|]. intros e He. by apply saved_wifi_line. }
  assert (Hsplit : split_tabs q (others ++ saved_lines p) = with_tabs q (List.filter (fun l => 0 <? zlen l) others) (saved_lines p)).
  { unfold split_tabs. rewrite !List.filter_app, Hq2, (filter_none wifi_line others), (filter_all wifi_line) by done. f_equal.
    rewrite (filter_none (fun l => negb (wifi_line l) && _) (saved_lines p)), app_nil_r.
    - clear -Hoth. induction Hoth as [|x l Hx _ IH]; [done|]. cbn. by rewrite Hx, IH.
    - eapply Forall_impl; [exact Hlines|]. intros l Hl. cbn. by rewrite Hl. }
  unfold load_tables. rewrite Hsplit. unfold find_mode. change (ws_found (with_tabs q ?a ?b)) with b.
  destruct (mode_of_lines (ws_mode p) es Hm Hok) as (f & i & Hf & Hmo).
  { intros E. apply Hne. unfold saved_lines. fold es. by rewrite E. }
  { intros E3. specialize (H3 E3). apply Exists_exists in H3 as (l & Hl & Hfield). apply list_elem_of_fmap in Hl as (e & -> & He).
    pose proof Hok as Hok'. rewrite Forall_forall in Hok'. specialize (Hok' e He). rewrite (saved_field _ _ Hm Hok') in Hfield by lia.
    cbn [lookup list_lookup exn_of_option] in Hfield. injection Hfield as Hfield. unfold weekday_lines.
    destruct (List.filter _ es) eqn:E; [|done]. assert (Hin : List.In e (List.filter (fun e => day_field (ws_mode p) (ev_hour e) =s js "1-5") es)).
    { apply List.filter_In. split; [by apply list_elem_of_In|]. by apply str_eqb_eq. }
    by rewrite E in Hin. }
  unfold saved_lines at 1. fold es. rewrite Hf. cbn [exn_bind]. rewrite Hmo. unfold update, el. cbn [ws_doc with_tabs]. rewrite He1. cbn [exn_of_option exn_bind].
  cbn [ws_mode with_mode]. replace (0 <? ws_mode p) with true by (destruct Hm as [->|[->| ->]]; done).
  cbn [ws_doc with_doc with_mode]. unfold put, getElementById. cbn [elements].
  rewrite lookup_insert_ne by (intros E; apply (f_equal (@length Z)) in E; vm_compute in E; discriminate E).
  unfold getElementById in He2. rewrite He2. cbn [exn_of_option exn_bind].
  set (q2 := with_doc _ _). destruct (tables_of_lines p q2 Ht Hg Hne) as (q' & Hq' & Hm' & Ht' & Hs'); [done..|].
  exists q'. split_and!; [exact Hq'|done|done|exact Hs'].
Qed.

(** A crontab with another line, and a page before loading. *)
Definition sample_fresh : wifi_page := with_mode (with_tables sample_page (replicate 7 [])) 0.

Lemma schedule_roundtrip_witness : ∃ p' q', scanSettings sample_page = Ret p' ∧
  load_tables sample_fresh ([js "0 4 * * * /sbin/reboot"] ++ ws_new p') = Ret q' ∧ ws_mode q' = 1 ∧ ws_tables q' = ws_tables sample_page.
Proof.
  destruct (schedule_roundtrip sample_page sample_page_tables) as (p' & Hp' & Hr); [apply goodb_good; reflexivity|].
  assert (Hne : ws_new p' ≠ []) by (intros E; revert Hp' E; vm_compute; intros [= <-]; discriminate).
  destruct (Hr Hne ltac:(discriminate) sample_fresh [js "0 4 * * * /sbin/reboot"]) as (q' & Hq' & Hm & Ht & _).
  - split_and!; [done|done|by eexists|by eexists].
  - constructor; [reflexivity|constructor].
  - by exists p', q'.
Defined.

(** An hour that begins with the radio off after one that has it on to the end: no
    line turns the radio off, so that it stays on until [-v] minutes past. *)
Definition sample_on_off : wifi_page := with_tables sample_page ((60 :: -30 :: 60 :: 0 :: replicate 20 60) :: replicate 6 []).

Lemma off_after_on_missing : ∃ p', scanSettings sample_on_off = Ret p' ∧
  ws_new p' = [js "0 3 * * * /usr/lib/gargoyle/scheduled_wifi.sh down"; js "0 4 * * * /usr/lib/gargoyle/scheduled_wifi.sh up"] ∧
  ThisCell sample_on_off 0 1 = Ret (-30) ∧ on_at (-30) 10 = false.
Proof. eexists. split; [vm_compute; reflexivity|]. repeat split; vm_compute; reflexivity. Qed.

(** The day of the week is kept as it was read for the mode before: a change to the
    daily mode on a Wednesday looks for a fourth table. *)
Lemma change_of_mode_throws Wsch : SetTimerMode Wsch
  (with_time (with_doc sample_fresh (put (ws_doc sample_fresh) (js "summary_container") (mkEl [] [] false false false [] 0 [] [] [] None))) [3; 10; 30; 3]) 1
  = Raise TypeError.
Proof. vm_compute. reflexivity. Qed.

(** A list of days is not recognised: the page stays without a mode. *)
Lemma list_of_days_unknown : ∃ q', load_tables sample_fresh [js "0 4 * * 1,2 /usr/lib/gargoyle/scheduled_wifi.sh down"] = Ret q' ∧
  ws_mode q' = 0 ∧ ws_found q' ≠ [].
Proof. eexists. split; [vm_compute; reflexivity|]. split; [reflexivity|discriminate]. Qed.
