(* ===== verification/WifiUse.v ===== *)
(** * Using the wireless schedule

    Whatever crontab of numbers, ranges and lists is loaded and whatever the user does, the tables keep their
    shape and every hour a value that means something. *)
From S2P Require Import Prelude JsNum JsString JsRegex Ip4 Table Dom WifiSchedule.
Import Table Dom Ip4 WifiSchedule.
Open Scope Z_scope.

(** ** Well-formed pages *)

(** The tables of the mode have 24 hours with values of a kind, the others are empty. *)
Definition shape (R : Z → Prop) (mode : Z) (tables : list (list Z)) : Prop :=
  length tables = 7%nat ∧
  ∀ i t, tables !! i = Some t → length t = (if (i <? Z.to_nat mode)%nat then 24%nat else 0%nat) ∧ Forall R t.

(** On, off, off at a minute or on at a minute. *)
Definition hour_value (v : Z) : Prop := -60 < v <= 60.

Definition page_mode (mode : Z) : Prop := mode = 0 ∨ mode = 1 ∨ mode = 3 ∨ mode = 7.

Record well_formed (p : wifi_page) : Prop := {
  wf_mode : page_mode (ws_mode p);
  wf_increment : 0 < ws_increment p <= 60;
  wf_tables : shape hour_value (ws_mode p) (ws_tables p)
}.

(** Operations that leave the tables alone. *)
Definition same_tables (p q : wifi_page) : Prop :=
  ws_mode q = ws_mode p ∧ ws_increment q = ws_increment p ∧ ws_tables q = ws_tables p.

#[export] Instance same_tables_preorder : PreOrder same_tables.
Proof. split; [by intros p|]. intros p q r (H1 & H2 & H3) (H4 & H5 & H6). unfold same_tables. by rewrite H4, H5, H6. Qed.

Lemma well_formed_same p q : same_tables p q → well_formed p → well_formed q.
Proof. intros (Hm & Hi & Ht) [H1 H2 H3]. split; congruence. Qed.

Lemma shape_weaken (R R' : Z → Prop) mode ts : (∀ v, R v → R' v) → shape R mode ts → shape R' mode ts.
Proof. intros HR [Hl Ht]. split; [done|]. intros i t Hi. destruct (Ht i t Hi) as [H1 H2]. split; [done|]. by eapply Forall_impl. Qed.

Lemma shape_empty R : shape R 0 (replicate 7 []).
Proof. split; [done|]. intros i t Hit. apply lookup_replicate in Hit as [-> _]. split; [by destruct i|constructor]. Qed.

Section Cells.
Context (R : Z → Prop).

Lemma this_cell_value p i j v : shape R (ws_mode p) (ws_tables p) → ThisCell p i j = Ret v → R v.
Proof.
  intros [_ Ht]. unfold ThisCell. destruct (_ || _); [done|]. destruct (ws_tables p !! Z.to_nat i) as [t|] eqn:Ei; [|done]. cbn.
  destruct (t !! Z.to_nat j) as [w|] eqn:Ej; [|done]. cbn. intros [= ->]. destruct (Ht _ _ Ei) as [_ HF]. by eapply Forall_lookup_1.
Qed.

Lemma set_cell_shape p p' i j v : shape R (ws_mode p) (ws_tables p) → R v → SetCell p i j v = Ret p' →
  shape R (ws_mode p') (ws_tables p') ∧ ws_mode p' = ws_mode p ∧ ws_increment p' = ws_increment p.
Proof.
  intros [Hl Ht] Hv. unfold SetCell. intros (c & _ & [= <-])%exn_bind_Ret. split; [|done]. cbn. split; [by rewrite length_alter|].
  intros k t Hk. destruct (decide (k = Z.to_nat i)) as [->|Hne]; [|rewrite list_lookup_alter_ne in Hk by done; by apply Ht].
  rewrite list_lookup_alter_eq in Hk. apply fmap_Some in Hk as (t' & Ht' & ->). destruct (Ht _ _ Ht') as [H1 H2].
  rewrite length_insert. split; [done|]. by apply Forall_insert.
Qed.

End Cells.

(** A stored cell has the value, and the other cells keep theirs. *)
Lemma this_cell_set p p' i j v k l : SetCell p i j v = Ret p' →
  ThisCell p' k l = if (k =? i) && (l =? j) then Ret v else ThisCell p k l.
Proof.
  unfold SetCell. intros (c & Hc & [= <-])%exn_bind_Ret. revert Hc. unfold ThisCell. cbn [ws_tables with_tables].
  destruct ((i <? 0) || (j <? 0)) eqn:E; [done|]. apply orb_false_iff in E as [Ei Ej]. intros Hc.
  destruct (ws_tables p !! Z.to_nat i) as [t|] eqn:Et; [|done]. cbn in Hc. destruct (t !! Z.to_nat j) as [w|] eqn:Ew; [|done].
  destruct ((k <? 0) || (l <? 0)) eqn:E'.
  { replace ((k =? i) && (l =? j)) with false; [done|]. apply orb_true_iff in E'. lia. }
  apply orb_false_iff in E' as [Ek El]. destruct (Z.eqb_spec k i) as [->|Hk]; cbn [andb].
  - rewrite list_lookup_alter_eq, Et. cbn. destruct (Z.eqb_spec l j) as [->|Hl].
    + by rewrite list_lookup_insert_eq by (by eapply lookup_lt_Some).
    + by rewrite list_lookup_insert_ne by lia.
  - by rewrite list_lookup_alter_ne by lia.
Qed.

(** ** Loading any crontab *)

(** A value on the way: of an hour, or the mark of a change at its start. *)
Definition seated_value (v : Z) : Prop := hour_value v ∨ v = 1000 ∨ v = -1000.

Definition seated_page (q p : wifi_page) : Prop :=
  (ws_mode p = ws_mode q ∧ ws_increment p = ws_increment q) ∧ shape seated_value (ws_mode p) (ws_tables p).

Lemma seated_set q0 p p' i j v : seated_page q0 p → seated_value v → SetCell p i j v = Ret p' → seated_page q0 p'.
Proof. intros [Hm Hs] Hv H. destruct (set_cell_shape _ _ _ _ _ _ Hs Hv H) as (H1 & H2 & H3). split; [by rewrite H2, H3|done]. Qed.

Lemma seated_data q0 p p' m h d cmd : seated_page q0 p → SeatCronData p m h d cmd = Ret p' → seated_page q0 p'.
Proof.
  intros Hp H. unfold SeatCronData in H. binds H. destruct ((0 <? a) && (a <? 60)) eqn:E3.
  - apply (seated_set _ _ _ _ _ _ Hp) in H; [done|]. left. unfold hour_value. destruct (contains _ _); lia.
  - destruct (contains cmd (js "up")); [|destruct (contains cmd (js "down")); [|by injection H as <-]];
      apply (seated_set _ _ _ _ _ _ Hp) in H; try done; unfold seated_value; tauto.
Qed.

Lemma seated_tab q0 p tab p' : seated_page q0 p → seat_tab p tab = Ret p' → seated_page q0 p'.
Proof.
  intros Hp H. unfold seat_tab in H. binds H. destruct ((23 <? _) || _); [done|].
  revert H. apply (exn_fold_inv (seated_page q0)); [|done]. intros q d q' _ Hq.
  apply (exn_fold_inv (seated_page q0)); [|done]. intros r h r' _ Hr. by apply seated_data.
Qed.

(** The first loop of [FinalizeTables] leaves values of hours behind it. *)
Definition finalized_upto (q0 : wifi_page) (l : list (Z * Z)) (st : wifi_page * option (Z * Z) * Z) : Prop :=
  seated_page q0 st.1.1 ∧ ∀ i j v, (i, j) ∈ l → ThisCell st.1.1 i j = Ret v → hour_value v.

Lemma finalize_value q0 l st i j st' : finalized_upto q0 l st → finalize_step st (i, j) = Ret st' → finalized_upto q0 (l ++ [(i, j)]) st'.
Proof.
  destruct st as [[p initial] previous]. intros [Hp Hl] H. cbn [fst] in Hp, Hl. unfold finalize_step in H. apply exn_bind_Ret in H as (v & Hv & H).
  assert (Hset : ∀ w p1, hour_value w → SetCell p i j w = Ret p1 →
    seated_page q0 p1 ∧ ∀ k m u, (k, m) ∈ l ++ [(i, j)] → ThisCell p1 k m = Ret u → hour_value u).
  { intros w p1 Hw Hs. split; [by apply (seated_set _ _ _ _ _ _ Hp (or_introl Hw) Hs)|]. intros k m u Hin.
    rewrite (this_cell_set _ _ _ _ _ k m Hs). destruct ((k =? i) && (m =? j)) eqn:E; [by intros [= <-]|].
    apply elem_of_app in Hin as [Hin|Hin]; [by apply Hl|]. apply list_elem_of_singleton in Hin. injection Hin as -> ->. by rewrite !Z.eqb_refl in E. }
  assert (Hkeep : hour_value v → seated_page q0 p ∧ ∀ k m u, (k, m) ∈ l ++ [(i, j)] → ThisCell p k m = Ret u → hour_value u).
  { intros Hh. split; [done|]. intros k m u Hin Hu. apply elem_of_app in Hin as [Hin|Hin]; [by eapply Hl|].
    apply list_elem_of_singleton in Hin. injection Hin as -> ->. congruence. }
  pose proof (this_cell_value _ _ _ _ _ (proj2 Hp) Hv) as Hsv.
  destruct (match initial with Some _ => _ | None => _ end) as [initial' previous'].
  unfold finalized_upto. destruct (Z.eqb_spec v 1000); [|destruct (Z.eqb_spec v (-1000)); [|destruct (Z.eqb_spec v 60)]].
  - apply exn_bind_Ret in H as (p1 & Hs & [= <-]). apply (Hset 60); [unfold hour_value; lia|done].
  - apply exn_bind_Ret in H as (p1 & Hs & [= <-]). apply (Hset 0); [unfold hour_value; lia|done].
  - destruct (_ && _); [destruct (0 <? previous')|].
    + apply exn_bind_Ret in H as (p1 & Hs & [= <-]). apply (Hset 60); [unfold hour_value; lia|done].
    + apply exn_bind_Ret in H as (p1 & Hs & [= <-]). apply (Hset 0); [unfold hour_value; lia|done].
    + injection H as <-. apply Hkeep. subst v. unfold hour_value. lia.
  - injection H as <-. apply Hkeep. unfold seated_value, hour_value in *. tauto.
Qed.

Lemma finalize_values q0 m l st st' : finalized_upto q0 l st → exn_fold finalize_step m st = Ret st' → finalized_upto q0 (l ++ m) st'.
Proof.
  revert l st. induction m as [|[i j] m IH]; intros l st Hst; cbn [exn_fold]; [intros [= <-]; by rewrite app_nil_r|].
  intros (st1 & H1 & H2)%exn_bind_Ret. change (l ++ (i, j) :: m) with (l ++ [(i, j)] ++ m). rewrite app_assoc.
  apply (IH _ st1); [|done]. by eapply finalize_value.
Qed.

Lemma hours_all mode i j : (i < Z.to_nat mode)%nat → (j < 24)%nat → (Z.of_nat i, Z.of_nat j) ∈ hours mode.
Proof.
  intros Hi Hj. unfold hours. apply list_elem_of_In, in_concat. exists (map (fun j => (Z.of_nat i, Z.of_nat j)) (seq 0 24)). split.
  - apply (in_map (fun i => map (fun j => (Z.of_nat i, Z.of_nat j)) (seq 0 24))). apply in_seq. lia.
  - apply (in_map (fun j => (Z.of_nat i, Z.of_nat j))). apply in_seq. lia.
Qed.

Lemma finalized_shape q0 st : finalized_upto q0 (hours (ws_mode q0)) st → shape hour_value (ws_mode st.1.1) (ws_tables st.1.1).
Proof.
  intros [[[Hm _] [Hl Ht]] Hv]. split; [done|]. intros i t Hi. destruct (Ht i t Hi) as [Hlen _]. split; [done|].
  apply Forall_lookup. intros j v Hj. pose proof (lookup_lt_Some _ _ _ Hj) as Hjl. rewrite Hlen in Hjl.
  destruct (Nat.ltb_spec i (Z.to_nat (ws_mode st.1.1))) as [Hi'|]; [|lia]. rewrite Hm in Hi'.
  apply (Hv (Z.of_nat i) (Z.of_nat j)); [by apply hours_all|]. unfold ThisCell. replace ((_ <? 0) || (_ <? 0)) with false by lia.
  rewrite !Nat2Z.id, Hi. cbn. by rewrite Hj.
Qed.

(** The page with its tables of hours, in a mode. *)
Definition hours_page (q p : wifi_page) : Prop :=
  (ws_mode p = ws_mode q ∧ ws_increment p = ws_increment q) ∧ shape hour_value (ws_mode p) (ws_tables p).

Lemma fill_page q0 first v l p p' : hours_page q0 p → (∀ w, v = Some w → hour_value w) → fill_hours p first v l = Ret p' → hours_page q0 p'.
Proof.
  intros Hp Hv. revert p Hp. induction l as [|[k m] l IH]; intros p Hp; cbn [fill_hours]; [by intros [= <-]|].
  destruct (_ && _); [by intros [= <-]|]. intros (p1 & H1 & H2)%exn_bind_Ret. revert H2. apply IH. destruct v as [w|]; [|by injection H1 as <-].
  destruct Hp as [Hm Hs]. destruct (set_cell_shape _ _ _ _ _ _ Hs (Hv w eq_refl) H1) as (H2 & H3 & H4). split; [by rewrite H3, H4|done].
Qed.

Lemma fill_state_value v w : fill_state v = Some w → hour_value w.
Proof. unfold fill_state, hour_value. repeat case_match; intros [= <-]; lia. Qed.

Lemma finalize_page p p' : shape seated_value (ws_mode p) (ws_tables p) → FinalizeTables p = Ret p' → hours_page p p'.
Proof.
  intros Hs H. unfold FinalizeTables in H. apply exn_bind_Ret in H as (st & Hst & H).
  assert (H0 : finalized_upto p [] (p, None, 0)) by (split; [done|]; intros ??? []%not_elem_of_nil).
  pose proof (finalize_values p _ _ _ _ H0 Hst) as Hf. cbn [app] in Hf. pose proof (finalized_shape p st Hf) as Hsh.
  destruct Hf as [[Hm _] _]. destruct st as [[q initial] previous]. cbn [fst] in *. destruct initial as [first|]; [|injection H as <-; done].
  apply exn_bind_Ret in H as (v & _ & H). revert H. apply fill_page; [done|]. intros w. apply fill_state_value.
Qed.

Lemma setup_tabs p : page_mode (ws_mode p) → ws_tables p = replicate 7 [] → hours_page p (SetupTabs p (ws_mode p)).
Proof.
  intros Hm Ht. destruct p as [doc mode inc tbl shown new str fnd time wifi clone sum stat]. cbn in Hm, Ht. subst tbl.
  assert (HF : Forall hour_value (replicate 24 60)) by (apply Forall_replicate; unfold hour_value; lia).
  destruct Hm as [->|[->|[->| ->]]]; (split; [done|]); (split; [done|]); intros i t Hi;
    do 7 (destruct i as [|i]; [injection Hi as <-; split; [reflexivity|exact HF || constructor]|]); discriminate Hi.
Qed.

Lemma crontab_page p p' : page_mode (ws_mode p) → ws_tables p = replicate 7 [] → CronTabsToTables p = Ret p' → hours_page p p'.
Proof.
  intros Hm Ht H. unfold CronTabsToTables in H. destruct (setup_tabs p Hm Ht) as [[H1 H2] H3]. set (q := SetupTabs p (ws_mode p)) in *.
  apply exn_bind_Ret in H as (q1 & Hq1 & H).
  assert (Hs : seated_page q q1).
  { revert Hq1. apply (exn_fold_inv (seated_page q)); [intros a tab a' _; apply seated_tab|]. split; [done|]. eapply shape_weaken; [|exact H3]. intros v Hv. by left. }
  destruct Hs as [[H4 H5] H6]. destruct (finalize_page _ _ H6 H) as [[H7 H8] H9]. split; [split; congruence|done].
Qed.

(** ** Actions *)
Section Actions.
Context (Wsch UI : jstr → jstr).

Lemma init_summary_same p p' : InitSummaryText Wsch p = Ret p' → same_tables p p'.
Proof. unfold InitSummaryText. by intros (d & _ & [= <-])%exn_bind_Ret. Qed.

Lemma warning_same p p' : CronWarning Wsch p = Ret p' → same_tables p p'.
Proof. intros H. unfold CronWarning in H. binds H. injection H as <-. by destruct (_ || _); [|destruct (_ && _); [|destruct (_ && _)]]. Qed.

Lemma update_summary_same p p' : UpdateSummary Wsch p = Ret p' → same_tables p p'.
Proof.
  intros H. unfold UpdateSummary in H. apply exn_bind_Ret in H as (p1 & H1 & H). apply exn_bind_Ret in H as (p2 & H2 & H).
  trans p1.
  { destruct (0 <? ws_mode p); [|by injection H1 as <-]. unfold scanSettings in H1. binds H1. by injection H1 as <-. }
  trans p2; [|destruct (0 <? ws_mode p2); [by apply warning_same|by injection H as <-]].
  revert H2. apply (exn_fold_inv (same_tables p1)); [|done]. intros a tab a' _ Ha (l & _ & [= <-])%exn_bind_Ret. etrans; [exact Ha|done].
Qed.

Lemma show_summary_same p p' : show_summary Wsch p = Ret p' → same_tables p p'.
Proof. intros (p1 & H1 & H2)%exn_bind_Ret. trans p1; [by apply init_summary_same|by apply update_summary_same]. Qed.

Lemma buttons_same p p' : ToggleWifiButtons p = Ret p' → same_tables p p'.
Proof.
  unfold ToggleWifiButtons. destruct (_ =? 1); [|destruct (_ =? -1); [|by intros [= <-]]]; intros H; binds H; by injection H as <-.
Qed.

Lemma clone_same p p' : CloneTable p = Ret p' → same_tables p p'.
Proof. unfold CloneTable. by intros (l & _ & [= <-])%exn_bind_Ret. Qed.

Lemma time_same p p' s : ParseCurrentTime p s = Ret p' → same_tables p p'.
Proof. unfold ParseCurrentTime. by intros (l & _ & [= <-])%exn_bind_Ret. Qed.

Lemma status_same p p' s : SetWifiStatus Wsch UI p s = Ret p' → same_tables p p'.
Proof. unfold SetWifiStatus. destruct (_ && _); [|by intros [= <-]]. intros H. binds H. by injection H as <-. Qed.

Lemma answer_same p p' time status : wifi_answer Wsch UI p time status = Ret p' → same_tables p p'.
Proof.
  intros H. unfold wifi_answer in H. binds H. trans a; [by eapply time_same|]. trans a0; [by eapply status_same|by apply buttons_same].
Qed.

(** The texts of the crontab and of the clock on which [eval] is represented: the minute,
    the hour and the day of a line that belongs to the schedule, and what [date] writes. *)
Definition known_line (line : jstr) : bool :=
  forallb (λ i, match tab_field line i with Ret s => eval_known s | Raise _ => true end) [0%nat; 1%nat; 4%nat].
Definition known_crontab (raw : list jstr) : bool := forallb (λ l, negb (wifi_line l) || known_line l) raw.
Definition date_text (time : jstr) : bool := forallb (λ c, is_digit c || (c =? 45)) time.

(** The choices that the page offers. *)
Inductive action := ChangeMode (mode : Z) | ChangeIncrement (text : jstr) | Click (hour : Z) | ClickTab (n : nat) | Save | Answer (time : jstr) (status : list jstr).

Definition offered (a : action) : Prop :=
  match a with
  | ChangeMode m => page_mode m
  | ChangeIncrement s => s ∈ [js "5"; js "10"; js "15"; js "30"; js "60"]
  | Click h => 0 <= h < 24
  | ClickTab n => (n < 7)%nat
  | Save => True
  | Answer time _ => date_text time = true
  end.

(** What an action does before the summary is shown. *)
Definition act (p : wifi_page) (a : action) : exn wifi_page :=
  match a with
  | ChangeMode m => change_mode p m
  | ChangeIncrement s => SetTimerIncrement p s
  | Click h => toggle_cell p h
  | ClickTab n => Ret (ShowTab p n)
  | Save => let! r := saveChanges p in Ret (fst r)
  | Answer time status => wifi_answer Wsch UI p time status
  end.

Definition with_a_summary (a : action) : bool := match a with ChangeMode _ | Click _ => true | _ => false end.

(** The pages that can be reached.  When the summary throws, what was done before it
    stays. *)
Inductive reachable (raw : list jstr) : wifi_page → Prop :=
| Loaded q p time status : ws_mode q = 0 → ws_increment q = 15 → ws_tables q = replicate 7 [] →
    known_crontab raw = true → date_text time = true → LoadCrontabs Wsch UI q raw time status = Ret p → reachable raw p
| Acted p a p' : reachable raw p → offered a → act p a = Ret p' → reachable raw p'
| Shown p a p' p'' : reachable raw p → offered a → act p a = Ret p' → with_a_summary a = true →
    show_summary Wsch p' = Ret p'' → reachable raw p''.

Lemma toggled_value n pre v : 0 < n <= 60 → hour_value v → hour_value (toggled n pre v).
Proof.
  unfold toggled, hour_value. intros. destruct (_ || _); [destruct (Z.ltb_spec 60 (v + n)); lia|].
  destruct (Z.eqb_spec v 60); cbn zeta; [cbn; lia|]. destruct (Z.leb_spec (v - n) (-60)); lia.
Qed.

Lemma load_well_formed q raw time status p : ws_mode q = 0 → ws_increment q = 15 → ws_tables q = replicate 7 [] →
  LoadCrontabs Wsch UI q raw time status = Ret p → well_formed p.
Proof.
  intros Hm Hi Ht H. unfold LoadCrontabs in H. apply exn_bind_Ret in H as (q1 & H1 & H). apply exn_bind_Ret in H as (q2 & H2 & H).
  assert (Hq2 : well_formed q2).
  { apply init_summary_same in H1 as (Em & Ei & Et). unfold load_tables in H2. apply exn_bind_Ret in H2 as (q3 & H3 & H2).
    assert (H3' : page_mode (ws_mode q3) ∧ ws_increment q3 = 15 ∧ ws_tables q3 = replicate 7 []).
    { unfold find_mode in H3. apply exn_bind_Ret in H3 as (f & _ & H3). destruct (mode_of f) as [[m i]|] eqn:E.
      - apply exn_bind_Ret in H3 as (d & _ & [= <-]). cbn [ws_mode ws_increment ws_tables with_mode with_doc with_tabs split_tabs].
        split; [|by rewrite Ei, Et]. revert E. unfold mode_of, page_mode. repeat case_match; intros [= <- _]; lia.
      - injection H3 as <-. cbn [ws_mode ws_increment ws_tables with_tabs split_tabs]. rewrite Em, Ei, Et. by split; [left|]. }
    destruct H3' as (Hpm & Hin & Htb). destruct (Z.ltb_spec 0 (ws_mode q3)).
    - apply exn_bind_Ret in H2 as (d & _ & H2). destruct (crontab_page (with_doc q3 d) _ Hpm Htb H2) as [[H4 H5] H6]. cbn in H4, H5. split; [by rewrite H4|rewrite H5; lia|done].
    - injection H2 as <-. split; [done|lia|]. assert (ws_mode q3 = 0) as -> by (unfold page_mode in Hpm; lia). rewrite Htb. apply shape_empty. }
  binds H. eapply well_formed_same; [|exact Hq2]. trans a; [by apply clone_same|]. trans a0; [by eapply time_same|].
  trans a1; [by eapply status_same|]. trans a2; [by apply buttons_same|]. trans a3; [|by apply update_summary_same].
  destruct (0 <? ws_mode a2); [binds E3|]; by injection E3 as <-.
Qed.

Lemma act_well_formed p a p' : well_formed p → offered a → act p a = Ret p' → well_formed p'.
Proof.
  intros Hp Ha H. destruct a as [m|s|h|n| |time status]; cbn [act offered] in *.
  - unfold change_mode in H. apply exn_bind_Ret in H as (p1 & H1 & H). apply exn_bind_Ret in H as (d & _ & [= <-]).
    assert (E1 : ws_mode p1 = m ∧ ws_increment p1 = ws_increment p).
    { destruct (m =? 0); [apply exn_bind_Ret in H1 as (d' & _ & [= <-])|injection H1 as <-]; done. }
    destruct E1 as [E1 E2]. pose proof (wf_increment _ Hp). destruct (Z.ltb_spec 0 m).
    + destruct (setup_tabs (PurgeTables p1)) as [[H4 H5] H6]; [by rewrite <-E1 in Ha|done|]. cbn [ws_mode ws_increment PurgeTables with_tables] in H4, H5.
      split; cbn [ws_mode ws_increment ws_tables with_doc]; [by rewrite H4, E1|rewrite H5; lia|exact H6].
    + assert (m = 0) as -> by (unfold page_mode in Ha; lia). split; cbn; [by left|lia|]. rewrite E1. apply shape_empty.
  - unfold SetTimerIncrement in H. apply exn_bind_Ret in H as (n & Hn & [= <-]). destruct Hp as [H1 H2 H3]. split; cbn; [done| |done].
    repeat (apply elem_of_cons in Ha as [->|Ha]; [vm_compute in Hn; injection Hn as <-; lia|]). by apply not_elem_of_nil in Ha.
  - unfold toggle_cell in H. destruct (_ <=? _); [done|]. binds H. destruct Hp as [H1 H2 H3].
    assert (Hv : hour_value (toggled (ws_increment p) a a0)) by (apply toggled_value; [done|by eapply this_cell_value]).
    destruct (set_cell_shape _ _ _ _ _ _ H3 Hv H) as (H4 & H5 & H6). split; [by rewrite H5|by rewrite H6|done].
  - injection H as <-. by destruct Hp.
  - apply exn_bind_Ret in H as ([q c] & H & [= <-]). unfold saveChanges in H. apply exn_bind_Ret in H as (p1 & H1 & [= <- _]).
    eapply well_formed_same; [by apply clone_same|done].
  - eapply well_formed_same; [by eapply answer_same|done].
Qed.

(** C21: Whatever crontab the page of the wireless schedule loads, of lines whose minutes,
    hours and days are numbers, ranges, lists or start with a star (a step such as 0-30/5, which
    would be evaluated as a division, and names are left out), and whatever the user then
    chooses, clicks or saves and the router answers: when loading ends, the page is well-formed,
    and it stays so.  Its mode is one of the four that it offers, the tables of the mode have 24
    hours each and the others none, and every hour is on, off, or changes at a minute between 1
    and 59; the marks that loading puts in a cell for a change at its start never stay. *)
Theorem reachable_well_formed raw p : reachable raw p → well_formed p.
Proof.
  induction 1 as [q p time status Hm Hi Ht _ _ H|p a p' _ IH Ha H|p a p' p'' _ IH Ha H _ Hs].
  - by eapply load_well_formed.
  - by eapply act_well_formed.
  - eapply well_formed_same; [by apply show_summary_same|]. by eapply act_well_formed.
Qed.

End Actions.

(** A daily schedule that is loaded on a Wednesday morning, and then a click. *)
Definition sample_blank : element := mkEl [] [] false false false [] 0 [] [] [] None.
Definition sample_start : wifi_page :=
  mkWifi (mkDoc (list_to_map (map (fun id => (id, sample_blank))
    [js "summary_container"; js "timer_mode"; js "div_timer_increment"; js "wifi_up_button"; js "wifi_down_button"])) [])
    0 15 (replicate 7 []) 0 [] [] [] [] 0 [] [] [].
Definition sample_lines : list jstr :=
  [js "0 7 * * * /usr/lib/gargoyle/scheduled_wifi.sh up"; js "30 22 * * * /usr/lib/gargoyle/scheduled_wifi.sh down"].
Definition sample_loaded : wifi_page :=
  match LoadCrontabs id id sample_start sample_lines (js "3-10-30") [js "wlan0"] with Ret p => p | Raise _ => sample_start end.
Definition sample_used : wifi_page := match act id id sample_loaded (Click 8) with Ret p => p | Raise _ => sample_start end.

Lemma reachable_well_formed_witness : ThisCell sample_used 0 8 = Ret 0 ∧ well_formed sample_used.
Proof.
  split; [vm_compute; reflexivity|]. apply (reachable_well_formed id id sample_lines).
  apply (Acted _ _ _ sample_loaded (Click 8)); [|cbn; lia|vm_compute; reflexivity].
  apply (Loaded _ _ _ sample_start _ (js "3-10-30") [js "wlan0"]); vm_compute; reflexivity.
Defined.
