(* ===== verification/Plugins.v ===== *)
(** * The plugins page (plugins.js)

    The versions of the packages, the list of packages with their buttons, the
    sources of packages and the move of the directory of the plugins.  The strings
    of the language pack are parameters; of an element that shows a package, its
    lines of text are represented. *)
From S2P Require Import Prelude JsNum JsString JsRegex Uci Table Dom Text.
Import Uci Table Dom Text.
Open Scope Z_scope.

(** One version of a package, as the router describes it. *)
Record pkg_data := mkPkg {
  pd_description : option jstr;
  pd_destination : jstr;          (** [Install-Destination] *)
  pd_depends : list jstr;         (** the keys of [Required-Depends] *)
  pd_will_fit : jstr;
  pd_required_size : num
}.

(** A drive: name, path, format, size and free space in bytes. *)
Record drive := mkDrive { dr_name : jstr; dr_path : jstr; dr_format : jstr; dr_total : num; dr_free : num }.

(** The button of a package. *)
Inductive pkg_button := Uninstall (enabled : bool) | Install (enabled : bool).

Record pkg_row := mkPkgRow { pr_name : jstr; pr_lines : list jstr; pr_checked : bool; pr_button : pkg_button }.

Module Plugins.

Definition notInstalledVal : jstr := js "Not Installed".
Definition newline : jstr := [10].

(** ** Versions *)
Definition re_separators : re := Eval vm_compute in rx "[ \t.\-_\(\)\{\}\[\]\+=;\?,|\/\\\*\&@#\!\$\%\<\>]+".

(** Two parts that differ: by number when both begin with one, else as texts.  The
    numbers are exact, as those of the source are below 2^53. *)
Definition cmp_part (a b : jstr) : Z :=
  if negb (Num.isNaN (parseInt a)) && negb (Num.isNaN (parseInt b))
  then if Num.gtb (parseInt a) (parseInt b) then 1 else -1
  else if negb (str_leb a b) then 1 else -1.

(** The loop: the first parts that differ decide. *)
Fixpoint cmp_parts (split1 split2 : list jstr) : option Z :=
  match split1, split2 with
  | a :: l1, b :: l2 => if negb (a =s b) then Some (cmp_part a b) else cmp_parts l1 l2
  | _, _ => None
  end.

(** [split1 == split2] compares two new arrays, which are never equal. *)
Definition cmpPkgVersions (v1 v2 : jstr) : Z :=
  let split1 := split_re re_separators v1 in
  let split2 := split_re re_separators v2 in
  match cmp_parts split1 split2 with
  | Some ret => ret
  | None => if zlen split2 <? zlen split1 then 1 else -1
  end.

(** The versions of a package in the order of the object. *)
Definition is_installed (d : pkg_data) : bool := negb (pd_destination d =s notInstalledVal).

Definition version_step (st : option jstr * bool) (v : jstr * pkg_data) : option jstr * bool :=
  let '(foundVer, isCurrent) := st in
  let '(version, versionData) := v in
  let nextIsCurrent := is_installed versionData in
  if match foundVer with
     | None => true
     | Some found => nextIsCurrent || (negb isCurrent && (0 <? cmpPkgVersions version found))
     end
  then (Some version, nextIsCurrent) else st.

Definition getCurrentOrLatestVersion (pkgVersions : list (jstr * pkg_data)) : option jstr :=
  fst (fold_left version_step pkgVersions (None, false)).

(** ** The list of packages *)
Section Strings.
Context (pgS UI : jstr → jstr).

(** [parseBytes] with its first argument alone. *)
Definition bytes_text (n : num) : jstr := parseBytes UI n None false 0.

(** A name that is not one of the three is [undefined], which is shown so. *)
Definition pkg_status (destination : jstr) : jstr :=
  if destination =s notInstalledVal then pgS (js "NInst")
  else if destination =s js "root" then pgS (js "PInst")
  else if destination =s js "plugin_root" then pgS (js "Instd")
  else js "undefined".

Definition re_kmod_usb : re := Eval vm_compute in rx "^kmod.*usb".
Definition needs_usb (d : pkg_data) : bool := existsb (test re_kmod_usb) (pd_depends d).
Definition can_install (d : pkg_data) : bool := negb (needs_usb d) && (pd_will_fit d =s js "true").

(** The lines of text, and [Can-Install] when it is set. *)
Definition createDisplayDiv (pkgName pkgVersion : jstr) (d : pkg_data) : list jstr * option bool :=
  let status := pkg_status (pd_destination d) in
  let head := [default pkgName (pd_description d); pgS (js "Vers") ++ js ": " ++ pkgVersion; pgS (js "Stus") ++ js ": " ++ status] in
  if status =s pgS (js "NInst") then
    let size := pgS (js "RDSpc") ++ js ": " ++ bytes_text (pd_required_size d) in
    if can_install d then (head ++ [size], Some true)
    else (head ++ [size] ++ (if needs_usb d then [pgS (js "USBErr")] else if pd_will_fit d =s js "false" then [pgS (js "DskErr")] else []),
          Some false)
  else (head, None).

Definition package_row (pkgName pkgVersion : jstr) (d : pkg_data) : pkg_row :=
  let '(lines, canInstall) := createDisplayDiv pkgName pkgVersion d in
  mkPkgRow pkgName lines (is_installed d)
    (if is_installed d then Uninstall (negb (pd_destination d =s js "root")) else Install (default false canInstall)).

Fixpoint version_data (versions : list (jstr * pkg_data)) (v : jstr) : option pkg_data :=
  match versions with
  | [] => None
  | (k, d) :: l => if k =s v then Some d else version_data l v
  end.

Definition re_i18n : re := Eval vm_compute in rx "plugin-gargoyle-i18n-".
Definition re_theme : re := Eval vm_compute in rx "plugin-gargoyle-theme-".

(** The rows of the languages, the themes and the other packages.  The calls of [sort]
    compare texts that are the same for all rows, and change nothing. *)
Definition list_package (st : list pkg_row * list pkg_row * list pkg_row) (p : jstr * list (jstr * pkg_data))
    : list pkg_row * list pkg_row * list pkg_row :=
  let '(lang, them, pack) := st in
  let '(pkgName, versions) := p in
  match getCurrentOrLatestVersion versions with
  | None => st
  | Some v =>
      match version_data versions v with
      | None => st
      | Some d =>
          let r := package_row pkgName v d in
          if test re_i18n pkgName then (lang ++ [r], them, pack)
          else if test re_theme pkgName then (lang, them ++ [r], pack)
          else (lang, them, pack ++ [r])
      end
  end.

Definition package_rows (pkg_info : list (jstr * list (jstr * pkg_data))) : list pkg_row * list pkg_row * list pkg_row :=
  fold_left list_package pkg_info ([], [], []).

(** ** The directory of the plugins *)
Definition find_drive {A} (f : drive → A) (storageDrives : list drive) (name : jstr) (a : A) : A :=
  fold_left (fun a d => if dr_name d =s name then f d else a) storageDrives a.

Definition root_display (d : document) (drive : jstr) : exn document :=
  let! d := update d (js "plugin_root_static") (set_display (if drive =s js "root" then js "block" else js "none")) in
  update d (js "plugin_root_text") (set_display (if drive =s js "root" then js "none" else js "block")).

Definition re_FAT : re := Eval vm_compute in rx "[Ff][Aa][Tt]".

Definition updatePluginRootDisplay (d : document) (storageDrives : list drive) : exn document :=
  let! sel := getSelectedValue UI d (js "plugin_root_drive_select") in
  let '(pluginRootDrive, d) := sel in
  let! drive := exn_of_option TypeError pluginRootDrive in
  let! d := root_display d drive in
  let newRootFormat := if drive =s js "root" then js "internal" else find_drive dr_format storageDrives drive (js "internal") in
  let fat := test re_FAT newRootFormat in
  let! d := update d (js "plugin_root_incompatible") (set_display (if fat then js "block" else js "none")) in
  update d (js "btn_plugin_root_change") (set_display (if fat then js "none" else js "block")).

(** [driveToPath]: the path of a drive; the root is stored under another name than
    the one it is looked up with, and a missing path is shown as [undefined]. *)
Definition driveToPath (storageDrives : list drive) (name : jstr) : jstr :=
  find_drive dr_path storageDrives name (if name =s js "Root" then js "/" else js "undefined").

Definition move_commands (oldRootDrive newRootDrive newDirPath : jstr) : list jstr :=
  let from_root := oldRootDrive =s js "root" in
  let to_root := newRootDrive =s js "root" in
  if from_root && negb to_root then
    [js "mkdir -p '" ++ newDirPath ++ js "'"; js "mv -f '/plugin_root/'* '" ++ newDirPath ++ js "/'"; js "rm -r '/plugin_root/'";
     js "ln -s '" ++ newDirPath ++ js "' '/plugin_root'"]
  else if negb from_root && to_root then
    [js "mkdir -p '/plugin.root.tmp'"; js "mv -f '/plugin_root/'* '/plugin.root.tmp/'"; js "rm '/plugin_root'"; js "mv '/plugin.root.tmp' '/plugin_root'"]
  else if negb from_root && negb to_root then
    [js "mkdir -p '" ++ newDirPath ++ js "'"; js "mv -f '/plugin_root/'* '" ++ newDirPath ++ js "/'"; js "rm '/plugin_root/'";
     js "ln -s '" ++ newDirPath ++ js "' '/plugin_root'"]
  else [].

(** What a change of the directory sends: a message when there is not enough space,
    nothing when the user does not confirm, or commands. *)
Inductive root_change := NoSpace (message : jstr) | Cancelled | Commands (l : list jstr).

Definition changePluginRoot (d : document) (uciOriginal : UCIContainer) (storageDrives : list drive) (rootFree pluginRootSize : num)
    (confirm : bool) : exn root_change :=
  let! textEl := el d (js "plugin_root_text") in
  let newRootDir := if negb (e_display textEl =s js "none") then value textEl else js "/plugin_root" in
  let! sel := getSelectedValue UI d (js "plugin_root_drive_select") in
  let! newRootDrive := exn_of_option TypeError (fst sel) in
  let old := uval_str (get uciOriginal (js "gargoyle") (js "plugin_options") (js "root_drive")) in
  let oldRootDrive := if old =s [] then js "root" else old in
  let newRootFree := if newRootDrive =s js "root" then rootFree else find_drive dr_free storageDrives newRootDrive rootFree in
  if Num.gtb pluginRootSize newRootFree then
    Ret (NoSpace (pgS (js "NoSpace") ++ js " " ++ newRootDrive ++ newline ++ newline ++ pgS (js "PlgSz") ++ js " = " ++ bytes_text pluginRootSize
                  ++ newline ++ pgS (js "FreeSp") ++ js " = " ++ bytes_text newRootFree ++ newline ++ newline ++ pgS (js "Rslv")))
  else
    let newDirPath := driveToPath storageDrives newRootDrive ++ js "/" ++ newRootDir in
    if (oldRootDrive =s js "root") && negb (newRootDrive =s js "root") && negb confirm then Ret Cancelled
    else Ret (Commands (move_commands oldRootDrive newRootDrive newDirPath
      ++ [js "/sbin/uci set gargoyle.plugin_options=plugin_options";
          js "/sbin/uci set gargoyle.plugin_options.root_dir='" ++ newRootDir ++ js "'";
          js "/sbin/uci set gargoyle.plugin_options.root_drive='" ++ newRootDrive ++ js "'"; js "/sbin/uci commit"])).

(** ** Sources *)
Definition removePluginSource (srcName : jstr) : list jstr :=
  [js "awk ' $1 != " ++ [34] ++ js "src/gz" ++ [34] ++ js " || $2 != " ++ [34] ++ srcName ++ [34] ++ js "  { print $0 } ' /etc/opkg.conf >/tmp/opkg.conf.tmp";
   js "mv /tmp/opkg.conf.tmp /etc/opkg.conf"; js "rm -r '/tmp/opkg-lists/" ++ srcName ++ js "'"; js "opkg update"].

Definition re_source_name : re := Eval vm_compute in rx "^[A-Za-z0-9_\-]+$".
Definition re_space : re := Eval vm_compute in rx " ".

Definition source_errors (pluginSources : list (jstr * jstr)) (srcName srcUrl : jstr) : list jstr :=
  (if negb (test re_source_name srcName) then [pgS (js "CharErr") ++ (if test re_space srcName then js " " ++ pgS (js "SpcErr") else [])] else [])
  ++ (if zlen srcName =? 0 then [pgS (js "SNamErr")] else [])
  ++ (if zlen srcUrl =? 0 then [pgS (js "SURLErr")] else [])
  ++ (if existsb (fun s => srcName =s fst s) pluginSources then [pgS (js "DupSNamErr")] else [])
  ++ (if existsb (fun s => srcUrl =s snd s) pluginSources then [pgS (js "DupSURLErr")] else []).

(** Only the first quote of the address is replaced. *)
Fixpoint replace_first (c : Z) (t s : jstr) : jstr :=
  match s with [] => [] | x :: s' => if x =? c then t ++ s' else x :: replace_first c t s' end.

Definition addPluginSource (d : document) (pluginSources : list (jstr * jstr)) : exn (document * list jstr) :=
  let! name := el d (js "add_source_name") in
  let! url := el d (js "add_source_url") in
  let srcName := value name in
  let srcUrl := value url in
  match source_errors pluginSources srcName srcUrl with
  | [] =>
      let! d := update d (js "add_source_name") (set_value []) in
      let! d := update d (js "add_source_url") (set_value []) in
      Ret (d, [js "echo 'src/gz " ++ srcName ++ js " " ++ replace_first 39 (js "%27") srcUrl ++ js "'>> /etc/opkg.conf"; js "opkg update"])
  | errors => Ret (alert d (join newline errors ++ newline ++ newline ++ pgS (js "AddPSErr")), [])
  end.

Definition validateSourceName (srcName : jstr) : Z := if (0 <? zlen srcName) && test re_source_name srcName then 0 else 1.
Definition proofreadSourceName (d : document) (input : jstr) : exn document := update d input (proofread_el validateSourceName 0).

(** A source that cannot be removed. *)
Definition re_openwrt : re := Eval vm_compute in rx "\/\/downloads.openwrt.org".
Definition re_gargoyle : re := Eval vm_compute in rx "\/\/www.gargoyle-router.com".
Definition preset_source (url : jstr) : bool := test re_openwrt url || test re_gargoyle url.

(** The rows of the sources: the text, and whether there is a button. *)
Definition source_row (s : jstr * jstr) : jstr * bool := (fst s ++ newline ++ snd s, negb (preset_source (snd s))).

Definition installPackage (pkg : jstr) : list jstr := [js "sh /usr/lib/gargoyle/install_gargoyle_package.sh " ++ pkg].
Definition uninstallPackage (pkg : jstr) (confirmUninstall : bool) : list jstr :=
  if confirmUninstall then [js "sh /usr/lib/gargoyle/remove_gargoyle_package.sh " ++ pkg] else [].
Definition updatePackagesList : list jstr := [js "opkg update"].

(** ** The page *)
Record plugins_page := mkPlugins {
  pp_doc : document;
  pp_drive_text : option jstr;          (** the text that replaces the list of drives *)
  pp_sources : list (jstr * bool);
  pp_lang : list pkg_row; pp_them : list pkg_row; pp_pack : list pkg_row
}.

Definition drive_label (name : jstr) (total free : num) : jstr :=
  name ++ js ": " ++ bytes_text total ++ js " " ++ pgS (js "Totl") ++ js ", " ++ bytes_text free ++ js " " ++ pgS (js "Free").

Definition resetData (d : document) (uciOriginal : UCIContainer) (storageDrives : list drive) (rootTotal rootFree : num)
    (pluginSources : list (jstr * jstr)) (pkg_info : list (jstr * list (jstr * pkg_data))) (connectivity : jstr) : exn plugins_page :=
  let dir := uval_str (get uciOriginal (js "gargoyle") (js "plugin_options") (js "root_dir")) in
  let drv := uval_str (get uciOriginal (js "gargoyle") (js "plugin_options") (js "root_drive")) in
  let pluginRootDrive := if drv =s [] then js "root" else drv in
  let pluginRootDir := if (dir =s []) || (pluginRootDrive =s js "root") then js "/plugin_root" else dir in
  let none := match storageDrives with [] => true | _ => false end in
  let! d := root_display d pluginRootDrive in
  let! d := update d (js "plugin_root_drive_static") (set_display (if none then js "block" else js "none")) in
  let! d := update d (js "plugin_root_drive_select") (set_display (if none then js "none" else js "block")) in
  let! d := update d (js "plugin_root_text") (set_value pluginRootDir) in
  let! d := (if none then Ret d
             else
               let! d := setAllowableSelections UI d (js "plugin_root_drive_select") (Some (js "root" :: map dr_name storageDrives))
                           (Some (drive_label (pgS (js "RDrv")) rootTotal rootFree
                                  :: map (fun x => drive_label (dr_name x) (dr_total x) (dr_free x)) storageDrives)) in
               setSelectedValue d (js "plugin_root_drive_select") pluginRootDrive) in
  let! d := update d (js "plugin_root_change_container") (set_display (if none then js "none" else js "block")) in
  let text := if none then Some (pgS (js "RDrv") ++ js " " ++ bytes_text rootTotal ++ js " " ++ pgS (js "Totl") ++ js ", "
                                 ++ bytes_text rootFree ++ js " " ++ pgS (js "Free")) else None in
  let '(lang, them, pack) := package_rows pkg_info in
  let! d := (match lang, them, pack with [], [], [] => update d (js "no_packages") (set_display (js "block")) | _, _, _ => Ret d end) in
  let! d := update d (js "wan-warn") (set_display (if connectivity =s [] then js "block" else js "none")) in
  Ret (mkPlugins d text (map source_row pluginSources) lang them pack).

End Strings.
End Plugins.
