(* ===== verification/PluginFacts.v ===== *)
(** * Versions of packages

    On versions that are numbers with dots between them, [cmpPkgVersions] is the
    order of the numbers, and [getCurrentOrLatestVersion] finds the version that
    is installed, or else the greatest one. *)
From S2P Require Import Prelude JsNum JsString JsRegex Plugins.
Import Plugins.
Open Scope Z_scope.

(** The text of a version, and the order of versions. *)
Definition version_text (l : list Z) : jstr := join [46] (map str_of_Z l).

Fixpoint newer (l1 l2 : list Z) : bool :=
  match l1, l2 with
  | a :: l1', b :: l2' => if a =? b then newer l1' l2' else b <? a
  | _ :: _, [] => true
  | [], _ => false
  end.

Definition is_version (l : list Z) : Prop := l ≠ [] ∧ Forall (fun a => 0 <= a) l.

Lemma newer_irrefl l : newer l l = false.
Proof. induction l as [|a l IH]; [done|]. cbn. by rewrite Z.eqb_refl. Qed.

Lemma newer_trans l1 l2 l3 : newer l1 l2 = true → newer l2 l3 = true → newer l1 l3 = true.
Proof.
  revert l2 l3. induction l1 as [|a l1 IH]; intros l2 l3; [done|]. destruct l2 as [|b l2]; [done|]. destruct l3 as [|c l3]; [done|]. cbn.
  destruct (Z.eqb_spec a b), (Z.eqb_spec b c), (Z.eqb_spec a c); subst; intros; try lia; by eapply IH.
Qed.

(** Two versions, the same or not, are ordered one way at least. *)
Lemma newer_total l1 l2 : l1 ≠ l2 → newer l1 l2 = true ∨ newer l2 l1 = true.
Proof.
  revert l2. induction l1 as [|a l1 IH]; intros [|b l2] Hne; cbn; [done|by right|by left|].
  rewrite (Z.eqb_sym b a). destruct (Z.eqb_spec a b) as [->|Hab]; [|lia]. apply IH. congruence.
Qed.

(** ** The comparison *)
Lemma digit_not_separator c : is_digit c = true →
  in_set false [(32, 32); (9, 9); (46, 46); (45, 45); (95, 95); (40, 40); (41, 41); (123, 123); (125, 125); (91, 91); (93, 93); (43, 43);
    (61, 61); (59, 59); (63, 63); (44, 44); (124, 124); (47, 47); (92, 92); (42, 42); (38, 38); (64, 64); (35, 35); (33, 33); (36, 36);
    (37, 37); (60, 60); (62, 62)] c = false.
Proof.
  intros Hc. assert (48 <= c <= 57) as Hr by (unfold is_digit in Hc; lia). 
  assert (c = 48 ∨ c = 49 ∨ c = 50 ∨ c = 51 ∨ c = 52 ∨ c = 53 ∨ c = 54 ∨ c = 55 ∨ c = 56 ∨ c = 57) as Hd by lia.
  by repeat destruct Hd as [->|Hd]; [..|subst c].
Qed.

Lemma split_version l : is_version l → split_re re_separators (version_text l) = map str_of_Z l.
Proof.
  intros [Hne Hl]. apply split_re_class; [done|by intros E%map_eq_nil|]. apply Forall_map. eapply Forall_impl; [exact Hl|].
  intros a Ha. destruct (str_of_Z_digits a Ha) as (Hd & Hn & _). split; [done|]. eapply Forall_impl; [exact Hd|]. cbn. apply digit_not_separator.
Qed.

Lemma cmp_part_numbers a b : 0 <= a → 0 <= b → cmp_part (str_of_Z a) (str_of_Z b) = if b <? a then 1 else -1.
Proof. intros Ha Hb. unfold cmp_part. rewrite !parseInt_str_of_Z by done. cbn [Num.isNaN negb andb]. unfold Num.gtb. by numsimpl. Qed.

Lemma cmp_parts_numbers l1 l2 : Forall (fun a => 0 <= a) l1 → Forall (fun a => 0 <= a) l2 →
  match cmp_parts (map str_of_Z l1) (map str_of_Z l2) with
  | Some r => r = if newer l1 l2 then 1 else -1
  | None => newer l1 l2 = (length l2 <? length l1)%nat
  end.
Proof.
  intros H1. revert l2. induction H1 as [|a l1 Ha _ IH]; intros l2 H2; [by destruct l2|]. destruct H2 as [|b l2 Hb H2]; [done|].
  cbn [map cmp_parts newer]. destruct (Z.eqb_spec a b) as [->|Hab].
  - rewrite str_eqb_refl. cbn [negb]. specialize (IH l2 H2). by destruct (cmp_parts _ _).
  - assert (str_of_Z a =s str_of_Z b = false) as ->; [apply str_eqb_neq; intros E; by apply Hab, str_of_Z_inj|]. by apply cmp_part_numbers.
Qed.

Lemma cmp_versions l1 l2 : is_version l1 → is_version l2 → cmpPkgVersions (version_text l1) (version_text l2) = if newer l1 l2 then 1 else -1.
Proof.
  intros H1 H2. unfold cmpPkgVersions. rewrite !split_version by done.
  pose proof (cmp_parts_numbers l1 l2 (proj2 H1) (proj2 H2)) as Hc. destruct (cmp_parts _ _) as [r|]; [done|]. rewrite Hc.
  unfold zlen. rewrite !length_map. destruct (Nat.ltb_spec (length l2) (length l1)), (Z.ltb_spec (Z.of_nat (length l2)) (Z.of_nat (length l1))); lia || done.
Qed.

(** ** The version that is shown *)
Definition version_entry (v : list Z * pkg_data) : jstr * pkg_data := (version_text (fst v), snd v).

(** What is found after some versions. *)
Definition found_so_far (done_ : list (list Z * pkg_data)) (st : option jstr * bool) : Prop :=
  match st with
  | (None, _) => done_ = []
  | (Some f, current) => ∃ pre l d post, done_ = pre ++ (l, d) :: post ∧ f = version_text l ∧ is_installed d = current ∧
      (if current then Forall (fun v => is_installed (snd v) = false) post
       else Forall (fun v => is_installed (snd v) = false ∧ newer (fst v) l = false) done_)
  end.

Lemma version_step_found done_ st v : Forall (fun v => is_version (fst v)) (done_ ++ [v]) → found_so_far done_ st →
  (∀ c, st.1 = None → st.2 = c → c = false) → found_so_far (done_ ++ [v]) (version_step st (version_entry v)).
Proof.
  intros Hv Hst Hnone. destruct v as [l d]. apply Forall_app in Hv as [Hdone Hl]. inversion_clear Hl as [|?? Hl' _]. cbn [fst] in Hl'.
  unfold version_entry. cbn [fst snd]. destruct st as [[f|] current]; cbn [version_step found_so_far] in *.
  - destruct Hst as (pre & l' & d' & post & -> & -> & Hd' & Hrest).
    assert (Hl2 : is_version l') by (apply Forall_app in Hdone as [_ Hd2]; by inversion_clear Hd2).
    rewrite cmp_versions by done. destruct (is_installed d) eqn:Ed; cbn [orb].
    + exists (pre ++ (l', d') :: post), l, d, []. split_and!; [done..|constructor].
    + destruct current; cbn [negb andb].
      * exists pre, l', d', (post ++ [(l, d)]). rewrite <-app_assoc. split_and!; [done..|]. apply Forall_app. split; [done|]. by constructor.
      * destruct (newer l l') eqn:En; cbn.
        -- exists (pre ++ (l', d') :: post), l, d, []. split_and!; [done..|]. apply Forall_app. split; [|constructor; [cbn; by rewrite newer_irrefl|constructor]].
           eapply Forall_impl; [exact Hrest|]. intros [k e] [H1 H2]. cbn [fst snd] in *. split; [done|].
           destruct (newer k l) eqn:Ek; [|done]. by rewrite (newer_trans _ _ _ Ek En) in H2.
        -- exists pre, l', d', (post ++ [(l, d)]). split_and!; [by rewrite <-app_assoc|done..|].
           apply Forall_app. split; [done|]. by constructor.
  - subst done_. exists [], l, d, []. split_and!; [done..|]. destruct (is_installed d) eqn:Ed; [constructor|]. constructor; [|constructor]. cbn. by rewrite newer_irrefl.
Qed.

(** C23: For a package with at least one version, each a row of numbers with dots,
    [getCurrentOrLatestVersion] gives a version: the last one that is installed when one is,
    and otherwise one that no other is newer than, in the order of the numbers from left to
    right (so that 1.10 is newer than 1.9). *)
Theorem current_or_latest versions : versions ≠ [] → Forall (fun v => is_version (fst v)) versions →
  ∃ pre l d post, versions = pre ++ (l, d) :: post ∧ getCurrentOrLatestVersion (map version_entry versions) = Some (version_text l) ∧
    (if is_installed d then Forall (fun v => is_installed (snd v) = false) post
     else Forall (fun v => is_installed (snd v) = false ∧ newer (fst v) l = false) versions).
Proof.
  intros Hne Hv. unfold getCurrentOrLatestVersion.
  enough (Hst : found_so_far versions (fold_left version_step (map version_entry versions) (None, false)) ∧
    ((fold_left version_step (map version_entry versions) (None, false)).1 = None →
     (fold_left version_step (map version_entry versions) (None, false)).2 = false)).
  { destruct Hst as [Hst _]. destruct (fold_left _ _ _) as [[f|] current]; cbn in Hst; [|done].
    destruct Hst as (pre & l & d & post & Hpre & -> & <- & Hrest). exists pre, l, d, post. done. }
  clear Hne. induction versions as [|v versions IH] using rev_ind; [done|].
  apply Forall_app in Hv as Hv'. destruct Hv' as [Hv1 _]. destruct (IH Hv1) as [IH1 IH2]. rewrite map_app, fold_left_app. cbn [map fold_left].
  set (st := fold_left version_step (map version_entry versions) (None, false)) in *. split.
  - apply version_step_found; [done|done|]. intros c H1 <-. by apply IH2.
  - destruct v as [l d]. destruct st as [[f|] current]; cbn; [destruct (_ || _); done|done].
Qed.

(** Two versions, the older one after the newer. *)
Definition sample_pkg (dest : jstr) : pkg_data := mkPkg None dest [] (js "true") (Int 1000).

Lemma current_or_latest_witness :
  getCurrentOrLatestVersion [(js "1.10.0", sample_pkg notInstalledVal); (js "1.9.3", sample_pkg notInstalledVal)] = Some (js "1.10.0") ∧
  ∃ pre l d post, [([1; 10; 0], sample_pkg notInstalledVal); ([1; 9; 3], sample_pkg notInstalledVal)] = pre ++ (l, d) :: post ∧
    getCurrentOrLatestVersion [(js "1.10.0", sample_pkg notInstalledVal); (js "1.9.3", sample_pkg notInstalledVal)] = Some (version_text l).
Proof.
  split; [vm_compute; reflexivity|].
  destruct (current_or_latest [([1; 10; 0], sample_pkg notInstalledVal); ([1; 9; 3], sample_pkg notInstalledVal)]) as (pre & l & d & post & H1 & H2 & _).
  - discriminate.
  - repeat constructor; cbn; lia || discriminate.
  - exists pre, l, d, post. split; [exact H1|exact H2].
Defined.

(** The same version is reported as older than itself, and two parts that begin with
    the same number are each older than the other. *)
Lemma versions_not_ordered : cmpPkgVersions (js "1.0") (js "1.0") = -1 ∧ cmpPkgVersions (js "1a") (js "1b") = -1 ∧ cmpPkgVersions (js "1b") (js "1a") = -1.
Proof. vm_compute. done. Qed.

(** An address with two quotes leaves one of them in the command. *)
Lemma second_quote_stays : 39 ∈ replace_first 39 (js "%27") (js "http://a/'b'").
Proof. apply list_elem_of_In. vm_compute. tauto. Qed.

(** The path of the root is stored under another name. *)
Lemma root_path_undefined : driveToPath [] (js "root") = js "undefined".
Proof. reflexivity. Qed.
