(* ===== verification/Qos.v ===== *)
(** * The QoS pages (plugin-gargoyle-qos, qos.js)

    The page of one direction: the service classes with their share of the
    bandwidth, the classification rules with the criteria of a packet, the form
    of each, loading and saving.  Criteria are kept as a text in the table of
    the rules, which is taken apart again with expressions that are made from
    the labels of the language pack.

    The strings of the language pack, the names of the application protocols and the
    gateway are parameters.  Rows whose class was removed are shown in red: their
    identities are kept.  A boolean that is stored in the settings is represented by
    its text. *)
From Stdlib Require Import Floats.SpecFloat.
From S2P Require Import Prelude JsNum JsString JsRegex Uci Ports Ip4 Validate Ip6 Table TableEdit Dom Modal Text.
Import Uci Ports Ip4 Validate Ip6 Table TableEdit Dom Modal Text.
Open Scope Z_scope.

(** [classinfo]; an absent field is [null]. *)
Record classinfo := mkClass {
  ci_Name : jstr; ci_Percent : jstr; ci_MinBW : jstr; ci_MaxBW : jstr; ci_MinRTT : jstr;
  ci_bytes : option jstr; ci_leaf : option jstr; ci_bps : num
}.

(** The document, the two tables, the rows in red, [classTable], [dynamic_update],
    [updateInProgress], [qosEnabled] and the settings. *)
Record qos_page := mkQos {
  qp_doc : document;
  qp_classes : option table;
  qp_rules : option table;
  qp_red : list nat;
  qp_table : list classinfo;
  qp_dynamic : bool;
  qp_busy : bool;
  qp_enabled : bool;
  qp_orig : UCIContainer
}.

Module Qos.

Definition pkg : jstr := js "qos_gargoyle".
Definition newline : jstr := [10].

Definition with_doc (p : qos_page) (d : document) : qos_page :=
  mkQos d (qp_classes p) (qp_rules p) (qp_red p) (qp_table p) (qp_dynamic p) (qp_busy p) (qp_enabled p) (qp_orig p).
Definition with_classes (p : qos_page) (t : option table) : qos_page :=
  mkQos (qp_doc p) t (qp_rules p) (qp_red p) (qp_table p) (qp_dynamic p) (qp_busy p) (qp_enabled p) (qp_orig p).
Definition with_rules (p : qos_page) (t : option table) : qos_page :=
  mkQos (qp_doc p) (qp_classes p) t (qp_red p) (qp_table p) (qp_dynamic p) (qp_busy p) (qp_enabled p) (qp_orig p).
Definition with_red (p : qos_page) (l : list nat) : qos_page :=
  mkQos (qp_doc p) (qp_classes p) (qp_rules p) l (qp_table p) (qp_dynamic p) (qp_busy p) (qp_enabled p) (qp_orig p).
Definition with_table (p : qos_page) (l : list classinfo) : qos_page :=
  mkQos (qp_doc p) (qp_classes p) (qp_rules p) (qp_red p) l (qp_dynamic p) (qp_busy p) (qp_enabled p) (qp_orig p).
Definition with_updates (p : qos_page) (dynamic busy : bool) : qos_page :=
  mkQos (qp_doc p) (qp_classes p) (qp_rules p) (qp_red p) (qp_table p) dynamic busy (qp_enabled p) (qp_orig p).
Definition with_orig (p : qos_page) (u : UCIContainer) : qos_page :=
  mkQos (qp_doc p) (qp_classes p) (qp_rules p) (qp_red p) (qp_table p) (qp_dynamic p) (qp_busy p) (qp_enabled p) u.
Definition with_enabled (p : qos_page) (b : bool) : qos_page :=
  mkQos (qp_doc p) (qp_classes p) (qp_rules p) (qp_red p) (qp_table p) (qp_dynamic p) (qp_busy p) b (qp_orig p).

(** ** Double precision *)

(** Numbers as IEEE doubles; [Math.round] is the floor of the number and a half. *)
Definition float (z : Z) : spec_float := binary_normalize 53 1024 z 0 false.
Definition fdiv : spec_float → spec_float → spec_float := SFdiv 53 1024.
Definition fmul : spec_float → spec_float → spec_float := SFmul 53 1024.

Definition math_round (x : spec_float) : num :=
  match x with
  | S754_zero _ => Int 0
  | S754_infinity neg => Inf neg
  | S754_nan => NaN
  | S754_finite neg m e =>
      let z := if neg then Z.neg m else Z.pos m in
      if 0 <=? e then Int (z * 2 ^ e) else Int ((2 * z + 2 ^ (- e)) / (2 * 2 ^ (- e)))
  end.

(** [Math.round(100*(p/sum))] and [Math.round((p*100)/total)] of integers. *)
Definition share (p sum : num) : num :=
  match p, sum with Dec a 0, Dec b 0 => math_round (fmul (float 100) (fdiv (float a) (float b))) | _, _ => NaN end.
Definition percentage (p total : num) : num :=
  match p, total with Dec a 0, Dec b 0 => math_round (fdiv (float (a * 100)) (float b)) | _, _ => NaN end.

(** [String(n)] of a rounded number. *)
Definition num_text (n : num) : jstr :=
  match n with Dec z 0 => str_of_Z z | Inf neg => if neg then js "-Infinity" else js "Infinity" | _ => js "NaN" end.

(** ** Criteria of a rule *)
Section Strings.
Context (qosStr UI : jstr → jstr) (protocolMap : list (jstr * jstr)) (direction : jstr) (currentWanGateway : jstr).

Definition download : bool := direction =s js "download".

(** The labels of the criteria; a dollar stands for the value. *)
Definition displayList : list jstr :=
  [UI (js "IPFam") ++ js ": $"; qosStr (js "Src") ++ js ": $"; qosStr (js "SrcP") ++ js ": $"; qosStr (js "Dst") ++ js ": $";
   qosStr (js "DstP") ++ js ": $"; qosStr (js "MaxPktLen") ++ js ": $ " ++ UI (js "byt"); qosStr (js "MinPktLen") ++ js ": $ " ++ UI (js "byt");
   qosStr (js "TrProto") ++ js ": $"; qosStr (js "Connb") ++ js ": $ " ++ UI (js "KBy"); qosStr (js "APro") ++ js ": $"].

(** [replace(/\$/, v)] for a value without a dollar: the first one. *)
Fixpoint replace_dollar (s v : jstr) : jstr :=
  match s with [] => [] | x :: s' => if x =? 36 then v ++ s' else x :: replace_dollar s' v end.

(** [ruleText == "" ? ruleText + t : ruleText + ", " + t] *)
Definition add_text (ruleText t : jstr) : jstr := if ruleText =s [] then ruleText ++ t else ruleText ++ js ", " ++ t.

(** The expressions of the criteria: text before and after the captured value. *)
Definition possibleCriteria : list jstr :=
  [UI (js "IPFam") ++ js ": (.*)"; qosStr (js "Src") ++ js ": (.*)"; qosStr (js "SrcP") ++ js ": (.*)"; qosStr (js "Dst") ++ js ": (.*)";
   qosStr (js "DstP") ++ js ": (.*)"; qosStr (js "MaxPktLen") ++ js ": (.*) " ++ UI (js "byt"); qosStr (js "MinPktLen") ++ js ": (.*) " ++ UI (js "byt");
   qosStr (js "TrProto") ++ js ": (.*)"; qosStr (js "Connb") ++ js ": (.*) " ++ UI (js "KBy"); qosStr (js "APro") ++ js ": (.*)"].

Definition re_comma_blanks : re := Eval vm_compute in rx "[\t ]*,[\t ]*".

(** The first piece that matches, and what its first group captured. *)
Fixpoint first_match (r : re) (splitText : list jstr) : jstr :=
  match splitText with
  | [] => []
  | s :: l => match exec r s with Some m => default (js "undefined") (find_cap 1 (m_caps m)) | None => first_match r l end
  end.

(** A label that is no expression makes [new RegExp] throw. *)
Definition parseRuleMatchCriteria (matchText : jstr) : exn (list jstr) :=
  let splitText := split_re re_comma_blanks matchText in
  exn_map (fun c => let! r := exn_of_option SyntaxError (parse_re c) in Ret (first_match r splitText)) possibleCriteria.

(** ** Elements *)
Definition createRuleTableEditButton : datum := DObj (mkWidget (js "button") (UI (js "Edit")) false (js "btn btn-default btn-edit") false).

(** The comment of a rule: its text in a span beside a button, which is disabled when
    there is none.  The text is written to [innerHTML] and read back from it; comments
    are taken to be without markup (no ampersand and no angle bracket), for which
    that is the same text. *)
Definition comment_widget (commentStr : jstr) (disabled : bool) (class : jstr) : widget :=
  MkWidget (js "span") commentStr disabled class false [] [].
Definition createRuleTableCommentButton (commentStr : jstr) : datum := DObj (comment_widget commentStr (commentStr =s []) (js "popuptext")).

Definition comment_shown (w : widget) : bool := contains (w_class w) (js "show").

Definition doRuleTableComment (p : qos_page) (id : nat) : exn qos_page :=
  let! t := exn_of_option TypeError (qp_rules p) in
  let! r := body_row t id in
  let toggle c := if bool_decide (js "show" ∈ class_tokens c) then class_remove (js "show") c else class_add (js "show") c in
  let! r' := set_widget 2 (fun w => comment_widget (w_html w) (w_disabled w) (toggle (w_class w))) r in
  Ret (with_rules p (Some (set_body_row t id r'))).

Definition createClassTableEditButton (rowIndex : Z) : datum :=
  DObj (MkWidget (js "button") (UI (js "Edit")) false (js "btn btn-default btn-edit") false (str_of_Z rowIndex) []).

(** ** The table of the classes *)
Fixpoint pad4 (n : nat) (s : jstr) : jstr :=
  match n with O => s | S n' => if zlen s <? 4 then pad4 n' (js " " ++ s) else s end.

(** [toFixed(0)] *)
Definition toFixed0 (n : num) : jstr := num_text (round n).

(** At most four blanks are put in front. *)
Definition bpsToKbpsString (bps : num) : jstr :=
  let kbps :=
    match bps with
    | Dec m e =>
        (* [parseInt] cuts the fraction *)
        let i := if 0 <=? e then m * 10 ^ e else Z.quot m (10 ^ (- e)) in
        let bpsn := Dec i (-3) in
        if Num.ltb bpsn (Int 1) then toFixed bpsn 1 else toFixed0 bpsn
    | _ => js "*"
    end in
  pad4 4 kbps.

Definition class_cells (c : classinfo) (percent : jstr) : list jstr :=
  [ci_Name c; percent; ci_MinBW c; ci_MaxBW c] ++ (if download then [ci_MinRTT c] else []) ++ [bpsToKbpsString (ci_bps c)].

(** One row of the table gets the data of the class of its name. *)
Definition update_row (classTable : list classinfo) (t : table) (i : nat) : exn table :=
  let! r := exn_of_option TypeError (t_body t !! i) in
  let! name := get_data r 0 in
  match List.find (fun c => bool_decide (name = Some (ci_Name c))) classTable with
  | Some c => set_datas t (r_id r) (imap (fun j v => (j, v)) (class_cells c (ci_Percent c ++ js "%")))
  | None => Ret t
  end.

Definition update_classtable (p : qos_page) : exn qos_page :=
  match qp_classes p with
  | None => Ret p
  | Some t =>
      let! data := getTableDataArray t true false in
      let dynamic := if (length data =? length (qp_table p))%nat then qp_dynamic p else false in
      let! t := exn_fold (update_row (qp_table p)) (seq 0 (length (qp_table p))) t in
      Ret (with_updates (with_classes p (Some t)) dynamic (qp_busy p))
  end.

Definition positive (s : jstr) : bool := negb (s =s []) && Num.gtb (toNumber s) (Int 0).

Definition load_class (u : UCIContainer) (totalPercent : num) (s : jstr) : classinfo :=
  let opt o := gets u pkg s o in
  mkClass (if opt (js "name") =s [] then s else opt (js "name"))
    (num_text (percentage (parseInt (opt (js "percent_bandwidth"))) totalPercent))
    (if positive (opt (js "min_bandwidth")) then opt (js "min_bandwidth") else qosStr (js "ZERO"))
    (if positive (opt (js "max_bandwidth")) then opt (js "max_bandwidth") else qosStr (js "NOLIMIT"))
    (if opt (js "minRTT") =s js "Yes" then qosStr (js "YES") else []) None None NaN.

Definition class_row (i : nat) (c : classinfo) : list datum :=
  map DStr (class_cells c (ci_Percent c ++ js "%")) ++ [createClassTableEditButton (Z.of_nat i)].

Definition class_columns : list jstr :=
  [qosStr (js "SrvClassName"); qosStr (js "pBdW"); qosStr (js "mBdW") ++ js " (kbps)"; qosStr (js "MBdW") ++ js " (kbps)"]
  ++ (if download then [js "Min RTT"] else []) ++ [qosStr (js "qLd") ++ js " (kbps)"; []].

Definition direction_class : jstr := direction ++ js "_class".
Definition direction_rule : jstr := direction ++ js "_rule".

(** A name is added to the two lists of classes. *)
Definition add_class_option (d : document) (name : jstr) : exn document :=
  let! d := addOptionToSelectElement d (js "default_class") name name None in
  addOptionToSelectElement d (js "classification") name name None.

Definition init_classtable (p : qos_page) : exn qos_page :=
  let u := qp_orig p in
  let! classSections := getAllSectionsOfType u pkg direction_class in
  let! d := update (qp_doc p) (js "default_class") removeAllOptionsFromSelectElement in
  let! d := update d (js "classification") removeAllOptionsFromSelectElement in
  let totalPercent := fold_left (fun n s => Num.add n (parseInt (gets u pkg s (js "percent_bandwidth")))) classSections (Int 0) in
  let classTable := map (load_class u totalPercent) classSections in
  let! d := exn_fold (fun d c => add_class_option d (ci_Name c)) classTable d in
  let defaultClassName := fold_left (fun name '(s, c) => if gets u pkg direction (js "default_class") =s s then ci_Name c else name)
                            (zip classSections classTable) [] in
  let t := createTable (UI (js "Remove")) (map DStr class_columns) (imap class_row classTable) (js "qos_class_table") true false in
  let! d := setSelectedText d (js "default_class") defaultClassName in
  Ret (with_doc (with_table (with_classes p (Some t)) classTable) d).

(** ** Enabling *)
Definition enable_all (d : document) (ids : list jstr) (enabled : bool) : exn document :=
  exn_fold (fun d id => setElementEnabled d id enabled []) ids d.

Definition control_ids : list jstr :=
  map js ["default_class"%string; "ip_family"%string; "source_ip"%string; "source_port"%string; "dest_ip"%string; "dest_port"%string;
    "max_pktsize"%string; "min_pktsize"%string; "transport_protocol"%string; "connbytes_kb"%string; "app_protocol"%string; "use_source_ip"%string;
    "use_source_port"%string; "use_dest_ip"%string; "use_dest_port"%string; "use_max_pktsize"%string; "use_min_pktsize"%string;
    "use_transport_protocol"%string; "use_connbytes_kb"%string; "use_app_protocol"%string; "classification"%string; "add_rule_button"%string;
    "class_name"%string; "percent_bandwidth"%string; "min_radio1"%string; "min_radio2"%string; "min_bandwidth"%string; "max_radio1"%string;
    "max_radio2"%string; "max_bandwidth"%string; "add_class_button"%string].

Definition rule_control_ids : list jstr :=
  map js ["source_ip"%string; "source_port"%string; "dest_ip"%string; "dest_port"%string; "max_pktsize"%string; "min_pktsize"%string;
    "transport_protocol"%string; "connbytes_kb"%string; "app_protocol"%string; "comment_rule"%string].

Definition resetRuleControls (p : qos_page) : exn qos_page :=
  let d := qp_doc p in
  let! def := el d (js "default_class") in
  let! d := update d (js "classification") (set_selectedIndex (e_selectedIndex def)) in
  let! d := update d (js "ip_family") (set_selectedIndex 0) in
  let! d := update d (js "use_source_ip") (set_disabled true) in
  let! d := update d (js "use_dest_ip") (set_disabled true) in
  let! d := exn_fold (fun d id =>
    let! d := update d (js "use_" ++ id) (set_checked false) in
    enableAssociatedField d (js "use_" ++ id) id []) rule_control_ids d in
  Ret (with_doc p d).

Definition resetServiceClassControls (p : qos_page) : exn qos_page :=
  let! d := update (qp_doc p) (js "class_name") (set_value []) in
  let! d := update d (js "percent_bandwidth") (set_value []) in
  let! d := update d (js "min_radio1") (set_checked true) in
  let! d := update d (js "min_radio2") (set_checked false) in
  let! d := enableAssociatedField d (js "min_radio2") (js "min_bandwidth") [] in
  let! d := update d (js "max_radio1") (set_checked true) in
  let! d := update d (js "max_radio2") (set_checked false) in
  let! d := enableAssociatedField d (js "max_radio2") (js "max_bandwidth") [] in
  let! d := update d (js "rtt_radio1") (set_checked false) in
  let! d := update d (js "rtt_radio2") (set_checked true) in
  let! d := update d (js "minrtt_container") (set_display (if download then js "block" else js "none")) in
  Ret (with_doc p d).

(** The bandwidth that is shown: the stored one, or a default in kilobits. *)
Definition bandwidth_text (totalBandwidth : jstr) : jstr :=
  if Num.gtb (toNumber totalBandwidth) (Int 0) then totalBandwidth else if direction =s js "upload" then js "1000" else js "10000".
Definition total_bandwidth (p : qos_page) : jstr :=
  let s := gets (qp_orig p) pkg direction (js "total_bandwidth") in if s =s [] then js "-1" else s.

Definition enable_table (t : option table) (enabled : bool) : exn (option table) :=
  match t with None => Raise TypeError | Some t => let! t := setRowClasses t enabled in Ret (Some t) end.

Definition enable_monitor (d : document) (enabled : bool) : exn document :=
  let! d := enable_all d [js "qos_monenabled"; js "rtt_radio1"; js "rtt_radio2"] enabled in
  let! mon := el d (js "qos_monenabled") in
  let qmenabled := enabled && e_checked mon in
  let! d := setElementEnabled d (js "use_ptarget_ip") qmenabled [] in
  let! use := el d (js "use_ptarget_ip") in
  let! e := el d (js "ptarget_ip") in
  let! d := setElementEnabled d (js "ptarget_ip") (qmenabled && e_checked use) (value e) in
  let! d := setElementEnabled d (js "use_auto_pinglimit") qmenabled [] in
  let! use := el d (js "use_auto_pinglimit") in
  let! e := el d (js "pinglimit") in
  setElementEnabled d (js "pinglimit") (qmenabled && e_checked use) (value e).

Definition setQosEnabled (p : qos_page) : exn qos_page :=
  let! q := el (qp_doc p) (js "qos_enabled") in
  let enabled := e_checked q in
  let! d := setElementEnabled (qp_doc p) (js "total_bandwidth") enabled (gets (qp_orig p) pkg direction (js "total_bandwidth")) in
  let! d := enable_all d control_ids enabled in
  let! rules := enable_table (qp_rules p) enabled in
  let! classes := enable_table (qp_classes p) enabled in
  let! e := el d (js "total_bandwidth") in
  let! d := (if enabled && (value e =s []) then update d (js "total_bandwidth") (set_value (bandwidth_text (total_bandwidth p))) else Ret d) in
  let! d := (if download then enable_monitor d enabled else Ret d) in
  let! p := resetRuleControls (with_doc (with_classes (with_rules p rules) classes) d) in
  resetServiceClassControls p.

(** ** Rules *)

(** The pairs of an option and its label without the application protocol. *)
Definition rule_options : list jstr :=
  map js ["family"%string; "source"%string; "srcport"%string; "destination"%string; "dstport"%string; "max_pkt_size"%string; "min_pkt_size"%string;
    "proto"%string; "connbytes_kb"%string].

Definition shown_value (option v : jstr) : jstr :=
  if option =s js "proto" then (if v =s js "both" then [] else toUpperCase v)
  else if option =s js "family" then
    (if v =s js "any" then UI (js "both") else if v =s js "ipv4" then js "IPv4" else if v =s js "ipv6" then js "IPv6" else v)
  else v.

Definition protocol_name (key : jstr) : jstr :=
  match List.find (fun x => fst x =s key) protocolMap with Some x => snd x | None => js "undefined" end.

Definition rule_text (u : UCIContainer) (s : jstr) : jstr :=
  let text := fold_left (fun text '(o, label) =>
    let v := shown_value o (gets u pkg s o) in
    if v =s [] then text else add_text text (replace_dollar label v)) (zip rule_options displayList) [] in
  let l7 := gets u pkg s (js "layer7") in
  if l7 =s [] then text else add_text text (qosStr (js "APro") ++ js ": " ++ protocol_name l7).

Definition re_class_no : re := Eval vm_compute in rx "class_([0-9]+)".

(** The number at the end of a class is its place in the table. *)
Definition class_of (classTable : list classinfo) (classification : jstr) : exn jstr :=
  let! m := exn_of_option TypeError (exec re_class_no classification) in
  let! n := exn_of_option TypeError (find_cap 1 (m_caps m)) in
  match parseInt n with
  | Dec z 0 => if z <? 1 then Raise TypeError else
                 let! c := exn_of_option TypeError (classTable !! Z.to_nat (z - 1)) in Ret (ci_Name c)
  | _ => Raise TypeError
  end.

Definition rule_row (u : UCIContainer) (classTable : list classinfo) (s : jstr) : exn (list datum) :=
  let! class := class_of classTable (gets u pkg s (js "class")) in
  Ret [DStr (rule_text u s); DStr class; createRuleTableCommentButton (gets u pkg s (js "comment")); createRuleTableEditButton].

(** A stable sort by the numbers of [test_order]; two that cannot be compared stay. *)
Fixpoint insert_rule {A} (x : num * A) (l : list (num * A)) : list (num * A) :=
  match l with
  | [] => [x]
  | y :: l' => if Num.ltb (fst x) (fst y) then x :: l else y :: insert_rule x l'
  end.
Definition sort_rules {A} (l : list (num * A)) : list (num * A) := fold_left (fun acc x => insert_rule x acc) l [].

Definition rule_priority (u : UCIContainer) (s : jstr) : num :=
  let o := gets u pkg s (js "test_order") in if o =s [] then Int 9999999 else toNumber o.

(** An option with a check box that says whether it is used. *)
Definition load_optional (d : document) (u : UCIContainer) (option use unset : jstr) : exn document :=
  let v := gets u pkg direction option in
  if v =s [] then
    let! d := update d use (set_checked false) in setElementEnabled d option false unset
  else
    let! d := update d use (set_checked true) in
    let! d := update d option (set_value v) in
    setElementEnabled d option true [].

Definition descriptions : list jstr :=
  map (fun n => js "qos_" ++ (if direction =s js "upload" then js "up" else js "down") ++ js "_" ++ n) [js "1"; js "2"]
  ++ (if download then [js "qos_down_3"; js "qos_down_4"] else []).

(** Up to the requests that follow the load. *)
Definition resetData (p : qos_page) : exn qos_page :=
  let! d := exn_fold (fun d id => initializeDescriptionVisibility UI None None None d (qp_orig p) id) descriptions (qp_doc p) in
  let! u := removeSection (qp_orig p) (js "gargoyle") (js "help") in
  let p := with_doc (with_orig p u) d in
  let total := total_bandwidth p in
  let! d := update d (js "qos_enabled") (set_checked (qp_enabled p && Num.gtb (toNumber total) (Int 0))) in
  let! d := update d (js "total_bandwidth") (set_value (bandwidth_text total)) in
  let! p := init_classtable (with_doc p d) in
  let! p := update_classtable p in
  let! ruleSections := getAllSectionsOfType u pkg direction_rule in
  let! rows := exn_map (rule_row u (qp_table p)) ruleSections in
  let sorted := sort_rules (zip (map (rule_priority u) ruleSections) rows) in
  let t := createTable (UI (js "Remove")) [DStr (qosStr (js "MatchC")); DStr (qosStr (js "Classn")); DStr (qosStr (js "Comment")); DStr []]
             (map snd sorted) (js "qos_rule_table") true true in
  let p := with_red (with_rules p (Some t)) [] in
  let! d := (if download then
      let! d := (if gets u pkg direction (js "qos_monenabled") =s js "true" then update (qp_doc p) (js "qos_monenabled") (set_checked true)
                 else Ret (qp_doc p)) in
      let! d := load_optional d u (js "ptarget_ip") (js "use_ptarget_ip") currentWanGateway in
      load_optional d u (js "pinglimit") (js "use_auto_pinglimit") (js "Auto")
    else Ret (qp_doc p)) in
  let! p := setQosEnabled (with_doc p d) in
  Ret (with_updates p true false).

(** ** The form of a rule *)
Definition match_controls : list jstr :=
  map js ["ip_family"%string; "source_ip"%string; "source_port"%string; "dest_ip"%string; "dest_port"%string; "max_pktsize"%string;
    "min_pktsize"%string; "transport_protocol"%string; "connbytes_kb"%string; "app_protocol"%string].

Definition control_value (e : element) : exn jstr :=
  if e_type e =s js "text" then Ret (value e)
  else if e_type e =s js "select-one" then let! o := exn_of_option TypeError (selected_option e) in Ret (o_text o)
  else Ret [].

Definition form_text (d : document) : exn jstr :=
  exn_fold (fun text '(id, label) =>
    let! e := el d id in
    let! v := control_value e in
    if e_disabled e then Ret text
    else
      let address := (id =s js "source_ip") || (id =s js "dest_ip") in
      let v := if address && isIPv6 v then ip6_canonical v else v in
      Ret (add_text text (replace_dollar label v))) (zip match_controls displayList) [].

Definition validateQOSIPRangeAndFamily (selfam ipstr : jstr) : Z :=
  let fam := match getIPFamily ipstr with Some IPv6 => js "ipv6" | _ => js "ipv4" end in
  let ret := match getIPFamily ipstr with Some IPv6 => validateIP6Range ipstr | _ => validateIpRange ipstr end in
  if negb (fam =s toLowerCase selfam) then 1 else ret.

Definition rule_fields (selfam : jstr) : list field :=
  let f id check := mkField (js id) (js id ++ js "_label") check 0 (Some (js id)) in
  let size t := validateNumericRange t 1 1500 in
  [f "source_ip"%string (validateQOSIPRangeAndFamily selfam); f "source_port"%string validatePortOrPortRange;
   f "dest_ip"%string (validateQOSIPRangeAndFamily selfam); f "dest_port"%string validatePortOrPortRange;
   f "max_pktsize"%string size; f "min_pktsize"%string size; f "transport_protocol"%string (fun _ => 0);
   f "connbytes_kb"%string (fun t => validateNumericRange t 0 4194393); f "app_protocol"%string (fun _ => 0);
   f "comment_rule"%string (fun t => if t =s [] then 1 else 0)].

(** An address of no family has no method [toLowerCase]. *)
Definition address_families (d : document) : exn unit :=
  exn_fold (fun _ id =>
    let! e := el d id in
    if (e_display e =s js "none") || e_disabled e then Ret tt
    else match getIPFamily (value e) with Some _ => Ret tt | None => Raise TypeError end) [js "source_ip"; js "dest_ip"] tt.

Definition proofreadClassificationRule (d : document) : exn (list jstr * document) :=
  let! enabled := exn_map (fun f => let! e := el d (f_input f) in Ret (negb (e_disabled e))) (rule_fields []) in
  if forallb negb enabled then Ret ([qosStr (js "CrErr")], d)
  else
    let! fam := el d (js "ip_family") in
    let! _u := address_families d in
    proofreadFields UI d (rule_fields (value fam)).

Definition show_errors (p : qos_page) (errors : list jstr) (d : document) (message : jstr) : qos_page :=
  with_doc p (alert d (join newline errors ++ newline ++ newline ++ qosStr message)).

(** The text of the class that is selected. *)
Definition selected_class (d : document) : exn jstr :=
  let! e := el d (js "classification") in
  let! o := exn_of_option TypeError (selected_option e) in Ret (o_text o).

Definition addClassificationRule (p : qos_page) : exn qos_page :=
  let! r := proofreadClassificationRule (qp_doc p) in
  match r with
  | ([], d) =>
      let! text := form_text d in
      let! class := selected_class d in
      let! comment := el d (js "comment_rule") in
      let! t := exn_of_option TypeError (qp_rules p) in
      let t := addTableRow (UI (js "Remove")) t
                 [DStr text; DStr class; createRuleTableCommentButton (value comment); createRuleTableEditButton] true true in
      resetRuleControls (with_doc (with_rules p (Some t)) d)
  | (errors, d) => Ret (show_errors p errors d (js "CsErr"))
  end.

Definition editRuleTableRow (p : qos_page) (id : nat) : exn qos_page :=
  let! r := proofreadClassificationRule (qp_doc p) in
  match r with
  | ([], d) =>
      let! text := form_text d in
      let! class := selected_class d in
      let! comment := el d (js "comment_rule") in
      let! t := exn_of_option TypeError (qp_rules p) in
      let! t := set_datas t id [(0%nat, text); (1%nat, class)] in
      let! r := body_row t id in
      let! r := set_widget 2 (fun w => comment_widget (value comment) (e_disabled comment) (w_class w)) r in
      Ret (with_doc (with_red (with_rules p (Some (set_body_row t id r))) (List.filter (fun i => negb (i =? id)%nat) (qp_red p))) d)
  | (errors, d) => Ret (show_errors p errors d (js "CUErr"))
  end.

(** ** The form of a class *)
Definition class_fields : list field :=
  let f id check := mkField (js id) (js id ++ js "_label") check 0 (Some (js id)) in
  [f "class_name"%string (fun t => validateLengthRange t 1 10); f "percent_bandwidth"%string (fun t => validateNumericRange t 1 100);
   f "max_bandwidth"%string validateNumeric].

Definition proofreadServiceClass (p : qos_page) : exn (list jstr * document) :=
  let! r := proofreadFields UI (qp_doc p) class_fields in
  match r with
  | ([], d) =>
      let! t := exn_of_option TypeError (qp_classes p) in
      let! data := getTableDataArray t true false in
      let! name := el d (js "class_name") in
      Ret (if existsb (fun row => datum_is row 0 (value name)) data then [qosStr (js "DCErr")] else [], d)
  | _ => Ret r
  end.

Definition checked (d : document) (id : jstr) : exn bool := let! e := el d id in Ret (e_checked e).
Definition value_of (d : document) (id : jstr) : exn jstr := let! e := el d id in Ret (value e).

(** The bandwidths of the form: the least and the greatest. *)
Definition form_bandwidths (d : document) : exn (jstr * jstr) :=
  let! nomin := checked d (js "min_radio1") in
  let! min := value_of d (js "min_bandwidth") in
  let! nomax := checked d (js "max_radio1") in
  let! max := value_of d (js "max_bandwidth") in
  Ret (if nomin then qosStr (js "ZERO") else min, if nomax then qosStr (js "NOLIMIT") else max).

(** The new entry of [classTable] has its share with the percent sign and its two
    bandwidths exchanged; the row is right. *)
Definition addServiceClass (p : qos_page) : exn qos_page :=
  let! r := proofreadServiceClass p in
  match r with
  | ([], d) =>
      let! name := value_of d (js "class_name") in
      let! percent := value_of d (js "percent_bandwidth") in
      let! bw := form_bandwidths d in
      let! rtt := (if download then let! b := checked d (js "rtt_radio1") in Ret (if b then qosStr (js "YES") else []) else Ret []) in
      let classRow := mkClass name (percent ++ js "%") (snd bw) (fst bw) rtt None None NaN in
      let classTable := qp_table p ++ [classRow] in
      let rowData := map DStr ([name; percent ++ js "%"; fst bw; snd bw] ++ (if download then [rtt] else []) ++ [js "*"])
                     ++ [createClassTableEditButton (zlen classTable - 1)] in
      let! d := add_class_option d name in
      let! t := exn_of_option TypeError (qp_classes p) in
      let t := addTableRow (UI (js "Remove")) t rowData true false in
      resetServiceClassControls (with_doc (with_updates (with_table (with_classes p (Some t)) classTable) false (qp_busy p)) d)
  | (errors, d) => Ret (show_errors p errors d (js "SvErr"))
  end.

(** The rows of the rules whose class has a name. *)
Definition rows_of_class (t : table) (name : jstr) : exn (list nat) :=
  let! data := getTableDataArray t true true in
  Ret (map fst (List.filter (fun x => datum_is (snd x) 1 name) (zip (map r_id (t_body t)) data))).

(** The button that removes a class; the last one comes back. *)
Definition removeServiceClass (p : qos_page) (id : nat) : exn qos_page :=
  let! t := exn_of_option TypeError (qp_classes p) in
  let! row := body_row t id in
  let! t := removeThisCellsRow t id in
  if num_rows t =? 1 then
    Ret (with_doc (with_classes p (Some (mkTable (t_id t) (js "block") (t_head t) (t_body t ++ [row]) (t_next t))))
           (alert (qp_doc p) (qosStr (js "RemSCErr"))))
  else
    let! name := get_data row 0 in
    let name := default [] name in
    let! d := removeOptionFromSelectElement (qp_doc p) (js "default_class") name in
    let! d := removeOptionFromSelectElement d (js "classification") name in
    let! rules := exn_of_option TypeError (qp_rules p) in
    let! ids := rows_of_class rules name in
    Ret (with_updates (with_red (with_doc (with_classes p (Some t)) d) (ids ++ qp_red p)) false (qp_busy p)).

(** The options of a list with a text get another one. *)
Definition rename_options (old new : jstr) (e : element) : element :=
  set_options (map (fun o => if o_text o =s old then mkOpt new (o_value o) else o) (e_options e)) (e_selectedIndex e) e.

(** The rules follow the new name, which a removed class may have had. *)
Definition rename_rules (p : qos_page) (old new : jstr) : exn qos_page :=
  let! t := exn_of_option TypeError (qp_rules p) in
  let! olds := rows_of_class t old in
  let! news := rows_of_class t new in
  let! t := exn_fold (fun t id => set_data t id 1 new) olds t in
  Ret (with_red (with_rules p (Some t)) (List.filter (fun i => negb (bool_decide (i ∈ news))) (qp_red p))).

Definition editClassTableRow (p : qos_page) (id : nat) : exn qos_page :=
  let! r := proofreadServiceClass p in
  let '(errors, d) := r in
  let! t := exn_of_option TypeError (qp_classes p) in
  let! row := body_row t id in
  let! old := get_data row 0 in
  let oldClassName := default [] old in
  let! newClassName := value_of d (js "class_name") in
  match (if bool_decide (errors = [qosStr (js "DCErr")]) && (newClassName =s oldClassName) then [] else errors) with
  | [] =>
      let! p := (if newClassName =s oldClassName then Ret (with_doc p d)
                 else
                   let! d := update d (js "default_class") (rename_options oldClassName newClassName) in
                   let! d := update d (js "classification") (rename_options oldClassName newClassName) in
                   rename_rules (with_doc p d) oldClassName newClassName) in
      let! button := cell_widget row (if download then 6 else 5) in
      let! percent := value_of d (js "percent_bandwidth") in
      let! bw := form_bandwidths d in
      let! rtt := checked d (js "rtt_radio1") in
      let rtt := if rtt then qosStr (js "YES") else [] in
      let! i := (match toNumber (w_id button) with Dec z 0 => if z <? 0 then Raise TypeError else Ret (Z.to_nat z) | _ => Raise TypeError end) in
      let! c := exn_of_option TypeError (qp_table p !! i) in
      let c := mkClass newClassName percent (fst bw) (snd bw) rtt (ci_bytes c) (ci_leaf c) (ci_bps c) in
      let! t := exn_of_option TypeError (qp_classes p) in
      let! t := set_datas t id [(0%nat, newClassName); (1%nat, percent ++ js "%"); (2%nat, fst bw); (3%nat, snd bw); (4%nat, rtt)] in
      Ret (with_updates (with_table (with_classes p (Some t)) (<[i := c]> (qp_table p))) true false)
  | errors => Ret (show_errors p errors d (js "SUErr"))
  end.

(** ** Windows *)
Definition updateIPControls (d : document) (triggerEl : jstr) : exn document :=
  let! sel := el d triggerEl in
  exn_fold (fun d id =>
    let! d := update d (js "use_" ++ id) (fun e => if value sel =s js "any" then set_disabled true (set_checked false e) else set_disabled false e) in
    enableAssociatedField d (js "use_" ++ id) id []) [js "source_ip"; js "dest_ip"] d.

Definition addRuleModal (p : qos_page) : exn qos_page := resetRuleControls p.

(** One criterion of the row is put in its field. *)
Definition fill_control (d : document) (x : jstr * jstr) : exn document :=
  let '(id, v) := x in
  let! e := el d id in
  let use := js "use_" ++ id in
  let! d := (if v =s [] then Ret d
             else if e_type e =s js "text" then update d id (set_value v)
             else if e_type e =s js "select-one" then setSelectedText d id v else Ret d) in
  match getElementById d use with
  | None => Ret d
  | Some _ => let! d := update d use (set_checked (negb (v =s []))) in enableAssociatedField d use id []
  end.

(** A comment that is shown makes the handler use a variable that is not defined. *)
Definition editRuleModal (p : qos_page) (id : nat) : exn qos_page :=
  let! t := exn_of_option TypeError (qp_rules p) in
  let! row := body_row t id in
  let! w := cell_widget row 2 in
  if comment_shown w then Raise ReferenceError
  else
    let d := qp_doc p in
    let! def := el d (js "default_class") in
    let! d := update d (js "classification") removeAllOptionsFromSelectElement in
    let! d := exn_fold (fun d o => addOptionToSelectElement d (js "classification") (o_text o) (o_text o) None) (e_options def) d in
    let! text := get_data row 0 in
    let! text := exn_of_option TypeError text in
    let! criteria := parseRuleMatchCriteria text in
    let! d := exn_fold fill_control (zip (match_controls ++ [js "comment_rule"]) (criteria ++ [w_html w])) d in
    let! class := get_data row 1 in
    let! d := setSelectedText d (js "classification") (default [] class) in
    let! d := updateIPControls d (js "ip_family") in
    Ret (with_doc p d).

Definition addClassModal (p : qos_page) : exn qos_page := resetServiceClassControls p.

(** A bandwidth of the row is put in its field, with the button that says there is one. *)
Definition fill_bandwidth (d : document) (radio field v unset : jstr) : exn document :=
  if v =s unset then Ret d
  else
    let! d := update d radio (set_checked true) in
    let! d := enableAssociatedField d radio field [] in
    update d field (set_value v).

(** Once no update is in progress. *)
Definition editClassModal (p : qos_page) (id : nat) : exn qos_page :=
  let! p := resetServiceClassControls (with_updates p false true) in
  let! t := exn_of_option TypeError (qp_classes p) in
  let! row := body_row t id in
  let data i := let! v := get_data row i in exn_of_option TypeError v in
  let! name := data 0%nat in
  let! percent := data 1%nat in
  let! min := data 2%nat in
  let! max := data 3%nat in
  let! rtt := data 4%nat in
  let! d := update (qp_doc p) (js "class_name") (set_value name) in
  let! d := update d (js "percent_bandwidth") (set_value (substr percent 0 (zlen percent - 1))) in
  let! d := fill_bandwidth d (js "min_radio2") (js "min_bandwidth") min (qosStr (js "ZERO")) in
  let! d := fill_bandwidth d (js "max_radio2") (js "max_bandwidth") max (qosStr (js "NOLIMIT")) in
  let! d := update d (if rtt =s qosStr (js "YES") then js "rtt_radio1" else js "rtt_radio2") (set_checked true) in
  Ret (with_doc p d).

(** The window is closed without a button. *)
Definition class_window_closed (p : qos_page) : qos_page := with_updates p true false.

(** ** The load of the classes *)
Definition re_leafs : re := Eval vm_compute in rx "hfsc\s1:[0-9]{1,2}\s.+leaf.+\n.+Sent\s[0-9]+".
Definition re_minor : re := Eval vm_compute in rx "hfsc\s1:([0-9]+)".
Definition re_sent : re := Eval vm_compute in rx "Sent\s([0-9]+)".
Definition re_leaf : re := Eval vm_compute in rx "leaf\s([0-9a-f]*)".

Definition capture1 (r : re) (s : jstr) : exn jstr :=
  let! m := exn_of_option TypeError (exec r s) in exn_of_option TypeError (find_cap 1 (m_caps m)).

(** The bits in a second since the last answer, of [ms] milliseconds before. *)
Definition bits_per_second (bytes last : jstr) (ms : Z) : num :=
  match parseInt bytes, parseInt last with
  | Dec a 0, Dec b 0 => if ms =? 0 then NaN else Int (Z.quot ((a - b) * 8000) ms)
  | _, _ => NaN
  end.

Definition tc_line (ms : Z) (classTable : list classinfo) (line : jstr) : exn (list classinfo) :=
  let! minor := capture1 re_minor line in
  match parseInt minor with
  | Dec z 0 =>
      let idx := z - 2 in
      if idx <? zlen classTable then
        let! c := exn_of_option TypeError (if idx <? 0 then None else classTable !! Z.to_nat idx) in
        let! bytes := capture1 re_sent line in
        let! leaf := capture1 re_leaf line in
        let bps := match ci_bytes c with Some last => bits_per_second bytes last ms | None => NaN end in
        Ret (<[Z.to_nat idx := mkClass (ci_Name c) (ci_Percent c) (ci_MinBW c) (ci_MaxBW c) (ci_MinRTT c) (Some bytes) (Some leaf) bps]> classTable)
      else Ret classTable
  | _ => Ret classTable
  end.

(** The answer to the request of [updatetc]. *)
Definition tc_answer (p : qos_page) (ms : Z) (responseText : jstr) : exn qos_page :=
  let! classTable := exn_fold (tc_line ms) (match_all re_leafs responseText) (qp_table p) in
  let! p := update_classtable (with_table p classTable) in
  Ret (with_updates p (qp_dynamic p) false).

Definition re_ids : re := Eval vm_compute in rx "ID\s+[0-9A-F]+.*".
Definition re_id : re := Eval vm_compute in rx "ID\s+([0-9A-F]+)".
Definition re_id_bps : re := Eval vm_compute in rx "ID\s+[0-9A-F]+.*:\s([0-9]+)".

Definition set_bps (bps : num) (c : classinfo) : classinfo :=
  mkClass (ci_Name c) (ci_Percent c) (ci_MinBW c) (ci_MaxBW c) (ci_MinRTT c) (ci_bytes c) (ci_leaf c) bps.

(** The first class with a leaf of the monitor. *)
Fixpoint set_leaf_bps (leafID : jstr) (bps : exn num) (l : list classinfo) : exn (list classinfo) :=
  match l with
  | [] => Ret []
  | c :: l' =>
      if bool_decide (toUpperCase <$> ci_leaf c = Some leafID) then let! n := bps in Ret (set_bps n c :: l')
      else let! r := set_leaf_bps leafID bps l' in Ret (c :: r)
  end.

Definition monitor_line (classTable : list classinfo) (line : jstr) : exn (list classinfo) :=
  let! leafID := capture1 re_id line in
  set_leaf_bps leafID (let! n := capture1 re_id_bps line in Ret (parseInt n)) classTable.

(** The answer to the request of [updateqosmon]; the texts of the status are not
    represented. *)
Definition monitor_answer (p : qos_page) (responseText : jstr) : exn qos_page :=
  let line0 := default [] (head (split_char 10 responseText)) in
  let! p := (if substr line0 0 6 =s js "State:" then
               match match_all re_ids responseText with
               | [] => Raise TypeError
               | lines =>
                   let! classTable := exn_fold monitor_line lines (qp_table p) in
                   if qp_dynamic p then update_classtable (with_table p classTable) else Ret (with_table p classTable)
               end
             else Ret p) in
  Ret (with_updates p (qp_dynamic p) false).

(** The commands that are sent; none while an answer is awaited. *)
Definition updatetc (currentWanName : jstr) (p : qos_page) : option (qos_page * jstr) :=
  if negb (qp_busy p) && qp_dynamic p then
    Some (with_updates p (qp_dynamic p) true, js "tc -s class show dev " ++ (if download then js "ifb0" else currentWanName))
  else None.

Definition updateqosmon (p : qos_page) : option (qos_page * jstr) :=
  if negb (qp_busy p) then Some (with_updates p (qp_dynamic p) true, js "cat /tmp/qosmon.status 2>/dev/null") else None.

Definition resetFairLinkLimit : jstr := js "kill -SIGUSR1 $(pidof qosmon)".

(** ** Colours of the fields *)
Definition proofreadQOSIPRange (triggerEl : input_element) : input_element :=
  if isIPv6 (in_value triggerEl) then proofreadIp6Range triggerEl else proofreadIpRange triggerEl.
Definition proofreadQOSIP (triggerEl : input_element) : input_element :=
  if isIPv6 (in_value triggerEl) then proofreadIp6 triggerEl else proofreadIp triggerEl.

(** ** Saving *)
Definition quota_marks : list jstr :=
  [js "exceeded_up_speed"; js "exceeded_down_speed"; js "exceeded_up_class_mark"; js "exceeded_down_class_mark"].

Definition qosQuotasExist (u : UCIContainer) : exn bool :=
  let! quotaSections := getAllSectionsOfType u (js "firewall") (js "quota") in
  Ret (existsb (fun s => existsb (fun o => negb (gets u (js "firewall") s o =s [])) quota_marks) quotaSections).

Definition set_opt (u : UCIContainer) (section option v : jstr) : UCIContainer := set u pkg section option (UStr v) false.

(** An option with a check box. *)
Definition store_optional (d : document) (u : UCIContainer) (option use : jstr) : exn UCIContainer :=
  let! c := checked d use in
  if c then let! v := value_of d option in Ret (set_opt u direction option v) else Ret (fst (remove u pkg direction option)).

Definition store_monitor (d : document) (u : UCIContainer) : exn UCIContainer :=
  let! mon := checked d (js "qos_monenabled") in
  let u := set_opt u direction (js "qos_monenabled") (if mon then js "true" else js "false") in
  let! u := store_optional d u (js "ptarget_ip") (js "use_ptarget_ip") in
  store_optional d u (js "pinglimit") (js "use_auto_pinglimit").

(** The sections of a type are removed from the last to the first, from both
    settings. *)
Definition remove_type (st : UCIContainer * UCIContainer * list jstr) (type : jstr) : exn (UCIContainer * UCIContainer * list jstr) :=
  let '(uci, orig, commands) := st in
  let! sections := getAllSectionsOfType orig pkg type in
  exn_fold (fun '(uci, orig, commands) s =>
    let! orig := removeSection orig pkg s in
    let! uci := removeSection uci pkg s in
    Ret (uci, orig, commands ++ [js "uci del " ++ pkg ++ js "." ++ s])) (rev sections) (uci, orig, commands).

Definition class_id (i : nat) : jstr := toLowerCase (substr direction 0 1) ++ js "class_" ++ str_of_Z (Z.of_nat (S i)).

(** The share of a class in percent, at least one. *)
Definition saved_percent (percent : jstr) (percentSum : num) : num :=
  let r := share (toNumber percent) percentSum in if Num.ltb r (Int 1) then Int 1 else r.

Definition save_class (percentSum : num) (u : UCIContainer) (x : nat * list datum) : exn UCIContainer :=
  let '(i, row) := x in
  let id := class_id i in
  let! name := datum_str row 0 in
  let! percent := datum_str row 1 in
  let u := set_opt u id [] direction_class in
  let u := set_opt u id (js "name") name in
  let u := set_opt u id (js "percent_bandwidth") (num_text (saved_percent (substr percent 0 (zlen percent - 1)) percentSum)) in
  let! min := datum_str row 2 in
  let u := if min =s qosStr (js "ZERO") then u else set_opt u id (js "min_bandwidth") min in
  let! max := datum_str row 3 in
  let u := if max =s qosStr (js "NOLIMIT") then u else set_opt u id (js "max_bandwidth") max in
  Ret (if datum_is row 4 (qosStr (js "YES")) then set_opt u id (js "minRTT") (js "Yes") else u).

(** [classIds[name]], the last class of a name. *)
Definition class_id_of (classData : list (list datum)) (name : jstr) : jstr :=
  fold_left (fun id '(i, row) => if datum_is row 0 name then class_id i else id) (imap (fun i row => (i, row)) classData) (js "undefined").

Definition percent_sum (classData : list (list datum)) : exn num :=
  exn_fold (fun n row => let! p := datum_str row 1 in Ret (Num.add n (toNumber (substr p 0 (zlen p - 1))))) classData (Int 0).

Definition stored_value (option v : jstr) : jstr :=
  if option =s js "proto" then toLowerCase v
  else if option =s js "family" then toLowerCase (if v =s UI (js "both") then js "any" else v)
  else v.

(** [getL7ID]: the first protocol of a description. *)
Definition protocol_id (desc : jstr) : option jstr := fst <$> List.find (fun x => snd x =s desc) protocolMap.

Definition save_rule (classData : list (list datum)) (default_class : jstr) (red : list nat) (u : UCIContainer) (x : nat * (nat * list datum)) : exn UCIContainer :=
  let '(i, (rowId, row)) := x in
  let order := str_of_Z (100 * Z.of_nat (S i)) in
  let id := direction_rule ++ js "_" ++ order in
  let! class := datum_str row 1 in
  let classId := class_id_of classData (if bool_decide (rowId ∈ red) then default_class else class) in
  let u := set_opt u id [] direction_rule in
  let u := set_opt u id (js "class") classId in
  let u := set_opt u id (js "test_order") order in
  let! text := datum_str row 0 in
  let! criteria := parseRuleMatchCriteria text in
  let! comment := (match row !! 2%nat with Some (DObj w) => Ret (w_html w) | _ => Raise TypeError end) in
  let u := fold_left (fun u '(o, v) => if v =s [] then u else set_opt u id o (stored_value o v))
             (zip (rule_options ++ [js "comment"]) (take 9 criteria ++ [comment])) u in
  let appProtocol := nth 9 criteria [] in
  Ret (if appProtocol =s [] then u
       else match protocol_id appProtocol with Some k => set_opt u id (js "layer7") k | None => u end).

Definition save_tables (p : qos_page) (u : UCIContainer) : exn UCIContainer :=
  let! ct := exn_of_option TypeError (qp_classes p) in
  let! classData := getTableDataArray ct true false in
  let! sum := percent_sum classData in
  let! u := exn_fold (save_class sum) (imap (fun i row => (i, row)) classData) u in
  let! default_class := getSelectedText (qp_doc p) (js "default_class") in
  let u := set_opt u direction (js "default_class") (class_id_of classData default_class) in
  let! rt := exn_of_option TypeError (qp_rules p) in
  let! ruleData := getTableDataArray rt true true in
  exn_fold (save_rule classData default_class (qp_red p)) (imap (fun i x => (i, x)) (zip (map r_id (t_body rt)) ruleData)) u.

Definition bwmon : jstr := js "/usr/lib/bwmon-gargoyle/bwmon-gargoyle.d/020-qos.bwmon ".
Definition bwmon_clean (dir : jstr) : jstr :=
  js "if [ -d " ++ dir ++ js " ] ; then rm " ++ dir ++ js "qos-" ++ direction ++ js "-* >/dev/null 2>&1 ; fi ;" ++ newline.
Definition restart_bwmon : jstr :=
  bwmon ++ js "stop ;" ++ newline ++ newline ++ bwmon_clean (js "/usr/data/bwmon/") ++ bwmon_clean (js "/tmp/data/bwmon/") ++ bwmon ++ js "start ;" ++ newline.
Definition restart_firewall : jstr := js "sh /usr/lib/gargoyle/restart_firewall.sh ;" ++ newline.

(** What saving does: a message, or commands and the new settings. *)
Inductive qos_save := SaveError (p : qos_page) | SaveSent (p : qos_page) (uci : UCIContainer) (commands : jstr).

Definition saveChanges (p : qos_page) : exn qos_save :=
  let d := qp_doc p in
  let! uci := clone (qp_orig p) in
  let! uci := (if download then store_monitor d uci else Ret uci) in
  let! on := checked d (js "qos_enabled") in
  let other := if direction =s js "upload" then js "download" else js "upload" in
  let alternate := gets (qp_orig p) pkg other (js "total_bandwidth") in
  let switching := negb (Bool.eqb (on || negb (alternate =s [])) (qp_enabled p)) in
  let! quotas := qosQuotasExist (qp_orig p) in
  if negb on then
    let stop := qp_enabled p && (alternate =s []) in
    let uci := if stop then fst (remove uci (js "gargoyle") (js "status") (js "qos")) else uci in
    let commands := if stop then js "/etc/init.d/qos_gargoyle stop" ++ newline ++ js "/etc/init.d/qos_gargoyle disable" ++ newline
                    else js "/etc/init.d/qos_gargoyle start" ++ newline in
    let uci := fst (remove uci pkg direction (js "total_bandwidth")) in
    let p := if stop then with_enabled p false else p in
    Ret (SaveSent p uci (getScriptCommands uci (qp_orig p) ++ newline ++ commands
           ++ (if switching && quotas then restart_firewall else restart_bwmon)))
  else
    let! total := value_of d (js "total_bandwidth") in
    if negb (validateNumeric total =? 0) then Ret (SaveError (with_doc p (alert d (qosStr (js "TotErr")))))
    else
      let uci := set uci (js "gargoyle") (js "status") (js "qos") (UStr (js "300")) false in
      let! st := remove_type (uci, qp_orig p, []) direction_rule in
      let! st := remove_type st direction_class in
      let '(uci, orig, preCommands) := st in
      let uci := set_opt uci direction (js "total_bandwidth") total in
      let! uci := save_tables p uci in
      let! quotas := qosQuotasExist orig in
      let head := join newline (preCommands ++ [js "uci commit"]) ++ newline ++ getScriptCommands uci orig ++ newline in
      let commands :=
        if switching && quotas then head ++ newline ++ js "/etc/init.d/qos_gargoyle enable ;" ++ newline ++ restart_firewall
        else head ++ newline ++ js "/etc/init.d/qos_gargoyle start ;" ++ newline ++ js "/etc/init.d/qos_gargoyle enable ;" ++ newline ++ restart_bwmon in
      Ret (SaveSent (with_enabled (with_orig p orig) true) uci commands).

(** The answer to the request. *)
Definition saved (p : qos_page) (uci : UCIContainer) : exn qos_page :=
  let! u := clone uci in resetData (with_orig p u).

End Strings.
End Qos.
