(* ===== verification/QosText.v ===== *)
(** * Texts of criteria

    Expressions made of a label and a captured value, and lists with a comma and a
    blank between their pieces. *)
From S2P Require Import Prelude JsNum JsString JsRegex.
Open Scope Z_scope.

(** ** Literal text before an expression *)
Fixpoint lit (s : jstr) (r : re) : re :=
  match s with [] => r | c :: s' => RSeq (RSet false [(c, c)]) (lit s' r) end.

Lemma rmatch_lit s r pre t c k : rmatch (lit s r) pre (s ++ t) c k = rmatch r (rev s ++ pre) t c k.
Proof.
  revert pre. induction s as [|x s IH]; intros pre; [done|]. cbn [lit app]. cbn [rmatch]. rewrite in_set_chr_eqb, Z.eqb_refl, IH.
  cbn [rev]. by rewrite <-app_assoc.
Qed.

Lemma rmatch_lit_None s r pre t c k : is_prefix s t = false → rmatch (lit s r) pre t c k = None.
Proof.
  revert pre t. induction s as [|x s IH]; intros pre t; [cbn; discriminate|]. destruct t as [|y t]; [done|]. cbn [lit is_prefix]. cbn [rmatch].
  rewrite in_set_chr_eqb, (Z.eqb_sym y x). destruct (x =? y); [|done]. apply IH.
Qed.

Lemma search_lit_None s r pre t : (∀ a b, t ≠ a ++ s ++ b) → search (lit s r) pre t = None.
Proof.
  assert (Hstep : ∀ t pre, (∀ b, t ≠ s ++ b) → exec_at (lit s r) pre t = None).
  { intros u q Hu. apply rmatch_lit_None. apply not_true_iff_false. rewrite is_prefix_iff. intros [b ->]. by apply (Hu b). }
  revert pre. induction t as [|x t IH]; intros pre Ht.
  - unfold search. rewrite Hstep; [done|]. intros b. apply (Ht [] b).
  - assert (He : exec_at (lit s r) pre (x :: t) = None) by (apply Hstep; intros b; apply (Ht [] b)).
    change (search (lit s r) pre (x :: t)) with
      (match exec_at (lit s r) pre (x :: t) with
       | Some (_, suf', c) => Some {| m_pre := pre; m_str := take (length (x :: t) - length suf')%nat (x :: t); m_post := suf'; m_caps := c |}
       | None => search (lit s r) (x :: pre) t end).
    rewrite He. apply IH. intros a b E. apply (Ht (x :: a) b). by rewrite E.
Qed.

(** ** The greedy group *)
Definition dot : re := RSet true [(10, 10); (13, 13); (8232, 8233)].
Definition group : re := RGrp 1 (RRep 0 None dot).
Definition no_newline (s : jstr) : Prop := Forall (fun c => in_set true [(10, 10); (13, 13); (8232, 8233)] c = true) s.

Lemma rep_dot_None n pre t c k : (∀ v w, t = v ++ w → k (rev v ++ pre) w c = None) → rep_opt (rmatch dot) n pre t c k = None.
Proof.
  revert pre t. induction n as [|n IH]; intros pre t Hk; [by apply (Hk [])|]. cbn [rep_opt]. apply orelse_None. split; [|by apply (Hk [])].
  destruct t as [|x t]; [done|]. unfold dot. cbn [rmatch]. destruct (in_set _ _ x); [|done].
  rewrite bool_decide_true by (cbn; lia). apply IH. intros v w ->. specialize (Hk (x :: v) w eq_refl). cbn [rev] in Hk. by rewrite <-app_assoc in Hk.
Qed.

(** The longest part after which the rest matches. *)
Lemma rep_dot_longest v n pre w c k res : no_newline v → (length (v ++ w) <= n)%nat →
  k (rev v ++ pre) w c = Some res → (∀ v' w', w = v' ++ w' → v' ≠ [] → k (rev (v ++ v') ++ pre) w' c = None) →
  rep_opt (rmatch dot) n pre (v ++ w) c k = Some res.
Proof.
  intros Hv. revert n pre. induction Hv as [|x v Hx _ IH]; intros n pre Hn Hk Hno.
  - cbn [app rev] in *. destruct n as [|n]; [done|]. cbn [rep_opt].
    assert (H0 : rmatch dot pre w c (fun pre' suf' c' => if bool_decide (length suf' < length w)%nat then rep_opt (rmatch dot) n pre' suf' c' k else None) = None).
    { destruct w as [|y w]; [done|]. unfold dot. cbn [rmatch]. destruct (in_set _ _ y); [|done]. rewrite bool_decide_true by (cbn; lia).
      apply rep_dot_None. intros v' w' ->. specialize (Hno (y :: v') w' eq_refl). cbn [rev] in Hno. rewrite <-app_assoc in Hno. by apply Hno. }
    rewrite H0. exact Hk.
  - destruct n as [|n]; [cbn in Hn; lia|]. cbn [rep_opt app]. unfold dot at 1. cbn [rmatch]. rewrite Hx. rewrite bool_decide_true by (cbn; lia).
    change (RSet true [(10, 10); (13, 13); (8232, 8233)]) with dot. rewrite (IH n (x :: pre)); [done|cbn in Hn; lia| |].
    + cbn [rev] in Hk. by rewrite <-app_assoc in Hk.
    + intros v' w' -> Hne. specialize (Hno v' w' eq_refl Hne). cbn [app rev] in Hno. by rewrite <-app_assoc in Hno.
Qed.

(** The group before a literal text that ends the text: it captures what is before. *)
Definition ending (s : jstr) : re := seq_of (map RChr s).

Lemma rmatch_ending s pre t c k : rmatch (ending s) pre (s ++ t) c k = k (rev s ++ pre) t c.
Proof.
  revert pre. induction s as [|x s IH]; intros pre; [done|]. destruct s as [|y s].
  - unfold ending. cbn [map seq_of RChr app rmatch]. by rewrite in_set_chr_eqb, Z.eqb_refl.
  - change (ending (x :: y :: s)) with (RSeq (RChr x) (ending (y :: s))). change ((x :: y :: s) ++ t) with (x :: (y :: s) ++ t).
    unfold RChr. cbn [rmatch]. rewrite in_set_chr_eqb, Z.eqb_refl, IH. cbn [rev]. by rewrite <-!app_assoc.
Qed.

Lemma rmatch_ending_None s pre t c k : is_prefix s t = false → rmatch (ending s) pre t c k = None.
Proof.
  revert pre t. induction s as [|x s IH]; intros pre t; [cbn; discriminate|]. destruct t as [|z t]; [by destruct s|]. cbn [is_prefix].
  destruct s as [|y s].
  - unfold ending. cbn [map seq_of RChr rmatch]. rewrite in_set_chr_eqb, (Z.eqb_sym z x). by destruct (x =? z).
  - change (ending (x :: y :: s)) with (RSeq (RChr x) (ending (y :: s))). unfold RChr. cbn [rmatch].
    rewrite in_set_chr_eqb, (Z.eqb_sym z x). destruct (x =? z); [|done]. apply IH.
Qed.

Definition grouped (unit : jstr) : re := seq_of (group :: map RChr unit).

Lemma rmatch_group pre v s c : no_newline v →
  rmatch (grouped s) pre (v ++ s) c (fun p q c => Some (p, q, c)) = Some (rev s ++ rev v ++ pre, [], (1%nat, v) :: c).
Proof.
  intros Hv. destruct s as [|x s].
  - unfold grouped, group. cbn [map seq_of rmatch]. cbn [rep_min]. apply rep_dot_longest; [done|done| |].
    + by rewrite take_app_diff.
    + intros v' w' E Hne. symmetry in E. by apply app_eq_nil in E as [-> _].
  - change (grouped (x :: s)) with (RSeq group (ending (x :: s))). unfold group. cbn [rmatch]. cbn [rep_min]. apply rep_dot_longest; [done|done| |].
    + pose proof (rmatch_ending (x :: s) (rev v ++ pre) [] ((1%nat, take (length (v ++ x :: s) - length (x :: s))%nat (v ++ x :: s)) :: c) (fun p q c => Some (p, q, c))) as Hm.
      rewrite app_nil_r in Hm. rewrite Hm. by rewrite take_app_diff.
    + intros v' w' E Hne. apply rmatch_ending_None. apply not_true_iff_false. rewrite is_prefix_iff. intros [b E'].
      apply (f_equal length) in E, E'. rewrite length_app in E, E'. destruct v'; [done|cbn in E, E'; lia].
Qed.

(** ** A label and a value *)

(** The expression of a label and a unit that may be empty. *)
Definition label_re (l unit : jstr) : re := lit (l ++ [58; 32]) (grouped unit).

Definition labelled (l unit v : jstr) : jstr := l ++ [58; 32] ++ v ++ unit.

(** What is no symbol of the syntax of expressions. *)
Definition plain (c : Z) : bool := negb (existsb (Z.eqb c) [36; 40; 41; 42; 43; 46; 63; 91; 92; 94; 123; 124]).

Ltac plain_cases c H :=
  let E := fresh in assert (E : forall x, x ∈ [36; 40; 41; 42; 43; 46; 63; 91; 92; 94; 123; 124] -> (c =? x) = false)
    by (intros ? ?; apply Z.eqb_neq; intros ->; revert H; unfold plain; rewrite negb_true_iff;
        rewrite (proj2 (existsb_exists _ _)); [done|]; eexists; split; [by apply list_elem_of_In|apply Z.eqb_refl]);
  rewrite ?(E 36), ?(E 40), ?(E 41), ?(E 42), ?(E 43), ?(E 46), ?(E 63), ?(E 91), ?(E 92), ?(E 94), ?(E 123), ?(E 124) by set_solver.

Definition plain_head (s : jstr) : Prop := match s with [] => True | c :: _ => plain c = true end.

Lemma quantifier_plain r s : plain_head s → parse_quantifier r s = Some (r, s).
Proof. destruct s as [|c s]; [done|]. intros H. unfold plain_head in H. unfold parse_quantifier. by plain_cases c H. Qed.

Lemma parse_plain l f n acc s : Forall (fun c => plain c = true) l → (s = [] ∨ s = 40 :: 46 :: 42 :: 41 :: drop 4 s) →
  parse_disj (length l + f) n acc (l ++ s) = parse_disj f n (rev (map RChr l) ++ acc) s.
Proof.
  intros Hl Hs. revert acc. induction Hl as [|c l Hc Hl IH]; intros acc; [done|]. cbn [length app Nat.add map rev].
  cbn [parse_disj]. plain_cases c Hc. cbn [orb].
  assert (Hq : parse_quantifier (RChr c) (l ++ s) = Some (RChr c, l ++ s)).
  { destruct l as [|d l]; [|apply quantifier_plain; by inversion Hl]. cbn [app]. destruct Hs as [E|E]; rewrite E; reflexivity. }
  rewrite Hq, IH. by rewrite <-app_assoc.
Qed.

Lemma seq_lit l r rs : seq_of (map RChr l ++ r :: rs) = lit l (seq_of (r :: rs)).
Proof.
  induction l as [|c l IH]; [done|]. cbn [map app lit]. rewrite <-IH. by destruct l.
Qed.

(** The expressions of the page are those of their labels. *)
Lemma parse_label l unit : Forall (fun c => plain c = true) l → Forall (fun c => plain c = true) unit →
  parse_re (l ++ js ": (.*)" ++ unit) = Some (label_re l unit).
Proof.
  intros Hl Hu. unfold parse_re. set (t := 40 :: 46 :: 42 :: 41 :: unit).
  assert (E : l ++ js ": (.*)" ++ unit = (l ++ [58; 32]) ++ t) by (by rewrite <-app_assoc). rewrite E.
  assert (El : S (length ((l ++ [58; 32]) ++ t)) = Nat.add (length (l ++ [58; 32])) (S (S (S (length unit + 2)%nat))))
    by (rewrite (length_app _ t); unfold t; cbn [length]; lia).
  rewrite El, parse_plain; [|apply Forall_app; split; [done|by repeat constructor]|by right].
  assert (Hg : parse_disj (S (S (S (length unit + 2)))) 1 (rev (map RChr (l ++ [58; 32])) ++ []) t =
    parse_disj (S (S (length unit + 2))) 2 (group :: rev (map RChr (l ++ [58; 32])) ++ []) unit).
  { unfold t. set (a := rev _ ++ []). set (f := (length unit + 2)%nat).
    assert (Hi : parse_disj (S (S f)) 2 [] (46 :: 42 :: 41 :: unit) = Some (RRep 0 None dot, 2%nat, 41 :: unit)) by reflexivity.
    change (parse_disj (S (S (S f))) 1 a (40 :: 46 :: 42 :: 41 :: unit)) with
      (match parse_disj (S (S f)) 2 [] (46 :: 42 :: 41 :: unit) with
       | Some (r, n', d :: s3) => if d =? 41 then match parse_quantifier (RGrp 1 r) s3 with
           | Some (q, s'') => parse_disj (S (S f)) n' (q :: a) s'' | None => None end else None
       | _ => None end).
    rewrite Hi. cbn [Z.eqb Pos.eqb]. rewrite quantifier_plain; [done|]. by destruct Hu. }
  rewrite Hg. clear Hg. replace (S (S (length unit + 2))) with (length unit + 4)%nat by lia.
  pose proof (parse_plain unit 4 2 (group :: rev (map RChr (l ++ [58; 32])) ++ []) [] Hu (or_introl eq_refl)) as Hp.
  rewrite (app_nil_r unit) in Hp. rewrite Hp. cbn [parse_disj]. rewrite rev_app_distr. cbn [rev]. rewrite app_nil_r, !rev_involutive, <-app_assoc.
  cbn [app]. by rewrite seq_lit.
Qed.

Lemma exec_labelled l unit v : no_newline v →
  ∃ m, exec (label_re l unit) (labelled l unit v) = Some m ∧ find_cap 1 (m_caps m) = Some v.
Proof.
  intros Hv. unfold exec, labelled. assert (He : exec_at (label_re l unit) [] (l ++ [58; 32] ++ v ++ unit) =
    Some (rev unit ++ rev v ++ rev (l ++ [58; 32]) ++ [], [], [(1%nat, v)])).
  { unfold exec_at, label_re. rewrite app_assoc, rmatch_lit. by apply rmatch_group. }
  destruct (l ++ [58; 32] ++ v ++ unit) as [|x t] eqn:E; [by apply app_eq_nil in E as [_ ?]|].
  change (search (label_re l unit) [] (x :: t)) with
    (match exec_at (label_re l unit) [] (x :: t) with
     | Some (_, suf', c) => Some {| m_pre := []; m_str := take (length (x :: t) - length suf')%nat (x :: t); m_post := suf'; m_caps := c |}
     | None => search (label_re l unit) [x] t end).
  rewrite He. by eexists.
Qed.

(** No colon before a blank. *)
Fixpoint no_colon_blank (s : jstr) : bool :=
  match s with
  | [] => true
  | c :: s' => negb ((c =? 58) && match s' with d :: _ => d =? 32 | [] => false end) && no_colon_blank s'
  end.

Lemma no_colon_blank_app a b : no_colon_blank (a ++ 58 :: 32 :: b) = false.
Proof. induction a as [|x a IH]; [done|]. cbn [app no_colon_blank]. by rewrite IH, andb_false_r. Qed.

(** The only place of a colon before a blank is after the label. *)
Lemma label_place a l l' b t : 58 ∉ l' → no_colon_blank t = true → a ++ (l ++ [58; 32]) ++ b = l' ++ [58; 32] ++ t → l' = a ++ l.
Proof.
  intros Hl Ht E. rewrite <-app_assoc in E. rewrite app_assoc in E. cbn [app] in E. set (q := a ++ l) in *. clearbody q. clear a l.
  revert l' Hl E. induction q as [|x q IH]; intros l' Hl E.
  - destruct l' as [|y l']; [done|]. injection E as <- _. by destruct Hl; left.
  - destruct l' as [|y l'].
    + cbn [app] in E. injection E as -> E. destruct q as [|z q].
      * injection E as E. discriminate E.
      * injection E as -> E. by rewrite <-E, no_colon_blank_app in Ht.
    + injection E as -> E. f_equal. apply IH; [set_solver|done].
Qed.

Lemma exec_other_label l unit l' unit' v : 58 ∉ l' → no_colon_blank (v ++ unit') = true → (∀ a, l' ≠ a ++ l) →
  exec (label_re l unit) (labelled l' unit' v) = None.
Proof.
  intros Hl Hv Hs. apply search_lit_None. intros a b E. unfold labelled in E. symmetry in E.
  apply label_place in E; [by apply (Hs a)|done|done].
Qed.

(** ** Lists with a comma and a blank *)

Definition commas (l : list jstr) : jstr := join [44; 32] l.

(** A piece has no comma and neither begins nor ends with a blank. *)
Definition tidy (p : jstr) : Prop :=
  44 ∉ p ∧ (∃ c s, p = c :: s ∧ is_blank c = false) ∧ (∃ s c, p = s ++ [c] ∧ is_blank c = false).

Lemma exec_sep_solid pre b c s : Forall (fun x => is_blank x = true) b → is_blank c = false → c ≠ 44 → exec_at (sep_re 44) pre (b ++ c :: s) = None.
Proof.
  intros Hb Hc Hn. apply exec_at_None. intros w suf cp E Hm. unfold sep_re in Hm.
  apply mt_seq_iff in Hm as (w1 & w2 & c1 & -> & H1 & H2). apply mt_rep_set_iff in H1 as (H1 & _ & _ & ->); [|done].
  apply mt_seq_iff in H2 as (w3 & w4 & c2 & -> & H2 & _). unfold RChr in H2. apply mt_chr_iff in H2 as [-> _].
  rewrite <-!app_assoc in E. cbn [app] in E. clear -Hb Hc Hn H1 E. change (Forall (fun x => is_blank x = true) w1) in H1. revert w1 H1 E.
  induction Hb as [|x b Hx _ IH]; intros w1 H1 E; destruct H1 as [|y w1 Hy H1]; cbn [app] in E.
  - by injection E as ->.
  - injection E as -> E. congruence.
  - injection E as -> E. done.
  - injection E as -> E. by eapply IH.
Qed.

Lemma exec_sep_comma pre s : (∀ y, head s = Some y → is_blank y = false) → exec_at (sep_re 44) pre (44 :: 32 :: s) = Some (32 :: 44 :: pre, s, []).
Proof.
  intros Hs. destruct s as [|y s]; [reflexivity|]. specialize (Hs y eq_refl). unfold is_blank in Hs.
  unfold exec_at, sep_re, blank_set, RChr. cbn -[in_set].
  change (in_set false [(9, 9); (32, 32)] 44) with false. change (in_set false [(9, 9); (32, 32)] 32) with true.
  change (in_set false [(44, 44)] 44) with true. cbn -[in_set]. rewrite Hs. by rewrite bool_decide_true by lia.
Qed.

(** A non-empty end of a tidy piece begins with blanks and a solid character. *)
Lemma tidy_end p a t : tidy p → p = a ++ t → t ≠ [] → ∃ b c s, t = b ++ c :: s ∧ Forall (fun x => is_blank x = true) b ∧ is_blank c = false ∧ c ≠ 44.
Proof.
  intros (Hc & _ & (q & l & -> & Hl)) E Hne. assert (Hlast : ∃ t', t = t' ++ [l]).
  { destruct t as [|z t] using rev_ind; [done|]. rewrite app_assoc in E. apply app_inj_tail in E as [_ ->]. by exists t. }
  destruct Hlast as [t' ->]. assert (Hn : 44 ∉ t' ++ [l]) by (rewrite E in Hc; set_solver). clear -Hl Hn.
  induction t' as [|x t' IH].
  - exists [], l, []. split_and!; [done|constructor|done|set_solver].
  - destruct (is_blank x) eqn:Ex.
    + destruct IH as (b & c & s & E & Hb & Hcb & Hcn); [set_solver|]. exists (x :: b), c, s. cbn [app]. rewrite E. split_and!; [done|by constructor|done|done].
    + exists [], x, (t' ++ [l]). split_and!; [done|constructor|done|set_solver].
Qed.

Lemma split_from_tidy p f pre acc t rest : tidy p → (∃ a, p = a ++ t) →
  (rest = [] ∨ ∃ s, rest = 44 :: 32 :: s ∧ ∀ y, head s = Some y → is_blank y = false) → (length (t ++ rest) < f)%nat →
  ∃ f' pre', (length rest - 2 < f')%nat ∧ split_from f (sep_re 44) pre acc (t ++ rest) =
    (rev acc ++ t) :: match rest with _ :: _ :: s => split_from f' (sep_re 44) pre' [] s | _ => [] end.
Proof.
  intros Hp Ha Hrest. revert f pre acc Ha. induction t as [|x t IH]; intros f pre acc Ha Hf; (destruct f as [|f]; [cbn in Hf; lia|]).
  - cbn [app] in *. destruct Hrest as [->|(s & -> & Hs)].
    + exists 1%nat, []. split; [cbn; lia|]. cbn [split_from]. by rewrite app_nil_r.
    + exists f, (32 :: 44 :: pre). split; [cbn in *; lia|]. cbn [split_from]. rewrite exec_sep_comma by done.
      rewrite bool_decide_false by (intros [_ ?]; cbn in *; lia). by rewrite app_nil_r.
  - destruct Ha as [a Ea]. destruct (tidy_end p a (x :: t) Hp Ea) as (b & c & s & E & Hb & Hcb & Hcn); [done|].
    cbn [app split_from]. assert (He : exec_at (sep_re 44) pre (x :: t ++ rest) = None).
    { change (x :: t ++ rest) with ((x :: t) ++ rest). rewrite E, <-app_assoc. cbn [app]. by apply exec_sep_solid. }
    rewrite He. destruct (IH f (x :: pre) (x :: acc)) as (f' & pre' & Hf' & Hs).
    + exists (a ++ [x]). by rewrite <-app_assoc.
    + cbn in Hf. lia.
    + exists f', pre'. split; [done|]. rewrite Hs. cbn [rev]. by rewrite <-app_assoc.
Qed.

Lemma tidy_head p l y : Forall tidy (p :: l) → head (commas (p :: l)) = Some y → is_blank y = false.
Proof.
  intros H. inversion_clear H as [|?? (_ & (c & s & -> & Hc) & _) _]. unfold commas. by destruct l; cbn; intros [= <-].
Qed.

Lemma split_from_commas l f pre : l ≠ [] → Forall tidy l → (length (commas l) < f)%nat → split_from f (sep_re 44) pre [] (commas l) = l.
Proof.
  intros Hne Hl. revert f pre. induction Hl as [|p l Hp Hl IH]; intros f pre Hf; [done|]. destruct l as [|q l].
  - unfold commas in *. cbn [join] in *. destruct (split_from_tidy p f pre [] p [] Hp) as (f' & pre' & _ & Hs); [by exists []|by left|by rewrite app_nil_r|].
    rewrite app_nil_r in Hs. by rewrite Hs.
  - change (commas (p :: q :: l)) with (p ++ 44 :: 32 :: commas (q :: l)) in *.
    destruct (split_from_tidy p f pre [] p (44 :: 32 :: commas (q :: l)) Hp) as (f' & pre' & Hf' & ->); [by exists []| |done|].
    + right. eexists. split; [done|]. intros y. by apply tidy_head.
    + cbn [rev app]. f_equal. apply IH; [done|]. cbn [length] in Hf'. lia.
Qed.

(** [split] undoes the list. *)
Lemma split_commas l : l ≠ [] → Forall tidy l → split_re (sep_re 44) (commas l) = l.
Proof.
  intros Hne Hl. unfold split_re. destruct (commas l) as [|x s] eqn:E.
  - destruct l as [|p l]; [done|]. inversion Hl as [|?? (_ & (c & q & -> & _) & _) _]. by destruct l.
  - rewrite <-E. apply split_from_commas; [done|done|]. rewrite E. cbn. lia.
Qed.
