(* ===== verification/QosFacts.v ===== *)
(** * Rules of the QoS pages come back

    The criteria of a rule are kept as a text of labels and values.  When the labels
    of the language pack are plain texts of which none is the end of another,
    [parseRuleMatchCriteria] reads back what was written, and a table of rules that
    is saved is loaded again with the same rows in the same order. *)
From S2P Require Import Prelude JsNum JsString JsRegex Uci UciFacts Backend UciScript Sections Ports Table TableFacts TableEdit Dom Modal Text Qos QosText.
Import Uci Sections Ports Table TableEdit Dom Modal Text Qos.
Open Scope Z_scope.

(** ** Labels *)

(** A label begins with a solid character; commas, colons and symbols of expressions
    are not allowed. *)
Definition plain_text (s : jstr) : bool := forallb (fun c => plain c && negb (c =? 44) && negb (c =? 58)) s.
Definition solid_head (s : jstr) : bool := match s with [] => false | c :: _ => negb (is_blank c) end.
Definition solid_last (s : jstr) : bool := solid_head (rev s).
Definition label_ok (x : jstr * jstr) : bool :=
  plain_text (fst x) && solid_head (fst x) && plain_text (snd x) && ((snd x =s []) || solid_last (snd x)).

Definition is_suffix (l l' : jstr) : bool := is_prefix (rev l) (rev l').

(** No label is the end of another one. *)
Fixpoint apart (ls : list jstr) : bool :=
  match ls with [] => true | l :: r => forallb (fun l' => negb (is_suffix l l') && negb (is_suffix l' l)) r && apart r end.

Section Labels.
Context (qosStr UI : jstr → jstr).

Definition criteria_labels : list (jstr * jstr) :=
  [(UI (js "IPFam"), []); (qosStr (js "Src"), []); (qosStr (js "SrcP"), []); (qosStr (js "Dst"), []); (qosStr (js "DstP"), []);
   (qosStr (js "MaxPktLen"), js " " ++ UI (js "byt")); (qosStr (js "MinPktLen"), js " " ++ UI (js "byt"));
   (qosStr (js "TrProto"), []); (qosStr (js "Connb"), js " " ++ UI (js "KBy")); (qosStr (js "APro"), [])].

Class Labels : Prop := {
  labels_ok : forallb label_ok criteria_labels = true;
  labels_apart : apart (map fst criteria_labels) = true
}.

End Labels.

(** ** The text of criteria *)

(** An absent criterion is the empty text; a value has no comma, no dollar, no line
    break, no blank around it and no colon before a blank. *)
Definition value_ok (unit v : jstr) : bool :=
  (v =s []) || (forallb (fun c => in_set true [(10, 10); (13, 13); (8232, 8233)] c && negb (c =? 44) && negb (c =? 36)) v
                && solid_head v && solid_last v && no_colon_blank (v ++ unit)).

(** The pieces of the text. *)
Definition piece_of (x : (jstr * jstr) * jstr) : list jstr := if snd x =s [] then [] else [labelled (fst (fst x)) (snd (fst x)) (snd x)].
Definition pieces (ls : list (jstr * jstr)) (cs : list jstr) : list jstr := concat (map piece_of (zip ls cs)).
Definition values_ok (ls : list (jstr * jstr)) (cs : list jstr) : Prop := Forall2 (fun l v => value_ok (snd l) v = true) ls cs.

Lemma is_suffix_false l l' : is_suffix l l' = false → ∀ a, l' ≠ a ++ l.
Proof.
  intros H a ->. revert H. unfold is_suffix. rewrite rev_app_distr. apply not_false_iff_true, is_prefix_iff. by eexists.
Qed.

Lemma plain_text_spec s : plain_text s = true ↔ Forall (fun c => plain c = true) s ∧ 44 ∉ s ∧ 58 ∉ s.
Proof.
  unfold plain_text. rewrite forallb_forall. setoid_rewrite <-list_elem_of_In. rewrite Forall_forall. split.
  - intros H. split_and!; [|intros Hin; by apply H in Hin|intros Hin; by apply H in Hin]. intros c Hc%H. by do 2 apply andb_true_iff in Hc as [Hc _].
  - intros (H & H1 & H2) c Hc. rewrite (H c Hc). cbn [andb]. apply andb_true_iff. split; apply negb_true_iff, Z.eqb_neq; by intros ->.
Qed.

Lemma label_ok_spec l u : label_ok (l, u) = true →
  (Forall (fun c => plain c = true) l ∧ 44 ∉ l ∧ 58 ∉ l) ∧ (∃ c s, l = c :: s ∧ is_blank c = false) ∧
  (Forall (fun c => plain c = true) u ∧ 44 ∉ u ∧ 58 ∉ u) ∧ (u = [] ∨ ∃ s c, u = s ++ [c] ∧ is_blank c = false).
Proof.
  unfold label_ok. cbn [fst snd]. intros [[[H1 H2]%andb_true_iff H3]%andb_true_iff H4]%andb_true_iff. apply plain_text_spec in H1, H3.
  split_and!; [apply H1|apply H1|apply H1| |apply H3|apply H3|apply H3|].
  - destruct l as [|c l]; [done|]. exists c, l. split; [done|]. by apply negb_true_iff.
  - apply orb_true_iff in H4 as [->%str_eqb_eq|H4]; [by left|right]. destruct u as [|c u] using rev_ind; [done|]. exists u, c. split; [done|].
    unfold solid_last in H4. rewrite rev_app_distr in H4. by apply negb_true_iff.
Qed.

Lemma value_ok_spec u v : value_ok u v = true → v ≠ [] →
  no_newline v ∧ 44 ∉ v ∧ (∃ s c, v = s ++ [c] ∧ is_blank c = false) ∧ no_colon_blank (v ++ u) = true.
Proof.
  unfold value_ok. rewrite orb_true_iff. intros [->%str_eqb_eq|H] Hv; [done|].
  apply andb_true_iff in H as [[[H1 H2]%andb_true_iff H3]%andb_true_iff H4]. rewrite forallb_forall in H1. setoid_rewrite <-list_elem_of_In in H1.
  split_and!; [| | |done].
  - apply Forall_forall. intros c Hc%H1. by do 2 apply andb_true_iff in Hc as [Hc _].
  - intros Hin%H1. apply andb_true_iff in Hin as [Hin _]. by apply andb_true_iff in Hin as [_ ?].
  - destruct v as [|c v _] using rev_ind; [done|]. exists v, c. split; [done|].
    unfold solid_last in H3. rewrite rev_app_distr in H3. by apply negb_true_iff.
Qed.

(** A piece can stand in a list. *)
Lemma piece_tidy l u v : label_ok (l, u) = true → value_ok u v = true → v ≠ [] → tidy (labelled l u v).
Proof.
  intros ((_ & Hl & _) & (c & s & -> & Hc) & (_ & Hu & _) & Hend)%label_ok_spec Hv Hne.
  destruct (value_ok_spec u v Hv Hne) as (_ & Hv44 & (a & d & -> & Hd) & _). unfold labelled. split_and!.
  - rewrite !elem_of_app. intros [H|[H|[H|H]]]; [done|set_solver|by apply Hv44, elem_of_app|done].
  - by eexists _, _.
  - destruct Hend as [->|(t & e & -> & He)].
    + exists ((c :: s) ++ [58; 32] ++ a), d. split; [|done]. by rewrite app_nil_r, <-!app_assoc.
    + exists ((c :: s) ++ [58; 32] ++ (a ++ [d]) ++ t), e. split; [|done]. by rewrite <-!app_assoc.
Qed.

Lemma pieces_tidy ls cs : forallb label_ok ls = true → values_ok ls cs → Forall tidy (pieces ls cs).
Proof.
  intros Hl Hv. induction Hv as [|[l u] v ls cs Hv _ IH]; [constructor|]. cbn [forallb] in Hl. apply andb_true_iff in Hl as [Hl Hls].
  unfold pieces, piece_of. cbn [zip map concat fst snd]. destruct (v =s []) eqn:E; [by apply IH|].
  apply str_eqb_neq in E. constructor; [by apply piece_tidy|by apply IH].
Qed.

(** The criteria of other labels are passed over. *)
Lemma first_match_apart l u ls cs : forallb label_ok ls = true → values_ok ls cs →
  forallb (fun l' => negb (is_suffix l l')) (map fst ls) = true → first_match (label_re l u) (pieces ls cs) = [].
Proof.
  intros Hl Hv. revert Hl. induction Hv as [|[l' u'] v ls cs Hv _ IH]; intros Hl Hs; [done|]. cbn [forallb map fst] in Hl, Hs.
  apply andb_true_iff in Hl as [Hl Hls], Hs as [Hs1 Hs]. unfold pieces, piece_of. cbn [zip map concat fst snd]. destruct (v =s []) eqn:E; [by apply IH|].
  apply str_eqb_neq in E. cbn [app first_match]. apply label_ok_spec in Hl as ((_ & _ & Hl) & _).
  destruct (value_ok_spec _ v Hv E) as (_ & _ & _ & Hcb). rewrite exec_other_label; [by apply IH|done|done|]. by apply is_suffix_false, negb_true_iff.
Qed.

Lemma first_match_all ls cs : forallb label_ok ls = true → values_ok ls cs → apart (map fst ls) = true →
  map (fun l => first_match (label_re (fst l) (snd l)) (pieces ls cs)) ls = cs.
Proof.
  intros Hl Hv. revert Hl. induction Hv as [|[l u] v ls cs Hv Hvs IH]; intros Hl Ha; [done|]. cbn [forallb map fst apart] in Hl, Ha.
  apply andb_true_iff in Hl as [Hl Hls], Ha as [Ha1 Ha]. rewrite forallb_forall in Ha1.
  assert (Hother : first_match (label_re l u) (pieces ls cs) = []).
  { apply first_match_apart; [done|done|]. apply forallb_forall. intros x Hx%Ha1. by apply andb_true_iff in Hx as [? _]. }
  cbn [map fst snd]. unfold pieces at 1 2, piece_of. cbn [zip map concat fst snd].
  change (concat (map (λ x, if snd x =s [] then [] else [labelled x.1.1 x.1.2 x.2]) (zip ls cs))) with (pieces ls cs).
  destruct (v =s []) eqn:E.
  - apply str_eqb_eq in E as ->. cbn [app]. by rewrite Hother, IH.
  - apply str_eqb_neq in E. destruct (value_ok_spec _ v Hv E) as (Hnl & _ & _ & Hcb). apply label_ok_spec in Hl as ((_ & _ & Hl) & _).
    cbn [app first_match]. destruct (exec_labelled l u v Hnl) as (m & -> & ->). cbn [default]. f_equal.
    etrans; [|exact (IH Hls Ha)]. apply map_ext_in. intros [l' u'] Hin. cbn [fst snd]. rewrite exec_other_label; [done|done|done|].
    apply is_suffix_false, negb_true_iff. apply (in_map fst), Ha1, andb_true_iff in Hin. apply Hin.
Qed.

Lemma first_match_empty l u : first_match (label_re l u) [[]] = [].
Proof.
  cbn [first_match]. unfold exec, label_re. rewrite search_lit_None; [done|]. intros a b E. symmetry in E.
  apply app_eq_nil in E as [_ E]. apply app_eq_nil in E as [E _]. by apply app_eq_nil in E as [_ E].
Qed.

(** The text of criteria. *)
Definition criteria_text (ls : list (jstr * jstr)) (cs : list jstr) : jstr := commas (pieces ls cs).

Lemma parse_criteria qosStr UI cs : Labels qosStr UI → values_ok (criteria_labels qosStr UI) cs →
  parseRuleMatchCriteria qosStr UI (criteria_text (criteria_labels qosStr UI) cs) = Ret cs.
Proof.
  intros [Hl Ha] Hv. unfold parseRuleMatchCriteria. change re_comma_blanks with (sep_re 44).
  change (possibleCriteria qosStr UI) with (map (fun l => fst l ++ js ": (.*)" ++ snd l) (criteria_labels qosStr UI)).
  set (ls := criteria_labels qosStr UI) in *. set (st := split_re _ _).
  rewrite (exn_map_ret _ (fun c => match parse_re c with Some r => first_match r st | None => [] end)).
  - f_equal. rewrite map_map. etrans; [|apply (first_match_all ls cs Hl Hv Ha)]. apply map_ext_in. intros [l u] Hin. cbn [fst snd].
    rewrite forallb_forall in Hl. destruct (label_ok_spec l u (Hl _ Hin)) as ((Hp & _) & _ & (Hu & _) & _).
    rewrite parse_label by done. unfold st, criteria_text. destruct (pieces ls cs) as [|p ps] eqn:E.
    + apply first_match_empty.
    + rewrite split_commas; [done|done|]. rewrite <-E. by apply pieces_tidy; [apply forallb_forall|].
  - intros c Hc. apply list_elem_of_fmap in Hc as ([l u] & -> & Hin%list_elem_of_In). cbn [fst snd].
    rewrite forallb_forall in Hl. destruct (label_ok_spec l u (Hl _ Hin)) as ((Hp & _) & _ & (Hu & _) & _). by rewrite parse_label.
Qed.

(** ** Writing the text *)
Lemma join_snoc sep l x : l ≠ [] → join sep (l ++ [x]) = join sep l ++ sep ++ x.
Proof. intros Hl. by apply (join_app sep l [x]). Qed.

Lemma add_text_commas ps : Forall (fun p => p ≠ []) ps → fold_left add_text ps [] = commas ps.
Proof.
  induction ps as [|p ps IH] using rev_ind; [done|]. intros [Hps Hp]%Forall_app. rewrite fold_left_app. cbn [fold_left]. rewrite IH by done.
  unfold add_text, commas. destruct ps as [|q ps]; [done|]. rewrite join_snoc by done.
  destruct (join [44; 32] (q :: ps) =s []) eqn:E; [|done]. apply str_eqb_eq in E. inversion_clear Hps as [|?? Hq]. destruct q; [done|]. by destruct ps.
Qed.

Lemma tidy_ne p : tidy p → p ≠ [].
Proof. by intros (_ & (c & s & -> & _) & _). Qed.

(** The display text of a label gets its value. *)
Definition display (l : jstr * jstr) : jstr := fst l ++ js ": $" ++ snd l.

Lemma replace_display l v : label_ok l = true → replace_dollar (display l) v = labelled (fst l) (snd l) v.
Proof.
  destruct l as [l u]. intros ((Hp & _) & _)%label_ok_spec. unfold display, labelled. cbn [fst snd]. induction Hp as [|c l Hc _ IH]; [done|].
  cbn [app replace_dollar]. rewrite IH. by plain_cases c Hc.
Qed.

Lemma fold_pieces (shown : jstr → jstr) os ls cs text : forallb label_ok ls = true → length ls = length cs → Forall2 (fun o v => shown o = v) os cs →
  fold_left (fun text '(o, label) => let v := shown o in if v =s [] then text else add_text text (replace_dollar label v)) (zip os (map display ls)) text
  = fold_left add_text (pieces ls cs) text.
Proof.
  intros Hl Hn Hs. revert ls text Hl Hn. induction Hs as [|o v os cs <- _ IH]; intros [|l ls] text Hl Hn; [done..|].
  cbn [forallb] in Hl. apply andb_true_iff in Hl as [Hl Hls]. injection Hn as Hn. unfold pieces, piece_of. cbn [map zip fold_left concat fst snd].
  destruct (shown o =s []); cbn [app fold_left]; [by apply IH|]. rewrite replace_display by done. by apply IH.
Qed.

Lemma pieces_app ls ls' cs cs' : length ls = length cs → pieces (ls ++ ls') (cs ++ cs') = pieces ls cs ++ pieces ls' cs'.
Proof. intros H. unfold pieces. by rewrite zip_with_app, map_app, concat_app. Qed.

(** ** A number at the end *)
Lemma rmatch_set neg rs pre x t c k : rmatch (RSet neg rs) pre (x :: t) c k = if in_set neg rs x then k (x :: pre) t c else None.
Proof. done. Qed.

Lemma rep_set_all neg rs ds n pre c k res : Forall (fun x => in_set neg rs x = true) ds → (length ds <= n)%nat → k (rev ds ++ pre) [] c = Some res →
  rep_opt (rmatch (RSet neg rs)) n pre ds c k = Some res.
Proof.
  intros H. revert n pre. induction H as [|x ds Hx _ IH]; intros n pre Hn Hk.
  - destruct n; [done|]. exact Hk.
  - destruct n as [|n]; [cbn in Hn; lia|]. cbn [rep_opt]. rewrite rmatch_set, Hx. rewrite bool_decide_true by (cbn; lia).
    rewrite (IH n (x :: pre)); [done|cbn in Hn; lia|]. cbn [rev] in Hk. by rewrite <-app_assoc in Hk.
Qed.

Lemma number_group ds pre : Forall (fun c => is_digit c = true) ds → ds ≠ [] →
  rmatch (RGrp 1 (RRep 1 None (RSet false [(48, 57)]))) pre ds [] (fun p q c => Some (p, q, c)) = Some (rev ds ++ pre, [], [(1%nat, ds)]).
Proof.
  intros Hd Hne. assert (Hs : Forall (fun c => in_set false [(48, 57)] c = true) ds).
  { eapply Forall_impl; [done|]. intros c Hc. change (is_digit c || false = true). by rewrite Hc. }
  destruct Hs as [|d ds Hx Hs]; [done|].
  set (k := fun (p q : jstr) (c : caps) => Some (p, q, (1%nat, take (length (d :: ds) - length q)%nat (d :: ds)) :: c)).
  change (rmatch (RSet false [(48, 57)]) pre (d :: ds) [] (fun p q c => rep_opt (rmatch (RSet false [(48, 57)])) (length q) p q c k) =
    Some (rev (d :: ds) ++ pre, [], [(1%nat, d :: ds)])).
  rewrite rmatch_set, Hx. apply rep_set_all; [done|done|]. unfold k. rewrite Nat.sub_0_r, take_ge by done. cbn [rev]. by rewrite <-app_assoc.
Qed.

Lemma exec_class x ds : x ≠ 99 → Forall (fun c => is_digit c = true) ds → ds ≠ [] →
  ∃ m, exec re_class_no (x :: js "class_" ++ ds) = Some m ∧ find_cap 1 (m_caps m) = Some ds.
Proof.
  intros Hx Hd Hne. set (num := RGrp 1 (RRep 1 None (RSet false [(48, 57)]))). change re_class_no with (lit (js "class_") num).
  assert (H0 : exec_at (lit (js "class_") num) [] (x :: js "class_" ++ ds) = None).
  { apply rmatch_lit_None. change (js "class_") with [99; 108; 97; 115; 115; 95]. cbn [is_prefix]. by rewrite (proj2 (Z.eqb_neq 99 x)) by congruence. }
  assert (H1 : exec_at (lit (js "class_") num) [x] (js "class_" ++ ds) = Some (rev ds ++ rev (js "class_") ++ [x], [], [(1%nat, ds)])).
  { unfold exec_at. rewrite rmatch_lit. by apply number_group. }
  unfold exec. change (search (lit (js "class_") num) [] (x :: js "class_" ++ ds)) with
    (match exec_at (lit (js "class_") num) [] (x :: js "class_" ++ ds) with
     | Some (_, suf', c) => Some {| m_pre := []; m_str := take (length (x :: js "class_" ++ ds) - length suf')%nat (x :: js "class_" ++ ds); m_post := suf'; m_caps := c |}
     | None => match exec_at (lit (js "class_") num) [x] (js "class_" ++ ds) with
         | Some (_, suf', c) => Some {| m_pre := [x]; m_str := take (length (js "class_" ++ ds) - length suf')%nat (js "class_" ++ ds); m_post := suf'; m_caps := c |}
         | None => search (lit (js "class_") num) [99; x] (js "lass_" ++ ds) end end).
  rewrite H0, H1. by eexists.
Qed.

(** ** A table of rules *)
Record qrule := mkRule { q_criteria : list jstr; q_class : jstr; q_comment : jstr }.

Section rules.
Context (qosStr UI : jstr → jstr) (protocolMap : list (jstr * jstr)) (direction : jstr) `{HL : !Labels qosStr UI}.
Hypothesis (Hdir : direction = js "download" ∨ direction = js "upload").
Hypothesis (Hkeys : NoDup (map fst protocolMap)) (Hne : Forall (fun k => k ≠ []) (map fst protocolMap)).

Let ls := criteria_labels qosStr UI.
Let v_of (r : qrule) (i : nat) : jstr := nth i (q_criteria r) [].

(** Criteria as the forms make them: a family, a protocol in upper case and an
    application of the list. *)
Definition rule_ok (r : qrule) : Prop :=
  values_ok ls (q_criteria r) ∧ v_of r 0 ∈ [[]; UI (js "both"); js "IPv4"; js "IPv6"] ∧
  (toUpperCase (toLowerCase (v_of r 7)) = v_of r 7 ∧ toLowerCase (v_of r 7) ≠ js "both") ∧
  (v_of r 9 = [] ∨ v_of r 9 ∈ map snd protocolMap).

Definition rule_data (r : qrule) : list datum :=
  [DStr (criteria_text ls (q_criteria r)); DStr (q_class r); createRuleTableCommentButton (q_comment r); createRuleTableEditButton UI].

(** A row of the table and the rule it stands for; its comment may be shown, and a row
    in red has the default class. *)
Definition shows_rule (default_class : jstr) (red : list nat) (r : qrule) (x : nat * list datum) : Prop :=
  ∃ w b class, snd x = [DStr (criteria_text ls (q_criteria r)); DStr class; DObj w; b] ∧ w_html w = q_comment r ∧
    q_class r = if bool_decide (fst x ∈ red) then default_class else class.

Lemma values_length cs : values_ok ls cs → length cs = 10%nat.
Proof. intros H. by apply Forall2_length in H. Qed.

Lemma criteria_ten cs : values_ok ls cs → ∃ a b c d e f g h i j, cs = [a; b; c; d; e; f; g; h; i; j].
Proof.
  intros H%values_length. do 10 (destruct cs as [|? cs]; [done|]). destruct cs; [|done]. by repeat eexists.
Qed.

Definition layer7 (v : jstr) : jstr := if v =s [] then [] else default [] (protocol_id protocolMap v).

(** What is written for a rule; the empty ones are left out. *)
Definition rule_entries (order class : jstr) (r : qrule) : list (jstr * jstr) :=
  [(js "class", class); (js "test_order", order)]
  ++ zip_with (fun o v => (o, if v =s [] then [] else stored_value UI o v)) (rule_options ++ [js "comment"]) (take 9 (q_criteria r) ++ [q_comment r])
  ++ [(js "layer7", layer7 (v_of r 9))].

Lemma entries_names order class r : length (q_criteria r) = 10%nat → map fst (rule_entries order class r) =
  [js "class"; js "test_order"] ++ (rule_options ++ [js "comment"]) ++ [js "layer7"].
Proof.
  destruct r as [cs cl co]. cbn [q_criteria]. intros H. do 10 (destruct cs as [|? cs]; [done|]). reflexivity.
Qed.

Lemma entries_ok order class r : rule_ok r →
  Forall word (map fst (rule_entries order class r)) ∧ NoDup (map fst (rule_entries order class r)).
Proof. intros [H _]. rewrite entries_names by (by apply values_length). split; by_eval. Qed.

Lemma stored_ne o v : v ≠ [] → stored_value UI o v ≠ [].
Proof. intros Hv. unfold stored_value, toLowerCase. destruct (_ =s _); [by destruct v|]. destruct (_ =s _); [|done]. destruct (_ =s _); [done|by destruct v]. Qed.

(** The protocol of a description and the description of the protocol. *)
Lemma protocol_back v : v ∈ map snd protocolMap → ∃ k, protocol_id protocolMap v = Some k ∧ k ≠ [] ∧ protocol_name protocolMap k = v.
Proof.
  intros Hv. unfold protocol_id, protocol_name. destruct (List.find (fun x => snd x =s v) protocolMap) as [[k d]|] eqn:E.
  - apply find_some in E as [Hin Hd%str_eqb_eq]. cbn in Hd. subst d. exists k. split; [done|]. apply list_elem_of_In in Hin. split.
    { rewrite Forall_forall in Hne. apply Hne. by apply (list_elem_of_fmap_2' fst _ (k, v) k). }
    clear Hne Hv. induction protocolMap as [|[k' d] l IH]; [set_solver|]. cbn [map fst] in Hkeys. apply NoDup_cons in Hkeys as [Hni Hnd].
    cbn [List.find fst]. destruct (k' =s k) eqn:Ek.
    + apply str_eqb_eq in Ek as ->. apply elem_of_cons in Hin as [[= ->]|Hin]; [done|]. destruct Hni. by apply (list_elem_of_fmap_2' fst _ (k, v) k).
    + apply str_eqb_neq in Ek. apply elem_of_cons in Hin as [[= -> _]|Hin]; [done|by apply IH].
  - apply list_elem_of_fmap in Hv as (x & -> & Hin%list_elem_of_In). eapply find_none in E; [|done]. by rewrite str_eqb_refl in E.
Qed.

Lemma fold_given f id l u : (∀ o v, v ≠ [] → f o v ≠ []) →
  fold_left (fun u '(o, v) => if v =s [] then u else set_opt u id o (f o v)) l u =
  fold_left (fun u ov => set u pkg id (fst ov) (UStr (snd ov)) false) (given (map (fun '(o, v) => (o, if v =s [] then [] else f o v)) l)) u.
Proof.
  intros Hf. revert u. induction l as [|[o v] l IH]; intros u; [done|]. cbn [map fold_left]. destruct (v =s []) eqn:E.
  - unfold given. cbn [List.filter snd]. apply IH.
  - apply str_eqb_neq, (Hf o) in E. unfold given. cbn [List.filter snd]. rewrite (proj2 (str_eqb_neq _ _) E). cbn [negb fold_left fst snd]. apply IH.
Qed.

Definition order_of (i : nat) : jstr := str_of_Z (100 * Z.of_nat (S i)).
Definition rule_id (i : nat) : jstr := direction_rule direction ++ js "_" ++ order_of i.

Lemma given_app a b : given (a ++ b) = given a ++ given b.
Proof. apply List.filter_app. Qed.

(** [save_rule] writes a section. *)
Lemma save_rule_writes classData default_class red u i x r : rule_ok r → shows_rule default_class red r x →
  let class := class_id_of direction classData (q_class r) in class ≠ [] →
  save_rule qosStr UI protocolMap direction classData default_class red u (i, x) =
  Ret (write_section pkg u (rule_id i) (direction_rule direction) (given (rule_entries (order_of i) class r))).
Proof.
  intros Hr (w & b & cl & Hx & Hw & Hcl) class Hclass. destruct x as [rowId row]. cbn [fst snd] in *. subst row. destruct Hr as (Hv & _ & _ & Hl7).
  unfold save_rule. fold (order_of i). change (direction_rule direction ++ js "_" ++ order_of i) with (rule_id i).
  cbn [datum_str lookup list_lookup exn_bind]. rewrite parse_criteria by done. cbn [exn_bind]. rewrite <-Hcl. fold class.
  assert (Ho : order_of i ≠ []) by (apply str_of_Z_digits; lia).
  rewrite (fold_given (stored_value UI)) by apply stored_ne. unfold write_section, rule_entries. rewrite !given_app, !fold_left_app.
  assert (Hg2 : given [(js "class", class); (js "test_order", order_of i)] = [(js "class", class); (js "test_order", order_of i)]).
  { unfold given. cbn [List.filter snd]. by rewrite (proj2 (str_eqb_neq _ _) Hclass), (proj2 (str_eqb_neq _ _) Ho). }
  rewrite Hg2. cbn [fold_left fst snd]. unfold set_opt.
  rewrite Hw. set (es := given _). set (es' := given (zip_with _ _ _)).
  assert (Ees : es = es').
  { unfold es, es'. f_equal. destruct (criteria_ten _ Hv) as (v0 & v1 & v2 & v3 & v4 & v5 & v6 & v7 & v8 & v9 & ->). reflexivity. }
  rewrite Ees. f_equal. unfold layer7. change (nth 9 (q_criteria r) []) with (v_of r 9). destruct Hl7 as [->|Hl7]; [done|].
  destruct (protocol_back _ Hl7) as (k & Ek & Hk & _). destruct (v_of r 9 =s []); [done|]. rewrite Ek. change (default [] (Some k)) with k.
  unfold given. cbn [List.filter snd]. by rewrite (proj2 (str_eqb_neq _ _) Hk).
Qed.

(** *** Reading a rule *)
Definition kept (o v : jstr) : jstr := if v =s [] then [] else stored_value UI o v.

Lemma kept_other o v : (o =s js "proto") = false → (o =s js "family") = false → shown_value UI o (kept o v) = v.
Proof.
  intros H1 H2. unfold shown_value, kept, stored_value. rewrite H1, H2. destruct (v =s []) eqn:E; [|done]. by apply str_eqb_eq in E as ->.
Qed.

Lemma kept_proto v : toUpperCase (toLowerCase v) = v → toLowerCase v ≠ js "both" → shown_value UI (js "proto") (kept (js "proto") v) = v.
Proof.
  intros H1 H2. unfold shown_value, kept, stored_value. change (js "proto" =s js "proto") with true. cbv iota. destruct (v =s []) eqn:E.
  - apply str_eqb_eq in E as ->. reflexivity.
  - by rewrite (proj2 (str_eqb_neq _ _) H2).
Qed.

Lemma kept_family v : v ∈ [[]; UI (js "both"); js "IPv4"; js "IPv6"] → shown_value UI (js "family") (kept (js "family") v) = v.
Proof.
  intros Hv. unfold shown_value, kept, stored_value. change (js "family" =s js "proto") with false. change (js "family" =s js "family") with true. cbv iota.
  destruct (v =s []) eqn:E; [by apply str_eqb_eq in E as ->|]. destruct (v =s UI (js "both")) eqn:Eb; [by apply str_eqb_eq in Eb as ->|].
  apply str_eqb_neq in E, Eb. rewrite !elem_of_cons in Hv. destruct Hv as [->|[->|[->|[->|Hv]]]]; [done..|by apply elem_of_nil in Hv].
Qed.

Section read.
Context (u : UCIContainer) (i : nat) (t class : jstr) (r : qrule).
Hypothesis (Hh : holds_rec pkg u (rule_id i, t, given (rule_entries (order_of i) class r))) (Hr : rule_ok r).

Lemma entry_read o v : (o, v) ∈ rule_entries (order_of i) class r → gets u pkg (rule_id i) o = v.
Proof.
  intros Hin. unfold gets. destruct (entries_ok (order_of i) class r Hr) as [Hw Hn]. by rewrite (given_read pkg u _ _ _ Hh Hw Hn o v Hin).
Qed.

Lemma class_read : gets u pkg (rule_id i) (js "class") = class.
Proof. apply entry_read. by left. Qed.

Lemma priority_read : rule_priority u (rule_id i) = Int (100 * Z.of_nat (S i)).
Proof.
  unfold rule_priority. rewrite (entry_read (js "test_order") (order_of i)) by (right; by left). unfold order_of.
  destruct (str_of_Z_digits (100 * Z.of_nat (S i))) as (_ & H & _); [lia|]. rewrite (proj2 (str_eqb_neq _ _) H). apply toNumber_str_of_Z. lia.
Qed.

Lemma comment_read : gets u pkg (rule_id i) (js "comment") = q_comment r.
Proof.
  destruct Hr as [Hv _]. destruct (criteria_ten _ Hv) as (v0 & v1 & v2 & v3 & v4 & v5 & v6 & v7 & v8 & v9 & E).
  rewrite (entry_read (js "comment") (kept (js "comment") (q_comment r))).
  - unfold kept. destruct (q_comment r =s []) eqn:Ec; [by apply str_eqb_eq in Ec as ->|done].
  - unfold rule_entries. rewrite E. apply (list_elem_of_lookup_2 _ 11). reflexivity.
Qed.

Lemma options_read : Forall2 (fun o v => shown_value UI o (gets u pkg (rule_id i) o) = v) rule_options (take 9 (q_criteria r)).
Proof.
  pose proof Hr as (Hv & H0 & [H7 H7'] & _). destruct (criteria_ten _ Hv) as (v0 & v1 & v2 & v3 & v4 & v5 & v6 & v7 & v8 & v9 & E).
  assert (Hk : ∀ k o v, rule_options !! k = Some o → take 9 (q_criteria r) !! k = Some v → gets u pkg (rule_id i) o = kept o v).
  { intros k o v Ho Hc. apply entry_read. unfold rule_entries. apply elem_of_app. right. apply elem_of_app. left.
    apply (list_elem_of_lookup_2 _ k). rewrite lookup_zip_with, (lookup_app_l_Some _ _ _ _ Ho), (lookup_app_l_Some _ _ _ _ Hc). reflexivity. }
  unfold v_of in H0, H7, H7'. rewrite E in *. apply Forall2_same_length_lookup. split; [reflexivity|]. intros k o v Ho Hc. rewrite (Hk k o v Ho Hc).
  clear Hk. do 9 (destruct k as [|k]; [injection Ho as <-; injection Hc as <-; first [by apply kept_other|by apply kept_family|by apply kept_proto]|]). done.
Qed.

(** The rule is shown as it was. *)
Lemma text_read : rule_text qosStr UI protocolMap u (rule_id i) = criteria_text ls (q_criteria r).
Proof.
  pose proof options_read as Ho. pose proof Hr as (Hv & _ & _ & Hl7). destruct HL as [Hlok _]. change (forallb label_ok ls = true) in Hlok.
  unfold rule_text. change (zip rule_options (displayList qosStr UI)) with (zip rule_options (map display (take 9 ls))).
  assert (Hl9 : forallb label_ok (take 9 ls) = true).
  { apply forallb_forall. intros x Hx. rewrite forallb_forall in Hlok. apply Hlok. rewrite <-(take_drop 9 ls). apply in_app_iff. by left. }
  rewrite (fold_pieces (fun o => shown_value UI o (gets u pkg (rule_id i) o)) rule_options (take 9 ls) (take 9 (q_criteria r)));
    [|done|by rewrite !length_take, (values_length _ Hv)|done].
  rewrite (entry_read (js "layer7") (layer7 (v_of r 9))) by (unfold rule_entries; rewrite !elem_of_app; right; right; by left).
  assert (Hcs : q_criteria r = take 9 (q_criteria r) ++ [v_of r 9]).
  { unfold v_of. destruct (criteria_ten _ Hv) as (v0 & v1 & v2 & v3 & v4 & v5 & v6 & v7 & v8 & v9 & ->). reflexivity. }
  unfold criteria_text. rewrite <-add_text_commas by (eapply Forall_impl; [by apply pieces_tidy|]; intros; by apply tidy_ne).
  assert (Hsplit : pieces ls (q_criteria r) = pieces (take 9 ls) (take 9 (q_criteria r)) ++ pieces [(qosStr (js "APro"), [])] [v_of r 9]).
  { rewrite <-pieces_app by (by rewrite !length_take, (values_length _ Hv)). by rewrite <-Hcs. }
  rewrite Hsplit, fold_left_app. set (text := fold_left _ _ _). unfold layer7, pieces, piece_of. cbn [zip_with map concat fst snd].
  destruct Hl7 as [E9|H9]; [by rewrite E9|]. destruct (protocol_back _ H9) as (k & Ek & Hk & Hn). destruct (v_of r 9 =s []); [done|].
  rewrite Ek. change (default [] (Some k)) with k. rewrite (proj2 (str_eqb_neq _ _) Hk), Hn. cbn [app fold_left]. unfold labelled. by rewrite app_nil_r.
Qed.

End read.

(** *** Classes *)

(** The number in the name of a class is its place. *)
Lemma class_of_id classTable k c : classTable !! k = Some c → class_of classTable (class_id direction k) = Ret (ci_Name c).
Proof.
  intros Hc. destruct (str_of_Z_digits (Z.of_nat (S k))) as (Hd & Hn & _); [lia|].
  assert (E : ∃ x, x ≠ 99 ∧ class_id direction k = x :: js "class_" ++ str_of_Z (Z.of_nat (S k))).
  { destruct Hdir as [->| ->]; [exists 100|exists 117]; by split. }
  destruct E as (x & Hx & ->). destruct (exec_class x _ Hx Hd Hn) as (m & Hm & Hcap). unfold class_of. rewrite Hm. cbn [exn_of_option exn_bind].
  rewrite Hcap. cbn [exn_of_option exn_bind]. rewrite parseInt_str_of_Z by lia.
  rewrite (proj2 (Z.ltb_ge _ _)) by lia. replace (Z.to_nat (Z.of_nat (S k) - 1)) with k by lia. by rewrite Hc.
Qed.

Definition class_rows (classData : list (list datum)) (classTable : list classinfo) : Prop :=
  Forall2 (fun row c => row !! 0%nat = Some (DStr (ci_Name c))) classData classTable.

Lemma class_id_found classData classTable k c : class_rows classData classTable → NoDup (map ci_Name classTable) →
  classTable !! k = Some c → class_id_of direction classData (ci_Name c) = class_id direction k.
Proof.
  intros Hrows Hnd Hc. unfold class_id_of. set (f := fun id '(i, row) => _).
  assert (Hno : ∀ D T n id, class_rows D T → ci_Name c ∉ map ci_Name T → fold_left f (imap (fun j row => ((n + j)%nat, row)) D) id = id).
  { intros D T n id H. revert n. induction H as [|row c' D T Hrow _ IH]; intros n Hni; [done|]. cbn [imap fold_left f map] in *.
    unfold datum_is. rewrite Hrow, bool_decide_false by set_solver. erewrite imap_ext; [apply (IH (S n)); set_solver|]. intros j x _. cbn. by rewrite Nat.add_succ_r. }
  assert (Hyes : ∀ n id, fold_left f (imap (fun j row => ((n + j)%nat, row)) classData) id = class_id direction (n + k)); [|exact (Hyes 0%nat _)].
  revert k Hc. induction Hrows as [|row c' D T Hrow HD IH]; intros k Hc n id; [done|]. cbn [imap fold_left f map] in *. apply NoDup_cons in Hnd as [Hni Hnd].
  assert (Hshift : imap ((fun j row => ((n + j)%nat, row)) ∘ S) D = imap (fun j row => ((S n + j)%nat, row)) D).
  { apply imap_ext. intros j x _. cbn. by rewrite Nat.add_succ_r. }
  rewrite Hshift. destruct k as [|k].
  - injection Hc as ->. unfold datum_is. rewrite Hrow, bool_decide_true by done. by rewrite (Hno D T).
  - rewrite (IH Hnd k Hc). by rewrite Nat.add_succ_r.
Qed.

(** *** Order *)
Lemma insert_last {A} (x : num * A) l : Forall (fun y => Num.ltb (fst x) (fst y) = false) l → insert_rule x l = l ++ [x].
Proof. induction 1 as [|y l Hy _ IH]; [done|]. cbn [insert_rule app]. by rewrite Hy, IH. Qed.

Lemma sorted_stays {A} (l : list (num * A)) : (∀ i x, l !! i = Some x → fst x = Int (100 * Z.of_nat (S i))) → sort_rules l = l.
Proof.
  induction l as [|x l IH] using rev_ind; intros H; [done|]. unfold sort_rules. rewrite fold_left_app. fold (sort_rules l). rewrite IH.
  - cbn [fold_left]. apply insert_last, Forall_forall. intros y (j & Hj)%list_elem_of_lookup.
    rewrite (H (length l) x) by (by rewrite lookup_app_r, Nat.sub_diag). rewrite (H j y) by (by apply lookup_app_l_Some).
    apply lookup_lt_Some in Hj. numsimpl. apply Z.ltb_ge. lia.
  - intros j y Hj. apply H. by apply lookup_app_l_Some.
Qed.


(** *** The table *)
Definition rule_rec (classData : list (list datum)) (i : nat) (r : qrule) : section_rec :=
  (rule_id i, direction_rule direction, given (rule_entries (order_of i) (class_id_of direction classData (q_class r)) r)).

Lemma word_rule_id i : word (rule_id i).
Proof.
  unfold rule_id, order_of. rewrite app_assoc. apply word_numbered; [|lia]. destruct Hdir as [->| ->]; by_eval.
Qed.

Lemma rule_type_ne : direction_rule direction ≠ [].
Proof. by destruct Hdir as [->| ->]. Qed.

Lemma rule_id_inj i j : rule_id i = rule_id j → i = j.
Proof. unfold rule_id, order_of. intros E%app_inv_head%app_inv_head%str_of_Z_inj; lia. Qed.

Lemma class_known classData classTable name : class_rows classData classTable → NoDup (map ci_Name classTable) → name ∈ map ci_Name classTable →
  class_id_of direction classData name ≠ [] ∧ class_of classTable (class_id_of direction classData name) = Ret name.
Proof.
  intros Hrows Hnd Hin. apply list_elem_of_fmap in Hin as (c & -> & (k & Hk)%list_elem_of_lookup).
  rewrite (class_id_found classData classTable k c Hrows Hnd Hk). split; [|by apply class_of_id]. by destruct Hdir as [->| ->].
Qed.

(** C15: the rules that are saved come back.  For a language pack whose labels are
    plain and of which none is the end of another, the rows of the table are written
    to sections, and loading these gives rows with the same criteria, classes and
    comments in the same order; a rule whose class was removed has the default class. *)
Theorem rules_roundtrip classData classTable default_class red rs D u :
  class_rows classData classTable → NoDup (map ci_Name classTable) →
  Forall rule_ok rs → Forall (fun r => q_class r ∈ map ci_Name classTable) rs → Forall2 (shows_rule default_class red) rs D →
  wf u → sectioned u → getAllSectionsOfType u pkg (direction_rule direction) = Ret [] → (∀ i, section_key pkg (rule_id i) ∉ keys u) →
  ∃ u' ids rows,
    exn_fold (save_rule qosStr UI protocolMap direction classData default_class red) (imap (fun i x => (i, x)) D) u = Ret u' ∧
    getAllSectionsOfType u' pkg (direction_rule direction) = Ret ids ∧
    exn_map (rule_row qosStr UI protocolMap u' classTable) ids = Ret rows ∧
    map snd (sort_rules (zip (map (rule_priority u') ids) rows)) = map rule_data rs.
Proof.
  intros Hrows Hnd Hok Hcl HD Hu Hs Hnone Hfr. set (recs := imap (rule_rec classData) rs).
  assert (Hok' : ∀ i r, rs !! i = Some r → rule_ok r ∧ class_id_of direction classData (q_class r) ≠ [] ∧
    class_of classTable (class_id_of direction classData (q_class r)) = Ret (q_class r)).
  { intros i r Hi. rewrite Forall_lookup in Hok, Hcl. split; [by eapply Hok|]. by apply class_known; [..|eapply Hcl]. }
  assert (Hlook : ∀ i x, recs !! i = Some x → ∃ r, rs !! i = Some r ∧ x = rule_rec classData i r).
  { intros i x. unfold recs. rewrite list_lookup_imap. destruct (rs !! i) as [r|]; [|done]. intros [= <-]. by exists r. }
  destruct (write_sections_spec pkg ltac:(by_eval) recs u) as (Wf & Ws & Wq & Wh & _); [| |done|done| |].
  { apply Forall_lookup. intros i x (r & Hi & ->)%Hlook. destruct (Hok' i r Hi) as (Hr & _).
    destruct (entries_ok (order_of i) (class_id_of direction classData (q_class r)) r Hr) as [He1 He2].
    destruct (given_ok _ He1 He2). split_and!; [apply word_rule_id|apply rule_type_ne|done|done]. }
  { apply NoDup_alt. intros i j x. rewrite !list_lookup_fmap. destruct (recs !! i) as [a|] eqn:Ei, (recs !! j) as [b|] eqn:Ej; [|done..].
    apply Hlook in Ei as (r1 & _ & ->), Ej as (r2 & _ & ->). intros [= <-] [= E]. symmetry. apply rule_id_inj. exact E. }
  { apply Forall_lookup. intros i x (r & _ & ->)%Hlook. apply Hfr. }
  set (u' := write_sections pkg u recs) in *. rewrite Forall_lookup in Wh.
  assert (Hread : ∀ i r, rs !! i = Some r → rule_row qosStr UI protocolMap u' classTable (rule_id i) = Ret (rule_data r) ∧ rule_priority u' (rule_id i) = Int (100 * Z.of_nat (S i))).
  { intros i r Hi. destruct (Hok' i r Hi) as (Hr & _ & Hc). assert (Hh : recs !! i = Some (rule_rec classData i r)) by (unfold recs; by rewrite list_lookup_imap, Hi).
    apply Wh in Hh. split; [|by eapply priority_read]. unfold rule_row. erewrite class_read by done. rewrite Hc. cbn [exn_bind].
    erewrite text_read, comment_read by done. done. }
  exists u', (imap (fun i _ => rule_id i) rs), (map rule_data rs). split_and!.
  - apply (write_rows pkg _ (rule_rec classData) (fun r x => r ∈ rs ∧ shows_rule default_class red r x)).
    + intros u0 i r x [(j & Hj)%list_elem_of_lookup Hx]. destruct (Hok' j r Hj) as (Hr & Hc & _). by apply save_rule_writes.
    + apply Forall2_same_length_lookup. split; [by eapply Forall2_length|]. intros i r x Hi Hx. split; [by eapply list_elem_of_lookup_2|]. by eapply Forall2_lookup_lr.
  - rewrite (Wq _ [] Hnone). cbn [app]. f_equal. unfold names_of_type. rewrite filter_all.
    + unfold recs. apply (fmap_imap (rule_rec classData) rec_name rs).
    + apply Forall_lookup. intros i x (r & _ & ->)%Hlook. apply str_eqb_refl.
  - apply exn_map_imap. intros i r Hi. by apply Hread.
  - rewrite sorted_stays.
    + apply snd_zip. by rewrite !length_map, length_imap.
    + intros i x Hx. apply lookup_zip_with_Some in Hx as (n & d & -> & Hn & _). cbn [fst]. rewrite list_lookup_fmap, list_lookup_imap in Hn.
      destruct (rs !! i) as [r|] eqn:Ei; [|done]. injection Hn as <-. by eapply Hread.
Qed.

End rules.

(** ** Language packs *)
Definition strings_of (l : list (jstr * jstr)) (key : jstr) : jstr := default [] (snd <$> List.find (fun x => fst x =s key) l).

(** The labels of the English pack. *)
Definition english_qos : jstr → jstr := strings_of
  [(js "MaxPktLen", js "Maximum Packet Length"); (js "MinPktLen", js "Minimum Packet Length"); (js "TrProto", js "Transport Protocol");
   (js "Src", js "Source"); (js "SrcP", js "Source Port"); (js "Dst", js "Destination"); (js "DstP", js "Destination Port");
   (js "Connb", js "Connection bytes"); (js "APro", js "Application Protocol");
   (js "NOLIMIT", js "nolimit"); (js "ZERO", js "zero"); (js "YES", js "Yes")].

Definition english_ui : jstr → jstr := strings_of
  [(js "IPFam", js "IP Family"); (js "byt", js "bytes"); (js "KBy", js "kBytes"); (js "both", js "both"); (js "Edit", js "Edit"); (js "Remove", js "Remove")].

#[export] Instance english_labels : Labels english_qos english_ui.
Proof. split; reflexivity. Qed.

(** The labels of the German pack. *)
Definition german_qos : jstr → jstr := strings_of
  [(js "MaxPktLen", js "Maximale Paketl" ++ [228] ++ js "nge"); (js "MinPktLen", js "Minimale Paketl" ++ [228] ++ js "nge");
   (js "TrProto", js "Transport Protokoll"); (js "Src", js "Quelle"); (js "SrcP", js "Quellport"); (js "Dst", js "Ziel"); (js "DstP", js "Zielport");
   (js "Connb", js "Transferierte Datenmenge"); (js "APro", js "Anwendungsprotokoll")].

Definition german_ui : jstr → jstr := strings_of
  [(js "IPFam", js "IP Family"); (js "byt", js "Bytes"); (js "KBy", js "kBytes"); (js "both", js "beide")].

#[export] Instance german_labels : Labels german_qos german_ui.
Proof. split; reflexivity. Qed.

(** The labels of the Spanish pack: the one of a source is the end of the one of a
    source port. *)
Definition spanish_qos : jstr → jstr := strings_of
  [(js "MaxPktLen", js "Longitud M" ++ [225] ++ js "xima de Paquete"); (js "MinPktLen", js "Longitud M" ++ [237] ++ js "nima de Paquete");
   (js "TrProto", js "Protocolo de Transporte"); (js "Src", js "Origen"); (js "SrcP", js "Puerto de Origen"); (js "Dst", js "Destino");
   (js "DstP", js "Puerto de Destino"); (js "Connb", js "Bytes de la Conexi" ++ [243] ++ js "n"); (js "APro", js "Protocolo de Aplicaci" ++ [243] ++ js "n")].

Definition spanish_ui : jstr → jstr := strings_of
  [(js "IPFam", js "IP Family"); (js "byt", js "bytes"); (js "KBy", js "kBytes"); (js "both", js "ambos")].

(** With the Spanish pack only the two labels of a port break the rule. *)
Lemma spanish_labels : forallb label_ok (criteria_labels spanish_qos spanish_ui) = true ∧ apart (map fst (criteria_labels spanish_qos spanish_ui)) = false.
Proof. split; reflexivity. Qed.

Lemma spanish_port_is_source :
  parseRuleMatchCriteria spanish_qos spanish_ui (criteria_text (criteria_labels spanish_qos spanish_ui) [[]; []; js "80"; []; []; []; []; []; []; []])
  = Ret [[]; js "80"; js "80"; []; []; []; []; []; []; []].
Proof. reflexivity. Qed.

(** The Russian label of the bytes of a connection has parentheses, which are symbols
    of expressions. *)
Definition russian_connb : jstr := [1050; 1072; 1085; 1072; 1083; 32; 40; 1073; 1072; 1081; 1090; 41].
Definition russian_kby : jstr := [32; 1082; 1041; 1072; 1081; 1090].

Lemma russian_bytes_lost : ∃ r, parse_re (russian_connb ++ js ": (.*)" ++ russian_kby) = Some r ∧
  first_match r [labelled russian_connb russian_kby (js "512")] = [].
Proof. eexists. split; [reflexivity|]. reflexivity. Qed.

(** ** A table with a rule *)
Definition sample_rule : qrule :=
  mkRule [js "both"; js "192.168.1.5"; []; []; js "80-81"; []; []; js "TCP"; js "512"; js "Secure Shell"] (js "Normal") (js "note").
Definition sample_classes : list classinfo :=
  [mkClass (js "Fast") (js "60") (js "zero") (js "nolimit") [] None None NaN; mkClass (js "Normal") (js "40") (js "zero") (js "nolimit") [] None None NaN].
Definition sample_protocols : list (jstr * jstr) := [(js "http", js "HTTP"); (js "ssh", js "Secure Shell")].

Lemma rules_roundtrip_witness : ∃ u' ids rows,
  exn_fold (save_rule english_qos english_ui sample_protocols (js "download") [[DStr (js "Fast")]; [DStr (js "Normal")]] (js "Normal") [7%nat])
    [(0%nat, (7%nat, [DStr (criteria_text (criteria_labels english_qos english_ui) (q_criteria sample_rule)); DStr (js "Gone");
       createRuleTableCommentButton (js "note"); createRuleTableEditButton english_ui]))] new = Ret u' ∧
  exn_map (rule_row english_qos english_ui sample_protocols u' sample_classes) ids = Ret rows ∧
  map snd (sort_rules (zip (map (rule_priority u') ids) rows)) = [rule_data english_qos english_ui sample_rule].
Proof.
  destruct (rules_roundtrip english_qos english_ui sample_protocols (js "download") (or_introl eq_refl) ltac:(by_eval) ltac:(by_eval)
    [[DStr (js "Fast")]; [DStr (js "Normal")]] sample_classes (js "Normal") [7%nat] [sample_rule]
    [(7%nat, [DStr (criteria_text (criteria_labels english_qos english_ui) (q_criteria sample_rule)); DStr (js "Gone");
       createRuleTableCommentButton (js "note"); createRuleTableEditButton english_ui])] new) as (u' & ids & rows & E & _ & R & S).
  - repeat constructor.
  - by_eval.
  - constructor; [|constructor]. split_and!; [|by_eval|reflexivity|by_eval|right; by_eval]. repeat (constructor; [reflexivity|]). constructor.
  - by_eval.
  - constructor; [|constructor]. by eexists _, _, _.
  - apply new_wf.
  - apply check_sectioned; [apply new_wf|reflexivity].
  - reflexivity.
  - intros i Hi. by apply elem_of_nil in Hi.
  - exists u', ids, rows. split_and!; [exact E|exact R|exact S].
Defined.
